(* ===== verification/_CoqProject ===== *)
-Q . S2P
Prelude.v
Bytes.v
Pmm.v
PmmFacts.v
PmmInit.v
Frames.v
Kheap.v
KheapFacts.v
Vmm.v
VmmFacts.v
VmmLife.v
VmmDup.v
VmmDemo.v
UserMem.v
Aspace.v
Budget.v
Elf.v
Sched.v
SchedFacts.v
SchedRun.v
Input.v
Proc.v
ProcFacts.v
Signal.v
Tramp.v
Brk.v
Clients.v
Task.v
TaskFacts.v
SignalFacts.v
Cstring.v
BlkDev.v
BlkCache.v
BlkCacheFacts.v
BlkHealth.v
Journal.v
Mbr.v
FatName.v
FatNameFacts.v
FatTable.v
FatTableFacts.v
FatDir.v
FatFile.v
FatMeta.v
FatReady.v
FatDirFacts.v
FatWalk.v
FatMetaFacts.v
FatData.v
FatWrite.v
FatRename.v
Ansi.v
Fb.v
FbFacts.v
Console.v
ConsoleFacts.v
Print.v
PrintFacts.v
Vfs.v
VfsFacts.v
VfsFile.v
FatVfs.v
Exec.v
ExecFacts.v
ExecCall.v
Mount.v
MountFacts.v
Boot.v
Ide.v
Syscall.v
SyscallFacts.v
