(* ===== verification/Prelude.v ===== *)
(** * A verification of lnxrm

    lnxrm is a small Unix-like kernel for x86-64 with a few user programs.  This
    library models the parts of the kernel that compute (allocators, page
    tables, scheduler, processes, signals, block cache, FAT32, virtual file
    system, console) as Rocq functions that follow the C source, and proves what
    makes them correct.  Paths below are relative to [src/].

    ** The program and its parts

    Physical memory is handed out by a buddy allocator ([kernel/mm/pmm.c]).  Two
    clients live on its frames: the kernel heap ([kernel/mm/kheap.c]) and the
    page tables of the user address spaces ([kernel/mm/vmm.c]).  Tasks are kept
    in a fixed table and run from per-CPU queues ([kernel/sched.c]).  A process
    has an address space, a kernel stack and open files; system calls
    ([kernel/syscall.c], [kernel/task.c], [kernel/signal.c]) create, replace,
    signal and end processes and move data between user memory and the kernel.
    Files are reached through the virtual file system ([kernel/fs/vfs.c]), which
    routes a path to the FAT32 driver ([kernel/fs/fat32/]) or to the console
    device.  The driver works on a partition ([kernel/fs/mbr.c]) through a sector
    cache ([kernel/fs/blk_cache.c]) and a write journal.  Text goes through
    [kernel/print.c] to the VGA screen, the framebuffer ([kernel/framebuffer.c])
    and the serial line; keys come in through [kernel/isr.c].

    ** How it is modelled

    - Integers are [Z]; [u8] .. [u64] and [i8] .. [i64] (this file) are the
      conversions of C, written where the source computes at a width and the
      value may not fit.
    - A function that can panic, loop or go wrong returns an [outcome]: [Ret],
      [Panic] for the kernel's own panic, and [Stuck] for undefined behaviour (a
      null pointer, an access outside an object, a store to an unmapped page).
      That a function is not [Stuck] is part of the theorems on it.
    - A mutable structure is a record and an operation a function on it; arrays
      and memories are functions with [<[i := v]> f] as the store.  Objects on the
      heap are the heap block together with a typed value, found by address.
    - Linked lists, free lists, bitmaps, page tables, run queues, FAT chains and
      directory records have the representation of the source; the theorems
      relate them to lists, maps and trees.
    - A frame is reached at its physical address: the alias of RAM in the upper
      half is taken to be complete and one-to-one.  [vmm_init] (modelled in
      [Vmm]) makes it so for frames below 1 GiB only, and leaves out or remaps
      the slots 96, 97, 104, 112, 128 and 256 to 271 of its directory; a block
      that [kmalloc] or the page tables get from such a slot is outside what the
      theorems on them say.
    - Locks make the operations of a component atomic and are left out, as are
      the TLB, the hardware context switch, log messages and the interrupt flag.
    - Hardware and code outside the repository are parameters: the block device
      ([BlkDev.Disks] with [DiskLaws]), the ATA device ([Ide.Ports] with
      [AtaLaws], the protocol, and [CleanStatus], what the driver needs beyond
      it and QEMU's controller gives: [ERR] and [DRQ] are clear while [BSY] is
      set), the display registers, the code bytes of the trampoline, what is left in uninitialised buffers ([scratch]).  Each
      interface is a class; the theorems that use it have a witness in which it
      is instantiated by a concrete function.

    Components are put together through classes.  [Frames] and [FrameLaws] are
    what the frame allocator promises to heap and page tables; the instance in
    [Frames] proves that [pmm.c] keeps it.  [Disks], [DiskLaws] and [DiskHealth]
    stand between file system and devices; partition devices and the RAM disk of
    the examples are instances.  [FileSys] and [FileLaws] stand between virtual
    file system and driver; [FatVfs] proves that the FAT32 driver keeps them.

    ** Files

    Memory.  [Bytes]: little-endian buffers.  [Pmm], [PmmFacts], [PmmInit]:
    [pmm.c]; the invariant that the free lists and bitmaps describe a set of
    aligned disjoint blocks, allocation and release on that set, seeding from the
    E820 map, safety of every reachable state.  [Frames]: the interface.  [Kheap],
    [KheapFacts]: [kheap.c].  [Vmm], [VmmFacts], [VmmLife], [VmmDup], [VmmDemo]:
    [vmm.c]; an address space is a tree of frames, and map, unmap, create,
    destroy and copy are described on the tree.  [UserMem]: the checked copies of
    [task.c].  [Aspace]: the address space as a map from addresses to bytes
    ([view]), on which the process calls are specified.  [Budget]: how many free
    frames a change of an address space can take.

    Processes.  [Sched], [SchedFacts], [SchedRun]: [sched.c], [percpu.c].
    [Input]: the queues of [isr.c].  [Proc], [ProcFacts]: descriptors, reference
    counts, exit.  [Signal], [SignalFacts], [Tramp]: [signal.c] and the signal
    calls.  [Elf]: [elf.c].  [Brk]: [sys_brk].  [Clients]: heap and address
    spaces as clients of one allocator.  [Task], [TaskFacts]: fork and waitpid.
    [Exec], [ExecFacts], [ExecCall]: execve and the first process.  [Syscall],
    [SyscallFacts]: the trap entry, the switch over the call numbers and the
    calls that [syscall.c] itself defines.

    Storage.  [Cstring]: [lib/string.c].  [BlkDev], [Mbr]: devices, partitions.
    [Ide]: the IDE driver over the ports of an ATA device.
    [BlkCache], [BlkCacheFacts], [BlkHealth]: the cache.  [Journal]: the journal.
    [FatName], [FatNameFacts]: names.  [FatTable], [FatTableFacts]: the table,
    chains, mounting.  [FatDir], [FatFile], [FatMeta]: directories, contents,
    namespace.  [FatReady], [FatDirFacts], [FatWalk], [FatMetaFacts], [FatData],
    [FatWrite], [FatRename]: their correctness on a device that works.  [Vfs], [VfsFacts],
    [VfsFile], [FatVfs], [Mount], [MountFacts]: [vfs.c] over the driver.

    Text.  [Ansi]: escape sequences.  [Fb], [FbFacts]: the framebuffer console.
    [Console], [ConsoleFacts]: the VGA console and the boot log.  [Print],
    [PrintFacts]: formatted output.

    Boot.  [Boot]: what [kernel/main.c] reads from the boot loader, and the start
    of the frame allocator on it.

    ** What the theorems show

    - Memory: allocation and release change the free set by exactly one block,
      a request that can be served is served, initialisation frees exactly the
      frames of its window that touch no reserved range (the window starts
      behind the kernel image, and where the selected RAM region starts higher
      it contains the hole in between, [pmm_hands_out_hole]); no reachable state of heap and
      frame clients hands memory out twice, and none that belongs to the
      framebuffer the boot loader described; an address space returns each of its
      frames once, and fork's copy has the same bytes in frames of its own.
    - Processes: run queues are the lists they stand for; a scheduled task is
      the head of its queue; fork, execve, brk and waitpid have the effect on
      memory, descriptors, signals and queues that their names promise and keep
      the invariant of the whole kernel ([executing]), or fail, for a lack of
      memory only when fewer frames are free than the stated number, or panic;
      execve and the loader are for programs whose segments end below the top of
      user space, which the kernel does not check ([elf_load_faults]); reference counts of files
      equal the number of descriptors in every reachable state; a handler returns
      to the interrupted context with every register but [rax], and nothing on a user stack makes
      sigreturn resume kernel code; checked copies touch mapped user bytes only;
      a call that does not block or enter a file system keeps the invariant and
      the other processes whatever the registers of the caller hold.
    - Storage: the IDE driver makes an ATA device an array of sectors, but for
      writes that the device reports as failed after it has taken the data; cache and
      journal refine a plain array of sectors; what is
      written to a file is read back, through cache, journal and FAT, and through
      descriptors, and other open files keep their contents; a renamed file is
      listed under its new name; partition tables round-trip;
      loops over chains end on chains that are not cyclic.
    - Text: the console shows the text of the stream, every store stays inside
      the screen, [vsnprintf] writes exactly the text of its format and a
      terminator.

    Where the source does something else than it means to, the theorem says what
    it does, on a concrete input ([elf_load_faults], [sigreturn_loses_rax],
    [schedule_loses_wakeup], [close_leaks_node] and others).

    ** Fuel and bounds

    Loops of the source that count are [for_loop], [for_find] or a [Fixpoint] on
    the number of turns, which is computed from the bounds of the loop.  Loops
    that follow links or search for a terminator take fuel.  For free lists and
    run queues the fuel is the size of memory or of the task table, and the
    invariants show that it is enough; for strings and chains each theorem gives
    the fuel that is enough (the length of the string; the number of clusters of
    the volume).  Running out is [None] or [Stuck] and never a result.

    ** What is not modelled

    Boot code in assembly ([arch/]) and the part of [kernel/main.c] that sets up
    devices; descriptor tables, timers
    and interrupt controllers ([arch/cpu.c], [kernel/apic.c]); start-up of other
    processors ([kernel/smp.cpp], [kernel/rust/smp.rs]); the AHCI driver and the
    PCI scan ([kernel/drivers/]); the UART driver; locks as such: all
    of these act on hardware or on the interleaving of processors, which the
    model does not have.  Of [kernel/isr.c] the dispatcher that acknowledges
    interrupts and prints register dumps is left out.  The C++ and Rust allocation shims forward to
    [kmalloc] and [kfree].  User programs and build scripts are not part of the
    kernel. *)
From Stdlib Require Export ZArith Lia.
From stdpp Require Export base tactics numbers gmap functions.
From stdpp Require Export list.

#[global] Open Scope Z_scope.

(** ** Machine integers

    A C value of an unsigned type of width [w] is a [Z] in [0, 2^w); the
    conversions below are the wrap-around C applies when a result is stored
    in such a type. *)

Definition u8  (z : Z) : Z := z mod 2 ^ 8.
Definition u16 (z : Z) : Z := z mod 2 ^ 16.
Definition u32 (z : Z) : Z := z mod 2 ^ 32.
Definition u64 (z : Z) : Z := z mod 2 ^ 64.

(** Conversion to a signed type of width [w] (two's complement). *)
Definition sgn (w z : Z) : Z := (z + 2 ^ (w - 1)) mod 2 ^ w - 2 ^ (w - 1).
Definition i8  (z : Z) : Z := sgn 8 z.
Definition i32 (z : Z) : Z := sgn 32 z.
Definition i64 (z : Z) : Z := sgn 64 z.

(** [include/types.h]: alignment macros on 64-bit operands. *)
Definition ALIGN_UP (x a : Z) : Z := Z.land (u64 (x + a - 1)) (Z.lnot (a - 1)).
Definition ALIGN_DOWN (x a : Z) : Z := Z.land x (Z.lnot (a - 1)).

Definition PAGE_SIZE : Z := 4096.
Definition USER_BASE : Z := 0x7f8000000000.
Definition USER_STACK_TOP : Z := 0x7fffffbff000.
Definition USER_MAX_VMA : Z := 0x7ffffffff000.
Definition HIGH_BASE : Z := 0xffffffff80000000.
Definition PHYS_TO_VIRT (p : Z) : Z := u64 (p + HIGH_BASE).
Definition VIRT_TO_PHYS (v : Z) : Z := u64 (v - HIGH_BASE).

(** [include/abi/lnxrm_abi.h]: error numbers. *)
Definition LNXRM_EFAIL : Z := -1.
Definition LNXRM_ENOENT : Z := -2.
Definition LNXRM_ESRCH : Z := -3.
Definition LNXRM_EINTR : Z := -4.
Definition LNXRM_EIO : Z := -5.
Definition LNXRM_ENOEXEC : Z := -8.
Definition LNXRM_EBADF : Z := -9.
Definition LNXRM_ECHILD : Z := -10.
Definition LNXRM_EAGAIN : Z := -11.
Definition LNXRM_ENOMEM : Z := -12.
Definition LNXRM_EACCES : Z := -13.
Definition LNXRM_EFAULT : Z := -14.
Definition LNXRM_EEXIST : Z := -17.
Definition LNXRM_EXDEV : Z := -18.
Definition LNXRM_ENOTDIR : Z := -20.
Definition LNXRM_EINVAL : Z := -22.
Definition LNXRM_EMFILE : Z := -24.
Definition LNXRM_ENOSPC : Z := -28.
Definition LNXRM_ENOSYS : Z := -38.
Definition LNXRM_ENOTEMPTY : Z := -39.

(** ** Loops over an index

    [for_find P i n] is the loop [for (k = i; k < i + n; k++) if (P(k)) break;]:
    the first index that satisfies the test, [None] when the loop runs out. *)
Fixpoint for_find (P : nat → bool) (i n : nat) : option nat :=
  match n with
  | O => None
  | S n' => if P i then Some i else for_find P (S i) n'
  end.

(** [for_loop body i n a] runs [body] at [i], ..., [i + n - 1] on a state. *)
Fixpoint for_loop {A} (body : nat → A → A) (i n : nat) (a : A) : A :=
  match n with
  | O => a
  | S n' => for_loop body (S i) n' (body i a)
  end.

(** [for (k = lo; k < hi; k++)] on an integer index. *)
Definition for_z {A} (body : Z → A → A) (lo hi : Z) (a : A) : A :=
  for_loop (λ k, body (lo + Z.of_nat k)) 0 (Z.to_nat (hi - lo)) a.

(** What a kernel call does: it returns, it stops the machine in [panic], or
    it is [Stuck], outside what C defines (a loop that never ends, an index
    outside an array). *)
Inductive outcome (A : Type) :=
  | Ret (a : A)
  | Panic
  | Stuck.
Arguments Ret {_} _.
Arguments Panic {_}.
Arguments Stuck {_}.

#[global] Instance outcome_ret : MRet outcome := @Ret.
#[global] Instance outcome_bind : MBind outcome := λ A B f r,
  match r with Ret a => f a | Panic => Panic | Stuck => Stuck end.

(** The value of a call that returns. *)
Definition get_ret {A} (d : A) (r : outcome A) : A := match r with Ret a => a | _ => d end.
Definition is_ret {A} (r : outcome A) : bool := match r with Ret _ => true | _ => false end.
Lemma ret_eta {A} (d : A) r : is_ret r = true → r = Ret (get_ret d r).
Proof. by destruct r. Qed.
Lemma ret_pair {A B} (d : A * B) r : is_ret r = true → r = Ret ((get_ret d r).1, (get_ret d r).2).
Proof. destruct r as [[a b]| |]; done. Qed.

(** What a specification says of a call whose result is known. *)
Lemma ret_spec {A B} (P : A → B → Prop) r a b :
  r = Ret (a, b) → (r = Panic ∨ ∃ x y, r = Ret (x, y) ∧ P x y) → P a b.
Proof. intros -> [Hp|(x & y & Heq & HP)]; [done|by injection Heq as -> ->]. Qed.

(** A loop whose body may leave it by a panic. *)
Fixpoint for_loop_o {A} (body : nat → A → outcome A) (i n : nat) (a : A) : outcome A :=
  match n with
  | O => Ret a
  | S n' => match body i a with Ret a' => for_loop_o body (S i) n' a' | r => r end
  end.

(** ** Automation *)

Create HintDb lnx.

(** Discharge the wrap-around of an expression that stays in range. *)
Ltac unwrap :=
  unfold u8, u16, u32, u64 in *;
  rewrite ?Z.mod_small in * by lia.

(** Destruct the boolean tests of the goal and of the hypotheses into
    arithmetic facts. *)
Ltac bool_split :=
  repeat match goal with
  | H : _ && _ = true |- _ => apply andb_prop in H; destruct H
  | H : _ || _ = false |- _ => apply orb_false_elim in H; destruct H
  | H : _ || _ = true |- _ => apply orb_prop in H; destruct H
  | H : _ && _ = false |- _ => apply andb_false_iff in H; destruct H
  | H : negb _ = true |- _ => apply negb_true_iff in H
  | H : negb _ = false |- _ => apply negb_false_iff in H
  | H : (_ =? _) = true |- _ => apply Z.eqb_eq in H
  | H : (_ =? _) = false |- _ => apply Z.eqb_neq in H
  | H : (_ <? _) = true |- _ => apply Z.ltb_lt in H
  | H : (_ <? _) = false |- _ => apply Z.ltb_ge in H
  | H : (_ <=? _) = true |- _ => apply Z.leb_le in H
  | H : (_ <=? _) = false |- _ => apply Z.leb_gt in H
  | H : (_ <? _)%nat = true |- _ => apply Nat.ltb_lt in H
  | H : (_ <? _)%nat = false |- _ => apply Nat.ltb_ge in H
  | H : (_ =? _)%nat = true |- _ => apply Nat.eqb_eq in H
  | H : (_ =? _)%nat = false |- _ => apply Nat.eqb_neq in H
  end.

(** A closed decidable goal, by evaluation. *)
Ltac by_eval := apply (bool_decide_unpack _); vm_compute; exact I.

(** ** Arithmetic *)

Lemma u64_small z : 0 ≤ z < 2 ^ 64 → u64 z = z.
Proof. apply Z.mod_small. Qed.

Lemma u32_small z : 0 ≤ z < 2 ^ 32 → u32 z = z.
Proof. apply Z.mod_small. Qed.

Lemma u8_small z : 0 ≤ z < 2 ^ 8 → u8 z = z.
Proof. apply Z.mod_small. Qed.

Lemma u16_small z : 0 ≤ z < 2 ^ 16 → u16 z = z.
Proof. apply Z.mod_small. Qed.

Lemma u64_range z : 0 ≤ u64 z < 2 ^ 64.
Proof. apply Z.mod_pos_bound. lia. Qed.

Lemma u32_range z : 0 ≤ u32 z < 2 ^ 32.
Proof. apply Z.mod_pos_bound. lia. Qed.

Lemma u8_range z : 0 ≤ u8 z < 2 ^ 8.
Proof. apply Z.mod_pos_bound. lia. Qed.

Lemma sgn_small w z : 0 < w → - 2 ^ (w - 1) ≤ z < 2 ^ (w - 1) → sgn w z = z.
Proof.
  intros Hw Hz. unfold sgn. replace (2 ^ w) with (2 * 2 ^ (w - 1)).
  - rewrite Z.mod_small by lia. lia.
  - rewrite <- Z.pow_succ_r by lia. f_equal. lia.
Qed.

Lemma sgn_high w z : 0 < w → 2 ^ (w - 1) ≤ z < 2 ^ w → sgn w z = z - 2 ^ w.
Proof.
  intros Hw Hz. unfold sgn. assert (2 ^ w = 2 * 2 ^ (w - 1)) as He.
  { rewrite <- Z.pow_succ_r by lia. f_equal. lia. }
  replace (z + 2 ^ (w - 1)) with (z - 2 ^ (w - 1) + 1 * 2 ^ w) by lia.
  rewrite Z.mod_add, Z.mod_small by lia. lia.
Qed.

Lemma u64_add_l a b : u64 (u64 a + b) = u64 (a + b).
Proof. apply Zplus_mod_idemp_l. Qed.

Lemma u64_sub_l a b : u64 (u64 a - b) = u64 (a - b).
Proof. apply Zminus_mod_idemp_l. Qed.

Lemma pow2_pos n : 0 ≤ n → 0 < 2 ^ n.
Proof. intros. apply Z.pow_pos_nonneg; lia. Qed.

(** Clearing the low [k] bits rounds down to a multiple of [2^k]. *)
Lemma land_lnot_mask x k :
  0 ≤ k → Z.land x (Z.lnot (2 ^ k - 1)) = x / 2 ^ k * 2 ^ k.
Proof.
  intros Hk. rewrite <- Z.ldiff_land.
  replace (2 ^ k - 1) with (Z.ones k) by (rewrite Z.ones_equiv; lia).
  rewrite Z.ldiff_ones_r by lia.
  by rewrite Z.shiftr_div_pow2, Z.shiftl_mul_pow2 by lia.
Qed.

Lemma land_mask x k : 0 ≤ k → Z.land x (2 ^ k - 1) = x mod 2 ^ k.
Proof.
  intros Hk. replace (2 ^ k - 1) with (Z.ones k) by (rewrite Z.ones_equiv; lia).
  apply Z.land_ones. lia.
Qed.

Lemma ALIGN_DOWN_pow2 x k : 0 ≤ k → ALIGN_DOWN x (2 ^ k) = x / 2 ^ k * 2 ^ k.
Proof. apply land_lnot_mask. Qed.

Lemma ALIGN_UP_pow2 x k :
  0 ≤ k → 0 ≤ x → x + 2 ^ k - 1 < 2 ^ 64 →
  ALIGN_UP x (2 ^ k) = (x + 2 ^ k - 1) / 2 ^ k * 2 ^ k.
Proof.
  intros Hk Hx Hb. unfold ALIGN_UP. pose proof (pow2_pos k Hk).
  rewrite land_lnot_mask, u64_small by lia. done.
Qed.

Lemma ALIGN_UP_spec x k :
  0 ≤ k → 0 ≤ x → x + 2 ^ k - 1 < 2 ^ 64 →
  x ≤ ALIGN_UP x (2 ^ k) < x + 2 ^ k ∧ (2 ^ k | ALIGN_UP x (2 ^ k)).
Proof.
  intros Hk Hx Hb. rewrite ALIGN_UP_pow2 by done.
  pose proof (pow2_pos k Hk). split; [|apply Z.divide_factor_r].
  pose proof (Z.div_mod (x + 2 ^ k - 1) (2 ^ k)).
  pose proof (Z.mod_pos_bound (x + 2 ^ k - 1) (2 ^ k)). lia.
Qed.

Lemma ALIGN_DOWN_spec x k :
  0 ≤ k →
  x - 2 ^ k < ALIGN_DOWN x (2 ^ k) ≤ x ∧ (2 ^ k | ALIGN_DOWN x (2 ^ k)).
Proof.
  intros Hk. rewrite ALIGN_DOWN_pow2 by done.
  pose proof (pow2_pos k Hk). split; [|apply Z.divide_factor_r].
  pose proof (Z.div_mod x (2 ^ k)).
  pose proof (Z.mod_pos_bound x (2 ^ k)). lia.
Qed.

(** Two multiples of [m] are equal or at least [m] apart. *)
Lemma divide_apart m a b : 0 < m → (m | a) → (m | b) → a < b → a + m ≤ b.
Proof.
  intros Hm [x ->] [y ->] Hlt. assert (x < y) by nia.
  assert ((x + 1) * m ≤ y * m) by (apply Z.mul_le_mono_nonneg_r; lia). lia.
Qed.

Lemma pow2_divide a b : 0 ≤ a ≤ b → (2 ^ a | 2 ^ b).
Proof.
  intros H. exists (2 ^ (b - a)). rewrite <- Z.pow_add_r by lia. f_equal. lia.
Qed.

(** ** Lists *)

(** Distinct integers of an interval are at most as many as the interval. *)
Lemma NoDup_bounded_length (l : list Z) lo hi :
  NoDup l → (∀ x, x ∈ l → lo ≤ x < hi) → lo ≤ hi → Z.of_nat (length l) ≤ hi - lo.
Proof.
  intros Hnd Hb Hle.
  assert (l ⊆+ seqZ lo (hi - lo)) as Hsub.
  { apply NoDup_submseteq; [done|]. intros x Hx. apply elem_of_seqZ.
    specialize (Hb x Hx). lia. }
  apply submseteq_length in Hsub. rewrite length_seqZ in Hsub. lia.
Qed.

(** ** Loop lemmas *)

Lemma for_find_Some P i n k :
  for_find P i n = Some k →
  (i ≤ k < i + n)%nat ∧ P k = true ∧ ∀ j, (i ≤ j < k)%nat → P j = false.
Proof.
  revert i. induction n as [|n IH]; intros i; simpl; [done|].
  destruct (P i) eqn:Hi.
  - intros [= <-]. split_and!; [lia|lia|done|]. intros j Hj. lia.
  - intros (Hr & HP & Hmin)%IH. split_and!; [lia|lia|done|].
    intros j Hj. destruct (decide (j = i)) as [->|]; [done|]. apply Hmin. lia.
Qed.

Lemma for_find_None P i n :
  for_find P i n = None ↔ ∀ j, (i ≤ j < i + n)%nat → P j = false.
Proof.
  revert i. induction n as [|n IH]; intros i; simpl.
  { split; [intros _ j Hj; lia | done]. }
  destruct (P i) eqn:Hi.
  - split; [done|]. intros H. rewrite H in Hi by lia. done.
  - rewrite IH. split.
    + intros H j Hj. destruct (decide (j = i)) as [->|]; [done|]. apply H. lia.
    + intros H j Hj. apply H. lia.
Qed.

Lemma for_find_is_Some P i n k :
  (i ≤ k < i + n)%nat → P k = true → is_Some (for_find P i n).
Proof.
  intros Hk HP. destruct (for_find P i n) eqn:E; [done|].
  rewrite for_find_None in E. rewrite E in HP by done. done.
Qed.

Lemma for_find_ext P Q i n :
  (∀ j, (i ≤ j < i + n)%nat → P j = Q j) → for_find P i n = for_find Q i n.
Proof.
  revert i. induction n as [|n IH]; intros i H; simpl; [done|].
  rewrite H, IH by (intros; apply H; lia) || lia. done.
Qed.

(** Invariant rule for counted loops. *)
Lemma for_loop_ind {A} (I : nat → A → Prop) body i n a :
  I i a →
  (∀ k x, (i ≤ k < i + n)%nat → I k x → I (S k) (body k x)) →
  I (i + n)%nat (for_loop body i n a).
Proof.
  revert i a. induction n as [|n IH]; intros i a Ha Hstep; simpl.
  { by rewrite Nat.add_0_r. }
  replace (i + S n)%nat with (S i + n)%nat by lia.
  apply IH; [apply Hstep; [lia|done]|].
  intros k x Hk. apply Hstep. lia.
Qed.

Lemma for_z_ind {A} (I : Z → A → Prop) body lo hi a :
  I lo a →
  (∀ k x, lo ≤ k < hi → I k x → I (k + 1) (body k x)) →
  I (Z.max lo hi) (for_z body lo hi a).
Proof.
  intros Ha Hstep. unfold for_z.
  replace (Z.max lo hi) with (lo + Z.of_nat (0 + Z.to_nat (hi - lo))) by lia.
  apply (for_loop_ind (λ k, I (lo + Z.of_nat k))); [by rewrite Z.add_0_r|].
  intros k x Hk Hx. replace (lo + Z.of_nat (S k)) with (lo + Z.of_nat k + 1) by lia.
  apply Hstep; [lia|done].
Qed.

(** A loop that writes one cell per index: what each cell holds after it. *)
Lemma for_z_spec {A B} (get : A → Z → B) body lo hi a (v : Z → B) :
  (∀ k x i, lo ≤ k < hi → get (body k x) i = if decide (i = k) then v k else get x i) →
  ∀ i, get (for_z body lo hi a) i = if decide (lo ≤ i < hi) then v i else get a i.
Proof.
  intros Hb i.
  pose proof (for_z_ind (λ (k : Z) (x : A), get x i = if decide (lo ≤ i < k) then v i else get a i)
    body lo hi a) as Hind. simpl in Hind. rewrite Hind.
  - repeat case_decide; done || lia.
  - by rewrite decide_False by lia.
  - intros k x Hk Hx. rewrite Hb, Hx by done. repeat case_decide; subst; done || lia.
Qed.

(** Disjoint bit fields are added. *)
Lemma lor_low t f k : 0 ≤ k → (2 ^ k | t) → 0 ≤ f < 2 ^ k → Z.lor t f = t + f.
Proof.
  intros Hk [q ->] Hf. assert (Z.land (q * 2 ^ k) f = 0) as Hz.
  { apply Z.bits_inj'. intros n Hn. rewrite Z.land_spec, Z.bits_0. destruct (Z.lt_ge_cases n k).
    - by rewrite Z.mul_pow2_bits_low by lia.
    - rewrite <- (Z.mod_small f (2 ^ k)) by lia. rewrite Z.mod_pow2_bits_high by lia. apply andb_false_r. }
  rewrite Z.add_nocarry_lxor, Z.lxor_lor by done. done.
Qed.

(** Counting: a predicate that loses an element counts less. *)
Lemma filter_length_lt {A} (P Q : A → Prop) `{∀ x, Decision (P x), ∀ x, Decision (Q x)} (l : list A) x :
  (∀ y, y ∈ l → Q y → P y) → x ∈ l → P x → ¬ Q x →
  (length (filter Q l) < length (filter P l))%nat.
Proof.
  intros Hsub Hin Hp Hq.
  assert (∀ l, (∀ y, y ∈ l → Q y → P y) → length (filter Q l) ≤ length (filter P l))%nat as Hle.
  { intros l'. induction l' as [|y l' IH]; intros Hs; [done|]. rewrite !filter_cons.
    specialize (IH ltac:(set_solver)).
    destruct (decide (Q y)), (decide (P y)); simpl; try lia. set_solver. }
  induction l as [|y l IH]; [set_solver|]. rewrite !filter_cons.
  specialize (Hle l ltac:(set_solver)). apply elem_of_cons in Hin as [<-|Hin].
  - rewrite decide_False, decide_True by done. simpl. lia.
  - specialize (IH ltac:(set_solver) Hin).
    destruct (decide (Q y)), (decide (P y)); simpl; try lia. set_solver.
Qed.
