(* ===== verification/Bytes.v ===== *)
(** Byte buffers: little-endian loads and stores at an offset, as the packed
    structures of the disk formats and of ELF are accessed on x86. *)
From S2P Require Import Prelude.

Implicit Types (l : list Z) (off i : nat).

Definition byte_at (l : list Z) (i : nat) : Z := default 0 (l !! i).

Definition le16 (l : list Z) (off : nat) : Z := byte_at l off + 2 ^ 8 * byte_at l (off + 1).
Definition le32 (l : list Z) (off : nat) : Z := le16 l off + 2 ^ 16 * le16 l (off + 2).
Definition le64 (l : list Z) (off : nat) : Z := le32 l off + 2 ^ 32 * le32 l (off + 4).

Definition put8 (off : nat) (v : Z) (l : list Z) : list Z := <[off := u8 v]> l.
Definition put16 (off : nat) (v : Z) (l : list Z) : list Z :=
  put8 (off + 1) (Z.shiftr v 8) (put8 off v l).
Definition put32 (off : nat) (v : Z) (l : list Z) : list Z :=
  put16 (off + 2) (Z.shiftr v 16) (put16 off v l).

(** Every byte is in range. *)
Definition bytes_ok (l : list Z) : Prop := Forall (λ b, 0 ≤ b < 256) l.

Lemma byte_at_range l i : bytes_ok l → 0 ≤ byte_at l i < 256.
Proof.
  intros H. unfold byte_at. destruct (l !! i) as [b|] eqn:E; simpl; [|lia].
  exact (Forall_lookup_1 _ l i b H E).
Qed.

Lemma le16_range l off : bytes_ok l → 0 ≤ le16 l off < 2 ^ 16.
Proof.
  intros H. unfold le16. pose proof (byte_at_range l off H).
  pose proof (byte_at_range l (off + 1) H). lia.
Qed.

Lemma le32_range l off : bytes_ok l → 0 ≤ le32 l off < 2 ^ 32.
Proof.
  intros H. unfold le32. pose proof (le16_range l off H).
  pose proof (le16_range l (off + 2) H). lia.
Qed.

Lemma length_put8 off v l : length (put8 off v l) = length l.
Proof. apply length_insert. Qed.
Lemma length_put16 off v l : length (put16 off v l) = length l.
Proof. unfold put16. by rewrite !length_put8. Qed.
Lemma length_put32 off v l : length (put32 off v l) = length l.
Proof. unfold put32. by rewrite !length_put16. Qed.

Lemma put8_ok off v l : bytes_ok l → bytes_ok (put8 off v l).
Proof. intros H. apply Forall_insert; [done|]. apply u8_range. Qed.
Lemma put16_ok off v l : bytes_ok l → bytes_ok (put16 off v l).
Proof. intros H. by apply put8_ok, put8_ok. Qed.
Lemma put32_ok off v l : bytes_ok l → bytes_ok (put32 off v l).
Proof. intros H. by apply put16_ok, put16_ok. Qed.

#[export] Hint Rewrite length_put8 length_put16 length_put32 : lnx.
#[export] Hint Resolve put8_ok put16_ok put32_ok le16_range le32_range byte_at_range : lnx.

Lemma byte_at_put8 off v l i :
  byte_at (put8 off v l) i =
    if decide (i = off ∧ (off < length l)%nat) then u8 v else byte_at l i.
Proof.
  unfold byte_at, put8. destruct (decide (i = off)) as [->|Hne].
  - destruct (decide (off < length l)%nat) as [Hl|Hl].
    + by rewrite list_lookup_insert_eq, decide_True.
    + rewrite list_insert_ge by lia. by rewrite decide_False by naive_solver.
  - rewrite list_lookup_insert_ne by done. by rewrite decide_False by naive_solver.
Qed.

Lemma byte_at_put8_eq off v l : (off < length l)%nat → byte_at (put8 off v l) off = u8 v.
Proof. intros H. by rewrite byte_at_put8, decide_True. Qed.
Lemma byte_at_put8_ne off v l i : i ≠ off → byte_at (put8 off v l) i = byte_at l i.
Proof. intros H. by rewrite byte_at_put8, decide_False by naive_solver. Qed.

Lemma byte_at_put16_ne off v l i :
  (i < off ∨ off + 2 ≤ i)%nat → byte_at (put16 off v l) i = byte_at l i.
Proof. intros H. unfold put16. rewrite !byte_at_put8_ne by lia. done. Qed.
Lemma byte_at_put32_ne off v l i :
  (i < off ∨ off + 4 ≤ i)%nat → byte_at (put32 off v l) i = byte_at l i.
Proof. intros H. unfold put32. rewrite !byte_at_put16_ne by lia. done. Qed.

Lemma le16_put16 off v l : (off + 2 ≤ length l)%nat → le16 (put16 off v l) off = u16 v.
Proof.
  intros H. unfold le16, put16. rewrite byte_at_put8_ne, byte_at_put8_eq by lia.
  rewrite byte_at_put8_eq by (rewrite length_put8; lia).
  unfold u8, u16. rewrite Z.shiftr_div_pow2 by lia.
  pose proof (Z.div_mod v (2 ^ 8)). pose proof (Z.div_mod (v / 2 ^ 8) (2 ^ 8)).
  pose proof (Z.mod_pos_bound v (2 ^ 8)). pose proof (Z.mod_pos_bound (v / 2 ^ 8) (2 ^ 8)).
  apply (Z.mod_unique _ _ (v / 2 ^ 8 / 2 ^ 8)); lia.
Qed.

Lemma le16_put16_ne off v l off' :
  (off' + 2 ≤ off ∨ off + 2 ≤ off')%nat → le16 (put16 off v l) off' = le16 l off'.
Proof. intros H. unfold le16. rewrite !byte_at_put16_ne by lia. done. Qed.

Lemma le32_put32 off v l : (off + 4 ≤ length l)%nat → le32 (put32 off v l) off = u32 v.
Proof.
  intros H. unfold le32, put32. rewrite le16_put16_ne, le16_put16 by lia.
  rewrite le16_put16 by (rewrite length_put16; lia).
  unfold u16, u32. rewrite Z.shiftr_div_pow2 by lia.
  pose proof (Z.div_mod v (2 ^ 16)). pose proof (Z.div_mod (v / 2 ^ 16) (2 ^ 16)).
  pose proof (Z.mod_pos_bound v (2 ^ 16)). pose proof (Z.mod_pos_bound (v / 2 ^ 16) (2 ^ 16)).
  apply (Z.mod_unique _ _ (v / 2 ^ 16 / 2 ^ 16)); lia.
Qed.

Lemma le16_put32_ne off v l off' :
  (off' + 2 ≤ off ∨ off + 4 ≤ off')%nat → le16 (put32 off v l) off' = le16 l off'.
Proof. intros H. unfold le16. rewrite !byte_at_put32_ne by lia. done. Qed.
Lemma le32_put32_ne off v l off' :
  (off' + 4 ≤ off ∨ off + 4 ≤ off')%nat → le32 (put32 off v l) off' = le32 l off'.
Proof. intros H. unfold le32. rewrite !le16_put32_ne by lia. done. Qed.

Lemma lookup_put8_ne off v l i : i ≠ off → put8 off v l !! i = l !! i.
Proof. intros H. by apply list_lookup_insert_ne. Qed.
Lemma lookup_put32_ne off v l i :
  (i < off ∨ off + 4 ≤ i)%nat → put32 off v l !! i = l !! i.
Proof. intros H. unfold put32, put16. by rewrite !lookup_put8_ne by lia. Qed.

(** Block [k] of a buffer made of blocks of [n] bytes. *)
Definition block (n k : nat) (l : list Z) : list Z := take n (drop (k * n) l).

Lemma block_concat n k (ls : list (list Z)) b :
  Forall (λ x, length x = n) ls → ls !! k = Some b → block n k (concat ls) = b.
Proof.
  intros Hl. revert k. induction Hl as [|x ls Hx Hl IH]; intros k Hk; [done|].
  unfold block. cbn [concat]. destruct k as [|k]; simpl in Hk.
  - injection Hk as ->. by rewrite drop_0, take_app_length' by done.
  - rewrite Nat.mul_succ_l, drop_app_ge by lia.
    replace (k * n + n - length x)%nat with (k * n)%nat by lia. by apply IH.
Qed.

Lemma length_concat_blocks {A} n (ls : list (list A)) :
  Forall (λ x, length x = n) ls → length (concat ls) = (length ls * n)%nat.
Proof. intros Hl. induction Hl as [|x ls Hx Hl IH]; simpl; [done|]. rewrite length_app. lia. Qed.

Lemma block_ext n k l l' :
  (∀ i, (k * n ≤ i < k * n + n)%nat → l !! i = l' !! i) → block n k l = block n k l'.
Proof.
  intros H. unfold block. apply list_eq. intros i. destruct (decide (i < n)%nat).
  - rewrite !lookup_take_lt, !lookup_drop by done. apply H. lia.
  - by rewrite !lookup_take_ge by lia.
Qed.
