(* ===== verification/Pmm.v ===== *)
(** The physical frame allocator ([kernel/mm/pmm.c]): a buddy system whose
    free lists are threaded through the free blocks themselves and whose
    bitmaps, one per order, live in low memory at [BITS_BASE].

    The state is the file's static variables together with the two parts of
    physical memory they reach: [frames], the 64-bit word at the start of
    each block (the intrusive next pointer), and [bits], the bytes of the
    bitmaps.  Both are total functions: memory the allocator has not written
    holds arbitrary contents. *)
From S2P Require Import Prelude.

Definition MAX_ORDER : nat := 11.
Definition MIN_ORDER_BITS : Z := 12.
Definition BITS_BASE : Z := 0x10000.
Definition RESV_MAX : nat := 4.

(** Bytes of a block: [1UL << (MIN_ORDER_BITS + order)]. *)
Definition blk_size (order : nat) : Z := Z.shiftl 1 (MIN_ORDER_BITS + Z.of_nat order).

Record freelist := Freelist { head : Z; count : Z }.

Record pmm_state := Pmm {
  fl : nat → freelist;          (* fl[MAX_ORDER] *)
  order_bits : nat → Z;         (* addresses of the bitmaps *)
  order_bit_size : nat → Z;
  base_addr : Z;
  top_addr : Z;
  total_pg : Z;
  free_pg : Z;
  resv : list (Z * Z);          (* resv[0 .. resv_n - 1] as (lo, hi) *)
  frames : Z → Z;
  bits : Z → Z;
}.

Definition set_fl (o : nat) (l : freelist) (s : pmm_state) : pmm_state :=
  Pmm (<[o := l]> (fl s)) (order_bits s) (order_bit_size s) (base_addr s) (top_addr s)
      (total_pg s) (free_pg s) (resv s) (frames s) (bits s).
Definition set_frame (a v : Z) (s : pmm_state) : pmm_state :=
  Pmm (fl s) (order_bits s) (order_bit_size s) (base_addr s) (top_addr s)
      (total_pg s) (free_pg s) (resv s) (<[a := v]> (frames s)) (bits s).
Definition set_bits (a v : Z) (s : pmm_state) : pmm_state :=
  Pmm (fl s) (order_bits s) (order_bit_size s) (base_addr s) (top_addr s)
      (total_pg s) (free_pg s) (resv s) (frames s) (<[a := v]> (bits s)).
Definition set_free_pg (n : Z) (s : pmm_state) : pmm_state :=
  Pmm (fl s) (order_bits s) (order_bit_size s) (base_addr s) (top_addr s)
      (total_pg s) n (resv s) (frames s) (bits s).
Definition set_total_pg (n : Z) (s : pmm_state) : pmm_state :=
  Pmm (fl s) (order_bits s) (order_bit_size s) (base_addr s) (top_addr s)
      n (free_pg s) (resv s) (frames s) (bits s).

(** ** Reserved ranges *)

Definition pmm_reserve (lo hi : Z) (r : list (Z * Z)) : list (Z * Z) :=
  if (hi <=? lo) || (RESV_MAX <=? length r)%nat then r else r ++ [(lo, hi)].

Definition resv_hits (r : list (Z * Z)) (pa size : Z) : bool :=
  existsb (λ '(lo, hi), (pa <? hi) && (lo <? u64 (pa + size))) r.

(** ** Bitmaps *)

Definition bits_bytes (base top : Z) (order : nat) : Z :=
  let blocks := Z.shiftr (u64 (top - base)) (MIN_ORDER_BITS + Z.of_nat order) in
  (blocks + 7) / 8 + 1.

Definition bit_idx (s : pmm_state) (order : nat) (pa : Z) : Z :=
  Z.shiftr (u64 (pa - base_addr s)) (MIN_ORDER_BITS + Z.of_nat order).

Definition bit_get (order : nat) (pa : Z) (s : pmm_state) : bool :=
  let idx := bit_idx s order pa in
  negb (Z.land (bits s (order_bits s order + Z.shiftr idx 3))
               (Z.shiftl 1 (Z.land idx 7)) =? 0).

Definition bit_set (order : nat) (pa : Z) (s : pmm_state) : pmm_state :=
  let idx := bit_idx s order pa in
  let a := order_bits s order + Z.shiftr idx 3 in
  set_bits a (u8 (Z.lor (bits s a) (Z.shiftl 1 (Z.land idx 7)))) s.

Definition bit_clr (order : nat) (pa : Z) (s : pmm_state) : pmm_state :=
  let idx := bit_idx s order pa in
  let a := order_bits s order + Z.shiftr idx 3 in
  set_bits a (u8 (Z.land (bits s a) (Z.lnot (Z.shiftl 1 (Z.land idx 7))))) s.

Definition buddy_of (pa : Z) (order : nat) : Z := Z.lxor pa (blk_size order).

(** ** Free lists *)

(** Link a block in front of [fl[o]] and mark it free (the four stores of
    the split loop of [pmm_alloc_order] and of the end of
    [pmm_free_order]). *)
Definition fl_push (o : nat) (a : Z) (s : pmm_state) : pmm_state :=
  let s := set_frame a (head (fl s o)) s in
  let s := set_fl o (Freelist a (u64 (count (fl s o) + 1))) s in
  bit_set o a s.

(** Take the first block of [fl[o]] and mark it used. *)
Definition fl_pop (o : nat) (s : pmm_state) : Z * pmm_state :=
  let addr := head (fl s o) in
  let next := frames s addr in
  let s := set_fl o (Freelist next (u64 (count (fl s o) - 1))) s in
  (addr, bit_clr o addr s).

(** ** Allocation *)

(** The split loop from order [order + d] down to [order]. *)
Fixpoint split_down (order d : nat) (addr : Z) (s : pmm_state) : pmm_state :=
  match d with
  | O => s
  | S d' =>
      let o := (order + d')%nat in
      split_down order d' addr (fl_push o (u64 (addr + blk_size o)) s)
  end.

Definition pmm_alloc_order (order : nat) (s : pmm_state) : Z * pmm_state :=
  if (MAX_ORDER <=? order)%nat then (0, s) else
  match for_find (λ o, negb (count (fl s o) =? 0)) order (MAX_ORDER - order) with
  | None => (0, s)
  | Some o =>
      let '(addr, s) := fl_pop o s in
      let s := split_down order (o - order) addr s in
      (addr, set_free_pg (u64 (free_pg s - Z.shiftl 1 (Z.of_nat order))) s)
  end.

Definition pmm_alloc (s : pmm_state) : Z * pmm_state := pmm_alloc_order 0 s.

(** ** Release *)

(** The pointer [u64 *p] of the unlink loop: the list head or the link word
    of a block. *)
Inductive link := LHead | LFrame (a : Z).

Definition load_link (o : nat) (p : link) (s : pmm_state) : Z :=
  match p with LHead => head (fl s o) | LFrame a => frames s a end.

Definition store_link (o : nat) (p : link) (v : Z) (s : pmm_state) : pmm_state :=
  match p with
  | LHead => set_fl o (Freelist v (count (fl s o))) s
  | LFrame a => set_frame a v s
  end.

(** [while ( *p != bud) p = *p]: the loop has no bound of its own; [None]
    when [fuel] steps do not reach the buddy. *)
Fixpoint unlink_find (fuel : nat) (o : nat) (bud : Z) (p : link) (s : pmm_state)
  : option link :=
  if load_link o p s =? bud then Some p else
  match fuel with
  | O => None
  | S f => unlink_find f o bud (LFrame (load_link o p s)) s
  end.

Definition unlink (o : nat) (bud : Z) (s : pmm_state) : option pmm_state :=
  match unlink_find (Z.to_nat (count (fl s o))) o bud LHead s with
  | None => None
  | Some p =>
      let s := store_link o p (frames s bud) s in
      let s := set_fl o (Freelist (head (fl s o)) (u64 (count (fl s o) - 1))) s in
      Some (bit_clr o bud s)
  end.

(** The coalescing loop. *)
Fixpoint coalesce (fuel : nat) (pa : Z) (o : nat) (s : pmm_state)
  : option (Z * nat * pmm_state) :=
  match fuel with
  | O => None
  | S f =>
      if (S o <? MAX_ORDER)%nat then
        let bud := buddy_of pa o in
        if (bud <? base_addr s) || (top_addr s <=? bud) then Some (pa, o, s)
        else if negb (bit_get o bud s) then Some (pa, o, s)
        else match unlink o bud s with
             | None => None
             | Some s' => coalesce f (Z.min pa bud) (S o) s'
             end
      else Some (pa, o, s)
  end.

Definition pmm_free_order (pa : Z) (order : nat) (s : pmm_state) : option pmm_state :=
  match coalesce MAX_ORDER pa order s with
  | None => None
  | Some (pa', o, s) =>
      let s := fl_push o pa' s in
      Some (set_free_pg (u64 (free_pg s + Z.shiftl 1 (Z.of_nat order))) s)
  end.

Definition pmm_free (pa : Z) (s : pmm_state) : option pmm_state := pmm_free_order pa 0 s.

(** ** Initialisation *)

Definition E820_RAM : Z := 1.
Record e820_entry := E820 { e_addr : Z; e_size : Z; e_type : Z }.

(** The loop that keeps the largest usable region above 1 MiB. *)
Definition e820_step (best : Z * Z) (e : e820_entry) : Z * Z :=
  if negb (e_type e =? E820_RAM) then best else
  let lo := Z.max (e_addr e) 0x100000 in
  let hi := u64 (e_addr e + e_size e) in
  if (hi <=? lo) || (0x100000000 <? lo) then best else
  let hi := Z.min hi 0x100000000 in
  if u64 (best.2 - best.1) <? u64 (hi - lo) then (lo, hi) else best.

Definition e820_best (map : list e820_entry) : Z * Z := fold_left e820_step map (0, 0).

(** [kheap_place] of [kernel/mm/vmm.c]: carve the heap out of the top of the
    region; returns the new top, which is also [heap_phys]. *)
Definition kheap_place (region_top size : Z) : Z :=
  let top := ALIGN_DOWN region_top PAGE_SIZE in
  ALIGN_DOWN (u64 (top - size)) PAGE_SIZE.

(** The bitmaps are laid out one after the other from [BITS_BASE]. *)
Fixpoint place_bitmaps (base top : Z) (o n : nat) (bit_total : Z)
    (ptr size : nat → Z) : Z * (nat → Z) * (nat → Z) :=
  match n with
  | O => (bit_total, ptr, size)
  | S n' =>
      let sz := bits_bytes base top o in
      place_bitmaps base top (S o) n' (bit_total + sz)
        (<[o := BITS_BASE + bit_total]> ptr) (<[o := sz]> size)
  end.

(** [memset((u8 * )BITS_BASE, 0, bit_total)]. *)
Definition clear_bits (n : Z) (b : Z → Z) : Z → Z :=
  λ a, if (BITS_BASE <=? a) && (a <? BITS_BASE + n) then 0 else b a.

(** The largest order at which [cur] is aligned and fits below [top]. *)
Fixpoint seed_order (fuel : nat) (cur top : Z) (o : nat) : nat :=
  match fuel with
  | O => o
  | S f =>
      if (S o <? MAX_ORDER)%nat && (Z.land cur (blk_size (S o) - 1) =? 0)
         && (u64 (cur + blk_size (S o)) <=? top)
      then seed_order f cur top (S o) else o
  end.

(** Shrink a block until it clears every reserved range. *)
Fixpoint seed_shrink (r : list (Z * Z)) (cur : Z) (o : nat) : nat :=
  match o with
  | O => O
  | S o' => if resv_hits r cur (blk_size o) then seed_shrink r cur o' else o
  end.

Fixpoint seed (fuel : nat) (cur : Z) (s : pmm_state) : option pmm_state :=
  if top_addr s <=? cur then Some s else
  match fuel with
  | O => None
  | S f =>
      let o := seed_shrink (resv s) cur (seed_order MAX_ORDER cur (top_addr s) 0) in
      if resv_hits (resv s) cur (blk_size 0) then
        let s := if blk_size 0 <=? u64 (top_addr s - cur)
                 then set_total_pg (u64 (total_pg s - 1)) s else s in
        seed f (u64 (cur + blk_size 0)) s
      else
        match pmm_free_order cur o s with
        | None => None
        | Some s => seed f (u64 (cur + blk_size o)) s
        end
  end.

(** The state in front of the seeding loop.  [bss_end] is the address of the
    linker symbol [__bss_end]. *)
Definition pmm_window (map : list e820_entry) (bss_end : Z) : Z * Z :=
  let best := e820_best map in
  let kern_end := ALIGN_UP (VIRT_TO_PHYS bss_end) PAGE_SIZE in
  let heap_top := kheap_place (ALIGN_DOWN best.2 0x200000) (Z.shiftl 16 20) in
  (u64 (ALIGN_UP kern_end PAGE_SIZE + 0x200000), heap_top).

Definition pmm_prepare (base top : Z) (r : list (Z * Z)) (fr bi : Z → Z) : pmm_state :=
  let '(bit_total, ptr, size) :=
    place_bitmaps base top 0 MAX_ORDER 0 (λ _, 0) (λ _, 0) in
  Pmm (λ _, Freelist 0 0) ptr size base top
      (Z.shiftr (u64 (top - base)) MIN_ORDER_BITS) 0 r fr (clear_bits bit_total bi).

Definition pmm_init (map : list e820_entry) (bss_end : Z) (r : list (Z * Z))
    (fr bi : Z → Z) : option pmm_state :=
  let '(base, top) := pmm_window map bss_end in
  seed (Z.to_nat (Z.shiftr (u64 (top - base)) MIN_ORDER_BITS) + 1) base
       (pmm_prepare base top r fr bi).
