(* ===== verification/PmmFacts.v ===== *)
(** Correctness of the buddy allocator of [Pmm]: the representation
    invariant, its preservation, and what allocation, release and
    initialisation do to the set of free memory. *)
From S2P Require Import Prelude Pmm.

(** ** Blocks *)

Lemma blk_size_pow o : blk_size o = 2 ^ (12 + Z.of_nat o).
Proof. unfold blk_size, MIN_ORDER_BITS. rewrite Z.shiftl_1_l. done. Qed.

Lemma blk_size_S o : blk_size (S o) = 2 * blk_size o.
Proof.
  rewrite !blk_size_pow.
  replace (12 + Z.of_nat (S o)) with (Z.succ (12 + Z.of_nat o)) by lia.
  rewrite Z.pow_succ_r by lia. done.
Qed.

Lemma blk_size_ge o : 4096 ≤ blk_size o.
Proof. induction o as [|o IH]; [done|]. rewrite blk_size_S. lia. Qed.

Lemma blk_size_max o : (o < MAX_ORDER)%nat → blk_size o ≤ 0x400000.
Proof.
  intros Ho. rewrite blk_size_pow. change 0x400000 with (2 ^ 22).
  apply Z.pow_le_mono_r; unfold MAX_ORDER in Ho; lia.
Qed.

Lemma blk_size_divide o o' : (o ≤ o')%nat → (blk_size o | blk_size o').
Proof. intros. rewrite !blk_size_pow. apply pow2_divide. lia. Qed.

(** [a] lies in the block of order [o] at [b]. *)
Definition in_blk (a b : Z) (o : nat) : Prop := b ≤ a < b + blk_size o.

#[global] Instance in_blk_dec a b o : Decision (in_blk a b o).
Proof. unfold in_blk. apply _. Defined.

(** Aligned blocks are nested or disjoint: a smaller one that meets a larger
    one lies inside it. *)
Lemma in_blk_nested a b o b' o' :
  (o ≤ o')%nat → (blk_size o | b) → (blk_size o' | b') →
  in_blk a b o → in_blk a b' o' → b' ≤ b ∧ b + blk_size o ≤ b' + blk_size o'.
Proof.
  intros Hle Hb Hb' H1 H2. unfold in_blk in *.
  pose proof (blk_size_ge o). pose proof (blk_size_divide o o' Hle) as Hd.
  assert (blk_size o | b') by (by etrans).
  assert (blk_size o | b' + blk_size o') by (by apply Z.divide_add_r).
  split.
  - destruct (Z.le_gt_cases b' b); [done|].
    assert (b + blk_size o ≤ b') by (apply divide_apart; (done || lia)). lia.
  - apply divide_apart; (done || lia).
Qed.

Lemma lxor_1_cases k :
  (∃ j, k = 2 * j ∧ Z.lxor k 1 = k + 1) ∨ (∃ j, k = 2 * j + 1 ∧ Z.lxor k 1 = k - 1).
Proof.
  assert (∀ j, Z.lxor (2 * j) 1 = 2 * j + 1) as Heven.
  { intros j. symmetry. apply Z.add_nocarry_lxor.
    change 1 with (2 ^ 1 - 1). rewrite land_mask by lia.
    rewrite Z.mul_comm. apply Z.mod_mul. lia. }
  destruct (Z.Even_or_Odd k) as [[j ->]|[j ->]].
  - left. exists j. split; [done|]. apply Heven.
  - right. exists j. split; [done|]. rewrite <- Heven, Z.lxor_assoc.
    rewrite Z.lxor_nilpotent, Z.lxor_0_r, Heven. lia.
Qed.

(** The buddy of an aligned block is the other half of its parent. *)
Lemma buddy_cases pa o :
  (blk_size o | pa) →
  (buddy_of pa o = pa + blk_size o ∧ (blk_size (S o) | pa)) ∨
  (buddy_of pa o = pa - blk_size o ∧ (blk_size (S o) | pa - blk_size o)).
Proof.
  intros [k ->]. unfold buddy_of.
  assert (∀ x, x * blk_size o = Z.shiftl x (12 + Z.of_nat o)) as Hs.
  { intros x. rewrite blk_size_pow, Z.shiftl_mul_pow2 by lia. done. }
  replace (Z.lxor (k * blk_size o) (blk_size o)) with (Z.lxor k 1 * blk_size o).
  2:{ rewrite !Hs, Z.shiftl_lxor. f_equal. }
  rewrite blk_size_S.
  destruct (lxor_1_cases k) as [(j & -> & ->)|(j & -> & ->)]; [left|right].
  - split; [lia|]. exists j. lia.
  - split; [lia|]. exists j. lia.
Qed.

Lemma buddy_involutive pa o : buddy_of (buddy_of pa o) o = pa.
Proof.
  unfold buddy_of. by rewrite Z.lxor_assoc, Z.lxor_nilpotent, Z.lxor_0_r.
Qed.

(** The buddy of the upper half of an aligned block is its lower half. *)
Lemma buddy_upper addr o :
  (blk_size (S o) | addr) → buddy_of (addr + blk_size o) o = addr.
Proof.
  intros Hd. pose proof (blk_size_ge o).
  assert (blk_size o | addr) as Hd1.
  { etrans; [apply (blk_size_divide o (S o)); lia|done]. }
  transitivity (buddy_of (buddy_of addr o) o); [f_equal|apply buddy_involutive].
  destruct (buddy_cases addr o Hd1) as [[-> _]|[_ Hbad]]; [done|].
  rewrite blk_size_S in Hd, Hbad. exfalso.
  assert (2 * blk_size o | blk_size o) as [k Hk].
  { replace (blk_size o) with (addr - (addr - blk_size o)) at 2 by lia.
    by apply Z.divide_sub_r. }
  assert (2 * k = 1) by nia. lia.
Qed.

Lemma buddy_aligned pa o : (blk_size o | pa) → (blk_size o | buddy_of pa o).
Proof.
  intros H. destruct (buddy_cases pa o H) as [[-> _]|[-> _]].
  - by apply Z.divide_add_r.
  - apply Z.divide_sub_r; [done|]. apply Z.divide_refl.
Qed.

(** Merging a block with its buddy gives the aligned block of twice the size
    that consists of exactly the two. *)
Lemma buddy_merge pa o :
  (blk_size o | pa) →
  (blk_size (S o) | Z.min pa (buddy_of pa o)) ∧
  ∀ a, in_blk a (Z.min pa (buddy_of pa o)) (S o) ↔
       in_blk a pa o ∨ in_blk a (buddy_of pa o) o.
Proof.
  intros H. unfold in_blk. pose proof (blk_size_ge o). rewrite blk_size_S.
  destruct (buddy_cases pa o H) as [[-> Hd]|[-> Hd]]; rewrite blk_size_S in Hd.
  - rewrite Z.min_l by lia. split; [done|]. lia.
  - rewrite Z.min_r by lia. split; [done|]. lia.
Qed.

(** ** Linked lists in memory *)

(** The list of blocks found by following [n] links from [h]. *)
Fixpoint walk (m : Z → Z) (h : Z) (n : nat) : list Z :=
  match n with
  | O => []
  | S n' => h :: walk m (m h) n'
  end.

Definition flist (s : pmm_state) (o : nat) : list Z :=
  walk (frames s) (head (fl s o)) (Z.to_nat (count (fl s o))).

(** [l] is the chain of links that starts at [h]. *)
Fixpoint chain (m : Z → Z) (h : Z) (l : list Z) : Prop :=
  match l with
  | [] => True
  | x :: l' => h = x ∧ chain m (m x) l'
  end.

Lemma chain_walk m h l : chain m h l → walk m h (length l) = l.
Proof.
  revert h. induction l as [|x l IH]; intros h; simpl; [done|].
  intros [-> Hc]. by rewrite (IH _ Hc).
Qed.

Lemma chain_insert m h l a v : a ∉ l → chain m h l → chain (<[a := v]> m) h l.
Proof.
  revert h. induction l as [|x l IH]; intros h; simpl; [done|].
  intros [Hax Hal]%not_elem_of_cons [-> Hc]. split; [done|].
  rewrite fn_lookup_insert_ne by done. auto.
Qed.

Lemma chain_app m h l1 x l2 :
  chain m h (l1 ++ x :: l2) ↔ chain m h (l1 ++ [x]) ∧ chain m (m x) l2.
Proof.
  revert h. induction l1 as [|y l1 IH]; intros h; simpl; [tauto|].
  rewrite IH. tauto.
Qed.

(** Bypassing [x] from the link word of its predecessor [y]. *)
Lemma chain_bypass m h l1 y x l2 :
  NoDup (l1 ++ y :: x :: l2) →
  chain m h (l1 ++ y :: x :: l2) → chain (<[y := m x]> m) h (l1 ++ y :: l2).
Proof.
  revert h. induction l1 as [|z l1 IH]; intros h; simpl.
  - intros [Hy _]%NoDup_cons (-> & Hx & Hc). split; [done|].
    rewrite fn_lookup_insert. apply chain_insert; [set_solver|done].
  - intros [Hz Hnd]%NoDup_cons [-> Hc]. split; [done|].
    rewrite fn_lookup_insert_ne by set_solver. auto.
Qed.

(** ** The pages of a family of lists *)

Fixpoint sum_upto (f : nat → Z) (n : nat) : Z :=
  match n with O => 0 | S k => sum_upto f k + f k end.

Definition sum_pages (L : nat → list Z) : Z :=
  sum_upto (λ o, Z.of_nat (length (L o)) * 2 ^ Z.of_nat o) MAX_ORDER.

Lemma sum_upto_ext f g n : (∀ k, (k < n)%nat → f k = g k) → sum_upto f n = sum_upto g n.
Proof.
  induction n as [|n IH]; intros H; simpl; [done|].
  rewrite IH, H by (intros; try apply H; lia). done.
Qed.

Lemma sum_upto_change f g n k :
  (k < n)%nat → (∀ j, j ≠ k → f j = g j) → sum_upto f n = sum_upto g n + (f k - g k).
Proof.
  induction n as [|n IH]; intros Hk H; simpl; [lia|].
  destruct (decide (k = n)) as [->|].
  - rewrite (sum_upto_ext f g) by (intros; apply H; lia). lia.
  - rewrite IH, (H n) by (done || lia). lia.
Qed.

Lemma sum_pages_insert L o l :
  (o < MAX_ORDER)%nat →
  sum_pages (<[o := l]> L) =
  sum_pages L + (Z.of_nat (length l) - Z.of_nat (length (L o))) * 2 ^ Z.of_nat o.
Proof.
  intros Ho. unfold sum_pages.
  rewrite (sum_upto_change _ (λ o, Z.of_nat (length (L o)) * 2 ^ Z.of_nat o) _ o).
  - rewrite fn_lookup_insert. lia.
  - done.
  - intros j Hj. by rewrite fn_lookup_insert_ne.
Qed.

(** ** Bitmaps *)

Lemma land_bit_test v k : 0 ≤ k → negb (Z.land v (Z.shiftl 1 k) =? 0) = Z.testbit v k.
Proof.
  intros Hk. rewrite Z.shiftl_1_l. destruct (Z.testbit v k) eqn:E.
  - apply negb_true_iff, Z.eqb_neq. intros H0.
    assert (Z.testbit (Z.land v (2 ^ k)) k = false) as H1 by (rewrite H0; apply Z.bits_0).
    rewrite Z.land_spec, E, Z.pow2_bits_true in H1 by lia. done.
  - apply negb_false_iff, Z.eqb_eq. apply Z.bits_inj'. intros n Hn.
    rewrite Z.land_spec, Z.bits_0. destruct (decide (n = k)) as [->|].
    + by rewrite E.
    + by rewrite Z.pow2_bits_false, andb_false_r by lia.
Qed.

Lemma u8_testbit v k : 0 ≤ k < 8 → Z.testbit (u8 v) k = Z.testbit v k.
Proof. intros. unfold u8. apply Z.mod_pow2_bits_low. lia. Qed.

Lemma testbit_set v k j :
  0 ≤ k < 8 → 0 ≤ j < 8 →
  Z.testbit (u8 (Z.lor v (Z.shiftl 1 k))) j = if decide (j = k) then true else Z.testbit v j.
Proof.
  intros. rewrite u8_testbit, Z.lor_spec, Z.shiftl_1_l by done.
  case_decide as E; [subst; rewrite Z.pow2_bits_true by lia; apply orb_true_r|].
  rewrite Z.pow2_bits_false by lia. apply orb_false_r.
Qed.

Lemma testbit_clr v k j :
  0 ≤ k < 8 → 0 ≤ j < 8 →
  Z.testbit (u8 (Z.land v (Z.lnot (Z.shiftl 1 k)))) j =
  if decide (j = k) then false else Z.testbit v j.
Proof.
  intros. rewrite u8_testbit, Z.land_spec, Z.lnot_spec, Z.shiftl_1_l by lia.
  case_decide as E; [subst; rewrite Z.pow2_bits_true by lia; apply andb_false_r|].
  rewrite Z.pow2_bits_false by lia. apply andb_true_r.
Qed.

(** The window and the placement of the bitmaps, which no operation after
    initialisation changes. *)
Record layout_ok (s : pmm_state) : Prop := {
  lo_base : 0 < base_addr s;
  lo_top : base_addr s ≤ top_addr s < 2 ^ 62;
  lo_bits : ∀ o o', (o < o' < MAX_ORDER)%nat →
    order_bits s o + bits_bytes (base_addr s) (top_addr s) o ≤ order_bits s o';
}.

(** A block position: aligned and starting inside the window. *)
Definition blk_pos (s : pmm_state) (o : nat) (pa : Z) : Prop :=
  (o < MAX_ORDER)%nat ∧ (blk_size o | pa) ∧ base_addr s ≤ pa < top_addr s.

Lemma bit_idx_div s o pa :
  layout_ok s → blk_pos s o pa → bit_idx s o pa = (pa - base_addr s) / blk_size o.
Proof.
  intros [Hb Ht _] (Ho & Hd & Hp). unfold bit_idx.
  rewrite u64_small by lia. rewrite blk_size_pow, Z.shiftr_div_pow2; unfold MIN_ORDER_BITS; lia.
Qed.

Lemma bit_idx_inj s o pa pa' :
  layout_ok s → blk_pos s o pa → blk_pos s o pa' →
  bit_idx s o pa = bit_idx s o pa' → pa = pa'.
Proof.
  intros Hl H1 H2. rewrite !bit_idx_div by done.
  destruct H1 as (_ & Hd1 & _), H2 as (_ & Hd2 & _). intros He.
  pose proof (blk_size_ge o) as Hg. generalize dependent (base_addr s). intros B He.
  pose proof (Z.div_mod (pa - B) (blk_size o)). pose proof (Z.div_mod (pa' - B) (blk_size o)).
  pose proof (Z.mod_pos_bound (pa - B) (blk_size o)).
  pose proof (Z.mod_pos_bound (pa' - B) (blk_size o)).
  destruct (Z.lt_trichotomy pa pa') as [Hlt|[?|Hlt]]; [|done|].
  - assert (pa + blk_size o ≤ pa') by (apply divide_apart; (done || lia)). nia.
  - assert (pa' + blk_size o ≤ pa) by (apply divide_apart; (done || lia)). nia.
Qed.

(** The byte that holds the bit of a block lies in the bitmap of its order:
    this is what the extra byte of [bits_bytes] is for. *)
Lemma bit_byte_in_map s o pa :
  layout_ok s → blk_pos s o pa →
  0 ≤ Z.shiftr (bit_idx s o pa) 3 < bits_bytes (base_addr s) (top_addr s) o.
Proof.
  intros Hl Hp. rewrite bit_idx_div by done. destruct Hl as [Hb Ht _], Hp as (Ho & Hd & Hp).
  pose proof (blk_size_ge o). unfold bits_bytes. rewrite u64_small by lia.
  replace (Z.shiftr (top_addr s - base_addr s) (MIN_ORDER_BITS + Z.of_nat o))
    with ((top_addr s - base_addr s) / blk_size o)
    by (rewrite blk_size_pow, Z.shiftr_div_pow2; unfold MIN_ORDER_BITS; lia).
  rewrite Z.shiftr_div_pow2 by lia. change (2 ^ 3) with 8.
  assert (0 ≤ (pa - base_addr s) / blk_size o ≤ (top_addr s - base_addr s) / blk_size o).
  { split; [apply Z.div_pos; lia|]. apply Z.div_le_mono; lia. }
  generalize dependent ((pa - base_addr s) / blk_size o).
  generalize dependent ((top_addr s - base_addr s) / blk_size o). clear.
  intros y x Hxy. split; [apply Z.div_pos; lia|].
  pose proof (Z.div_le_mono x (y + 7) 8). lia.
Qed.

(** Two distinct block positions have distinct bits. *)
Lemma bit_distinct s o pa o' pa' :
  layout_ok s → blk_pos s o pa → blk_pos s o' pa' → (o, pa) ≠ (o', pa') →
  order_bits s o + Z.shiftr (bit_idx s o pa) 3 ≠
    order_bits s o' + Z.shiftr (bit_idx s o' pa') 3 ∨
  Z.land (bit_idx s o pa) 7 ≠ Z.land (bit_idx s o' pa') 7.
Proof.
  intros Hl H1 H2 Hne.
  pose proof (bit_byte_in_map s o pa Hl H1). pose proof (bit_byte_in_map s o' pa' Hl H2).
  destruct (Nat.lt_trichotomy o o') as [Hlt|[<-|Hlt]].
  - left. destruct H2 as (Ho' & _). pose proof (lo_bits s Hl o o'). lia.
  - destruct (decide (Z.land (bit_idx s o pa) 7 = Z.land (bit_idx s o pa') 7)) as [He|];
      [left|by right].
    intros He2. apply Hne. f_equal. apply (bit_idx_inj s o); [done..|].
    change 7 with (2 ^ 3 - 1) in He. rewrite !land_mask in He by lia.
    rewrite !Z.shiftr_div_pow2 in He2 by lia.
    rewrite (Z.div_mod (bit_idx s o pa) (2 ^ 3)), (Z.div_mod (bit_idx s o pa') (2 ^ 3)) by lia.
    lia.
  - left. destruct H1 as (Ho & _). pose proof (lo_bits s Hl o' o). lia.
Qed.

Lemma land_7_range z : 0 ≤ Z.land z 7 < 8.
Proof. change 7 with (2 ^ 3 - 1). rewrite land_mask by lia. apply Z.mod_pos_bound. lia. Qed.

(** Storing into the byte of one block position a value that differs only in
    the bit of that position changes the bit of no other position. *)
Lemma bit_get_store s o pa o' pa' v b :
  layout_ok s → blk_pos s o pa → blk_pos s o' pa' →
  let a := order_bits s o + Z.shiftr (bit_idx s o pa) 3 in
  (∀ j, 0 ≤ j < 8 → Z.testbit v j =
     if decide (j = Z.land (bit_idx s o pa) 7) then b else Z.testbit (bits s a) j) →
  bit_get o' pa' (set_bits a v s) =
  if decide ((o, pa) = (o', pa')) then b else bit_get o' pa' s.
Proof.
  intros Hl H1 H2 a Hv. unfold bit_get, set_bits; simpl.
  change (bit_idx (Pmm _ _ _ _ _ _ _ _ _ _)) with (bit_idx s).
  rewrite !land_bit_test by apply land_7_range.
  pose proof (land_7_range (bit_idx s o' pa')). case_decide as E.
  - injection E as <- <-. unfold a. rewrite fn_lookup_insert, Hv by done.
    by rewrite decide_True.
  - destruct (decide (a = order_bits s o' + Z.shiftr (bit_idx s o' pa') 3)) as [Ea|Ea].
    + rewrite <- Ea, fn_lookup_insert, Hv by done. rewrite decide_False; [done|].
      destruct (bit_distinct s o pa o' pa' Hl H1 H2 E); [done|congruence].
    + by rewrite fn_lookup_insert_ne.
Qed.

Lemma bit_get_set s o pa o' pa' :
  layout_ok s → blk_pos s o pa → blk_pos s o' pa' →
  bit_get o' pa' (bit_set o pa s) =
  if decide ((o, pa) = (o', pa')) then true else bit_get o' pa' s.
Proof.
  intros Hl H1 H2. apply bit_get_store; [done..|].
  intros j Hj. apply testbit_set; [apply land_7_range|done].
Qed.

Lemma bit_get_clr s o pa o' pa' :
  layout_ok s → blk_pos s o pa → blk_pos s o' pa' →
  bit_get o' pa' (bit_clr o pa s) =
  if decide ((o, pa) = (o', pa')) then false else bit_get o' pa' s.
Proof.
  intros Hl H1 H2. apply bit_get_store; [done..|].
  intros j Hj. apply testbit_clr; [apply land_7_range|done].
Qed.

(** ** The representation invariant *)

(** [L o] are the free blocks of order [o]: they are the chain of [fl[o]],
    lie aligned in the window, cover each address at most once, and are
    exactly the positions whose bit is set. *)
Record rep (s : pmm_state) (L : nat → list Z) : Prop := {
  rep_layout : layout_ok s;
  rep_chain : ∀ o, (o < MAX_ORDER)%nat → chain (frames s) (head (fl s o)) (L o);
  rep_count : ∀ o, (o < MAX_ORDER)%nat → count (fl s o) = Z.of_nat (length (L o));
  rep_nodup : ∀ o, (o < MAX_ORDER)%nat → NoDup (L o);
  rep_blk : ∀ o b, (o < MAX_ORDER)%nat → b ∈ L o →
    (blk_size o | b) ∧ base_addr s ≤ b ∧ b + blk_size o ≤ top_addr s;
  rep_uniq : ∀ a o b o' b', (o < MAX_ORDER)%nat → (o' < MAX_ORDER)%nat →
    b ∈ L o → b' ∈ L o' → in_blk a b o → in_blk a b' o' → o = o' ∧ b = b';
  rep_bits : ∀ o pa, blk_pos s o pa → bit_get o pa s = bool_decide (pa ∈ L o);
}.

(** No two free blocks are buddies: everything that can be merged is. *)
Definition coalesced (L : nat → list Z) : Prop :=
  ∀ o b, (S o < MAX_ORDER)%nat → b ∈ L o → buddy_of b o ∉ L o.

Definition pmm_inv (s : pmm_state) : Prop :=
  ∃ L, rep s L ∧ coalesced L ∧ free_pg s = u64 (sum_pages L).

(** The address [a] is in free memory. *)
Definition covered (L : nat → list Z) (a : Z) : Prop :=
  ∃ o b, (o < MAX_ORDER)%nat ∧ b ∈ L o ∧ in_blk a b o.

#[global] Instance covered_dec L a : Decision (covered L a).
Proof.
  refine (cast_if (decide
    (Exists (λ o, Exists (λ b, in_blk a b o) (L o)) (seq 0 MAX_ORDER))));
    unfold covered.
  - apply Exists_exists in e as (o & Ho & (b & Hb & Hin)%Exists_exists).
    apply elem_of_seq in Ho. exists o, b. split_and!; [lia|done..].
  - intros (o & b & Ho & Hb & Hin). apply n, Exists_exists. exists o.
    split; [apply elem_of_seq; lia|]. apply Exists_exists. by exists b.
Defined.

Definition is_free (s : pmm_state) (a : Z) : Prop := covered (flist s) a.

#[global] Instance is_free_dec s a : Decision (is_free s a).
Proof. apply covered_dec. Defined.

Lemma rep_flist s L o : rep s L → (o < MAX_ORDER)%nat → flist s o = L o.
Proof.
  intros Hr Ho. unfold flist. rewrite (rep_count s L Hr o Ho), Nat2Z.id.
  apply chain_walk, (rep_chain s L Hr o Ho).
Qed.

Lemma is_free_covered s L a : rep s L → is_free s a ↔ covered L a.
Proof.
  intros Hr. unfold is_free, covered.
  split; intros (o & b & Ho & Hb & Hin); exists o, b; split_and!; try done.
  - by rewrite <- (rep_flist s L).
  - by rewrite (rep_flist s L).
Qed.

Lemma rep_pos s L o b : rep s L → (o < MAX_ORDER)%nat → b ∈ L o → blk_pos s o b.
Proof.
  intros Hr Ho Hb. destruct (rep_blk s L Hr o b Ho Hb) as (? & ? & ?).
  pose proof (blk_size_ge o). split_and!; (done || lia).
Qed.

Lemma in_blk_self b o : in_blk b b o.
Proof. unfold in_blk. pose proof (blk_size_ge o). lia. Qed.

(** The bound that keeps the 64-bit counters from wrapping. *)
Lemma rep_length s L o :
  rep s L → (o < MAX_ORDER)%nat → Z.of_nat (length (L o)) < 2 ^ 62.
Proof.
  intros Hr Ho. pose proof (lo_top s (rep_layout s L Hr)). pose proof (lo_base s (rep_layout s L Hr)).
  assert (Z.of_nat (length (L o)) ≤ top_addr s - base_addr s); [|lia].
  apply NoDup_bounded_length; [by apply (rep_nodup s L)| |lia].
  intros x Hx. pose proof (rep_blk s L Hr o x Ho Hx). pose proof (blk_size_ge o). lia.
Qed.

(** *** Linking a block *)

Definition add_blk (L : nat → list Z) (o : nat) (b : Z) : nat → list Z := <[o := b :: L o]> L.

Lemma elem_of_add L o b o' b' :
  b' ∈ add_blk L o b o' ↔ (o' = o ∧ b' = b) ∨ b' ∈ L o'.
Proof.
  unfold add_blk. destruct (decide (o = o')) as [<-|Hne].
  - rewrite fn_lookup_insert, elem_of_cons. naive_solver.
  - rewrite fn_lookup_insert_ne by done. naive_solver.
Qed.

Lemma covered_add L o b a :
  (o < MAX_ORDER)%nat → covered (add_blk L o b) a ↔ covered L a ∨ in_blk a b o.
Proof.
  intros Ho. unfold covered. setoid_rewrite elem_of_add. naive_solver.
Qed.

Lemma rep_push s L o b :
  rep s L → (o < MAX_ORDER)%nat →
  (blk_size o | b) → base_addr s ≤ b → b + blk_size o ≤ top_addr s →
  (∀ a, in_blk a b o → ¬ covered L a) →
  rep (fl_push o b s) (add_blk L o b).
Proof.
  intros Hr Ho Hd Hlo Hhi Hfree.
  assert (∀ o', (o' < MAX_ORDER)%nat → b ∉ L o') as Hnew.
  { intros o' Ho' Hin. apply (Hfree b); [apply in_blk_self|].
    exists o', b. split_and!; [done..|apply in_blk_self]. }
  assert (blk_pos s o b) as Hpos.
  { pose proof (blk_size_ge o). split_and!; (done || lia). }
  set (s1 := set_fl o (Freelist b (u64 (count (fl s o) + 1)))
               (set_frame b (head (fl s o)) s)).
  assert (layout_ok s1) as Hl1 by (destruct (rep_layout s L Hr); by constructor).
  split.
  - destruct (rep_layout s L Hr); by constructor.
  - intros o' Ho'. unfold add_blk. simpl. destruct (decide (o = o')) as [<-|Hne].
    + rewrite !fn_lookup_insert. simpl. split; [done|].
      rewrite fn_lookup_insert. apply chain_insert; [auto|]. by apply (rep_chain s L).
    + rewrite !fn_lookup_insert_ne by done. apply chain_insert; [auto|].
      by apply (rep_chain s L).
  - intros o' Ho'. unfold add_blk. simpl. destruct (decide (o = o')) as [<-|Hne].
    + rewrite !fn_lookup_insert. simpl. rewrite (rep_count s L Hr o Ho).
      pose proof (rep_length s L o Hr Ho). rewrite u64_small by lia. lia.
    + rewrite !fn_lookup_insert_ne by done. by apply (rep_count s L).
  - intros o' Ho'. unfold add_blk. destruct (decide (o = o')) as [<-|Hne].
    + rewrite fn_lookup_insert. apply NoDup_cons. split; [auto|]. by apply (rep_nodup s L).
    + rewrite fn_lookup_insert_ne by done. by apply (rep_nodup s L).
  - intros o' b' Ho' [[-> ->]|Hb']%elem_of_add; [done|]. by apply (rep_blk s L).
  - intros a o1 b1 o2 b2 Ho1 Ho2 Hb1%elem_of_add Hb2%elem_of_add Hi1 Hi2.
    destruct Hb1 as [[-> ->]|Hb1], Hb2 as [[-> ->]|Hb2]; [done| | |].
    + destruct (Hfree a Hi1). by exists o2, b2.
    + destruct (Hfree a Hi2). by exists o1, b1.
    + by apply (rep_uniq s L Hr a).
  - intros o' pa Hp. change (fl_push o b s) with (bit_set o b s1).
    rewrite bit_get_set by done. change (bit_get o' pa s1) with (bit_get o' pa s).
    rewrite (rep_bits s L Hr o' pa Hp). case_decide as E.
    + injection E as <- <-. symmetry. apply bool_decide_eq_true. apply elem_of_add. auto.
    + apply bool_decide_ext. rewrite elem_of_add. naive_solver.
Qed.

(** *** Unlinking a block *)

Definition del_blk (L : nat → list Z) (o : nat) (l1 l2 : list Z) : nat → list Z :=
  <[o := l1 ++ l2]> L.

Lemma elem_of_del L o l1 b l2 o' b' :
  L o = l1 ++ b :: l2 → NoDup (L o) →
  b' ∈ del_blk L o l1 l2 o' ↔ b' ∈ L o' ∧ (o', b') ≠ (o, b).
Proof.
  intros HL Hnd. unfold del_blk. destruct (decide (o = o')) as [<-|Hne].
  - rewrite fn_lookup_insert, HL. rewrite HL in Hnd.
    apply NoDup_app in Hnd as (_ & H1 & [H2 _]%NoDup_cons).
    rewrite !elem_of_app, elem_of_cons. split.
    + intros Hb'. split; [naive_solver|]. intros [= ->].
      destruct Hb' as [Hb'|]; [|done]. apply (H1 b Hb'). left.
    + intros [[?|[->|?]] ?]; naive_solver.
  - rewrite fn_lookup_insert_ne by done. naive_solver.
Qed.

Lemma covered_del s L o l1 b l2 a :
  rep s L → (o < MAX_ORDER)%nat → L o = l1 ++ b :: l2 →
  covered (del_blk L o l1 l2) a ↔ covered L a ∧ ¬ in_blk a b o.
Proof.
  intros Hr Ho HL. pose proof (rep_nodup s L Hr o Ho) as Hnd.
  assert (b ∈ L o) as Hb by (rewrite HL; set_solver).
  unfold covered. setoid_rewrite (elem_of_del L o l1 b l2); [|done..]. split.
  - intros (o' & b' & Ho' & [Hb' Hne] & Hin). split; [by exists o', b'|].
    intros Hin'. destruct (rep_uniq s L Hr a o b o' b') as [-> ->]; done.
  - intros [(o' & b' & Ho' & Hb' & Hin) Hout]. exists o', b'. split_and!; [done|done| |done].
    intros [= -> ->]. done.
Qed.

Lemma rep_remove s L o l1 b l2 s1 :
  rep s L → (o < MAX_ORDER)%nat → L o = l1 ++ b :: l2 →
  layout_ok s1 → base_addr s1 = base_addr s → top_addr s1 = top_addr s →
  order_bits s1 = order_bits s → bits s1 = bits s →
  count (fl s1 o) = u64 (count (fl s o) - 1) →
  chain (frames s1) (head (fl s1 o)) (l1 ++ l2) →
  (∀ o', (o' < MAX_ORDER)%nat → o' ≠ o → count (fl s1 o') = count (fl s o') ∧
     chain (frames s1) (head (fl s1 o')) (L o')) →
  rep (bit_clr o b s1) (del_blk L o l1 l2).
Proof.
  intros Hr Ho HL Hl1 Hbase Htop Hob Hbits Hcnt Hch Hoth.
  pose proof (rep_nodup s L Hr o Ho) as Hnd.
  assert (b ∈ L o) as Hb by (rewrite HL; set_solver).
  assert (∀ o' pa, blk_pos s1 o' pa ↔ blk_pos s o' pa) as Hpos.
  { intros. unfold blk_pos. by rewrite Hbase, Htop. }
  assert (∀ o' pa, bit_get o' pa s1 = bit_get o' pa s) as Hget.
  { intros. unfold bit_get, bit_idx. by rewrite Hbase, Hob, Hbits. }
  split.
  - destruct Hl1; by constructor.
  - intros o' Ho'. unfold del_blk. simpl. destruct (decide (o = o')) as [<-|Hne].
    + by rewrite fn_lookup_insert.
    + rewrite fn_lookup_insert_ne by done. apply Hoth; [done|congruence].
  - intros o' Ho'. unfold del_blk. simpl. destruct (decide (o = o')) as [<-|Hne].
    + rewrite fn_lookup_insert, Hcnt, (rep_count s L Hr o Ho), HL, !length_app. simpl.
      pose proof (rep_length s L o Hr Ho) as Hlen. rewrite HL, length_app in Hlen. simpl in Hlen.
      rewrite u64_small by lia. lia.
    + rewrite fn_lookup_insert_ne by done.
      rewrite (proj1 (Hoth o' Ho' ltac:(congruence))). by apply (rep_count s L).
  - intros o' Ho'. unfold del_blk. destruct (decide (o = o')) as [<-|Hne].
    + rewrite fn_lookup_insert. rewrite HL in Hnd.
      apply NoDup_app in Hnd as (Hn1 & Hn & [_ Hn2]%NoDup_cons).
      apply NoDup_app. split_and!; [done| |done]. intros x Hx Hx2. apply (Hn x Hx). by right.
    + rewrite fn_lookup_insert_ne by done. by apply (rep_nodup s L).
  - intros o' b' Ho' [Hb' _]%(elem_of_del L o l1 b l2); [|done..].
    simpl. rewrite Hbase, Htop. by apply (rep_blk s L).
  - intros a o1 b1 o2 b2 Ho1 Ho2 [Hb1 _]%(elem_of_del L o l1 b l2)
      [Hb2 _]%(elem_of_del L o l1 b l2); [|done..]. by apply (rep_uniq s L).
  - intros o' pa Hp. assert (blk_pos s1 o' pa) as Hp1 by apply Hp.
    rewrite bit_get_clr; [|done|by apply Hpos, (rep_pos s L)|done].
    rewrite Hget, (rep_bits s L Hr) by (by apply Hpos). case_decide as E.
    + injection E as <- <-. symmetry. apply bool_decide_eq_false.
      rewrite (elem_of_del L o l1 b l2) by done. naive_solver.
    + apply bool_decide_ext. rewrite (elem_of_del L o l1 b l2) by done. naive_solver.
Qed.

(** Taking the head block. *)
Lemma rep_pop s L o b l2 :
  rep s L → (o < MAX_ORDER)%nat → L o = b :: l2 →
  (fl_pop o s).1 = b ∧ rep (fl_pop o s).2 (del_blk L o [] l2).
Proof.
  intros Hr Ho HL. pose proof (rep_chain s L Hr o Ho) as Hc. rewrite HL in Hc.
  destruct Hc as [Hh Hc]. unfold fl_pop. simpl. split; [done|].
  rewrite Hh. eapply rep_remove; try done.
  - destruct (rep_layout s L Hr); by constructor.
  - simpl. by rewrite fn_lookup_insert.
  - simpl. by rewrite fn_lookup_insert.
  - intros o' Ho' Hne. simpl. rewrite fn_lookup_insert_ne by done.
    split; [done|]. by apply (rep_chain s L).
Qed.

(** The unlink loop stops at the predecessor of the buddy, after at most as
    many steps as there are blocks in front of it. *)
Lemma unlink_find_spec s o b l2 p l1 fuel :
  chain (frames s) (load_link o p s) (l1 ++ b :: l2) → b ∉ l1 → (length l1 ≤ fuel)%nat →
  unlink_find fuel o b p s =
  Some (match last l1 with None => p | Some y => LFrame y end).
Proof.
  revert p fuel. induction l1 as [|y l1 IH]; intros p fuel; simpl.
  - intros [Hh _] _ _. destruct fuel; simpl; by rewrite (proj2 (Z.eqb_eq _ _) Hh).
  - intros [Hh Hc] Hb Hf. destruct fuel as [|fuel]; [lia|]. simpl.
    apply not_elem_of_cons in Hb as [Hby Hb].
    rewrite (proj2 (Z.eqb_neq _ _)) by congruence. rewrite Hh.
    rewrite (IH (LFrame y)); [|exact Hc|done|lia].
    change (match l1 with [] => Some y | _ :: _ => last l1 end) with (last (y :: l1)).
    rewrite last_cons. by destruct (last l1).
Qed.

Lemma rep_unlink s L o l1 b l2 :
  rep s L → (o < MAX_ORDER)%nat → L o = l1 ++ b :: l2 →
  ∃ s', unlink o b s = Some s' ∧ rep s' (del_blk L o l1 l2) ∧
        base_addr s' = base_addr s ∧ top_addr s' = top_addr s ∧
        free_pg s' = free_pg s ∧ resv s' = resv s ∧ total_pg s' = total_pg s ∧
        ∀ a, a ∉ L o → frames s' a = frames s a.
Proof.
  intros Hr Ho HL. pose proof (rep_chain s L Hr o Ho) as Hc.
  pose proof (rep_nodup s L Hr o Ho) as Hnd. rewrite HL in Hc, Hnd.
  assert (b ∉ l1) as Hb.
  { apply NoDup_app in Hnd as (_ & H & _). intros Hin. apply (H b Hin). left. }
  unfold unlink. rewrite (unlink_find_spec s o b l2 LHead l1); [|done|done|].
  2:{ rewrite (rep_count s L Hr o Ho), HL, Nat2Z.id, length_app. lia. }
  eexists. split; [done|]. destruct (last l1) as [y|] eqn:Hlast.
  - apply last_Some in Hlast as [l1' ->]. rewrite <- app_assoc in Hc, Hnd. simpl in *.
    split.
    + eapply rep_remove; try done; simpl.
      * destruct (rep_layout s L Hr); by constructor.
      * by rewrite fn_lookup_insert.
      * rewrite fn_lookup_insert, <- app_assoc. by apply chain_bypass.
      * intros o' Ho' Hne. rewrite fn_lookup_insert_ne by done. split; [done|].
        apply chain_insert; [|by apply (rep_chain s L)]. intros Hy.
        destruct (rep_uniq s L Hr y o' y o y) as [? _]; try done; try apply in_blk_self.
        rewrite HL. set_solver.
    + split_and!; try done. intros a Ha. rewrite fn_lookup_insert_ne; [done|].
      intros ->. apply Ha. rewrite HL. set_solver.
  - apply last_None in Hlast as ->. simpl in *. destruct Hc as [Hh Hc]. split.
    + eapply rep_remove; try done; simpl.
      * destruct (rep_layout s L Hr); by constructor.
      * by rewrite !fn_lookup_insert.
      * by rewrite !fn_lookup_insert.
      * intros o' Ho' Hne. rewrite !fn_lookup_insert_ne by done. split; [done|].
        by apply (rep_chain s L).
    + by split_and!.
Qed.

(** ** Allocation and release *)

(** What no operation changes after initialisation. *)
Record same_env (s s' : pmm_state) : Prop := {
  se_base : base_addr s' = base_addr s;
  se_top : top_addr s' = top_addr s;
  se_resv : resv s' = resv s;
  se_total : total_pg s' = total_pg s;
}.

#[global] Instance same_env_refl : Reflexive same_env.
Proof. by intros s. Qed.
#[global] Instance same_env_trans : Transitive same_env.
Proof. intros s1 s2 s3 [] []. split; congruence. Qed.

(** Memory the allocator must not touch: what is not in a free block
    afterwards. *)
Definition keeps (L' : nat → list Z) (s s' : pmm_state) : Prop :=
  ∀ x, ¬ covered L' x → frames s' x = frames s x.

Lemma coalesced_add L o b :
  coalesced L → (blk_size o | b) → ((S o < MAX_ORDER)%nat → buddy_of b o ∉ L o) →
  coalesced (add_blk L o b).
Proof.
  intros Hc Hd Hb o' b' Ho'. rewrite !elem_of_add.
  assert (buddy_of b o ≠ b) as Hne.
  { pose proof (blk_size_ge o). destruct (buddy_cases b o Hd) as [[-> _]|[-> _]]; lia. }
  intros [[-> ->]|Hin] [[? Heq]|Hin']; [done|by apply Hb| |by apply (Hc o' b')].
  subst o'. apply Hb; [done|]. by rewrite <- Heq, buddy_involutive.
Qed.

Lemma coalesced_del L o l1 b l2 :
  L o = l1 ++ b :: l2 → coalesced L → coalesced (del_blk L o l1 l2).
Proof.
  intros HL Hc. assert (∀ o' x, x ∈ del_blk L o l1 l2 o' → x ∈ L o') as Hsub.
  { intros o' x. unfold del_blk. destruct (decide (o = o')) as [<-|];
      [rewrite fn_lookup_insert, HL; set_solver|by rewrite fn_lookup_insert_ne]. }
  intros o' b' Ho' Hb' Hbud. apply (Hc o' b'); auto.
Qed.

Lemma sum_pages_add L o b :
  (o < MAX_ORDER)%nat → sum_pages (add_blk L o b) = sum_pages L + 2 ^ Z.of_nat o.
Proof. intros. unfold add_blk. rewrite sum_pages_insert by done. simpl length. lia. Qed.

Lemma sum_pages_del L o l1 b l2 :
  (o < MAX_ORDER)%nat → L o = l1 ++ b :: l2 →
  sum_pages (del_blk L o l1 l2) = sum_pages L - 2 ^ Z.of_nat o.
Proof.
  intros ? HL. unfold del_blk. rewrite sum_pages_insert, HL, !length_app by done.
  simpl length. lia.
Qed.

Lemma split_down_spec order d addr s L :
  rep s L → coalesced L → (order + d < MAX_ORDER)%nat →
  (blk_size (order + d) | addr) → base_addr s ≤ addr →
  addr + blk_size (order + d) ≤ top_addr s →
  (∀ a, in_blk a addr (order + d) → ¬ covered L a) →
  let s' := split_down order d addr s in
  ∃ L', rep s' L' ∧ coalesced L' ∧ same_env s s' ∧ free_pg s' = free_pg s ∧ keeps L' s s' ∧
    sum_pages L' = sum_pages L + (2 ^ Z.of_nat (order + d) - 2 ^ Z.of_nat order) ∧
    ∀ a, covered L' a ↔ covered L a ∨ (in_blk a addr (order + d) ∧ ¬ in_blk a addr order).
Proof.
  revert s L. induction d as [|d IH]; intros s L Hr Hc Ho Hd Hlo Hhi Hfree; simpl.
  { exists L. rewrite Nat.add_0_r. split_and!; try done; [lia|]. intros a. tauto. }
  pose proof (lo_top s (rep_layout s L Hr)) as Htop.
  pose proof (lo_base s (rep_layout s L Hr)) as Hbase.
  rewrite Nat.add_succ_r in *. set (o := (order + d)%nat) in *.
  pose proof (blk_size_ge o) as Hge. rewrite blk_size_S in Hhi.
  assert (blk_size o | addr) as Hd1.
  { etrans; [apply (blk_size_divide o (S o)); lia|done]. }
  rewrite u64_small by lia. set (half := addr + blk_size o).
  assert (blk_size o | half) as Hdh by (by apply Z.divide_add_r).
  assert (∀ a, in_blk a addr (S o) ↔ in_blk a addr o ∨ in_blk a half o) as Hsplit.
  { intros a. unfold in_blk, half. rewrite blk_size_S. lia. }
  assert (∀ a, in_blk a addr o → ¬ in_blk a half o) as Hdisj.
  { intros a. unfold in_blk, half. lia. }
  assert (buddy_of half o = addr) as Hbud by (by apply buddy_upper).
  assert (rep (fl_push o half s) (add_blk L o half)) as Hr1.
  { apply rep_push; try done; [lia|unfold half; lia|unfold half; lia|].
    intros a Ha. apply Hfree, Hsplit. auto. }
  destruct (IH (fl_push o half s) (add_blk L o half)) as
    (L' & HrL & HcL & Hse & Hfp & Hk & Hsum & Hcov); try done.
  - apply coalesced_add; [done|done|]. intros _. rewrite Hbud. intros Hin.
    apply (Hfree addr); [apply in_blk_self|].
    exists o, addr. split_and!; [lia|done|apply in_blk_self].
  - lia.
  - simpl. lia.
  - intros a Ha. rewrite covered_add by lia. intros [Hcv|Hcv].
    + apply (Hfree a); [|done]. apply Hsplit. auto.
    + by apply (Hdisj a).
  - exists L'. split_and!; try done.
    + etrans; [|exact Hse]. by constructor.
    + intros x Hx. rewrite (Hk x Hx). simpl. apply fn_lookup_insert_ne. intros ->.
      apply Hx, Hcov. left. apply covered_add; [lia|]. right. apply in_blk_self.
    + rewrite Hsum, sum_pages_add, (Nat2Z.inj_succ o), Z.pow_succ_r by lia. lia.
    + intros a. rewrite Hcov, covered_add, Hsplit by lia.
      specialize (Hdisj a). split; [|tauto].
      intros [[?|Hh]|?]; [tauto| |tauto]. right. split; [tauto|].
      intros Hin. destruct Hdisj; [|done].
      unfold in_blk in *. pose proof (blk_size_divide order o ltac:(lia)) as Hdv.
      apply Z.divide_pos_le in Hdv; [|lia]. lia.
Qed.

(** [for_find] skips exactly the empty lists. *)
Lemma alloc_find s L order :
  rep s L → (order < MAX_ORDER)%nat →
  match for_find (λ o, negb (count (fl s o) =? 0)) order (MAX_ORDER - order) with
  | None => ∀ o, (order ≤ o < MAX_ORDER)%nat → L o = []
  | Some o => (order ≤ o < MAX_ORDER)%nat ∧ ∃ b l, L o = b :: l
  end.
Proof.
  intros Hr Ho.
  assert (∀ o, (o < MAX_ORDER)%nat → negb (count (fl s o) =? 0) = false ↔ L o = []) as Hz.
  { intros o Ho'. rewrite negb_false_iff, Z.eqb_eq, (rep_count s L Hr o Ho').
    destruct (L o); simpl; naive_solver lia. }
  destruct (for_find _ _ _) as [o|] eqn:E.
  - apply for_find_Some in E as (Hrange & HP & _). split; [lia|].
    destruct (L o) as [|b l] eqn:HL; [|eauto]. apply Hz in HL; [congruence|lia].
  - rewrite for_find_None in E. intros o Hor. apply Hz; [lia|]. apply E. lia.
Qed.

Lemma rep_set_free_pg s L n : rep s L → rep (set_free_pg n s) L.
Proof. intros [[] ? ? ? ? ? ?]. constructor; [by constructor|done..]. Qed.

(** The outcome of [pmm_alloc_order], on the abstract lists. *)
Lemma alloc_spec order s L :
  rep s L → coalesced L → free_pg s = u64 (sum_pages L) → (order < MAX_ORDER)%nat →
  let '(a, s') := pmm_alloc_order order s in
  (a = 0 ∧ s' = s ∧ ∀ o, (order ≤ o < MAX_ORDER)%nat → L o = []) ∨
  ∃ L', rep s' L' ∧ coalesced L' ∧ free_pg s' = u64 (sum_pages L') ∧
    same_env s s' ∧ keeps L' s s' ∧
    (blk_size order | a) ∧ base_addr s ≤ a ∧ a + blk_size order ≤ top_addr s ∧
    (∀ x, in_blk x a order → covered L x) ∧
    (∀ x, covered L' x ↔ covered L x ∧ ¬ in_blk x a order).
Proof.
  intros Hr Hc Hfp Ho. unfold pmm_alloc_order.
  rewrite (proj2 (Nat.leb_gt _ _)) by done.
  pose proof (alloc_find s L order Hr Ho) as Hfind.
  destruct (for_find _ _ _) as [o|]; [|by left].
  destruct Hfind as [Hoo (b & l & HL)].
  destruct (rep_pop s L o b l Hr ltac:(lia) HL) as [Hb Hr1].
  destruct (rep_blk s L Hr o b ltac:(lia)) as (Hd & Hlo & Hhi); [rewrite HL; left|].
  assert (∀ x, in_blk x b o → covered L x) as Hcb.
  { intros x Hx. exists o, b. split_and!; [lia|rewrite HL; left|done]. }
  pose proof (covered_del s L o [] b l) as Hdel.
  destruct (fl_pop o s) as [addr s1] eqn:Epop. simpl in Hb, Hr1. subst addr.
  assert (same_env s s1 ∧ frames s1 = frames s ∧ free_pg s1 = free_pg s) as (Hse & Hf1 & Hp1)
    by (injection Epop as _ <-; done).
  destruct (split_down_spec order (o - order) b s1 (del_blk L o [] l)) as
    (L' & HrL & HcL & Hse' & Hfp' & Hk & Hsum & Hcov); try done;
    rewrite ?(Nat.add_comm order), ?Nat.sub_add in * by lia.
  { by apply (coalesced_del L o [] b l). }
  { lia. } { done. } { rewrite (se_base s s1) by done. done. }
  { rewrite (se_top s s1) by done. done. }
  { intros a Ha. rewrite Hdel by (done || lia). tauto. }
  assert (blk_size order ≤ blk_size o) as Hle.
  { apply Z.divide_pos_le; [pose proof (blk_size_ge o); lia|]. apply blk_size_divide. lia. }
  right. exists L'. split_and!; try done.
  - by apply rep_set_free_pg.
  - simpl. rewrite Hfp', Hp1, Hfp, Hsum, (sum_pages_del L o [] b l) by (done || lia).
    rewrite Z.shiftl_1_l, u64_sub_l. f_equal. lia.
  - etrans; [exact Hse|]. etrans; [exact Hse'|]. by constructor.
  - intros x Hx. simpl. by rewrite (Hk x Hx), Hf1.
  - etrans; [|exact Hd]. apply blk_size_divide. lia.
  - lia.
  - intros x Hx. apply Hcb. unfold in_blk in *. lia.
  - intros x. rewrite Hcov, Hdel by (done || lia). specialize (Hcb x).
    assert (in_blk x b order → in_blk x b o) by (unfold in_blk; lia).
    destruct (decide (in_blk x b o)); tauto.
Qed.

(** What the coalescing loop achieves from the block [pa] of order [o]: a
    block that contains it, whose buddy is not free, and lists that lost
    exactly the merged blocks. *)
Record coalesce_post (s : pmm_state) (L : nat → list Z) (pa : Z) (o : nat)
    (pa' : Z) (o' : nat) (s' : pmm_state) (L' : nat → list Z) : Prop := {
  cp_rep : rep s' L';
  cp_coal : coalesced L';
  cp_order : (o' < MAX_ORDER)%nat;
  cp_align : (blk_size o' | pa');
  cp_lo : base_addr s ≤ pa';
  cp_hi : pa' + blk_size o' ≤ top_addr s;
  cp_free : ∀ a, in_blk a pa' o' → ¬ covered L' a;
  cp_buddy : (S o' < MAX_ORDER)%nat → buddy_of pa' o' ∉ L' o';
  cp_cov : ∀ a, covered L' a ∨ in_blk a pa' o' ↔ covered L a ∨ in_blk a pa o;
  cp_sum : sum_pages L' + 2 ^ Z.of_nat o' = sum_pages L + 2 ^ Z.of_nat o;
  cp_env : same_env s s';
  cp_free_pg : free_pg s' = free_pg s;
  cp_keeps : ∀ x, ¬ covered L x → frames s' x = frames s x;
}.

(** One round: the buddy is free, so it is unlinked and merged. *)
Lemma coalesce_round s L pa o :
  rep s L → coalesced L → (S o < MAX_ORDER)%nat →
  (blk_size o | pa) → base_addr s ≤ pa → pa + blk_size o ≤ top_addr s →
  (∀ a, in_blk a pa o → ¬ covered L a) → buddy_of pa o ∈ L o →
  let bud := buddy_of pa o in
  ∃ s1 L1, unlink o bud s = Some s1 ∧ rep s1 L1 ∧ coalesced L1 ∧
    (blk_size (S o) | Z.min pa bud) ∧ base_addr s ≤ Z.min pa bud ∧
    Z.min pa bud + blk_size (S o) ≤ top_addr s ∧
    (∀ a, in_blk a (Z.min pa bud) (S o) → ¬ covered L1 a) ∧
    same_env s s1 ∧
    ∀ pa' o' s' L', coalesce_post s1 L1 (Z.min pa bud) (S o) pa' o' s' L' →
                    coalesce_post s L pa o pa' o' s' L'.
Proof.
  intros Hr Hc HSo Hd Hlo Hhi Hfree Hin bud. assert (o < MAX_ORDER)%nat as Ho by lia.
  destruct (list_elem_of_split _ _ Hin) as (l1 & l2 & HL). fold bud in HL.
  destruct (rep_unlink s L o l1 bud l2 Hr Ho HL) as
    (s1 & Hu & Hr1 & Hbase & Htop & Hfp & Hresv & Htot & Hfr).
  destruct (buddy_merge pa o Hd) as [Hmd Hmb]. fold bud in Hmd, Hmb.
  pose proof (covered_del s L o l1 bud l2) as Hdel.
  pose proof (rep_blk s L Hr o bud Ho Hin) as (_ & Hblo & Hbhi).
  assert (same_env s s1) as Hse by (by constructor).
  exists s1, (del_blk L o l1 l2). split_and!; try done.
  - by apply (coalesced_del L o l1 bud l2).
  - lia.
  - rewrite blk_size_S. destruct (buddy_cases pa o Hd) as [[Hb _]|[Hb _]]; fold bud in Hb; lia.
  - intros a [Ha|Ha]%Hmb; rewrite Hdel by done; [|tauto]. intros [? _]. by apply (Hfree a).
  - intros pa' o' s' L' []. split; try done; try lia.
    + intros a. rewrite cp_cov0, Hmb, Hdel by done.
      assert (in_blk a bud o → covered L a) by (intros; by exists o, bud).
      destruct (decide (in_blk a bud o)); tauto.
    + rewrite cp_sum0, (sum_pages_del L o l1 bud l2), Nat2Z.inj_succ, Z.pow_succ_r
        by (done || lia). lia.
    + by etrans.
    + intros x Hx. rewrite cp_keeps0; [|rewrite Hdel by done; tauto]. apply Hfr.
      intros Hxin. apply Hx. exists o, x. split_and!; [done|done|apply in_blk_self].
Qed.

Lemma coalesce_spec fuel pa o s L :
  rep s L → coalesced L → (o < MAX_ORDER)%nat → (MAX_ORDER - o ≤ fuel)%nat →
  (blk_size o | pa) → base_addr s ≤ pa → pa + blk_size o ≤ top_addr s →
  (∀ a, in_blk a pa o → ¬ covered L a) →
  ∃ pa' o' s' L', coalesce fuel pa o s = Some (pa', o', s') ∧
    coalesce_post s L pa o pa' o' s' L'.
Proof.
  revert pa o s L. induction fuel as [|fuel IH]; intros pa o s L Hr Hc Ho Hf Hd Hlo Hhi Hfree;
    [lia|]. simpl.
  assert (((S o < MAX_ORDER)%nat → buddy_of pa o ∉ L o) →
    ∃ pa' o' s' L', Some (pa, o, s) = Some (pa', o', s') ∧
      coalesce_post s L pa o pa' o' s' L') as Hstop
    by (intros Hb; exists pa, o, s, L; by split).
  destruct (Nat.ltb_spec (S o) MAX_ORDER) as [HSo|HSo]; [|apply Hstop; lia].
  destruct ((buddy_of pa o <? base_addr s) || (top_addr s <=? buddy_of pa o)) eqn:Hwin.
  { apply Hstop. intros _ Hin. destruct (rep_pos s L o _ Hr Ho Hin) as (_ & _ & ?).
    bool_split; lia. }
  assert (blk_pos s o (buddy_of pa o)) as Hpos.
  { bool_split. split_and!; [done|by apply buddy_aligned|lia|lia]. }
  rewrite (rep_bits s L Hr o _ Hpos).
  destruct (bool_decide_reflect (buddy_of pa o ∈ L o)) as [Hin|Hout]; simpl; [|by apply Hstop].
  destruct (coalesce_round s L pa o) as
    (s1 & L1 & -> & Hr1 & Hc1 & Hd1 & Hlo1 & Hhi1 & Hfree1 & Hse & Hpost); try done.
  destruct (IH (Z.min pa (buddy_of pa o)) (S o) s1 L1) as (pa' & o' & s' & L' & -> & Hp);
    rewrite ?(se_base s s1), ?(se_top s s1) by done; try done; [lia|].
  exists pa', o', s', L'. split; [done|]. by apply Hpost.
Qed.

Lemma free_spec pa order s L :
  rep s L → coalesced L → free_pg s = u64 (sum_pages L) → (order < MAX_ORDER)%nat →
  (blk_size order | pa) → base_addr s ≤ pa → pa + blk_size order ≤ top_addr s →
  (∀ a, in_blk a pa order → ¬ covered L a) →
  ∃ s' L', pmm_free_order pa order s = Some s' ∧
    rep s' L' ∧ coalesced L' ∧ free_pg s' = u64 (sum_pages L') ∧
    same_env s s' ∧ keeps L' s s' ∧
    free_pg s' = u64 (free_pg s + 2 ^ Z.of_nat order) ∧
    (∀ x, covered L' x ↔ covered L x ∨ in_blk x pa order).
Proof.
  intros Hr Hc Hfp Ho Hd Hlo Hhi Hfree. unfold pmm_free_order.
  destruct (coalesce_spec MAX_ORDER pa order s L) as (pa' & o' & s1 & L1 & -> &
    [Hr1 Hc1 Ho1 Hd1 Hlo1 Hhi1 Hfree1 Hbud1 Hcov1 Hsum1 Hse1 Hfp1 Hfr1]); try done; [lia|].
  eexists _, (add_blk L1 o' pa'). split; [done|].
  assert (u64 (free_pg s1 + Z.shiftl 1 (Z.of_nat order)) =
          u64 (sum_pages (add_blk L1 o' pa'))) as Hpg.
  { rewrite Hfp1, Hfp, Z.shiftl_1_l, u64_add_l, sum_pages_add by done. f_equal. lia. }
  split_and!.
  - apply rep_set_free_pg, rep_push; try done.
    + by rewrite (se_base s s1).
    + by rewrite (se_top s s1).
  - by apply coalesced_add.
  - exact Hpg.
  - etrans; [exact Hse1|]. by constructor.
  - intros x. rewrite covered_add by done. intros Hx. simpl.
    rewrite fn_lookup_insert_ne by (intros ->; apply Hx; right; apply in_blk_self).
    apply Hfr1. intros ?. apply Hx, Hcov1. auto.
  - simpl. by rewrite Hfp1, Z.shiftl_1_l.
  - intros x. by rewrite covered_add, Hcov1 by done.
Qed.

(** ** Correctness of the two operations *)

(** C1. [pmm_alloc_order] preserves the invariant.  It either returns 0,
    leaves the state alone and every list of sufficient order is empty; or it
    returns an aligned block of the window that was entirely free, removes
    exactly that block from free memory, and changes no word outside the
    memory that is still free. *)
Theorem pmm_alloc_order_correct order s a s' :
  pmm_inv s → (order < MAX_ORDER)%nat → pmm_alloc_order order s = (a, s') →
  pmm_inv s' ∧
  ((a = 0 ∧ s' = s ∧ ∀ o, (order ≤ o < MAX_ORDER)%nat → flist s o = []) ∨
   ((blk_size order | a) ∧ base_addr s ≤ a ∧ a + blk_size order ≤ top_addr s ∧
    (∀ x, in_blk x a order → is_free s x) ∧
    (∀ x, is_free s' x ↔ is_free s x ∧ ¬ in_blk x a order) ∧
    (∀ x, ¬ is_free s' x → frames s' x = frames s x) ∧
    same_env s s')).
Proof.
  intros (L & Hr & Hc & Hfp) Ho Ha.
  pose proof (alloc_spec order s L Hr Hc Hfp Ho) as Hspec. rewrite Ha in Hspec.
  destruct Hspec as [(-> & -> & HL)|(L' & Hr' & Hc' & Hfp' & Hse & Hk & Hd & Hlo & Hhi & H1 & H2)].
  - split; [by exists L|]. left. split_and!; [done..|]. intros o Hoo.
    rewrite (rep_flist s L) by (done || lia). by apply HL.
  - split; [by exists L'|]. right. split_and!; try done.
    + intros x Hx. by apply (is_free_covered s L), H1.
    + intros x. by rewrite (is_free_covered s' L'), (is_free_covered s L).
    + intros x. rewrite (is_free_covered s' L') by done. apply Hk.
Qed.

(** C2. [pmm_free_order] on an aligned block of the window no part of which
    is free terminates, preserves the invariant, adds exactly that block to
    free memory and changes no word outside free memory. *)
Theorem pmm_free_order_correct pa order s :
  pmm_inv s → (order < MAX_ORDER)%nat →
  (blk_size order | pa) → base_addr s ≤ pa → pa + blk_size order ≤ top_addr s →
  (∀ x, in_blk x pa order → ¬ is_free s x) →
  ∃ s', pmm_free_order pa order s = Some s' ∧ pmm_inv s' ∧
    (∀ x, is_free s' x ↔ is_free s x ∨ in_blk x pa order) ∧
    (∀ x, ¬ is_free s' x → frames s' x = frames s x) ∧
    same_env s s'.
Proof.
  intros (L & Hr & Hc & Hfp) Ho Hd Hlo Hhi Hfree.
  destruct (free_spec pa order s L) as (s' & L' & Hs' & Hr' & Hc' & Hfp' & Hse & Hk & _ & Hcov);
    try done.
  { intros x Hx. rewrite <- (is_free_covered s L) by done. auto. }
  exists s'. split_and!; [done|by exists L'| | |done].
  - intros x. by rewrite (is_free_covered s' L'), (is_free_covered s L).
  - intros x. rewrite (is_free_covered s' L') by done. apply Hk.
Qed.

(** A block that is entirely free lies inside one block of the lists: this is
    what coalescing achieves. *)
Lemma covered_block s L o b :
  rep s L → coalesced L → (o < MAX_ORDER)%nat → (blk_size o | b) →
  (∀ x, in_blk x b o → covered L x) →
  ∃ o' b', (o ≤ o' < MAX_ORDER)%nat ∧ b' ∈ L o' ∧ ∀ x, in_blk x b o → in_blk x b' o'.
Proof.
  intros Hr Hc. revert b. induction o as [|o IH]; intros b Ho Hd Hall.
  - destruct (Hall b (in_blk_self b 0)) as (o' & b' & Ho' & Hb' & Hin).
    exists o', b'. split_and!; [lia|done|done|]. intros x Hx.
    destruct (rep_blk s L Hr o' b' Ho' Hb') as (Hd' & _).
    destruct (in_blk_nested b b 0 b' o') as [? ?]; [lia|done|done|apply in_blk_self|done|].
    unfold in_blk in *. lia.
  - assert (blk_size o | b) as Hd1.
    { etrans; [apply (blk_size_divide o (S o)); lia|done]. }
    assert (∀ x, in_blk x b (S o) ↔ in_blk x b o ∨ in_blk x (b + blk_size o) o) as Hsp.
    { intros x. pose proof (blk_size_ge o). unfold in_blk. rewrite blk_size_S. lia. }
    destruct (IH b) as (o1 & b1 & Ho1 & Hb1 & Hin1); [lia|done|intros; apply Hall, Hsp; auto|].
    destruct (IH (b + blk_size o)) as (o2 & b2 & Ho2 & Hb2 & Hin2);
      [lia|by apply Z.divide_add_r|intros; apply Hall, Hsp; auto|].
    pose proof (in_blk_self b o) as Hs1. pose proof (in_blk_self (b + blk_size o) o) as Hs2.
    destruct (rep_blk s L Hr o1 b1) as (Hd1' & _); [lia|done|].
    destruct (rep_blk s L Hr o2 b2) as (Hd2' & _); [lia|done|].
    destruct (decide (o1 = o)) as [->|Hne].
    + assert (b1 = b) as ->.
      { destruct (in_blk_nested b b o b1 o); [lia|done|done|done|auto|]. lia. }
      exists o2, b2. destruct (decide (o2 = o)) as [->|Hne2].
      * exfalso. assert (b2 = b + blk_size o) as ->.
        { destruct (in_blk_nested (b + blk_size o) (b + blk_size o) o b2 o);
            [lia|by apply Z.divide_add_r|done|done|auto|]. lia. }
        apply (Hc o (b + blk_size o)); [lia|done|]. by rewrite buddy_upper.
      * split_and!; [lia|lia|done|]. intros x Hx.
        destruct (in_blk_nested (b + blk_size o) b (S o) b2 o2) as [? ?];
          [lia|done|done|apply Hsp; auto|auto|]. unfold in_blk in *. lia.
    + exists o1, b1. split_and!; [lia|lia|done|]. intros x Hx.
      destruct (in_blk_nested b b (S o) b1 o1) as [? ?];
        [lia|done|done|apply in_blk_self|auto|]. unfold in_blk in *. lia.
Qed.

(** C18. Allocation is complete: when [pmm_alloc_order] returns 0 there is no
    aligned free block of that order anywhere in the window, however the
    blocks around it were allocated and released. *)
Theorem pmm_alloc_order_complete order s b :
  pmm_inv s → (order < MAX_ORDER)%nat → (pmm_alloc_order order s).1 = 0 →
  (blk_size order | b) → ¬ (∀ x, in_blk x b order → is_free s x).
Proof.
  intros (L & Hr & Hc & Hfp) Ho Ha Hd Hall.
  pose proof (alloc_spec order s L Hr Hc Hfp Ho) as Hspec.
  destruct (pmm_alloc_order order s) as [a s']. simpl in Ha. subst a.
  destruct Hspec as [(_ & _ & HL)|(L' & _ & _ & _ & _ & _ & _ & Hlo & _)].
  - destruct (covered_block s L order b) as (o' & b' & Ho' & Hb' & _); try done.
    { intros x Hx. by apply (is_free_covered s L), Hall. }
    rewrite HL in Hb' by done. set_solver.
  - pose proof (lo_base s (rep_layout s L Hr)). lia.
Qed.
