(* ===== verification/PmmInit.v ===== *)
(** Initialisation of the frame allocator ([pmm_init]) and the life of the
    allocator after it: every interleaving of allocations, releases and
    client stores keeps the allocated blocks disjoint from each other, from
    free memory and from the reserved ranges. *)
From S2P Require Import Prelude Pmm PmmFacts.

(** ** Bitmap placement *)

Lemma place_bitmaps_spec base top n o t ptr size :
  t = sum_upto (bits_bytes base top) o →
  (∀ k, (k < o)%nat → ptr k = BITS_BASE + sum_upto (bits_bytes base top) k) →
  let '(t', ptr', _) := place_bitmaps base top o n t ptr size in
  t' = sum_upto (bits_bytes base top) (o + n) ∧
  ∀ k, (k < o + n)%nat → ptr' k = BITS_BASE + sum_upto (bits_bytes base top) k.
Proof.
  revert o t ptr size. induction n as [|n IH]; intros o t ptr size Ht Hp; simpl.
  { by rewrite Nat.add_0_r. }
  rewrite Nat.add_succ_r. rewrite <- Nat.add_succ_l. apply IH.
  - simpl. lia.
  - intros k Hk. destruct (decide (k = o)) as [->|Hne].
    + rewrite fn_lookup_insert. lia.
    + rewrite fn_lookup_insert_ne by done. apply Hp. lia.
Qed.

Lemma place_bitmaps_all base top t ptr size :
  place_bitmaps base top 0 MAX_ORDER 0 (λ _, 0) (λ _, 0) = (t, ptr, size) →
  t = sum_upto (bits_bytes base top) MAX_ORDER ∧
  ∀ k, (k < MAX_ORDER)%nat → ptr k = BITS_BASE + sum_upto (bits_bytes base top) k.
Proof.
  generalize MAX_ORDER as n. intros n E.
  pose proof (place_bitmaps_spec base top n 0 0 (λ _, 0) (λ _, 0)) as Hp.
  rewrite E in Hp. apply Hp; [done|intros; lia].
Qed.

Lemma bits_bytes_pos base top o : base ≤ top → 0 < bits_bytes base top o.
Proof.
  intros Hle. unfold bits_bytes.
  assert (0 ≤ Z.shiftr (u64 (top - base)) (MIN_ORDER_BITS + Z.of_nat o)) as H0.
  { apply Z.shiftr_nonneg. apply u64_range. }
  generalize dependent (Z.shiftr (u64 (top - base)) (MIN_ORDER_BITS + Z.of_nat o)).
  intros z Hz. pose proof (Z.div_pos (z + 7) 8). lia.
Qed.

Lemma sum_upto_mono f n m :
  (∀ k, 0 ≤ f k) → (n ≤ m)%nat → sum_upto f n ≤ sum_upto f m.
Proof.
  intros Hf Hle. induction Hle as [|m Hle IH]; [done|]. simpl. pose proof (Hf m). lia.
Qed.

Lemma clear_bits_in n b a : BITS_BASE ≤ a < BITS_BASE + n → clear_bits n b a = 0.
Proof. intros H. unfold clear_bits. by rewrite (proj2 (Z.leb_le _ _)), (proj2 (Z.ltb_lt _ _)) by lia. Qed.

Lemma cleared_bits s t bi o pa :
  layout_ok s → bits s = clear_bits t bi →
  t = sum_upto (bits_bytes (base_addr s) (top_addr s)) MAX_ORDER →
  (∀ k, (k < MAX_ORDER)%nat →
    order_bits s k = BITS_BASE + sum_upto (bits_bytes (base_addr s) (top_addr s)) k) →
  blk_pos s o pa → bit_get o pa s = false.
Proof.
  intros Hl Hbits Htot Hptr Hpa. pose proof (bit_byte_in_map s o pa Hl Hpa) as Hin.
  destruct Hpa as (Ho & _). unfold bit_get. rewrite land_bit_test by apply land_7_range.
  assert (∀ k, 0 ≤ bits_bytes (base_addr s) (top_addr s) k) as Hpos.
  { intros k. pose proof (bits_bytes_pos (base_addr s) (top_addr s) k (proj1 (lo_top s Hl))). lia. }
  rewrite Hptr by lia. revert Hpos Hin Htot.
  generalize (bits_bytes (base_addr s) (top_addr s)). intros f Hpos Hin Htot.
  pose proof (sum_upto_mono f 0 o Hpos ltac:(lia)) as H0.
  pose proof (sum_upto_mono f (S o) MAX_ORDER Hpos ltac:(lia)) as H1.
  cbn [sum_upto] in H0, H1. rewrite <- Htot in H1.
  rewrite Hbits, clear_bits_in by lia. apply Z.bits_0.
Qed.

(** A state with empty lists, cleared bitmaps and the layout of
    [place_bitmaps] represents the empty pool. *)
Lemma empty_rep base top t ptr size tot r fr bi :
  0 < base → base ≤ top < 2 ^ 62 → t = sum_upto (bits_bytes base top) MAX_ORDER →
  (∀ k, (k < MAX_ORDER)%nat → ptr k = BITS_BASE + sum_upto (bits_bytes base top) k) →
  rep (Pmm (λ _, Freelist 0 0) ptr size base top tot 0 r fr (clear_bits t bi)) (λ _, []).
Proof.
  intros Hb Ht Htot Hptr.
  assert (∀ k, 0 ≤ bits_bytes base top k) as Hpos.
  { intros k. pose proof (bits_bytes_pos base top k). lia. }
  set (s := Pmm _ _ _ _ _ _ _ _ _ _).
  assert (layout_ok s) as Hl.
  { split; simpl; [lia..|]. intros o o' Ho. rewrite !Hptr by lia.
    pose proof (sum_upto_mono (bits_bytes base top) (S o) o' Hpos ltac:(lia)) as H.
    simpl in H. lia. }
  split; try done.
  - intros. apply NoDup_nil_2.
  - by intros o b _ ?%elem_of_nil.
  - by intros a o b o' b' _ _ ?%elem_of_nil.
  - intros o pa Hpa. rewrite bool_decide_false by apply not_elem_of_nil.
    by apply (cleared_bits s t bi).
Qed.

(** The state in front of the seeding loop has no free blocks. *)
Lemma prepare_rep base top r fr bi :
  0 < base → base ≤ top < 2 ^ 62 → rep (pmm_prepare base top r fr bi) (λ _, []).
Proof.
  intros Hb Ht. unfold pmm_prepare.
  destruct (place_bitmaps _ _ _ _ _ _ _) as [[t ptr] size] eqn:E.
  apply place_bitmaps_all in E as [Htot Hptr]. by apply empty_rep.
Qed.

(** ** Seeding *)

(** The frame that contains [a] touches a reserved range. *)
Definition page_resv (r : list (Z * Z)) (a : Z) : bool :=
  resv_hits r (a / PAGE_SIZE * PAGE_SIZE) PAGE_SIZE.

(** A block clear of the reserved ranges consists of frames clear of them. *)
Lemma resv_hits_sub r pa size pa' size' :
  0 ≤ pa → pa ≤ pa' → pa' + size' ≤ pa + size → 0 ≤ size' → pa + size < 2 ^ 64 →
  resv_hits r pa size = false → resv_hits r pa' size' = false.
Proof.
  intros H0 Hle Hle' Hs Hb. unfold resv_hits.
  rewrite <- !not_true_iff_false, !existsb_exists. intros Hn ([lo hi] & Hin & Hh).
  apply Hn. exists (lo, hi). split; [done|]. bool_split. rewrite u64_small in * by lia.
  apply andb_true_iff. split; apply Z.ltb_lt; lia.
Qed.

Lemma page_in_blk a b o :
  (blk_size o | b) → in_blk a b o →
  b ≤ a / PAGE_SIZE * PAGE_SIZE ∧ a / PAGE_SIZE * PAGE_SIZE + PAGE_SIZE ≤ b + blk_size o ∧
  a / PAGE_SIZE * PAGE_SIZE ≤ a < a / PAGE_SIZE * PAGE_SIZE + PAGE_SIZE.
Proof.
  intros Hd Hin.
  assert (in_blk a (a / PAGE_SIZE * PAGE_SIZE) 0) as Hp.
  { unfold in_blk. change (blk_size 0) with PAGE_SIZE.
    pose proof (Z.div_mod a PAGE_SIZE). pose proof (Z.mod_pos_bound a PAGE_SIZE).
    unfold PAGE_SIZE in *. lia. }
  destruct (in_blk_nested a (a / PAGE_SIZE * PAGE_SIZE) 0 b o) as [? ?];
    [lia|apply Z.divide_factor_r|done|done|done|]. change (blk_size 0) with PAGE_SIZE in *. done.
Qed.

Lemma page_resv_blk r cur o a :
  0 ≤ cur → cur + blk_size o < 2 ^ 64 → (blk_size o | cur) →
  resv_hits r cur (blk_size o) = false → in_blk a cur o → page_resv r a = false.
Proof.
  intros H0 Hb Hd Hh Hin. destruct (page_in_blk a cur o Hd Hin) as (H1 & H2 & _).
  apply (resv_hits_sub r cur (blk_size o)); (done || unfold PAGE_SIZE in *; lia).
Qed.

Lemma seed_order_spec fuel cur top o :
  0 ≤ cur → (o < MAX_ORDER)%nat → (blk_size o | cur) → cur + blk_size o ≤ top →
  top < 2 ^ 62 →
  let o' := seed_order fuel cur top o in
  (o' < MAX_ORDER)%nat ∧ (blk_size o' | cur) ∧ cur + blk_size o' ≤ top.
Proof.
  revert o. induction fuel as [|fuel IH]; intros o H0 Ho Hd Hle Ht; simpl; [done|].
  destruct ((S o <? MAX_ORDER)%nat && _ && _) eqn:E; [|done].
  apply andb_prop in E as [E E3]. apply andb_prop in E as [E1 E2].
  apply Nat.ltb_lt in E1. apply Z.eqb_eq in E2. apply Z.leb_le in E3.
  pose proof (blk_size_max (S o) E1) as Hmax. pose proof (blk_size_ge (S o)).
  apply IH; try done.
  - rewrite blk_size_pow in *. rewrite land_mask in E2 by lia.
    apply Z.mod_divide in E2; [done|]. pose proof (pow2_pos (12 + Z.of_nat (S o))). lia.
  - pose proof (blk_size_ge o). rewrite u64_small in E3 by lia. done.
Qed.

Lemma seed_shrink_spec r cur o :
  (seed_shrink r cur o ≤ o)%nat ∧
  (seed_shrink r cur o = O ∨ resv_hits r cur (blk_size (seed_shrink r cur o)) = false).
Proof.
  induction o as [|o IH]; simpl; [auto|].
  destruct (resv_hits r cur (blk_size (S o))) eqn:E; [|auto]. naive_solver lia.
Qed.

(** The seeding loop from [cur]: the frames below [cur] that miss the
    reserved ranges are free, and [total_pg] exceeds [free_pg] by the frames
    still ahead. *)
Record seeding (s : pmm_state) (L : nat → list Z) (cur : Z) : Prop := {
  sd_rep : rep s L;
  sd_coal : coalesced L;
  sd_sum : free_pg s = u64 (sum_pages L);
  sd_cur : base_addr s ≤ cur ≤ top_addr s;
  sd_curp : (PAGE_SIZE | cur);
  sd_topp : (PAGE_SIZE | top_addr s);
  sd_free : 0 ≤ free_pg s;
  sd_total : total_pg s = free_pg s + (top_addr s - cur) / PAGE_SIZE;
  sd_bound : total_pg s < 2 ^ 62;
  sd_cov : ∀ a, covered L a ↔ base_addr s ≤ a < cur ∧ page_resv (resv s) a = false;
}.

Lemma page_span a cur :
  (PAGE_SIZE | cur) → in_blk a cur 0 → a / PAGE_SIZE * PAGE_SIZE = cur.
Proof.
  intros Hd Hin. destruct (page_in_blk a cur 0) as (? & ? & ?); try done.
  change (blk_size 0) with PAGE_SIZE in *. lia.
Qed.

(** A reserved frame is skipped. *)
Lemma seed_skip s L cur :
  seeding s L cur → cur < top_addr s → resv_hits (resv s) cur (blk_size 0) = true →
  let s' := set_total_pg (u64 (total_pg s - 1)) s in
  seeding s' L (cur + PAGE_SIZE) ∧ blk_size 0 ≤ u64 (top_addr s - cur).
Proof.
  intros [Hr Hc Hsum Hcur Hcp Htp Hfree Htot Hbnd Hcov] Hlt Hh.
  pose proof (lo_top s (rep_layout s L Hr)). pose proof (lo_base s (rep_layout s L Hr)).
  assert (cur + PAGE_SIZE ≤ top_addr s) as Hroom
    by (apply divide_apart; (done || unfold PAGE_SIZE; lia)).
  assert ((top_addr s - cur) / PAGE_SIZE = (top_addr s - (cur + PAGE_SIZE)) / PAGE_SIZE + 1) as Hdiv.
  { replace (top_addr s - cur) with (top_addr s - (cur + PAGE_SIZE) + 1 * PAGE_SIZE) by lia.
    rewrite Z.div_add by done. done. }
  assert (0 ≤ (top_addr s - (cur + PAGE_SIZE)) / PAGE_SIZE)
    by (apply Z.div_pos; [lia|done]).
  split; [|rewrite u64_small by lia; change (blk_size 0) with PAGE_SIZE; lia].
  assert (u64 (total_pg s - 1) = total_pg s - 1) as Hu by (apply u64_small; lia).
  split; simpl; try done; rewrite ?Hu; try lia.
  - destruct Hr as [[] ? ? ? ? ? ?]. constructor; [by constructor|done..].
  - unfold PAGE_SIZE in *. lia.
  - apply Z.divide_add_r; [done|apply Z.divide_refl].
  - intros a. rewrite Hcov. split; [intros [? ?]; split; [unfold PAGE_SIZE; lia|done]|].
    intros [Ha Hp]. split; [|done]. split; [lia|].
    destruct (decide (a < cur)) as [|Hge]; [done|]. exfalso.
    unfold page_resv in Hp. rewrite (page_span a cur) in Hp; [|done|].
    + change PAGE_SIZE with (blk_size 0) in Hp. congruence.
    + unfold in_blk. change (blk_size 0) with PAGE_SIZE. lia.
Qed.

(** A block is released to the lists. *)
Lemma seed_block s L cur o :
  seeding s L cur → (o < MAX_ORDER)%nat → (blk_size o | cur) →
  cur + blk_size o ≤ top_addr s → resv_hits (resv s) cur (blk_size o) = false →
  ∃ s' L', pmm_free_order cur o s = Some s' ∧ seeding s' L' (cur + blk_size o) ∧
    same_env s s'.
Proof.
  intros [Hr Hc Hsum Hcur Hcp Htp Hfree Htot Hbnd Hcov] Ho Hd Hhi Hh.
  pose proof (lo_top s (rep_layout s L Hr)). pose proof (lo_base s (rep_layout s L Hr)).
  pose proof (blk_size_ge o) as Hge.
  destruct (free_spec cur o s L) as (s' & L' & Hs' & Hr' & Hc' & Hsum' & Hse & _ & Hpg & Hcov');
    try done; [lia| |].
  { intros a Ha. rewrite Hcov. unfold in_blk in Ha. lia. }
  assert (blk_size o = 2 ^ Z.of_nat o * PAGE_SIZE) as Hsz.
  { rewrite blk_size_pow, Z.pow_add_r by lia. change PAGE_SIZE with (2 ^ 12). lia. }
  assert ((top_addr s - cur) / PAGE_SIZE =
          (top_addr s - (cur + blk_size o)) / PAGE_SIZE + 2 ^ Z.of_nat o) as Hdiv.
  { replace (top_addr s - cur) with (top_addr s - (cur + blk_size o) + 2 ^ Z.of_nat o * PAGE_SIZE)
      by lia. rewrite Z.div_add by done. done. }
  assert (0 ≤ (top_addr s - (cur + blk_size o)) / PAGE_SIZE)
    by (apply Z.div_pos; [lia|done]).
  pose proof (pow2_pos (Z.of_nat o)). rewrite u64_small in Hpg by lia.
  exists s', L'. split_and!; [done| |done].
  split; rewrite ?(se_base s s'), ?(se_top s s'), ?(se_resv s s'), ?(se_total s s') by done;
    try done; try lia.
  - apply Z.divide_add_r; [done|]. exists (2 ^ Z.of_nat o). done.
  - intros a. rewrite Hcov', Hcov. unfold in_blk. split.
    + intros [[? ?]|Ha]; [split; [lia|done]|]. split; [lia|].
      apply (page_resv_blk (resv s) cur o); (done || lia).
    + intros [? ?]. destruct (decide (a < cur)); [left|right]; [split; [lia|done]|lia].
Qed.

Lemma seeding_room s L cur :
  seeding s L cur → cur < top_addr s →
  cur + PAGE_SIZE ≤ top_addr s ∧ 1 ≤ (top_addr s - cur) / PAGE_SIZE ∧
  0 < cur ∧ top_addr s < 2 ^ 62.
Proof.
  intros Hs Hlt. pose proof (lo_base s (rep_layout s L (sd_rep s L cur Hs))).
  pose proof (lo_top s (rep_layout s L (sd_rep s L cur Hs))).
  assert (cur + PAGE_SIZE ≤ top_addr s).
  { apply divide_apart; [done|by apply (sd_curp s L)|by apply (sd_topp s L cur)|done]. }
  split_and!; [done| |pose proof (sd_cur s L cur Hs); lia|lia].
  change 1 with (PAGE_SIZE / PAGE_SIZE). apply Z.div_le_mono; [done|lia].
Qed.

Lemma seed_spec fuel cur s L :
  seeding s L cur → (top_addr s - cur) / PAGE_SIZE ≤ Z.of_nat fuel →
  ∃ s' L', seed fuel cur s = Some s' ∧ seeding s' L' (top_addr s) ∧
    base_addr s' = base_addr s ∧ top_addr s' = top_addr s ∧ resv s' = resv s.
Proof.
  revert cur s L. induction fuel as [|fuel IH]; intros cur s L Hs Hf; cbn [seed];
    (destruct (Z.leb_spec (top_addr s) cur) as [Hge|Hlt];
     [assert (cur = top_addr s) as -> by (pose proof (sd_cur s L cur Hs); lia); eauto 10|]);
    destruct (seeding_room s L cur Hs Hlt) as (Hroom & Hone & H0 & Htop); [lia|].
  destruct (resv_hits (resv s) cur (blk_size 0)) eqn:Hh.
  - destruct (seed_skip s L cur Hs Hlt Hh) as [Hs' Hroom'].
    rewrite (proj2 (Z.leb_le _ _)) by done. change (blk_size 0) with PAGE_SIZE.
    rewrite (u64_small (cur + PAGE_SIZE)) by (unfold PAGE_SIZE in *; lia).
    destruct (IH (cur + PAGE_SIZE) _ L Hs') as (s' & L' & ? & ? & ? & ? & ?); [|by eauto 10].
    simpl. replace (top_addr s - cur) with (top_addr s - (cur + PAGE_SIZE) + 1 * PAGE_SIZE) in Hf
      by lia. rewrite Z.div_add in Hf by done. lia.
  - destruct (seed_order_spec MAX_ORDER cur (top_addr s) 0) as (Ho & Hd & Hhi);
      [lia|unfold MAX_ORDER; lia|by apply (sd_curp s L)|done|done|].
    set (o1 := seed_order MAX_ORDER cur (top_addr s) 0) in *.
    destruct (seed_shrink_spec (resv s) cur o1) as [Hle Hmiss].
    set (o := seed_shrink (resv s) cur o1) in *.
    pose proof (blk_size_divide o o1 Hle) as Hdv.
    assert (blk_size o ≤ blk_size o1)
      by (apply Z.divide_pos_le; [pose proof (blk_size_ge o1); lia|done]).
    destruct (seed_block s L cur o) as (s1 & L1 & -> & Hs1 & Hse); try done.
    + lia.
    + by etrans.
    + lia.
    + destruct Hmiss as [Hz|]; [rewrite Hz; done|done].
    + pose proof (blk_size_ge o). rewrite u64_small by lia.
      destruct (IH (cur + blk_size o) s1 L1 Hs1) as (s' & L' & -> & Hs' & Hb & Ht & Hrs).
      * rewrite (se_top s s1) by done.
        pose proof (Z.div_le_mono (top_addr s - (cur + blk_size o) + 1 * PAGE_SIZE)
          (top_addr s - cur) PAGE_SIZE) as Hm.
        rewrite Z.div_add in Hm by done. change (blk_size 0) with PAGE_SIZE in *.
        unfold PAGE_SIZE in *. lia.
      * exists s', L'. rewrite (se_top s s1) in * by done.
        split_and!; [done|done|by rewrite Hb, (se_base s s1)|done|by rewrite Hrs, (se_resv s s1)].
Qed.

(** ** The memory window *)

(** The candidate region stays a proper interval below 4 GiB. *)
Definition region_ok (b : Z * Z) : Prop := 0 ≤ b.1 ∧ b.1 ≤ b.2 ≤ 0x100000000.

Lemma e820_step_ok b e : 0 ≤ e_addr e → region_ok b → region_ok (e820_step b e).
Proof.
  intros He Hb. unfold e820_step.
  destruct (negb _); [done|]. destruct (_ || _) eqn:E; [done|].
  destruct (u64 (b.2 - b.1) <? _); [|done].
  bool_split. unfold region_ok. simpl. lia.
Qed.

Lemma e820_best_ok map : Forall (λ e, 0 ≤ e_addr e) map → region_ok (e820_best map).
Proof.
  intros Hm. unfold e820_best. assert (region_ok (0, 0)) as H0 by (unfold region_ok; simpl; lia).
  revert H0. generalize (0, 0). induction Hm as [|e map He Hm IH]; intros b Hb; simpl; [done|].
  by apply IH, e820_step_ok.
Qed.

Section init.
Context (map : list e820_entry) (bss_end : Z).
Context (Hmap : Forall (λ e, 0 ≤ e_addr e) map).
(** The kernel image ends in the low 2 GiB that the high alias covers. *)
Context (Hbss : 0 ≤ VIRT_TO_PHYS bss_end < 2 ^ 31).
(** There is room for the 16 MiB heap, and for the window below it. *)
Context (Hmem : 2 ^ 24 + 2 ^ 21 ≤ (e820_best map).2).
Context (Hwin : (pmm_window map bss_end).1 ≤ (pmm_window map bss_end).2).

Lemma window_spec :
  let '(base, top) := pmm_window map bss_end in
  (PAGE_SIZE | base) ∧ (PAGE_SIZE | top) ∧ 2 ^ 21 ≤ base ∧ base ≤ top ∧
  top ≤ 2 ^ 32 - 2 ^ 24 ∧ top ≤ (e820_best map).2 - 2 ^ 24.
Proof using Hmap Hbss Hmem Hwin.
  destruct (e820_best_ok map Hmap) as [_ Hbest].
  revert Hwin. unfold pmm_window, kheap_place. simpl.
  change PAGE_SIZE with (2 ^ 12). change 0x200000 with (2 ^ 21).
  change (Z.shiftl 16 20) with (2 ^ 24).
  destruct (ALIGN_UP_spec (VIRT_TO_PHYS bss_end) 12) as [Hk1 Hkd]; [lia..|].
  set (k1 := ALIGN_UP (VIRT_TO_PHYS bss_end) (2 ^ 12)) in *.
  destruct (ALIGN_UP_spec k1 12) as [Hk2 Hkd2]; [lia..|].
  set (k2 := ALIGN_UP k1 (2 ^ 12)) in *.
  destruct (ALIGN_DOWN_spec (e820_best map).2 21) as [Ht1 Ht1d]; [lia|].
  set (t1 := ALIGN_DOWN (e820_best map).2 (2 ^ 21)) in *.
  destruct (ALIGN_DOWN_spec t1 12) as [Ht2 _]; [lia|].
  set (t2 := ALIGN_DOWN t1 (2 ^ 12)) in *.
  assert (2 ^ 24 ≤ t2 ≤ 2 ^ 32) as Ht2b.
  { assert (t2 = t1) as ->; [|lia]. unfold t2. rewrite ALIGN_DOWN_pow2 by lia.
    assert (2 ^ 12 | t1) as [k ->] by (etrans; [apply (pow2_divide 12 21); lia|done]).
    by rewrite Z.div_mul. }
  rewrite u64_small by lia. rewrite u64_small by lia.
  destruct (ALIGN_DOWN_spec (t2 - 2 ^ 24) 12) as [Ht3 Htd]; [lia|].
  intros Hw. split_and!; [|done|lia..].
  apply Z.divide_add_r; [done|]. apply pow2_divide. lia.
Qed.

Lemma pmm_init_spec r fr bi :
  ∃ s, pmm_init map bss_end r fr bi = Some s ∧ pmm_inv s ∧
    (base_addr s, top_addr s) = pmm_window map bss_end ∧ resv s = r ∧
    free_pg s = total_pg s ∧
    ∀ a, is_free s a ↔ base_addr s ≤ a < top_addr s ∧ page_resv r a = false.
Proof using Hmap Hbss Hmem Hwin.
  unfold pmm_init. pose proof window_spec as Hw.
  destruct (pmm_window map bss_end) as [base top].
  destruct Hw as (Hbp & Htp & Hb & Hle & Ht & _).
  pose proof (prepare_rep base top r fr bi ltac:(lia) ltac:(lia)) as Hr.
  assert (total_pg (pmm_prepare base top r fr bi) = (top - base) / PAGE_SIZE ∧
          free_pg (pmm_prepare base top r fr bi) = 0 ∧
          base_addr (pmm_prepare base top r fr bi) = base ∧
          top_addr (pmm_prepare base top r fr bi) = top ∧
          resv (pmm_prepare base top r fr bi) = r) as (H1 & H2 & H3 & H4 & H5).
  { unfold pmm_prepare. destruct (place_bitmaps _ _ _ _ _ _ _) as [[? ?] ?]. simpl.
    by rewrite u64_small, Z.shiftr_div_pow2 by (unfold MIN_ORDER_BITS; lia). }
  set (s0 := pmm_prepare base top r fr bi) in *.
  assert (0 ≤ (top - base) / PAGE_SIZE < 2 ^ 62) as Hq.
  { split; [apply Z.div_pos; [lia|done]|].
    apply Z.le_lt_trans with (top - base); [|lia].
    apply Z.div_le_upper_bound; [done|]. unfold PAGE_SIZE. lia. }
  destruct (seed_spec (Z.to_nat (Z.shiftr (u64 (top - base)) MIN_ORDER_BITS) + 1) base s0
    (λ _, [])) as (s & L & -> & Hs & Hbs & Hts & Hrs).
  - split; rewrite ?H1, ?H2, ?H3, ?H4, ?H5; try done; try lia.
    + intros o b _ Hin. set_solver.
    + intros a. split; [intros (? & ? & _ & Hin & _); set_solver|lia].
  - rewrite u64_small, Z.shiftr_div_pow2 by (unfold MIN_ORDER_BITS; lia).
    rewrite H4. change (2 ^ MIN_ORDER_BITS) with PAGE_SIZE. lia.
  - exists s. rewrite H4 in *. destruct Hs as [Hr' Hc' Hsum' _ _ _ _ Htot _ Hcov].
    split_and!; [done|by exists L|congruence|congruence| |].
    + rewrite Htot, Hts, Z.sub_diag, Z.div_0_l by done. lia.
    + intros a. rewrite (is_free_covered s L), Hcov, Hts, Hrs, H5 by done. done.
Qed.
End init.

(** C17. [pmm_init] terminates on every E820 map whose best region can hold
    the heap; it establishes the invariant, and exactly the frames of the
    window that touch no reserved range are free, which is what [total_pg]
    and [free_pg] report. *)
Theorem pmm_init_correct map bss_end r fr bi :
  Forall (λ e, 0 ≤ e_addr e) map → 0 ≤ VIRT_TO_PHYS bss_end < 2 ^ 31 →
  2 ^ 24 + 2 ^ 21 ≤ (e820_best map).2 →
  (pmm_window map bss_end).1 ≤ (pmm_window map bss_end).2 →
  ∃ s, pmm_init map bss_end r fr bi = Some s ∧ pmm_inv s ∧
    (base_addr s, top_addr s) = pmm_window map bss_end ∧ resv s = r ∧
    free_pg s = total_pg s ∧
    ∀ a, is_free s a ↔ base_addr s ≤ a < top_addr s ∧ page_resv r a = false.
Proof. intros. by apply pmm_init_spec. Qed.

(** ** The bitmaps stay below the boot page tables *)

Lemma bits_bytes_mono base top base' top' o :
  0 ≤ top - base ≤ top' - base' → top' - base' < 2 ^ 64 →
  bits_bytes base top o ≤ bits_bytes base' top' o.
Proof.
  intros H1 H2. unfold bits_bytes. rewrite !u64_small by lia.
  rewrite !Z.shiftr_div_pow2 by (unfold MIN_ORDER_BITS; lia).
  apply Z.add_le_mono_r, Z.div_le_mono; [lia|]. apply Z.add_le_mono_r, Z.div_le_mono; [|lia].
  apply pow2_pos. unfold MIN_ORDER_BITS. lia.
Qed.

Lemma sum_upto_le f g n : (∀ k, f k ≤ g k) → sum_upto f n ≤ sum_upto g n.
Proof. intros H. induction n as [|n IH]; simpl; [done|]. pose proof (H n). lia. Qed.

(** The bitmaps [pmm_init] lays out from [BITS_BASE] and clears end below
    0x50000, whatever the memory map: with the window capped at 4 GiB minus
    the heap they never reach the low memory behind them. *)
Theorem pmm_bitmaps_bounded map bss_end t ptr size :
  Forall (λ e, 0 ≤ e_addr e) map → 0 ≤ VIRT_TO_PHYS bss_end < 2 ^ 31 →
  2 ^ 24 + 2 ^ 21 ≤ (e820_best map).2 →
  (pmm_window map bss_end).1 ≤ (pmm_window map bss_end).2 →
  place_bitmaps (pmm_window map bss_end).1 (pmm_window map bss_end).2
    0 MAX_ORDER 0 (λ _, 0) (λ _, 0) = (t, ptr, size) →
  BITS_BASE + t < 0x50000.
Proof.
  intros Hmap Hbss Hmem Hwin Hp. pose proof (window_spec map bss_end Hmap Hbss Hmem Hwin) as Hw.
  destruct (pmm_window map bss_end) as [base top]. cbn [fst snd] in *.
  destruct Hw as (_ & _ & Hb & Hle & Ht & _).
  apply place_bitmaps_all in Hp as [-> _].
  pose proof (sum_upto_le (bits_bytes base top) (bits_bytes (2 ^ 21) (2 ^ 32 - 2 ^ 24)) MAX_ORDER)
    as Hs.
  eapply Z.le_lt_trans.
  - apply Z.add_le_mono_l, Hs. intros k. apply bits_bytes_mono; lia.
  - vm_compute. done.
Qed.

(** ** What memory the window is made of *)

(** [a] is inside a usable entry of the memory map. *)
Definition is_ram (map : list e820_entry) (a : Z) : Prop :=
  ∃ e, e ∈ map ∧ e_type e = E820_RAM ∧ e_addr e ≤ a < e_addr e + e_size e.

(** The selected region consists of usable memory. *)
Lemma e820_best_ram map :
  Forall (λ e, 0 ≤ e_addr e ∧ 0 ≤ e_size e ∧ e_addr e + e_size e < 2 ^ 64) map →
  ∀ a, (e820_best map).1 ≤ a < (e820_best map).2 → is_ram map a.
Proof.
  intros Hm. unfold e820_best.
  assert (∀ m b, (∀ e, e ∈ m → e ∈ map) → (∀ a, b.1 ≤ a < b.2 → is_ram map a) →
    ∀ a, (fold_left e820_step m b).1 ≤ a < (fold_left e820_step m b).2 → is_ram map a) as H.
  { induction m as [|e m IH]; intros b Hsub Hb; [done|]. cbn [fold_left].
    apply IH; [set_solver|]. unfold e820_step.
    destruct (e_type e =? E820_RAM) eqn:Et; [|done]. simpl.
    destruct (_ || _) eqn:E; [done|]. destruct (u64 (b.2 - b.1) <? _); [|done].
    assert (e ∈ map) as He by set_solver.
    pose proof (proj1 (Forall_forall _ _) Hm e He) as (? & ? & ?). simpl in *.
    rewrite u64_small by lia. intros a Ha. exists e. split_and!; [done|lia|lia|lia]. }
  apply H; [done|]. simpl. lia.
Qed.

(** When the selected region starts at or below the window, every frame
    the allocator hands out is usable memory of the E820 map. *)
Theorem pmm_free_is_ram map bss_end r fr bi s a :
  Forall (λ e, 0 ≤ e_addr e ∧ 0 ≤ e_size e ∧ e_addr e + e_size e < 2 ^ 64) map →
  0 ≤ VIRT_TO_PHYS bss_end < 2 ^ 31 → 2 ^ 24 + 2 ^ 21 ≤ (e820_best map).2 →
  (pmm_window map bss_end).1 ≤ (pmm_window map bss_end).2 →
  (e820_best map).1 ≤ (pmm_window map bss_end).1 →
  pmm_init map bss_end r fr bi = Some s → is_free s a → is_ram map a.
Proof.
  intros Hm Hb He Hw Hbest Hi Hfree.
  assert (Forall (λ e, 0 ≤ e_addr e) map) as Hm' by (eapply Forall_impl; [exact Hm|naive_solver]).
  destruct (pmm_init_spec map bss_end Hm' Hb He Hw r fr bi) as (? & Hi' & _ & Hwin & _ & _ & Hf).
  rewrite Hi in Hi'. injection Hi' as <-. apply Hf in Hfree as [Ha _].
  pose proof (window_spec map bss_end Hm' Hb He Hw) as Hspec.
  apply e820_best_ram; [done|]. rewrite <- Hwin in *. simpl in *. lia.
Qed.

(** A machine whose largest region starts above the kernel: 7 MiB at 1 MiB, a
    hole, and 64 MiB at 16 MiB. *)
Definition hole_map : list e820_entry := [E820 0x100000 0x700000 1; E820 0x1000000 0x4000000 1].

(** Without that condition it fails: the lower end of the window comes from
    the kernel image alone, so a hole between the image and the selected
    region is handed out as if it were memory. *)
Theorem pmm_hands_out_hole :
  ∃ s, pmm_init hole_map (HIGH_BASE + 0x140000) [] (λ _, 0) (λ _, 0) = Some s ∧
    is_free s 0x900000 ∧ ¬ is_ram hole_map 0x900000.
Proof.
  destruct (pmm_init_spec hole_map (HIGH_BASE + 0x140000)) with (r := @nil (Z * Z))
    (fr := λ _ : Z, 0) (bi := λ _ : Z, 0) as (s & Hs & _ & Hw & _ & _ & Hf).
  - repeat constructor; simpl; lia.
  - by vm_compute.
  - by vm_compute.
  - by vm_compute.
  - exists s. split_and!; [exact Hs| |].
    + apply Hf. assert (pmm_window hole_map (HIGH_BASE + 0x140000) = (0x340000, 0x4000000)) as E
        by (by vm_compute).
      rewrite E in Hw. injection Hw as -> ->. clear. by vm_compute.
    + intros (e & He & _ & Hin). unfold hole_map in He.
      rewrite !elem_of_cons, elem_of_nil in He. destruct He as [->|[->|[]]]; simpl in Hin; lia.
Qed.

(** ** The allocator in use

    The clients of the allocator as a step relation.  A configuration is the
    allocator's state and the blocks that are handed out; a client allocates,
    releases a block it holds, or writes anywhere into a block it holds. *)
Definition config : Type := pmm_state * list (Z * nat).

Inductive pmm_step : config → config → Prop :=
  | step_alloc order s a s' A :
      (order < MAX_ORDER)%nat → pmm_alloc_order order s = (a, s') → a ≠ 0 →
      pmm_step (s, A) (s', (a, order) :: A)
  | step_oom order s s' A :
      (order < MAX_ORDER)%nat → pmm_alloc_order order s = (0, s') →
      pmm_step (s, A) (s', A)
  | step_free pa order s s' A1 A2 :
      pmm_free_order pa order s = Some s' →
      pmm_step (s, A1 ++ (pa, order) :: A2) (s', A1 ++ A2)
  | step_store pa order x v s A :
      (pa, order) ∈ A → in_blk x pa order →
      pmm_step (s, A) (set_frame x v s, A).

(** The number of handed-out blocks that contain [x]. *)
Definition owners (x : Z) (A : list (Z * nat)) : nat :=
  length (filter (λ b, in_blk x b.1 b.2) A).

Lemma owners_cons x b A :
  owners x (b :: A) = ((if decide (in_blk x b.1 b.2) then 1 else 0) + owners x A)%nat.
Proof. unfold owners. rewrite filter_cons. by destruct (decide _). Qed.

Lemma owners_app x A1 A2 : owners x (A1 ++ A2) = (owners x A1 + owners x A2)%nat.
Proof. unfold owners. by rewrite filter_app, length_app. Qed.

(** What the frames of the window are: free, held by exactly one client
    block, or withheld because a reserved range touches them. *)
Record pool (s0 : pmm_state) (c : config) : Prop := {
  pool_inv : pmm_inv c.1;
  pool_env : same_env s0 c.1;
  pool_blk : ∀ pa order, (pa, order) ∈ c.2 →
    (order < MAX_ORDER)%nat ∧ (blk_size order | pa) ∧
    base_addr s0 ≤ pa ∧ pa + blk_size order ≤ top_addr s0;
  pool_free : ∀ x, is_free c.1 x → is_free s0 x ∧ owners x c.2 = 0%nat;
  pool_used : ∀ x, ¬ is_free c.1 x → is_free s0 x → owners x c.2 = 1%nat;
  pool_rest : ∀ x, ¬ is_free s0 x → owners x c.2 = 0%nat;
}.

Lemma owners_elem x pa order A :
  (pa, order) ∈ A → in_blk x pa order → owners x A ≠ 0%nat.
Proof.
  intros Hin Hx. apply list_elem_of_split in Hin as (A1 & A2 & ->).
  rewrite owners_app, owners_cons. simpl. rewrite decide_True by done. lia.
Qed.

Lemma pool_not_free s0 c pa order x :
  pool s0 c → (pa, order) ∈ c.2 → in_blk x pa order → ¬ is_free c.1 x.
Proof.
  intros Hp Hin Hx Hfree. destruct (pool_free s0 c Hp x Hfree) as [_ H0].
  by eapply owners_elem in Hin.
Qed.

(** A client's store into its own block is invisible to the allocator. *)
Lemma rep_client_store s L x v : rep s L → ¬ covered L x → rep (set_frame x v s) L.
Proof.
  intros [[] Hch Hcnt Hnd Hblk Hu Hbits] Hx. constructor; try done.
  intros o Ho. apply chain_insert; [|by apply Hch].
  intros Hin. apply Hx. exists o, x. split_and!; [done..|apply in_blk_self].
Qed.

Lemma client_store s x v :
  pmm_inv s → ¬ is_free s x →
  pmm_inv (set_frame x v s) ∧ ∀ a, is_free (set_frame x v s) a ↔ is_free s a.
Proof.
  intros (L & Hr & Hc & Hfp) Hx. rewrite (is_free_covered s L) in Hx by done.
  pose proof (rep_client_store s L x v Hr Hx) as Hr'.
  split; [by exists L|]. intros a. by rewrite !(is_free_covered _ L).
Qed.

Lemma pool_alloc s0 s A order a s' :
  pool s0 (s, A) → (order < MAX_ORDER)%nat → pmm_alloc_order order s = (a, s') → a ≠ 0 →
  pool s0 (s', (a, order) :: A).
Proof.
  intros [(L & Hr & Hc & Hfp) Henv Hblk Hf Hu Hrest] Ho Ha Hne. simpl in *.
  pose proof (alloc_spec order s L Hr Hc Hfp Ho) as Hspec. rewrite Ha in Hspec.
  destruct Hspec as [(-> & _)|(L' & Hr' & Hc' & Hfp' & Hse & _ & Hd & Hlo & Hhi & H1 & H2)]; [done|].
  assert (∀ x, is_free s' x ↔ is_free s x ∧ ¬ in_blk x a order) as Hfree.
  { intros x. by rewrite (is_free_covered s' L'), (is_free_covered s L). }
  assert (∀ x, in_blk x a order → is_free s x) as Hin.
  { intros x Hx. by apply (is_free_covered s L), H1. }
  constructor; simpl.
  - by exists L'.
  - by etrans.
  - intros pa o [[= -> ->]|?]%elem_of_cons; [|auto]. destruct Henv. split_and!; (done || lia).
  - intros x [Hx Hn]%Hfree. rewrite owners_cons. simpl. rewrite decide_False by done. auto.
  - intros x Hn Hx. rewrite owners_cons. simpl.
    destruct (decide (in_blk x a order)) as [Hb|Hb].
    + destruct (Hf x (Hin x Hb)) as [_ ->]. done.
    + rewrite Hu; [done| |done]. intros ?. apply Hn, Hfree. done.
  - intros x Hx. rewrite owners_cons. simpl. rewrite decide_False, Hrest; [done..|].
    intros Hb. by destruct (Hf x (Hin x Hb)).
Qed.

Lemma pool_free_order s0 s A1 A2 pa order :
  pool s0 (s, A1 ++ (pa, order) :: A2) →
  ∃ s', pmm_free_order pa order s = Some s' ∧ pool s0 (s', A1 ++ A2).
Proof.
  intros Hp. assert ((pa, order) ∈ A1 ++ (pa, order) :: A2) as Hel by set_solver.
  destruct (pool_blk s0 _ Hp pa order Hel) as (Ho & Hd & Hlo & Hhi).
  pose proof (λ x, pool_not_free s0 _ pa order x Hp Hel) as Hnf.
  destruct Hp as [(L & Hr & Hc & Hfp) Henv Hblk Hf Hu Hrest]. simpl in *.
  destruct (free_spec pa order s L) as (s' & L' & Hs' & Hr' & Hc' & Hfp' & Hse & _ & _ & Hcov);
    try done; [by rewrite (se_base s0 s)|by rewrite (se_top s0 s)| |].
  { intros x Hx. rewrite <- (is_free_covered s L) by done. auto. }
  assert (∀ x, is_free s' x ↔ is_free s x ∨ in_blk x pa order) as Hfree.
  { intros x. by rewrite (is_free_covered s' L'), (is_free_covered s L). }
  assert (∀ x, owners x (A1 ++ (pa, order) :: A2) =
    ((if decide (in_blk x pa order) then 1 else 0) + owners x (A1 ++ A2))%nat) as Hown.
  { intros x. rewrite !owners_app, owners_cons. simpl. lia. }
  exists s'. split; [done|]. constructor; simpl.
  - by exists L'.
  - by etrans.
  - intros. apply Hblk. set_solver.
  - intros x. rewrite Hfree. destruct (decide (is_free s0 x)) as [H0|H0].
    + intros [Hx|Hx]; split; try done.
      * destruct (Hf x Hx) as [_ H1]. rewrite Hown in H1. lia.
      * pose proof (Hu x (Hnf x Hx) H0) as H1. rewrite Hown, decide_True in H1 by done. lia.
    + pose proof (Hrest x H0) as H1. rewrite Hown in H1.
      intros [Hx|Hx]; [by apply Hf in Hx as [? _]|]. rewrite decide_True in H1 by done. lia.
  - intros x Hn H0. rewrite Hfree in Hn.
    assert (¬ is_free s x) as Hx by tauto. apply (Hu x) in Hx; [|done].
    rewrite Hown, decide_False in Hx by tauto. lia.
  - intros x H0. pose proof (Hrest x H0) as H1. rewrite Hown in H1. lia.
Qed.

Lemma pool_step s0 c c' : pmm_step c c' → pool s0 c → pool s0 c'.
Proof.
  intros Hs Hp. destruct Hs as [order s a s' A Ho Ha Hne|order s s' A Ho Ha|pa order s s' A1 A2 Hf
    |pa order x v s A Hin Hx].
  - by eapply pool_alloc.
  - destruct Hp as [(L & Hr & Hc & Hfp) Henv Hblk Hf Hu Hrest]. simpl in *.
    pose proof (alloc_spec order s L Hr Hc Hfp Ho) as Hspec. rewrite Ha in Hspec.
    destruct Hspec as [(_ & -> & _)|(L' & _ & _ & _ & _ & _ & _ & Hlo & _)].
    + constructor; try done. by exists L.
    + pose proof (lo_base s (rep_layout s L Hr)). lia.
  - apply pool_free_order in Hp as (s1 & Hs1 & Hp). congruence.
  - pose proof (pool_not_free s0 _ pa order x Hp Hin Hx) as Hn.
    destruct Hp as [Hinv Henv Hblk Hf Hu Hrest]. simpl in *.
    destruct (client_store s x v Hinv Hn) as [Hinv' Hiff].
    constructor; simpl; try done.
    + etrans; [exact Henv|]. by constructor.
    + intros y. rewrite Hiff. apply Hf.
    + intros y. rewrite Hiff. apply Hu.
Qed.

Lemma pool_start s : pmm_inv s → pool s (s, []).
Proof. intros Hi. constructor; simpl; try done. set_solver. Qed.

Lemma pool_steps s0 c c' : rtc pmm_step c c' → pool s0 c → pool s0 c'.
Proof. induction 1 as [|c1 c2 c3 Hs _ IH]; [done|]. intros Hp. by eapply IH, pool_step. Qed.

(** From [pmm_init] on, whatever allocations, releases and client writes
    happen in whatever order: every handed-out block is aligned and inside
    the window, every frame that was free at boot is either free or inside
    exactly one handed-out block, and nothing else is ever handed out; and
    every handed-out block can be released. *)
Theorem pmm_reachable_safe map bss_end r fr bi s0 s A :
  Forall (λ e, 0 ≤ e_addr e) map → 0 ≤ VIRT_TO_PHYS bss_end < 2 ^ 31 →
  2 ^ 24 + 2 ^ 21 ≤ (e820_best map).2 →
  (pmm_window map bss_end).1 ≤ (pmm_window map bss_end).2 →
  pmm_init map bss_end r fr bi = Some s0 → rtc pmm_step (s0, []) (s, A) →
  pool s0 (s, A) ∧
  (∀ x, owners x A ≠ 0%nat → page_resv r x = false) ∧
  (∀ pa order, (pa, order) ∈ A → is_Some (pmm_free_order pa order s)).
Proof.
  intros Hm Hb He Hw Hi Hr.
  destruct (pmm_init_spec map bss_end Hm Hb He Hw r fr bi) as (? & Hi' & Hinv & _ & _ & _ & Hfree).
  rewrite Hi in Hi'. injection Hi' as <-. pose proof (pool_steps s0 _ _ Hr (pool_start s0 Hinv)) as Hp.
  split_and!; [done| |].
  - intros x Hx. destruct (decide (is_free s0 x)) as [[_ ?]%Hfree|Hn]; [done|].
    by apply (pool_rest s0 _ Hp) in Hn.
  - intros pa order (A1 & A2 & ->)%list_elem_of_split.
    apply pool_free_order in Hp as (s' & -> & _). done.
Qed.

(** ** Witnesses *)

Module Demo.
(** A machine with 640 KiB of low memory and 32 MiB above 1 MiB, and one
    reserved range in the window. *)
Definition map : list e820_entry := [E820 0 0x9fc00 1; E820 0x100000 0x2000000 1].
Definition bss_end : Z := HIGH_BASE + 0x140000.
Definition r : list (Z * Z) := pmm_reserve 0x800000 0x801000 [].
Definition s0 : pmm_state :=
  default (pmm_prepare 0 0 [] (λ _, 0) (λ _, 0)) (pmm_init map bss_end r (λ _, 0) (λ _, 0)).

Lemma map_ok : Forall (λ e, 0 ≤ e_addr e) map.
Proof. repeat constructor; simpl; lia. Qed.
Lemma bss_ok : 0 ≤ VIRT_TO_PHYS bss_end < 2 ^ 31.
Proof. by vm_compute. Qed.
Lemma mem_ok : 2 ^ 24 + 2 ^ 21 ≤ (e820_best map).2.
Proof. by vm_compute. Qed.
Lemma win_ok : (pmm_window map bss_end).1 ≤ (pmm_window map bss_end).2.
Proof. by vm_compute. Qed.
Lemma default_Some {X} (P : X → Prop) (d : X) (o : option X) :
  (∃ x, o = Some x ∧ P x) → o = Some (default d o) ∧ P (default d o).
Proof. by intros (x & -> & Hx). Qed.
Lemma s0_spec :
  pmm_init map bss_end r (λ _, 0) (λ _, 0) = Some s0 ∧ pmm_inv s0.
Proof.
  destruct (pmm_init_spec map bss_end map_ok bss_ok mem_ok win_ok r (λ _, 0) (λ _, 0))
    as (s & Hs & Hi & _).
  unfold s0. exact (default_Some pmm_inv _ _ (ex_intro _ s (conj Hs Hi))).
Qed.

(** One order-2 block handed out, and both order-10 blocks handed out. *)
Definition s1 : pmm_state := (pmm_alloc_order 2 s0).2.
Definition s2 : pmm_state := (pmm_alloc_order 10 s0).2.
Definition s3 : pmm_state := (pmm_alloc_order 10 s2).2.

Lemma pair_eta {X Y} (p : X * Y) x : p.1 = x → p = (x, p.2).
Proof. by destruct p; intros <-. Qed.
Lemma s1_eq : pmm_alloc_order 2 s0 = (8404992, s1).
Proof. apply pair_eta. vm_compute. reflexivity. Qed.
Lemma s2_eq : pmm_alloc_order 10 s0 = (12582912, s2).
Proof. apply pair_eta. vm_compute. reflexivity. Qed.
Lemma s3_eq : pmm_alloc_order 10 s2 = (4194304, s3).
Proof. apply pair_eta. vm_compute. reflexivity. Qed.

Lemma s1_pool : pool s0 (s1, [(8404992, 2%nat)]).
Proof.
  apply (pool_alloc s0 s0 [] 2 8404992 s1 (pool_start s0 (proj2 s0_spec)));
    [unfold MAX_ORDER; lia|exact s1_eq|lia].
Qed.
Lemma s3_inv : pmm_inv s3.
Proof.
  refine (pool_inv s0 _ (pool_alloc s0 s2 _ 10 4194304 s3
    (pool_alloc s0 s0 [] 10 12582912 s2 (pool_start s0 (proj2 s0_spec)) _ s2_eq _) _ s3_eq _));
    unfold MAX_ORDER; lia.
Qed.
End Demo.

Lemma pmm_alloc_order_correct_witness :
  pmm_alloc_order 2 Demo.s0 = (8404992, Demo.s1) ∧ is_free Demo.s0 8404992.
Proof.
  split; [exact Demo.s1_eq|].
  destruct (pmm_alloc_order_correct 2 Demo.s0 8404992 Demo.s1 (proj2 Demo.s0_spec)
    ltac:(unfold MAX_ORDER; lia) Demo.s1_eq) as [_ [(H0 & _)|(_ & _ & _ & H & _)]].
  - discriminate H0.
  - apply H, in_blk_self.
Defined.

Lemma pmm_free_order_correct_witness :
  ∃ s', pmm_free_order 8404992 2 Demo.s1 = Some s' ∧ is_free s' 8404992.
Proof.
  destruct (pool_blk _ _ Demo.s1_pool 8404992 2%nat ltac:(left)) as (Ho & Hd & Hlo & Hhi).
  rewrite <- (se_base _ _ (pool_env _ _ Demo.s1_pool)) in Hlo.
  rewrite <- (se_top _ _ (pool_env _ _ Demo.s1_pool)) in Hhi.
  destruct (pmm_free_order_correct 8404992 2 Demo.s1 (pool_inv _ _ Demo.s1_pool) Ho Hd Hlo Hhi
    (λ x, pool_not_free _ _ 8404992 2 x Demo.s1_pool ltac:(left))) as (s' & Hs' & _ & H & _).
  exists s'. split; [exact Hs'|]. apply H. right. apply in_blk_self.
Defined.

Lemma pmm_alloc_order_complete_witness :
  (pmm_alloc_order 10 Demo.s3).1 = 0 ∧ ¬ (∀ x, in_blk x 4194304 10 → is_free Demo.s3 x).
Proof.
  split; [vm_compute; reflexivity|].
  apply (pmm_alloc_order_complete 10 Demo.s3 4194304 Demo.s3_inv).
  - unfold MAX_ORDER. lia.
  - vm_compute. reflexivity.
  - by exists 1.
Defined.

Lemma pmm_init_correct_witness :
  ∃ s, pmm_init Demo.map Demo.bss_end Demo.r (λ _, 0) (λ _, 0) = Some s ∧ pmm_inv s.
Proof.
  destruct (pmm_init_correct Demo.map Demo.bss_end Demo.r (λ _, 0) (λ _, 0)
    Demo.map_ok Demo.bss_ok Demo.mem_ok Demo.win_ok) as (s & Hs & Hi & _).
  exists s. split; [exact Hs|exact Hi].
Defined.

Lemma pmm_bitmaps_bounded_witness :
  BITS_BASE + (place_bitmaps (pmm_window Demo.map Demo.bss_end).1
    (pmm_window Demo.map Demo.bss_end).2 0 MAX_ORDER 0 (λ _, 0) (λ _, 0)).1.1 < 0x50000.
Proof.
  destruct (place_bitmaps _ _ _ _ _ _ _) as [[t ptr] size] eqn:E.
  exact (pmm_bitmaps_bounded Demo.map Demo.bss_end t ptr size
    Demo.map_ok Demo.bss_ok Demo.mem_ok Demo.win_ok E).
Defined.

Lemma pmm_reachable_safe_witness :
  pool Demo.s0 (Demo.s1, [(8404992, 2%nat)]).
Proof.
  apply (pmm_reachable_safe Demo.map Demo.bss_end Demo.r (λ _, 0) (λ _, 0) Demo.s0 Demo.s1
    _ Demo.map_ok Demo.bss_ok Demo.mem_ok Demo.win_ok (proj1 Demo.s0_spec)).
  apply rtc_once. apply step_alloc; [unfold MAX_ORDER; lia|exact Demo.s1_eq|lia].
Defined.

Lemma pmm_free_is_ram_witness : is_ram Demo.map 0x900000.
Proof.
  apply (pmm_free_is_ram Demo.map Demo.bss_end Demo.r (λ _, 0) (λ _, 0) Demo.s0).
  - repeat constructor; simpl; lia.
  - exact Demo.bss_ok.
  - exact Demo.mem_ok.
  - exact Demo.win_ok.
  - vm_compute. discriminate.
  - exact (proj1 Demo.s0_spec).
  - apply (bool_decide_unpack _). vm_compute. exact I.
Defined.
