(* ===== verification/Frames.v ===== *)
(** The frame allocator as its clients see it.

    The heap and the page tables obtain blocks of physical memory from
    [pmm_alloc_order], give them back with [pmm_free_order] and read and write
    64-bit words of the blocks they hold.  [Frames] are these operations and
    [FrameLaws] is what the allocator promises: the blocks that are handed out
    are aligned and disjoint, a block that is handed out keeps its contents
    until it is released, and every block that is handed out can be released.
    [pmm_frame_laws] is the proof that [kernel/mm/pmm.c] keeps the promise. *)
From S2P Require Import Prelude Pmm PmmFacts PmmInit.

Class Frames (S : Type) := {
  fr_alloc : nat → S → Z * S;
  fr_free : Z → nat → S → option S;
  word : S → Z → Z;
  set_word : Z → Z → S → S;
}.

Class FrameLaws (S : Type) `{Frames S} := {
  (** The blocks that are handed out. *)
  owned : S → list (Z * nat) → Prop;
  owned_perm s A A' : owned s A → A ≡ₚ A' → owned s A';
  owned_disjoint s A x : owned s A → (owners x A ≤ 1)%nat;
  owned_block s A a o : owned s A → (a, o) ∈ A →
    (o < MAX_ORDER)%nat ∧ (blk_size o | a) ∧ 0 < a ∧ a + blk_size o < 2 ^ 62;
  fr_alloc_spec o s A a s' : owned s A → (o < MAX_ORDER)%nat → fr_alloc o s = (a, s') →
    (a = 0 ∧ s' = s) ∨
    (0 < a ∧ owned s' ((a, o) :: A) ∧
     ∀ x, owners x ((a, o) :: A) ≠ 0%nat → word s' x = word s x);
  fr_alloc_big o s : (MAX_ORDER ≤ o)%nat → fr_alloc o s = (0, s);
  fr_free_spec a o s A : owned s ((a, o) :: A) →
    ∃ s', fr_free a o s = Some s' ∧ owned s' A ∧ ∀ x, owners x A ≠ 0%nat → word s' x = word s x;
  set_word_owned x v s A : owned s A → owners x A ≠ 0%nat → owned (set_word x v s) A;
  (** Memory outside the allocator's window. *)
  foreign : S → Z → Prop;
  foreign_owners s A x : owned s A → foreign s x → owners x A = 0%nat;
  fr_alloc_foreign o s A a s' x : owned s A → (o < MAX_ORDER)%nat → fr_alloc o s = (a, s') →
    foreign s x → foreign s' x ∧ word s' x = word s x;
  fr_free_foreign a o s s' A x : owned s ((a, o) :: A) → fr_free a o s = Some s' →
    foreign s x → foreign s' x ∧ word s' x = word s x;
  set_word_foreign y v s x : foreign s x → foreign (set_word y v s) x;
  foreign_word_owned x v s A : owned s A → foreign s x → owned (set_word x v s) A;
  word_set x v s y : word (set_word x v s) y = if decide (y = x) then v else word s y;
  (** The number of free frames: a single frame is refused only when there is
      none. *)
  avail : S → Z;
  fr_alloc_avail s A a s' : owned s A → fr_alloc 0 s = (a, s') → (a = 0 → avail s = 0) ∧ avail s - 1 ≤ avail s';
  set_word_avail x v s : avail (set_word x v s) = avail s;
}.

Section consequences.
Context {S : Type} `{FrameLaws S}.
Implicit Types (s : S).

Lemma word_set_eq x v s : word (set_word x v s) x = v.
Proof. rewrite word_set. by rewrite decide_True. Qed.
Lemma word_set_ne x v s y : y ≠ x → word (set_word x v s) y = word s y.
Proof. intros. rewrite word_set. by rewrite decide_False. Qed.

Lemma owners_perm x A A' : A ≡ₚ A' → owners x A = owners x A'.
Proof. intros Hp. unfold owners. by rewrite Hp. Qed.

Lemma owners_pos x a o A : (a, o) ∈ A → in_blk x a o → owners x A ≠ 0%nat.
Proof. intros Ha Hx. by eapply owners_elem. Qed.

(** A word is in at most one of the blocks. *)
Lemma owned_unique s A a o a' o' x :
  owned s A → (a, o) ∈ A → (a', o') ∈ A → in_blk x a o → in_blk x a' o' → (a, o) = (a', o').
Proof.
  intros Ho Ha Ha' Hx Hx'. apply list_elem_of_split in Ha as (A1 & A2 & ->).
  pose proof (owned_disjoint s _ x Ho) as Hd. rewrite owners_app, owners_cons in Hd.
  cbn [fst snd] in Hd. rewrite decide_True in Hd by done.
  apply elem_of_app in Ha' as [Ha'|[Ha'|Ha']%elem_of_cons].
  - pose proof (owners_pos x a' o' A1 Ha' Hx'). lia.
  - done.
  - pose proof (owners_pos x a' o' A2 Ha' Hx'). lia.
Qed.
End consequences.

(** ** The buddy allocator is one *)

#[global] Instance pmm_frames : Frames pmm_state := {
  fr_alloc := pmm_alloc_order;
  fr_free := pmm_free_order;
  word := frames;
  set_word := set_frame;
}.

Lemma pool_perm s0 s A A' : pool s0 (s, A) → A ≡ₚ A' → pool s0 (s, A').
Proof.
  intros [Hi He Hb Hf Hu Hr] Hp.
  assert (∀ x, owners x A' = owners x A) as Ho by (intros; by apply owners_perm).
  constructor; cbn [fst snd] in *; try done.
  - intros pa o Hin. apply Hb. by rewrite Hp.
  - intros x Hx. rewrite Ho. by apply Hf.
  - intros x Hx H0. rewrite Ho. by apply Hu.
  - intros x Hx. rewrite Ho. by apply Hr.
Qed.

Lemma pool_owners s0 s A x : pool s0 (s, A) → (owners x A ≤ 1)%nat.
Proof.
  intros [Hi He Hb Hf Hu Hr]. cbn [fst snd] in *.
  destruct (decide (is_free s x)) as [Hx|Hx]; [destruct (Hf x Hx) as [_ ->]; lia|].
  destruct (decide (is_free s0 x)) as [H0|H0]; [by rewrite Hu|rewrite Hr by done; lia].
Qed.

Lemma pool_owned_used s0 s A x : pool s0 (s, A) → owners x A ≠ 0%nat → ¬ is_free s x.
Proof. intros Hp Ho Hx. by destruct (pool_free s0 _ Hp x Hx). Qed.

(** Free memory lies inside the window. *)
Lemma rep_foreign s L x : rep s L → ¬ base_addr s ≤ x < top_addr s → ¬ covered L x.
Proof.
  intros Hr Hx (o & b & Ho & Hin & Hb). apply Hx.
  destruct (rep_blk s L Hr o b Ho Hin) as (_ & Hlo & Hhi). unfold in_blk in Hb. lia.
Qed.

(** The counter of free frames. *)
Lemma split_down_free_pg order d addr : ∀ s, free_pg (split_down order d addr s) = free_pg s.
Proof. induction d as [|d IH]; intros s; [done|]. cbn [split_down]. by rewrite IH. Qed.

Lemma alloc_free_pg s a s' : 0 ≤ free_pg s < 2 ^ 64 → pmm_alloc_order 0 s = (a, s') → free_pg s - 1 ≤ free_pg s'.
Proof.
  intros Hr. unfold pmm_alloc_order. rewrite (proj2 (Nat.leb_gt _ _)) by (unfold MAX_ORDER; lia).
  destruct (for_find _ _ _) as [o|]; [|intros [= _ <-]; lia]. destruct (fl_pop o s) as [addr s1] eqn:Ep.
  assert (free_pg s1 = free_pg s) as Hp1 by (by injection Ep as _ <-). intros [= _ <-]. cbn [free_pg set_free_pg].
  rewrite split_down_free_pg, Hp1. change (Z.shiftl 1 (Z.of_nat 0)) with 1.
  destruct (decide (free_pg s = 0)) as [->|]; [by vm_compute|]. rewrite u64_small by lia. lia.
Qed.

Lemma pmm_alloc_avail s a s' : pmm_inv s → pmm_alloc_order 0 s = (a, s') →
  (a = 0 → free_pg s = 0) ∧ free_pg s - 1 ≤ free_pg s'.
Proof.
  intros (L & Hr & Hc & Hfp) Ha. split; [|by eapply alloc_free_pg; [rewrite Hfp; apply u64_range|]].
  assert (0 < MAX_ORDER)%nat as HM by (unfold MAX_ORDER; lia). pose proof (alloc_spec 0 s L Hr Hc Hfp HM) as Hspec.
  rewrite Ha in Hspec. intros ->. destruct Hspec as [(_ & _ & HL)|(L' & _ & _ & _ & _ & _ & _ & Hlo & _)].
  - rewrite Hfp. assert (sum_pages L = 0) as ->; [|done]. unfold sum_pages. transitivity (sum_upto (λ _, 0) MAX_ORDER); [|by vm_compute].
    apply sum_upto_ext. intros o Ho. by rewrite HL by lia.
  - pose proof (lo_base s (rep_layout s L Hr)). lia.
Qed.

#[global] Program Instance pmm_frame_laws : FrameLaws pmm_state := {
  owned s A := ∃ s0, pool s0 (s, A);
  foreign s x := ¬ base_addr s ≤ x < top_addr s;
  avail := free_pg;
}.
Next Obligation. intros s A A' [s0 Hp] HA. exists s0. by eapply pool_perm. Qed.
Next Obligation. intros s A x [s0 Hp]. by eapply pool_owners. Qed.
Next Obligation.
  intros s A a o [s0 Hp] Hin. pose proof (pool_blk s0 _ Hp a o Hin) as (Ho & Hd & Hlo & Hhi).
  destruct Hp as [(L & Hr & _) He _ _ _ _]. cbn in He. destruct (rep_layout s L Hr) as [Hb Ht _].
  destruct He as [Heb Het _ _]. rewrite Heb, Het in *. split_and!; (done || lia).
Qed.
Next Obligation.
  intros o s A a s' [s0 Hp] Ho Ha. pose proof Hp as [Hinv _ _ _ _ _]. destruct Hinv as (L & Hr & Hc & Hfp).
  pose proof (alloc_spec o s L Hr Hc Hfp Ho) as Hspec. cbn in Ha. rewrite Ha in Hspec.
  destruct Hspec as [(-> & -> & _)|(L' & Hr' & Hc' & Hfp' & Hse & Hk & Hd & Hlo & Hhi & H1 & H2)]; [by left|].
  right. pose proof (lo_base s (rep_layout s L Hr)).
  assert (pool s0 (s', (a, o) :: A)) as Hp' by (eapply pool_alloc; [exact Hp|done|exact Ha|lia]).
  split_and!; [lia|by exists s0|]. intros x Hx. apply Hk. rewrite <- (is_free_covered s' L') by done.
  by eapply pool_owned_used.
Qed.
Next Obligation.
  intros o s Ho. cbn. unfold pmm_alloc_order. by rewrite (proj2 (Nat.leb_le _ _)).
Qed.
Next Obligation.
  intros a o s A [s0 Hp]. destruct (pool_free_order s0 s [] A a o Hp) as (s' & Hs & Hp').
  exists s'. split; [done|]. split; [by exists s0|]. intros x Hx.
  assert ((a, o) ∈ (a, o) :: A) as Hel by set_solver.
  destruct (pool_blk s0 _ Hp a o Hel) as (Ho & Hd & Hlo & Hhi).
  pose proof Hp as [(L & Hr & Hc & Hfp) Henv _ _ _ _]. cbn [fst snd] in Henv, Hr, Hc, Hfp.
  destruct (free_spec a o s L) as (s1 & L' & Hs' & Hr' & _ & _ & _ & Hk & _); try done.
  { by rewrite (se_base s0 s). } { by rewrite (se_top s0 s). }
  { intros y Hy. rewrite <- (is_free_covered s L) by done. by apply (pool_not_free s0 (s, (a, o) :: A) a o). }
  assert (s1 = s') as -> by congruence. apply Hk. rewrite <- (is_free_covered s' L') by done.
  by eapply pool_owned_used.
Qed.
Next Obligation.
  intros x v s A [s0 Hp] Hx. exists s0. unfold owners in Hx.
  destruct (filter _ A) as [|[a o] l] eqn:E; [done|].
  assert ((a, o) ∈ filter (λ b, in_blk x b.1 b.2) A) as [Hin Hel]%list_elem_of_filter by (rewrite E; set_solver).
  eapply (pool_step s0 (s, A)); [|exact Hp]. by eapply step_store.
Qed.
Next Obligation.
  intros s A x [s0 Hp] Hx. destruct (owners x A) eqn:E; [done|]. exfalso. apply Hx. unfold owners in E.
  destruct (filter _ A) as [|[a o] l] eqn:El; [done|].
  assert ((a, o) ∈ filter (λ b, in_blk x b.1 b.2) A) as [Hin Hel]%list_elem_of_filter by (rewrite El; set_solver).
  destruct (pool_blk s0 _ Hp a o Hel) as (_ & _ & Hlo & Hhi). destruct (pool_env s0 _ Hp) as [Heb Het _ _].
  cbn in Heb, Het, Hin. unfold in_blk in Hin. lia.
Qed.
Next Obligation.
  intros o s A a s' x [s0 Hp] Ho Ha Hx. destruct Hp as [(L & Hr & Hc & Hfp) _ _ _ _ _]. cbn [fst snd] in *.
  pose proof (alloc_spec o s L Hr Hc Hfp Ho) as Hspec. cbn in Ha. rewrite Ha in Hspec.
  destruct Hspec as [(_ & -> & _)|(L' & Hr' & _ & _ & [Heb Het _ _] & Hk & _)]; [done|].
  rewrite <- Heb, <- Het in Hx. split; [done|]. apply Hk. by apply (rep_foreign s').
Qed.
Next Obligation.
  intros a o s s' A x [s0 Hp] Hs Hx. assert ((a, o) ∈ (a, o) :: A) as Hel by set_solver.
  destruct (pool_blk s0 _ Hp a o Hel) as (Ho & Hd & Hlo & Hhi).
  pose proof Hp as [(L & Hr & Hc & Hfp) Henv _ _ _ _]. cbn [fst snd] in Henv, Hr, Hc, Hfp.
  destruct (free_spec a o s L) as (s1 & L' & Hs' & Hr' & _ & _ & [Heb Het _ _] & Hk & _); try done.
  { by rewrite (se_base s0 s). } { by rewrite (se_top s0 s). }
  { intros y Hy. rewrite <- (is_free_covered s L) by done. by apply (pool_not_free s0 (s, (a, o) :: A) a o). }
  assert (s1 = s') as -> by (cbn in Hs; congruence). rewrite <- Heb, <- Het in Hx.
  split; [done|]. apply Hk. by apply (rep_foreign s').
Qed.
Next Obligation. done. Qed.
Next Obligation.
  intros x v s A [s0 [Hinv Henv Hb Hf Hu Hr]] Hx. exists s0. cbn [fst snd] in *.
  assert (¬ is_free s x) as Hn.
  { destruct Hinv as (L & Hrep & Hc & _). rewrite (is_free_covered s L) by done. exact (rep_foreign s L x Hrep Hx). }
  destruct (client_store s x v Hinv Hn) as [Hinv' Hiff]. constructor; cbn [fst snd]; [done| |done| | |done].
  - destruct Henv. by constructor.
  - intros y Hy. apply Hf. by apply Hiff.
  - intros y Hy H0. apply Hu; [|done]. by rewrite <- Hiff.
Qed.
Next Obligation.
  intros x v s y. cbn. destruct (decide (y = x)) as [->|]; [apply fn_lookup_insert|by apply fn_lookup_insert_ne].
Qed.
Next Obligation.
  intros s A a s' [s0 [Hi _ _ _ _ _]] Ha. by apply (pmm_alloc_avail s).
Qed.
Next Obligation. done. Qed.
