(* ===== verification/Kheap.v ===== *)
(** The kernel heap ([kernel/mm/kheap.c]): power-of-two bins of chunks carved
    out of single pages, larger requests straight from the frame allocator,
    and an eight-byte header in front of every chunk.

    The heap is parametric in its frame allocator ([Frames]).  Memory is read
    and written through the direct map: the word at the kernel address [v] is
    the word of physical memory at [VIRT_TO_PHYS v].  The map is taken to be
    one-to-one on all frames, as the comments of the source say; where
    [vmm_init] leaves slots out or maps them to something else the model and
    its theorems do not apply. *)
From S2P Require Import Prelude Pmm PmmFacts PmmInit Frames.

Definition NBINS : nat := 9.
Definition HEAP_MAGIC : Z := 0xECEC0001.
Definition KHEAP_VMA : Z := 0xffffffffa0000000.
Definition HDR : Z := 8. (* sizeof(struct hdr) *)

Record heap (S : Type) := Heap {
  freelist : nat → Z;      (* freelist[NBINS] *)
  heap_used : Z;
  heap_start : Z;
  heap_end : Z;
  phys : S;
}.
Arguments Heap {_} _ _ _ _ _.
Arguments freelist {_} _ _.
Arguments heap_used {_} _.
Arguments heap_start {_} _.
Arguments heap_end {_} _.
Arguments phys {_} _.

Section kheap.
Context {S : Type} `{Frames S}.
Implicit Types (h : heap S) (s : S).

Definition load (v : Z) s : Z := word s (VIRT_TO_PHYS v).
Definition store (v x : Z) s : S := set_word (VIRT_TO_PHYS v) x s.

(** [struct hdr]: two 32-bit fields of one word. *)
Definition bin_or_order (v : Z) s : Z := u32 (load v s).
Definition magic (v : Z) s : Z := u32 (load v s / 2 ^ 32).
Definition set_bin_or_order (v x : Z) s : S :=
  store v (u32 x + 2 ^ 32 * magic v s) s.
Definition set_magic (v x : Z) s : S :=
  store v (bin_or_order v s + 2 ^ 32 * u32 x) s.
Definition write_hdr (v x : Z) s : S := set_magic v HEAP_MAGIC (set_bin_or_order v x s).

Definition set_freelist (b : nat) (p : Z) h : heap S :=
  Heap (<[b := p]> (freelist h)) (heap_used h) (heap_start h) (heap_end h) (phys h).
Definition set_heap_used (n : Z) h : heap S :=
  Heap (freelist h) n (heap_start h) (heap_end h) (phys h).
Definition set_phys s h : heap S :=
  Heap (freelist h) (heap_used h) (heap_start h) (heap_end h) s.

(** [vmm_heap_region] reports where the heap window lies and its size. *)
Definition kheap_init (size : Z) h : heap S :=
  Heap (freelist h) (heap_used h) KHEAP_VMA (u64 (KHEAP_VMA + size)) (phys h).

(** [while ((unit << b) < n) b++;] on 64-bit operands.  A shift by 64 or more
    is undefined, so 64 rounds are enough for every run that C defines. *)
Fixpoint up_to_pow (fuel : nat) (unit n : Z) (b : nat) : option nat :=
  match fuel with
  | O => None
  | Datatypes.S f =>
      if u64 (Z.shiftl unit (Z.of_nat b)) <? n then up_to_pow f unit n (Datatypes.S b) else Some b
  end.

Definition bin_of (n : Z) : option nat := b ← up_to_pow 64 1 n 4; Some (b - 4)%nat.

(** The body of the carving loop of [kmalloc], for chunk [i] of the page. *)
Definition carve (base : Z) (b : nat) (i : nat) h : heap S :=
  let hd := u64 (base + Z.of_nat i * 2 ^ (Z.of_nat b + 4)) in
  let p := u64 (hd + HDR) in
  set_freelist b p (set_phys (store p (freelist h b) (write_hdr hd (Z.of_nat b) (phys h))) h).

Definition kmalloc_large (n : Z) h : outcome (Z * heap S) :=
  let need := ALIGN_UP (u64 (n + HDR)) PAGE_SIZE in
  match up_to_pow 64 PAGE_SIZE need 0 with
  | None => Stuck
  | Some order =>
      let '(pa, s) := fr_alloc order (phys h) in
      if pa =? 0 then Panic else
      let hd := PHYS_TO_VIRT pa in
      Ret (u64 (hd + HDR),
           set_heap_used (u64 (heap_used h + need))
             (set_phys (write_hdr hd (Z.lor 0x80 (Z.of_nat order)) s) h))
  end.

Definition refill (b : nat) h : outcome (heap S) :=
  if freelist h b =? 0 then
    let '(pa, s) := fr_alloc 0 (phys h) in
    if pa =? 0 then Panic else
    let sz := Z.shiftr PAGE_SIZE (Z.of_nat b + 4) in
    Ret (for_loop (carve (PHYS_TO_VIRT pa) b) 0 (Z.to_nat sz) (set_phys s h))
  else Ret h.

Definition kmalloc_small (b : nat) h : outcome (Z * heap S) :=
  h ← refill b h;
  let p := freelist h b in
  Ret (p, set_heap_used (u64 (heap_used h + 2 ^ (Z.of_nat b + 4)))
            (set_freelist b (load p (phys h)) h)).

Definition kmalloc (n : Z) h : outcome (Z * heap S) :=
  let n := if n =? 0 then 1 else n in
  if 4096 <? u64 (n + HDR) then kmalloc_large n h
  else match bin_of (u64 (n + HDR)) with
       | Some b => kmalloc_small b h
       | None => Stuck
       end.

Definition kfree (p : Z) h : outcome (heap S) :=
  if p =? 0 then Ret h else
  let hd := u64 (p - HDR) in
  if negb (magic hd (phys h) =? HEAP_MAGIC) then Panic else
  let v := bin_or_order hd (phys h) in
  if negb (Z.land v 0x80 =? 0) then
    let order := Z.to_nat (Z.land v 0x7f) in
    let h := set_heap_used (u64 (heap_used h - u64 (Z.shiftl PAGE_SIZE (Z.of_nat order)))) h in
    match fr_free (VIRT_TO_PHYS hd) order (phys h) with
    | Some s => Ret (set_phys s h)
    | None => Stuck
    end
  else if v <? Z.of_nat NBINS then
    let b := Z.to_nat v in
    Ret (set_heap_used (u64 (heap_used h - 2 ^ (v + 4)))
           (set_freelist b p (set_phys (store p (freelist h b) (phys h)) h)))
  else Stuck.
End kheap.
