(* ===== verification/KheapFacts.v ===== *)
(** The heap keeps its chunks apart: the invariant of [kernel/mm/kheap.c], its
    preservation by [kmalloc] and [kfree], and safety of every configuration
    that heap and frame clients can reach together. *)
From S2P Require Import Prelude Pmm PmmFacts PmmInit Frames Kheap.

(** ** Chunks

    A chunk is the physical address of its header and the header's code: a
    bin index, or [0x80] and the order of a block of the frame allocator. *)

Definition chunk_size (v : Z) : Z :=
  if v <? 0x80 then 2 ^ (v + 4) else blk_size (Z.to_nat (v - 0x80)).
Definition in_chunk (x : Z) (c : Z * Z) : Prop := c.1 ≤ x < c.1 + chunk_size c.2.
#[global] Instance in_chunk_dec x c : Decision (in_chunk x c).
Proof. unfold in_chunk. apply _. Defined.
Definition covers (x : Z) (C : list (Z * Z)) : nat := length (filter (in_chunk x) C).

Definition hdr_word (v : Z) : Z := v + 2 ^ 32 * HEAP_MAGIC.
Definition ptr (c : Z) : Z := u64 (PHYS_TO_VIRT c + HDR).

Lemma covers_cons x c C :
  covers x (c :: C) = ((if decide (in_chunk x c) then 1 else 0) + covers x C)%nat.
Proof. unfold covers. rewrite filter_cons. by destruct (decide _). Qed.

Lemma covers_app x C1 C2 : covers x (C1 ++ C2) = (covers x C1 + covers x C2)%nat.
Proof. unfold covers. by rewrite filter_app, length_app. Qed.

Lemma covers_perm x C C' : C ≡ₚ C' → covers x C = covers x C'.
Proof. intros Hp. unfold covers. by rewrite Hp. Qed.

Lemma covers_elem x c C : c ∈ C → in_chunk x c → covers x C ≠ 0%nat.
Proof.
  intros Hin Hx. apply list_elem_of_split in Hin as (C1 & C2 & ->).
  rewrite covers_app, covers_cons, decide_True by done. lia.
Qed.

Lemma covers_zero x C : (∀ c, c ∈ C → ¬ in_chunk x c) → covers x C = 0%nat.
Proof.
  induction C as [|c C IH]; [done|]. intros Hn. rewrite covers_cons, decide_False by (apply Hn; set_solver).
  apply IH. intros c' Hc'. apply Hn. set_solver.
Qed.

Lemma filter_first {A} (Q : A → Prop) `{∀ x, Decision (Q x)} x l rest :
  filter Q l = x :: rest →
  ∃ l1 l2, l = l1 ++ x :: l2 ∧ filter Q l1 = [] ∧ filter Q l2 = rest ∧ Q x.
Proof.
  induction l as [|y l IH]; [done|]. rewrite filter_cons. destruct (decide (Q y)) as [Hy|Hy].
  - intros [= -> <-]. by exists [], l.
  - intros (l1 & l2 & -> & H1 & H2 & Hx)%IH. exists (y :: l1), l2.
    by rewrite filter_cons_False by done.
Qed.

Lemma chunk_size_bin b : (b < NBINS)%nat →
  chunk_size (Z.of_nat b) = 2 ^ (Z.of_nat b + 4) ∧ 16 ≤ chunk_size (Z.of_nat b) ∧
  (chunk_size (Z.of_nat b) | PAGE_SIZE).
Proof.
  intros Hb. unfold NBINS in Hb. unfold chunk_size. rewrite (proj2 (Z.ltb_lt _ _)) by lia.
  split; [done|]. do 9 (destruct b as [|b]; [split; [by_eval|apply Z.mod_divide; [lia|by_eval]]|]). lia.
Qed.

Lemma chunk_size_order o : chunk_size (0x80 + Z.of_nat o) = blk_size o.
Proof.
  unfold chunk_size. rewrite (proj2 (Z.ltb_ge _ _)) by lia. f_equal. lia.
Qed.

Lemma VIRT_TO_PHYS_off c k : 0 ≤ c + k < 2 ^ 64 → VIRT_TO_PHYS (u64 (PHYS_TO_VIRT c + k)) = c + k.
Proof.
  intros Hc. unfold VIRT_TO_PHYS, PHYS_TO_VIRT. rewrite u64_sub_l.
  replace (u64 (c + HIGH_BASE) + k - HIGH_BASE) with (u64 (c + HIGH_BASE) + (k - HIGH_BASE)) by lia.
  rewrite u64_add_l. replace (c + HIGH_BASE + (k - HIGH_BASE)) with (c + k) by lia.
  by apply u64_small.
Qed.

Lemma VIRT_TO_PHYS_base c : 0 ≤ c < 2 ^ 64 → VIRT_TO_PHYS (PHYS_TO_VIRT c) = c.
Proof.
  intros Hc. pose proof (VIRT_TO_PHYS_off c 0) as Hv. rewrite !Z.add_0_r in Hv.
  rewrite u64_small in Hv by apply u64_range. by apply Hv.
Qed.

Lemma ptr_phys c : 0 ≤ c < 2 ^ 62 → VIRT_TO_PHYS (ptr c) = c + 8.
Proof. intros Hc. apply VIRT_TO_PHYS_off. unfold HDR. lia. Qed.

Lemma ptr_hdr c : 0 ≤ c < 2 ^ 62 → u64 (ptr c - HDR) = PHYS_TO_VIRT c.
Proof.
  intros Hc. unfold ptr. rewrite u64_sub_l. rewrite Z.add_simpl_r. apply u64_small, u64_range.
Qed.

Lemma ptr_nonzero c : (16 | c) → ptr c ≠ 0.
Proof.
  intros [k ->] Hp. unfold ptr, PHYS_TO_VIRT in Hp. rewrite u64_add_l in Hp. unfold u64 in Hp.
  apply Z.mod_divide in Hp as [q Hq]; [|lia]. unfold HIGH_BASE, HDR in Hq. lia.
Qed.

Lemma ptr_inj c c' : 0 ≤ c < 2 ^ 62 → 0 ≤ c' < 2 ^ 62 → ptr c = ptr c' → c = c'.
Proof. intros H1 H2 He. apply (f_equal VIRT_TO_PHYS) in He. rewrite !ptr_phys in He by done. lia. Qed.

(** A pointer into a payload, by its offset from the chunk's pointer. *)
Lemma ptr_offset c x : 0 ≤ c + 8 + (x - ptr c) < 2 ^ 64 →
  VIRT_TO_PHYS x = c + 8 + (x - ptr c).
Proof.
  intros Hr. unfold ptr, PHYS_TO_VIRT in *. rewrite u64_add_l in *. unfold HDR in *.
  pose proof (Z.div_mod (c + HIGH_BASE + 8) (2 ^ 64) ltac:(lia)) as Hdm.
  fold (u64 (c + HIGH_BASE + 8)) in Hdm. set (p := u64 (c + HIGH_BASE + 8)) in *.
  set (q := (c + HIGH_BASE + 8) / 2 ^ 64) in *. unfold VIRT_TO_PHYS, u64.
  replace (x - HIGH_BASE) with (c + 8 + (x - p) + - q * 2 ^ 64) by lia.
  rewrite Z.mod_add, Z.mod_small; lia.
Qed.

Section heap_facts.
Context {S : Type} `{FrameLaws S}.
Implicit Types (h : heap S) (s : S).

Lemma word_write_hdr c v s y : 0 ≤ c < 2 ^ 62 → 0 ≤ v < 2 ^ 32 →
  word (write_hdr (PHYS_TO_VIRT c) v s) y = if decide (y = c) then hdr_word v else word s y.
Proof.
  intros Hc Hv. unfold write_hdr, set_magic, set_bin_or_order, bin_or_order, magic, store, load.
  rewrite !VIRT_TO_PHYS_base by lia. rewrite !word_set.
  destruct (decide (y = c)) as [->|]; [|done]. rewrite decide_True by done.
  unfold hdr_word. f_equal. rewrite (u32_small v) by done.
  unfold u32 at 1. rewrite Z.mul_comm, Z.mod_add, Z.mod_small; lia.
Qed.

Lemma write_hdr_owned c v s A : 0 ≤ c < 2 ^ 62 →
  owned s A → owners c A ≠ 0%nat → owned (write_hdr (PHYS_TO_VIRT c) v s) A.
Proof.
  intros Hc Ho Hn. unfold write_hdr, set_magic, set_bin_or_order, store.
  rewrite VIRT_TO_PHYS_base by lia. by repeat apply set_word_owned.
Qed.

(** ** The invariant *)

Fixpoint chain s (p : Z) (l : list Z) : Prop :=
  match l with
  | [] => p = 0
  | c :: l' => p = ptr c ∧ chain s (word s (c + 8)) l'
  end.

(** A chunk lies in a block of the heap and its header is in place. *)
Definition placed s (P : list (Z * nat)) (c v : Z) : Prop :=
  word s c = hdr_word v ∧
  ∃ a o, (a, o) ∈ P ∧ a ≤ c ∧ c + chunk_size v ≤ a + blk_size o ∧
    ((0 ≤ v < Z.of_nat NBINS ∧ (16 | c)) ∨ (v = 0x80 + Z.of_nat o ∧ c = a)).

Definition in_bin (b : nat) (c : Z * Z) : Prop := c.2 = Z.of_nat b.
#[local] Instance in_bin_dec b c : Decision (in_bin b c).
Proof. unfold in_bin. apply _. Defined.

(** [P] are the blocks the heap holds, [O] those of other clients, [Fr] the
    chunks on the free lists and [V] the chunks in use. *)
Record heap_ok h (P : list (Z * nat)) (Fr V : list (Z * Z)) (O : list (Z * nat)) : Prop := {
  hk_owned : owned (phys h) (P ++ O);
  hk_chain b : (b < NBINS)%nat → chain (phys h) (freelist h b) (filter (in_bin b) Fr).*1;
  hk_small c v : (c, v) ∈ Fr → 0 ≤ v < Z.of_nat NBINS;
  hk_placed c v : (c, v) ∈ Fr ++ V → placed (phys h) P c v;
  hk_disj x : (covers x (Fr ++ V) ≤ 1)%nat;
}.

(** The words a heap operation must leave alone: the payloads of the chunks
    in use and the blocks of other clients. *)
Definition keeps_words (V : list (Z * Z)) (O : list (Z * nat)) s s' : Prop :=
  ∀ x, (∃ c v, (c, v) ∈ V ∧ c + 8 ≤ x < c + chunk_size v) ∨ owners x O ≠ 0%nat →
       word s' x = word s x.

Lemma keeps_words_refl V O s : keeps_words V O s s.
Proof. by intros x _. Qed.
Lemma keeps_words_trans V O s1 s2 s3 :
  keeps_words V O s1 s2 → keeps_words V O s2 s3 → keeps_words V O s1 s3.
Proof. intros H1 H2 x Hx. rewrite H2, H1; done. Qed.

Lemma chain_ext s s' l : ∀ p,
  (∀ c, c ∈ l → word s' (c + 8) = word s (c + 8)) → chain s p l → chain s' p l.
Proof.
  induction l as [|c l IH]; intros p Hw Hc; [done|]. destruct Hc as [-> Hc].
  split; [done|]. rewrite Hw by set_solver. apply IH; [|done]. intros. apply Hw. set_solver.
Qed.

Lemma placed_size s P c v : placed s P c v → 16 ≤ chunk_size v.
Proof.
  intros (_ & a & o & _ & _ & _ & [[Hv _]|[-> _]]).
  - destruct (chunk_size_bin (Z.to_nat v)) as (_ & Hs & _); [unfold NBINS in *; lia|].
    by rewrite Z2Nat.id in Hs by lia.
  - rewrite chunk_size_order. pose proof (blk_size_ge o). lia.
Qed.

Lemma placed_range s P O c v : owned s (P ++ O) → placed s P c v →
  0 < c ∧ c + chunk_size v < 2 ^ 62 ∧ (16 | c) ∧ 16 ≤ chunk_size v.
Proof.
  intros Ho Hp. pose proof (placed_size s P c v Hp) as Hs.
  destruct Hp as (_ & a & o & Hin & Hlo & Hhi & Hk).
  destruct (owned_block s (P ++ O) a o Ho) as (_ & Hd & Hpos & Hb); [set_solver|].
  split_and!; try lia. destruct Hk as [[_ ?]|[_ ->]]; [done|].
  apply (Z.divide_trans _ (blk_size o)); [|done].
  apply (Z.divide_trans _ (blk_size 0)); [by exists 256|]. by apply blk_size_divide; lia.
Qed.

Lemma placed_owners s P c v x : placed s P c v → in_chunk x (c, v) → owners x P ≠ 0%nat.
Proof.
  intros (_ & a & o & Hin & Hlo & Hhi & _) Hx. apply (owners_pos x a o P Hin).
  unfold in_chunk in Hx. cbn in Hx. unfold in_blk. lia.
Qed.

Lemma hdr_in_chunk c v : 16 ≤ chunk_size v → in_chunk c (c, v) ∧ in_chunk (c + 8) (c, v).
Proof. unfold in_chunk. cbn. lia. Qed.

Lemma placed_mono s P P' c v : (∀ b, b ∈ P → b ∈ P') → placed s P c v → placed s P' c v.
Proof. intros HP (Hw & a & o & Hin & Hr). split; [done|]. exists a, o. split; [by apply HP|done]. Qed.

(** The allocator's state may change as long as the heap's blocks stay its own
    and the headers and the links keep their values. *)
Lemma heap_ok_move h P Fr V O s' P' O' :
  heap_ok h P Fr V O → owned s' (P' ++ O') →
  (∀ c v, (c, v) ∈ Fr ++ V → placed (phys h) P c v → placed (phys h) P' c v) →
  (∀ c v, (c, v) ∈ Fr ++ V → word s' c = word (phys h) c) →
  (∀ c v, (c, v) ∈ Fr → word s' (c + 8) = word (phys h) (c + 8)) →
  heap_ok (set_phys s' h) P' Fr V O'.
Proof.
  intros [Ho Hc Hs Hp Hd] Ho' HP Hh Hl. constructor; cbn [phys freelist set_phys]; try done.
  - intros b Hb. eapply chain_ext; [|by apply Hc]. intros c (x & -> & Hx)%list_elem_of_fmap.
    apply list_elem_of_filter in Hx as [_ Hx]. destruct x as [c v]. by apply (Hl c v).
  - intros c v Hcv. destruct (HP c v Hcv (Hp c v Hcv)) as [Hw Hr].
    split; [by rewrite (Hh c v)|done].
Qed.

Lemma heap_ok_covered h P Fr V O s' P' O' :
  heap_ok h P Fr V O → owned s' (P' ++ O') →
  (∀ c v, (c, v) ∈ Fr ++ V → placed (phys h) P c v → placed (phys h) P' c v) →
  (∀ x, covers x (Fr ++ V) ≠ 0%nat → word s' x = word (phys h) x) →
  heap_ok (set_phys s' h) P' Fr V O'.
Proof.
  intros Hok Ho' HP Hw.
  assert (∀ c v, (c, v) ∈ Fr ++ V → in_chunk c (c, v) ∧ in_chunk (c + 8) (c, v)) as Hin.
  { intros c v Hcv. eapply hdr_in_chunk, placed_size, hk_placed; done. }
  eapply heap_ok_move; [done|done|done| |].
  - intros c v Hcv. eapply Hw, covers_elem; [done|]. by apply Hin.
  - intros c v Hcv. assert ((c, v) ∈ Fr ++ V) by set_solver.
    eapply Hw, covers_elem; [done|]. by apply Hin.
Qed.

Lemma keeps_one h P Fr V O s' x : heap_ok h P Fr V O → owners x P ≠ 0%nat → covers x V = 0%nat →
  (∀ y, y ≠ x → word s' y = word (phys h) y) → keeps_words V O (phys h) s'.
Proof.
  intros Hok Hx Hc Hw y Hy. apply Hw. intros ->. destruct Hy as [(c & v & Hcv & Hy)|Hy].
  - eapply covers_elem; [exact Hcv| |exact Hc]. unfold in_chunk. cbn. lia.
  - pose proof (owned_disjoint _ _ x (hk_owned _ _ _ _ _ Hok)) as Hd. rewrite owners_app in Hd. lia.
Qed.

(** Putting a chunk nobody uses on its free list. *)
Lemma heap_ok_push h P Fr V O c b :
  heap_ok h P Fr V O → (b < NBINS)%nat → placed (phys h) P c (Z.of_nat b) →
  (∀ x, in_chunk x (c, Z.of_nat b) → covers x (Fr ++ V) = 0%nat) →
  let s' := store (ptr c) (freelist h b) (phys h) in
  heap_ok (set_freelist b (ptr c) (set_phys s' h)) P ((c, Z.of_nat b) :: Fr) V O ∧
  keeps_words V O (phys h) s'.
Proof.
  intros Hok Hb Hp Hfree s'.
  destruct (placed_range _ _ O _ _ (hk_owned _ _ _ _ _ Hok) Hp) as (Hc0 & Hc1 & Hal & Hsz).
  destruct (hdr_in_chunk c (Z.of_nat b) Hsz) as [Hin Hin8].
  assert (∀ y, word s' y = if decide (y = c + 8) then freelist h b else word (phys h) y) as Hw.
  { intros y. unfold s', store. by rewrite ptr_phys, word_set by lia. }
  assert (∀ x, in_chunk x (c, Z.of_nat b) → covers x V = 0%nat) as HfV.
  { intros x Hx. pose proof (Hfree x Hx) as Hz. rewrite covers_app in Hz. lia. }
  assert (owners (c + 8) P ≠ 0%nat) as HoP by (by eapply placed_owners).
  assert (heap_ok (set_phys s' h) P Fr V O) as Hok'.
  { eapply heap_ok_covered; [done| |done|].
    - unfold s', store. rewrite ptr_phys by lia. apply set_word_owned; [apply Hok|].
      rewrite owners_app. lia.
    - intros x Hx. rewrite Hw, decide_False; [done|]. intros ->. by apply Hx, Hfree. }
  split; cycle 1.
  { eapply (keeps_one h P Fr V O s' (c + 8)); [done|done|by apply HfV|].
    intros y Hy. by rewrite Hw, decide_False. }
  destruct Hok' as [Ho Hch Hs Hpl Hd]. cbn [phys freelist set_phys] in *.
  constructor; cbn [phys freelist set_phys set_freelist]; try done.
  - intros b' Hb'. rewrite filter_cons. destruct (decide (in_bin b' _)) as [Hbb|Hbb].
    + assert (b' = b) as -> by (unfold in_bin in Hbb; cbn in Hbb; lia).
      rewrite fn_lookup_insert. cbn [fmap list_fmap fst chain]. split; [done|].
      rewrite Hw, decide_True by done. by apply Hch.
    + rewrite fn_lookup_insert_ne by (intros ->; by apply Hbb). by apply Hch.
  - intros c' v' [Heq|Hel]%elem_of_cons; [|by eapply Hs]. simplify_eq. lia.
  - intros c' v' [Heq|Hel]%elem_of_cons; [|by apply Hpl]. simplify_eq.
    destruct Hp as [Hwc Hp]. split; [|done]. rewrite Hw, decide_False by lia. done.
  - intros x. cbn [app]. rewrite covers_cons. destruct (decide (in_chunk x _)) as [Hx|Hx]; [|apply Hd].
    by rewrite (Hfree x Hx).
Qed.

(** Taking the first chunk of a free list into use. *)
Lemma heap_ok_pop h P Fr V O b :
  heap_ok h P Fr V O → (b < NBINS)%nat → freelist h b ≠ 0 →
  ∃ c Fr', freelist h b = ptr c ∧ Fr ≡ₚ (c, Z.of_nat b) :: Fr' ∧
    heap_ok (set_freelist b (load (ptr c) (phys h)) h) P Fr' ((c, Z.of_nat b) :: V) O.
Proof.
  intros Hok Hb Hne. pose proof (hk_chain _ _ _ _ _ Hok b Hb) as Hch.
  destruct (filter (in_bin b) Fr) as [|[c v] l] eqn:E; [done|].
  destruct (filter_first _ _ _ _ E) as (F1 & F2 & -> & HF1 & HF2 & Hv).
  unfold in_bin in Hv. cbn in Hv. subst v. cbn in Hch. destruct Hch as [Hptr Hch].
  assert (F1 ++ (c, Z.of_nat b) :: F2 ≡ₚ (c, Z.of_nat b) :: F1 ++ F2) as Hperm by solve_Permutation.
  assert ((F1 ++ (c, Z.of_nat b) :: F2) ++ V ≡ₚ (F1 ++ F2) ++ (c, Z.of_nat b) :: V) as Hperm2
    by solve_Permutation.
  destruct Hok as [Ho Hc Hs Hp Hd]. exists c, (F1 ++ F2). split; [done|]. split; [done|].
  assert (placed (phys h) P c (Z.of_nat b)) as Hpc by (apply Hp; set_solver).
  destruct (placed_range _ _ O _ _ Ho Hpc) as (Hc0 & Hc1 & Hal & Hsz).
  constructor; cbn [phys freelist set_freelist]; try done.
  - intros b' Hb'. rewrite filter_app. destruct (decide (b' = b)) as [->|Hbb].
    + rewrite fn_lookup_insert, HF1, HF2. unfold load. by rewrite ptr_phys by lia.
    + rewrite fn_lookup_insert_ne by done. pose proof (Hc b' Hb') as Hcb.
      rewrite filter_app, filter_cons_False in Hcb by (unfold in_bin; cbn; lia). done.
  - intros c' v' Hel. apply (Hs c' v'). set_solver.
  - intros c' v' Hel. apply Hp. by rewrite Hperm2.
  - intros x. by rewrite <- (covers_perm x _ _ Hperm2).
Qed.

(** A fresh block of the frame allocator touches no chunk. *)
Lemma heap_ok_alloc h P Fr V O o a s' :
  heap_ok h P Fr V O → (o < MAX_ORDER)%nat → fr_alloc o (phys h) = (a, s') → a ≠ 0 →
  0 < a ∧ heap_ok (set_phys s' h) ((a, o) :: P) Fr V O ∧ keeps_words V O (phys h) s' ∧
  (∀ x, in_blk x a o → covers x (Fr ++ V) = 0%nat).
Proof.
  intros Hok Ho Ha Hne.
  destruct (fr_alloc_spec o (phys h) _ a s' (hk_owned _ _ _ _ _ Hok) Ho Ha)
    as [[-> _]|(Hpos & Hown & Hw)]; [done|].
  assert (∀ c v x, (c, v) ∈ Fr ++ V → in_chunk x (c, v) → owners x P ≠ 0%nat) as Hcov.
  { intros c v x Hcv Hx. eapply placed_owners; [|done]. by apply (hk_placed _ _ _ _ _ Hok). }
  split; [done|]. split_and!.
  - eapply heap_ok_covered; [done|done| |].
    { intros c v _. apply placed_mono. set_solver. }
    intros x Hx. apply Hw. rewrite owners_cons, owners_app. enough (owners x P ≠ 0%nat) by lia. intros HP.
    apply Hx, covers_zero. intros [c v] Hcv Hin. by apply (Hcov c v x).
  - intros x Hx. apply Hw. rewrite owners_cons, owners_app.
    destruct Hx as [(c & v & Hcv & Hx)|Hx]; [|lia].
    assert (owners x P ≠ 0%nat); [|lia]. apply (Hcov c v); [set_solver|]. unfold in_chunk. cbn. lia.
  - intros x Hx. apply covers_zero. intros [c v] Hcv Hin.
    pose proof (Hcov c v x Hcv Hin) as HP. pose proof (owned_disjoint _ _ x Hown) as Hd.
    rewrite owners_cons, owners_app in Hd. cbn [fst snd] in Hd. rewrite decide_True in Hd by done. lia.
Qed.

(** One round of the carving loop. *)
Lemma carve_ok h P Fr V O pa b i :
  let sz := 2 ^ (Z.of_nat b + 4) in
  heap_ok h P Fr V O → (b < NBINS)%nat → (pa, 0%nat) ∈ P →
  (Z.of_nat i + 1) * sz ≤ PAGE_SIZE →
  (∀ x, pa + Z.of_nat i * sz ≤ x < pa + PAGE_SIZE → covers x (Fr ++ V) = 0%nat) →
  let h' := carve (PHYS_TO_VIRT pa) b i h in
  freelist h' b ≠ 0 ∧ keeps_words V O (phys h) (phys h') ∧
  ∃ Fr', heap_ok h' P Fr' V O ∧
    ∀ x, pa + (Z.of_nat i + 1) * sz ≤ x < pa + PAGE_SIZE → covers x (Fr' ++ V) = 0%nat.
Proof.
  intros sz Hok Hb HpaP Hi Hfree h'. destruct (chunk_size_bin b Hb) as (Hcs & Hge & Hdv).
  fold sz in Hcs. set (c := pa + Z.of_nat i * sz).
  assert (16 | sz) as H16. { unfold sz. rewrite Z.pow_add_r by lia. by exists (2 ^ Z.of_nat b). }
  destruct (owned_block _ _ pa 0%nat (hk_owned _ _ _ _ _ Hok)) as (_ & Hpad & Hpa0 & Hpa1); [set_solver|].
  change (blk_size 0) with PAGE_SIZE in *. unfold PAGE_SIZE in *.
  assert (0 ≤ c < 2 ^ 62) as Hcr by (unfold c; nia).
  assert (u64 (PHYS_TO_VIRT pa + Z.of_nat i * sz) = PHYS_TO_VIRT c) as Hhd.
  { unfold PHYS_TO_VIRT. rewrite u64_add_l. f_equal. unfold c. lia. }
  assert (∀ x, in_chunk x (c, Z.of_nat b) → covers x (Fr ++ V) = 0%nat ∧ owners x P ≠ 0%nat) as Hin.
  { intros x Hx. unfold in_chunk, c in Hx. cbn in Hx. rewrite Hcs in Hx. split; [apply Hfree; nia|].
    apply (owners_pos x pa 0 P HpaP). unfold in_blk. change (blk_size 0) with 4096. nia. }
  destruct (hdr_in_chunk c (Z.of_nat b) Hge) as [Hc0 Hc8].
  set (s1 := write_hdr (PHYS_TO_VIRT c) (Z.of_nat b) (phys h)).
  assert (∀ y, word s1 y = if decide (y = c) then hdr_word (Z.of_nat b) else word (phys h) y) as Hw.
  { intros y. apply word_write_hdr; [done|]. unfold NBINS in Hb. lia. }
  assert (heap_ok (set_phys s1 h) P Fr V O) as Hok1.
  { eapply heap_ok_covered; [done| |done|].
    - apply write_hdr_owned; [done|apply Hok|]. rewrite owners_app. pose proof (proj2 (Hin c Hc0)). lia.
    - intros x Hx. rewrite Hw, decide_False; [done|]. intros ->. apply Hx, (Hin c Hc0). }
  assert (keeps_words V O (phys h) s1) as Hk1.
  { eapply (keeps_one h P Fr V O s1 c); [done|apply (Hin c Hc0)| |intros y Hy; by rewrite Hw, decide_False].
    pose proof (proj1 (Hin c Hc0)) as Hz. rewrite covers_app in Hz. lia. }
  destruct (heap_ok_push _ P Fr V O c b Hok1 Hb) as [Hok2 Hk2].
  { split; [cbn; by rewrite Hw, decide_True|]. exists pa, 0%nat. split; [done|].
    change (blk_size 0) with 4096. rewrite Hcs. split; [unfold c; nia|]. split; [unfold c; nia|].
    left. split; [lia|]. apply Z.divide_add_r; [|by apply Z.divide_mul_r].
    by apply (Z.divide_trans _ 4096); [exists 256|]. }
  { intros x Hx. apply (Hin x Hx). }
  unfold h', carve. fold sz. rewrite Hhd. fold s1. change (u64 (PHYS_TO_VIRT c + HDR)) with (ptr c).
  split; [|split].
  - cbn. rewrite fn_lookup_insert. apply ptr_nonzero.
    apply Z.divide_add_r; [|by apply Z.divide_mul_r]. by apply (Z.divide_trans _ 4096); [exists 256|].
  - cbn. by eapply keeps_words_trans.
  - exists ((c, Z.of_nat b) :: Fr). split; [exact Hok2|]. intros x Hx. cbn [app].
    rewrite covers_cons, decide_False; [apply Hfree; lia|].
    unfold in_chunk. cbn. rewrite Hcs. unfold c. lia.
Qed.

Lemma carve_loop P V O pa b n : ∀ i h Fr,
  let sz := 2 ^ (Z.of_nat b + 4) in
  heap_ok h P Fr V O → (b < NBINS)%nat → (pa, 0%nat) ∈ P →
  (Z.of_nat i + Z.of_nat n) * sz = PAGE_SIZE →
  (∀ x, pa + Z.of_nat i * sz ≤ x < pa + PAGE_SIZE → covers x (Fr ++ V) = 0%nat) →
  (n = 0%nat → freelist h b ≠ 0) →
  let h' := for_loop (carve (PHYS_TO_VIRT pa) b) i n h in
  freelist h' b ≠ 0 ∧ keeps_words V O (phys h) (phys h') ∧ ∃ Fr', heap_ok h' P Fr' V O.
Proof.
  induction n as [|n IH]; intros i h Fr sz Hok Hb HP Hi Hfree Hstart h'.
  - split; [by apply Hstart|]. split; [apply keeps_words_refl|]. by exists Fr.
  - assert (0 < sz) by (apply pow2_pos; lia).
    destruct (carve_ok h P Fr V O pa b i) as (Hne & Hk & Fr1 & Hok1 & Hfree1); [done..|unfold PAGE_SIZE in *; nia|done|].
    destruct (IH (Datatypes.S i) _ Fr1 Hok1) as (Hne' & Hk' & Hex); [done|done| |intros x Hx; apply Hfree1|done|].
    + fold sz. rewrite <- Hi. f_equal. lia.
    + fold sz in Hx. unfold PAGE_SIZE in *. nia.
    + split; [done|]. split; [by eapply keeps_words_trans|done].
Qed.

Lemma refill_ok h P Fr V O b :
  heap_ok h P Fr V O → (b < NBINS)%nat →
  refill b h = Panic ∨
  ∃ h' P' Fr', refill b h = Ret h' ∧ freelist h' b ≠ 0 ∧ heap_ok h' P' Fr' V O ∧
    keeps_words V O (phys h) (phys h').
Proof.
  intros Hok Hb. unfold refill. destruct (freelist h b =? 0) eqn:E; bool_split; cycle 1.
  { right. exists h, P, Fr. split_and!; [done..|apply keeps_words_refl]. }
  destruct (fr_alloc 0 (phys h)) as [pa s'] eqn:Ea. destruct (pa =? 0) eqn:E0; bool_split; [by left|right].
  destruct (heap_ok_alloc h P Fr V O 0 pa s' Hok) as (Hpos & Hok' & Hk & Hfree); [unfold MAX_ORDER; lia|done|done|].
  destruct (chunk_size_bin b Hb) as (Hcs & Hge & [q Hq]). rewrite Hcs in Hq.
  assert (Z.shiftr PAGE_SIZE (Z.of_nat b + 4) = q) as Hsz.
  { rewrite Z.shiftr_div_pow2 by lia. rewrite Hq. apply Z.div_mul. lia. }
  assert (0 < q) by (unfold PAGE_SIZE in Hq; nia). rewrite Hsz.
  destruct (carve_loop ((pa, 0%nat) :: P) V O pa b (Z.to_nat q) 0 (set_phys s' h) Fr)
    as (Hne & Hk' & Fr' & Hok2); [done|done|set_solver|lia| |lia|].
  { intros x Hx. apply Hfree. unfold in_blk. change (blk_size 0) with PAGE_SIZE. lia. }
  eexists _, ((pa, 0%nat) :: P), Fr'. split; [done|]. split; [done|]. split; [done|].
  by eapply keeps_words_trans.
Qed.

Lemma set_heap_used_ok h P Fr V O n : heap_ok h P Fr V O → heap_ok (set_heap_used n h) P Fr V O.
Proof. by intros []. Qed.

Lemma kmalloc_small_ok h P Fr V O b :
  heap_ok h P Fr V O → (b < NBINS)%nat →
  kmalloc_small b h = Panic ∨
  ∃ h' c P' Fr', kmalloc_small b h = Ret (ptr c, h') ∧
    heap_ok h' P' Fr' ((c, Z.of_nat b) :: V) O ∧ keeps_words V O (phys h) (phys h').
Proof.
  intros Hok Hb. unfold kmalloc_small.
  destruct (refill_ok h P Fr V O b Hok Hb) as [->|(h1 & P1 & Fr1 & -> & Hne & Hok1 & Hk)]; [by left|right].
  destruct (heap_ok_pop h1 P1 Fr1 V O b Hok1 Hb Hne) as (c & Fr' & Hp & _ & Hok2).
  eexists _, c, P1, Fr'. cbn [mbind outcome_bind]. rewrite Hp. split; [done|]. split; [by apply set_heap_used_ok|done].
Qed.

Lemma up_to_pow_spec unit n k : 0 < unit → unit * 2 ^ Z.of_nat k < 2 ^ 64 → n ≤ unit * 2 ^ Z.of_nat k →
  ∀ fuel b, (b ≤ k)%nat → (k - b < fuel)%nat →
  ∃ r, up_to_pow fuel unit n b = Some r ∧ (b ≤ r ≤ k)%nat ∧ n ≤ unit * 2 ^ Z.of_nat r.
Proof.
  intros Hu Hk Hn. induction fuel as [|f IH]; intros b Hb Hf; [lia|]. cbn [up_to_pow].
  assert (2 ^ Z.of_nat b ≤ 2 ^ Z.of_nat k) by (apply Z.pow_le_mono_r; lia).
  pose proof (pow2_pos (Z.of_nat b) ltac:(lia)).
  rewrite Z.shiftl_mul_pow2, u64_small by nia. destruct (_ <? n) eqn:E; bool_split; [|by exists b].
  assert (b ≠ k) by (intros ->; lia). destruct (IH (Datatypes.S b)) as (r & -> & Hr & Hle); [lia..|].
  exists r. split_and!; try done; lia.
Qed.

Lemma bin_of_spec n : n ≤ 4096 →
  ∃ b, bin_of n = Some b ∧ (b < NBINS)%nat ∧ n ≤ 2 ^ (Z.of_nat b + 4).
Proof.
  intros Hn. unfold bin_of.
  destruct (up_to_pow_spec 1 n 12 ltac:(lia) ltac:(lia) ltac:(lia) 64 4) as (r & -> & Hr & Hle); [lia..|].
  exists (r - 4)%nat. split; [done|]. unfold NBINS. split; [lia|].
  replace (Z.of_nat (r - 4) + 4) with (Z.of_nat r) by lia. lia.
Qed.

Lemma lor_order o : (o < MAX_ORDER)%nat → Z.lor 0x80 (Z.of_nat o) = 0x80 + Z.of_nat o.
Proof. unfold MAX_ORDER. intros Ho. do 11 (destruct o as [|o]; [done|]). lia. Qed.

Lemma blk_size_shift o : blk_size o = PAGE_SIZE * 2 ^ Z.of_nat o.
Proof. rewrite blk_size_pow, Z.pow_add_r by lia. done. Qed.

Lemma heap_ok_use h P Fr V O c v :
  heap_ok h P Fr V O → placed (phys h) P c v →
  (∀ x, in_chunk x (c, v) → covers x (Fr ++ V) = 0%nat) → heap_ok h P Fr ((c, v) :: V) O.
Proof.
  intros [Ho Hc Hs Hp Hd] Hpl Hfree.
  assert (Fr ++ (c, v) :: V ≡ₚ (c, v) :: Fr ++ V) as Hperm by solve_Permutation.
  constructor; try done.
  - intros c' v'. rewrite Hperm. intros [Heq|Hel]%elem_of_cons; [by simplify_eq|by apply Hp].
  - intros x. rewrite (covers_perm _ _ _ Hperm), covers_cons.
    destruct (decide _) as [Hx|Hx]; [by rewrite (Hfree x Hx)|apply Hd].
Qed.

Lemma kmalloc_large_ok h P Fr V O n :
  heap_ok h P Fr V O → 4096 < n + HDR ≤ 2 ^ 62 →
  kmalloc_large n h = Panic ∨
  ∃ h' c v P' Fr', kmalloc_large n h = Ret (ptr c, h') ∧ n + HDR ≤ chunk_size v ∧
    heap_ok h' P' Fr' ((c, v) :: V) O ∧ keeps_words V O (phys h) (phys h').
Proof.
  intros Hok Hn. unfold kmalloc_large. rewrite (u64_small (n + HDR)) by lia.
  destruct (ALIGN_UP_spec (n + HDR) 12) as [Hneed _]; [lia..|]. change (2 ^ 12) with PAGE_SIZE in Hneed.
  set (need := ALIGN_UP (n + HDR) PAGE_SIZE) in *. unfold PAGE_SIZE in Hneed.
  destruct (up_to_pow_spec PAGE_SIZE need 51 ltac:(unfold PAGE_SIZE; lia) ltac:(unfold PAGE_SIZE; lia)
    ltac:(unfold PAGE_SIZE; lia) 64 0) as (o & -> & _ & Hle); [lia..|]. rewrite <- blk_size_shift in Hle.
  destruct (decide (o < MAX_ORDER)%nat) as [Ho|Ho]; [|rewrite fr_alloc_big by lia; by left].
  destruct (fr_alloc o (phys h)) as [pa s'] eqn:Ea. destruct (pa =? 0) eqn:Ez; bool_split; [by left|right].
  destruct (heap_ok_alloc h P Fr V O o pa s' Hok Ho Ea Ez) as (Hpos & Hok1 & Hk1 & Hfree).
  destruct (owned_block _ _ pa o (hk_owned _ _ _ _ _ Hok1)) as (_ & _ & _ & Hpa); [set_solver|].
  pose proof (blk_size_ge o) as Hge. rewrite lor_order by done.
  set (v := 0x80 + Z.of_nat o) in *. assert (chunk_size v = blk_size o) as Hcs by apply chunk_size_order.
  assert (∀ x, in_chunk x (pa, v) → in_blk x pa o) as Hblk.
  { intros x Hx. unfold in_chunk in Hx. cbn [fst snd] in Hx. by rewrite Hcs in Hx. }
  assert (in_chunk pa (pa, v)) as Hin by (apply hdr_in_chunk; lia).
  set (s2 := write_hdr (PHYS_TO_VIRT pa) v s').
  assert (∀ y, word s2 y = if decide (y = pa) then hdr_word v else word s' y) as Hw.
  { intros y. apply word_write_hdr; unfold MAX_ORDER in Ho; lia. }
  assert (owners pa ((pa, o) :: P) ≠ 0%nat) as Hopa.
  { eapply owners_pos; [by apply list_elem_of_here|by apply Hblk]. }
  assert (heap_ok (set_phys s2 (set_phys s' h)) ((pa, o) :: P) Fr V O) as Hok2.
  { eapply heap_ok_covered; [done| |done|].
    - apply write_hdr_owned; [lia|apply Hok1|]. rewrite owners_app. lia.
    - intros x Hx. rewrite Hw, decide_False; [done|]. intros ->. by apply Hx, Hfree, Hblk. }
  eexists _, pa, v, ((pa, o) :: P), Fr. split; [done|]. split; [lia|]. split.
  - apply set_heap_used_ok. apply (heap_ok_use _ _ _ _ _ pa v) in Hok2; [exact Hok2| |by auto].
    split; [cbn; by rewrite Hw, decide_True|]. exists pa, o. rewrite Hcs.
    split; [set_solver|]. split; [lia|]. split; [lia|]. by right.
  - eapply keeps_words_trans; [done|].
    eapply (keeps_one _ _ Fr V O s2 pa Hok1); [done| |intros y Hy; by rewrite Hw, decide_False].
    pose proof (Hfree pa (Hblk _ Hin)) as Hz. rewrite covers_app in Hz. lia.
Qed.

Lemma kmalloc_ok h P Fr V O n :
  heap_ok h P Fr V O → 0 ≤ n → n + HDR ≤ 2 ^ 62 →
  kmalloc n h = Panic ∨
  ∃ h' c v P' Fr', kmalloc n h = Ret (ptr c, h') ∧ n + HDR ≤ chunk_size v ∧
    heap_ok h' P' Fr' ((c, v) :: V) O ∧ keeps_words V O (phys h) (phys h').
Proof.
  intros Hok Hn0 Hn. unfold kmalloc. set (n' := if n =? 0 then 1 else n).
  assert (n ≤ n' ∧ n' + HDR ≤ 2 ^ 62 ∧ 0 ≤ n') as (Hle & Hn' & Hn0').
  { unfold n'. unfold HDR in *. destruct (n =? 0) eqn:E; bool_split; lia. }
  unfold HDR in *. rewrite (u64_small (n' + 8)) by lia. destruct (4096 <? n' + 8) eqn:E; bool_split.
  - destruct (kmalloc_large_ok h P Fr V O n' Hok) as [->|(h' & c & v & P' & Fr' & -> & Hs & Hr)];
      [unfold HDR; lia|by left|right]. unfold HDR in Hs. exists h', c, v, P', Fr'. split_and!; [done|lia|apply Hr..].
  - destruct (bin_of_spec (n' + 8) E) as (b & -> & Hb & Hbn).
    destruct (kmalloc_small_ok h P Fr V O b Hok Hb) as [->|(h' & c & P' & Fr' & -> & Hr)]; [by left|right].
    destruct (chunk_size_bin b Hb) as (Hcs & _). exists h', c, (Z.of_nat b), P', Fr'.
    split_and!; [done|lia|apply Hr..].
Qed.

Lemma heap_ok_perm h P P' Fr V V' O :
  heap_ok h P Fr V O → P ≡ₚ P' → V ≡ₚ V' → heap_ok h P' Fr V' O.
Proof.
  intros [Ho Hc Hs Hp Hd] HP HV. constructor; try done.
  - eapply owned_perm; [done|]. by rewrite HP.
  - intros c v. rewrite <- HV. intros (Hw & a & o & Hin & Hr)%Hp. split; [done|].
    exists a, o. split; [by rewrite <- HP|done].
  - intros x. rewrite <- (covers_perm x (Fr ++ V)); [done|by rewrite HV].
Qed.

(** A chunk that goes out of use is covered by no other chunk. *)
Lemma heap_ok_drop h P Fr V O c v :
  heap_ok h P Fr ((c, v) :: V) O →
  heap_ok h P Fr V O ∧ placed (phys h) P c v ∧
  ∀ x, in_chunk x (c, v) → covers x (Fr ++ V) = 0%nat.
Proof.
  intros [Ho Hc Hs Hp Hd].
  assert (∀ x, covers x (Fr ++ (c, v) :: V) =
    ((if decide (in_chunk x (c, v)) then 1 else 0) + covers x (Fr ++ V))%nat) as Hcov.
  { intros x. rewrite !covers_app, covers_cons. lia. }
  split_and!; [constructor; try done| |].
  - intros c' v' Hel. apply Hp. set_solver.
  - intros x. pose proof (Hd x) as Hx. rewrite Hcov in Hx. lia.
  - apply Hp. set_solver.
  - intros x Hx. pose proof (Hd x) as Hd'. rewrite Hcov, decide_True in Hd' by done. lia.
Qed.

(** Giving a block back that no chunk lies in. *)
Lemma heap_ok_release h P Fr V O a o :
  heap_ok h ((a, o) :: P) Fr V O → (∀ x, in_blk x a o → covers x (Fr ++ V) = 0%nat) →
  ∃ s', fr_free a o (phys h) = Some s' ∧ heap_ok (set_phys s' h) P Fr V O ∧
    keeps_words V O (phys h) s'.
Proof.
  intros Hok Hfree. pose proof Hok as [Ho Hc Hs Hp Hd].
  destruct (fr_free_spec a o (phys h) (P ++ O) Ho) as (s' & Hs' & Ho' & Hw).
  assert (∀ c v, (c, v) ∈ Fr ++ V → placed (phys h) P c v) as Hp'.
  { intros c v Hcv. pose proof (Hp c v Hcv) as Hpl. pose proof (placed_size _ _ _ _ Hpl) as Hsz.
    destruct Hpl as (Hwc & a' & o' & [Heq|Hin]%elem_of_cons & Hlo & Hhi & Hk); [|split; [done|by exists a', o']].
    simplify_eq. destruct (hdr_in_chunk c v Hsz) as [Hcin _].
    exfalso. eapply (covers_elem c (c, v)); [done|done|]. apply Hfree. unfold in_blk. lia. }
  assert (∀ c v x, (c, v) ∈ Fr ++ V → in_chunk x (c, v) → owners x (P ++ O) ≠ 0%nat) as Hcov.
  { intros c v x Hcv Hx. rewrite owners_app. pose proof (placed_owners _ _ _ _ x (Hp' c v Hcv) Hx). lia. }
  exists s'. split; [done|]. split.
  - eapply heap_ok_covered; [done|done|intros c v Hcv _; by apply Hp'|]. intros x Hx. apply Hw.
    intros HP. apply Hx, covers_zero. intros [c v] Hcv Hin. by apply (Hcov c v x).
  - intros x Hx. apply Hw. destruct Hx as [(c & v & Hcv & Hx)|Hx]; [|rewrite owners_app; lia].
    apply (Hcov c v); [set_solver|]. unfold in_chunk. cbn. lia.
Qed.

Lemma hdr_fields s P O c v : owned s (P ++ O) → placed s P c v →
  magic (PHYS_TO_VIRT c) s = HEAP_MAGIC ∧ bin_or_order (PHYS_TO_VIRT c) s = v.
Proof.
  intros Ho Hp. destruct (placed_range s P O c v Ho Hp) as (Hc0 & Hc1 & _ & Hsz).
  destruct Hp as (Hw & a & o & Hin & _ & _ & Hk).
  assert (0 ≤ v < 2 ^ 32) as Hv.
  { destruct (owned_block s _ a o Ho) as (Ho' & _); [set_solver|].
    unfold NBINS, MAX_ORDER in *. destruct Hk as [[Hv _]|[-> _]]; lia. }
  unfold magic, bin_or_order, load. rewrite VIRT_TO_PHYS_base, Hw by lia. unfold hdr_word, u32.
  rewrite Z.mul_comm. split.
  - rewrite Z.div_add, Z.div_small by lia. done.
  - rewrite Z.mod_add, Z.mod_small; lia.
Qed.

Lemma kfree_ok h P Fr V O c v :
  heap_ok h P Fr ((c, v) :: V) O →
  ∃ h' P' Fr', kfree (ptr c) h = Ret h' ∧ heap_ok h' P' Fr' V O ∧
    keeps_words V O (phys h) (phys h').
Proof.
  intros Hok. destruct (heap_ok_drop _ _ _ _ _ _ _ Hok) as (Hok1 & Hp & Hfree).
  pose proof (hk_owned _ _ _ _ _ Hok) as Ho.
  destruct (placed_range _ _ _ _ _ Ho Hp) as (Hc0 & Hc1 & Hal & Hsz).
  destruct (hdr_fields _ _ _ _ _ Ho Hp) as [Hm Hb]. unfold kfree.
  rewrite (proj2 (Z.eqb_neq _ _) (ptr_nonzero c Hal)), ptr_hdr, Hm, Hb by lia. cbn [negb Z.eqb].
  rewrite Z.eqb_refl. cbn [negb].
  pose proof Hp as (_ & a & o & Hin & Hlo & Hhi & [[Hv _]|[-> ->]]).
  - assert (Z.land v 0x80 = 0 ∧ ∃ b : nat, v = Z.of_nat b ∧ (b < NBINS)%nat) as (-> & b & -> & Hbb).
    { unfold NBINS in *. split; [|exists (Z.to_nat v); lia].
      assert (∃ b : nat, v = Z.of_nat b ∧ (b < 9)%nat) as (b & -> & Hb9) by (exists (Z.to_nat v); lia).
      clear -Hb9. do 9 (destruct b as [|b]; [done|]). lia. }
    cbn [Z.eqb negb]. rewrite (proj2 (Z.ltb_lt (Z.of_nat b) (Z.of_nat NBINS)) ltac:(lia)), Nat2Z.id.
    destruct (heap_ok_push _ _ _ _ _ c b Hok1 Hbb Hp Hfree) as [Hok2 Hk].
    eexists _, P, _. split; [done|]. split; [by apply set_heap_used_ok|done].
  - destruct (owned_block _ _ a o Ho) as (Hord & _); [set_solver|].
    assert (Z.land (0x80 + Z.of_nat o) 0x80 = 0x80 ∧ Z.land (0x80 + Z.of_nat o) 0x7f = Z.of_nat o) as [-> ->].
    { unfold MAX_ORDER in Hord. do 11 (destruct o as [|o]; [done|]). lia. }
    cbn [Z.eqb negb]. rewrite Nat2Z.id, VIRT_TO_PHYS_base by lia. cbn [phys set_heap_used].
    apply list_elem_of_split in Hin as (P1 & P2 & ->).
    assert (heap_ok h ((a, o) :: P1 ++ P2) Fr V O) as Hok2.
    { eapply heap_ok_perm; [exact Hok1|solve_Permutation|done]. }
    destruct (heap_ok_release _ _ _ _ _ _ _ Hok2) as (s' & -> & Hok3 & Hk).
    { intros x Hx. apply Hfree. unfold in_chunk. cbn [fst snd]. by rewrite chunk_size_order. }
    eexists _, (P1 ++ P2), Fr. split; [done|]. split; [|done]. by destruct Hok3.
Qed.

(** ** Clients

    A configuration is the heap, the live allocations as (pointer, requested
    size) and the blocks that other clients obtained from the frame allocator
    directly.  A client writes aligned words of what it holds. *)

Definition hconf : Type := heap S * list (Z * Z) * list (Z * nat).

Inductive heap_step : hconf → hconf → Prop :=
  | hs_malloc n p h h' L O :
      0 ≤ n → n + HDR ≤ 2 ^ 62 → kmalloc n h = Ret (p, h') →
      heap_step (h, L, O) (h', (p, n) :: L, O)
  | hs_free p n h h' L1 L2 O :
      kfree p h = Ret h' → heap_step (h, L1 ++ (p, n) :: L2, O) (h', L1 ++ L2, O)
  | hs_free_null h h' L O :
      kfree 0 h = Ret h' → heap_step (h, L, O) (h', L, O)
  | hs_store p n x w h L O :
      (p, n) ∈ L → p ≤ x → x + 8 ≤ p + n →
      heap_step (h, L, O) (set_phys (store x w (phys h)) h, L, O)
  | hs_frame_alloc o a s' h L O :
      (o < MAX_ORDER)%nat → fr_alloc o (phys h) = (a, s') → a ≠ 0 →
      heap_step (h, L, O) (set_phys s' h, L, (a, o) :: O)
  | hs_frame_free a o s' h L O1 O2 :
      fr_free a o (phys h) = Some s' →
      heap_step (h, L, O1 ++ (a, o) :: O2) (set_phys s' h, L, O1 ++ O2)
  | hs_frame_store x w h L O :
      owners x O ≠ 0%nat → heap_step (h, L, O) (set_phys (set_word x w (phys h)) h, L, O).

(** The number of live allocations that contain the physical byte [x]. *)
Definition holds (x : Z) (r : Z * Z) : Prop := VIRT_TO_PHYS r.1 ≤ x < VIRT_TO_PHYS r.1 + r.2.
#[global] Instance holds_dec x r : Decision (holds x r).
Proof. unfold holds. apply _. Defined.
Definition held (x : Z) (L : list (Z * Z)) : nat := length (filter (holds x) L).

Definition serves (c : Z * Z) (r : Z * Z) : Prop :=
  r.1 = ptr c.1 ∧ 0 ≤ r.2 ∧ r.2 + HDR ≤ chunk_size c.2.

Definition heap_inv (c : hconf) : Prop :=
  ∃ P Fr V, heap_ok c.1.1 P Fr V c.2 ∧ Forall2 serves V c.1.2.

Lemma serves_holds h P Fr V O c v r x : heap_ok h P Fr V O → (c, v) ∈ V →
  serves (c, v) r → holds x r → c + 8 ≤ x < c + chunk_size v.
Proof.
  intros Hok Hin (Hp & Hn & Hs) Hx. cbn [fst snd] in *. unfold holds in Hx. rewrite Hp in Hx.
  assert (placed (phys h) P c v) as Hpl by (apply (hk_placed _ _ _ _ _ Hok); set_solver).
  destruct (placed_range _ _ _ _ _ (hk_owned _ _ _ _ _ Hok) Hpl) as (? & ? & _ & ?).
  rewrite ptr_phys in Hx by lia. unfold HDR in Hs. lia.
Qed.

Lemma held_covers h P Fr V O x : heap_ok h P Fr V O → ∀ V' L, (∀ c, c ∈ V' → c ∈ V) →
  Forall2 serves V' L → (held x L ≤ covers x V')%nat.
Proof.
  intros Hok V' L Hsub HF. induction HF as [|[c v] r V' L Hs HF IH]; [done|].
  rewrite covers_cons. unfold held in *. rewrite filter_cons.
  specialize (IH ltac:(set_solver)). destruct (decide (holds x r)) as [Hx|Hx]; [|destruct (decide _); lia].
  eapply serves_holds in Hx; [|done| |done]; [|apply Hsub; set_solver].
  rewrite decide_True by (unfold in_chunk; cbn; lia). cbn. lia.
Qed.

Lemma held_word h P Fr V O L x : heap_ok h P Fr V O → Forall2 serves V L → held x L ≠ 0%nat →
  ∃ c v, (c, v) ∈ V ∧ c + 8 ≤ x < c + chunk_size v.
Proof.
  intros Hok HF Hx. unfold held in Hx. destruct (filter (holds x) L) as [|r l] eqn:E; [done|].
  assert (r ∈ filter (holds x) L) as [Hr Hel]%list_elem_of_filter by (rewrite E; set_solver).
  apply list_elem_of_lookup_1 in Hel as [i Hi].
  destruct (Forall2_lookup_r _ _ _ _ _ HF Hi) as ([c v] & Hc & Hs).
  apply list_elem_of_lookup_2 in Hc. exists c, v. split; [done|]. by eapply serves_holds.
Qed.

(** What the invariant says about the bytes clients hold. *)
Lemma heap_inv_bytes h L O x : heap_inv (h, L, O) →
  (held x L ≤ 1)%nat ∧ (held x L ≠ 0%nat → owners x O = 0%nat).
Proof.
  intros (P & Fr & V & Hok & HF). cbn [fst snd] in *. split.
  - pose proof (held_covers h P Fr V O x Hok V L (λ c Hc, Hc) HF).
    pose proof (hk_disj _ _ _ _ _ Hok x) as Hd. rewrite covers_app in Hd. lia.
  - intros Hx. destruct (held_word _ _ _ _ _ _ _ Hok HF Hx) as (c & v & Hin & Hcv).
    assert (placed (phys h) P c v) as Hpl by (apply (hk_placed _ _ _ _ _ Hok); set_solver).
    pose proof (placed_owners _ _ _ _ x Hpl) as Ho. unfold in_chunk in Ho. cbn in Ho.
    pose proof (owned_disjoint _ _ x (hk_owned _ _ _ _ _ Hok)) as Hd. rewrite owners_app in Hd.
    specialize (Ho ltac:(lia)). lia.
Qed.

Definition words_kept (L : list (Z * Z)) (O : list (Z * nat)) s s' : Prop :=
  ∀ x, held x L ≠ 0%nat ∨ owners x O ≠ 0%nat → word s' x = word s x.

Lemma keeps_words_kept h P Fr V O L s' :
  heap_ok h P Fr V O → Forall2 serves V L → keeps_words V O (phys h) s' → words_kept L O (phys h) s'.
Proof.
  intros Hok HF Hk x [Hx|Hx]; apply Hk; [left|by right]. by eapply held_word.
Qed.

Lemma heap_inv_malloc h L O n : heap_inv (h, L, O) → 0 ≤ n → n + HDR ≤ 2 ^ 62 →
  kmalloc n h = Panic ∨
  ∃ p h', kmalloc n h = Ret (p, h') ∧ p ≠ 0 ∧ heap_inv (h', (p, n) :: L, O) ∧
    words_kept L O (phys h) (phys h').
Proof.
  intros (P & Fr & V & Hok & HF) Hn Hn'. cbn [fst snd] in *.
  destruct (kmalloc_ok h P Fr V O n Hok Hn Hn') as [->|(h' & c & v & P' & Fr' & -> & Hs & Hok' & Hk)]; [by left|right].
  exists (ptr c), h'. split; [done|].
  assert (placed (phys h') P' c v) as Hpl by (apply (hk_placed _ _ _ _ _ Hok'); set_solver).
  destruct (placed_range _ _ _ _ _ (hk_owned _ _ _ _ _ Hok') Hpl) as (_ & _ & Hal & _).
  split; [by apply ptr_nonzero|]. split; [|by eapply keeps_words_kept].
  exists P', Fr', ((c, v) :: V). split; [done|]. constructor; [|done]. by split_and!.
Qed.

Lemma heap_inv_free h L1 L2 O p n : heap_inv (h, L1 ++ (p, n) :: L2, O) →
  ∃ h', kfree p h = Ret h' ∧ heap_inv (h', L1 ++ L2, O) ∧ words_kept (L1 ++ L2) O (phys h) (phys h').
Proof.
  intros (P & Fr & V & Hok & HF). cbn [fst snd] in *.
  apply Forall2_app_inv_r in HF as (V1 & V2' & HF1 & HF2 & ->).
  apply Forall2_cons_inv_r in HF2 as ([c v] & V2 & Hs & HF2 & ->). destruct Hs as (Hp & _).
  cbn in Hp. subst p.
  assert (heap_ok h P Fr ((c, v) :: V1 ++ V2) O) as Hok'.
  { eapply heap_ok_perm; [exact Hok|done|solve_Permutation]. }
  destruct (kfree_ok _ _ _ _ _ _ _ Hok') as (h' & P' & Fr' & -> & Hok2 & Hk).
  assert (Forall2 serves (V1 ++ V2) (L1 ++ L2)) as HF by (by apply Forall2_app).
  exists h'. split; [done|]. split; [by exists P', Fr', (V1 ++ V2)|].
  eapply (keeps_words_kept _ P Fr); [|done|done]. by eapply heap_ok_drop.
Qed.

(** The allocator's other clients leave the heap alone. *)
Lemma heap_inv_foreign h L O s' O' :
  heap_inv (h, L, O) → (∀ A, owned (phys h) (A ++ O) → owned s' (A ++ O') ∧
    ∀ x, owners x A ≠ 0%nat → word s' x = word (phys h) x) →
  heap_inv (set_phys s' h, L, O').
Proof.
  intros (P & Fr & V & Hok & HF) Hs. cbn [fst snd] in *.
  destruct (Hs P (hk_owned _ _ _ _ _ Hok)) as [Ho Hw]. exists P, Fr, V. split; [|done].
  eapply heap_ok_covered; [done|done|done|]. intros x Hx. apply Hw. intros HP. apply Hx, covers_zero.
  intros [c v] Hcv Hin. eapply placed_owners; [by apply (hk_placed _ _ _ _ _ Hok)|done|done].
Qed.

Lemma heap_inv_store h L O p n x w : heap_inv (h, L, O) → (p, n) ∈ L → p ≤ x → x + 8 ≤ p + n →
  heap_inv (set_phys (store x w (phys h)) h, L, O).
Proof.
  intros (P & Fr & V & Hok & HF) Hin Hlo Hhi. cbn [fst snd] in *.
  apply list_elem_of_lookup_1 in Hin as [i Hi].
  destruct (Forall2_lookup_r _ _ _ _ _ HF Hi) as ([c v] & Hc%list_elem_of_lookup_2 & (Hp & Hn & Hs)).
  cbn [fst snd] in *. unfold HDR in Hs.
  assert (placed (phys h) P c v) as Hpl by (apply (hk_placed _ _ _ _ _ Hok); set_solver).
  destruct (placed_range _ _ _ _ _ (hk_owned _ _ _ _ _ Hok) Hpl) as (Hc0 & Hc1 & _ & Hsz).
  assert (VIRT_TO_PHYS x = c + 8 + (x - p)) as Hx. by (subst p; apply ptr_offset; lia).
  set (a := VIRT_TO_PHYS x) in *. assert (in_chunk a (c, v)) as Hina by (unfold in_chunk; cbn; lia).
  exists P, Fr, V. split; [|done]. unfold store. fold a.
  assert (∀ c' v', (c', v') ∈ Fr ++ V → in_chunk a (c', v') → (c', v') = (c, v) ∧ (c', v') ∉ Fr) as Huniq.
  { intros c' v' Hel Hx'. apply list_elem_of_split in Hc as (V1 & V2 & ->).
    pose proof (hk_disj _ _ _ _ _ Hok a) as Hd. rewrite !covers_app, covers_cons in Hd.
    rewrite decide_True in Hd by done.
    pose proof (λ C, covers_elem a (c', v') C). set_unfold.
    naive_solver lia. }
  eapply heap_ok_move; [done| |done| |].
  - apply set_word_owned; [apply Hok|]. rewrite owners_app. pose proof (placed_owners _ _ _ _ a Hpl Hina). lia.
  - intros c' v' Hel. apply word_set_ne. intros ->.
    destruct (Huniq a v' Hel) as [[= -> ->] _]; [|lia].
    apply hdr_in_chunk. by eapply placed_size, (hk_placed _ _ _ _ _ Hok).
  - intros c' v' Hel. assert ((c', v') ∈ Fr ++ V) as Hel' by set_solver. apply word_set_ne. intros Ha.
    destruct (Huniq c' v' Hel') as [_ Hn']; [|done]. rewrite <- Ha.
    apply hdr_in_chunk. by eapply placed_size, (hk_placed _ _ _ _ _ Hok).
Qed.

Lemma heap_inv_step c c' : heap_step c c' → heap_inv c → heap_inv c'.
Proof.
  intros Hs. destruct Hs as [n p h h' L O Hn Hn' He|p n h h' L1 L2 O He|h h' L O He|p n x w h L O Hin Hlo Hhi
    |o a s' h L O Ho Ha Hne|a o s' h L O1 O2 Hf|x w h L O Hx]; intros Hi.
  - destruct (heap_inv_malloc h L O n Hi Hn Hn') as [?|(p' & h2 & ? & _ & Hi' & _)]; [congruence|].
    by assert (p' = p ∧ h2 = h') as [-> ->] by (split; congruence).
  - destruct (heap_inv_free h L1 L2 O p n Hi) as (h2 & ? & Hi' & _).
    by assert (h2 = h') as -> by congruence.
  - cbn in He. congruence.
  - by eapply heap_inv_store.
  - eapply heap_inv_foreign; [done|]. intros A Hown.
    destruct (fr_alloc_spec _ _ _ _ _ Hown Ho Ha) as [[-> _]|(_ & Hown' & Hw)]; [done|]. split.
    + eapply owned_perm; [exact Hown'|solve_Permutation].
    + intros x Hx. apply Hw. rewrite owners_cons, owners_app. lia.
  - eapply heap_inv_foreign; [done|]. intros A Hown.
    destruct (fr_free_spec a o (phys h) (A ++ O1 ++ O2)) as (s2 & Hf' & Hown' & Hw).
    { eapply owned_perm; [exact Hown|solve_Permutation]. }
    assert (s2 = s') as -> by congruence. split; [done|]. intros x Hx. apply Hw. rewrite owners_app. lia.
  - eapply heap_inv_foreign; [done|]. intros A Hown. pose proof (owned_disjoint _ _ x Hown) as Hd.
    rewrite owners_app in Hd. split; [apply set_word_owned; [done|rewrite owners_app; lia]|].
    intros y Hy. apply word_set_ne. intros ->. lia.
Qed.

Lemma heap_inv_steps c c' : rtc heap_step c c' → heap_inv c → heap_inv c'.
Proof. induction 1 as [|c1 c2 c3 Hs _ IH]; [done|]. intros Hi. by eapply IH, heap_inv_step. Qed.

Lemma heap_inv_start h O : (∀ b, freelist h b = 0) → owned (phys h) O → heap_inv (h, [], O).
Proof.
  intros Hf Ho. exists [], [], []. split; [|constructor]. constructor; cbn; try done; try set_solver; lia.
Qed.

(** C10. Whatever clients of the heap and of the frame allocator do, in whatever
    order: no byte of physical memory is in two live allocations, none is both
    in a live allocation and in a block another client holds, a live
    allocation is not the null pointer and [kfree] accepts it without
    panicking. *)
Theorem kheap_reachable_safe h0 O0 h L O :
  (∀ b, freelist h0 b = 0) → owned (phys h0) O0 →
  rtc heap_step (h0, [], O0) (h, L, O) →
  (∀ x, (held x L ≤ 1)%nat ∧ (held x L ≠ 0%nat → owners x O = 0%nat)) ∧
  (∀ p n, (p, n) ∈ L → p ≠ 0 ∧ ∃ h', kfree p h = Ret h').
Proof.
  intros Hf Ho Hr. assert (heap_inv (h, L, O)) as Hi by (by eapply heap_inv_steps; [|apply heap_inv_start]).
  split; [intros x; by apply (heap_inv_bytes h)|]. intros p n Hin. split.
  - destruct Hi as (P & Fr & V & Hok & HF). cbn [fst snd] in *.
    apply list_elem_of_lookup_1 in Hin as [i Hin].
    destruct (Forall2_lookup_r _ _ _ _ _ HF Hin) as ([c v] & Hc%list_elem_of_lookup_2 & Hp & _). cbn in Hp. subst p.
    eapply ptr_nonzero, (placed_range (phys h) P O c v); [apply Hok|apply (hk_placed _ _ _ _ _ Hok); set_solver].
  - apply list_elem_of_split in Hin as (L1 & L2 & ->).
    destruct (heap_inv_free h L1 L2 O p n Hi) as (h' & ? & _). by exists h'.
Qed.

(** In every reachable configuration [kmalloc] of any size up to [2^62]
    terminates: it panics or returns a fresh pointer.  Neither [kmalloc] nor
    [kfree] changes a word of an allocation that stays live or of another
    client's block. *)
Theorem kheap_contents_kept h0 O0 h L O :
  (∀ b, freelist h0 b = 0) → owned (phys h0) O0 →
  rtc heap_step (h0, [], O0) (h, L, O) →
  (∀ n, 0 ≤ n → n + HDR ≤ 2 ^ 62 →
     kmalloc n h = Panic ∨
     ∃ p h', kmalloc n h = Ret (p, h') ∧ (∀ x, holds x (p, n) → held x L = 0%nat ∧ owners x O = 0%nat) ∧
       ∀ x, held x L ≠ 0%nat ∨ owners x O ≠ 0%nat → word (phys h') x = word (phys h) x) ∧
  (∀ p n L1 L2 h', L = L1 ++ (p, n) :: L2 → kfree p h = Ret h' →
     ∀ x, held x (L1 ++ L2) ≠ 0%nat ∨ owners x O ≠ 0%nat → word (phys h') x = word (phys h) x).
Proof.
  intros Hf Ho Hr. assert (heap_inv (h, L, O)) as Hi by (by eapply heap_inv_steps; [|apply heap_inv_start]).
  split.
  - intros n Hn Hn'. destruct (heap_inv_malloc h L O n Hi Hn Hn') as [?|(p & h' & Hk & _ & Hi' & Hw)]; [by left|right].
    exists p, h'. split; [done|]. split; [|exact Hw]. intros x Hx.
    destruct (heap_inv_bytes _ _ _ x Hi') as [H1 H2]. unfold held in *.
    rewrite filter_cons_True in H1, H2 by done. cbn [length] in *. split; [lia|apply H2; lia].
  - intros p n L1 L2 h' -> Hk. destruct (heap_inv_free h L1 L2 O p n Hi) as (h2 & Hk' & _ & Hw).
    by assert (h2 = h') as -> by congruence.
Qed.
End heap_facts.

(** The size check of [kmalloc] wraps around: a request within eight bytes
    of [2^64] is served from the smallest bin, with a chunk of 16 bytes. *)
Theorem kmalloc_size_overflow {S} `{FrameLaws S} (h : heap S) n :
  2 ^ 64 - HDR ≤ n < 2 ^ 64 → kmalloc n h = kmalloc_small 0 h.
Proof.
  intros Hn. unfold HDR in Hn. unfold kmalloc. rewrite (proj2 (Z.eqb_neq n 0)) by lia.
  assert (u64 (n + HDR) = n + 8 - 2 ^ 64) as ->.
  { unfold u64, HDR. replace (n + 8) with (n + 8 - 2 ^ 64 + 1 * 2 ^ 64) by lia.
    rewrite Z.mod_add, Z.mod_small; lia. }
  rewrite (proj2 (Z.ltb_ge _ _)) by lia. unfold bin_of. cbn [up_to_pow].
  change (u64 (Z.shiftl 1 (Z.of_nat 4))) with 16. by rewrite (proj2 (Z.ltb_ge _ _)) by lia.
Qed.

Module KheapDemo.
(** The heap on top of the frame allocator of [PmmInit.Demo]: an allocation of
    100 bytes, then one of 9000 bytes that is released again. *)
Definition h0 : heap pmm_state := kheap_init 0x1000000 (Heap (λ _, 0) 0 0 0 Demo.s0).
Definition r1 := get_ret (0, h0) (kmalloc 100 h0).
Definition h1 := r1.2.
Definition r2 := get_ret (0, h0) (kmalloc 9000 h1).
Definition h2 := r2.2.
Definition h3 := get_ret h0 (kfree r2.1 h2).

Lemma small_eq : kmalloc 100 h0 = Ret (r1.1, h1).
Proof. refine (ret_pair (0, h0) (kmalloc 100 h0) _). by_eval. Qed.
Lemma large_eq : kmalloc 9000 h1 = Ret (r2.1, h2).
Proof. refine (ret_pair (0, h0) (kmalloc 9000 h1) _). by_eval. Qed.
Lemma freed_eq : kfree r2.1 h2 = Ret h3.
Proof. refine (ret_eta h0 (kfree r2.1 h2) _). by_eval. Qed.

Lemma h0_owned : owned (phys h0) [].
Proof. unfold h0, kheap_init. cbn [phys]. exact (ex_intro _ Demo.s0 (pool_start Demo.s0 (proj2 Demo.s0_spec))). Qed.
Lemma steps : rtc heap_step (h0, [], []) (h2, [(r2.1, 9000); (r1.1, 100)], []).
Proof.
  eapply rtc_l; [apply (hs_malloc 100 r1.1 h0 h1); [lia|unfold HDR; lia|exact small_eq]|].
  apply rtc_once. apply (hs_malloc 9000 r2.1 h1 h2); [lia|unfold HDR; lia|exact large_eq].
Qed.
End KheapDemo.

(** [heap_used] drifts: a large allocation adds the size rounded up to pages
    and its release subtracts the size of the whole block, so allocating and
    releasing 9000 bytes leaves the counter one page lower. *)
Theorem kheap_used_drifts :
  kmalloc 9000 KheapDemo.h1 = Ret (KheapDemo.r2.1, KheapDemo.h2) ∧
  kfree KheapDemo.r2.1 KheapDemo.h2 = Ret KheapDemo.h3 ∧
  heap_used KheapDemo.h1 = 128 ∧ heap_used KheapDemo.h3 = 2 ^ 64 + 128 - 4096.
Proof.
  split; [exact KheapDemo.large_eq|]. split; [exact KheapDemo.freed_eq|]. split; by_eval.
Qed.

Lemma kheap_reachable_safe_witness : ∃ h', kfree KheapDemo.r1.1 KheapDemo.h2 = Ret h'.
Proof.
  destruct (kheap_reachable_safe KheapDemo.h0 [] KheapDemo.h2 _ [] (λ _, eq_refl)
    KheapDemo.h0_owned KheapDemo.steps) as [_ Hfree].
  apply (Hfree KheapDemo.r1.1 100). apply list_elem_of_further, list_elem_of_here.
Defined.

Lemma kheap_contents_kept_witness :
  word (phys KheapDemo.h3) (VIRT_TO_PHYS KheapDemo.r1.1) =
  word (phys KheapDemo.h2) (VIRT_TO_PHYS KheapDemo.r1.1).
Proof.
  destruct (kheap_contents_kept KheapDemo.h0 [] KheapDemo.h2 _ [] (λ _, eq_refl)
    KheapDemo.h0_owned KheapDemo.steps) as [_ Hfree].
  apply (Hfree KheapDemo.r2.1 9000 [] [(KheapDemo.r1.1, 100)] KheapDemo.h3 eq_refl KheapDemo.freed_eq).
  left. by_eval.
Defined.

Lemma kmalloc_size_overflow_witness :
  kmalloc (2 ^ 64 - 1) KheapDemo.h0 = kmalloc_small 0 KheapDemo.h0.
Proof. apply (kmalloc_size_overflow KheapDemo.h0 (2 ^ 64 - 1)). unfold HDR. lia. Defined.
