(* ===== verification/Vmm.v ===== *)
(** Virtual memory ([kernel/mm/vmm.c]): the four-level page tables of a user
    address space, the master kernel tables, and fork's deep copy.

    A table is a physical page of 512 words; [ptable_ptr] reaches it through
    the direct map, so entry [i] of the table at [t] is the physical word at
    [t + 8 * i].  The frame allocator is a parameter ([Frames]).  The TLB
    ([invlpg], the load of [cr3]) is not modelled. *)
From S2P Require Import Prelude Pmm PmmFacts PmmInit Frames.

Definition PG_P : Z := 0x001.
Definition PG_W : Z := 0x002.
Definition PG_U : Z := 0x004.
Definition PG_PS : Z := 0x080.

Definition PD_HI : Z := 0x54000.
Definition USER_SLOT : Z := 255.
Definition ALIAS_BASE : Z := 0xffffffff80000000.

Definition present (e : Z) : bool := negb (Z.land e PG_P =? 0).
Definition large (e : Z) : bool := negb (Z.land e PG_PS =? 0).
Definition frame_of (e : Z) : Z := Z.land e (Z.lnot 0xfff).
Definition big_frame_of (e : Z) : Z := Z.land e (Z.lnot 0x1fffff).

Definition i4_of (va : Z) : Z := Z.land (Z.shiftr va 39) 511.
Definition i3_of (va : Z) : Z := Z.land (Z.shiftr va 30) 511.
Definition i2_of (va : Z) : Z := Z.land (Z.shiftr va 21) 511.
Definition i1_of (va : Z) : Z := Z.land (Z.shiftr va 12) 511.

Definition vmm_is_user_range (lo hi : Z) : bool :=
  (USER_BASE <=? lo) && (hi <=? USER_MAX_VMA) && (lo <? hi).

Section vmm.
Context {S : Type} `{Frames S}.
Implicit Types (s : S).

Definition entry s (t i : Z) : Z := word s (t + 8 * i).
Definition set_entry (t i v : Z) s : S := set_word (t + 8 * i) v s.

(** [memset(ptable_ptr(t), 0, PAGE_SIZE)] and the page copy of fork. *)
Definition zero_page (t : Z) s : S := for_loop (λ i, set_entry t (Z.of_nat i) 0) 0 512 s.
Definition copy_page (dst src : Z) s : S :=
  for_loop (λ i s, set_entry dst (Z.of_nat i) (entry s src (Z.of_nat i)) s) 0 512 s.

(** [pmm_alloc] that must succeed, the page cleared. *)
Definition new_table s : outcome (Z * S) :=
  let '(t, s) := fr_alloc 0 s in
  if t =? 0 then Panic else Ret (t, zero_page t s).

Definition ensure_table (parent idx extra_flags : Z) s : outcome (Z * S) :=
  if present (entry s parent idx) then Ret (frame_of (entry s parent idx), s)
  else
    '(t, s) ← new_table s;
    Ret (t, set_entry parent idx (Z.lor (Z.lor (Z.lor t PG_P) PG_W) extra_flags) s).

Definition vmm_map_user (root va pa : Z) (writable user : bool) s : outcome (Z * S) :=
  if (va <? USER_BASE) || (USER_MAX_VMA <=? va) || negb (Z.land va 0xfff =? 0)
  then Ret (LNXRM_EFAIL, s)
  else
    let uf := if user then PG_U else 0 in
    '(pdpt, s) ← ensure_table root (i4_of va) PG_U s;
    '(pd, s) ← ensure_table pdpt (i3_of va) PG_U s;
    '(pt, s) ← ensure_table pd (i2_of va) PG_U s;
    Ret (0, set_entry pt (i1_of va)
              (Z.lor (Z.lor (Z.lor pa PG_P) (if writable then PG_W else 0)) uf) s).

(** [walk]: no leaf, the address of the page table and the index of the
    leaf entry, or a copy of a 2 MiB leaf. *)
Inductive leaf := NoLeaf | Pte (pt i1 : Z) | Big (e : Z).

Definition walk (root va : Z) s : leaf :=
  let e4 := entry s root (i4_of va) in
  if negb (present e4) then NoLeaf else
  let e3 := entry s (frame_of e4) (i3_of va) in
  if negb (present e3) then NoLeaf else
  let e2 := entry s (frame_of e3) (i2_of va) in
  if negb (present e2) then NoLeaf else
  if large e2 then Big e2 else Pte (frame_of e2) (i1_of va).

Definition vmm_translate_in (root va : Z) s : Z :=
  if (ALIAS_BASE <=? va) && (va <? u64 (ALIAS_BASE + 0x100000000)) then va - ALIAS_BASE else
  match walk root va s with
  | NoLeaf => 0
  | Big e => if present e then Z.lor (big_frame_of e) (Z.land va 0x1fffff) else 0
  | Pte pt i1 =>
      let e := entry s pt i1 in
      if present e then Z.lor (frame_of e) (Z.land va 0xfff) else 0
  end.

Definition vmm_unmap_user (root va : Z) s : Z * S :=
  match walk root va s with
  | NoLeaf => (0, s)
  | Big e =>
      if negb (present e) then (0, s) else
      let pd := frame_of (entry s (frame_of (entry s root (i4_of va))) (i3_of va)) in
      (big_frame_of (entry s pd (i2_of va)), set_entry pd (i2_of va) 0 s)
  | Pte pt i1 =>
      if negb (present (entry s pt i1)) then (0, s) else
      (frame_of (entry s pt i1), set_entry pt i1 0 s)
  end.

(** The copy of the master table, slot by slot. *)
Definition vmm_new_user_aspace (pml4_phys : Z) s : outcome (Z * S) :=
  '(root, s) ← new_table s;
  Ret (root, for_loop (λ i s,
    if Z.of_nat i =? USER_SLOT then s
    else set_entry root (Z.of_nat i) (entry s pml4_phys (Z.of_nat i)) s) 0 512 s).

(** ** Release

    The loops re-read the entry they stand on, as the code does; a release
    that the allocator does not survive leaves the model [Stuck]. *)

Definition free_frame (pa : Z) (order : nat) s : outcome S :=
  match fr_free pa order s with Some s => Ret s | None => Stuck end.

(** The entries of a page table. *)
Definition free_pt (pt : Z) s : outcome S :=
  for_loop_o (λ i s,
    let e := entry s pt (Z.of_nat i) in
    if present e then free_frame (frame_of e) 0 s else Ret s) 0 512 s.

Definition free_pd (pd : Z) s : outcome S :=
  for_loop_o (λ i s,
    let e := entry s pd (Z.of_nat i) in
    if negb (present e) then Ret s
    else if large e then free_frame (big_frame_of e) 9 s
    else s ← free_pt (frame_of e) s; free_frame (frame_of (entry s pd (Z.of_nat i))) 0 s) 0 512 s.

Definition free_pdpt (pdpt : Z) s : outcome S :=
  for_loop_o (λ i s,
    let e := entry s pdpt (Z.of_nat i) in
    if negb (present e) then Ret s
    else s ← free_pd (frame_of e) s; free_frame (frame_of (entry s pdpt (Z.of_nat i))) 0 s) 0 512 s.

Definition vmm_destroy_user_aspace (root : Z) s : outcome S :=
  s ← for_loop_o (λ i s,
    let e := entry s root (Z.of_nat i) in
    if negb (present e) || (i =? 0)%nat || (i =? 511)%nat then Ret s
    else s ← free_pdpt (frame_of e) s; free_frame (frame_of (entry s root (Z.of_nat i))) 0 s) 0 512 s;
  free_frame root 0 s.

(** ** Kernel mappings *)

(** The 2 MiB aliases of the high half: [lo] is the end of the kernel image,
    [fb] the framebuffer's range (equal bounds when there is none).  The loop
    stops at 3 GiB, so 1536 rounds are enough. *)
Definition window_slot (idx : Z) : bool :=
  (idx =? 96) || (idx =? 97) || (idx =? 104) || (idx =? 112) || (idx =? 128).

Fixpoint alias_loop (fuel : nat) (pa hi fb_lo fb_hi : Z) s : S :=
  match fuel with
  | O => s
  | Datatypes.S f =>
      if (pa <? hi) && (pa <? 0xC0000000) then
        let idx := Z.land (Z.shiftr pa 21) 511 in
        let s :=
          if window_slot idx then s
          else if negb (fb_hi =? 0) && (pa <? fb_hi) && (fb_lo <? u64 (pa + 0x200000)) then s
          else set_entry PD_HI idx (Z.lor (Z.lor (Z.lor pa PG_P) PG_W) PG_PS) s in
        alias_loop f (u64 (pa + 0x200000)) hi fb_lo fb_hi s
      else s
  end.

Definition vmm_init (kernel_end heap_phys heap_size fb_lo fb_hi : Z) s : S :=
  let lo := ALIGN_UP (VIRT_TO_PHYS kernel_end) 0x200000 in
  let hi := ALIGN_UP (u64 (heap_phys + heap_size)) 0x200000 in
  let s := alias_loop 1536 lo hi fb_lo fb_hi s in
  for_loop (λ i, set_entry PD_HI (256 + Z.of_nat i)
    (Z.lor (Z.lor (Z.lor (u64 (heap_phys + Z.of_nat i * 0x200000)) PG_P) PG_W) PG_PS)) 0 16 s.

Definition vmm_map_kernel_page (va pa flags : Z) s : outcome S :=
  let pd_idx := i2_of va in
  s ← (if present (entry s PD_HI pd_idx) then Ret s
       else '(pt_pa, s) ← new_table s;
            Ret (set_entry PD_HI pd_idx (Z.lor (Z.lor pt_pa PG_P) PG_W) s));
  let pt := frame_of (entry s PD_HI pd_idx) in
  Ret (set_entry pt (i1_of va) (Z.lor (Z.lor (Z.lor (frame_of pa) PG_P) PG_W) flags) s).

(** ** Fork's deep copy *)

Definition dup_cleanup (dst : Z) s : outcome S :=
  let e := entry s dst USER_SLOT in
  if negb (present e) then Ret s else
  s ← free_pdpt (frame_of e) s;
  s ← free_frame (frame_of (entry s dst USER_SLOT)) 0 s;
  Ret (set_entry dst USER_SLOT 0 s).

(** [pmm_alloc] that may fail, the page cleared and linked to its parent. *)
Definition dup_table (parent idx : Z) s : option (Z * S) :=
  let '(t, s) := fr_alloc 0 s in
  if t =? 0 then None
  else Some (t, set_entry parent idx (Z.lor (Z.lor (Z.lor t PG_P) PG_W) PG_U) (zero_page t s)).

(** A loop that [goto fail] leaves early: the state and whether it got
    through. *)
Fixpoint for_dup (body : nat → S → bool * S) (i n : nat) s : bool * S :=
  match n with
  | O => (true, s)
  | Datatypes.S n' =>
      let '(ok, s) := body i s in
      if ok then for_dup body (Datatypes.S i) n' s else (false, s)
  end.

Definition dup_va (i3 i2 i1 : nat) : Z :=
  Z.lor (Z.lor (Z.lor (Z.shiftl USER_SLOT 39) (Z.shiftl (Z.of_nat i3) 30))
    (Z.shiftl (Z.of_nat i2) 21)) (Z.shiftl (Z.of_nat i1) 12).

(** The source pages are read through the current address space, which is
    [src]: the bytes at [va] are those of the frame [va] translates to. *)
Definition dup_pt (src spt dpt : Z) (i3 i2 i1 : nat) s : bool * S :=
  let e := entry s spt (Z.of_nat i1) in
  if negb (present e) then (true, s) else
  let va := dup_va i3 i2 i1 in
  if vmm_translate_in src va s =? 0 then (true, s) else
  let '(npa, s) := fr_alloc 0 s in
  if npa =? 0 then (false, s) else
  let s := copy_page npa (vmm_translate_in src va s) s in
  (true, set_entry dpt (Z.of_nat i1) (Z.lor npa (Z.land (entry s spt (Z.of_nat i1)) 0xfff)) s).

Definition dup_pd (src spd dpd : Z) (i3 i2 : nat) s : bool * S :=
  let e := entry s spd (Z.of_nat i2) in
  if negb (present e) then (true, s) else
  match dup_table dpd (Z.of_nat i2) s with
  | None => (false, (fr_alloc 0 s).2)
  | Some (dpt, s) => for_dup (dup_pt src (frame_of (entry s spd (Z.of_nat i2))) dpt i3 i2) 0 512 s
  end.

Definition dup_pdpt (src sdpt ddpt : Z) (i3 : nat) s : bool * S :=
  let e := entry s sdpt (Z.of_nat i3) in
  if negb (present e) then (true, s) else
  match dup_table ddpt (Z.of_nat i3) s with
  | None => (false, (fr_alloc 0 s).2)
  | Some (dpd, s) => for_dup (dup_pd src (frame_of (entry s sdpt (Z.of_nat i3))) dpd i3) 0 512 s
  end.

Definition dup_user_aspace (src dst : Z) s : outcome (Z * S) :=
  let e := entry s src USER_SLOT in
  if negb (present e) then Ret (0, s) else
  match dup_table dst USER_SLOT s with
  | None => Ret (LNXRM_EFAIL, (fr_alloc 0 s).2)
  | Some (d3, s) =>
      let '(ok, s) := for_dup (dup_pdpt src (frame_of e) d3) 0 512 s in
      if ok then Ret (0, s) else s ← dup_cleanup dst s; Ret (LNXRM_EFAIL, s)
  end.
End vmm.
