(* ===== verification/VmmFacts.v ===== *)
(** User address spaces are trees of frames: mapping and unmapping a page
    changes the translation of that page only, creating and destroying a space
    takes and returns exactly the frames of the tree. *)
From S2P Require Import Prelude Pmm PmmFacts PmmInit Frames Vmm.

(** ** Entries *)

Lemma frame_of_div e : frame_of e = e / 4096 * 4096.
Proof. apply (land_lnot_mask e 12). lia. Qed.

Lemma land_aligned t m : (4096 | t) → 0 ≤ m < 4096 → Z.land t m = 0.
Proof.
  intros [q ->] Hm. apply Z.bits_inj'. intros n Hn. rewrite Z.land_spec, Z.bits_0.
  destruct (Z.lt_ge_cases n 12).
  - change 4096 with (2 ^ 12). rewrite Z.mul_pow2_bits_low by lia. done.
  - rewrite <- (Z.mod_small m (2 ^ 12)) by lia. rewrite Z.mod_pow2_bits_high by lia.
    apply andb_false_r.
Qed.

Lemma lor_aligned t f : (4096 | t) → 0 ≤ f < 4096 → Z.lor t f = t + f.
Proof. intros Ht Hf. rewrite Z.add_nocarry_lxor, Z.lxor_lor by (by apply land_aligned). done. Qed.

(** An entry is the frame and its flags. *)
Lemma entry_flags t f : (4096 | t) → 0 ≤ f < 4096 →
  frame_of (Z.lor t f) = t ∧ present (Z.lor t f) = present f ∧ large (Z.lor t f) = large f.
Proof.
  intros Ht Hf. split; [|split].
  - rewrite frame_of_div, lor_aligned by done. destruct Ht as [q ->].
    rewrite Z.div_add_l, Z.div_small by lia. lia.
  - unfold present. by rewrite Z.land_lor_distr_l, land_aligned by (done || unfold PG_P; lia).
  - unfold large. by rewrite Z.land_lor_distr_l, land_aligned by (done || unfold PG_PS; lia).
Qed.

(** The indices of a table. *)
Definition slots : list nat := seq 0 512.

Lemma slots_split i : 0 ≤ i < 512 →
  slots = seq 0 (Z.to_nat i) ++ Z.to_nat i :: seq (S (Z.to_nat i)) (511 - Z.to_nat i).
Proof.
  intros Hi. unfold slots. replace 512%nat with (Z.to_nat i + (1 + (511 - Z.to_nat i)))%nat by lia.
  by rewrite seq_app.
Qed.

Lemma slots_ext {A} (f g : nat → A) : (∀ i : nat, (i < 512)%nat → f i = g i) → f <$> slots = g <$> slots.
Proof.
  intros Hfg. apply list_fmap_ext. intros n j Hj. apply lookup_seq in Hj as [-> Hn]. by apply Hfg.
Qed.

Lemma elem_of_slots i : i ∈ slots ↔ (i < 512)%nat.
Proof. unfold slots. rewrite elem_of_seq. lia. Qed.

Lemma slots_seq : slots = seq 0 512.
Proof. done. Qed.

#[global] Opaque slots.

Lemma perm_mid {A} (a b c d : list A) : a ++ b ++ c ++ d ≡ₚ a ++ c ++ b ++ d.
Proof. solve_Permutation. Qed.

Section trees.
Context {S : Type} `{FrameLaws S}.
Implicit Types (s : S) (F A R : list (Z * nat)).

(** ** Words that stay as they are *)

Definition own_words F s s' : Prop := ∀ x, owners x F ≠ 0%nat → word s' x = word s x.
Definition foreign_words s s' : Prop := ∀ x, foreign s x → foreign s' x ∧ word s' x = word s x.

Lemma owners_exists x F : owners x F ≠ 0%nat → ∃ b, b ∈ F ∧ in_blk x b.1 b.2.
Proof.
  unfold owners. intros Hx. destruct (filter (λ b, in_blk x b.1 b.2) F) as [|b l] eqn:E; [done|].
  assert (b ∈ filter (λ b, in_blk x b.1 b.2) F) as [? ?]%list_elem_of_filter by (rewrite E; set_solver).
  by exists b.
Qed.

Lemma owners_sub x F F' : (∀ b, b ∈ F' → b ∈ F) → owners x F' ≠ 0%nat → owners x F ≠ 0%nat.
Proof. intros Hs ([a o] & Hb & Hin)%owners_exists. eapply owners_pos; [by apply Hs|done]. Qed.

Lemma own_words_sub F F' s s' : (∀ b, b ∈ F' → b ∈ F) → own_words F s s' → own_words F' s s'.
Proof. intros Hs Hw x Hx. apply Hw. by eapply owners_sub. Qed.

Lemma own_words_trans F s1 s2 s3 : own_words F s1 s2 → own_words F s2 s3 → own_words F s1 s3.
Proof. intros H1 H2 x Hx. by rewrite H2, H1. Qed.

Lemma foreign_words_refl s : foreign_words s s.
Proof. by intros x Hx. Qed.
Lemma foreign_words_trans s1 s2 s3 : foreign_words s1 s2 → foreign_words s2 s3 → foreign_words s1 s3.
Proof. intros H1 H2 x Hx. destruct (H1 x Hx) as [Hx' <-]. by apply H2. Qed.

Lemma in_table t i : 0 ≤ i < 512 → in_blk (t + 8 * i) t 0.
Proof. intros Hi. unfold in_blk. change (blk_size 0) with 4096. lia. Qed.

Lemma entry_own F s s' t i : (t, 0%nat) ∈ F → 0 ≤ i < 512 → own_words F s s' → entry s' t i = entry s t i.
Proof. intros Ht Hi Hw. apply Hw. eapply owners_pos; [done|by apply in_table]. Qed.

Lemma own_entry F s s' t i : own_words F s s' → (t, 0%nat) ∈ F → 0 ≤ i < 512 → entry s' t i = entry s t i.
Proof. intros. by eapply entry_own. Qed.

Lemma owned_sub_block s F a o : owned s F → (a, o) ∈ F → (o < MAX_ORDER)%nat ∧ (blk_size o | a) ∧ 0 < a.
Proof. intros Ho Hin. destruct (owned_block s F a o Ho Hin) as (? & ? & ? & _). done. Qed.

Lemma owned_page s F t : owned s F → (t, 0%nat) ∈ F → (4096 | t) ∧ 0 < t.
Proof. intros Ho Hin. by destruct (owned_sub_block s F t 0 Ho Hin) as (_ & ? & ?). Qed.

(** ** The frames of a table

    [frames_of k s t] are the frames reachable from the table at [t], [k]
    levels above the pages, children before parents.  User mappings are made
    of single pages: a 2 MiB entry is listed as a block that no allocator
    hands out, so a tree of owned frames has none. *)
Fixpoint frames_of (k : nat) s (t : Z) : list (Z * nat) :=
  match k with
  | O => [(t, 0%nat)]
  | Datatypes.S k' =>
      mjoin ((λ i : nat,
        let e := entry s t (Z.of_nat i) in
        if present e then
          if large e && (k' =? 1)%nat then [(0, MAX_ORDER)] else frames_of k' s (frame_of e)
        else []) <$> slots) ++ [(t, 0%nat)]
  end.

Definition kids (k : nat) s (e : Z) : list (Z * nat) :=
  if present e then
    if large e && (k =? 1)%nat then [(0, MAX_ORDER)] else frames_of k s (frame_of e)
  else [].

(** The frame a leaf entry refers to. *)
Definition page (e : Z) : list (Z * nat) := if present e then [(frame_of e, 0%nat)] else [].
Lemma kids_page s e : kids 0 s e = page e.
Proof. unfold kids, page. destruct (present e); [|done]. by destruct (large e). Qed.

(** The subtrees of [t] but the one at [i], and [t] itself. *)
Definition siblings (k : nat) s (t i : Z) : list (Z * nat) :=
  mjoin ((λ j : nat, kids k s (entry s t (Z.of_nat j))) <$> seq 0 (Z.to_nat i)) ++
  mjoin ((λ j : nat, kids k s (entry s t (Z.of_nat j))) <$> seq (Datatypes.S (Z.to_nat i)) (511 - Z.to_nat i)).
Definition others (k : nat) s (t i : Z) : list (Z * nat) := (t, 0%nat) :: siblings k s t i.

(** The leaf entry a path of indices leads to, 0 when a table is missing. *)
Fixpoint leaf_at (k : nat) s (t : Z) (p : list Z) : Z :=
  match k, p with
  | Datatypes.S k', i :: p' =>
      let e := entry s t i in
      match k' with
      | O => e
      | _ => if present e then leaf_at k' s (frame_of e) p' else 0
      end
  | _, _ => 0
  end.

Definition path_ok (k : nat) (p : list Z) : Prop := length p = k ∧ Forall (λ i, 0 ≤ i < 512) p.

Lemma frames_of_S k s t :
  frames_of (Datatypes.S k) s t =
  mjoin ((λ i : nat, kids k s (entry s t (Z.of_nat i))) <$> slots) ++ [(t, 0%nat)].
Proof. done. Qed.

Lemma frames_of_here k s t : (t, 0%nat) ∈ frames_of k s t.
Proof.
  destruct k; [apply list_elem_of_here|]. rewrite frames_of_S.
  apply elem_of_app. right. apply list_elem_of_here.
Qed.

Lemma frames_split k s t i : 0 ≤ i < 512 →
  frames_of (Datatypes.S k) s t ≡ₚ kids k s (entry s t i) ++ others k s t i.
Proof.
  intros Hi. rewrite frames_of_S, (slots_split i) by done. unfold others, siblings.
  rewrite fmap_app, fmap_cons, join_app. cbn [mjoin list_join]. rewrite Z2Nat.id by lia. solve_Permutation.
Qed.
(** Subtrees depend on the words of their own frames only. *)
Lemma frames_of_ext k s s' : ∀ t, own_words (frames_of k s t) s s' → frames_of k s' t = frames_of k s t.
Proof.
  induction k as [|k IH]; intros t Hw; [done|]. rewrite !frames_of_S in *.
  apply (f_equal (λ l, mjoin l ++ _)), slots_ext. intros n Hn.
  assert (entry s' t (Z.of_nat n) = entry s t (Z.of_nat n)) as ->.
  { apply (own_entry _ s s' t _ Hw); [|lia]. apply elem_of_app. right. apply list_elem_of_here. }
  unfold kids. destruct (present _) eqn:Ep; [|done]. destruct (_ && _) eqn:El; [done|]. apply IH.
  eapply own_words_sub; [|exact Hw]. intros b Hb. apply elem_of_app. left.
  apply list_elem_of_join. eexists. split; [exact Hb|]. apply list_elem_of_fmap.
  exists n. split; [|by apply elem_of_slots]. unfold kids. by rewrite Ep, El.
Qed.

Lemma kids_ext k s s' e : own_words (kids k s e) s s' → kids k s' e = kids k s e.
Proof.
  unfold kids. destruct (present e); [|done]. destruct (_ && _); [done|]. apply frames_of_ext.
Qed.

Lemma kids_siblings k s t i j b : 0 ≤ i < 512 → 0 ≤ j < 512 → j ≠ i →
  b ∈ kids k s (entry s t j) → b ∈ siblings k s t i.
Proof.
  intros Hi Hj Hne Hb. unfold siblings. rewrite !elem_of_app, !list_elem_of_join.
  destruct (Z.lt_ge_cases j i); [left|right]; eexists; (split; [exact Hb|]);
    apply list_elem_of_fmap; exists (Z.to_nat j); rewrite Z2Nat.id by lia; (split; [done|]);
    apply elem_of_seq; lia.
Qed.

(** The words of [F] but the one at [x]. *)
Definition but (x : Z) F s s' : Prop := ∀ y, owners y F ≠ 0%nat → y ≠ x → word s' y = word s y.

Lemma own_but x F s s' : own_words F s s' → but x F s s'.
Proof. intros Hw y Hy _. by apply Hw. Qed.

(** Changing entry [i] of [t] and what hangs there leaves the rest of the
    tree as it is. *)
Lemma others_ext k s s' t i Y : 0 ≤ i < 512 → owned s (others k s t i ++ Y) →
  but (t + 8 * i) (others k s t i) s s' →
  others k s' t i = others k s t i ∧ own_words (siblings k s t i) s s' ∧
  ∀ j, 0 ≤ j < 512 → j ≠ i → entry s' t j = entry s t j.
Proof.
  intros Hi Ho Hb.
  assert (own_words (siblings k s t i) s s') as Hw.
  { intros x Hx. apply Hb; unfold others; rewrite ?owners_cons; [lia|]. intros ->.
    pose proof (owned_disjoint _ _ (t + 8 * i) Ho) as Hd. unfold others in Hd. cbn [app] in Hd.
    rewrite owners_cons, owners_app in Hd. cbn [fst snd] in Hd.
    rewrite decide_True in Hd by (by apply in_table). lia. }
  assert (∀ j, 0 ≤ j < 512 → j ≠ i → entry s' t j = entry s t j) as He.
  { intros j Hj Hne. apply Hb; [|lia]. eapply owners_pos; [apply list_elem_of_here|by apply in_table]. }
  split; [|done]. unfold others, siblings. apply (f_equal (cons _)).
  assert (∀ j, 0 ≤ j < 512 → j ≠ i → kids k s' (entry s' t j) = kids k s (entry s t j)) as Hk.
  { intros j Hj Hne. rewrite He by done. apply kids_ext. eapply own_words_sub; [|exact Hw].
    intros b. by apply (kids_siblings k s t i j). }
  f_equal; f_equal; apply list_fmap_ext; intros n j Hn;
    apply lookup_seq in Hn as [-> Hn]; apply Hk; lia.
Qed.

(** A large entry is never owned. *)
Lemma owned_no_large k s e A : owned s A → (∀ b, b ∈ kids k s e → b ∈ A) → present e = true →
  large e && (k =? 1)%nat = false ∧ kids k s e = frames_of k s (frame_of e).
Proof.
  intros Ho Hs Hp. unfold kids in *. rewrite Hp in *. destruct (large e && _); [|done].
  destruct (owned_sub_block s A 0 MAX_ORDER Ho) as (? & _); [apply Hs; set_solver|lia].
Qed.

Lemma leaf_at_S k s t i p :
  leaf_at (Datatypes.S (Datatypes.S k)) s t (i :: p) =
  if present (entry s t i) then leaf_at (Datatypes.S k) s (frame_of (entry s t i)) p else 0.
Proof. done. Qed.

Lemma leaf_at_ext k s s' A : ∀ t p, path_ok k p → owned s A → (∀ b, b ∈ frames_of k s t → b ∈ A) →
  own_words (frames_of k s t) s s' → leaf_at k s' t p = leaf_at k s t p.
Proof.
  induction k as [|k IH]; intros t p [Hl Hp] Ho HA Hw; [done|]. destruct p as [|i p]; [done|].
  inversion Hp as [|? ? Hi Hp']; subst. cbn [leaf_at].
  rewrite (own_entry _ s s' t i Hw) by (done || apply frames_of_here).
  destruct k as [|k]; [done|]. destruct (present (entry s t i)) eqn:Ep; [|done].
  assert (∀ b, b ∈ kids (Datatypes.S k) s (entry s t i) → b ∈ frames_of (Datatypes.S (Datatypes.S k)) s t) as Hsub.
  { intros b Hb. rewrite (frames_split _ s t i) by done. apply elem_of_app. by left. }
  destruct (owned_no_large (Datatypes.S k) s (entry s t i) A Ho) as [_ Hk]; [auto|done|].
  rewrite Hk in Hsub. apply IH; [split; [by inversion Hl|done]|done|auto|].
  eapply own_words_sub; [|exact Hw]. done.
Qed.

(** ** Filling a page *)

Definition outside (t : Z) s s' : Prop := ∀ x, ¬ in_blk x t 0 → word s' x = word s x.

Lemma set_entry_spec t i v s A : owned s A → (t, 0%nat) ∈ A → 0 ≤ i < 512 →
  owned (set_entry t i v s) A ∧ outside t s (set_entry t i v s) ∧
  (∀ x, foreign s x → foreign (set_entry t i v s) x) ∧
  ∀ j, entry (set_entry t i v s) t j = if decide (j = i) then v else entry s t j.
Proof.
  intros Ho Ht Hi. pose proof (in_table t i Hi) as Hin. unfold set_entry, entry. split_and!.
  - apply set_word_owned; [done|]. by eapply owners_pos.
  - intros x Hx. apply word_set_ne. by intros ->.
  - intros x. apply set_word_foreign.
  - intros j. rewrite word_set. destruct (decide (j = i)) as [->|]; [by rewrite decide_True|].
    by rewrite decide_False by lia.
Qed.

(** A loop that stores [f i] in the entries of [t] that [c] does not skip. *)
Lemma fill_spec (c : nat → bool) (f : nat → S → Z) t A n : ∀ i s,
  (∀ j s1 s2, (j < 512)%nat → outside t s1 s2 → f j s2 = f j s1) →
  owned s A → (t, 0%nat) ∈ A → (i + n ≤ 512)%nat →
  let s' := for_loop (λ i s, if c i then s else set_entry t (Z.of_nat i) (f i s) s) i n s in
  owned s' A ∧ outside t s s' ∧ (∀ x, foreign s x → foreign s' x) ∧
  ∀ j : nat, entry s' t (Z.of_nat j) =
    if decide (i ≤ j < i + n)%nat then if c j then entry s t (Z.of_nat j) else f j s
    else entry s t (Z.of_nat j).
Proof.
  induction n as [|n IH]; intros i s Hf Ho Ht Hi s'.
  - subst s'. cbn [for_loop]. split_and!; [done..|]. intros j. by rewrite decide_False by lia.
  - set (s1 := if c i then s else set_entry t (Z.of_nat i) (f i s) s).
    assert (owned s1 A ∧ outside t s s1 ∧ (∀ x, foreign s x → foreign s1 x) ∧
      ∀ j : nat, entry s1 t (Z.of_nat j) = if decide (j = i) then if c j then entry s t (Z.of_nat j) else f j s
                                 else entry s t (Z.of_nat j)) as (Ho1 & Hout1 & Hfo1 & He1).
    { subst s1. destruct (c i) eqn:E.
      - split_and!; [done..|]. intros j. destruct (decide (j = i)) as [->|]; [by rewrite E|done].
      - destruct (set_entry_spec t (Z.of_nat i) (f i s) s A Ho Ht) as (? & ? & ? & He); [lia|].
        split_and!; [done..|]. intros j. rewrite He. destruct (decide (j = i)) as [->|].
        + rewrite decide_True by done. by rewrite E.
        + by rewrite decide_False by lia. }
    destruct (IH (Datatypes.S i) s1 Hf Ho1 Ht) as (Ho2 & Hout2 & Hfo2 & He2); [lia|].
    change s' with (for_loop (λ i s, if c i then s else set_entry t (Z.of_nat i) (f i s) s) (Datatypes.S i) n s1).
    split_and!; [done| |by auto|].
    + intros x Hx. rewrite Hout2, Hout1; done.
    + intros j. rewrite He2, He1. pose proof (λ Hj, Hf j s s1 Hj Hout1) as Hfj.
      destruct (decide (Datatypes.S i ≤ j < _)%nat); destruct (decide (j = i)); destruct (decide (i ≤ j < _)%nat);
        rewrite ?Hfj by lia; (done || lia).
Qed.

Lemma zero_page_spec t s A : owned s A → (t, 0%nat) ∈ A →
  owned (zero_page t s) A ∧ outside t s (zero_page t s) ∧
  (∀ x, foreign s x → foreign (zero_page t s) x) ∧
  ∀ i, 0 ≤ i < 512 → entry (zero_page t s) t i = 0.
Proof.
  intros Ho Ht. destruct (fill_spec (λ _, false) (λ _ _, 0) t A 512 0 s) as (? & ? & ? & He); [done..|].
  split_and!; [done..|]. intros i Hi. specialize (He (Z.to_nat i)).
  rewrite Z2Nat.id, decide_True in He by lia. exact He.
Qed.

Lemma outside_foreign t s s' A : owned s A → (t, 0%nat) ∈ A → outside t s s' →
  (∀ x, foreign s x → foreign s' x) → foreign_words s s'.
Proof.
  intros Ho Ht Hout Hf x Hx. split; [by apply Hf|]. apply Hout. intros Hin.
  pose proof (foreign_owners s A x Ho Hx) as Hz. by apply (owners_pos x t 0 A) in Hz.
Qed.

(** Memory of the other blocks is outside a page. *)
Lemma outside_own t s s' A R : owned s A → A ≡ₚ (t, 0%nat) :: R → outside t s s' → own_words R s s'.
Proof.
  intros Ho HA Hout x Hx. apply Hout. intros Hin.
  pose proof (owned_disjoint s _ x (owned_perm _ _ _ Ho HA)) as Hd.
  rewrite owners_cons in Hd. cbn [fst snd] in Hd. rewrite decide_True in Hd by done. lia.
Qed.

Lemma new_table_spec s A : owned s A →
  new_table s = Panic ∨
  ∃ t s', new_table s = Ret (t, s') ∧ owned s' ((t, 0%nat) :: A) ∧ own_words A s s' ∧
    foreign_words s s' ∧ ∀ i, 0 ≤ i < 512 → entry s' t i = 0.
Proof.
  intros Ho. unfold new_table. destruct (fr_alloc 0 s) as [t s1] eqn:Ea.
  assert (0 < MAX_ORDER)%nat as HM by (unfold MAX_ORDER; lia).
  destruct (fr_alloc_spec 0 s A t s1 Ho HM Ea) as [[-> ->]|(Hpos & Ho1 & Hw1)]; [by left|right].
  rewrite (proj2 (Z.eqb_neq t 0)) by lia.
  destruct (zero_page_spec t s1 _ Ho1 ltac:(apply list_elem_of_here)) as (Ho2 & Hout & Hf2 & Hz).
  exists t, (zero_page t s1). split_and!; [done|done| | |done].
  - apply (own_words_trans A s s1); [|by eapply outside_own].
    intros x Hx. apply Hw1. rewrite owners_cons. lia.
  - apply (foreign_words_trans s s1).
    + intros x Hx. by eapply fr_alloc_foreign.
    + eapply outside_foreign; [exact Ho1|apply list_elem_of_here|done|done].
Qed.

(** ** Linking a table *)

Lemma frames_fresh k s t : (∀ i, 0 ≤ i < 512 → entry s t i = 0) →
  frames_of (Datatypes.S k) s t = [(t, 0%nat)] ∧
  ∀ p, path_ok (Datatypes.S k) p → leaf_at (Datatypes.S k) s t p = 0.
Proof.
  intros Hz. split.
  - rewrite frames_of_S, (slots_ext _ (λ _, [])).
    + by induction slots.
    + intros i Hi. unfold kids. by rewrite Hz by lia.
  - intros [|i p] [_ Hp]; [done|]. inversion Hp as [|? ? Hi _]; subst. cbn [leaf_at].
    rewrite Hz by done. by destruct k.
Qed.

Lemma table_flags t : (4096 | t) → 0 < t →
  let e := Z.lor (Z.lor (Z.lor t PG_P) PG_W) PG_U in
  present e = true ∧ frame_of e = t ∧ large e = false.
Proof.
  intros Ht Hpos e. assert (e = Z.lor t 7) as -> by (unfold e; by rewrite <- !Z.lor_assoc).
  destruct (entry_flags t 7 Ht) as (-> & -> & ->); [lia|done].
Qed.

Lemma ensure_table_spec k s t i R A :
  owned s (kids (Datatypes.S k) s (entry s t i) ++ R ++ A) → (t, 0%nat) ∈ R → 0 ≤ i < 512 →
  ensure_table t i PG_U s = Panic ∨
  ∃ t' s', ensure_table t i PG_U s = Ret (t', s') ∧
    present (entry s' t i) = true ∧ frame_of (entry s' t i) = t' ∧
    large (entry s' t i) && (Datatypes.S k =? 1)%nat = false ∧
    owned s' (frames_of (Datatypes.S k) s' t' ++ R ++ A) ∧
    but (t + 8 * i) (R ++ A) s s' ∧ foreign_words s s' ∧
    (∀ p, path_ok (Datatypes.S k) p → leaf_at (Datatypes.S k) s' t' p =
      if present (entry s t i) then leaf_at (Datatypes.S k) s (frame_of (entry s t i)) p else 0) ∧
    (present (entry s t i) = false → ∀ j, 0 ≤ j < 512 → entry s' t' j = 0).
Proof.
  intros Ho Ht Hi. unfold ensure_table. destruct (present (entry s t i)) eqn:Ep.
  - right. exists (frame_of (entry s t i)), s.
    destruct (owned_no_large (Datatypes.S k) s (entry s t i) _ Ho) as [Hl Hk]; [set_solver|done|].
    rewrite Hk in *. split_and!; try done; by apply foreign_words_refl.
  - unfold kids in Ho at 1. rewrite Ep in Ho. cbn [app] in Ho.
    destruct (new_table_spec s (R ++ A) Ho) as [->|(t' & s1 & -> & Ho1 & Hw1 & Hf1 & Hz)]; [by left|right].
    cbn [mbind outcome_bind]. set (v := Z.lor (Z.lor (Z.lor t' PG_P) PG_W) PG_U).
    assert ((t, 0%nat) ∈ (t', 0%nat) :: R ++ A) as Ht1 by set_solver.
    destruct (owned_page s1 _ t' Ho1 ltac:(apply list_elem_of_here)) as [Hal Hpos].
    destruct (table_flags t' Hal Hpos) as (Hvp & Hvf & Hvl). fold v in Hvp, Hvf, Hvl.
    destruct (set_entry_spec t i v s1 _ Ho1 Ht1 Hi) as (Ho2 & Hout & Hf2 & He).
    set (s2 := set_entry t i v s1) in *.
    assert (∀ j, 0 ≤ j < 512 → entry s2 t' j = 0) as Hz2.
    { intros j Hj. rewrite <- (Hz j Hj). apply list_elem_of_split in Ht as (R1 & R2 & ->).
      assert (own_words ((t', 0%nat) :: R1 ++ R2 ++ A) s1 s2) as Hw.
      { eapply outside_own; [exact Ho1| |done]. solve_Permutation. }
      by apply (own_entry _ s1 s2 t' j Hw (list_elem_of_here _ _)). }
    destruct (frames_fresh k s2 t' Hz2) as [Hfr Hlf].
    exists t', s2. split; [done|]. specialize (He i). rewrite decide_True in He by done. rewrite He.
    split_and!; [done|done| | | | | |done].
    + by rewrite Hvl.
    + by rewrite Hfr.
    + intros y Hy Hne. rewrite <- Hw1 by done. by apply word_set_ne.
    + apply (foreign_words_trans s s1); [done|]. by eapply outside_foreign.
    + done.
Qed.

(** The steps of [vmm_map_user] below a table: make the tables on the path,
    then write the leaf. *)
Fixpoint map_path (t : Z) (p : list Z) (v : Z) s : outcome S :=
  match p with
  | [] => Stuck
  | [i] => Ret (set_entry t i v s)
  | i :: p' => '(t', s) ← ensure_table t i PG_U s; map_path t' p' v s
  end.

Lemma leaf_other k s s' t i j q A : owned s A → (∀ b, b ∈ siblings k s t i → b ∈ A) →
  0 ≤ i < 512 → path_ok (Datatypes.S k) (j :: q) → j ≠ i →
  own_words (siblings k s t i) s s' → entry s' t j = entry s t j →
  leaf_at (Datatypes.S k) s' t (j :: q) = leaf_at (Datatypes.S k) s t (j :: q).
Proof.
  intros Ho HA Hi [Hl Hq] Hne Hw He. inversion Hq as [|? ? Hj Hq']; subst. cbn [leaf_at]. rewrite He.
  destruct k as [|k]; [done|]. destruct (present (entry s t j)) eqn:Ep; [|done].
  assert (∀ b, b ∈ kids (Datatypes.S k) s (entry s t j) → b ∈ siblings (Datatypes.S k) s t i) as Hsub.
  { intros b. by apply kids_siblings. }
  destruct (owned_no_large (Datatypes.S k) s (entry s t j) A Ho) as [_ Hk]; [auto|done|].
  rewrite Hk in Hsub. eapply leaf_at_ext; [split; [by inversion Hl|done]|exact Ho|by auto|].
  by eapply own_words_sub.
Qed.

(** The leaf at [p] becomes [v]: the frame it referred to is handed to the
    caller, the frame of [v] becomes part of the tree, nothing else moves. *)
Record leaf_set (k : nat) (t : Z) (p : list Z) (v : Z) A s s' : Prop := {
  ls_owned : owned s' (frames_of k s' t ++ page (leaf_at k s t p) ++ A);
  ls_words : own_words (page v ++ A) s s';
  ls_foreign : foreign_words s s';
  ls_leaf q : path_ok k q → leaf_at k s' t q = if decide (q = p) then v else leaf_at k s t q;
}.

Lemma set_leaf_spec t i v s A : 0 ≤ i < 512 →
  owned s (frames_of 1 s t ++ page v ++ A) → leaf_set 1 t [i] v A s (set_entry t i v s).
Proof.
  intros Hi Ho.
  assert (frames_of 1 s t ++ page v ++ A ≡ₚ others 0 s t i ++ page (entry s t i) ++ page v ++ A) as Hp.
  { rewrite (frames_split 0 s t i), kids_page by done. solve_Permutation. }
  pose proof (owned_perm _ _ _ Ho Hp) as Ho'.
  destruct (set_entry_spec t i v s _ Ho (proj2 (elem_of_app _ _ _) (or_introl (frames_of_here 1 s t))) Hi)
    as (Ho1 & Hout & Hf & He). set (s' := set_entry t i v s) in *.
  assert (but (t + 8 * i) (others 0 s t i) s s') as Hbut by (intros y _ Hy; by apply word_set_ne).
  destruct (others_ext 0 s s' t i _ Hi Ho' Hbut) as (Hoth & Hsib & _). constructor.
  - eapply owned_perm; [exact Ho1|]. rewrite (frames_split 0 s' t i), Hoth, He, decide_True by done.
    change (leaf_at 1 s t [i]) with (entry s t i). rewrite kids_page, Hp. solve_Permutation.
  - apply (own_words_sub (siblings 0 s t i ++ page (entry s t i) ++ page v ++ A)).
    + intros b Hb. rewrite !elem_of_app in *. tauto.
    + eapply outside_own; [exact Ho'| |exact Hout]. done.
  - eapply outside_foreign; [exact Ho| |done|done]. apply elem_of_app. left. apply frames_of_here.
  - intros [|j [|? ?]] [Hl Hq]; try done. cbn [leaf_at]. rewrite He.
    destruct (decide (j = i)) as [->|]; [by rewrite decide_True|]. by rewrite decide_False by congruence.
Qed.

Lemma map_path_spec v k : ∀ t p s A, path_ok (Datatypes.S k) p →
  owned s (frames_of (Datatypes.S k) s t ++ page v ++ A) →
  map_path t p v s = Panic ∨ ∃ s', map_path t p v s = Ret s' ∧ leaf_set (Datatypes.S k) t p v A s s'.
Proof.
  induction k as [|k IH]; intros t p s A [Hl Hp] Ho.
  { destruct p as [|i [|? ?]]; try done. inversion Hp; subst. right. eexists. split; [done|].
    by apply set_leaf_spec. }
  destruct p as [|i [|i' p]]; try done. inversion Hp as [|? ? Hi Hp']; subst.
  assert (path_ok (Datatypes.S k) (i' :: p)) as Hpok by (split; [by inversion Hl|done]).
  change (map_path t (i :: i' :: p) v s) with ('(t', s) ← ensure_table t i PG_U s; map_path t' (i' :: p) v s).
  set (R := others (Datatypes.S k) s t i).
  assert (owned s (kids (Datatypes.S k) s (entry s t i) ++ R ++ page v ++ A)) as Ho0.
  { eapply owned_perm; [exact Ho|]. rewrite (frames_split _ s t i) by done. by rewrite <- app_assoc. }
  destruct (ensure_table_spec k s t i R (page v ++ A) Ho0 (list_elem_of_here _ _) Hi)
    as [->|(t' & s1 & -> & Hp1 & Hf1 & Hlg & Ho1 & Hb1 & Hfo1 & Hlf1 & _)]; [by left|].
  cbn [mbind outcome_bind].
  destruct (IH t' (i' :: p) s1 (R ++ A) Hpok) as [->|(s2 & Heq & [Ho2 Hw2 Hfo2 Hlf2])]; [|by left|].
  { eapply owned_perm; [exact Ho1|]. apply perm_mid. }
  right. exists s2. split; [done|].
  assert (owned s (R ++ kids (Datatypes.S k) s (entry s t i) ++ page v ++ A)) as Ho0'.
  { eapply owned_perm; [exact Ho0|]. apply Permutation_app_swap_app. }
  destruct (others_ext (Datatypes.S k) s s2 t i _ Hi Ho0') as (Hoth & Hsib & Hent).
  { intros y Hy Hne. rewrite Hw2 by (rewrite !owners_app; unfold R; lia).
    apply Hb1; [rewrite owners_app; unfold R; lia|done]. }
  assert (entry s2 t i = entry s1 t i) as Hei.
  { apply (own_entry _ s1 s2 t i Hw2); [|done]. unfold R, others. set_solver. }
  assert (leaf_at (Datatypes.S (Datatypes.S k)) s t (i :: i' :: p) = leaf_at (Datatypes.S k) s1 t' (i' :: p)) as Hold.
  { by rewrite leaf_at_S, Hlf1. }
  constructor.
  - eapply owned_perm; [exact Ho2|]. rewrite (frames_split _ s2 t i), Hoth by done. fold R.
    rewrite Hold, Hei. unfold kids. rewrite Hp1, Hlg, Hf1.
    rewrite <- app_assoc. apply perm_mid.
  - intros x Hx. rewrite Hw2 by (rewrite !owners_app in *; lia). apply Hb1; [rewrite !owners_app in *; lia|].
    intros ->. pose proof (owned_disjoint _ _ (t + 8 * i) Ho0') as Hd. unfold R, others in Hd. cbn [app] in Hd.
    rewrite owners_cons, !owners_app in Hd. cbn [fst snd] in Hd. rewrite decide_True in Hd by (by apply in_table).
    rewrite owners_app in Hx.  lia.
  - by apply (foreign_words_trans s s1).
  - intros [|j q] [Hlq Hq]; [done|]. apply Forall_cons in Hq as [Hj Hq']. destruct (decide (j = i)) as [->|Hne].
    + rewrite !leaf_at_S, Hei, Hp1, Hf1, Hlf2, Hlf1 by (split; [by inversion Hlq|done]).
      destruct (decide (q = i' :: p)) as [->|]; [by rewrite decide_True|].
      rewrite decide_False by congruence. done.
    + rewrite decide_False by congruence. eapply (leaf_other _ s s2 t i); [exact Ho0'| |done| |done|done|by apply Hent]; [|by split; [|constructor]].
      intros b Hb. unfold R, others. set_solver.
Qed.

(** ** A user address space

    The tree hangs in slot 255 of the root table; the other slots of the root
    refer to kernel tables, which no user operation follows. *)
Definition user_frames s (root : Z) : list (Z * nat) :=
  (root, 0%nat) :: kids 3 s (entry s root USER_SLOT).

Definition user_leaf s (root : Z) (p : list Z) : Z :=
  let e := entry s root USER_SLOT in if present e then leaf_at 3 s (frame_of e) p else 0.

(** The slots of the kernel in a root table are not touched. *)
Definition same_slots (root : Z) s s' : Prop := ∀ i, 0 ≤ i < 512 → i ≠ USER_SLOT → entry s' root i = entry s root i.

Lemma user_map_spec v root p s A : path_ok 3 p →
  owned s (user_frames s root ++ page v ++ A) →
  map_path root (USER_SLOT :: p) v s = Panic ∨
  ∃ s', map_path root (USER_SLOT :: p) v s = Ret s' ∧
    owned s' (user_frames s' root ++ page (user_leaf s root p) ++ A) ∧
    own_words (page v ++ A) s s' ∧ foreign_words s s' ∧
    (∀ q, path_ok 3 q → user_leaf s' root q = if decide (q = p) then v else user_leaf s root q) ∧
    same_slots root s s'.
Proof.
  intros Hp Ho. destruct p as [|i3 p]; [by destruct Hp|]. assert (0 ≤ USER_SLOT < 512) as Hu by by_eval.
  change (map_path root (USER_SLOT :: i3 :: p) v s)
    with ('(t', s) ← ensure_table root USER_SLOT PG_U s; map_path t' (i3 :: p) v s).
  assert (owned s (kids 3 s (entry s root USER_SLOT) ++ [(root, 0%nat)] ++ page v ++ A)) as Ho0.
  { eapply owned_perm; [exact Ho|]. unfold user_frames. solve_Permutation. }
  destruct (ensure_table_spec 2 s root USER_SLOT [(root, 0%nat)] (page v ++ A) Ho0 (list_elem_of_here _ _) Hu)
    as [->|(t' & s1 & -> & Hp1 & Hf1 & Hlg & Ho1 & Hb1 & Hfo1 & Hlf1 & _)]; [by left|].
  cbn [mbind outcome_bind].
  destruct (map_path_spec v 2 t' (i3 :: p) s1 ((root, 0%nat) :: A) Hp) as [->|(s2 & -> & [Ho2 Hw2 Hfo2 Hlf2])]; [|by left|].
  { eapply owned_perm; [exact Ho1|]. apply (perm_mid _ [_]). }
  right. exists s2. split; [done|].
  assert ((root, 0%nat) ∈ page v ++ (root, 0%nat) :: A) as Hroot by set_solver.
  assert (∀ i, 0 ≤ i < 512 → entry s2 root i = entry s1 root i) as Hent.
  { intros i Hi. by apply (own_entry _ s1 s2 root i Hw2). }
  assert (user_leaf s root (i3 :: p) = leaf_at 3 s1 t' (i3 :: p)) as Hold by (unfold user_leaf; by rewrite Hlf1).
  split_and!.
  - eapply owned_perm; [exact Ho2|]. unfold user_frames, kids. rewrite Hent, Hp1, Hlg, Hf1, Hold by done.
    rewrite app_assoc, <- Permutation_middle. by rewrite <- app_assoc.
  - intros x Hx. rewrite owners_app in Hx. rewrite Hw2 by (rewrite owners_app, owners_cons; lia).
    apply Hb1; [cbn [app]; rewrite owners_cons, owners_app; lia|]. intros ->.
    pose proof (owned_disjoint _ _ (root + 8 * USER_SLOT) Ho) as Hd. unfold user_frames in Hd. cbn [app] in Hd.
    rewrite owners_cons, !owners_app in Hd. cbn [fst snd] in Hd. rewrite decide_True in Hd by (by apply in_table). lia.
  - by apply (foreign_words_trans s s1).
  - intros q Hq. unfold user_leaf at 1. rewrite Hent, Hp1, Hf1, Hlf2, Hlf1 by done. by unfold user_leaf.
  - intros i Hi Hne. rewrite Hent by done. apply Hb1; [|lia].
    eapply owners_pos; [apply list_elem_of_here|by apply in_table].
Qed.

Definition user_va (va : Z) : Prop := USER_BASE ≤ va < 2 ^ 47.
Definition vpath (va : Z) : list Z := [i3_of va; i2_of va; i1_of va].

Lemma land_511 x : Z.land x 511 = x mod 512.
Proof. apply (land_mask x 9). lia. Qed.

Lemma vpath_ok va : path_ok 3 (vpath va).
Proof.
  split; [done|]. unfold vpath, i3_of, i2_of, i1_of. rewrite !land_511.
  repeat constructor; apply Z.mod_pos_bound; lia.
Qed.

Lemma user_slot va : user_va va → i4_of va = USER_SLOT.
Proof.
  unfold user_va, i4_of, USER_BASE, USER_SLOT. intros Hva. rewrite land_511, Z.shiftr_div_pow2 by lia.
  assert (va / 2 ^ 39 = 255) as -> by (symmetry; apply (Z.div_unique va (2 ^ 39) 255 (va - 255 * 2 ^ 39)); lia). done.
Qed.

(** Two user addresses have the same path iff they are in the same page. *)
Lemma vpath_inj va va' : user_va va → user_va va' → vpath va = vpath va' ↔ va / 4096 = va' / 4096.
Proof.
  intros Hva Hva'. assert (∀ a, user_va a → a / 4096 =
    255 * 2 ^ 27 + i3_of a * 2 ^ 18 + i2_of a * 2 ^ 9 + i1_of a) as Hsplit.
  { intros a Ha. pose proof (user_slot a Ha) as H4. unfold i4_of, i3_of, i2_of, i1_of, USER_SLOT in *.
    rewrite !land_511, !Z.shiftr_div_pow2 in * by lia. change 4096 with (2 ^ 12).
    set (b := a / 2 ^ 12). assert (0 ≤ b < 2 ^ 36).
    { unfold user_va, USER_BASE in Ha. unfold b. split; [apply Z.div_pos; lia|apply Z.div_lt_upper_bound; lia]. }
    replace (a / 2 ^ 21) with (b / 512) by (unfold b; by rewrite Z.div_div by lia).
    replace (a / 2 ^ 30) with (b / 512 / 512) by (unfold b; by rewrite !Z.div_div by lia).
    replace (a / 2 ^ 39) with (b / 512 / 512 / 512) in H4 by (unfold b; by rewrite !Z.div_div by lia).
    clearbody b. clear Ha. pose proof (Z.div_mod b 512). pose proof (Z.div_mod (b / 512) 512).
    pose proof (Z.div_mod (b / 512 / 512) 512). rewrite Z.mod_small in H4; [lia|].
    rewrite !Z.div_div by lia. split; [apply Z.div_pos; lia|apply Z.div_lt_upper_bound; lia]. }
  unfold vpath. split.
  - intros [= H3 H2 H1]. rewrite !Hsplit by done. congruence.
  - intros He. rewrite !Hsplit in He by done.
    destruct (vpath_ok va) as [_ Hp], (vpath_ok va') as [_ Hp']. unfold vpath in Hp, Hp'.
    rewrite !Forall_cons in Hp, Hp'. f_equal; [lia|]. f_equal; [lia|]. f_equal. lia.
Qed.

Lemma kids_sub k s t i b : 0 ≤ i < 512 → b ∈ kids k s (entry s t i) → b ∈ frames_of (Datatypes.S k) s t.
Proof. intros Hi Hb. rewrite (frames_split k s t i) by done. apply elem_of_app. by left. Qed.

(** [walk] finds the leaf entry of the tree; where it does, the path has all
    its tables and writing the leaf is all [map_path] does. *)
Lemma walk_user s root va A : owned s (user_frames s root ++ A) → user_va va →
  (walk root va s = NoLeaf ∧ user_leaf s root (vpath va) = 0) ∨
  ∃ pt, walk root va s = Pte pt (i1_of va) ∧ user_leaf s root (vpath va) = entry s pt (i1_of va) ∧
    ∀ v, map_path root (USER_SLOT :: vpath va) v s = Ret (set_entry pt (i1_of va) v s).
Proof.
  intros Ho Hva. destruct (vpath_ok va) as [_ Hp]. unfold vpath in *. rewrite !Forall_cons in Hp.
  destruct Hp as (Hi3 & Hi2 & Hi1 & _).
  assert (∀ b, b ∈ kids 3 s (entry s root USER_SLOT) → b ∈ user_frames s root ++ A) as Hsub.
  { intros b Hb. apply elem_of_app. left. by apply list_elem_of_further. }
  unfold walk, user_leaf. cbn [map_path]. unfold ensure_table. rewrite (user_slot va Hva).
  set (e4 := entry s root USER_SLOT) in *. destruct (present e4) eqn:E4; [|by left].
  destruct (owned_no_large 3 s e4 _ Ho Hsub E4) as [_ Hk4]. rewrite Hk4 in Hsub.
  cbn [leaf_at negb mbind outcome_bind]. set (e3 := entry s (frame_of e4) (i3_of va)) in *.
  destruct (present e3) eqn:E3; [|by left].
  destruct (owned_no_large 2 s e3 _ Ho) as [_ Hk3]; [intros b Hb; by apply Hsub, (kids_sub 2 s (frame_of e4) (i3_of va))|done|].
  cbn [negb mbind outcome_bind]. set (e2 := entry s (frame_of e3) (i2_of va)) in *.
  destruct (present e2) eqn:E2; [|by left].
  destruct (owned_no_large 1 s e2 _ Ho) as [Hl _].
  { intros b Hb. eapply Hsub, (kids_sub 2 s (frame_of e4) (i3_of va)); [done|]. fold e3. rewrite Hk3.
    by apply (kids_sub 1 s (frame_of e3) (i2_of va)). }
  { done. }
  rewrite andb_true_r in Hl. right. exists (frame_of e2). by rewrite Hl.
Qed.

Lemma translate_user s root va A : owned s (user_frames s root ++ A) → user_va va →
  vmm_translate_in root va s =
  let e := user_leaf s root (vpath va) in
  if present e then frame_of e + va mod 4096 else 0.
Proof.
  intros Ho Hva. unfold vmm_translate_in.
  rewrite (proj2 (Z.leb_gt ALIAS_BASE va)) by (unfold user_va, ALIAS_BASE in *; lia). cbn [andb].
  assert (∀ e, Z.lor (frame_of e) (Z.land va 0xfff) = frame_of e + va mod 4096) as Hlor.
  { intros e. change 0xfff with (2 ^ 12 - 1). rewrite land_mask by lia. apply lor_aligned.
    - rewrite frame_of_div. apply Z.divide_factor_r.
    - apply Z.mod_pos_bound. lia. }
  destruct (walk_user s root va A Ho Hva) as [[-> ->]|(pt & -> & -> & _)]; [done|].
  by rewrite Hlor.
Qed.

(** A leaf entry of an owned tree refers to a frame. *)
Lemma user_leaf_frame s root p A : owned s (user_frames s root ++ A) → path_ok 3 p →
  let e := user_leaf s root p in present e = true → 0 < frame_of e.
Proof.
  intros Ho Hp e He. subst e. unfold user_leaf in *.
  destruct (present (entry s root USER_SLOT)) eqn:E4; [|done].
  assert (∀ k t q, path_ok (Datatypes.S k) q → (∀ b, b ∈ frames_of (Datatypes.S k) s t → b ∈ user_frames s root ++ A) →
    present (leaf_at (Datatypes.S k) s t q) = true → 0 < frame_of (leaf_at (Datatypes.S k) s t q)) as Hgen.
  { clear Hp He p. induction k as [|k IH]; intros t [|i q] [Hl Hq] Hsub; try done.
    - apply Forall_cons in Hq as [Hi _]. cbn [leaf_at]. intros He. eapply owned_page; [exact Ho|].
      apply Hsub, (kids_sub 0 s t i); [done|]. rewrite kids_page. unfold page. rewrite He. apply list_elem_of_here.
    - apply Forall_cons in Hq as [Hi Hq]. rewrite leaf_at_S. destruct (present (entry s t i)) eqn:E; [|done].
      destruct (owned_no_large (Datatypes.S k) s (entry s t i) _ Ho) as [_ Hk]; [|done|].
      { intros b Hb. by apply Hsub, (kids_sub _ s t i). }
      apply IH; [split; [by inversion Hl|done]|]. intros b Hb. rewrite <- Hk in Hb. by apply Hsub, (kids_sub _ s t i). }
  destruct (owned_no_large 3 s _ _ Ho (λ b Hb, proj2 (elem_of_app _ _ _) (or_introl (list_elem_of_further b _ _ Hb))) E4) as [_ Hk].
  apply Hgen; [done| |done]. rewrite <- Hk. intros b Hb. apply elem_of_app. left. by apply list_elem_of_further.
Qed.

Lemma leaf_flags pa (w u : bool) : (4096 | pa) →
  let e := Z.lor (Z.lor (Z.lor pa PG_P) (if w then PG_W else 0)) (if u then PG_U else 0) in
  present e = true ∧ frame_of e = pa ∧ e = pa + PG_P + (if w then PG_W else 0) + (if u then PG_U else 0).
Proof.
  intros Hpa e. set (f := Z.lor (Z.lor PG_P (if w then PG_W else 0)) (if u then PG_U else 0)).
  assert (e = Z.lor pa f) as -> by (unfold e, f; by rewrite !Z.lor_assoc).
  assert (0 ≤ f < 4096 ∧ present f = true ∧ f = PG_P + (if w then PG_W else 0) + (if u then PG_U else 0)) as (Hf & Hp & He)
    by (unfold f; by destruct w, u).
  destruct (entry_flags pa f Hpa Hf) as (-> & -> & _). split_and!; [done|done|].
  rewrite lor_aligned by done. lia.
Qed.

Lemma vmm_map_user_path root va pa (w u : bool) s : USER_BASE ≤ va < USER_MAX_VMA → va mod 4096 = 0 →
  vmm_map_user root va pa w u s =
  s' ← map_path root (USER_SLOT :: vpath va)
         (Z.lor (Z.lor (Z.lor pa PG_P) (if w then PG_W else 0)) (if u then PG_U else 0)) s;
  Ret (0, s').
Proof.
  intros Hva Hal. unfold vmm_map_user.
  rewrite (proj2 (Z.ltb_ge va USER_BASE)), (proj2 (Z.leb_gt USER_MAX_VMA va)) by lia. cbn [orb].
  change 0xfff with (2 ^ 12 - 1). rewrite land_mask by lia. change (2 ^ 12) with 4096. rewrite Hal. cbn [Z.eqb negb].
  unfold vpath. cbn [map_path]. rewrite (user_slot va) by (unfold user_va, USER_MAX_VMA in *; lia).
  destruct (ensure_table root _ _ s) as [[t1 s1]| |]; [|done..]. cbn [mbind outcome_bind].
  destruct (ensure_table t1 _ _ s1) as [[t2 s2]| |]; [|done..]. cbn [mbind outcome_bind].
  by destruct (ensure_table t2 _ _ s2) as [[t3 s3]| |].
Qed.

Lemma map_user_spec root va pa w u s A :
  owned s (user_frames s root ++ (pa, 0%nat) :: A) →
  USER_BASE ≤ va < USER_MAX_VMA → va mod 4096 = 0 → vmm_translate_in root va s = 0 →
  vmm_map_user root va pa w u s = Panic ∨
  ∃ s', vmm_map_user root va pa w u s = Ret (0, s') ∧
    owned s' (user_frames s' root ++ A) ∧
    (∀ va', user_va va' → vmm_translate_in root va' s' =
       if decide (va' / 4096 = va / 4096) then pa + va' mod 4096 else vmm_translate_in root va' s) ∧
    user_leaf s' root (vpath va) = pa + PG_P + (if w then PG_W else 0) + (if u then PG_U else 0) ∧
    own_words ((pa, 0%nat) :: A) s s' ∧ foreign_words s s' ∧ same_slots root s s'.
Proof.
  intros Ho Hva Hal Hfree. assert (user_va va) as Huva by (unfold user_va, USER_MAX_VMA in *; lia).
  destruct (owned_page s _ pa Ho ltac:(set_solver)) as [Hpa Hpos].
  destruct (leaf_flags pa w u Hpa) as (Hvp & Hvf & Hve). rewrite vmm_map_user_path by done.
  set (v := Z.lor (Z.lor (Z.lor pa PG_P) (if w then PG_W else 0)) (if u then PG_U else 0)) in *.
  assert (page v = [(pa, 0%nat)]) as Hpage by (unfold page; by rewrite Hvp, Hvf).
  assert (owned s (user_frames s root ++ page v ++ A)) as Ho' by (by rewrite Hpage).
  assert (page (user_leaf s root (vpath va)) = []) as Hold.
  { rewrite (translate_user s root va _ Ho Huva) in Hfree. cbn zeta in Hfree. unfold page.
    destruct (present (user_leaf s root (vpath va))) eqn:E; [|done]. pose proof (user_leaf_frame s root _ _ Ho (vpath_ok va) E). lia. }
  destruct (user_map_spec v root (vpath va) s A (vpath_ok va) Ho') as [->|(s' & -> & Ho2 & Hw & Hf & Hl & Hsl)].
  - by left.
  - right. exists s'. rewrite Hold in Ho2. cbn [app] in Ho2. split_and!; [done|done| | | |done|done].
    + intros va' Hva'. rewrite (translate_user s' root va' _ Ho2 Hva'), (translate_user s root va' _ Ho Hva').
      cbn zeta. rewrite Hl by apply vpath_ok. pose proof (vpath_inj va' va Hva' Huva) as Hinj.
      destruct (decide (vpath va' = vpath va)) as [E|E].
      * rewrite decide_True by (by apply Hinj). by rewrite Hvp, Hvf.
      * rewrite decide_False by (rewrite <- Hinj; done). done.
    + rewrite Hl, decide_True by (done || apply vpath_ok). done.
    + by rewrite Hpage in Hw.
Qed.

(** Mapping a frame the caller owns at a free page of user space: the frame
    becomes part of the address space, that page translates to it with the
    requested permissions, every other user address translates as before, and
    memory outside the page tables keeps its contents.  The alternative is the
    panic when no frame is left for a table. *)
Theorem vmm_map_user_correct root va pa w u s A :
  owned s (user_frames s root ++ (pa, 0%nat) :: A) →
  USER_BASE ≤ va < USER_MAX_VMA → va mod 4096 = 0 → vmm_translate_in root va s = 0 →
  vmm_map_user root va pa w u s = Panic ∨
  ∃ s', vmm_map_user root va pa w u s = Ret (0, s') ∧
    owned s' (user_frames s' root ++ A) ∧
    (∀ va', user_va va' → vmm_translate_in root va' s' =
       if decide (va' / 4096 = va / 4096) then pa + va' mod 4096 else vmm_translate_in root va' s) ∧
    user_leaf s' root (vpath va) = pa + PG_P + (if w then PG_W else 0) + (if u then PG_U else 0) ∧
    own_words ((pa, 0%nat) :: A) s s' ∧ foreign_words s s' ∧ same_slots root s s'.
Proof.
  intros Ho Hva Hal Hfree. by apply map_user_spec.
Qed.

Lemma unmap_user_spec root va s A :
  owned s (user_frames s root ++ A) → user_va va → vmm_translate_in root va s ≠ 0 →
  ∃ pa s', vmm_unmap_user root va s = (pa, s') ∧
    vmm_translate_in root va s = pa + va mod 4096 ∧
    owned s' (user_frames s' root ++ (pa, 0%nat) :: A) ∧
    (∀ va', user_va va' → vmm_translate_in root va' s' =
       if decide (va' / 4096 = va / 4096) then 0 else vmm_translate_in root va' s) ∧
    own_words A s s' ∧ foreign_words s s' ∧ same_slots root s s'.
Proof.
  intros Ho Hva Hne. rewrite (translate_user s root va _ Ho Hva) in *. cbn zeta in *.
  destruct (present (user_leaf s root (vpath va))) eqn:Ep; [|done].
  destruct (walk_user s root va A Ho Hva) as [[_ H0']|(pt & Hw & Hl & Hm)]; [by rewrite H0' in Ep|].
  unfold vmm_unmap_user. rewrite Hw, <- Hl, Ep. cbn [negb].
  exists (frame_of (user_leaf s root (vpath va))), (set_entry pt (i1_of va) 0 s). split; [done|]. split; [done|].
  destruct (user_map_spec 0 root (vpath va) s A (vpath_ok va)) as [Hx|(s' & Hx & Ho2 & Hw2 & Hf & Hl2 & Hsl)].
  - exact Ho.
  - rewrite (Hm 0) in Hx. done.
  - rewrite (Hm 0) in Hx. injection Hx as <-. unfold page at 1 in Ho2. rewrite Ep in Ho2.
    split_and!; [done| |done|done|done]. intros va' Hva'.
    rewrite (translate_user _ root va' _ Ho2 Hva'), (translate_user s root va' _ Ho Hva').
    cbn zeta. rewrite Hl2 by apply vpath_ok. pose proof (vpath_inj va' va Hva' Hva) as Hinj.
    destruct (decide (vpath va' = vpath va)) as [E|E].
    + by rewrite decide_True by (by apply Hinj).
    + by rewrite decide_False by (rewrite <- Hinj; done).
Qed.

(** Unmapping a page: the frame it was mapped to is returned to the caller
    and leaves the address space, the page no longer translates, every other
    user address translates as before. *)
Theorem vmm_unmap_user_correct root va s A :
  owned s (user_frames s root ++ A) → user_va va → vmm_translate_in root va s ≠ 0 →
  ∃ pa s', vmm_unmap_user root va s = (pa, s') ∧
    vmm_translate_in root va s = pa + va mod 4096 ∧
    owned s' (user_frames s' root ++ (pa, 0%nat) :: A) ∧
    (∀ va', user_va va' → vmm_translate_in root va' s' =
       if decide (va' / 4096 = va / 4096) then 0 else vmm_translate_in root va' s) ∧
    own_words A s s' ∧ foreign_words s s' ∧ same_slots root s s'.
Proof.
  intros Ho Hva Hne. by apply unmap_user_spec.
Qed.
End trees.
