(* ===== verification/VmmLife.v ===== *)
(** The life of a user address space: [vmm_new_user_aspace] makes an empty one
    and [vmm_destroy_user_aspace] returns each of its frames exactly once; the
    high-half aliases that [vmm_init] installs. *)
From S2P Require Import Prelude Pmm PmmFacts PmmInit Frames Vmm VmmFacts.

(** ** Loops *)

Lemma for_loop_o_skip {A} (body : nat → A → outcome A) n : ∀ i a,
  (∀ j, (i ≤ j < i + n)%nat → body j a = Ret a) → for_loop_o body i n a = Ret a.
Proof.
  induction n as [|n IH]; intros i a Hb; [done|]. cbn [for_loop_o]. rewrite Hb by lia.
  apply IH. intros j Hj. apply Hb. lia.
Qed.

Lemma for_loop_o_app {A} (body : nat → A → outcome A) n m : ∀ i a,
  for_loop_o body i (n + m) a = (a' ← for_loop_o body i n a; for_loop_o body (i + n) m a').
Proof.
  induction n as [|n IH]; intros i a.
  - cbn. by rewrite Nat.add_0_r.
  - cbn [for_loop_o Nat.add]. destruct (body i a) as [a'| |]; [|done..]. rewrite IH.
    by replace (S i + n)%nat with (i + S n)%nat by lia.
Qed.

Lemma for_loop_o_one {A} (body : nat → A → outcome A) i a : for_loop_o body i 1 a = body i a.
Proof. cbn. by destruct (body i a). Qed.

Section life.
Context {S : Type} `{FrameLaws S}.
Implicit Types (s : S) (F A R : list (Z * nat)).

Lemma new_aspace_spec pml4 s A :
  owned s A → (∀ i, 0 ≤ i < 512 → foreign s (pml4 + 8 * i)) →
  vmm_new_user_aspace pml4 s = Panic ∨
  ∃ root s', vmm_new_user_aspace pml4 s = Ret (root, s') ∧
    owned s' (user_frames s' root ++ A) ∧ user_frames s' root = [(root, 0%nat)] ∧
    (∀ va, user_va va → vmm_translate_in root va s' = 0) ∧
    (∀ i, 0 ≤ i < 512 → i ≠ USER_SLOT → entry s' root i = entry s pml4 i) ∧
    own_words A s s' ∧ foreign_words s s'.
Proof.
  intros Ho Hm. unfold vmm_new_user_aspace.
  destruct (new_table_spec s A Ho) as [->|(root & s1 & -> & Ho1 & Hw1 & Hf1 & Hz)]; [by left|right].
  cbn [mbind outcome_bind]. assert ((root, 0%nat) ∈ (root, 0%nat) :: A) as Hr by apply list_elem_of_here.
  destruct (fill_spec (λ i, Z.of_nat i =? USER_SLOT) (λ i s, entry s pml4 (Z.of_nat i)) root
    ((root, 0%nat) :: A) 512 0 s1)
    as (Ho2 & Hout & Hf2 & He); [|done|done|lia|].
  { intros j sa sb Hj Hout. apply Hout. intros Hin.
    destruct (Hf1 _ (Hm (Z.of_nat j) ltac:(lia))) as [Hfo _].
    pose proof (foreign_owners s1 _ _ Ho1 Hfo) as Hz0. by apply (owners_pos _ root 0 _ Hr) in Hin. }
  set (s2 := for_loop _ 0 512 s1) in *. exists root, s2. split; [done|].
  assert (∀ i, 0 ≤ i < 512 → entry s2 root i = if i =? USER_SLOT then 0 else entry s1 pml4 i) as He'.
  { intros i Hi. specialize (He (Z.to_nat i)). rewrite Z2Nat.id, decide_True in He by lia.
    rewrite He. destruct (i =? USER_SLOT); [by apply Hz|done]. }
  assert (entry s2 root USER_SLOT = 0) as Hu by (by apply He').
  assert (user_frames s2 root = [(root, 0%nat)]) as Huf by (unfold user_frames, kids; by rewrite Hu).
  assert (owned s2 (user_frames s2 root ++ A)) as Ho' by (by rewrite Huf).
  split_and!; [done|done| | | |].
  - intros va Hva. rewrite (translate_user s2 root va A Ho' Hva). unfold user_leaf. by rewrite Hu.
  - intros i Hi Hne. rewrite He', (proj2 (Z.eqb_neq _ _) Hne) by done. by apply Hf1, Hm.
  - apply (own_words_trans A s s1); [done|]. by eapply outside_own.
  - apply (foreign_words_trans s s1); [done|]. by eapply outside_foreign.
Qed.

(** A new address space is a fresh root frame that shares every kernel slot
    of the master table and translates no user address. *)
Theorem vmm_new_user_aspace_correct pml4 s A :
  owned s A → (∀ i, 0 ≤ i < 512 → foreign s (pml4 + 8 * i)) →
  vmm_new_user_aspace pml4 s = Panic ∨
  ∃ root s', vmm_new_user_aspace pml4 s = Ret (root, s') ∧
    owned s' (user_frames s' root ++ A) ∧ user_frames s' root = [(root, 0%nat)] ∧
    (∀ va, user_va va → vmm_translate_in root va s' = 0) ∧
    (∀ i, 0 ≤ i < 512 → i ≠ USER_SLOT → entry s' root i = entry s pml4 i) ∧
    own_words A s s' ∧ foreign_words s s'.
Proof.
  intros Ho Hm. by apply new_aspace_spec.
Qed.

(** ** Release *)

Lemma free_frame_spec a o s A : owned s ((a, o) :: A) →
  ∃ s', free_frame a o s = Ret s' ∧ owned s' A ∧ own_words A s s' ∧ foreign_words s s'.
Proof.
  intros Ho. unfold free_frame. destruct (fr_free_spec a o s A Ho) as (s' & Hs & Ho' & Hw).
  rewrite Hs. exists s'. split_and!; [done|done|done|]. intros x Hx. by eapply fr_free_foreign.
Qed.

(** The frames below a table, without the table. *)
Definition inner (k : nat) s (t : Z) : list (Z * nat) :=
  match k with
  | O => []
  | Datatypes.S k' => mjoin ((λ i : nat, kids k' s (entry s t (Z.of_nat i))) <$> slots)
  end.

Lemma frames_of_inner k s t : frames_of k s t = inner k s t ++ [(t, 0%nat)].
Proof. by destruct k. Qed.

(** [sub] releases the frames below a table of level [k]. *)
Definition frees_inner (k : nat) (sub : Z → S → outcome S) : Prop :=
  ∀ s t A, owned s (inner k s t ++ (t, 0%nat) :: A) →
  ∃ s', sub t s = Ret s' ∧ owned s' ((t, 0%nat) :: A) ∧
    own_words ((t, 0%nat) :: A) s s' ∧ foreign_words s s'.

(** The loop body at one level, where the entry is not a large page. *)
Definition frees_entry (k : nat) (sub : Z → S → outcome S) (t : Z) (body : nat → S → outcome S) : Prop :=
  ∀ i s, large (entry s t (Z.of_nat i)) && (k =? 1)%nat = false ∨ present (entry s t (Z.of_nat i)) = false →
    body i s =
    if present (entry s t (Z.of_nat i)) then
      s1 ← sub (frame_of (entry s t (Z.of_nat i))) s;
      free_frame (frame_of (entry s1 t (Z.of_nat i))) 0 s1
    else Ret s.

Lemma free_entry_spec k sub t body i s A : frees_inner k sub → frees_entry k sub t body → (i < 512)%nat →
  owned s (kids k s (entry s t (Z.of_nat i)) ++ (t, 0%nat) :: A) →
  ∃ s', body i s = Ret s' ∧ owned s' ((t, 0%nat) :: A) ∧
    own_words ((t, 0%nat) :: A) s s' ∧ foreign_words s s'.
Proof.
  intros Hsub Hbody Hi Ho. destruct (present (entry s t (Z.of_nat i))) eqn:Ep.
  - destruct (owned_no_large k s _ _ Ho (λ b Hb, proj2 (elem_of_app _ _ _) (or_introl Hb)) Ep) as [Hl Hk].
    rewrite Hbody, Ep by (by left). rewrite Hk, frames_of_inner, <- app_assoc in Ho.
    destruct (Hsub s _ _ Ho) as (s1 & -> & Ho1 & Hw1 & Hf1). cbn [mbind outcome_bind].
    assert (entry s1 t (Z.of_nat i) = entry s t (Z.of_nat i)) as ->.
    { apply (own_entry _ s s1 t _ Hw1); [|lia]. apply list_elem_of_further, list_elem_of_here. }
    destruct (free_frame_spec _ _ s1 _ Ho1) as (s2 & -> & Ho2 & Hw2 & Hf2). exists s2.
    split_and!; [done|done| |by apply (foreign_words_trans s s1)].
    apply (own_words_trans _ s s1); [|done]. eapply own_words_sub; [|exact Hw1].
    intros b Hb. by apply list_elem_of_further.
  - rewrite Hbody, Ep by (by right). unfold kids in Ho. rewrite Ep in Ho. exists s.
    split_and!; [done|done|done|apply foreign_words_refl].
Qed.

Lemma free_loop_spec k sub t body A n : frees_inner k sub → frees_entry k sub t body → ∀ i s,
  (i + n = 512)%nat →
  owned s (mjoin ((λ j : nat, kids k s (entry s t (Z.of_nat j))) <$> seq i n) ++ (t, 0%nat) :: A) →
  ∃ s', for_loop_o body i n s = Ret s' ∧ owned s' ((t, 0%nat) :: A) ∧
    own_words ((t, 0%nat) :: A) s s' ∧ foreign_words s s'.
Proof.
  intros Hsub Hbody. induction n as [|n IH]; intros i s Hi Ho.
  { exists s. split_and!; [done|done|done|apply foreign_words_refl]. }
  cbn [seq fmap list_fmap mjoin list_join] in Ho. rewrite <- app_assoc in Ho.
  set (K := λ s (j : nat), kids k s (entry s t (Z.of_nat j))) in *.
  set (rest := mjoin (K s <$> seq (Datatypes.S i) n)) in *.
  destruct (free_entry_spec k sub t body i s (rest ++ A) Hsub Hbody ltac:(lia)) as (s1 & Hb & Ho1 & Hw1 & Hf1).
  { eapply owned_perm; [exact Ho|]. apply Permutation_app_head. by rewrite Permutation_middle. }
  assert (K s1 <$> seq (Datatypes.S i) n = K s <$> seq (Datatypes.S i) n) as HK.
  { apply list_fmap_ext. intros m j Hj. apply lookup_seq in Hj as [-> Hm]. unfold K.
    rewrite (own_entry _ s s1 t _ Hw1) by (apply list_elem_of_here || lia). apply kids_ext.
    eapply own_words_sub; [|exact Hw1]. intros b Hb'. apply list_elem_of_further, elem_of_app. left.
    unfold rest. apply list_elem_of_join. eexists. split; [exact Hb'|]. apply list_elem_of_fmap.
    exists (Datatypes.S i + m)%nat. split; [done|]. apply elem_of_seq. lia. }
  destruct (IH (Datatypes.S i) s1 ltac:(lia)) as (s2 & Hl & Ho2 & Hw2 & Hf2).
  { change (owned s1 (mjoin (K s1 <$> seq (Datatypes.S i) n) ++ (t, 0%nat) :: A)). rewrite HK. fold rest.
    eapply owned_perm; [exact Ho1|]. by rewrite Permutation_middle. }
  exists s2. cbn [for_loop_o]. rewrite Hb. split_and!; [done|done| |by apply (foreign_words_trans s s1)].
  apply (own_words_trans _ s s1); [|done]. eapply own_words_sub; [|exact Hw1].
  intros b [->|Hb']%elem_of_cons; [apply list_elem_of_here|]. apply list_elem_of_further, elem_of_app. by right.
Qed.

Lemma frees_level k sub body : frees_inner k sub → (∀ t, frees_entry k sub t (body t)) →
  frees_inner (Datatypes.S k) (λ t s, for_loop_o (body t) 0 512 s).
Proof.
  intros Hsub Hbody s t A Ho. unfold inner in Ho. rewrite slots_seq in Ho.
  by apply (free_loop_spec k sub t (body t) A 512 Hsub (Hbody t) 0 s).
Qed.

Lemma free_page_inner : frees_inner 0 (λ _ s, Ret s).
Proof. intros s t A Ho. exists s. split_and!; [done|done|done|apply foreign_words_refl]. Qed.

Lemma free_pt_inner : frees_inner 1 free_pt.
Proof. apply (frees_level 0 _ _ free_page_inner). by intros t i s _. Qed.

Lemma free_pd_inner : frees_inner 2 free_pd.
Proof.
  apply (frees_level 1 _ _ free_pt_inner). intros t i s Hl.
  destruct (present (entry s t (Z.of_nat i))); [|done]. cbn [negb]. destruct Hl as [Hl|]; [|done].
  rewrite andb_true_r in Hl. by rewrite Hl.
Qed.

Lemma free_pdpt_inner : frees_inner 3 free_pdpt.
Proof.
  apply (frees_level 2 _ _ free_pd_inner). intros t i s _. by destruct (present (entry s t (Z.of_nat i))).
Qed.

Lemma destroy_aspace_spec root s A :
  owned s (user_frames s root ++ A) →
  (∀ i, 0 < i < 511 → i ≠ USER_SLOT → present (entry s root i) = false) →
  ∃ s', vmm_destroy_user_aspace root s = Ret s' ∧ owned s' A ∧ own_words A s s' ∧ foreign_words s s'.
Proof.
  intros Ho Hslots. unfold vmm_destroy_user_aspace.
  set (body := λ (i : nat) s, if negb (present (entry s root (Z.of_nat i))) || (i =? 0)%nat || (i =? 511)%nat then Ret s
    else s0 ← free_pdpt (frame_of (entry s root (Z.of_nat i))) s;
         free_frame (frame_of (entry s0 root (Z.of_nat i))) 0 s0).
  change (for_loop_o _ 0 512 s) with (for_loop_o body 0 (255 + (1 + 256)) s).
  assert (∀ i s', (i < 512)%nat → i ≠ 255%nat → (∀ j, 0 ≤ j < 512 → entry s' root j = entry s root j) →
    body i s' = Ret s') as Hskip.
  { intros i s' Hi Hne He. unfold body. rewrite He by lia. destruct (decide (i = 0 ∨ i = 511)%nat) as [[->| ->]|Hi'].
    - by rewrite orb_true_r.
    - by rewrite orb_true_r.
    - rewrite Hslots; [done|lia|unfold USER_SLOT; lia]. }
  rewrite (for_loop_o_app body 255 (1 + 256) 0 s), (for_loop_o_skip body 255 0 s)
    by (intros j Hj; apply Hskip; (done || lia)).
  cbn [mbind outcome_bind]. rewrite (for_loop_o_app body 1 256 (0 + 255) s), for_loop_o_one.
  change (0 + 255)%nat with 255%nat.
  destruct (free_entry_spec 3 free_pdpt root (λ i s, if negb (present (entry s root (Z.of_nat i))) then Ret s
    else s0 ← free_pdpt (frame_of (entry s root (Z.of_nat i))) s;
         free_frame (frame_of (entry s0 root (Z.of_nat i))) 0 s0) 255 s A free_pdpt_inner)
    as (s1 & Hb & Ho1 & Hw1 & Hf1).
  { intros i s' _. by destruct (present (entry s' root (Z.of_nat i))). }
  { lia. }
  { eapply owned_perm; [exact Ho|]. unfold user_frames. cbn [app]. change (Z.of_nat 255) with USER_SLOT.
    by rewrite Permutation_middle. }
  assert (body 255%nat s = Ret s1) as ->.
  { rewrite <- Hb. unfold body. cbn [Nat.eqb]. by rewrite !orb_false_r. }
  cbn [mbind outcome_bind]. rewrite (for_loop_o_skip body 256 (255 + 1) s1).
  2:{ intros j Hj. apply Hskip; [lia|lia|]. intros i Hi. apply (own_entry _ s s1 root i Hw1); [apply list_elem_of_here|done]. }
  cbn [mbind outcome_bind]. destruct (free_frame_spec root 0 s1 A Ho1) as (s2 & -> & Ho2 & Hw2 & Hf2).
  exists s2. split_and!; [done|done| |by apply (foreign_words_trans s s1)].
  apply (own_words_trans _ s s1); [|done]. eapply own_words_sub; [|exact Hw1].
  intros b Hb'. by apply list_elem_of_further.
Qed.

(** C30. Destroying an address space whose kernel slots are 0 and 511 terminates
    and gives back every frame of it exactly once: the root, the tables and the
    mapped pages.  What other owners hold stays theirs, with its contents. *)
Theorem vmm_destroy_user_aspace_correct root s A :
  owned s (user_frames s root ++ A) →
  (∀ i, 0 < i < 511 → i ≠ USER_SLOT → present (entry s root i) = false) →
  ∃ s', vmm_destroy_user_aspace root s = Ret s' ∧ owned s' A ∧ own_words A s s' ∧ foreign_words s s'.
Proof.
  intros Ho Hslots. by apply destroy_aspace_spec.
Qed.

(** Clearing the user slot after a failed copy. *)
Lemma dup_cleanup_spec dst s A : owned s (user_frames s dst ++ A) →
  ∃ s', dup_cleanup dst s = Ret s' ∧ owned s' (user_frames s' dst ++ A) ∧
    present (entry s' dst USER_SLOT) = false ∧ own_words A s s' ∧ foreign_words s s' ∧
    ∀ i, 0 ≤ i < 512 → i ≠ USER_SLOT → entry s' dst i = entry s dst i.
Proof.
  intros Ho. unfold dup_cleanup. destruct (present (entry s dst USER_SLOT)) eqn:Ep; cbn [negb]; cycle 1.
  { exists s. split_and!; [done..|apply foreign_words_refl|done]. }
  assert (0 ≤ USER_SLOT < 512) as Hu by by_eval.
  destruct (owned_no_large 3 s _ _ Ho (λ b Hb, proj2 (elem_of_app _ _ _) (or_introl (list_elem_of_further b _ _ Hb))) Ep) as [_ Hk].
  destruct (free_pdpt_inner s (frame_of (entry s dst USER_SLOT)) ((dst, 0%nat) :: A)) as (s1 & -> & Ho1 & Hw1 & Hf1).
  { eapply owned_perm; [exact Ho|]. unfold user_frames. rewrite Hk, frames_of_inner. cbn [app].
    rewrite <- app_assoc, Permutation_middle. apply Permutation_app_head. by apply perm_swap. }
  cbn [mbind outcome_bind].
  assert (∀ i, 0 ≤ i < 512 → entry s1 dst i = entry s dst i) as He1.
  { intros i Hi. apply (own_entry _ s s1 dst i Hw1); [|done]. apply list_elem_of_further, list_elem_of_here. }
  rewrite He1 by done. destruct (free_frame_spec _ _ s1 _ Ho1) as (s2 & -> & Ho2 & Hw2 & Hf2).
  cbn [mbind outcome_bind].
  destruct (set_entry_spec dst USER_SLOT 0 s2 _ Ho2 (list_elem_of_here _ _) Hu) as (Ho3 & Hout & Hf3 & He3).
  set (s3 := set_entry dst USER_SLOT 0 s2) in *.
  assert (entry s3 dst USER_SLOT = 0) as Hz by (by rewrite He3, decide_True).
  exists s3. split; [done|]. unfold user_frames, kids. rewrite Hz. split_and!; [done|done| | |].
  - apply (own_words_trans _ s s1).
    { eapply own_words_sub; [|exact Hw1]. intros b Hb. by apply list_elem_of_further, list_elem_of_further. }
    apply (own_words_trans _ s1 s2); [|by eapply outside_own].
    eapply own_words_sub; [|exact Hw2]. intros b Hb. by apply list_elem_of_further.
  - apply (foreign_words_trans s s1); [done|]. apply (foreign_words_trans s1 s2); [done|].
    eapply outside_foreign; [exact Ho2|apply list_elem_of_here|done|done].
  - intros i Hi Hne. rewrite He3, decide_False by done. rewrite <- He1 by done.
    apply (own_entry _ s1 s2 dst i Hw2); [apply list_elem_of_here|done].
Qed.

(** ** The high-half aliases *)

Lemma entry_set t i j v s : entry (set_entry t i v s) t j = if decide (j = i) then v else entry s t j.
Proof.
  unfold entry, set_entry. rewrite word_set. destruct (decide (j = i)) as [->|]; [by rewrite decide_True|].
  by rewrite decide_False by lia.
Qed.

(** The frames the loop passes over: device windows and the framebuffer. *)
Definition skipped (fb_lo fb_hi pa : Z) : bool :=
  window_slot (pa / 2 ^ 21) || (negb (fb_hi =? 0) && (pa <? fb_hi) && (fb_lo <? pa + 2 ^ 21)).

Lemma alias_loop_spec hi fb_lo fb_hi : hi ≤ 2 ^ 30 → ∀ fuel q s, 0 ≤ q → hi ≤ (q + Z.of_nat fuel) * 2 ^ 21 →
  ∀ j, entry (alias_loop fuel (q * 2 ^ 21) hi fb_lo fb_hi s) PD_HI j =
    if decide (q ≤ j ∧ j * 2 ^ 21 < hi ∧ skipped fb_lo fb_hi (j * 2 ^ 21) = false)
    then j * 2 ^ 21 + 0x83 else entry s PD_HI j.
Proof.
  intros Hhi. induction fuel as [|f IH]; intros q s Hq Hf j.
  { cbn [alias_loop]. by rewrite decide_False by lia. }
  cbn [alias_loop]. destruct (q * 2 ^ 21 <? hi) eqn:E; bool_split; cbn [andb]; cycle 1.
  { rewrite decide_False; [done|]. intros (? & ? & _). lia. }
  rewrite (proj2 (Z.ltb_lt (q * 2 ^ 21) 0xC0000000)) by lia.
  assert (0 ≤ q < 512) as Hq' by lia.
  assert (Z.land (Z.shiftr (q * 2 ^ 21) 21) 511 = q) as Hidx.
  { rewrite Z.shiftr_div_pow2, Z.div_mul, land_511, Z.mod_small by lia. done. }
  assert (u64 (q * 2 ^ 21 + 0x200000) = (q + 1) * 2 ^ 21) as Hnext by (rewrite u64_small; lia).
  rewrite Hidx, Hnext, IH by lia.
  assert (skipped fb_lo fb_hi (q * 2 ^ 21) =
    window_slot q || (negb (fb_hi =? 0) && (q * 2 ^ 21 <? fb_hi) && (fb_lo <? (q + 1) * 2 ^ 21))) as Hsk.
  { unfold skipped. rewrite Z.div_mul by lia. by replace (q * 2 ^ 21 + 2 ^ 21) with ((q + 1) * 2 ^ 21) by lia. }
  assert (Z.lor (Z.lor (Z.lor (q * 2 ^ 21) PG_P) PG_W) PG_PS = q * 2 ^ 21 + 0x83) as Hv.
  { rewrite <- !Z.lor_assoc. apply lor_aligned; [exists (q * 512)|unfold PG_P, PG_W, PG_PS; cbn]; lia. }
  destruct (decide (j = q)) as [->|Hne].
  - rewrite decide_False by lia. rewrite Hsk. rewrite Hv.
    destruct (window_slot q); cbn [orb]; [by rewrite decide_False by (intros (_ & _ & ?); done)|].
    destruct (_ && _); [by rewrite decide_False by (intros (_ & _ & ?); done)|].
    rewrite decide_True by lia. by rewrite entry_set, decide_True.
  - assert (entry (if window_slot q then s else if negb (fb_hi =? 0) && (q * 2 ^ 21 <? fb_hi) && (fb_lo <? (q + 1) * 2 ^ 21)
      then s else set_entry PD_HI q (Z.lor (Z.lor (Z.lor (q * 2 ^ 21) PG_P) PG_W) PG_PS) s) PD_HI j = entry s PD_HI j) as ->.
    { destruct (window_slot q); [done|]. destruct (_ && _); [done|]. by rewrite entry_set, decide_False. }
    destruct (decide (q + 1 ≤ j ∧ _)) as [Hd|Hd]; destruct (decide (q ≤ j ∧ _)) as [Hd'|Hd']; try done; exfalso.
    + apply Hd'. split; [lia|apply Hd].
    + apply Hd. split; [lia|apply Hd'].
Qed.

Lemma heap_window_spec heap_phys n : 0 ≤ heap_phys → heap_phys + 16 * 2 ^ 21 < 2 ^ 64 → ∀ i s j, (i + n ≤ 16)%nat →
  entry (for_loop (λ i, set_entry PD_HI (256 + Z.of_nat i)
    (Z.lor (Z.lor (Z.lor (u64 (heap_phys + Z.of_nat i * 0x200000)) PG_P) PG_W) PG_PS)) i n s) PD_HI j =
  if decide (256 + Z.of_nat i ≤ j < 256 + Z.of_nat (i + n))
  then Z.lor (Z.lor (Z.lor (heap_phys + (j - 256) * 2 ^ 21) PG_P) PG_W) PG_PS else entry s PD_HI j.
Proof.
  intros Hh Hb. induction n as [|n IH]; intros i s j Hi; cbn [for_loop].
  { by rewrite decide_False by lia. }
  rewrite IH, entry_set by lia. rewrite u64_small by lia.
  destruct (decide (j = 256 + Z.of_nat i)) as [->|].
  - rewrite decide_False, decide_True by lia. by replace (256 + Z.of_nat i - 256) with (Z.of_nat i) by lia.
  - destruct (decide (256 + Z.of_nat (Datatypes.S i) ≤ j < _)); destruct (decide (256 + Z.of_nat i ≤ j < _)); (done || lia).
Qed.

(** On a machine whose heap ends within the first GiB, [vmm_init] leaves
    the slots of the kernel image alone, aliases every 2 MiB frame from the end
    of the image to the end of the heap that is not a device window, part of
    the framebuffer or hidden by the heap window, and maps the heap window to
    consecutive 2 MiB frames from the heap's start. *)
Theorem vmm_init_alias kernel_end heap_phys heap_size fb_lo fb_hi s :
  let lo := ALIGN_UP (VIRT_TO_PHYS kernel_end) 0x200000 in
  let hi := ALIGN_UP (u64 (heap_phys + heap_size)) 0x200000 in
  let s' := vmm_init kernel_end heap_phys heap_size fb_lo fb_hi s in
  VIRT_TO_PHYS kernel_end < 2 ^ 30 → hi ≤ 2 ^ 30 → 0 ≤ heap_phys < 2 ^ 62 →
  ∀ j, 0 ≤ j < 512 → entry s' PD_HI j =
    if decide (256 ≤ j < 272) then Z.lor (Z.lor (Z.lor (heap_phys + (j - 256) * 2 ^ 21) PG_P) PG_W) PG_PS
    else if decide (lo ≤ j * 2 ^ 21 < hi ∧ skipped fb_lo fb_hi (j * 2 ^ 21) = false) then j * 2 ^ 21 + 0x83
    else entry s PD_HI j.
Proof.
  intros lo hi s' Hk Hhi Hh j Hj. subst s'. unfold vmm_init.
  rewrite (heap_window_spec heap_phys 16) by lia. change (Z.of_nat (0 + 16)) with 16. change (256 + Z.of_nat 0) with 256.
  destruct (decide (256 ≤ j < 256 + 16)); [by rewrite decide_True by lia|]. rewrite decide_False by lia.
  fold lo hi. pose proof (u64_range (kernel_end - HIGH_BASE)) as Hv. fold (VIRT_TO_PHYS kernel_end) in Hv.
  destruct (ALIGN_UP_spec (VIRT_TO_PHYS kernel_end) 21) as [Hlo [q Hq]]; [lia..|].
  change (2 ^ 21) with 0x200000 in Hlo, Hq. fold lo in Hlo, Hq. rewrite Hq.
  rewrite alias_loop_spec by lia.
  destruct (decide (q ≤ j ∧ _)) as [Hd|Hd]; destruct (decide (q * _ ≤ _ < hi ∧ _)) as [Hd'|Hd']; try done; exfalso.
  - apply Hd'. split; [lia|apply Hd].
  - apply Hd. split_and!; [lia|lia|apply Hd'].
Qed.
End life.
