(* ===== verification/VmmDup.v ===== *)
(** Fork's deep copy of an address space ([dup_user_aspace] of
    [kernel/mm/vmm.c]): the copy has the same pages with the same permissions
    and contents in frames of its own, or it is undone completely. *)
From S2P Require Import Prelude Pmm PmmFacts PmmInit Frames Vmm VmmFacts VmmLife.

(** Membership in a concatenation. *)
Ltac in_app := rewrite ?elem_of_app, ?elem_of_cons in *; tauto.

(** ** The address a copy loop computes *)

Lemma dup_va_sum i3 i2 i1 : (i3 < 512)%nat → (i2 < 512)%nat → (i1 < 512)%nat →
  dup_va i3 i2 i1 = ((255 * 512 + Z.of_nat i3) * 512 + Z.of_nat i2) * 2 ^ 21 + Z.of_nat i1 * 2 ^ 12.
Proof.
  intros H3 H2 H1. unfold dup_va, USER_SLOT. rewrite !Z.shiftl_mul_pow2 by lia.
  rewrite (lor_low (255 * 2 ^ 39) _ 39) by (lia || by exists 255).
  rewrite (lor_low _ (Z.of_nat i2 * 2 ^ 21) 30) by (lia || (exists (255 * 512 + Z.of_nat i3); lia)).
  rewrite (lor_low _ (Z.of_nat i1 * 2 ^ 12) 21) by (lia || (exists ((255 * 512 + Z.of_nat i3) * 512 + Z.of_nat i2); lia)).
  lia.
Qed.

Lemma dup_va_path i3 i2 i1 : (i3 < 512)%nat → (i2 < 512)%nat → (i1 < 512)%nat →
  user_va (dup_va i3 i2 i1) ∧ dup_va i3 i2 i1 mod 4096 = 0 ∧
  vpath (dup_va i3 i2 i1) = [Z.of_nat i3; Z.of_nat i2; Z.of_nat i1].
Proof.
  intros H3 H2 H1. rewrite dup_va_sum by done.
  set (a := Z.of_nat i3). set (b := Z.of_nat i2). set (c := Z.of_nat i1).
  set (v := ((255 * 512 + a) * 512 + b) * 2 ^ 21 + c * 2 ^ 12).
  assert (v / 2 ^ 12 = ((255 * 512 + a) * 512 + b) * 512 + c) as E1.
  { replace v with ((((255 * 512 + a) * 512 + b) * 512 + c) * 2 ^ 12) by (unfold v; lia). apply Z.div_mul. lia. }
  assert (v / 2 ^ 21 = (255 * 512 + a) * 512 + b) as E2.
  { change (2 ^ 21) with (2 ^ 12 * 512). rewrite <- Z.div_div, E1, Z.div_add_l, Z.div_small by lia. lia. }
  assert (v / 2 ^ 30 = 255 * 512 + a) as E3.
  { change (2 ^ 30) with (2 ^ 21 * 512). rewrite <- Z.div_div, E2, Z.div_add_l, Z.div_small by lia. lia. }
  split_and!.
  - unfold user_va, USER_BASE, v. lia.
  - replace v with ((((255 * 512 + a) * 512 + b) * 512 + c) * 4096) by (unfold v; lia). apply Z.mod_mul. lia.
  - unfold vpath, i3_of, i2_of, i1_of. rewrite !land_511, !Z.shiftr_div_pow2, E1, E2, E3 by lia.
    rewrite !(Z.add_comm (_ * 512)), !Z.mod_add, !Z.mod_small by lia. done.
Qed.

Section dup.
Context {S : Type} `{FrameLaws S}.
Implicit Types (s : S) (F A R : list (Z * nat)).

Lemma copy_page_spec dst src s A : owned s A → (dst, 0%nat) ∈ A → (src, 0%nat) ∈ A → src ≠ dst →
  let s' := copy_page dst src s in
  owned s' A ∧ outside dst s s' ∧ (∀ x, foreign s x → foreign s' x) ∧
  ∀ i, 0 ≤ i < 512 → entry s' dst i = entry s src i.
Proof.
  intros Ho Hd Hs Hne s'.
  destruct (fill_spec (λ _, false) (λ i s, entry s src (Z.of_nat i)) dst A 512 0 s) as (? & ? & ? & He); [|done|done|lia|].
  - intros j s1 s2 Hj Hout. apply Hout. intros Hin.
    assert ((src, 0%nat) = (dst, 0%nat)); [|congruence].
    eapply owned_unique; [exact Ho|done|done|apply (in_table src (Z.of_nat j)); lia|done].
  - split_and!; [done..|]. intros i Hi. specialize (He (Z.to_nat i)).
    rewrite Z2Nat.id, decide_True in He by lia. exact He.
Qed.

(** The tree at [d] is a copy of the one at [t]. *)
Fixpoint copies (k : nat) s (t d : Z) : Prop :=
  match k with
  | O => ∀ i, 0 ≤ i < 512 → entry s d i = entry s t i
  | Datatypes.S k' => ∀ i, 0 ≤ i < 512 →
      if present (entry s t i) then
        present (entry s d i) = true ∧
        (k' = 0%nat → Z.land (entry s d i) 0xfff = Z.land (entry s t i) 0xfff) ∧
        copies k' s (frame_of (entry s t i)) (frame_of (entry s d i))
      else entry s d i = 0
  end.

Definition copied_entry (k : nat) s (t d i : Z) : Prop :=
  if present (entry s t i) then
    present (entry s d i) = true ∧
    (k = 0%nat → Z.land (entry s d i) 0xfff = Z.land (entry s t i) 0xfff) ∧
    copies k s (frame_of (entry s t i)) (frame_of (entry s d i))
  else entry s d i = 0.

(** A subtree's frames are all in [F] and none of them is a large page. *)
Definition tree_in (k : nat) s (t : Z) F : Prop := ∀ b, b ∈ frames_of k s t → b ∈ F.

Lemma tree_in_kid k s t i F A : owned s A → (∀ b, b ∈ F → b ∈ A) → tree_in (Datatypes.S k) s t F →
  0 ≤ i < 512 → present (entry s t i) = true → tree_in k s (frame_of (entry s t i)) F.
Proof.
  intros Ho HF Ht Hi Hp b Hb. destruct (owned_no_large k s (entry s t i) A Ho) as [_ Hk]; [|done|].
  - intros b' Hb'. apply HF, Ht. by apply (kids_sub k s t i).
  - apply Ht, (kids_sub k s t i); [done|]. by rewrite Hk.
Qed.

Lemma copies_ext k s s' A F : owned s A → (∀ b, b ∈ F → b ∈ A) → own_words F s s' → ∀ t d,
  tree_in k s t F → tree_in k s d F → copies k s t d → copies k s' t d.
Proof.
  intros Ho HF Hw. induction k as [|k IH]; intros t d Ht Hd Hc i Hi.
  - rewrite (own_entry _ s s' d i Hw (Hd _ (frames_of_here _ s d)) Hi).
    rewrite (own_entry _ s s' t i Hw (Ht _ (frames_of_here _ s t)) Hi). by apply Hc.
  - specialize (Hc i Hi). rewrite (own_entry _ s s' d i Hw (Hd _ (frames_of_here _ s d)) Hi).
    rewrite (own_entry _ s s' t i Hw (Ht _ (frames_of_here _ s t)) Hi).
    destruct (present (entry s t i)) eqn:Ep; [|done]. destruct Hc as (Hp' & Hfl & Hc).
    split_and!; [done|done|]. apply IH; [by eapply tree_in_kid|by eapply tree_in_kid|done].
Qed.

(** The copy has the leaves of the original. *)
Lemma copies_leaf k s : ∀ t d q, copies (Datatypes.S k) s t d → path_ok (Datatypes.S k) q →
  let e := leaf_at (Datatypes.S k) s t q in
  let e' := leaf_at (Datatypes.S k) s d q in
  if present e then
    present e' = true ∧ Z.land e' 0xfff = Z.land e 0xfff ∧
    ∀ i, 0 ≤ i < 512 → entry s (frame_of e') i = entry s (frame_of e) i
  else present e' = false.
Proof.
  induction k as [|k IH]; intros t d [|i q] Hc [Hl Hq]; try done; apply Forall_cons in Hq as [Hi Hq].
  - cbn [leaf_at]. specialize (Hc i Hi). destruct (present (entry s t i)); [|by rewrite Hc].
    destruct Hc as (Hp & Hf & Hc). by auto.
  - rewrite !leaf_at_S. specialize (Hc i Hi). destruct (present (entry s t i)) eqn:Ep; [|by rewrite Hc].
    destruct Hc as (Hp & _ & Hc). rewrite Hp. apply IH; [done|]. split; [by inversion Hl|done].
Qed.

Lemma user_frames_ext s s' root : own_words (user_frames s root) s s' → user_frames s' root = user_frames s root.
Proof.
  intros Hw. unfold user_frames. rewrite (own_entry _ s s' root USER_SLOT Hw) by (apply list_elem_of_here || by_eval).
  apply (f_equal (cons _)), kids_ext. eapply own_words_sub; [|exact Hw]. intros b Hb. by apply list_elem_of_further.
Qed.

Lemma user_leaf_ext s s' root q A : owned s (user_frames s root ++ A) → path_ok 3 q →
  own_words (user_frames s root) s s' → user_leaf s' root q = user_leaf s root q.
Proof.
  intros Ho Hq Hw. unfold user_leaf. rewrite (own_entry _ s s' root USER_SLOT Hw) by (apply list_elem_of_here || by_eval).
  destruct (present (entry s root USER_SLOT)) eqn:Ep; [|done].
  assert (∀ b, b ∈ kids 3 s (entry s root USER_SLOT) → b ∈ user_frames s root) as Hsub
    by (intros b Hb; by apply list_elem_of_further).
  destruct (owned_no_large 3 s _ _ Ho (λ b Hb, proj2 (elem_of_app _ _ _) (or_introl (Hsub b Hb))) Ep) as [_ Hk].
  rewrite Hk in Hsub. eapply leaf_at_ext; [done|exact Ho| |by eapply own_words_sub].
  intros b Hb. apply elem_of_app. left. by apply Hsub.
Qed.

(** ** One level of the copy

    [st] is a table of the source reached by the indices [pre], [dt] the
    table of the copy that corresponds to it. *)
Record dup_pre (k : nat) (src : Z) (pre : list Z) (st dt : Z) A s : Prop := {
  dp_owned : owned s (frames_of k s dt ++ user_frames s src ++ A);
  dp_tree : tree_in k s st (user_frames s src);
  dp_path q : path_ok k q → path_ok 3 (pre ++ q) ∧ user_leaf s src (pre ++ q) = leaf_at k s st q;
}.

Record dup_post (k : nat) (src dt : Z) A s s' : Prop := {
  dq_owned : owned s' (frames_of k s' dt ++ user_frames s src ++ A);
  dq_words : own_words (user_frames s src ++ A) s s';
  dq_foreign : foreign_words s s';
}.

Lemma own_words_l F G s s' : own_words (F ++ G) s s' → own_words F s s'.
Proof. apply own_words_sub. intros b Hb. apply elem_of_app. by left. Qed.
Lemma own_words_r F G s s' : own_words (F ++ G) s s' → own_words G s s'.
Proof. apply own_words_sub. intros b Hb. apply elem_of_app. by right. Qed.

(** The preconditions survive what keeps the source's words. *)
Lemma dup_pre_next k src pre st dt A A' s s' :
  dup_pre k src pre st dt A s → owned s' (frames_of k s' dt ++ user_frames s src ++ A') →
  own_words (user_frames s src) s s' → dup_pre k src pre st dt A' s'.
Proof.
  intros [Ho Ht Hp] Ho' Hws.
  assert (owned s (user_frames s src ++ frames_of k s dt ++ A)) as Hos.
  { eapply owned_perm; [exact Ho|]. apply Permutation_app_swap_app. }
  assert (user_frames s' src = user_frames s src) as Hu by (by apply user_frames_ext).
  assert (frames_of k s' st = frames_of k s st) as Hfr.
  { apply frames_of_ext. by eapply own_words_sub; [|exact Hws]. }
  constructor.
  - by rewrite Hu.
  - unfold tree_in. by rewrite Hu, Hfr.
  - intros q Hq. destruct (Hp q Hq) as [Hok He]. split; [done|].
    rewrite (user_leaf_ext s s' src _ _ Hos Hok Hws), He. symmetry.
    eapply leaf_at_ext; [done|exact Hos| |by eapply own_words_sub; [|exact Hws]].
    intros b Hb. apply elem_of_app. left. by apply Ht.
Qed.

Lemma dup_post_refl k src dt A s : owned s (frames_of k s dt ++ user_frames s src ++ A) → dup_post k src dt A s s.
Proof. intros Ho. constructor; [done|done|apply foreign_words_refl]. Qed.

Lemma dup_post_trans k src dt A s1 s2 s3 :
  dup_post k src dt A s1 s2 → dup_post k src dt A s2 s3 → dup_post k src dt A s1 s3.
Proof.
  intros [Ho2 Hw2 Hf2] [Ho3 Hw3 Hf3].
  rewrite (user_frames_ext s1 s2 src) in * by (by eapply own_words_l).
  constructor; [done|by apply (own_words_trans _ s1 s2)|by apply (foreign_words_trans s1 s2)].
Qed.

(** What a round of the loop at index [i] does to the copy's table. *)
Definition step_post (k : nat) (src st dt : Z) (i : nat) A s (r : bool * S) : Prop :=
  dup_post (Datatypes.S k) src dt A s r.2 ∧ own_words (siblings k s dt (Z.of_nat i)) s r.2 ∧
  (∀ j, 0 ≤ j < 512 → j ≠ Z.of_nat i → entry r.2 dt j = entry s dt j) ∧
  (r.1 = true → copied_entry k r.2 st dt (Z.of_nat i)).

Definition dup_steps (k : nat) (src : Z) (pre : list Z) (st dt : Z) (body : nat → S → bool * S) : Prop :=
  ∀ i s A, (i < 512)%nat → dup_pre (Datatypes.S k) src pre st dt A s → entry s dt (Z.of_nat i) = 0 →
    step_post k src st dt i A s (body i s).

Lemma copied_entry_ext k src pre st dt A s s' i j :
  dup_pre (Datatypes.S k) src pre st dt A s → 0 ≤ i < 512 → 0 ≤ j < 512 → j ≠ i →
  dup_post (Datatypes.S k) src dt A s s' → own_words (siblings k s dt i) s s' →
  entry s' dt j = entry s dt j → copied_entry k s st dt j → copied_entry k s' st dt j.
Proof.
  intros [Ho Ht _] Hi Hj Hne [_ Hw _] Hws He Hc. unfold copied_entry in *. rewrite He.
  rewrite (own_entry _ s s' st j (own_words_l _ _ _ _ Hw)) by (done || (apply Ht, frames_of_here)).
  destruct (present (entry s st j)) eqn:Ep; [|done]. destruct Hc as (Hp & Hfl & Hc). split_and!; [done|done|].
  assert (∀ b, b ∈ kids k s (entry s dt j) → b ∈ frames_of (Datatypes.S k) s dt ++ user_frames s src ++ A) as HA.
  { intros b Hb. apply elem_of_app. left. by apply (kids_sub k s dt j). }
  destruct (owned_no_large k s _ _ Ho HA Hp) as [_ Hk].
  eapply (copies_ext k s s' _ (user_frames s src ++ siblings k s dt i) Ho); [| | | |exact Hc].
  - intros b [Hb|Hb]%elem_of_app; [in_app|]. apply elem_of_app. left.
    rewrite (frames_split k s dt i) by done. apply elem_of_app. right. by apply list_elem_of_further.
  - intros x. rewrite owners_app. intros Hx. destruct (decide (owners x (user_frames s src) = 0%nat)).
    + apply Hws. lia.
    + apply (own_words_l _ _ _ _ Hw). done.
  - intros b Hb. apply elem_of_app. left. eapply (tree_in_kid k s st j); [exact Ho|intros; in_app|done|done|done|done].
  - intros b Hb. apply elem_of_app. right. apply (kids_siblings k s dt i j); [done|done|done|]. by rewrite Hk.
Qed.

Lemma dup_loop k src pre st dt body A n : dup_steps k src pre st dt body → ∀ i s,
  (i + n = 512)%nat → dup_pre (Datatypes.S k) src pre st dt A s →
  (∀ j, 0 ≤ j < Z.of_nat i → copied_entry k s st dt j) →
  (∀ j, Z.of_nat i ≤ j < 512 → entry s dt j = 0) →
  let r := for_dup body i n s in
  dup_post (Datatypes.S k) src dt A s r.2 ∧ (r.1 = true → copies (Datatypes.S k) r.2 st dt).
Proof.
  intros Hb. induction n as [|n IH]; intros i s Hi Hpre Hdone Hz r.
  { split; [apply dup_post_refl, Hpre|]. intros _ j Hj. apply Hdone. lia. }
  subst r. cbn [for_dup]. destruct (Hb i s A ltac:(lia) Hpre ltac:(apply Hz; lia)) as (Hpost & Hws & He & Hc).
  destruct (body i s) as [ok s1]. cbn [fst snd] in *. destruct ok; [|done].
  destruct (IH (Datatypes.S i) s1) as [Hpost' Hc']; [lia| | | |].
  - eapply dup_pre_next; [done|apply Hpost|]. by eapply own_words_l, dq_words.
  - intros j Hj. destruct (decide (j = Z.of_nat i)) as [->|Hne]; [by apply Hc|].
    eapply (copied_entry_ext k src pre st dt A s s1 (Z.of_nat i)); [done|lia|lia|done|done|done| |].
    + apply He; lia.
    + apply Hdone. lia.
  - intros j Hj. rewrite He by lia. apply Hz. lia.
  - split; [by eapply dup_post_trans|done].
Qed.

Lemma owned_fresh s a F : owned s ((a, 0%nat) :: F) → (a, 0%nat) ∉ F.
Proof.
  intros Ho Hin. pose proof (owned_disjoint _ _ a Ho) as Hd. assert (in_blk a a 0) as Ha.
  { unfold in_blk. change (blk_size 0) with 4096. lia. }
  rewrite owners_cons in Hd. cbn [fst snd] in Hd. rewrite decide_True in Hd by done.
  pose proof (owners_pos a a 0 F Hin Ha). lia.
Qed.

Lemma siblings_slot k s t i Y x : owned s (frames_of (Datatypes.S k) s t ++ Y) → 0 ≤ i < 512 →
  owners x (siblings k s t i) ≠ 0%nat → x ≠ t + 8 * i ∧ owners x (frames_of (Datatypes.S k) s t) ≠ 0%nat.
Proof.
  intros Ho Hi Hx. pose proof (owned_disjoint _ _ x Ho) as Hd. rewrite owners_app in Hd.
  rewrite (owners_perm x _ _ (frames_split k s t i Hi)) in *. unfold others in *.
  rewrite owners_app, owners_cons in *. cbn [fst snd] in *. split; [|lia]. intros ->.
  rewrite decide_True in Hd by (by apply in_table). lia.
Qed.

Lemma copy_flags npa e : (4096 | npa) → let v := Z.lor npa (Z.land e 0xfff) in
  frame_of v = npa ∧ present v = present e ∧ Z.land v 0xfff = Z.land e 0xfff.
Proof.
  intros Hal v. assert (0 ≤ Z.land e 0xfff < 4096) as Hf.
  { change 0xfff with (2 ^ 12 - 1). rewrite land_mask by lia. apply Z.mod_pos_bound. lia. }
  destruct (entry_flags npa (Z.land e 0xfff) Hal Hf) as (H1 & H2 & _). split; [done|]. split.
  - unfold v. rewrite H2. unfold present. rewrite <- Z.land_assoc. done.
  - unfold v. rewrite Z.land_lor_distr_l, (land_aligned npa) by (done || lia).
    by rewrite Z.lor_0_l, <- Z.land_assoc.
Qed.

(** The leaf a source entry stands for. *)
Lemma dup_translate src st dt A s (i3 i2 i1 : nat) :
  dup_pre 1 src [Z.of_nat i3; Z.of_nat i2] st dt A s → (i3 < 512)%nat → (i2 < 512)%nat → (i1 < 512)%nat →
  present (entry s st (Z.of_nat i1)) = true →
  vmm_translate_in src (dup_va i3 i2 i1) s = frame_of (entry s st (Z.of_nat i1)) ∧
  0 < frame_of (entry s st (Z.of_nat i1)) ∧
  (frame_of (entry s st (Z.of_nat i1)), 0%nat) ∈ user_frames s src.
Proof.
  intros [Ho Ht Hp] H3 H2 H1 Hpr. destruct (dup_va_path i3 i2 i1 H3 H2 H1) as (Hva & Hmod & Hvp).
  assert (owned s (user_frames s src ++ frames_of 1 s dt ++ A)) as Hos.
  { eapply owned_perm; [exact Ho|]. apply Permutation_app_swap_app. }
  destruct (Hp [Z.of_nat i1]) as [Hok Hleaf]; [split; [done|repeat constructor; lia]|].
  cbn [app] in Hok, Hleaf. change (leaf_at 1 s st [Z.of_nat i1]) with (entry s st (Z.of_nat i1)) in Hleaf.
  rewrite (translate_user s src _ _ Hos Hva), Hvp, Hmod, Hleaf. cbn zeta. rewrite Hpr.
  split_and!; [lia| |].
  - rewrite <- Hleaf. eapply user_leaf_frame; [exact Hos|done|by rewrite Hleaf].
  - apply Ht, (kids_sub 0 s st (Z.of_nat i1)); [lia|]. rewrite kids_page. unfold page. rewrite Hpr.
    apply list_elem_of_here.
Qed.

Lemma alloc_page s A : owned s A →
  fr_alloc 0 s = (0, s) ∨
  ∃ a s', fr_alloc 0 s = (a, s') ∧ (a =? 0) = false ∧ owned s' ((a, 0%nat) :: A) ∧
    own_words A s s' ∧ foreign_words s s'.
Proof.
  intros Ho. destruct (fr_alloc 0 s) as [a s'] eqn:Ea. assert (0 < MAX_ORDER)%nat as HM by (unfold MAX_ORDER; lia).
  destruct (fr_alloc_spec 0 s A a s' Ho HM Ea) as [[-> ->]|(Hpos & Ho1 & Hw1)]; [by left|right].
  exists a, s'. split_and!; [done|lia|done| |].
  - intros x Hx. apply Hw1. rewrite owners_cons. lia.
  - intros x Hx. by eapply fr_alloc_foreign.
Qed.

Lemma step_skip k src pre st dt i A s : dup_pre (Datatypes.S k) src pre st dt A s →
  ∀ ok, (ok = true → copied_entry k s st dt (Z.of_nat i)) → step_post k src st dt i A s (ok, s).
Proof. intros Hpre ok Hc. split; [apply dup_post_refl, Hpre|]. done. Qed.

Lemma dup_pt_steps src st dt i3 i2 : (i3 < 512)%nat → (i2 < 512)%nat →
  dup_steps 0 src [Z.of_nat i3; Z.of_nat i2] st dt (dup_pt src st dt i3 i2).
Proof.
  intros H3 H2 i s A Hi Hpre Hz. unfold dup_pt. set (e := entry s st (Z.of_nat i)).
  destruct (present e) eqn:Ep; cbn [negb]; cycle 1.
  { eapply step_skip; [done|]. intros _. unfold copied_entry. fold e. by rewrite Ep. }
  destruct (dup_translate src st dt A s i3 i2 i Hpre H3 H2 Hi Ep) as (-> & Hfpos & Hfin). fold e in Hfpos, Hfin |- *.
  rewrite (proj2 (Z.eqb_neq (frame_of e) 0)) by lia. pose proof Hpre as [Ho Ht Hp].
  destruct (alloc_page s _ Ho) as [->|(npa & s1 & -> & Hnz & Ho1 & Hw1 & Hf1)].
  { cbn [Z.eqb]. by eapply step_skip. }
  rewrite Hnz. set (uf := user_frames s src) in *.
  assert (frames_of 1 s1 dt = frames_of 1 s dt) as Hfr1 by (by apply frames_of_ext, (own_words_l _ _ _ _ Hw1)).
  assert (own_words uf s s1) as Hu1 by (by eapply own_words_l, own_words_r).
  assert (dup_pre 1 src [Z.of_nat i3; Z.of_nat i2] st dt ((npa, 0%nat) :: A) s1) as Hpre1.
  { eapply dup_pre_next; [done| |done]. rewrite Hfr1. eapply owned_perm; [exact Ho1|]. fold uf.
    by rewrite (Permutation_middle _ (uf ++ A)), (Permutation_middle uf A). }
  assert (entry s1 st (Z.of_nat i) = e) as He1 by (apply (own_entry _ s s1 st _ Hu1); [apply Ht, frames_of_here|lia]).
  destruct (dup_translate src st dt _ s1 i3 i2 i Hpre1 H3 H2 Hi) as (-> & _); [by rewrite He1|]. rewrite He1.
  assert ((frame_of e, 0%nat) ∈ frames_of 1 s dt ++ uf ++ A) as HfA by in_app.
  destruct (copy_page_spec npa (frame_of e) s1 _ Ho1) as (Ho2 & Hout & Hf2 & Hcp).
  { apply list_elem_of_here. } { by apply list_elem_of_further. }
  { intros <-. by apply (owned_fresh _ _ _ Ho1). }
  set (s2 := copy_page npa (frame_of e) s1) in *.
  assert (own_words (frames_of 1 s dt ++ uf ++ A) s1 s2) as Hw2 by (by eapply outside_own).
  pose proof (own_words_trans _ _ _ _ Hw1 Hw2) as Hw12.
  assert (frames_of 1 s2 dt = frames_of 1 s dt) as Hfr2 by (by apply frames_of_ext, (own_words_l _ _ _ _ Hw12)).
  assert (entry s2 st (Z.of_nat i) = e) as -> by
    (apply (own_entry uf s s2 st _); [by eapply own_words_l, own_words_r|apply Ht, frames_of_here|lia]).
  destruct (owned_page s1 _ npa Ho1 ltac:(apply list_elem_of_here)) as [Hal _].
  destruct (copy_flags npa e Hal) as (Hvf & Hvp & Hvl). set (v := Z.lor npa (Z.land e 0xfff)) in *.
  assert (page v = [(npa, 0%nat)]) as Hpv by (unfold page; by rewrite Hvp, Ep, Hvf).
  destruct (set_leaf_spec dt (Z.of_nat i) v s2 (uf ++ A)) as [Ho3 Hw3 Hf3 Hl3]; [lia| |].
  { rewrite Hfr2, Hpv. eapply owned_perm; [exact Ho2|]. cbn [app]. by rewrite Permutation_middle. }
  set (s3 := set_entry dt (Z.of_nat i) v s2) in *. rewrite Hpv in Hw3.
  assert (∀ j, 0 ≤ j < 512 → entry s2 dt j = entry s dt j) as He2.
  { intros j Hj. apply (own_entry _ s s2 dt j (own_words_l _ _ _ _ Hw12)); [apply frames_of_here|done]. }
  assert (own_words (uf ++ A) s s3) as Hw13.
  { apply (own_words_trans _ s s2); [by eapply own_words_r|]. eapply own_words_sub; [|exact Hw3].
    intros b Hb. cbn [app]. by apply list_elem_of_further. }
  assert (entry s3 dt (Z.of_nat i) = v) as He3 by apply word_set_eq.
  split; [|split; [|split]]; cbn [fst snd].
  - constructor; [|done|].
    + change (leaf_at 1 s2 dt [Z.of_nat i]) with (entry s2 dt (Z.of_nat i)) in Ho3.
      rewrite He2, Hz in Ho3 by lia. exact Ho3.
    + apply (foreign_words_trans s s1); [done|]. apply (foreign_words_trans s1 s2); [|done].
      eapply outside_foreign; [exact Ho1|apply list_elem_of_here|done|done].
  - intros x Hx. destruct (siblings_slot 0 s dt (Z.of_nat i) _ x Ho ltac:(lia) Hx) as [Hne Hfx].
    rewrite <- (own_words_l _ _ _ _ Hw12 x Hfx). by apply word_set_ne.
  - intros j Hj Hne. rewrite <- He2 by done. apply word_set_ne. lia.
  - intros _. unfold copied_entry. rewrite He3.
    rewrite (own_entry _ s s3 st _ (own_words_l _ _ _ _ Hw13)) by (lia || apply Ht, frames_of_here).
    fold e. rewrite Ep, Hvp. split_and!; [done|done|]. rewrite Hvf. intros j Hj.
    rewrite (own_entry _ s2 s3 npa j Hw3 (list_elem_of_here _ _) Hj), Hcp by done.
    rewrite (own_entry _ s s1 _ j Hu1 Hfin Hj).
    by rewrite (own_entry _ s s3 _ j (own_words_l _ _ _ _ Hw13) Hfin Hj).
Qed.

Lemma dup_table_spec k s t i R A :
  owned s (R ++ A) → (t, 0%nat) ∈ R → 0 ≤ i < 512 → present (entry s t i) = false →
  (dup_table t i s = None ∧ (fr_alloc 0 s).2 = s) ∨
  ∃ d s', dup_table t i s = Some (d, s') ∧
    present (entry s' t i) = true ∧ frame_of (entry s' t i) = d ∧
    large (entry s' t i) && (Datatypes.S k =? 1)%nat = false ∧
    owned s' (frames_of (Datatypes.S k) s' d ++ R ++ A) ∧
    but (t + 8 * i) (R ++ A) s s' ∧ foreign_words s s' ∧ ∀ j, 0 ≤ j < 512 → entry s' d j = 0.
Proof.
  intros Ho Ht Hi Hp. assert (dup_table t i s =
    match ensure_table t i PG_U s with Ret r => Some r | _ => None end) as Hd.
  { unfold dup_table, ensure_table, new_table. rewrite Hp. destruct (fr_alloc 0 s) as [a s']. by destruct (a =? 0). }
  destruct (ensure_table_spec k s t i R A) as [Hpan|(d & s' & He & H1 & H2 & H3 & H4 & H5 & H6 & _ & H7)]; [|done|done| |].
  - unfold kids. by rewrite Hp.
  - left. rewrite Hd, Hpan. split; [done|]. revert Hpan. unfold ensure_table, new_table. rewrite Hp.
    destruct (alloc_page s _ Ho) as [->|(a & s' & -> & -> & _)]; done.
  - right. exists d, s'. rewrite Hd, He. split_and!; auto.
Qed.

Lemma dup_pre_kid k src pre st dt A s i d A' s' :
  dup_pre (Datatypes.S (Datatypes.S k)) src pre st dt A s → 0 ≤ i < 512 → present (entry s st i) = true →
  owned s' (frames_of (Datatypes.S k) s' d ++ user_frames s src ++ A') →
  own_words (user_frames s src) s s' →
  dup_pre (Datatypes.S k) src (pre ++ [i]) (frame_of (entry s st i)) d A' s'.
Proof.
  intros [Ho Ht Hp] Hi Hpr Ho' Hw. set (t := frame_of (entry s st i)).
  assert (owned s (user_frames s src ++ frames_of (Datatypes.S (Datatypes.S k)) s dt ++ A)) as Hos.
  { eapply owned_perm; [exact Ho|]. apply Permutation_app_swap_app. }
  assert (tree_in (Datatypes.S k) s t (user_frames s src)) as Htk.
  { eapply tree_in_kid; [exact Hos|intros; in_app|done|done|done]. }
  constructor.
  - by rewrite (user_frames_ext s s' src Hw).
  - unfold tree_in. rewrite (user_frames_ext s s' src Hw), (frames_of_ext _ s s'); [done|].
    by eapply own_words_sub; [|exact Hw].
  - intros q [Hl Hq]. destruct (Hp (i :: q)) as [Hok He]; [split; [cbn; lia|by constructor]|].
    rewrite <- app_assoc. cbn [app]. split; [done|].
    rewrite (user_leaf_ext s s' src _ _ Hos Hok Hw), He, leaf_at_S, Hpr. symmetry.
    eapply leaf_at_ext; [done|exact Hos| |by eapply own_words_sub; [|exact Hw]].
    intros b Hb. apply elem_of_app. left. by apply Htk.
Qed.

(** The loop body of the upper levels. *)
Definition dup_level (sub : nat → Z → Z → nat → S → bool * S) (st dt : Z) (i : nat) s : bool * S :=
  if negb (present (entry s st (Z.of_nat i))) then (true, s) else
  match dup_table dt (Z.of_nat i) s with
  | None => (false, (fr_alloc 0 s).2)
  | Some (d, s) => for_dup (sub i (frame_of (entry s st (Z.of_nat i))) d) 0 512 s
  end.

Lemma dup_level_steps k src pre sub st dt :
  (∀ i st' d, (i < 512)%nat → dup_steps k src (pre ++ [Z.of_nat i]) st' d (sub i st' d)) →
  dup_steps (Datatypes.S k) src pre st dt (dup_level sub st dt).
Proof.
  intros Hsub i s A Hi Hpre Hz. unfold dup_level. set (e := entry s st (Z.of_nat i)).
  destruct (present e) eqn:Ep; cbn [negb]; cycle 1.
  { eapply step_skip; [done|]. intros _. unfold copied_entry. fold e. by rewrite Ep. }
  pose proof Hpre as [Ho Ht _]. set (uf := user_frames s src) in *. assert (0 ≤ Z.of_nat i < 512) as Hi' by lia.
  set (R := others (Datatypes.S k) s dt (Z.of_nat i)).
  assert (owned s (R ++ uf ++ A)) as HoR.
  { eapply owned_perm; [exact Ho|]. rewrite (frames_split _ s dt _ Hi'), Hz. done. }
  destruct (dup_table_spec k s dt (Z.of_nat i) R (uf ++ A) HoR (list_elem_of_here _ _) Hi') as
    [[-> ->]|(d & s1 & -> & Hp1 & Hf1 & Hlg & Ho1 & Hb1 & Hfo1 & Hz1)]; [by rewrite Hz|by eapply step_skip|].
  assert (∀ x, owners x (uf ++ A) ≠ 0%nat ∨ owners x (siblings (Datatypes.S k) s dt (Z.of_nat i)) ≠ 0%nat →
    x ≠ dt + 8 * Z.of_nat i ∧ owners x (R ++ uf ++ A) ≠ 0%nat) as Hslot.
  { intros x Hx. pose proof (owned_disjoint _ _ x HoR) as Hd. unfold R, others in *.
    rewrite !owners_app, !owners_cons in *. cbn [fst snd] in *. split; [|destruct Hx; lia]. intros ->.
    rewrite decide_True in Hd by (by apply in_table). destruct Hx; lia. }
  assert (own_words (uf ++ A) s s1) as Hw1 by (intros x Hx; apply Hb1; apply Hslot; by left).
  assert (entry s1 st (Z.of_nat i) = e) as ->.
  { apply (own_entry _ s s1 st _ (own_words_l _ _ _ _ Hw1)); [apply Ht, frames_of_here|done]. }
  assert (dup_pre (Datatypes.S k) src (pre ++ [Z.of_nat i]) (frame_of e) d (R ++ A) s1) as Hpre1.
  { eapply dup_pre_kid; [exact Hpre|done|done| |by eapply own_words_l].
    eapply owned_perm; [exact Ho1|]. apply perm_mid. }
  destruct (dup_loop k src _ (frame_of e) d _ (R ++ A) 512 (Hsub i (frame_of e) d Hi) 0 s1) as [[Ho2 Hw2 Hf2] Hc2];
    [done|done|lia|intros j Hj; apply Hz1; lia|].
  set (r := for_dup _ 0 512 s1) in *. rewrite (user_frames_ext s s1 src) in Ho2, Hw2 by (by eapply own_words_l).
  fold uf in Ho2, Hw2.
  destruct (others_ext (Datatypes.S k) s r.2 dt (Z.of_nat i) _ Hi' HoR) as (Hoth & Hsib & Hent).
  { intros y Hy Hne. fold R in Hy. rewrite Hw2 by (rewrite !owners_app; lia).
    apply Hb1; [rewrite owners_app; lia|done]. }
  fold R in Hoth. assert (entry r.2 dt (Z.of_nat i) = entry s1 dt (Z.of_nat i)) as Hei.
  { apply (own_entry _ s1 r.2 dt _ Hw2); [|done]. rewrite !elem_of_app. right. left. apply list_elem_of_here. }
  split; [|split; [done|split; [done|]]].
  - constructor.
    + eapply owned_perm; [exact Ho2|]. rewrite (frames_split _ r.2 dt _ Hi'), Hoth, Hei. unfold kids.
      rewrite Hp1, Hlg, Hf1. fold uf. rewrite <- app_assoc. apply perm_mid.
    + apply (own_words_trans _ s s1); [done|]. eapply own_words_sub; [|exact Hw2]. intros b Hb. in_app.
    + by apply (foreign_words_trans s s1).
  - intros Hok. unfold copied_entry. rewrite Hei.
    assert (entry r.2 st (Z.of_nat i) = e) as ->.
    { apply (own_entry uf s r.2 st _); [|apply Ht, frames_of_here|done].
      apply (own_words_trans _ s s1); [by eapply own_words_l|by eapply own_words_l]. }
    rewrite Ep, Hp1, Hf1. split_and!; [done|done|]. by apply Hc2.
Qed.

Lemma dup_pdpt_steps src st dt : dup_steps 2 src [] st dt (dup_pdpt src st dt).
Proof.
  apply (dup_level_steps 1 src [] (λ i3 spd dpd, dup_pd src spd dpd i3)). intros i3 spd dpd H3. cbn [app].
  apply (dup_level_steps 0 src [Z.of_nat i3] (λ i2 spt dpt, dup_pt src spt dpt i3 i2)). intros i2 spt dpt H2.
  by apply dup_pt_steps.
Qed.

(** The copy loops of [dup_user_aspace], after the top table is linked. *)
Lemma dup_top src dst s A :
  owned s (user_frames s src ++ user_frames s dst ++ A) →
  present (entry s dst USER_SLOT) = false → present (entry s src USER_SLOT) = true →
  (dup_table dst USER_SLOT s = None ∧ (fr_alloc 0 s).2 = s) ∨
  ∃ d s1, dup_table dst USER_SLOT s = Some (d, s1) ∧
    let r := for_dup (dup_pdpt src (frame_of (entry s src USER_SLOT)) d) 0 512 s1 in
    owned r.2 (user_frames r.2 dst ++ user_frames s src ++ A) ∧
    own_words (user_frames s src ++ A) s r.2 ∧ foreign_words s r.2 ∧
    present (entry r.2 dst USER_SLOT) = true ∧ frame_of (entry r.2 dst USER_SLOT) = d ∧
    (r.1 = true → copies 3 r.2 (frame_of (entry s src USER_SLOT)) d) ∧
    (∀ i, 0 ≤ i < 512 → i ≠ USER_SLOT → entry r.2 dst i = entry s dst i).
Proof.
  intros Ho Hd Ep. set (uf := user_frames s src) in *. set (e := entry s src USER_SLOT) in *.
  assert (0 ≤ USER_SLOT < 512) as Hu by by_eval.
  assert (owned s ([(dst, 0%nat)] ++ uf ++ A)) as Ho0.
  { eapply owned_perm; [exact Ho|]. unfold user_frames, kids. rewrite Hd. apply Permutation_app_swap_app. }
  destruct (dup_table_spec 2 s dst USER_SLOT _ _ Ho0 (list_elem_of_here _ _) Hu Hd) as
    [?|(d & s1 & -> & Hp1 & Hf1 & Hlg & Ho1 & Hb1 & Hfo1 & Hz1)]; [by left|right].
  exists d, s1. split; [done|].
  assert (own_words (uf ++ A) s s1) as Hw1.
  { intros x Hx. pose proof (owned_disjoint _ _ x Ho0) as Hdj. cbn [app] in Hdj. rewrite owners_cons in Hdj.
    cbn [fst snd] in Hdj. apply Hb1; [cbn [app]; rewrite owners_cons; lia|]. intros ->.
    rewrite decide_True in Hdj by (by apply in_table). lia. }
  pose proof (own_words_l _ _ _ _ Hw1) as Hwu. pose proof (user_frames_ext s s1 src Hwu) as Hus. fold uf in Hus.
  assert (entry s1 src USER_SLOT = e) as He1 by (apply (own_entry _ s s1 src _ Hwu); [apply list_elem_of_here|done]).
  assert (dup_pre 3 src [] (frame_of e) d ((dst, 0%nat) :: A) s1) as Hpre.
  { constructor.
    - rewrite Hus. eapply owned_perm; [exact Ho1|]. apply (perm_mid _ [_]).
    - rewrite Hus. intros b Hb. destruct (owned_no_large 3 s1 e _ Ho1) as [_ Hk]; [|done|].
      + intros b' Hb'. assert (b' ∈ user_frames s1 src) by (apply list_elem_of_further; by rewrite He1). rewrite Hus in *. in_app.
      + rewrite <- Hk in Hb. rewrite <- Hus. apply list_elem_of_further. by rewrite He1.
    - intros q Hq. split; [done|]. cbn [app]. unfold user_leaf. by rewrite He1, Ep. }
  destruct (dup_loop 2 src [] (frame_of e) d _ _ 512 (dup_pdpt_steps src (frame_of e) d) 0 s1 eq_refl Hpre)
    as [[Ho2 Hw2 Hf2] Hc2]; [lia|intros j Hj; apply Hz1; lia|]. set (r := for_dup _ 0 512 s1) in *.
  rewrite Hus in Ho2, Hw2. assert (∀ i, 0 ≤ i < 512 → entry r.2 dst i = entry s1 dst i) as Heds.
  { intros i Hi. apply (own_entry _ s1 r.2 dst _ Hw2); [|done]. apply elem_of_app. right. apply list_elem_of_here. }
  pose proof (Heds USER_SLOT Hu) as Hed.
  cbn zeta. rewrite Hed. split_and!; [| |by apply (foreign_words_trans s s1)|done|done|done|].
  - eapply owned_perm; [exact Ho2|]. unfold user_frames at 1, kids. rewrite Hed, Hp1, Hlg, Hf1. cbn [app].
    rewrite <- (Permutation_middle uf A), <- Permutation_middle. done.
  - apply (own_words_trans _ s s1); [done|]. eapply own_words_sub; [|exact Hw2]. intros b Hb. in_app.
  - intros i Hi Hne. rewrite Heds by done. apply Hb1; [|lia]. eapply owners_pos; [apply list_elem_of_here|by apply in_table].
Qed.

Lemma dup_aspace_spec src dst s A :
  owned s (user_frames s src ++ user_frames s dst ++ A) →
  present (entry s dst USER_SLOT) = false →
  ∃ r s', dup_user_aspace src dst s = Ret (r, s') ∧
    owned s' (user_frames s' src ++ user_frames s' dst ++ A) ∧
    own_words (user_frames s src ++ A) s s' ∧ foreign_words s s' ∧
    (∀ i, 0 ≤ i < 512 → i ≠ USER_SLOT → entry s' dst i = entry s dst i) ∧
    ((r = 0 ∧ ∀ va, user_va va →
        let e := user_leaf s' src (vpath va) in
        let e' := user_leaf s' dst (vpath va) in
        if present e then
          present e' = true ∧ Z.land e' 0xfff = Z.land e 0xfff ∧
          ∀ i, 0 ≤ i < 512 → entry s' (frame_of e') i = entry s' (frame_of e) i
        else present e' = false) ∨
     (r = LNXRM_EFAIL ∧ present (entry s' dst USER_SLOT) = false)).
Proof.
  intros Ho Hd. unfold dup_user_aspace. set (uf := user_frames s src) in *. set (e := entry s src USER_SLOT).
  destruct (present e) eqn:Ep; cbn [negb]; cycle 1.
  { exists 0, s. split_and!; [done|done|done|apply foreign_words_refl|done|]. left. split; [done|]. intros va Hva.
    unfold user_leaf. fold e. by rewrite Ep, Hd. }
  destruct (dup_top src dst s A Ho Hd Ep) as [[-> ->]|(d & s1 & -> & Ho2 & Hw2 & Hf2 & Hp2 & Hfd & Hc2 & Hes)].
  { exists LNXRM_EFAIL, s. split_and!; [done|done|done|apply foreign_words_refl|done|]. by right. }
  fold e in Ho2, Hw2, Hf2, Hp2, Hfd, Hc2, Hes. destruct (for_dup _ 0 512 s1) as [ok s2]. cbn [fst snd] in *.
  pose proof (own_words_l _ _ _ _ Hw2) as Hwu. destruct ok.
  - exists 0, s2. rewrite (user_frames_ext s s2 src Hwu). split_and!; [done| |done|done|done|].
    { eapply owned_perm; [exact Ho2|]. apply Permutation_app_swap_app. }
    left. split; [done|]. intros va Hva. unfold user_leaf. rewrite Hp2, Hfd.
    rewrite (own_entry _ s s2 src USER_SLOT Hwu) by (apply list_elem_of_here || by_eval). fold e. rewrite Ep.
    apply copies_leaf; [by apply Hc2|apply vpath_ok].
  - destruct (dup_cleanup_spec dst s2 (uf ++ A) Ho2) as (s3 & -> & Ho3 & Hp3 & Hw3 & Hf3 & He3).
    exists LNXRM_EFAIL, s3. pose proof (own_words_trans _ _ _ _ Hw2 Hw3) as Hw.
    rewrite (user_frames_ext s s3 src) by (by eapply own_words_l).
    split_and!; [done| |done|by apply (foreign_words_trans s s2)|intros i Hi Hne; by rewrite He3, Hes|by right].
    eapply owned_perm; [exact Ho3|]. apply Permutation_app_swap_app.
Qed.

(** C9. [dup_user_aspace] into a space without user pages ends in one of two
    ways.  It returns 0 and the two spaces translate the same user addresses,
    with the same permissions, to frames with the same contents, no frame being
    in both; or a frame was missing, it returns the error and the target has no
    user pages, everything that was taken being given back.  In both cases the
    source, other owners' memory and the kernel's memory are unchanged. *)
Theorem dup_user_aspace_correct src dst s A :
  owned s (user_frames s src ++ user_frames s dst ++ A) →
  present (entry s dst USER_SLOT) = false →
  ∃ r s', dup_user_aspace src dst s = Ret (r, s') ∧
    owned s' (user_frames s' src ++ user_frames s' dst ++ A) ∧
    own_words (user_frames s src ++ A) s s' ∧ foreign_words s s' ∧
    ((r = 0 ∧ ∀ va, user_va va →
        let e := user_leaf s' src (vpath va) in
        let e' := user_leaf s' dst (vpath va) in
        if present e then
          present e' = true ∧ Z.land e' 0xfff = Z.land e 0xfff ∧
          ∀ i, 0 ≤ i < 512 → entry s' (frame_of e') i = entry s' (frame_of e) i
        else present e' = false) ∨
     (r = LNXRM_EFAIL ∧ present (entry s' dst USER_SLOT) = false)).
Proof.
  intros Ho Hd. destruct (dup_aspace_spec src dst s A Ho Hd) as (r & s' & ? & ? & ? & ? & _ & ?). by exists r, s'.
Qed.
End dup.
