(* ===== verification/VmmDemo.v ===== *)
(** The theorems on address spaces at work on the machine of [PmmInit.Demo]:
    a space with one mapped page, its copy and its release; and what
    [vmm_init] does to the kernel's own mapping on a machine with 2 GiB. *)
From S2P Require Import Prelude Pmm PmmFacts PmmInit Frames Vmm VmmFacts VmmLife VmmDup.

Module VmmDemo.
Definition s0 : pmm_state := Demo.s0.
Lemma s0_owned : owned s0 [].
Proof. exact (ex_intro _ Demo.s0 (pool_start Demo.s0 (proj2 Demo.s0_spec))). Qed.

(** An empty root table, a frame, and the frame mapped at [va]. *)
Definition va : Z := 0x7f8000400000.
Definition r1 := get_ret (0, s0) (new_table s0).
Definition root : Z := r1.1.
Definition s1 : pmm_state := r1.2.
Definition r2 := fr_alloc 0 s1.
Definition pa : Z := r2.1.
Definition s2 : pmm_state := r2.2.
Definition r3 := get_ret (0, s0) (vmm_map_user root va pa true true s2).
Definition s3 : pmm_state := r3.2.
(** A second root for the copy. *)
Definition r4 := get_ret (0, s0) (new_table s3).
Definition dst : Z := r4.1.
Definition s4 : pmm_state := r4.2.

Lemma r1_eq : new_table s0 = Ret (root, s1).
Proof. refine (ret_pair (0, s0) (new_table s0) _). by_eval. Qed.
Lemma r2_eq : fr_alloc 0 s1 = (pa, s2).
Proof. unfold pa, s2. exact (surjective_pairing r2). Qed.
Lemma r3_eq : vmm_map_user root va pa true true s2 = Ret (r3.1, s3).
Proof. refine (ret_pair (0, s0) (vmm_map_user root va pa true true s2) _). by_eval. Qed.
Lemma r4_eq : new_table s3 = Ret (dst, s4).
Proof. refine (ret_pair (0, s0) (new_table s3) _). by_eval. Qed.

Lemma va_ok : USER_BASE ≤ va < USER_MAX_VMA ∧ va mod 4096 = 0 ∧ user_va va.
Proof. split_and!; by_eval. Qed.

Lemma root_empty t s A : owned s ((t, 0%nat) :: A) → (∀ i, 0 ≤ i < 512 → entry s t i = 0) →
  user_frames s t = [(t, 0%nat)] ∧ owned s (user_frames s t ++ A).
Proof.
  intros Ho Hz. assert (user_frames s t = [(t, 0%nat)]) as Hu by (unfold user_frames, kids; by rewrite Hz).
  by rewrite Hu.
Qed.

Lemma s1_owned : owned s1 [(root, 0%nat)] ∧ ∀ i, 0 ≤ i < 512 → entry s1 root i = 0.
Proof.
  destruct (ret_spec _ _ _ _ r1_eq (new_table_spec s0 [] s0_owned)) as (Ho & _ & _ & Hz).
  exact (conj Ho Hz).
Qed.

Lemma alloc_known {S} `{FrameLaws S} (s s' : S) a A : owned s A → fr_alloc 0 s = (a, s') → a ≠ 0 →
  owned s' ((a, 0%nat) :: A) ∧ own_words A s s'.
Proof.
  intros Ho Ha Hne. destruct (alloc_page s A Ho) as [Heq|(a' & s'' & Heq & _ & Ho' & Hw & _)].
  - rewrite Ha in Heq. by injection Heq.
  - rewrite Ha in Heq. by injection Heq as <- <-.
Qed.

Lemma s2_owned : owned s2 (user_frames s2 root ++ [(pa, 0%nat)]) ∧ ∀ i, 0 ≤ i < 512 → entry s2 root i = 0.
Proof.
  destruct s1_owned as [Ho Hz].
  destruct (alloc_known s1 s2 pa _ Ho r2_eq) as [Ho2 Hw]; [by_eval|].
  assert (∀ i, 0 ≤ i < 512 → entry s2 root i = 0) as Hz2.
  { intros i Hi. rewrite <- (Hz i Hi). exact (own_entry _ s1 s2 root i Hw (list_elem_of_here _ _) Hi). }
  split; [|exact Hz2]. apply (root_empty root s2 [(pa, 0%nat)]); [|exact Hz2].
  eapply owned_perm; [exact Ho2|]. apply perm_swap.
Qed.

Lemma s2_unmapped : vmm_translate_in root va s2 = 0.
Proof. by_eval. Qed.

Lemma map_known {S} `{FrameLaws S} rt v a (s s' : S) r :
  owned s (user_frames s rt ++ [(a, 0%nat)]) → USER_BASE ≤ v < USER_MAX_VMA → v mod 4096 = 0 →
  (∀ i, 0 ≤ i < 512 → entry s rt i = 0) → vmm_map_user rt v a true true s = Ret (r, s') →
  owned s' (user_frames s' rt ++ []) ∧ ∀ i, 0 ≤ i < 512 → i ≠ USER_SLOT → entry s' rt i = 0.
Proof.
  intros Ho Hv Hm Hz Heq. destruct (owned_page s _ a Ho) as [Hal _]; [set_solver|].
  rewrite vmm_map_user_path in Heq by done. destruct (leaf_flags a true true Hal) as (Hp & Hf & _).
  destruct (user_map_spec _ rt (vpath v) s [] (vpath_ok v)
    ltac:(unfold page; rewrite Hp, Hf; exact Ho)) as [Hx|(s2 & Hx & Ho2 & _ & _ & _ & He)];
    rewrite Hx in Heq; [done|]. injection Heq as _ <-.
  assert (user_leaf s rt (vpath v) = 0) as Hl by (unfold user_leaf; by rewrite Hz).
  rewrite Hl in Ho2. split; [exact Ho2|]. intros i Hi Hne. rewrite He by done. by apply Hz.
Qed.

Lemma s3_owned : owned s3 (user_frames s3 root ++ []) ∧ ∀ i, 0 ≤ i < 512 → i ≠ USER_SLOT → entry s3 root i = 0.
Proof.
  destruct s2_owned as [Ho Hz]. destruct va_ok as (Hr & Hm & _).
  exact (map_known root va pa s2 s3 _ Ho Hr Hm Hz r3_eq).
Qed.

Lemma s4_owned : owned s4 (user_frames s4 root ++ user_frames s4 dst ++ []) ∧ entry s4 dst USER_SLOT = 0.
Proof.
  destruct s3_owned as [Ho _]. rewrite app_nil_r in Ho.
  destruct (ret_spec _ _ _ _ r4_eq (new_table_spec s3 _ Ho)) as (Ho4 & Hw & _ & Hz).
  rewrite (user_frames_ext s3 s4 root Hw), app_nil_r.
  destruct (root_empty dst s4 (user_frames s3 root) Ho4 Hz) as [Hu Ho'].
  split; [|apply Hz; by_eval]. eapply owned_perm; [exact Ho'|]. apply Permutation_app_comm.
Qed.
End VmmDemo.

Lemma vmm_map_user_correct_witness :
  ∃ s', vmm_map_user VmmDemo.root VmmDemo.va VmmDemo.pa true true VmmDemo.s2 = Ret (0, s') ∧
    vmm_translate_in VmmDemo.root (VmmDemo.va + 5) s' = VmmDemo.pa + 5.
Proof.
  destruct VmmDemo.va_ok as (Hr & Hm & _).
  destruct (vmm_map_user_correct VmmDemo.root VmmDemo.va VmmDemo.pa true true VmmDemo.s2 []
    (proj1 VmmDemo.s2_owned) Hr Hm VmmDemo.s2_unmapped) as [Hp|(s' & Heq & _ & Ht & _)].
  - exfalso. rewrite VmmDemo.r3_eq in Hp. discriminate Hp.
  - exists s'. split; [exact Heq|].
    rewrite (Ht (VmmDemo.va + 5)) by by_eval. rewrite decide_True by by_eval.
    exact (f_equal (Z.add VmmDemo.pa) (eq_refl : (VmmDemo.va + 5) mod 4096 = 5)).
Defined.

Lemma vmm_unmap_user_correct_witness :
  ∃ pa s', vmm_unmap_user VmmDemo.root VmmDemo.va VmmDemo.s3 = (pa, s') ∧
    vmm_translate_in VmmDemo.root VmmDemo.va s' = 0.
Proof.
  destruct VmmDemo.va_ok as (_ & _ & Hva).
  destruct (vmm_unmap_user_correct VmmDemo.root VmmDemo.va VmmDemo.s3 [] (proj1 VmmDemo.s3_owned) Hva)
    as (pa & s' & Heq & _ & _ & Ht & _); [by_eval|].
  exists pa, s'. split; [exact Heq|]. rewrite (Ht VmmDemo.va Hva). by rewrite decide_True.
Defined.

Lemma vmm_new_user_aspace_correct_witness :
  ∃ root s', vmm_new_user_aspace 0x50000 VmmDemo.s0 = Ret (root, s') ∧
    vmm_translate_in root VmmDemo.va s' = 0.
Proof.
  destruct (vmm_new_user_aspace_correct 0x50000 VmmDemo.s0 [] VmmDemo.s0_owned)
    as [Hp|(root & s' & Heq & _ & _ & Ht & _)].
  - intros i Hi. assert (0x52000 ≤ base_addr VmmDemo.s0) as Hb by by_eval. intros [Hx _]. lia.
  - exfalso. assert (is_ret (vmm_new_user_aspace 0x50000 VmmDemo.s0) = true) as Hr by by_eval.
    rewrite Hp in Hr. discriminate Hr.
  - exists root, s'. split; [exact Heq|]. apply Ht, VmmDemo.va_ok.
Defined.

Lemma vmm_destroy_user_aspace_correct_witness :
  ∃ s', vmm_destroy_user_aspace VmmDemo.root VmmDemo.s3 = Ret s' ∧ owned s' [].
Proof.
  destruct VmmDemo.s3_owned as [Ho Hz].
  destruct (vmm_destroy_user_aspace_correct VmmDemo.root VmmDemo.s3 [] Ho) as (s' & Heq & Ho' & _).
  - intros i Hi Hne. rewrite (Hz i) by (exact Hne || lia). reflexivity.
  - exists s'. exact (conj Heq Ho').
Defined.

Lemma dup_user_aspace_correct_witness :
  ∃ r s', dup_user_aspace VmmDemo.root VmmDemo.dst VmmDemo.s4 = Ret (r, s') ∧
    owned s' (user_frames s' VmmDemo.root ++ user_frames s' VmmDemo.dst ++ []).
Proof.
  destruct VmmDemo.s4_owned as [Ho Hz].
  destruct (dup_user_aspace_correct VmmDemo.root VmmDemo.dst VmmDemo.s4 [] Ho) as (r & s' & Heq & Ho' & _).
  - rewrite Hz. reflexivity.
  - exists r, s'. exact (conj Heq Ho').
Defined.

Lemma vmm_init_alias_witness :
  entry (vmm_init (HIGH_BASE + 0x140000) 0x1000000 0x1000000 0 0 VmmDemo.s0) PD_HI 5 = 5 * 2 ^ 21 + 0x83.
Proof.
  rewrite (vmm_init_alias (HIGH_BASE + 0x140000) 0x1000000 0x1000000 0 0 VmmDemo.s0); [|by_eval..].
  rewrite decide_False by by_eval. rewrite decide_True by by_eval. reflexivity.
Defined.

(** The loop of [vmm_init] indexes the 512 slots of one page directory by
    the low bits of the frame number: on a machine with 2 GiB of memory the
    frame at 1 GiB replaces slot 0, where the kernel image is mapped, and the
    alias of the frame at 512 MiB is the start of the heap. *)
Theorem vmm_init_wraps :
  let s := vmm_init (HIGH_BASE + 0x140000) 0x7f000000 0x1000000 0 0 VmmDemo.s0 in
  frame_of (entry s PD_HI 0) = 0x40000000 ∧
  frame_of (entry s PD_HI (i2_of (PHYS_TO_VIRT 0x20000000))) = 0x7f000000.
Proof. split; by_eval. Qed.

