(* ===== verification/UserMem.v ===== *)
(** Access of the kernel to user memory: the checks and copies at the end of
    [kernel/task.c] ([user_ptr_ok], [copy_from_user], [copy_to_user],
    [copy_user_str]).

    The kernel runs on the page tables of the current process, so a user
    address is reached through the translation of that process.  Memory has
    words; a byte of user memory is a byte of the physical word it lies in. *)
From S2P Require Import Prelude Pmm PmmFacts PmmInit Frames Vmm VmmFacts VmmLife VmmDup VmmDemo.

(** Byte [k] of a word. *)
Definition nth_byte (w k : Z) : Z := Z.land (Z.shiftr w (8 * k)) (Z.ones 8).
Definition put_byte (w k b : Z) : Z :=
  Z.lor (Z.ldiff w (Z.shiftl (Z.ones 8) (8 * k))) (Z.shiftl (Z.land b (Z.ones 8)) (8 * k)).

Section user_mem.
Context {S : Type} `{Frames S}.
Implicit Types (s : S).

Definition peek (root va : Z) s : Z :=
  let pa := vmm_translate_in root va s in nth_byte (word s (pa - pa mod 8)) (pa mod 8).
Definition poke (root va b : Z) s : S :=
  let pa := vmm_translate_in root va s in
  set_word (pa - pa mod 8) (put_byte (word s (pa - pa mod 8)) (pa mod 8) b) s.

(** [memcpy] out of and into user memory. *)
Definition load_bytes (root va : Z) (n : nat) s : list Z :=
  (λ i : nat, peek root (va + Z.of_nat i) s) <$> seq 0 n.
Fixpoint store_bytes (root va : Z) (bs : list Z) s : S :=
  match bs with
  | [] => s
  | b :: bs => store_bytes root (va + 1) bs (poke root va b s)
  end.

(** The pages from [p & ~4095] to [(p + n - 1) & ~4095] translate.  The range
    check comes first, so the page counter does not wrap. *)
Definition pages_mapped (root p n : Z) s : bool :=
  let lo := Z.land p (Z.lnot 4095) in
  let hi := Z.land (u64 (p + n - 1)) (Z.lnot 4095) in
  forallb (λ i : nat, negb (vmm_translate_in root (lo + 4096 * Z.of_nat i) s =? 0))
          (seq 0 (Z.to_nat ((hi - lo) / 4096 + 1))).

Definition user_ptr_ok (root p n : Z) s : bool :=
  if (n =? 0) || negb (vmm_is_user_range p (u64 (p + n))) then false
  else pages_mapped root p n s.

(** [None] is the error return; the destination is then unchanged. *)
Definition copy_from_user (root usrc : Z) (n : nat) s : option (list Z) :=
  if user_ptr_ok root usrc (Z.of_nat n) s then Some (load_bytes root usrc n s) else None.

Definition copy_to_user (root udst : Z) (bs : list Z) s : option S :=
  let n := Z.of_nat (length bs) in
  if (n =? 0) || negb (vmm_is_user_range udst (u64 (udst + n))) then None
  else if pages_mapped root udst n s then Some (store_bytes root udst bs s) else None.

(** The string without its terminator; [i] bytes have been copied of at most
    [i + room]. *)
Fixpoint copy_str_loop (root usrc : Z) (room : nat) (i : nat) s : option (list Z) :=
  match room with
  | O => Some []
  | Datatypes.S room =>
      match copy_from_user root (u64 (usrc + Z.of_nat i)) 1 s with
      | Some [c] =>
          if c =? 0 then Some []
          else l ← copy_str_loop root usrc room (Datatypes.S i) s; Some (c :: l)
      | _ => None
      end
  end.

(** [kdst[max - 1] = 0] cuts a string that fills the buffer. *)
Definition copy_user_str (root usrc : Z) (max : nat) s : option (list Z) :=
  if (max =? 0)%nat then None
  else l ← copy_str_loop root usrc max 0 s; Some (take (max - 1) l).
End user_mem.

(** ** Bytes of words *)

Lemma nth_byte_put w k j b : 0 ≤ k → 0 ≤ j →
  nth_byte (put_byte w k b) j = if decide (j = k) then u8 b else nth_byte w j.
Proof.
  intros Hk Hj. unfold nth_byte, put_byte.
  assert (u8 b = Z.land b (Z.ones 8)) as -> by (by rewrite Z.land_ones).
  apply Z.bits_inj'. intros n Hn.
  destruct (decide (j = k)) as [->|Hne];
    rewrite !Z.land_spec, !Z.shiftr_spec, Z.lor_spec, Z.ldiff_spec, !Z.shiftl_spec, !Z.land_spec, !Z.testbit_ones by lia.
  - replace (n + 8 * k - 8 * k) with n by lia. destruct (Z.ltb_spec n 8).
    + rewrite !(proj2 (Z.leb_le 0 n)), !andb_true_r by lia. cbn [andb negb]. by rewrite andb_false_r.
    + by rewrite !andb_false_r.
  - destruct (Z.ltb_spec n 8); [|by rewrite !andb_false_r].
    rewrite (proj2 (Z.leb_le 0 n)) by lia. cbn [andb]. rewrite !andb_true_r.
    destruct (Z.leb_spec 0 (n + 8 * j - 8 * k)), (Z.ltb_spec (n + 8 * j - 8 * k) 8); try lia;
      cbn [andb negb]; rewrite ?andb_false_r, ?andb_true_r, ?orb_false_r; done.
Qed.

(** A property that does not hold on a whole range fails somewhere in it. *)
Lemma range_counterexample (P : Z → Prop) `{∀ z, Decision (P z)} lo (n : nat) :
  ¬ (∀ z, lo ≤ z < lo + Z.of_nat n → P z) → ∃ z, lo ≤ z < lo + Z.of_nat n ∧ ¬ P z.
Proof.
  intros Hn. destruct (decide (Forall (λ i : nat, P (lo + Z.of_nat i)) (seq 0 n))) as [Hall|Hex].
  - destruct Hn. intros z Hz. rewrite Forall_forall in Hall. replace z with (lo + Z.of_nat (Z.to_nat (z - lo))) by lia.
    apply Hall, elem_of_seq. lia.
  - apply not_Forall_Exists, Exists_exists in Hex as (i & Hi%elem_of_seq & HP); [|apply _].
    exists (lo + Z.of_nat i). split; [lia|done].
Qed.

Lemma nth_byte_range w k : 0 ≤ nth_byte w k < 256.
Proof. unfold nth_byte. rewrite Z.land_ones by lia. apply Z.mod_pos_bound. lia. Qed.

(** ** Writes to a page do not touch the tables *)
Section facts.
Context {S : Type} `{FrameLaws S}.
Implicit Types (s : S) (A : list (Z * nat)).

Lemma leaf_in_kids k : ∀ t i p s A, path_ok (Datatypes.S k) (i :: p) →
  owned s (frames_of (Datatypes.S k) s t ++ A) →
  present (leaf_at (Datatypes.S k) s t (i :: p)) = true →
  (frame_of (leaf_at (Datatypes.S k) s t (i :: p)), 0%nat) ∈ kids k s (entry s t i).
Proof.
  induction k as [|k IH]; intros t i p s A [Hl Hp] Ho He; apply Forall_cons in Hp as [Hi Hp].
  - cbn [leaf_at] in *. rewrite kids_page. unfold page. rewrite He. apply list_elem_of_here.
  - rewrite leaf_at_S in *. destruct (present (entry s t i)) eqn:E; [|done].
    destruct (owned_no_large (Datatypes.S k) s (entry s t i) _ Ho) as [_ ->]; [|done|].
    { intros b Hb. apply elem_of_app. left. by apply (kids_sub _ s t i). }
    destruct p as [|j p]; [done|]. apply Forall_cons in Hp as [Hj Hp].
    apply (kids_sub k s _ j); [done|]. eapply IH; [split; [by inversion Hl|by constructor]| |done].
    eapply owned_perm; [exact Ho|].
    rewrite (frames_split _ s t i Hi), (proj2 (owned_no_large (Datatypes.S k) s (entry s t i) _ Ho (λ b Hb,
      proj2 (elem_of_app _ _ _) (or_introl (kids_sub _ s t i b Hi Hb))) E)), <- app_assoc. reflexivity.
Qed.

(** The tree below entry [i], as a block list of its own. *)
Lemma owned_kid k t i s A : owned s (frames_of (Datatypes.S (Datatypes.S k)) s t ++ A) → 0 ≤ i < 512 →
  present (entry s t i) = true →
  kids (Datatypes.S k) s (entry s t i) = frames_of (Datatypes.S k) s (frame_of (entry s t i)) ∧
  owned s (frames_of (Datatypes.S k) s (frame_of (entry s t i)) ++ others (Datatypes.S k) s t i ++ A).
Proof.
  intros Ho Hi E.
  assert (kids (Datatypes.S k) s (entry s t i) = frames_of (Datatypes.S k) s (frame_of (entry s t i))) as Hk.
  { apply (owned_no_large _ s _ _ Ho); [|done]. intros b Hb. apply elem_of_app. left. by apply (kids_sub _ s t i). }
  split; [done|]. eapply owned_perm; [exact Ho|]. by rewrite (frames_split _ s t i Hi), Hk, <- app_assoc.
Qed.

(** A page that hangs below entry [i] is in no other part of the tree. *)
Lemma outside_others k t i f s s' A : owned s (frames_of (Datatypes.S k) s t ++ A) → 0 ≤ i < 512 →
  (f, 0%nat) ∈ kids k s (entry s t i) → outside f s s' → own_words (others k s t i ++ A) s s'.
Proof.
  intros Ho Hi Hf Hout x Hx. apply Hout. intros Hin.
  apply (owned_perm _ _ (kids k s (entry s t i) ++ others k s t i ++ A)) in Ho;
    [|by rewrite (frames_split _ s t i Hi), <- app_assoc].
  pose proof (owned_disjoint _ _ x Ho) as Hd. rewrite owners_app in Hd.
  pose proof (owners_pos x f 0 _ Hf Hin). lia.
Qed.

(** A write into a page of the tree changes no table of it. *)
Lemma page_write k : ∀ t p s s' A, path_ok (Datatypes.S k) p →
  owned s (frames_of (Datatypes.S k) s t ++ A) →
  present (leaf_at (Datatypes.S k) s t p) = true →
  outside (frame_of (leaf_at (Datatypes.S k) s t p)) s s' →
  frames_of (Datatypes.S k) s' t = frames_of (Datatypes.S k) s t ∧ own_words A s s' ∧
  ∀ q, path_ok (Datatypes.S k) q → leaf_at (Datatypes.S k) s' t q = leaf_at (Datatypes.S k) s t q.
Proof.
  induction k as [|k IH]; intros t [|i p] s s' A Hp Ho He Hout; try (by destruct Hp).
  all: pose proof (leaf_in_kids _ t i p s A Hp Ho He) as Hin; pose proof Hp as [Hl [Hi Hp']%Forall_cons].
  all: pose proof (outside_others _ t i _ s s' A Ho Hi Hin Hout) as Hw.
  all: assert (own_words A s s') by (eapply own_words_sub; [|exact Hw]; intros; in_app).
  all: assert (∀ j, 0 ≤ j < 512 → entry s' t j = entry s t j) as Hent
    by (intros j Hj; eapply own_entry; [exact Hw|apply list_elem_of_here|done]).
  all: rewrite !frames_of_S.
  - split; [|split; [done|]].
    + apply (f_equal (λ l, mjoin l ++ _)), slots_ext. intros n Hn. rewrite Hent by lia. by rewrite !kids_page.
    + intros [|j q] [Hq1 Hq2]; [done|]. apply Forall_cons in Hq2 as [Hj _]. cbn [leaf_at]. by apply Hent.
  - rewrite leaf_at_S in *. destruct (present (entry s t i)) eqn:E; [|done].
    destruct (owned_kid k t i s A Ho Hi E) as [Hk Ho'].
    destruct (IH _ p s s' _ (conj (eq_add_S _ _ Hl) Hp') Ho' He Hout) as (Hfr & _ & Hlf).
    assert (own_words (siblings (Datatypes.S k) s t i) s s') as Hsib
      by (eapply own_words_sub; [|exact Hw]; intros; unfold others; in_app).
    split; [|split; [done|]].
    + apply (f_equal (λ l, mjoin l ++ _)), slots_ext. intros n Hn. rewrite Hent by lia.
      destruct (decide (Z.of_nat n = i)) as [->|Hne].
      * rewrite Hk. unfold kids in *. rewrite E in *. by destruct (_ && _).
      * apply kids_ext. eapply own_words_sub; [|exact Hsib]. intros b Hb. apply (kids_siblings _ s t i (Z.of_nat n)); (done || lia).
    + intros [|j q] [Hq1 Hq2]; [done|]. destruct (decide (j = i)) as [->|Hne].
      * rewrite !leaf_at_S, Hent, E by done. apply Hlf. apply Forall_cons in Hq2 as [_ Hq2]. split; [by inversion Hq1|done].
      * eapply (leaf_other _ s s' t i j q); [exact Ho'| | done | by split |done|done|].
        { intros b Hb. unfold others. in_app. }
        { apply Hent. by apply Forall_cons in Hq2 as [? _]. }
Qed.

Lemma page_once k t i f s A : owned s (frames_of (Datatypes.S k) s t ++ A) → 0 ≤ i < 512 →
  (f, 0%nat) ∈ kids k s (entry s t i) → (f, 0%nat) ∉ siblings k s t i.
Proof.
  intros Ho Hi Hk Hs. apply (owned_perm _ _ (kids k s (entry s t i) ++ others k s t i ++ A)) in Ho;
    [|by rewrite (frames_split _ s t i Hi), <- app_assoc].
  pose proof (owned_disjoint _ _ (f + 8 * 0) Ho) as Hd. unfold others in Hd. rewrite !owners_app, owners_cons in Hd.
  assert (in_blk (f + 8 * 0) f 0) as Hself by (apply in_table; lia).
  pose proof (owners_pos _ _ _ _ Hk Hself). pose proof (owners_pos _ _ _ _ Hs Hself).
  cbn [app] in Hd. rewrite ?owners_app in Hd. lia.
Qed.

(** Different leaves are different pages. *)
Lemma leaf_frames_ne k : ∀ t p q s A, path_ok (Datatypes.S k) p → path_ok (Datatypes.S k) q → p ≠ q →
  owned s (frames_of (Datatypes.S k) s t ++ A) →
  present (leaf_at (Datatypes.S k) s t p) = true → present (leaf_at (Datatypes.S k) s t q) = true →
  frame_of (leaf_at (Datatypes.S k) s t p) ≠ frame_of (leaf_at (Datatypes.S k) s t q).
Proof.
  induction k as [|k IH]; intros t [|i p] [|j q] s A Hp Hq Hne Ho Hep Heq; try (by destruct Hp); try (by destruct Hq).
  all: pose proof (leaf_in_kids _ t i p s A Hp Ho Hep) as Hinp; pose proof (leaf_in_kids _ t j q s A Hq Ho Heq) as Hinq.
  all: pose proof Hp as [Hlp [Hi Hp']%Forall_cons]; pose proof Hq as [Hlq [Hj Hq']%Forall_cons].
  all: destruct (decide (j = i)) as [->|Hij].
  1: destruct p, q; done.
  2: { rewrite !leaf_at_S in *. destruct (present (entry s t i)) eqn:E; [|done].
       destruct (owned_kid k t i s A Ho Hi E) as [_ Ho'].
       eapply IH; [by split; [inversion Hlp|]|by split; [inversion Hlq|]|congruence|exact Ho'|done|done]. }
  all: intros Heqf; rewrite <- Heqf in Hinq; apply (kids_siblings _ s t i j) in Hinq; [|done..].
  all: by apply (page_once _ _ _ _ _ _ Ho Hi Hinp).
Qed.

(** ** Bytes of an address space *)

Definition mapped (root va : Z) s : Prop := user_va va ∧ vmm_translate_in root va s ≠ 0.

(** What a write to user memory keeps: the address space, and all other
    memory. *)
Record user_write (root : Z) A s s' : Prop := {
  uw_owned : owned s' (user_frames s' root ++ A);
  uw_frames : user_frames s' root = user_frames s root;
  uw_translate va : user_va va → vmm_translate_in root va s' = vmm_translate_in root va s;
  uw_words : own_words A s s';
  uw_foreign : foreign_words s s';
  uw_slots : same_slots root s s';
}.

Lemma user_write_refl root A s : owned s (user_frames s root ++ A) → user_write root A s s.
Proof. by constructor. Qed.
Lemma user_write_trans root A s1 s2 s3 :
  user_write root A s1 s2 → user_write root A s2 s3 → user_write root A s1 s3.
Proof.
  intros [? Hf1 Ht1 ? ? Hs1] [? Hf2 Ht2 ? ? Hs2]. constructor; [done|congruence| | | |].
  - intros va Hva. by rewrite Ht2, Ht1.
  - by eapply own_words_trans.
  - by eapply foreign_words_trans.
  - intros i Hi Hne. by rewrite Hs2, Hs1.
Qed.

Lemma user_page_write root p s s' A : path_ok 3 p → owned s (user_frames s root ++ A) →
  present (user_leaf s root p) = true → outside (frame_of (user_leaf s root p)) s s' →
  ((frame_of (user_leaf s root p), 0%nat) ∈ user_frames s root → owned s' (user_frames s root ++ A)) →
  (∀ x, foreign s x → foreign s' x) →
  user_write root A s s' ∧ (frame_of (user_leaf s root p), 0%nat) ∈ user_frames s root.
Proof.
  intros Hp Ho He Hout Hown Hfor. unfold user_leaf in He, Hout, Hown |- *.
  destruct (present (entry s root USER_SLOT)) eqn:E; [|done].
  assert (owned s (kids 3 s (entry s root USER_SLOT) ++ (root, 0%nat) :: A)) as Ho'.
  { eapply owned_perm; [exact Ho|]. unfold user_frames. cbn [app]. apply Permutation_middle. }
  destruct (owned_no_large 3 s (entry s root USER_SLOT) _ Ho') as [Hl Hk]; [intros b Hb; in_app|done|]. rewrite Hk in Ho'.
  destruct (page_write 2 _ p s s' _ Hp Ho' He Hout) as (Hfr & Hw & Hlf).
  destruct p as [|i p]; [by destruct Hp|]. pose proof (leaf_in_kids 2 _ i p s _ Hp Ho' He) as Hin.
  assert (entry s' root USER_SLOT = entry s root USER_SLOT) as Hroot.
  { eapply own_entry; [exact Hw|apply list_elem_of_here|by_eval]. }
  assert (user_frames s' root = user_frames s root) as Hfe.
  { unfold user_frames. rewrite Hroot. f_equal. unfold kids in *. rewrite E in *. destruct (_ && _); [done|]. congruence. }
  assert ((frame_of (leaf_at 3 s (frame_of (entry s root USER_SLOT)) (i :: p)), 0%nat) ∈ user_frames s root) as Hpg.
  { unfold user_frames. apply list_elem_of_further. rewrite Hk. apply (kids_sub 2 s _ i); [|done].
    by destruct Hp as [_ [? _]%Forall_cons]. }
  split; [|done]. assert (owned s' (user_frames s' root ++ A)) as Ho2 by (rewrite Hfe; by apply Hown). constructor; [done|done| | | |].
  - intros va Hva. rewrite (translate_user s' root va A Ho2 Hva), (translate_user s root va A Ho Hva).
    unfold user_leaf. rewrite Hroot, E. by rewrite Hlf by apply vpath_ok.
  - eapply own_words_sub; [|exact Hw]. intros; in_app.
  - eapply outside_foreign; [exact Ho| |exact Hout|done]. apply elem_of_app. by left.
  - intros j Hj _. eapply own_entry; [exact Hw|apply list_elem_of_here|done].
Qed.

(** The page and the offset of a mapped address. *)
Lemma mapped_leaf root va s A : owned s (user_frames s root ++ A) → mapped root va s →
  let e := user_leaf s root (vpath va) in
  present e = true ∧ (4096 | frame_of e) ∧ 0 < frame_of e ∧ vmm_translate_in root va s = frame_of e + va mod 4096.
Proof.
  intros Ho [Hva Ht] e. rewrite (translate_user s root va A Ho Hva) in *. cbn zeta in *. fold e in Ht |- *.
  destruct (present e) eqn:E; [|done]. pose proof (user_leaf_frame s root _ _ Ho (vpath_ok va) E).
  split_and!; try done. rewrite frame_of_div. apply Z.divide_factor_r.
Qed.

Lemma translate_inj root va va' s A : owned s (user_frames s root ++ A) → mapped root va s → mapped root va' s →
  vmm_translate_in root va s = vmm_translate_in root va' s → va = va'.
Proof.
  intros Ho Hm Hm'. pose proof (mapped_leaf _ _ _ _ Ho Hm) as (E & [q Hq] & _ & ->).
  pose proof (mapped_leaf _ _ _ _ Ho Hm') as (E' & [q' Hq'] & _ & ->). intros Heq.
  pose proof (Z.mod_pos_bound va 4096). pose proof (Z.mod_pos_bound va' 4096).
  assert (q = q') by lia. subst q'. assert (va mod 4096 = va' mod 4096) as Hmod by lia.
  assert (vpath va = vpath va') as Hv.
  { destruct (decide (vpath va = vpath va')) as [|Hne]; [done|exfalso].
    unfold user_leaf in *. destruct (present (entry s root USER_SLOT)) eqn:E4; [|done].
    assert (owned s (kids 3 s (entry s root USER_SLOT) ++ (root, 0%nat) :: A)) as Ho'.
    { eapply owned_perm; [exact Ho|]. unfold user_frames. cbn [app]. apply Permutation_middle. }
    destruct (owned_no_large 3 s (entry s root USER_SLOT) _ Ho') as [_ Hk]; [intros b Hb; in_app|done|]. rewrite Hk in Ho'.
    apply (leaf_frames_ne 2 _ _ _ s _ (vpath_ok va) (vpath_ok va') Hne Ho' E E'). congruence. }
  apply (vpath_inj va va') in Hv; [|by destruct Hm|by destruct Hm'].
  rewrite (Z.div_mod va 4096), (Z.div_mod va' 4096) by lia. lia.
Qed.

Lemma poke_spec root va b s A : owned s (user_frames s root ++ A) → mapped root va s →
  user_write root A s (poke root va b s) ∧
  ∀ va', mapped root va' s → peek root va' (poke root va b s) = if decide (va' = va) then u8 b else peek root va' s.
Proof.
  intros Ho Hm. pose proof (mapped_leaf _ _ _ _ Ho Hm) as (E & [q Hq] & Hpos & Ht).
  set (f := frame_of (user_leaf s root (vpath va))) in *. set (pa := vmm_translate_in root va s) in *.
  pose proof (Z.mod_pos_bound va 4096). pose proof (Z.div_mod pa 8) as Hdm. pose proof (Z.mod_pos_bound pa 8).
  assert (in_blk (pa - pa mod 8) f 0) as Hin.
  { replace (pa - pa mod 8) with (f + 8 * (pa / 8 - q * 512)) by lia. apply in_table.
    lia. }
  destruct (user_page_write root (vpath va) s (poke root va b s) A (vpath_ok va) Ho E) as [Hw Hpg].
  - fold f. intros x Hx. unfold poke. fold pa. apply word_set_ne. intros ->. done.
  - fold f. intros Hpg. unfold poke. fold pa. apply set_word_owned; [done|].
    apply (owners_pos _ f 0); [apply elem_of_app; by left|done].
  - intros x Hx. by apply set_word_foreign.
  - split; [done|]. intros va' Hm'. unfold peek. rewrite (uw_translate _ _ _ _ Hw) by (by destruct Hm').
    set (pa' := vmm_translate_in root va' s). pose proof (Z.mod_pos_bound pa' 8).
    unfold poke. fold pa. rewrite word_set. destruct (decide (pa' - pa' mod 8 = pa - pa mod 8)) as [He|He].
    + rewrite nth_byte_put, <- He by lia. destruct (decide (va' = va)) as [->|Hne]; [by rewrite decide_True|].
      rewrite decide_False; [done|]. intros Hmod. apply Hne, (translate_inj root va' va s A Ho Hm' Hm). fold pa pa'. lia.
    + rewrite decide_False; [done|]. intros ->. done.
Qed.

Lemma user_write_mapped root A s s' va : user_write root A s s' → mapped root va s → mapped root va s'.
Proof. intros Hw [Hva Ht]. split; [done|]. by rewrite (uw_translate _ _ _ _ Hw). Qed.

Lemma store_bytes_spec root A bs : ∀ va s, owned s (user_frames s root ++ A) →
  (∀ a, va ≤ a < va + Z.of_nat (length bs) → mapped root a s) →
  user_write root A s (store_bytes root va bs s) ∧
  ∀ a, mapped root a s → peek root a (store_bytes root va bs s) =
    if decide (va ≤ a < va + Z.of_nat (length bs)) then u8 (default 0 (bs !! Z.to_nat (a - va))) else peek root a s.
Proof.
  induction bs as [|b bs IH]; intros va s Ho Hm; cbn [store_bytes length] in *.
  { split; [by apply user_write_refl|]. intros a Ha. rewrite decide_False by lia. done. }
  destruct (poke_spec root va b s A Ho (Hm va ltac:(lia))) as [Hw Hp].
  destruct (IH (va + 1) (poke root va b s)) as [Hw' Hp'].
  { apply Hw. }
  { intros a Ha. eapply user_write_mapped; [exact Hw|]. apply Hm. lia. }
  split; [by eapply user_write_trans|]. intros a Ha.
  rewrite Hp' by (by eapply user_write_mapped). rewrite Hp by done.
  destruct (decide (a = va)) as [->|Hne].
  - rewrite decide_False, decide_True, Z.sub_diag by lia. done.
  - destruct (decide (va + 1 ≤ a < va + 1 + Z.of_nat (length bs))).
    + rewrite decide_True by lia. replace (Z.to_nat (a - va)) with (Datatypes.S (Z.to_nat (a - (va + 1)))) by lia. done.
    + by rewrite decide_False by lia.
Qed.

(** A byte that a process may hand to the kernel. *)
Definition readable (root va : Z) s : Prop :=
  USER_BASE ≤ va < USER_MAX_VMA ∧ vmm_translate_in root va s ≠ 0.

#[global] Instance readable_dec root va s : Decision (readable root va s).
Proof. unfold readable. apply _. Defined.

Lemma readable_mapped root va s : readable root va s → mapped root va s.
Proof. intros [? ?]. split; [|done]. unfold user_va, USER_MAX_VMA in *. lia. Qed.

Lemma translate_page root va va' s A : owned s (user_frames s root ++ A) → user_va va → user_va va' →
  va / 4096 = va' / 4096 → vmm_translate_in root va s ≠ 0 → vmm_translate_in root va' s ≠ 0.
Proof.
  intros Ho Hva Hva' Hpg Ht. pose proof (mapped_leaf _ _ _ _ Ho (conj Hva Ht)) as (E & _ & Hpos & _).
  rewrite (translate_user s root va' A Ho Hva'). cbn zeta.
  rewrite (proj2 (vpath_inj va' va Hva' Hva) (eq_sym Hpg)), E. pose proof (Z.mod_pos_bound va' 4096). lia.
Qed.

Lemma land_page p : Z.land p (Z.lnot 4095) = p / 4096 * 4096.
Proof. apply frame_of_div. Qed.

Lemma pages_mapped_spec root p n s A : owned s (user_frames s root ++ A) → USER_BASE ≤ p → 0 < n → p + n ≤ USER_MAX_VMA →
  pages_mapped root p n s = true ↔ ∀ va, p ≤ va < p + n → readable root va s.
Proof.
  intros Ho Hp Hn Hmax.
  unfold pages_mapped. rewrite (u64_small (p + n - 1)), !land_page by (unfold USER_BASE, USER_MAX_VMA in *; lia).
  rewrite forallb_forall.
  assert (∀ a, p ≤ a < p + n → user_va a) as Huser by (unfold user_va, USER_MAX_VMA in *; lia).
  assert (USER_BASE = 4096 * (USER_BASE / 4096)) as Hbase by by_eval.
  split.
  - intros Hall va Hva. split; [lia|].
    specialize (Hall (Z.to_nat (va / 4096 - p / 4096))). rewrite in_seq in Hall.
    assert (p / 4096 ≤ va / 4096 ≤ (p + n - 1) / 4096) by (split; apply Z.div_le_mono; lia).
    replace ((p + n - 1) / 4096 * 4096 - p / 4096 * 4096) with (((p + n - 1) / 4096 - p / 4096) * 4096) in Hall by lia.
    rewrite Z.div_mul, Z2Nat.id in Hall by lia. specialize (Hall ltac:(lia)).
    replace (p / 4096 * 4096 + 4096 * (va / 4096 - p / 4096)) with (va / 4096 * 4096) in Hall by lia.
    apply negb_true_iff, Z.eqb_neq in Hall. pose proof (Z.div_mod va 4096). pose proof (Z.mod_pos_bound va 4096).
    eapply (translate_page root (va / 4096 * 4096) va); [exact Ho| |by apply Huser|by rewrite Z.div_mul|done].
    unfold user_va. pose proof (Z.div_le_mono USER_BASE va 4096). unfold USER_MAX_VMA in *. lia.
  - intros Hr i [_ Hi]%in_seq. apply negb_true_iff, Z.eqb_neq.
    replace ((p + n - 1) / 4096 * 4096 - p / 4096 * 4096) with (((p + n - 1) / 4096 - p / 4096) * 4096) in Hi by lia.
    rewrite Z.div_mul in Hi by lia. set (pg := p / 4096 * 4096 + 4096 * Z.of_nat i).
    pose proof (Z.div_mod p 4096). pose proof (Z.mod_pos_bound p 4096). pose proof (Z.div_mod (p + n - 1) 4096).
    pose proof (Z.mod_pos_bound (p + n - 1) 4096).
    assert (0 ≤ (p + n - 1) / 4096 - p / 4096) by (apply Z.le_0_sub, Z.div_le_mono; lia).
    destruct (Hr (Z.max p pg)) as [? Ht]; [lia|]. assert (pg / 4096 = Z.max p pg / 4096) as Hpg.
    { destruct (Z.max_spec p pg) as [[? ->]|[? ->]]; [done|]. assert (i = 0%nat) as -> by lia.
      unfold pg. rewrite Z.add_0_r. by rewrite Z.div_mul. }
    eapply (translate_page root (Z.max p pg) pg); [exact Ho|apply Huser; lia| |done|done].
    unfold user_va. pose proof (Z.div_le_mono USER_BASE p 4096). unfold USER_MAX_VMA in *. lia.
Qed.

(** [user_ptr_ok] accepts exactly the non-empty ranges of readable bytes. *)
Lemma user_ptr_ok_spec root p n s A : owned s (user_frames s root ++ A) → 0 ≤ p < 2 ^ 64 → 0 ≤ n < 2 ^ 64 →
  user_ptr_ok root p n s = true ↔ 0 < n ∧ ∀ va, p ≤ va < p + n → readable root va s.
Proof.
  intros Ho Hp Hn. unfold user_ptr_ok, vmm_is_user_range. destruct (Z.eqb_spec n 0) as [->|Hn0]; cbn [orb].
  { split; [done|lia]. }
  assert (u64 (p + n) = p + n ∨ u64 (p + n) < p) as Hwrap.
  { unfold u64. destruct (Z.lt_ge_cases (p + n) (2 ^ 64)); [left; apply Z.mod_small; lia|right].
    rewrite <- (Z.mod_unique (p + n) (2 ^ 64) 1 (p + n - 2 ^ 64)); lia. }
  destruct (Z.leb_spec USER_BASE p), (Z.leb_spec (u64 (p + n)) USER_MAX_VMA), (Z.ltb_spec p (u64 (p + n)));
    cbn [andb negb].
  2,3,4,5,6,7,8: split; [done|]; intros [_ Hr]; pose proof (Hr p ltac:(lia)) as [? _]; pose proof (Hr (p + n - 1) ltac:(lia)) as [? _];
    unfold USER_MAX_VMA in *; destruct Hwrap; [lia|unfold u64 in *; rewrite Z.mod_small in * by lia; lia].
  destruct Hwrap as [Hwrap|]; [|lia]. rewrite Hwrap in *.
  rewrite (pages_mapped_spec root p n s A Ho) by lia. split; [|by intros []]. intros Hr. split; [lia|done].
Qed.

Lemma copy_to_user_alt root udst bs s :
  copy_to_user root udst bs s =
  if user_ptr_ok root udst (Z.of_nat (length bs)) s then Some (store_bytes root udst bs s) else None.
Proof. unfold copy_to_user, user_ptr_ok. by destruct (_ || _). Qed.

Lemma load_stored root A va bs s : owned s (user_frames s root ++ A) → Forall (λ b, 0 ≤ b < 256) bs →
  (∀ a, va ≤ a < va + Z.of_nat (length bs) → mapped root a s) →
  load_bytes root va (length bs) (store_bytes root va bs s) = bs.
Proof.
  intros Ho Hb Hm. destruct (store_bytes_spec root A bs va s Ho Hm) as [_ Hp].
  apply list_eq. intros i. unfold load_bytes. rewrite list_lookup_fmap.
  destruct (decide (i < length bs)%nat) as [Hi|Hi].
  - rewrite lookup_seq_lt by done. cbn [fmap option_fmap option_map Nat.add]. rewrite Hp by (apply Hm; lia).
    rewrite decide_True by lia. replace (Z.to_nat (va + Z.of_nat i - va)) with i by lia.
    destruct (lookup_lt_is_Some_2 bs i Hi) as [b Hbi]. rewrite Hbi. cbn [default]. f_equal.
    apply u8_small. exact (Forall_lookup_1 _ _ _ _ Hb Hbi).
  - rewrite lookup_seq_ge by lia. rewrite lookup_ge_None_2 by lia. done.
Qed.

(** C15. The kernel writes to user memory only through a check that decides
    exactly whether every byte of the range is a mapped user byte.  A copy
    that passes it stores the bytes there and nowhere else: they can be
    copied back, every other byte of the address space, the page tables and
    all memory outside the address space keep their contents.  A copy that
    does not pass it changes nothing. *)
Theorem copy_to_user_correct root udst bs s A :
  owned s (user_frames s root ++ A) → 0 ≤ udst < 2 ^ 64 → Z.of_nat (length bs) < 2 ^ 64 →
  Forall (λ b, 0 ≤ b < 256) bs →
  (copy_to_user root udst bs s = None ∧
   (bs = [] ∨ ∃ va, udst ≤ va < udst + Z.of_nat (length bs) ∧ ¬ readable root va s)) ∨
  ∃ s', copy_to_user root udst bs s = Some s' ∧ user_write root A s s' ∧
    copy_from_user root udst (length bs) s' = Some bs ∧
    ∀ va, readable root va s → ¬ udst ≤ va < udst + Z.of_nat (length bs) → peek root va s' = peek root va s.
Proof.
  intros Ho Hu Hl Hb. rewrite copy_to_user_alt.
  pose proof (user_ptr_ok_spec root udst (Z.of_nat (length bs)) s A Ho Hu ltac:(lia)) as Hok.
  destruct (user_ptr_ok _ _ _ s) eqn:E.
  - destruct (proj1 Hok eq_refl) as [Hpos Hr]. right. eexists. split; [done|].
    assert (∀ a, udst ≤ a < udst + Z.of_nat (length bs) → mapped root a s) as Hm by (intros; by apply readable_mapped, Hr).
    destruct (store_bytes_spec root A bs udst s Ho Hm) as [Hw Hp]. split_and!; [done| |].
    + unfold copy_from_user. rewrite (load_stored root A) by done.
      rewrite (proj2 (user_ptr_ok_spec root udst (Z.of_nat (length bs)) _ A (uw_owned _ _ _ _ Hw) Hu ltac:(lia))); [done|].
      split; [done|]. intros va Hva. destruct (Hr va Hva) as [? Ht]. split; [done|].
      rewrite (uw_translate _ _ _ _ Hw); [done|]. by apply Hm.
    + intros va Hva Hne. rewrite Hp by (by apply readable_mapped). by rewrite decide_False.
  - left. split; [done|]. destruct (decide (bs = [])) as [|Hne]; [by left|right].
    apply (range_counterexample (λ va, readable root va s)). intros Hall.
    enough (false = true) by done. apply Hok. split; [|done]. destruct bs; [done|cbn [length]; lia].
Qed.

(** ** Strings *)

Lemma copy_byte root va s A : owned s (user_frames s root ++ A) → 0 ≤ va < 2 ^ 64 →
  (readable root va s ∧ copy_from_user root va 1 s = Some [peek root va s]) ∨
  (¬ readable root va s ∧ copy_from_user root va 1 s = None).
Proof.
  intros Ho Hva. pose proof (user_ptr_ok_spec root va 1 s A Ho Hva ltac:(lia)) as Hok.
  unfold copy_from_user. change (Z.of_nat 1) with 1. destruct (user_ptr_ok root va 1 s).
  - left. split; [apply (proj1 Hok eq_refl); lia|]. unfold load_bytes. cbn. by rewrite Z.add_0_r.
  - right. split; [|done]. intros Hr. enough (false = true) by done. apply Hok. split; [lia|]. intros a Ha. by assert (a = va) as -> by lia.
Qed.

Lemma copy_str_loop_spec root usrc s A room : ∀ i, owned s (user_frames s root ++ A) →
  let at_ (j : nat) := u64 (usrc + Z.of_nat j) in
  match copy_str_loop root usrc room i s with
  | Some l =>
      (∀ j, (j < length l)%nat → readable root (at_ (i + j)%nat) s ∧ l !! j = Some (peek root (at_ (i + j)%nat) s) ∧
         peek root (at_ (i + j)%nat) s ≠ 0) ∧
      (length l = room ∨ ((length l < room)%nat ∧ readable root (at_ (i + length l)%nat) s ∧
                          peek root (at_ (i + length l)%nat) s = 0))
  | None => ∃ j, (j < room)%nat ∧ ¬ readable root (at_ (i + j)%nat) s ∧
      ∀ j', (j' < j)%nat → readable root (at_ (i + j')%nat) s ∧ peek root (at_ (i + j')%nat) s ≠ 0
  end.
Proof.
  intros i Ho at_. revert i. induction room as [|room IH]; intros i; cbn [copy_str_loop].
  { split; [cbn [length]; lia|by left]. }
  destruct (copy_byte root (at_ i) s A Ho (u64_range _)) as [[Hr Heq]|[Hr Heq]]; fold (at_ i); rewrite Heq.
  2: { exists 0%nat. rewrite Nat.add_0_r. split_and!; [lia|done|lia]. }
  destruct (Z.eqb_spec (peek root (at_ i) s) 0) as [Hz|Hz].
  { split; [cbn [length]; lia|right]. cbn [length]. rewrite Nat.add_0_r. split_and!; (lia || done). }
  specialize (IH (Datatypes.S i)). destruct (copy_str_loop root usrc room (Datatypes.S i) s) as [l|]; cbn [mbind option_bind].
  - destruct IH as [Hl Hend]. cbn [length]. split.
    + intros [|j] Hj; [rewrite Nat.add_0_r; done|]. rewrite <- Nat.add_succ_comm. apply Hl. lia.
    + rewrite <- Nat.add_succ_comm. destruct Hend as [->|(? & ? & ?)]; [by left|right]. split_and!; (lia || done).
  - destruct IH as (j & Hj & Hnr & Hbefore). exists (Datatypes.S j). rewrite <- Nat.add_succ_comm. split_and!; [lia|done|].
    intros [|j'] Hj'; [rewrite Nat.add_0_r; done|]. rewrite <- Nat.add_succ_comm. apply Hbefore. lia.
Qed.

(** [copy_user_str] returns the bytes of the user string up to its
    terminator, at most [max - 1] of them (a longer string is cut without an
    error), and fails exactly when it meets a byte that is not a mapped user
    byte before the terminator and within [max] bytes. *)
Theorem copy_user_str_correct root usrc max s A : owned s (user_frames s root ++ A) → (0 < max)%nat →
  let at_ (j : nat) := u64 (usrc + Z.of_nat j) in
  match copy_user_str root usrc max s with
  | Some l => (length l < max)%nat ∧
      (∀ j, (j < length l)%nat → l !! j = Some (peek root (at_ j) s) ∧ peek root (at_ j) s ≠ 0) ∧
      (peek root (at_ (length l)) s = 0 ∨ length l = (max - 1)%nat) ∧
      ∀ j, (j ≤ length l)%nat → readable root (at_ j) s
  | None => ∃ j, (j < max)%nat ∧ ¬ readable root (at_ j) s ∧
      ∀ j', (j' < j)%nat → readable root (at_ j') s ∧ peek root (at_ j') s ≠ 0
  end.
Proof.
  intros Ho Hmax at_. unfold copy_user_str. destruct (Nat.eqb_spec max 0); [lia|].
  pose proof (copy_str_loop_spec root usrc s A max 0 Ho) as Hs. cbn [Nat.add] in Hs.
  destruct (copy_str_loop root usrc max 0 s) as [l|]; cbn [mbind option_bind]; [|done].
  destruct Hs as [Hl Hend]. rewrite length_take. assert (length l ≤ max)%nat by (destruct Hend as [|[? _]]; lia). split_and!.
  - lia.
  - intros j Hj. destruct (Hl j) as (_ & Hlk & Hnz); [lia|]. rewrite lookup_take_lt by lia. done.
  - destruct Hend as [|(? & _ & ?)]; [right; lia|left]. by rewrite Nat.min_r by lia.
  - intros j Hj. destruct (decide (j < length l)%nat) as [Hlt|Hge]; [by apply Hl|].
    destruct Hend as [|(? & ? & _)]; [lia|]. by assert (j = length l) as -> by lia.
Qed.
End facts.

(** The page of the demonstration space is readable. *)
Lemma demo_readable a : VmmDemo.va ≤ a < VmmDemo.va + 4096 → readable VmmDemo.root a VmmDemo.s3.
Proof.
  intros Ha. destruct VmmDemo.va_ok as (Hr & _ & Hu). split.
  - unfold VmmDemo.va, USER_MAX_VMA, USER_BASE in *. lia.
  - apply (translate_page VmmDemo.root VmmDemo.va a _ [] (proj1 VmmDemo.s3_owned)); [exact Hu| | |by_eval].
    + unfold user_va, VmmDemo.va, USER_BASE in *. lia.
    + apply (Z.div_unique a 4096 _ (a - VmmDemo.va)); unfold VmmDemo.va in *; [lia|]. change (0x7f8000400000 / 4096) with 34225521664. lia.
Qed.

Lemma copy_to_user_correct_witness :
  ∃ s', copy_to_user VmmDemo.root VmmDemo.va [1; 2; 3] VmmDemo.s3 = Some s' ∧
    copy_from_user VmmDemo.root VmmDemo.va 3 s' = Some [1; 2; 3].
Proof.
  destruct (copy_to_user_correct VmmDemo.root VmmDemo.va [1; 2; 3] VmmDemo.s3 [] (proj1 VmmDemo.s3_owned))
    as [[_ [Hn|(a & Ha & Hn)]]|(s' & He & _ & Hb & _)].
  - by_eval.
  - by_eval.
  - by_eval.
  - discriminate Hn.
  - destruct Hn. apply demo_readable. cbn [length] in Ha. lia.
  - exists s'. exact (conj He Hb).
Defined.

(** The page of the demonstration space is filled with zero bytes. *)
Lemma copy_user_str_correct_witness :
  ∃ l, copy_user_str VmmDemo.root VmmDemo.va 8 VmmDemo.s3 = Some l ∧ (length l < 8)%nat.
Proof.
  pose proof (copy_user_str_correct VmmDemo.root VmmDemo.va 8 VmmDemo.s3 [] (proj1 VmmDemo.s3_owned) ltac:(lia)) as Hs.
  cbv beta zeta in Hs. destruct (copy_user_str VmmDemo.root VmmDemo.va 8 VmmDemo.s3) as [l|].
  - exists l. exact (conj eq_refl (proj1 Hs)).
  - destruct Hs as (j & Hj & Hn & _). destruct Hn. apply demo_readable. rewrite u64_small; unfold VmmDemo.va; lia.
Defined.
