(* ===== verification/Aspace.v ===== *)
(** A user address space as a map from addresses to bytes.

    [view] is what a process sees; mapping a fresh page, unmapping one and
    writing bytes are described by their effect on it.  [map_fresh] is the
    sequence allocate, clear, map that [kernel/elf.c], [kernel/task.c] and
    [kernel/syscall.c] repeat for every page they add to a process. *)
From S2P Require Import Prelude Pmm PmmFacts PmmInit Frames Vmm VmmFacts VmmLife VmmDup UserMem.

Section operations.
Context {S : Type} `{Frames S}.
Implicit Types (s : S).

(** Whether there was a frame for the page.  The result of [vmm_map_user] is
    ignored. *)
Definition map_fresh (root va : Z) (w : bool) s : outcome (bool * S) :=
  let '(pa, s) := fr_alloc 0 s in
  if pa =? 0 then Ret (false, s) else
  let s := zero_page pa s in
  '(_, s) ← vmm_map_user root va pa w true s;
  Ret (true, s).

(** A store by the kernel through the page tables in use: a byte that has no
    page is a fault in the kernel. *)
Definition kstore (root va : Z) (bs : list Z) s : outcome S :=
  if forallb (λ i : nat, negb (vmm_translate_in root (va + Z.of_nat i) s =? 0)) (seq 0 (length bs))
  then Ret (store_bytes root va bs s) else Stuck.

Definition view (root : Z) s (va : Z) : option Z :=
  if decide (USER_BASE ≤ va < 2 ^ 47) then
    if vmm_translate_in root va s =? 0 then None else Some (peek root va s)
  else None.
End operations.

Section facts.
Context {S : Type} `{FrameLaws S}.
Implicit Types (s : S) (A : list (Z * nat)).

(** ** Mapping a page keeps the contents of the others *)

Lemma leaf_page_apart k t i p s A x : path_ok (Datatypes.S k) (i :: p) →
  owned s (frames_of (Datatypes.S k) s t ++ A) → present (leaf_at (Datatypes.S k) s t (i :: p)) = true →
  in_blk x (frame_of (leaf_at (Datatypes.S k) s t (i :: p))) 0 → ¬ in_blk x t 0.
Proof.
  intros Hp Ho He Hx Ht. pose proof (leaf_in_kids k t i p s A Hp Ho He) as Hin. destruct Hp as [_ [Hi _]%Forall_cons].
  apply (owned_perm _ _ (kids k s (entry s t i) ++ others k s t i ++ A)) in Ho;
    [|by rewrite (frames_split _ s t i Hi), <- app_assoc].
  pose proof (owned_disjoint _ _ x Ho) as Hd. unfold others in Hd. cbn [app] in Hd.
  rewrite owners_app, owners_cons in Hd. cbn [fst snd] in Hd. rewrite decide_True in Hd by done.
  pose proof (owners_pos x _ 0 _ Hin Hx). lia.
Qed.

Lemma map_path_pages v k : ∀ t p s s' A, path_ok (Datatypes.S k) p →
  owned s (frames_of (Datatypes.S k) s t ++ page v ++ A) → map_path t p v s = Ret s' →
  ∀ q x, path_ok (Datatypes.S k) q → present (leaf_at (Datatypes.S k) s t q) = true →
  in_blk x (frame_of (leaf_at (Datatypes.S k) s t q)) 0 → word s' x = word s x.
Proof.
  induction k as [|k IH]; intros t p s s' A Hp Ho Hm [|j q] x Hq He Hx; try (by destruct Hq).
  all: pose proof (leaf_page_apart _ t j q s _ x Hq Ho He Hx) as Hne.
  { destruct p as [|i [|? ?]]; try (by destruct Hp). injection Hm as <-. apply word_set_ne. intros ->.
    apply Hne, in_table. by destruct Hp as [_ [? _]%Forall_cons]. }
  destruct p as [|i [|i' p]]; try (by destruct Hp). pose proof Hp as [Hl [Hi Hp']%Forall_cons].
  change (map_path t (i :: i' :: p) v s) with ('(t', s) ← ensure_table t i PG_U s; map_path t' (i' :: p) v s) in Hm.
  pose proof Hq as [Hlq [Hj Hq']%Forall_cons]. set (R := others (Datatypes.S k) s t i).
  destruct (decide (j = i)) as [->|Hji].
  - rewrite leaf_at_S in He, Hx. destruct (present (entry s t i)) eqn:E; [|done].
    unfold ensure_table in Hm. rewrite E in Hm. cbn [mbind outcome_bind] in Hm.
    destruct (owned_kid k t i s _ Ho Hi E) as [_ Ho'].
    eapply (IH _ (i' :: p) s s' (R ++ A)); [by split; [inversion Hl|]| |exact Hm| |exact He|exact Hx].
    + eapply owned_perm; [exact Ho'|]. apply perm_mid.
    + by split; [inversion Hlq|].
  - pose proof (leaf_in_kids _ t j q s _ Hq Ho He) as Hin. apply (kids_siblings _ s t i j) in Hin; [|done..].
    assert (owned s (kids (Datatypes.S k) s (entry s t i) ++ R ++ page v ++ A)) as Ho0.
    { eapply owned_perm; [exact Ho|]. by rewrite (frames_split _ s t i), <- app_assoc by done. }
    assert (owners x R ≠ 0%nat) as HxR.
    { eapply owners_pos; [|exact Hx]. unfold R, others. by apply list_elem_of_further. }
    destruct (ensure_table_spec k s t i R (page v ++ A) Ho0 (list_elem_of_here _ _) Hi)
      as [E|(t' & s1 & E & _ & _ & _ & Ho1 & Hb1 & _)]; rewrite E in Hm; [done|]. cbn [mbind outcome_bind] in Hm.
    destruct (map_path_spec v k t' (i' :: p) s1 (R ++ A)) as [E2|(s2 & E2 & [_ Hw2 _ _])].
    { by split; [inversion Hl|]. } { eapply owned_perm; [exact Ho1|]. apply perm_mid. }
    { by rewrite E2 in Hm. }
    rewrite E2 in Hm. injection Hm as <-. rewrite Hw2 by (rewrite !owners_app; lia).
    apply Hb1; [rewrite owners_app; lia|]. intros ->. by apply Hne, in_table.
Qed.

Lemma user_map_pages v root p s s' A : path_ok 3 p → owned s (user_frames s root ++ page v ++ A) →
  map_path root (USER_SLOT :: p) v s = Ret s' →
  ∀ q x, path_ok 3 q → present (user_leaf s root q) = true →
  in_blk x (frame_of (user_leaf s root q)) 0 → word s' x = word s x.
Proof.
  intros Hp Ho Hm q x Hq He Hx. unfold user_leaf in He, Hx.
  destruct (present (entry s root USER_SLOT)) eqn:E; [|done]. destruct p as [|i p]; [by destruct Hp|].
  change (map_path root (USER_SLOT :: i :: p) v s)
    with ('(t', s) ← ensure_table root USER_SLOT PG_U s; map_path t' (i :: p) v s) in Hm.
  unfold ensure_table in Hm. rewrite E in Hm. cbn [mbind outcome_bind] in Hm.
  assert (owned s (kids 3 s (entry s root USER_SLOT) ++ (root, 0%nat) :: page v ++ A)) as Ho'.
  { eapply owned_perm; [exact Ho|]. unfold user_frames. cbn [app]. apply Permutation_middle. }
  destruct (owned_no_large 3 s (entry s root USER_SLOT) _ Ho') as [_ Hk]; [intros b Hb; in_app|done|]. rewrite Hk in Ho'.
  eapply (map_path_pages v 2 _ _ s s' ((root, 0%nat) :: A)); [exact Hp| |exact Hm|exact Hq|exact He|exact Hx].
  eapply owned_perm; [exact Ho'|]. apply Permutation_app_head, Permutation_middle.
Qed.

(** ** The view *)

#[global] Instance mapped_dec root va s : Decision (mapped root va s).
Proof. unfold mapped, user_va. apply _. Defined.

Lemma view_mapped root va s : view root s va ≠ None ↔ mapped root va s.
Proof.
  unfold view, mapped, user_va. destruct (decide (USER_BASE ≤ va < 2 ^ 47)); [|naive_solver].
  destruct (Z.eqb_spec (vmm_translate_in root va s) 0); naive_solver.
Qed.

Lemma view_some root va s : mapped root va s → view root s va = Some (peek root va s).
Proof. intros [Hva Ht]. unfold view. rewrite decide_True by exact Hva. by rewrite (proj2 (Z.eqb_neq _ _) Ht). Qed.

Lemma view_none root va s : user_va va → vmm_translate_in root va s = 0 → view root s va = None.
Proof. intros Hva Ht. unfold view. rewrite decide_True by exact Hva. by rewrite Ht. Qed.

Lemma view_outside root va s : ¬ user_va va → view root s va = None.
Proof. intros Hva. unfold view. by rewrite decide_False by exact Hva. Qed.

(** Two states in which an address has the same page with the same contents. *)
Lemma view_same root s s' va : vmm_translate_in root va s' = vmm_translate_in root va s →
  (mapped root va s → ∀ x, in_blk x (vmm_translate_in root va s - va mod 4096) 0 → word s' x = word s x) →
  (mapped root va s → (4096 | vmm_translate_in root va s - va mod 4096)) →
  view root s' va = view root s va.
Proof.
  intros Ht Hw Hal. unfold view. rewrite Ht. destruct (decide _) as [Hva|]; [|done].
  destruct (Z.eqb_spec (vmm_translate_in root va s) 0) as [|Hne]; [done|]. f_equal. unfold peek. rewrite Ht. f_equal.
  assert (mapped root va s) as Hm by done. destruct (Hal Hm) as [q Hq]. apply Hw; [done|].
  set (pa := vmm_translate_in root va s) in *. pose proof (Z.mod_pos_bound va 4096). pose proof (Z.mod_pos_bound pa 8).
  pose proof (Z.div_mod pa 8).
  replace (pa - pa mod 8) with ((pa - va mod 4096) + 8 * (pa / 8 - q * 512)) by lia. apply in_table. lia.
Qed.

(** What an operation on the address space of [root] keeps. *)
Record kept (root : Z) A s s' : Prop := {
  kp_owned : owned s' (user_frames s' root ++ A);
  kp_words : own_words A s s';
  kp_foreign : foreign_words s s';
  kp_slots : same_slots root s s';
}.

Lemma kept_refl root A s : owned s (user_frames s root ++ A) → kept root A s s.
Proof. intros. constructor; [done|done|apply foreign_words_refl|done]. Qed.
Lemma kept_trans root A s1 s2 s3 : kept root A s1 s2 → kept root A s2 s3 → kept root A s1 s3.
Proof.
  intros [? Hw1 Hf1 Hs1] [? Hw2 Hf2 Hs2]. constructor; [done|by eapply own_words_trans|by eapply foreign_words_trans|].
  intros i Hi Hne. by rewrite Hs2, Hs1.
Qed.

Lemma translate_ext root s s' va A A' : owned s (user_frames s root ++ A) → own_words (user_frames s root) s s' →
  owned s' (user_frames s' root ++ A') → user_va va → vmm_translate_in root va s' = vmm_translate_in root va s.
Proof.
  intros Ho Hw Ho' Hva. rewrite (translate_user s' root va _ Ho' Hva), (translate_user s root va _ Ho Hva).
  cbn zeta. by rewrite (user_leaf_ext s s' root _ _ Ho (vpath_ok va) Hw).
Qed.

(** The page of a mapped address is one of the frames of the space. *)
Lemma mapped_page root va s A : owned s (user_frames s root ++ A) → mapped root va s →
  let f := vmm_translate_in root va s - va mod 4096 in
  (4096 | f) ∧ f = frame_of (user_leaf s root (vpath va)) ∧ (f, 0%nat) ∈ user_frames s root.
Proof.
  intros Ho Hm f. pose proof (mapped_leaf _ _ _ _ Ho Hm) as (E & Hd & Hpos & Ht).
  assert (f = frame_of (user_leaf s root (vpath va))) as -> by (unfold f; lia). split_and!; [done|done|].
  apply (user_page_write root (vpath va) s s A (vpath_ok va) Ho E); done.
Qed.

Lemma view_ext root s s' A A' : owned s (user_frames s root ++ A) → own_words (user_frames s root) s s' →
  owned s' (user_frames s' root ++ A') → ∀ va, view root s' va = view root s va.
Proof.
  intros Ho Hw Ho' va. destruct (decide (user_va va)) as [Hva|Hva].
  - apply view_same; [by eapply translate_ext| |]; intros Hm; pose proof (mapped_page _ _ _ _ Ho Hm) as (? & _ & Hin); [|done].
    intros x Hx. apply Hw. by eapply owners_pos.
  - by rewrite !view_outside by done.
Qed.

Lemma same_page a b : a / 4096 = b / 4096 → b mod 4096 = 0 → a = b + a mod 4096.
Proof. intros He Hb. pose proof (Z.div_mod a 4096). pose proof (Z.div_mod b 4096). lia. Qed.

(** The byte of a frame that an address selects. *)
Definition page_byte s (f a : Z) : Z := nth_byte (entry s f (a mod 4096 / 8)) (a mod 4096 mod 8).

(** The page of a mapped address is one of the frames of the space, and the
    byte there is one of its bytes. *)
Lemma peek_page root a s f : (4096 | f) → vmm_translate_in root a s = f + a mod 4096 → peek root a s = page_byte s f a.
Proof.
  intros [q ->] Ht. unfold peek, page_byte. rewrite Ht.
  assert ((q * 4096 + a mod 4096) mod 8 = a mod 4096 mod 8) as ->.
  { rewrite <- Zplus_mod_idemp_l. replace (q * 4096) with (q * 512 * 8) by lia. by rewrite Z_mod_mult. }
  unfold entry. do 2 f_equal. pose proof (Z.div_mod (a mod 4096) 8). lia.
Qed.

Lemma page_index a : 0 ≤ a mod 4096 / 8 < 512.
Proof.
  pose proof (Z.mod_pos_bound a 4096). pose proof (Z.div_mod (a mod 4096) 8). pose proof (Z.mod_pos_bound (a mod 4096) 8). lia.
Qed.

(** The contents of a frame appear at the page. *)
Lemma map_user_view root va pa w u s A :
  owned s (user_frames s root ++ (pa, 0%nat) :: A) → USER_BASE ≤ va < USER_MAX_VMA → va mod 4096 = 0 →
  vmm_translate_in root va s = 0 →
  vmm_map_user root va pa w u s = Panic ∨
  ∃ s', vmm_map_user root va pa w u s = Ret (0, s') ∧ kept root A s s' ∧
    ∀ a, view root s' a = if decide (a / 4096 = va / 4096) then Some (page_byte s pa a) else view root s a.
Proof.
  intros Ho Hva Hal Hfree. destruct (map_user_spec root va pa w u s A Ho Hva Hal Hfree)
    as [E|(s' & E & Ho' & Ht & _ & Hw & Hf & Hsl)]; [by left|right]. exists s'. split; [done|]. split.
  { constructor; [done| |done|done]. eapply own_words_sub; [|exact Hw]. intros; by apply list_elem_of_further. }
  destruct (owned_page s _ pa Ho ltac:(in_app)) as [Hq Hpos]. intros a. destruct (decide (a / 4096 = va / 4096)) as [Hp|Hp].
  - pose proof (same_page a va Hp Hal). pose proof (Z.mod_pos_bound a 4096).
    assert (user_va a) as Hua by (unfold user_va, USER_MAX_VMA in *; pose proof (Z.div_mod va 4096); lia).
    pose proof (Ht a Hua) as Hta. rewrite decide_True in Hta by done.
    rewrite view_some by (split; [done|lia]). f_equal. rewrite (peek_page _ _ _ pa Hq Hta). unfold page_byte.
    by rewrite (own_entry _ s s' pa _ Hw (list_elem_of_here _ _) (page_index a)).
  - destruct (decide (user_va a)) as [Hua|Hua]; [|by rewrite !view_outside by done].
    apply view_same; [by rewrite Ht, decide_False by done| |]; intros Hm; destruct (mapped_page _ _ _ _ Ho Hm) as (? & Heq & _); [|done].
    pose proof (mapped_leaf _ _ _ _ Ho Hm) as (Ep & _). rewrite Heq. intros x Hx.
    destruct (leaf_flags pa w u Hq) as (Hvp & Hvf & _). rewrite vmm_map_user_path in E by done.
    set (v := Z.lor (Z.lor (Z.lor pa PG_P) (if w then PG_W else 0)) (if u then PG_U else 0)) in *.
    destruct (map_path root (USER_SLOT :: vpath va) v s) as [s2| |] eqn:Em; try done. injection E as ->.
    eapply (user_map_pages v root (vpath va) s s' A); [apply vpath_ok| |exact Em|apply (vpath_ok a)|exact Ep|exact Hx].
    unfold page. rewrite Hvp, Hvf. exact Ho.
Qed.

Lemma map_fresh_spec root va w s A :
  owned s (user_frames s root ++ A) → USER_BASE ≤ va < USER_MAX_VMA → va mod 4096 = 0 →
  vmm_translate_in root va s = 0 →
  map_fresh root va w s = Panic ∨ (map_fresh root va w s = Ret (false, s) ∧ fr_alloc 0 s = (0, s)) ∨
  ∃ s', map_fresh root va w s = Ret (true, s') ∧ kept root A s s' ∧
    ∀ a, view root s' a = if decide (a / 4096 = va / 4096) then Some 0 else view root s a.
Proof.
  intros Ho Hva Hal Hfree. unfold map_fresh.
  destruct (alloc_page s _ Ho) as [->|(pa & s1 & -> & Hne & Ho1 & Hw1 & Hf1)]; [by right; left|]. rewrite Hne.
  destruct (zero_page_spec pa s1 _ Ho1 (list_elem_of_here _ _)) as (Ho2 & Hout & Hf2 & Hz).
  set (s2 := zero_page pa s1) in *. pose proof (outside_own pa s1 s2 _ _ Ho1 (reflexivity _) Hout) as Hw2.
  pose proof (own_words_trans _ _ _ _ Hw1 Hw2) as Hw12. pose proof (own_words_l _ _ _ _ Hw12) as Hwu.
  pose proof (user_frames_ext s s2 root Hwu) as Hfe.
  assert (owned s2 (user_frames s2 root ++ (pa, 0%nat) :: A)) as Ho3.
  { rewrite Hfe. eapply owned_perm; [exact Ho2|]. apply Permutation_middle. }
  assert (user_va va) as Hu by (unfold user_va, USER_MAX_VMA in *; lia).
  destruct (map_user_view root va pa w true s2 A Ho3 Hva Hal) as [E|(s3 & E & [Ho4 Hw4 Hf4 Hs4] & Hv)].
  { by rewrite (translate_ext root s s2 va _ _ Ho Hwu Ho3 Hu). } { left. by rewrite E. }
  right; right. exists s3. rewrite E. split; [done|]. split.
  - constructor; [done| | |].
    + eapply own_words_trans; [exact (own_words_r _ _ _ _ Hw12)|done].
    + eapply foreign_words_trans; [exact Hf1|]. eapply foreign_words_trans; [|exact Hf4].
      eapply outside_foreign; [exact Ho1|apply list_elem_of_here|exact Hout|exact Hf2].
    + intros i Hi Hne'. rewrite Hs4 by done. eapply own_entry; [exact Hwu|apply list_elem_of_here|done].
  - intros a. rewrite Hv, (view_ext root s s2 _ _ Ho Hwu Ho3). unfold page_byte. rewrite Hz by apply page_index.
    unfold nth_byte. by rewrite Z.shiftr_0_l.
Qed.

(** Writing bytes. *)
Definition overlay (va : Z) (bs : list Z) (m : Z → option Z) (a : Z) : option Z :=
  if decide (va ≤ a < va + Z.of_nat (length bs)) then bs !! Z.to_nat (a - va) else m a.

Lemma kstore_spec root va bs s A : owned s (user_frames s root ++ A) → Forall (λ b, 0 ≤ b < 256) bs →
  (∀ a, va ≤ a < va + Z.of_nat (length bs) → mapped root a s) →
  ∃ s', kstore root va bs s = Ret s' ∧ kept root A s s' ∧ ∀ a, view root s' a = overlay va bs (view root s) a.
Proof.
  intros Ho Hb Hm. unfold kstore. rewrite (proj2 (forallb_forall _ _)).
  2: { intros i Hi%list_elem_of_In%elem_of_seq. destruct (Hm (va + Z.of_nat i) ltac:(lia)) as [_ Ht]. by rewrite (proj2 (Z.eqb_neq _ _) Ht). }
  destruct (store_bytes_spec root A bs va s Ho Hm) as [[Ho' _ Ht Hw Hf Hsl] Hp]. eexists. split; [done|]. split; [done|].
  intros a. unfold overlay. destruct (decide (mapped root a s)) as [Ha|Ha].
  - rewrite (view_some _ _ s Ha), view_some, Hp by (done || (destruct Ha; split; [done|by rewrite Ht])).
    destruct (decide _) as [Hin|]; [|done].
    destruct (lookup_lt_is_Some_2 bs (Z.to_nat (a - va)) ltac:(lia)) as [b Hl]. rewrite Hl. cbn [default]. f_equal.
    apply u8_small. by eapply Forall_lookup_1 in Hb.
  - rewrite decide_False by (intros Hin; by apply Ha, Hm). unfold view. destruct (decide _) as [Hu|]; [|done].
    rewrite Ht by done. destruct (Z.eqb_spec (vmm_translate_in root a s) 0); [done|]. by destruct Ha.
Qed.

(** A page disappears and is returned. *)
Lemma unmap_user_view root va s A : owned s (user_frames s root ++ A) → user_va va →
  vmm_translate_in root va s ≠ 0 →
  ∃ pa s', vmm_unmap_user root va s = (pa, s') ∧ pa ≠ 0 ∧
    owned s' (user_frames s' root ++ (pa, 0%nat) :: A) ∧ own_words A s s' ∧ foreign_words s s' ∧ same_slots root s s' ∧
    ∀ a, view root s' a = if decide (a / 4096 = va / 4096) then None else view root s a.
Proof.
  intros Ho Hva Hne. destruct (unmap_user_spec root va s A Ho Hva Hne) as (pa & s' & E & Hpa & Ho' & Ht & Hw & Hf & Hsl).
  destruct (owned_page s' _ pa Ho' ltac:(apply elem_of_app; right; apply list_elem_of_here)) as [_ Hpos]. exists pa, s'. split_and!; [done|lia|done..|].
  intros a. destruct (decide (user_va a)) as [Hua|Hua].
  2: { rewrite !view_outside by done. by case_decide. }
  pose proof (Ht a Hua) as Hta. destruct (decide (a / 4096 = va / 4096)) as [Hp|Hp]; [by apply view_none|].
  apply view_same; [done| |]; intros Hm; destruct (mapped_page _ _ _ _ Ho Hm) as (? & Heq & _); [|done].
  pose proof (mapped_leaf _ _ _ _ Ho Hm) as (Ep & _). rewrite Heq. intros x Hx.
  pose proof (mapped_leaf _ _ _ _ Ho (conj Hva Hne)) as (Ev & _).
  destruct (walk_user s root va A Ho Hva) as [[_ H0']|(pt & Hwk & Hl & Hmap)]; [by rewrite H0' in Ev|].
  unfold vmm_unmap_user in E. rewrite Hwk, <- Hl, Ev in E. injection E as _ <-.
  eapply (user_map_pages 0 root (vpath va) s _ A (vpath_ok va)); [exact Ho|exact (Hmap 0)|apply (vpath_ok a)|exact Ep|exact Hx].
Qed.

(** ** Copies *)

Lemma peek_leaf root a s A : owned s (user_frames s root ++ A) → mapped root a s →
  peek root a s = page_byte s (frame_of (user_leaf s root (vpath a))) a.
Proof. intros Ho Hm. pose proof (mapped_leaf _ _ _ _ Ho Hm) as (_ & Hq & _ & Ht). by apply peek_page. Qed.

(** Two spaces with pages of the same contents look the same. *)
Lemma copy_view src dst s A A' : owned s (user_frames s src ++ A) → owned s (user_frames s dst ++ A') →
  (∀ va, user_va va →
     let e := user_leaf s src (vpath va) in let e' := user_leaf s dst (vpath va) in
     if present e then present e' = true ∧ Z.land e' 0xfff = Z.land e 0xfff ∧
       ∀ i, 0 ≤ i < 512 → entry s (frame_of e') i = entry s (frame_of e) i
     else present e' = false) →
  ∀ a, view dst s a = view src s a.
Proof.
  intros Ho Ho' Hc a. destruct (decide (user_va a)) as [Hu|Hu]; [|by rewrite !view_outside by done].
  specialize (Hc a Hu). cbn zeta in Hc. pose proof (translate_user s src a A Ho Hu) as Ht.
  pose proof (translate_user s dst a A' Ho' Hu) as Ht'. cbn zeta in Ht, Ht'.
  destruct (present (user_leaf s src (vpath a))) eqn:E.
  - destruct Hc as (E' & _ & He). rewrite E' in Ht'. pose proof (Z.mod_pos_bound a 4096).
    pose proof (user_leaf_frame s src _ _ Ho (vpath_ok a) E). pose proof (user_leaf_frame s dst _ _ Ho' (vpath_ok a) E').
    assert (mapped src a s) as Hm by (split; [done|lia]). assert (mapped dst a s) as Hm' by (split; [done|lia]).
    rewrite (view_some _ _ _ Hm), (view_some _ _ _ Hm'), (peek_leaf _ _ _ _ Ho Hm), (peek_leaf _ _ _ _ Ho' Hm').
    unfold page_byte. by rewrite He by apply page_index.
  - rewrite Hc in Ht'. by rewrite !view_none.
Qed.
End facts.
