(* ===== verification/Budget.v ===== *)
(** How many frames it takes to add a page to an address space.

    The allocator refuses a single frame only when it has none ([avail] of
    [Frames]).  A page takes at most four frames: itself and the three tables
    on the way to it.  With these bounds a lack of memory, which is an error
    or a panic of the kernel, is tied to the number of frames that are free. *)
From S2P Require Import Prelude Pmm PmmFacts PmmInit Frames Vmm VmmFacts VmmLife VmmDup UserMem Aspace.

Section budget.
Context {S : Type} `{FrameLaws S}.
Implicit Types (s : S) (A : list (Z * nat)).

(** The computation takes at most [n] frames, and panics only when there are
    fewer. *)
Definition costs {X} (n : Z) (mem_of : X → S) s (o : outcome X) : Prop :=
  match o with
  | Ret x => avail s - n ≤ avail (mem_of x)
  | Panic => avail s < n
  | Stuck => True
  end.

(** The same for a computation that reports a lack of frames. *)
Definition costs_ok (n : Z) s (o : outcome (bool * S)) : Prop :=
  match o with
  | Ret (true, s') => avail s - n ≤ avail s'
  | Ret (false, _) | Panic => avail s < n
  | Stuck => True
  end.

Lemma costs_bind {X Y} n m p q s (o : outcome X) (f : X → outcome Y) : 0 ≤ m → costs n p s o →
  (∀ x, o = Ret x → costs m q (p x) (f x)) → costs (n + m) q s (o ≫= f).
Proof.
  intros Hm Ho Hf. destruct o as [x| |]; cbn [mbind outcome_bind costs] in *; [|lia|done].
  specialize (Hf x eq_refl). destruct (f x); cbn [costs] in *; (lia || done).
Qed.

Lemma zero_page_avail t s : avail (zero_page t s) = avail s.
Proof.
  unfold zero_page. cut (∀ n i s, avail (for_loop (λ i, set_entry t (Z.of_nat i) 0) i n s) = avail s); [done|].
  induction n as [|n IH]; intros i s1; [done|]. cbn [for_loop]. rewrite IH. apply set_word_avail.
Qed.

Lemma store_bytes_avail root bs : ∀ va s, avail (store_bytes root va bs s) = avail s.
Proof. induction bs as [|b bs IH]; intros va s; [done|]. cbn [store_bytes]. rewrite IH. apply set_word_avail. Qed.

Lemma kstore_avail root va bs s s' : kstore root va bs s = Ret s' → avail s' = avail s.
Proof. unfold kstore. destruct (forallb _ _); [|done]. intros [= <-]. apply store_bytes_avail. Qed.

Lemma new_table_cost s A : owned s A → costs 1 snd s (new_table s).
Proof.
  intros Ho. unfold new_table. destruct (fr_alloc 0 s) as [t s1] eqn:Ea. destruct (fr_alloc_avail s A t s1 Ho Ea) as [Hz Hle].
  destruct (Z.eqb_spec t 0) as [->|]; cbn [costs snd]; [rewrite Hz by done; lia|]. by rewrite zero_page_avail.
Qed.

Lemma ensure_table_cost t i s A : owned s A → costs 1 snd s (ensure_table t i PG_U s).
Proof.
  intros Ho. unfold ensure_table. destruct (present _); [cbn; lia|]. apply (costs_bind 1 0 snd snd); [lia|by eapply new_table_cost|].
  intros [t' s'] _. cbn [costs snd]. unfold set_entry. rewrite set_word_avail. lia.
Qed.

Lemma new_user_aspace_cost pml4 s A : owned s A → costs 1 snd s (vmm_new_user_aspace pml4 s).
Proof.
  intros Ho. unfold vmm_new_user_aspace. apply (costs_bind 1 0 snd snd); [lia|by eapply new_table_cost|]. intros [root s'] _. cbn [costs snd].
  match goal with |- _ ≤ avail (for_loop ?f _ _ _) => cut (∀ n i s, avail (for_loop f i n s) = avail s); [intros ->; lia|] end.
  induction n as [|n IH]; intros i s1; [done|]. cbn [for_loop]. rewrite IH. destruct (_ =? _); [done|]. apply set_word_avail.
Qed.

Lemma map_path_cost v k : ∀ t p s A, path_ok (Datatypes.S k) p →
  owned s (frames_of (Datatypes.S k) s t ++ page v ++ A) → costs (Z.of_nat k) id s (map_path t p v s).
Proof.
  induction k as [|k IH]; intros t p s A [Hl Hp] Ho.
  { destruct p as [|i [|? ?]]; try done. cbn. unfold set_entry. rewrite set_word_avail. lia. }
  destruct p as [|i [|i' p]]; try done. inversion Hp as [|? ? Hi Hp']; subst.
  change (map_path t (i :: i' :: p) v s) with ('(t', s) ← ensure_table t i PG_U s; map_path t' (i' :: p) v s).
  replace (Z.of_nat (Datatypes.S k)) with (1 + Z.of_nat k) by lia.
  eapply costs_bind; [lia|by eapply ensure_table_cost|]. intros [t' s1] E. cbn [snd].
  set (R := others (Datatypes.S k) s t i).
  assert (owned s (kids (Datatypes.S k) s (entry s t i) ++ R ++ page v ++ A)) as Ho0.
  { eapply owned_perm; [exact Ho|]. rewrite (frames_split _ s t i) by done. by rewrite <- app_assoc. }
  destruct (ensure_table_spec k s t i R (page v ++ A) Ho0 (list_elem_of_here _ _) Hi)
    as [E'|(t1 & s2 & E' & _ & _ & _ & Ho1 & _)]; rewrite E in E'; [done|]. injection E' as <- <-.
  apply (IH t' (i' :: p) s1 (R ++ A)); [split; [by inversion Hl|done]|].
  eapply owned_perm; [exact Ho1|]. apply perm_mid.
Qed.

Lemma user_map_cost v root p s A : path_ok 3 p → owned s (user_frames s root ++ page v ++ A) →
  costs 3 id s (map_path root (USER_SLOT :: p) v s).
Proof.
  intros Hp Ho. destruct p as [|i3 p]; [by destruct Hp|]. assert (0 ≤ USER_SLOT < 512) as Hu by by_eval.
  change (map_path root (USER_SLOT :: i3 :: p) v s)
    with ('(t', s) ← ensure_table root USER_SLOT PG_U s; map_path t' (i3 :: p) v s).
  assert (owned s (kids 3 s (entry s root USER_SLOT) ++ [(root, 0%nat)] ++ page v ++ A)) as Ho0.
  { eapply owned_perm; [exact Ho|]. unfold user_frames. solve_Permutation. }
  apply (costs_bind 1 2 snd); [lia|by eapply ensure_table_cost|]. intros [t' s1] E. cbn [snd].
  destruct (ensure_table_spec 2 s root USER_SLOT [(root, 0%nat)] (page v ++ A) Ho0 (list_elem_of_here _ _) Hu)
    as [E'|(t1 & s2 & E' & _ & _ & _ & Ho1 & _)]; rewrite E in E'; [done|]. injection E' as <- <-.
  apply (map_path_cost v 2 t' (i3 :: p) s1 ((root, 0%nat) :: A) Hp).
  eapply owned_perm; [exact Ho1|]. apply (perm_mid _ [_]).
Qed.

Lemma map_user_cost root va pa w u s A : owned s (user_frames s root ++ (pa, 0%nat) :: A) →
  USER_BASE ≤ va < USER_MAX_VMA → va mod 4096 = 0 → costs 3 snd s (vmm_map_user root va pa w u s).
Proof.
  intros Ho Hva Hal. destruct (owned_page s _ pa Ho ltac:(set_solver)) as [Hpa Hpos].
  destruct (leaf_flags pa w u Hpa) as (Hvp & Hvf & _). rewrite vmm_map_user_path by done. set (v := Z.lor (Z.lor _ _) _) in *.
  apply (costs_bind 3 0 id snd); [lia| |intros s' _; cbn; unfold id; lia]. apply (user_map_cost v root _ s A (vpath_ok va)).
  unfold page. by rewrite Hvp, Hvf.
Qed.

(** A page takes at most four frames. *)
Lemma map_fresh_cost root va w s A : owned s (user_frames s root ++ A) →
  USER_BASE ≤ va < USER_MAX_VMA → va mod 4096 = 0 → costs_ok 4 s (map_fresh root va w s).
Proof.
  intros Ho Hva Hal. unfold map_fresh. destruct (fr_alloc 0 s) as [pa s1] eqn:Ea.
  destruct (fr_alloc_avail s _ pa s1 Ho Ea) as [Hz Hle]. destruct (Z.eqb_spec pa 0) as [->|Hne]; [cbn; rewrite Hz by done; lia|].
  destruct (fr_alloc_spec 0 s _ pa s1 Ho ltac:(unfold MAX_ORDER; lia) Ea) as [[? _]|(_ & Ho1 & Hw1)]; [done|].
  destruct (zero_page_spec pa s1 _ Ho1 (list_elem_of_here _ _)) as (Ho2 & Hout & _).
  pose proof (zero_page_avail pa s1) as Hza. set (s2 := zero_page pa s1) in *.
  pose proof (outside_own pa s1 s2 _ _ Ho1 (reflexivity _) Hout) as Hw2.
  assert (own_words (user_frames s root ++ A) s s1) as Hw1' by (intros x Hx; apply Hw1; rewrite owners_cons; lia).
  pose proof (user_frames_ext s s2 root (own_words_l _ _ _ _ (own_words_trans _ _ _ _ Hw1' Hw2))) as Hfe.
  assert (owned s2 (user_frames s2 root ++ (pa, 0%nat) :: A)) as Ho3.
  { rewrite Hfe. eapply owned_perm; [exact Ho2|]. apply Permutation_middle. }
  pose proof (map_user_cost root va pa w true s2 A Ho3 Hva Hal) as Hc.
  destruct (vmm_map_user _ _ _ _ _ _) as [[? s3]| |]; cbn [mbind outcome_bind costs costs_ok snd] in *; (lia || done).
Qed.
End budget.
