(* ===== verification/Elf.v ===== *)
(** The program loader ([kernel/elf.c], [include/elf.h]).

    The image is the list of the bytes of the file.  Every access to it states
    the bytes it reads: [within] is stuck when they are not all inside.  The
    loader runs on the page tables it fills, so a store to an address without
    a page is a fault in the kernel ([kstore]). *)
From S2P Require Import Prelude Bytes Pmm PmmFacts PmmInit Frames Vmm VmmFacts VmmLife VmmDup VmmDemo UserMem Aspace Budget.

Record Elf64_Ehdr := Ehdr {
  e_ident : list Z; e_type : Z; e_entry : Z; e_phoff : Z; e_phnum : Z }.

Record Elf64_Phdr := Phdr {
  p_type : Z; p_flags : Z; p_offset : Z; p_vaddr : Z; p_paddr : Z; p_filesz : Z; p_memsz : Z; p_align : Z }.

Definition EHDR_SIZE : Z := 64.
Definition PHDR_SIZE : Z := 56.
Definition PT_LOAD : Z := 1.
Definition PF_W : Z := 2.

Definition ehdr_at (img : list Z) : Elf64_Ehdr :=
  Ehdr (take 16 img) (le16 img 16) (le64 img 24) (le64 img 32) (le16 img 56).

Definition phdr_at (img : list Z) (off : nat) : Elf64_Phdr :=
  Phdr (le32 img off) (le32 img (off + 4)) (le64 img (off + 8)) (le64 img (off + 16)) (le64 img (off + 24))
       (le64 img (off + 32)) (le64 img (off + 40)) (le64 img (off + 48)).

(** An access to the bytes [off .. off + n - 1] of the image. *)
Definition within {A} (img : list Z) (off n : Z) (a : A) : outcome A :=
  if (0 <=? off) && (off + n <=? Z.of_nat (length img)) then Ret a else Stuck.

Definition slice (img : list Z) (off n : Z) : list Z := take (Z.to_nat n) (drop (Z.to_nat off) img).

(** [memcmp(e_ident, "\x7f" "ELF", 4) || e_ident\[4\] != 2] *)
Definition not_elf64 (eh : Elf64_Ehdr) : bool :=
  negb (bool_decide (take 4 (e_ident eh) = [0x7f; 69; 76; 70])) || negb (byte_at (e_ident eh) 4 =? 2).

(** The segment is loaded: the others are skipped. *)
Definition loadable (ph : Elf64_Phdr) : bool :=
  (p_type ph =? PT_LOAD) &&
  negb ((u64 (p_vaddr ph + p_memsz ph) <=? p_vaddr ph) || (p_vaddr ph <? USER_BASE) || (USER_MAX_VMA <=? p_vaddr ph)).

Definition malformed (imgsize : Z) (ph : Elf64_Phdr) : bool :=
  (imgsize <? p_offset ph) || (u64 (imgsize - p_offset ph) <? p_filesz ph) || (p_memsz ph <? p_filesz ph).

Section elf.
Context {S : Type} `{Frames S}.
Implicit Types (s : S).

(** The loop over the pages from [page] on; a page that is mapped already
    stays as it is. *)
Fixpoint map_pages (n : nat) (root page : Z) (w : bool) s : outcome (bool * S) :=
  match n with
  | O => Ret (true, s)
  | Datatypes.S n =>
      if negb (vmm_translate_in root page s =? 0) then map_pages n root (page + PAGE_SIZE) w s else
      '(ok, s) ← map_fresh root page w s;
      if ok : bool then map_pages n root (page + PAGE_SIZE) w s else Ret (false, s)
  end.

(** The end of the segment, or nothing when the loader gives up.  Both ends of
    the loop are multiples of the page size, so the counter does not wrap. *)
Definition load_segment (root : Z) (img : list Z) (ph : Elf64_Phdr) s : outcome (option Z * S) :=
  if malformed (Z.of_nat (length img)) ph then Ret (None, s) else
  let va := ALIGN_DOWN (p_vaddr ph) PAGE_SIZE in
  let fin := ALIGN_UP (u64 (p_vaddr ph + p_memsz ph)) PAGE_SIZE in
  let w := negb (Z.land (p_flags ph) PF_W =? 0) in
  '(ok, s) ← map_pages (Z.to_nat ((fin - va) / PAGE_SIZE)) root va w s;
  if negb ok then Ret (None, s) else
  bs ← within img (p_offset ph) (p_filesz ph) (slice img (p_offset ph) (p_filesz ph));
  s ← kstore root (p_vaddr ph) bs s;
  Ret (Some fin, s).

(** The loop over the program headers: [n] of them are left. *)
Fixpoint load_phdrs (n : nat) (root : Z) (img : list Z) (off : Z) (max_end : Z) s : outcome (option Z * S) :=
  match n with
  | O => Ret (Some max_end, s)
  | Datatypes.S n =>
      ph ← within img off PHDR_SIZE (phdr_at img (Z.to_nat off));
      if negb (loadable ph) then load_phdrs n root img (off + PHDR_SIZE) max_end s else
      '(fin, s) ← load_segment root img ph s;
      match fin with
      | None => Ret (None, s)
      | Some fin => load_phdrs n root img (off + PHDR_SIZE) (if max_end <? fin then fin else max_end) s
      end
  end.

(** The entry point, 0 on failure, and [*brk_end]. *)
Definition elf_load (root : Z) (img : list Z) (brk_end : Z) s : outcome (Z * Z * S) :=
  let imgsize := Z.of_nat (length img) in
  if imgsize <? EHDR_SIZE then Ret (0, brk_end, s) else
  eh ← within img 0 EHDR_SIZE (ehdr_at img);
  if not_elf64 eh then Ret (0, brk_end, s) else
  if negb (e_type eh =? 2) then Ret (0, brk_end, s) else
  if (imgsize <? e_phoff eh) || (128 <? e_phnum eh) || (imgsize - e_phoff eh <? e_phnum eh * PHDR_SIZE)
  then Ret (0, brk_end, s) else
  '(max_end, s) ← load_phdrs (Z.to_nat (e_phnum eh)) root img (e_phoff eh) 0 s;
  match max_end with
  | None => Ret (0, brk_end, s)
  | Some max_end => Ret (e_entry eh, ALIGN_UP max_end PAGE_SIZE, s)
  end.
End elf.

(** ** What the loader promises

    On the bytes a process sees, loading a segment fills the missing pages of
    its range with zeros and then lays the bytes of the file over them. *)
Definition zero_fill (lo hi : Z) (m : Z → option Z) (a : Z) : option Z :=
  match m a with
  | Some b => Some b
  | None => if decide (lo ≤ a < hi) then Some 0 else None
  end.

Definition seg_start (ph : Elf64_Phdr) : Z := p_vaddr ph / 4096 * 4096.
Definition seg_end (ph : Elf64_Phdr) : Z := (p_vaddr ph + p_memsz ph + 4095) / 4096 * 4096.

(** The frames that are certain to be enough: four for every page. *)
Definition seg_need (ph : Elf64_Phdr) : Z := 4 * ((seg_end ph - seg_start ph) / 4096).
Definition segs_need (l : list Elf64_Phdr) : Z := foldr (λ ph n, seg_need ph + n) 0 l.

Definition load_seg (img : list Z) (m : Z → option Z) (ph : Elf64_Phdr) : Z → option Z :=
  overlay (p_vaddr ph) (slice img (p_offset ph) (p_filesz ph)) (zero_fill (seg_start ph) (seg_end ph) m).

(** The program headers, and those of them that are loaded. *)
Definition phdrs (img : list Z) (off : Z) (n : nat) : list Elf64_Phdr :=
  (λ i : nat, phdr_at img (Z.to_nat (off + 56 * Z.of_nat i))) <$> seq 0 n.
Definition segments (img : list Z) : list Elf64_Phdr :=
  filter loadable (phdrs img (e_phoff (ehdr_at img)) (Z.to_nat (e_phnum (ehdr_at img)))).

(** A static ELF64 executable whose tables and segments are inside the file. *)
Definition valid_header (img : list Z) : bool :=
  let n := Z.of_nat (length img) in
  let eh := ehdr_at img in
  (64 <=? n) && negb (not_elf64 eh) && (e_type eh =? 2) && (e_phnum eh <=? 128) &&
  (e_phoff eh + 56 * e_phnum eh <=? n).
Definition in_file (img : list Z) (ph : Elf64_Phdr) : bool :=
  (p_offset ph + p_filesz ph <=? Z.of_nat (length img)) && (p_filesz ph <=? p_memsz ph).
Definition valid_image (img : list Z) : bool := valid_header img && forallb (in_file img) (segments img).

(** The segment ends below the top of user space. *)
Definition fits_user (ph : Elf64_Phdr) : bool := p_vaddr ph + p_memsz ph <=? USER_MAX_VMA.

Lemma overlay_ext va bs m m' : (∀ a, m a = m' a) → ∀ a, overlay va bs m a = overlay va bs m' a.
Proof. intros Hm a. unfold overlay. by rewrite Hm. Qed.
Lemma zero_fill_ext lo hi m m' : (∀ a, m a = m' a) → ∀ a, zero_fill lo hi m a = zero_fill lo hi m' a.
Proof. intros Hm a. unfold zero_fill. by rewrite Hm. Qed.
Lemma load_segs_ext img l : ∀ m m', (∀ a, m a = m' a) → ∀ a, foldl (load_seg img) m l a = foldl (load_seg img) m' l a.
Proof.
  induction l as [|ph l IH]; intros m m' Hm; [done|]. apply IH. by apply overlay_ext, zero_fill_ext.
Qed.

Lemma zero_fill_split lo mid hi m a : lo ≤ mid ≤ hi → zero_fill mid hi (zero_fill lo mid m) a = zero_fill lo hi m a.
Proof. intros Hm. unfold zero_fill. destruct (m a); [done|]. repeat case_decide; (done || lia). Qed.

Lemma phdrs_S img off n : phdrs img off (Datatypes.S n) = phdr_at img (Z.to_nat off) :: phdrs img (off + 56) n.
Proof.
  unfold phdrs. cbn [seq fmap list_fmap]. f_equal; [do 2 f_equal; lia|]. rewrite <- fmap_S_seq, <- list_fmap_compose.
  apply list_fmap_ext. intros i x _. cbn. do 2 f_equal. lia.
Qed.

Lemma segments_cons ph l : filter loadable (ph :: l) = if loadable ph then ph :: filter loadable l else filter loadable l.
Proof. rewrite filter_cons. by destruct (loadable ph); case_decide. Qed.

Lemma phdr_range img off : bytes_ok img → let ph := phdr_at img off in
  0 ≤ p_vaddr ph < 2 ^ 64 ∧ 0 ≤ p_memsz ph < 2 ^ 64 ∧ 0 ≤ p_filesz ph < 2 ^ 64 ∧ 0 ≤ p_offset ph < 2 ^ 64.
Proof.
  intros Hb ph. assert (∀ o, 0 ≤ le64 img o < 2 ^ 64) as Hr.
  { intros o. unfold le64. pose proof (le32_range img o Hb). pose proof (le32_range img (o + 4) Hb). lia. }
  split_and!; apply Hr.
Qed.

(** The conditions of the code, as the arithmetic they mean. *)
Lemma loadable_spec ph : 0 ≤ p_vaddr ph < 2 ^ 64 → 0 ≤ p_memsz ph < 2 ^ 64 → loadable ph = true →
  USER_BASE ≤ p_vaddr ph < USER_MAX_VMA ∧ 0 < p_memsz ph ∧ p_vaddr ph + p_memsz ph < 2 ^ 64.
Proof.
  unfold loadable. intros Hv Hm [_ [[Hw%Z.leb_gt Hb%Z.ltb_ge]%orb_false_elim Ht%Z.leb_gt]%negb_true_iff%orb_false_elim]%andb_prop.
  destruct (decide (p_vaddr ph + p_memsz ph < 2 ^ 64)).
  - rewrite u64_small in Hw by lia. lia.
  - unfold u64 in Hw. rewrite <- (Z.mod_unique _ (2 ^ 64) 1 (p_vaddr ph + p_memsz ph - 2 ^ 64)) in Hw by lia. lia.
Qed.

Lemma malformed_spec img ph : 0 ≤ p_offset ph < 2 ^ 64 → 0 ≤ p_filesz ph → Z.of_nat (length img) < 2 ^ 64 →
  malformed (Z.of_nat (length img)) ph = negb (in_file img ph).
Proof.
  intros Ho Hf Hn. unfold malformed, in_file. rewrite !negb_andb, <- !Z.ltb_antisym.
  destruct (Z.ltb_spec (Z.of_nat (length img)) (p_offset ph)).
  - by rewrite (proj2 (Z.ltb_lt (Z.of_nat (length img)) (p_offset ph + p_filesz ph))) by lia.
  - rewrite u64_small by lia. cbn [orb]. f_equal. apply Bool.eq_iff_eq_true. rewrite !Z.ltb_lt. lia.
Qed.

Lemma seg_bounds ph : 0 ≤ p_vaddr ph → 0 < p_memsz ph → p_vaddr ph + p_memsz ph ≤ USER_MAX_VMA →
  ALIGN_DOWN (p_vaddr ph) PAGE_SIZE = seg_start ph ∧
  ALIGN_UP (u64 (p_vaddr ph + p_memsz ph)) PAGE_SIZE = seg_end ph ∧
  seg_start ph ≤ p_vaddr ph ∧ p_vaddr ph + p_memsz ph ≤ seg_end ph ≤ USER_MAX_VMA.
Proof.
  intros Hv Hm Ht. assert (USER_MAX_VMA < 2 ^ 47 ∧ USER_MAX_VMA mod 4096 = 0) as [HU HU'] by by_eval.
  unfold seg_start, seg_end. change PAGE_SIZE with (2 ^ 12). rewrite ALIGN_DOWN_pow2, u64_small, ALIGN_UP_pow2 by lia.
  change (2 ^ 12) with 4096. rewrite <- (Z.add_sub_assoc _ 4096 1). change (4096 - 1) with 4095.
  pose proof (Z.div_mod USER_MAX_VMA 4096). pose proof (Z.div_mod (p_vaddr ph) 4096).
  pose proof (Z.mod_pos_bound (p_vaddr ph) 4096). pose proof (Z.div_mod (p_vaddr ph + p_memsz ph + 4095) 4096).
  pose proof (Z.mod_pos_bound (p_vaddr ph + p_memsz ph + 4095) 4096). split_and!; [done|done|lia..].
Qed.

Section loads.
Context {S : Type} `{FrameLaws S}.
Implicit Types (s : S) (A : list (Z * nat)).

(** Either every page of the range is there, or the frames ran out. *)
Lemma map_pages_spec root w A n : ∀ page s, owned s (user_frames s root ++ A) → page mod 4096 = 0 →
  USER_BASE ≤ page → page + 4096 * Z.of_nat n ≤ USER_MAX_VMA →
  map_pages n root page w s = Panic ∨
  ∃ ok s', map_pages n root page w s = Ret (ok, s') ∧ kept root A s s' ∧
    if ok then ∀ a, view root s' a = zero_fill page (page + 4096 * Z.of_nat n) (view root s) a
    else fr_alloc 0 s' = (0, s').
Proof.
  induction n as [|n IH]; intros page s Ho Hal Hlo Hhi; cbn [map_pages].
  { right. exists true, s. split_and!; [done|by apply kept_refl|]. intros a. unfold zero_fill.
    destruct (view root s a); [done|]. by rewrite decide_False by lia. }
  assert ((page + PAGE_SIZE) mod 4096 = 0) as Hal' by (unfold PAGE_SIZE; rewrite <- Zplus_mod_idemp_l, Hal; done).
  assert (∀ s1, kept root A s s1 → (∀ a, view root s1 a = zero_fill page (page + 4096) (view root s) a) →
    map_pages n root (page + PAGE_SIZE) w s1 = Panic ∨
    ∃ ok s', map_pages n root (page + PAGE_SIZE) w s1 = Ret (ok, s') ∧ kept root A s s' ∧
      if ok then ∀ a, view root s' a = zero_fill page (page + 4096 * Z.of_nat (Datatypes.S n)) (view root s) a
      else fr_alloc 0 s' = (0, s')) as Hrest.
  { intros s1 Hk Hv. destruct (IH (page + PAGE_SIZE) s1 (kp_owned _ _ _ _ Hk) Hal')
      as [?|(ok & s2 & ? & Hk2 & Hok)]; [unfold PAGE_SIZE; lia..|by left|right].
    exists ok, s2. split_and!; [done|by eapply kept_trans|]. destruct ok; [|done]. intros a.
    rewrite Hok, (zero_fill_ext _ _ _ _ Hv). unfold PAGE_SIZE.
    rewrite zero_fill_split by lia. f_equal; lia. }
  assert (user_va page) as Hu by (unfold user_va, USER_MAX_VMA in *; lia).
  destruct (Z.eqb_spec (vmm_translate_in root page s) 0) as [Hz|Hnz]; cbn [negb].
  - destruct (map_fresh_spec root page w s A Ho ltac:(lia) Hal Hz) as [->|[[-> Hoom]|(s1 & -> & Hk & Hv)]].
    + by left.
    + right. exists false, s. split_and!; [done|by apply kept_refl|done].
    + cbn [mbind outcome_bind]. apply Hrest; [done|]. intros a. rewrite Hv. unfold zero_fill.
      pose proof (Z.div_mod page 4096). pose proof (Z.div_mod a 4096). pose proof (Z.mod_pos_bound a 4096).
      destruct (decide (a / 4096 = page / 4096)) as [He|He].
      * assert (view root s a = None) as ->; [|by rewrite decide_True by lia].
        destruct (view root s a) eqn:Ev; [|done]. assert (view root s a ≠ None) as [Hua Hta]%view_mapped by by rewrite Ev.
        by destruct (translate_page root a page s A Ho Hua Hu He Hta).
      * destruct (view root s a); [done|]. by rewrite decide_False by lia.
  - apply Hrest; [by apply kept_refl|]. intros a. unfold zero_fill. destruct (view root s a) eqn:Ev; [done|].
    rewrite decide_False; [done|]. intros Ha. pose proof (Z.div_mod page 4096).
    assert (user_va a) as Hua by (unfold user_va, USER_MAX_VMA in *; lia).
    assert (page / 4096 = a / 4096) as Hpa by (apply Z.div_unique with (a - page); lia).
    assert (mapped root a s) as Hma by (split; [done|by eapply (translate_page root page a)]).
    by rewrite (view_some _ _ _ Hma) in Ev.
Qed.

(** Four frames are enough for a page. *)
Lemma map_pages_cost root w A n : ∀ page s, owned s (user_frames s root ++ A) → page mod 4096 = 0 →
  USER_BASE ≤ page → page + 4096 * Z.of_nat n ≤ USER_MAX_VMA →
  costs_ok (4 * Z.of_nat n) s (map_pages n root page w s).
Proof.
  induction n as [|n IH]; intros page s Ho Hal Hlo Hhi; cbn [map_pages]; [cbn; lia|].
  assert (∀ s1, owned s1 (user_frames s1 root ++ A) → costs_ok (4 * Z.of_nat n) s1 (map_pages n root (page + PAGE_SIZE) w s1)) as Hrest.
  { intros s1 Ho1. apply IH; [done| |unfold PAGE_SIZE; lia..]. unfold PAGE_SIZE. by rewrite <- Zplus_mod_idemp_l, Hal. }
  destruct (Z.eqb_spec (vmm_translate_in root page s) 0) as [Hz|Hnz]; cbn [negb].
  - pose proof (map_fresh_cost root page w s A Ho ltac:(lia) Hal) as Hc.
    destruct (map_fresh_spec root page w s A Ho ltac:(lia) Hal Hz) as [E|[[E _]|(s1 & E & Hk & _)]]; rewrite E in *;
      cbn [mbind outcome_bind costs_ok] in *; [lia|lia|]. specialize (Hrest s1 (kp_owned _ _ _ _ Hk)).
    destruct (map_pages _ _ _ _ _) as [[[] s2]| |]; cbn [costs_ok] in *; (lia || done).
  - specialize (Hrest s Ho). destruct (map_pages _ _ _ _ _) as [[[] s2]| |]; cbn [costs_ok] in *; (lia || done).
Qed.

Lemma slice_length img ph : in_file img ph = true → 0 ≤ p_offset ph → 0 ≤ p_filesz ph →
  Z.of_nat (length (slice img (p_offset ph) (p_filesz ph))) = p_filesz ph.
Proof.
  intros [Hi%Z.leb_le _]%andb_prop Ho Hf. unfold slice. rewrite length_take, length_drop. lia.
Qed.

Lemma load_segment_spec root img off s A : let ph := phdr_at img off in
  owned s (user_frames s root ++ A) → bytes_ok img → Z.of_nat (length img) < 2 ^ 64 →
  loadable ph = true → fits_user ph = true → in_file img ph = true →
  (load_segment root img ph s = Panic ∧ avail s < seg_need ph) ∨
  ∃ fin s', load_segment root img ph s = Ret (fin, s') ∧ kept root A s s' ∧
    match fin with
    | None => avail s < seg_need ph
    | Some e => e = seg_end ph ∧ avail s - seg_need ph ≤ avail s' ∧ ∀ a, view root s' a = load_seg img (view root s) ph a
    end.
Proof.
  intros ph Ho Hb Hn Hld Hfit%Z.leb_le Hin. destruct (phdr_range img off Hb) as (Hv & Hm & Hf & Hof). fold ph in Hv, Hm, Hf, Hof.
  destruct (loadable_spec ph Hv Hm Hld) as (Huv & Hmp & _).
  destruct (seg_bounds ph ltac:(lia) Hmp Hfit) as (Hlo & Hhi & Hb1 & Hb2). unfold load_segment.
  rewrite malformed_spec, Hin by lia. cbn [negb]. rewrite Hlo, Hhi.
  assert (Z.of_nat (Z.to_nat ((seg_end ph - seg_start ph) / PAGE_SIZE)) * 4096 = seg_end ph - seg_start ph) as Hpg.
  { rewrite Z2Nat.id by (apply Z.div_pos; [lia|done]). unfold PAGE_SIZE, seg_end, seg_start.
    rewrite <- Z.mul_sub_distr_r, Z.div_mul by lia. done. }
  set (w := negb _). assert (USER_BASE mod 4096 = 0) as HU by by_eval. pose proof (Z.div_mod USER_BASE 4096).
  assert (seg_start ph mod 4096 = 0) as Hal by (unfold seg_start; apply Z_mod_mult).
  assert (USER_BASE ≤ seg_start ph) as Hlow by (unfold seg_start; pose proof (Z.div_le_mono USER_BASE (p_vaddr ph) 4096); lia).
  set (n := Z.to_nat _) in *. pose proof (map_pages_cost root w A n (seg_start ph) s Ho Hal Hlow ltac:(lia)) as Hc.
  assert (4 * Z.of_nat n = seg_need ph) as Hneed by (unfold seg_need; rewrite <- (Z.div_unique_exact _ _ (Z.of_nat n)); lia).
  rewrite Hneed in Hc.
  destruct (map_pages_spec root w A n (seg_start ph) s Ho Hal Hlow ltac:(lia)) as [E|(ok & s1 & E & Hk & Hok)]; rewrite E in *; [by left|].
  cbn [mbind outcome_bind costs_ok] in *. right. destruct ok; cbn [negb].
  2: { by exists None, s1. }
  replace (seg_start ph + _) with (seg_end ph) in Hok by lia. pose proof Hin as [Hi%Z.leb_le Hfm%Z.leb_le]%andb_prop.
  unfold within. rewrite (proj2 (Z.leb_le 0 _)), (proj2 (Z.leb_le _ _) Hi) by lia. cbn [andb mbind outcome_bind].
  destruct (kstore_spec root (p_vaddr ph) (slice img (p_offset ph) (p_filesz ph)) s1 A) as (s2 & Es & Hk2 & Hv2).
  - apply Hk.
  - apply Forall_take, Forall_drop, Hb.
  - intros a. rewrite slice_length by (done || lia). intros Ha. apply view_mapped. rewrite Hok. unfold zero_fill.
    destruct (view root s a); [done|]. by rewrite decide_True by lia.
  - rewrite Es. exists (Some (seg_end ph)), s2. pose proof (kstore_avail _ _ _ _ _ Es).
    split_and!; [done|by eapply kept_trans|done|lia|]. intros a. rewrite Hv2. by apply overlay_ext.
Qed.

(** The first byte behind the segments. *)
Definition top_of (m : Z) (l : list Elf64_Phdr) : Z := foldl (λ m ph, Z.max m (seg_end ph)) m l.

Lemma seg_need_pos img off : bytes_ok img → 0 ≤ seg_need (phdr_at img off).
Proof.
  intros Hb. destruct (phdr_range img off Hb) as (Hv & Hm & _). unfold seg_need, seg_end, seg_start.
  pose proof (Z.div_le_mono (p_vaddr (phdr_at img off)) (p_vaddr (phdr_at img off) + p_memsz (phdr_at img off) + 4095) 4096).
  rewrite <- Z.mul_sub_distr_r, Z.div_mul by lia. lia.
Qed.
Lemma segs_need_pos l : (∀ ph, ph ∈ l → 0 ≤ seg_need ph) → 0 ≤ segs_need l.
Proof.
  induction l as [|ph l IH]; intros Hl; [done|]. pose proof (Hl ph (list_elem_of_here _ _)).
  assert (0 ≤ segs_need l) by (apply IH; intros q Hq; by apply Hl, list_elem_of_further). unfold segs_need in *. cbn [foldr]. lia.
Qed.

Lemma load_phdrs_spec root img A n : bytes_ok img → Z.of_nat (length img) < 2 ^ 64 → ∀ off max_end s,
  let segs := filter loadable (phdrs img off n) in
  owned s (user_frames s root ++ A) → 0 ≤ off → off + 56 * Z.of_nat n ≤ Z.of_nat (length img) →
  (∀ ph, ph ∈ segs → fits_user ph = true) →
  (load_phdrs n root img off max_end s = Panic ∧ avail s < segs_need segs) ∨
  ∃ fin s', load_phdrs n root img off max_end s = Ret (fin, s') ∧ kept root A s s' ∧
    match fin with
    | None => forallb (in_file img) segs = false ∨ avail s < segs_need segs
    | Some e => forallb (in_file img) segs = true ∧ e = top_of max_end segs ∧
                ∀ a, view root s' a = foldl (load_seg img) (view root s) segs a
    end.
Proof.
  intros Hb Hn. induction n as [|n IH]; intros off max_end s segs Ho Hoff Hend Hfit; cbn [load_phdrs].
  { right. exists (Some max_end), s. split_and!; [done|by apply kept_refl|done..]. }
  unfold within, PHDR_SIZE. rewrite (proj2 (Z.leb_le 0 off)), (proj2 (Z.leb_le _ (Z.of_nat (length img)))) by lia.
  cbn [andb mbind outcome_bind]. unfold segs in *. clear segs. rewrite phdrs_S in *. set (ph := phdr_at img (Z.to_nat off)) in *.
  set (l := phdrs img (off + 56) n) in *. rewrite (segments_cons ph l) in *.
  destruct (loadable ph) eqn:Hld; cbn [negb]; [|apply IH; (done || lia)].
  assert (fits_user ph = true) as Hf1 by (apply Hfit, list_elem_of_here). cbn [forallb segs_need foldr].
  assert (0 ≤ seg_need ph ∧ 0 ≤ segs_need (filter loadable l)) as [Hn0 Hn1].
  { split; [|apply segs_need_pos; intros q (_ & (i & -> & _)%list_elem_of_fmap)%list_elem_of_filter]; by apply seg_need_pos. }
  change (foldr _ 0 (filter loadable l)) with (segs_need (filter loadable l)). destruct (in_file img ph) eqn:Hin.
  - destruct (load_segment_spec root img (Z.to_nat off) s A Ho Hb Hn Hld Hf1 Hin)
      as [[E Hlow]|(fin & s1 & E & Hk & Hfin)]; fold ph in E; rewrite E; [left; fold ph in Hlow; split; [done|lia]|]. cbn [mbind outcome_bind].
    destruct fin as [e|]; fold ph in Hfin; [|right; exists None, s1; split_and!; [done|done|right; lia]].
    destruct Hfin as (-> & Hav & Hv). fold ph in Hv. set (m' := if max_end <? _ then _ else _).
    assert (m' = Z.max max_end (seg_end ph)) as -> by (unfold m'; fold ph; destruct (Z.ltb_spec max_end (seg_end ph)); lia).
    destruct (IH (off + 56) (Z.max max_end (seg_end ph)) s1 (kp_owned _ _ _ _ Hk)) as [[-> Hlow]|(fin & s2 & -> & Hk2 & Hfin)]; [lia|lia| |left; fold l in Hlow; split; [done|lia]|].
    { intros q Hq. apply Hfit. by apply list_elem_of_further. }
    right. exists fin, s2. split_and!; [done|by eapply kept_trans|]. fold l in Hfin. destruct fin as [e|].
    + destruct Hfin as (-> & -> & Hv2). split_and!; [done|done|]. intros a. rewrite Hv2. cbn [foldl]. by apply load_segs_ext.
    + destruct Hfin as [?|?]; [by left|right; lia].
  - right. exists None, s. unfold load_segment. destruct (phdr_range img (Z.to_nat off) Hb) as (_ & _ & ? & ?).
    rewrite malformed_spec, Hin by (done || tauto). split_and!; [done|by apply kept_refl|by left].
Qed.

(** The break needs no more rounding. *)
Lemma top_aligned img : bytes_ok img → (∀ ph, ph ∈ segments img → fits_user ph = true) →
  ALIGN_UP (top_of 0 (segments img)) PAGE_SIZE = top_of 0 (segments img).
Proof.
  intros Hb Hfit. assert (∀ ph, ph ∈ segments img → 0 ≤ seg_end ph ≤ USER_MAX_VMA ∧ (4096 | seg_end ph)) as Hse.
  { intros ph Hph. pose proof (Hfit ph Hph) as Hf%Z.leb_le. apply list_elem_of_filter in Hph as [Hld Hph].
    apply list_elem_of_fmap in Hph as (i & -> & _). destruct (phdr_range img (Z.to_nat (e_phoff (ehdr_at img) + 56 * Z.of_nat i)) Hb) as (Hv & Hm & _).
    set (ph := phdr_at _ _) in *. destruct (loadable_spec ph Hv Hm) as (_ & Hmp & _); [by apply Is_true_true|].
    destruct (seg_bounds ph ltac:(lia) Hmp Hf) as (_ & _ & _ & ?). split; [lia|apply Z.divide_factor_r]. }
  assert (∀ l m, (∀ ph, ph ∈ l → ph ∈ segments img) → 0 ≤ m ≤ USER_MAX_VMA → (4096 | m) →
    0 ≤ top_of m l ≤ USER_MAX_VMA ∧ (4096 | top_of m l)) as Hgen.
  { induction l as [|ph l IH]; intros m Hsub Hm Hd; [done|]. destruct (Hse ph (Hsub ph (list_elem_of_here _ _))) as [? ?].
    apply IH; [intros q Hq; by apply Hsub, list_elem_of_further|lia|]. by destruct (Z.max_spec m (seg_end ph)) as [[_ ->]|[_ ->]]. }
  destruct (Hgen (segments img) 0) as [Ht [q Hq]]; [done|done|apply Z.divide_0_r|]. assert (USER_MAX_VMA < 2 ^ 47) by by_eval.
  change PAGE_SIZE with (2 ^ 12). rewrite ALIGN_UP_pow2 by lia. change (2 ^ 12) with 4096. rewrite Hq.
  replace (q * 4096 + 4096 - 1) with (4095 + q * 4096) by lia. by rewrite Z.div_add.
Qed.

(** What [elf_load] accepts. *)
Lemma elf_load_header root img b s : bytes_ok img →
  elf_load root img b s =
  if valid_header img then
    '(max_end, s) ← load_phdrs (Z.to_nat (e_phnum (ehdr_at img))) root img (e_phoff (ehdr_at img)) 0 s;
    match max_end with
    | None => Ret (0, b, s)
    | Some max_end => Ret (e_entry (ehdr_at img), ALIGN_UP max_end PAGE_SIZE, s)
    end
  else Ret (0, b, s).
Proof.
  intros Hb. unfold elf_load, valid_header. pose proof (le16_range img 56 Hb) as Hn. change (le16 img 56) with (e_phnum (ehdr_at img)) in Hn.
  unfold EHDR_SIZE. rewrite (Z.ltb_antisym 64). destruct (Z.leb_spec 64 (Z.of_nat (length img))); cbn [negb andb]; [|done].
  unfold within. rewrite (proj2 (Z.leb_le (0 + 64) _)) by lia. cbn [Z.leb Z.compare andb mbind outcome_bind].
  destruct (not_elf64 (ehdr_at img)); [done|]. destruct (e_type (ehdr_at img) =? 2); [|done]. cbn [negb andb].
  rewrite (Z.ltb_antisym _ 128). destruct (Z.leb_spec (e_phnum (ehdr_at img)) 128); cbn [negb andb]; [|by rewrite orb_true_r].
  rewrite orb_false_r. unfold PHDR_SIZE.
  destruct (Z.ltb_spec (Z.of_nat (length img)) (e_phoff (ehdr_at img))); cbn [orb].
  - by rewrite (proj2 (Z.leb_gt _ _)) by lia.
  - rewrite Z.ltb_antisym.
    destruct (Z.leb_spec (e_phnum (ehdr_at img) * 56) (Z.of_nat (length img) - e_phoff (ehdr_at img))); cbn [negb].
    + by rewrite (proj2 (Z.leb_le _ _)) by lia.
    + by rewrite (proj2 (Z.leb_gt _ _)) by lia.
Qed.

Lemma elf_load_spec root img b s A :
  owned s (user_frames s root ++ A) → bytes_ok img → Z.of_nat (length img) < 2 ^ 64 →
  forallb fits_user (segments img) = true →
  (elf_load root img b s = Panic ∧ avail s < segs_need (segments img)) ∨
  ∃ e b' s', elf_load root img b s = Ret (e, b', s') ∧ kept root A s s' ∧
    (e = 0 → valid_image img = false ∨ e_entry (ehdr_at img) = 0 ∨ avail s < segs_need (segments img)) ∧
    (e ≠ 0 → valid_image img = true ∧ e = e_entry (ehdr_at img) ∧ b' = top_of 0 (segments img) ∧
       ∀ a, view root s' a = foldl (load_seg img) (view root s) (segments img) a).
Proof.
  intros Ho Hb Hn Hfit. rewrite elf_load_header by done. unfold valid_image. destruct (valid_header img) eqn:Hvh.
  2: { right. exists 0, b, s. split_and!; [done|by apply kept_refl|by left|done]. }
  pose proof (le16_range img 56 Hb) as Hr. change (le16 img 56) with (e_phnum (ehdr_at img)) in Hr.
  assert (0 ≤ e_phoff (ehdr_at img)) as Hoff.
  { cbn [ehdr_at e_phoff]. unfold le64. pose proof (le32_range img 32 Hb). pose proof (le32_range img (32 + 4) Hb). lia. }
  unfold valid_header in Hvh. apply andb_prop in Hvh as [_ Hend%Z.leb_le].
  destruct (load_phdrs_spec root img A (Z.to_nat (e_phnum (ehdr_at img))) Hb Hn (e_phoff (ehdr_at img)) 0 s Ho Hoff)
    as [[-> Hlow]|(fin & s' & -> & Hk & Hfin)]; [lia| |by left|right].
  { intros ph Hph. apply (proj1 (forallb_forall _ _) Hfit). by apply list_elem_of_In. }
  fold (segments img) in Hfin. cbn [mbind outcome_bind]. destruct fin as [m|].
  - destruct Hfin as (Hok & -> & Hv). eexists _, _, s'. split; [done|]. split; [done|]. split; [intros ?; by right; left|].
    intros _. rewrite Hok. split_and!; [done|done| |done]. apply top_aligned; [done|].
    intros ph Hph. apply (proj1 (forallb_forall _ _) Hfit). by apply list_elem_of_In.
  - exists 0, b, s'. split_and!; [done|done| |done]. intros _. destruct Hfin as [->|?]; [by left|by right; right].
Qed.

(** C7. The loader reads no byte outside the image and stores to no address
    without a page, whatever the image contains, provided that the segments
    end below the top of user space; this the loader does not check.  It
    accepts exactly the valid images with an entry point, unless memory is
    short: it fails for lack of memory, or panics when there is no frame for a
    page table, only when fewer than four frames for each page of the segments
    are free.  After it the process sees the segments laid, in the order of the
    program headers, over zero pages, the break starts behind the last of them,
    and the rest of the memory is unchanged. *)
Theorem elf_load_correct root img b s A :
  owned s (user_frames s root ++ A) → bytes_ok img → Z.of_nat (length img) < 2 ^ 64 →
  forallb fits_user (segments img) = true →
  (elf_load root img b s = Panic ∧ avail s < segs_need (segments img)) ∨
  ∃ e b' s', elf_load root img b s = Ret (e, b', s') ∧ kept root A s s' ∧
    (e = 0 → valid_image img = false ∨ e_entry (ehdr_at img) = 0 ∨ avail s < segs_need (segments img)) ∧
    (e ≠ 0 → valid_image img = true ∧ e = e_entry (ehdr_at img) ∧ b' = top_of 0 (segments img) ∧
       ∀ a, view root s' a = foldl (load_seg img) (view root s) (segments img) a).
Proof. intros. by apply elf_load_spec. Qed.
End loads.

(** ** Examples *)
Module ElfDemo.
Definition le (n : nat) (v : Z) : list Z := (λ i : nat, v / 2 ^ (8 * Z.of_nat i) mod 256) <$> seq 0 n.

(** An executable with one segment of the four bytes 1, 2, 3, 4. *)
Definition program (vaddr memsz : Z) : list Z :=
  [0x7f; 69; 76; 70; 2; 1; 1] ++ replicate 9 0 ++ le 2 2 ++ le 2 62 ++ le 4 1 ++ le 8 vaddr ++ le 8 64 ++ le 8 0 ++
  le 4 0 ++ le 2 64 ++ le 2 56 ++ le 2 1 ++ replicate 6 0 ++
  le 4 PT_LOAD ++ le 4 7 ++ le 8 120 ++ le 8 vaddr ++ le 8 vaddr ++ le 8 4 ++ le 8 memsz ++ le 8 4096 ++
  [1; 2; 3; 4].

Definition va : Z := VmmDemo.va + 0x1ffe.
Definition img : list Z := program va 6000.
Definition loaded := get_ret (0, 0, VmmDemo.s0) (elf_load VmmDemo.root img 0 VmmDemo.s3).
End ElfDemo.

Lemma elf_load_correct_witness :
  elf_load VmmDemo.root ElfDemo.img 0 VmmDemo.s3 = Ret ElfDemo.loaded ∧ ElfDemo.loaded.1 = (ElfDemo.va, VmmDemo.va + 0x4000) ∧
  ∀ a, view VmmDemo.root ElfDemo.loaded.2 a =
    foldl (load_seg ElfDemo.img) (view VmmDemo.root VmmDemo.s3) (segments ElfDemo.img) a.
Proof.
  assert (elf_load VmmDemo.root ElfDemo.img 0 VmmDemo.s3 = Ret ElfDemo.loaded ∧ ElfDemo.loaded.1 = (ElfDemo.va, VmmDemo.va + 0x4000)) as [E H1].
  { split; [apply ret_eta|]; vm_compute; reflexivity. }
  split_and!; [exact E|exact H1|].
  destruct (elf_load_correct VmmDemo.root ElfDemo.img 0 VmmDemo.s3 [] (proj1 VmmDemo.s3_owned)) as [[Hp _]|(e & b & s' & Er & _ & _ & Hok)].
  - by_eval.
  - by_eval.
  - vm_compute; reflexivity.
  - rewrite E in Hp. discriminate Hp.
  - rewrite E in Er. assert (ElfDemo.loaded = (e, b, s')) as Hl by congruence. rewrite Hl in *. cbn [fst snd] in *.
    injection H1 as -> ->. by destruct Hok as (_ & _ & _ & Hv).
Defined.

(** Two executables that pass every check of the loader and make it fault in
    the kernel: the end of one segment wraps around to 0 when it is rounded up
    to a page, so that no page is mapped at all; the other ends behind the top
    of user space, where [vmm_map_user] refuses and its result is ignored. *)
Lemma elf_load_faults :
  let wraps := ElfDemo.program ElfDemo.va (2 ^ 64 - 1 - ElfDemo.va) in
  let above := ElfDemo.program (USER_MAX_VMA - 2) 4 in
  valid_image wraps = true ∧ elf_load VmmDemo.root wraps 0 VmmDemo.s3 = Stuck ∧
  valid_image above = true ∧ elf_load VmmDemo.root above 0 VmmDemo.s3 = Stuck.
Proof. cbv zeta. split_and!; vm_compute; reflexivity. Qed.
