(* ===== verification/Sched.v ===== *)
(** The scheduler ([kernel/sched.c], [kernel/percpu.c]): the task table, the
    per-CPU run queues threaded through it, and the choice of the next task.

    A run queue is the intrusive circular list of the source: the sentinel of
    each CPU and the [rq_next] field of each task are links, and the loops
    follow them.  [me] is the CPU that executes ([this_cpu_data()]).  The
    functions run under their locks and are modelled as atomic; the
    reschedule IPI, the task-state segment and the switch of stacks and page
    tables ([swtch], [vmm_switch_to]) are not modelled. *)
From S2P Require Import Prelude.

Definition NR_TASKS : nat := 64.
Definition MAX_CPUS : nat := 8.
Definition NR_SIGNALS : nat := 32.
Definition HZ : Z := 100.

Inductive task_state :=
  T_UNUSED | T_EMBRYO | T_RUNNABLE | T_RUNNING | T_SLEEPING | T_ZOMBIE | T_STOPPED.
#[global] Instance task_state_eq : EqDecision task_state.
Proof. solve_decision. Defined.

(** A [struct task *] in a queue: null, a CPU's sentinel or a slot of the
    task table. *)
Inductive link := Null | Head (c : nat) | Task (i : nat).
#[global] Instance link_eq : EqDecision link.
Proof. solve_decision. Defined.

Record sigaction := Sigaction { sa_handler : Z; sa_mask : Z; sa_flags : Z }.

Record task := MkTask {
  pid : Z;
  cpu_id : Z;
  state : task_state;
  name : list Z;
  pml4 : Z;
  exit_code : Z;
  sleep_until : Z;
  quantum : Z;
  parent : option nat;
  rq_next : link;
  rq_cpu : Z;
  signal_pending : Z;
  signal_mask : Z;
  sa : nat → sigaction;
}.

Record cpu_info := MkCpu {
  id : nat;
  started : bool;
  cur : option nat;         (* _current *)
  idle : option nat;
  runq_head : link;         (* runq_head.rq_next *)
  need_resched : bool;
}.

Record sched := MkSched {
  tasks : nat → task;       (* task_table[NR_TASKS] *)
  cpus : nat → cpu_info;    (* cpu_table[MAX_CPUS] *)
  jiffies : Z;
}.

Definition set_state (x : task_state) (t : task) : task :=
  MkTask (pid t) (cpu_id t) x (name t) (pml4 t) (exit_code t) (sleep_until t) (quantum t) (parent t)
    (rq_next t) (rq_cpu t) (signal_pending t) (signal_mask t) (sa t).
Definition set_cpu_id (x : Z) (t : task) : task :=
  MkTask (pid t) x (state t) (name t) (pml4 t) (exit_code t) (sleep_until t) (quantum t) (parent t)
    (rq_next t) (rq_cpu t) (signal_pending t) (signal_mask t) (sa t).
Definition set_pid (x : Z) (t : task) : task :=
  MkTask x (cpu_id t) (state t) (name t) (pml4 t) (exit_code t) (sleep_until t) (quantum t) (parent t)
    (rq_next t) (rq_cpu t) (signal_pending t) (signal_mask t) (sa t).
Definition set_name (x : list Z) (t : task) : task :=
  MkTask (pid t) (cpu_id t) (state t) x (pml4 t) (exit_code t) (sleep_until t) (quantum t) (parent t)
    (rq_next t) (rq_cpu t) (signal_pending t) (signal_mask t) (sa t).
Definition set_pml4 (x : Z) (t : task) : task :=
  MkTask (pid t) (cpu_id t) (state t) (name t) x (exit_code t) (sleep_until t) (quantum t) (parent t)
    (rq_next t) (rq_cpu t) (signal_pending t) (signal_mask t) (sa t).
Definition set_exit_code (x : Z) (t : task) : task :=
  MkTask (pid t) (cpu_id t) (state t) (name t) (pml4 t) x (sleep_until t) (quantum t) (parent t)
    (rq_next t) (rq_cpu t) (signal_pending t) (signal_mask t) (sa t).
Definition set_sleep_until (x : Z) (t : task) : task :=
  MkTask (pid t) (cpu_id t) (state t) (name t) (pml4 t) (exit_code t) x (quantum t) (parent t)
    (rq_next t) (rq_cpu t) (signal_pending t) (signal_mask t) (sa t).
Definition set_quantum (x : Z) (t : task) : task :=
  MkTask (pid t) (cpu_id t) (state t) (name t) (pml4 t) (exit_code t) (sleep_until t) x (parent t)
    (rq_next t) (rq_cpu t) (signal_pending t) (signal_mask t) (sa t).
Definition set_parent (x : option nat) (t : task) : task :=
  MkTask (pid t) (cpu_id t) (state t) (name t) (pml4 t) (exit_code t) (sleep_until t) (quantum t) x
    (rq_next t) (rq_cpu t) (signal_pending t) (signal_mask t) (sa t).
Definition set_rq_next (x : link) (t : task) : task :=
  MkTask (pid t) (cpu_id t) (state t) (name t) (pml4 t) (exit_code t) (sleep_until t) (quantum t) (parent t)
    x (rq_cpu t) (signal_pending t) (signal_mask t) (sa t).
Definition set_rq_cpu (x : Z) (t : task) : task :=
  MkTask (pid t) (cpu_id t) (state t) (name t) (pml4 t) (exit_code t) (sleep_until t) (quantum t) (parent t)
    (rq_next t) x (signal_pending t) (signal_mask t) (sa t).
Definition set_pending (x : Z) (t : task) : task :=
  MkTask (pid t) (cpu_id t) (state t) (name t) (pml4 t) (exit_code t) (sleep_until t) (quantum t) (parent t)
    (rq_next t) (rq_cpu t) x (signal_mask t) (sa t).
Definition set_mask (x : Z) (t : task) : task :=
  MkTask (pid t) (cpu_id t) (state t) (name t) (pml4 t) (exit_code t) (sleep_until t) (quantum t) (parent t)
    (rq_next t) (rq_cpu t) (signal_pending t) x (sa t).
Definition set_sa (x : nat → sigaction) (t : task) : task :=
  MkTask (pid t) (cpu_id t) (state t) (name t) (pml4 t) (exit_code t) (sleep_until t) (quantum t) (parent t)
    (rq_next t) (rq_cpu t) (signal_pending t) (signal_mask t) x.

Definition set_runq_head (x : link) (c : cpu_info) : cpu_info :=
  MkCpu (id c) (started c) (cur c) (idle c) x (need_resched c).
Definition set_need_resched (x : bool) (c : cpu_info) : cpu_info :=
  MkCpu (id c) (started c) (cur c) (idle c) (runq_head c) x.
Definition set_cur (x : option nat) (c : cpu_info) : cpu_info :=
  MkCpu (id c) (started c) x (idle c) (runq_head c) (need_resched c).

Definition upd_task (i : nat) (f : task → task) (s : sched) : sched :=
  MkSched (<[i := f (tasks s i)]> (tasks s)) (cpus s) (jiffies s).
Definition upd_cpu (c : nat) (f : cpu_info → cpu_info) (s : sched) : sched :=
  MkSched (tasks s) (<[c := f (cpus s c)]> (cpus s)) (jiffies s).

(** [kernel/percpu.c] *)
Definition cpu_init_percpu (c : nat) (s : sched) : sched :=
  upd_cpu c (λ _, MkCpu c true None None (Head c) false) s.

(** ** Run queues *)

Definition current (me : nat) (s : sched) : option nat := cur (cpus s me).

Definition pick_next (me : nat) (s : sched) : option nat :=
  match runq_head (cpus s me) with
  | Task i => Some i
  | Head _ | Null => None
  end.

Definition preferred_cpu (me : nat) (s : sched) : nat :=
  let idling c := started (cpus s c) && bool_decide (is_Some (idle (cpus s c)))
                  && bool_decide (cur (cpus s c) = idle (cpus s c)) in
  match for_find idling 0 MAX_CPUS with
  | Some c => c
  | None => me
  end.

Definition runqueue_add (me t : nat) (s : sched) : sched :=
  if negb (rq_cpu (tasks s t) =? -1) then s else
  let c := preferred_cpu me s in
  let s := upd_task t (set_rq_cpu (Z.of_nat (id (cpus s c)))) s in
  let s := upd_task t (set_rq_next (runq_head (cpus s c))) s in
  upd_cpu c (set_runq_head (Task t)) s.

(** The link stored in a node, and the store of a node's link. *)
Definition next (n : link) (s : sched) : link :=
  match n with
  | Null => Null
  | Head c => runq_head (cpus s c)
  | Task i => rq_next (tasks s i)
  end.
Definition set_next (n l : link) (s : sched) : sched :=
  match n with
  | Null => s
  | Head c => upd_cpu c (set_runq_head l) s
  | Task i => upd_task i (set_rq_next l) s
  end.

(** The search of [runqueue_remove]: the node before [t], or the last one. *)
Fixpoint find_prev (fuel : nat) (c t : nat) (p : link) (s : sched) : option link :=
  match fuel with
  | O => None
  | S f =>
      let n := next p s in
      if bool_decide (n = Null) || bool_decide (n = Head c) || bool_decide (n = Task t)
      then Some p else find_prev f c t n s
  end.

(** A queue holds at most [NR_TASKS] tasks, so [NR_TASKS + 1] rounds end the
    search in every well-formed queue. *)
Definition runqueue_remove (t : nat) (s : sched) : outcome sched :=
  let owner := rq_cpu (tasks s t) in
  s ← (if (0 <=? owner) && (owner <? Z.of_nat MAX_CPUS) then
         let c := Z.to_nat owner in
         match find_prev (S NR_TASKS) c t (Head c) s with
         | None => Stuck
         | Some p => if bool_decide (next p s = Task t) then Ret (set_next p (rq_next (tasks s t)) s) else Ret s
         end
       else Ret s);
  Ret (upd_task t (λ x, set_rq_cpu (-1) (set_rq_next Null x)) s).

(** ** Initialisation *)

Definition task_zero : task :=
  MkTask 0 0 T_UNUSED [] 0 0 0 0 None Null 0 0 0 (λ _, Sigaction 0 0 0).

Definition idle_name : list Z := [105; 100; 108; 101]. (* "idle" *)

Definition sched_init (me : nat) (master_pml4 : Z) (s : sched) : sched :=
  let s := MkSched (λ i, if (i <? NR_TASKS)%nat then set_cpu_id (u32 (-1)) (set_rq_cpu (-1) task_zero) else tasks s i)
             (cpus s) (jiffies s) in
  let s := upd_cpu me (λ c, MkCpu 0 true (cur c) (idle c) (runq_head c) false) s in
  let s := upd_task 0 (λ t, set_pml4 master_pml4 (set_rq_cpu (-1) (set_cpu_id 0
             (set_state T_RUNNING (set_name idle_name (set_pid 0 t)))))) s in
  upd_cpu me (λ c, MkCpu (id c) (started c) (Some 0%nat) (Some 0%nat) (runq_head c) (need_resched c)) s.

Definition is_unused (s : sched) (i : nat) : bool := bool_decide (state (tasks s i) = T_UNUSED).

Definition sched_create_idle (cpu : nat) (master_pml4 : Z) (s : sched) : option nat * sched :=
  let start := if (cpu =? 0)%nat then 0%nat else 1%nat in
  match for_find (is_unused s) start (NR_TASKS - start) with
  | None => (None, s)
  | Some i =>
      let nm := if (cpu =? 0)%nat then idle_name else [97; 112; 48 + Z.of_nat cpu] in
      (Some i, upd_task i (λ t, set_pml4 master_pml4 (set_parent None (set_rq_next Null (set_rq_cpu (-1)
         (set_cpu_id (Z.of_nat cpu) (set_state T_RUNNING (set_name nm (set_pid 0 (set_state T_EMBRYO t))))))))) s)
  end.

(** ** Scheduling *)

Definition switch_to (me nxt : nat) (s : sched) : sched :=
  let prev := current me s in
  let s := upd_task nxt (λ t, set_cpu_id (Z.of_nat (id (cpus s me))) (set_quantum 6 (set_state T_RUNNING t))) s in
  let s := match prev with Some p => upd_task p (set_cpu_id (u32 (-1))) s | None => s end in
  upd_cpu me (set_cur (Some nxt)) s.

(** The tail of [schedule]: requeue the current task if it can run, then
    switch. *)
Definition switch_from (me c nxt : nat) (s : sched) : outcome sched :=
  let t := tasks s c in
  let s := if bool_decide (state t = T_RUNNING) && negb (pid t =? 0)
           then runqueue_add me c (upd_task c (set_state T_RUNNABLE) s) else s in
  s ← runqueue_remove nxt s;
  Ret (switch_to me nxt s).

Definition schedule (me : nat) (s : sched) : outcome sched :=
  match current me s with
  | None => Panic
  | Some c =>
      let t := tasks s c in
      match pick_next me s with
      | None =>
          if bool_decide (state t = T_RUNNING) || bool_decide (state t = T_RUNNABLE) then
            Ret (if negb (pid t =? 0) then upd_task c (set_quantum 6) s else s)
          else match idle (cpus s me) with
               | None => Ret s
               | Some i => if (i =? c)%nat then Ret s else switch_from me c i s
               end
      | Some n =>
          if (n =? c)%nat then
            let s := if bool_decide (state t = T_RUNNING) && negb (pid t =? 0)
                     then upd_task c (set_quantum 6) s else s in
            if negb (rq_cpu (tasks s c) =? -1) then runqueue_remove c s else Ret s
          else switch_from me c n s
      end
  end.

(** [user_mode] is [(f->cs & 3) == 3] of the interrupted frame. *)
Definition sched_maybe_preempt (me : nat) (user_mode : bool) (s : sched) : outcome sched :=
  if negb (need_resched (cpus s me)) then Ret s else
  match current me s with
  | None => Ret s
  | Some c =>
      if negb (bool_decide (state (tasks s c) = T_RUNNING)) then Ret s
      else if user_mode || (pid (tasks s c) =? 0)
           then schedule me (upd_cpu me (set_need_resched false) s)
           else Ret s
  end.

Definition wake_sleeper (me i : nat) (s : sched) : sched :=
  if bool_decide (state (tasks s i) = T_SLEEPING) && (sleep_until (tasks s i) <=? jiffies s) then
    upd_cpu me (set_need_resched true) (runqueue_add me i (upd_task i (set_state T_RUNNABLE) s))
  else s.

(** The quantum of the current task, at the end of [sched_tick]. *)
Definition burn_quantum (me : nat) (s : sched) : sched :=
  match current me s with
  | None => s
  | Some c =>
      if pid (tasks s c) =? 0 then s
      else if 0 <? quantum (tasks s c) then
        let s := upd_task c (set_quantum (quantum (tasks s c) - 1)) s in
        if (quantum (tasks s c) =? 0) && bool_decide (state (tasks s c) = T_RUNNING)
        then upd_cpu me (set_need_resched true) s else s
      else s
  end.

Definition sched_tick (me : nat) (s : sched) : sched :=
  burn_quantum me (for_loop (wake_sleeper me) 1 (NR_TASKS - 1) s).

(** [sys_nanosleep]: the deadline, and one round of its loop.  A round either
    leaves the call or puts the task to sleep and gives up the CPU; the loop
    is entered again when the task is next switched to. *)
Definition nanosleep_until (ms : Z) (s : sched) : Z := u64 (jiffies s + u64 (ms * HZ) / 1000 + 1).

Definition nanosleep_round (me : nat) (until : Z) (s : sched) : outcome (bool * sched) :=
  if i64 (jiffies s - until) <? 0 then
    match current me s with
    | None => Stuck
    | Some c =>
        s ← runqueue_remove c (upd_task c (λ t, set_state T_SLEEPING (set_sleep_until until t)) s);
        s ← schedule me s;
        Ret (false, s)
    end
  else Ret (true, s).

(** ** The task table *)

Definition task_alloc_slot (s : sched) : option nat * sched :=
  match for_find (is_unused s) 1 (NR_TASKS - 1) with
  | None => (None, s)
  | Some i =>
      (Some i, upd_task i (λ t, set_cpu_id (u32 (-1)) (set_rq_next Null (set_rq_cpu (-1) (set_state T_EMBRYO t)))) s)
  end.

Definition task_free_slot (t : nat) (s : sched) : outcome sched :=
  s ← (if negb (rq_cpu (tasks s t) =? -1) then runqueue_remove t s else Ret s);
  Ret (upd_task t (λ x, set_rq_next Null (set_rq_cpu (-1) (set_cpu_id (u32 (-1)) (set_state T_UNUSED x)))) s).

Definition find_task (p : Z) (s : sched) : option nat :=
  for_find (λ i, negb (is_unused s i) && (pid (tasks s i) =? p)) 0 NR_TASKS.

(** [task_iter]: the next used slot from index [i] on, with the new index. *)
Definition task_iter (i : nat) (s : sched) : option nat * nat :=
  match for_find (λ j, negb (is_unused s j)) i (NR_TASKS - i) with
  | Some j => (Some j, S j)
  | None => (None, Nat.max i NR_TASKS)
  end.
