(* ===== verification/SchedFacts.v ===== *)
(** The run queues are lists: what the intrusive operations of
    [kernel/sched.c] do to the queue of each CPU, and what follows for the
    order in which tasks run. *)
From S2P Require Import Prelude Sched.

(** ** Queues *)

(** The links from [n] spell the tasks of [l] and lead back to the sentinel. *)
Fixpoint qchain (s : sched) (c : nat) (n : link) (l : list nat) : Prop :=
  match l with
  | [] => n = Head c
  | i :: l' => n = Task i ∧ qchain s c (rq_next (tasks s i)) l'
  end.

(** [Q c] is the queue of CPU [c]: a task is on it iff its [rq_cpu] says so. *)
Record queues (s : sched) (Q : nat → list nat) : Prop := {
  q_chain c : (c < MAX_CPUS)%nat → started (cpus s c) = true →
    qchain s c (runq_head (cpus s c)) (Q c) ∧ id (cpus s c) = c;
  q_nodup c : NoDup (Q c);
  q_cpu c i : i ∈ Q c ↔ (i < NR_TASKS)%nat ∧ (c < MAX_CPUS)%nat ∧ rq_cpu (tasks s i) = Z.of_nat c;
  q_started c i : i ∈ Q c → started (cpus s c) = true;
  q_range i : (i < NR_TASKS)%nat → rq_cpu (tasks s i) = -1 ∨ 0 ≤ rq_cpu (tasks s i) < Z.of_nat MAX_CPUS;
}.

(** What the queue operations never touch. *)
Definition core (t : task) : task := set_rq_cpu 0 (set_rq_next Null t).
Definition cpu_core (c : cpu_info) : cpu_info := set_runq_head Null c.
Definition same_core (s s' : sched) : Prop :=
  (∀ i, core (tasks s' i) = core (tasks s i)) ∧
  (∀ c, cpu_core (cpus s' c) = cpu_core (cpus s c)) ∧ jiffies s' = jiffies s.

Lemma same_core_refl s : same_core s s.
Proof. by split. Qed.
Lemma same_core_trans s1 s2 s3 : same_core s1 s2 → same_core s2 s3 → same_core s1 s3.
Proof.
  intros (H1 & H2 & H3) (H4 & H5 & H6). split_and!; [intros; by rewrite H4|intros; by rewrite H5|by rewrite H6].
Qed.

Lemma core_fields t t' : core t' = core t →
  pid t' = pid t ∧ cpu_id t' = cpu_id t ∧ state t' = state t ∧ quantum t' = quantum t ∧
  sleep_until t' = sleep_until t ∧ parent t' = parent t ∧ signal_pending t' = signal_pending t ∧
  signal_mask t' = signal_mask t.
Proof. destruct t, t'. unfold core, set_rq_cpu, set_rq_next. cbn. intros [=]. by subst. Qed.

Lemma cpu_core_fields c c' : cpu_core c' = cpu_core c →
  id c' = id c ∧ started c' = started c ∧ cur c' = cur c ∧ idle c' = idle c ∧ need_resched c' = need_resched c.
Proof. destruct c, c'. unfold cpu_core, set_runq_head. cbn. intros [=]. by subst. Qed.

Lemma tasks_upd i f s j : tasks (upd_task i f s) j = if decide (j = i) then f (tasks s i) else tasks s j.
Proof.
  unfold upd_task. cbn. destruct (decide (j = i)) as [->|]; [apply fn_lookup_insert|by apply fn_lookup_insert_ne].
Qed.
Lemma cpus_upd c f s d : cpus (upd_cpu c f s) d = if decide (d = c) then f (cpus s c) else cpus s d.
Proof.
  unfold upd_cpu. cbn. destruct (decide (d = c)) as [->|]; [apply fn_lookup_insert|by apply fn_lookup_insert_ne].
Qed.

Lemma qchain_ext s s' c l : ∀ n, (∀ i, i ∈ l → rq_next (tasks s' i) = rq_next (tasks s i)) →
  qchain s c n l → qchain s' c n l.
Proof.
  induction l as [|i l IH]; intros n He Hc; [done|]. destruct Hc as [-> Hc]. split; [done|].
  rewrite He by (apply list_elem_of_here). apply IH; [|done]. intros j Hj. apply He. by apply list_elem_of_further.
Qed.

Lemma queue_length s Q c : queues s Q → (length (Q c) ≤ NR_TASKS)%nat.
Proof.
  intros Hq. assert (Q c ⊆+ seq 0 NR_TASKS) as Hs.
  { apply NoDup_submseteq; [apply Hq|]. intros i [Hi _]%(q_cpu s Q Hq). apply elem_of_seq. lia. }
  apply submseteq_length in Hs. by rewrite length_seq in Hs.
Qed.

(** A change that leaves the links alone keeps the queues. *)
Lemma queues_core s s' Q : queues s Q →
  (∀ i, rq_next (tasks s' i) = rq_next (tasks s i) ∧ rq_cpu (tasks s' i) = rq_cpu (tasks s i)) →
  (∀ c, runq_head (cpus s' c) = runq_head (cpus s c) ∧ id (cpus s' c) = id (cpus s c) ∧
        started (cpus s' c) = started (cpus s c)) →
  queues s' Q.
Proof.
  intros [Hc Hn Hm Hs Hr] Ht Hcp. constructor.
  - intros c Hlt Hst. destruct (Hcp c) as (-> & -> & He). rewrite He in Hst.
    destruct (Hc c Hlt Hst) as [Hch ?]. split; [|done]. eapply qchain_ext; [|done]. intros i _. apply Ht.
  - done.
  - intros c i. rewrite (proj2 (Ht i)). apply Hm.
  - intros c i Hi. rewrite (proj2 (proj2 (Hcp c))). by eapply Hs.
  - intros i Hi. rewrite (proj2 (Ht i)). by apply Hr.
Qed.

Lemma queues_upd_task s Q i f : queues s Q →
  (∀ t, rq_next (f t) = rq_next t ∧ rq_cpu (f t) = rq_cpu t) → queues (upd_task i f s) Q.
Proof.
  intros Hq Hf. eapply queues_core; [done| |done]. intros j. rewrite tasks_upd.
  destruct (decide (j = i)) as [->|]; [apply Hf|done].
Qed.

Lemma queues_upd_cpu s Q c f : queues s Q →
  (∀ x, runq_head (f x) = runq_head x ∧ id (f x) = id x ∧ started (f x) = started x) → queues (upd_cpu c f s) Q.
Proof.
  intros Hq Hf. eapply queues_core; [done|done|]. intros d. rewrite cpus_upd.
  destruct (decide (d = c)) as [->|]; [apply Hf|done].
Qed.

(** ** Enqueue *)

Lemma preferred_cpu_ok me s : (me < MAX_CPUS)%nat → started (cpus s me) = true →
  let c := preferred_cpu me s in
  (c < MAX_CPUS)%nat ∧ started (cpus s c) = true ∧ (c = me ∨ ∃ i, idle (cpus s c) = Some i ∧ cur (cpus s c) = Some i).
Proof.
  intros Hme Hst. unfold preferred_cpu. cbn zeta. destruct (for_find _ 0 MAX_CPUS) as [c|] eqn:E; [|by auto].
  apply for_find_Some in E as (Hc & Hp & _). bool_split.
  repeat match goal with H : bool_decide _ = true |- _ => apply bool_decide_eq_true in H end.
  split_and!; [lia|done|]. right. destruct (idle (cpus s c)) as [i|]; [by exists i|].
  by match goal with H : is_Some None |- _ => destruct H end.
Qed.

Definition enqueue (c t : nat) (Q : nat → list nat) : nat → list nat := <[c := t :: Q c]> Q.

Lemma runqueue_add_spec me t s Q : queues s Q → (me < MAX_CPUS)%nat → started (cpus s me) = true →
  (t < NR_TASKS)%nat → rq_cpu (tasks s t) = -1 →
  queues (runqueue_add me t s) (enqueue (preferred_cpu me s) t Q) ∧ same_core s (runqueue_add me t s).
Proof.
  intros Hq Hme Hst Ht Hcpu. destruct (preferred_cpu_ok me s Hme Hst) as (Hc & Hcs & _).
  unfold runqueue_add. rewrite Hcpu. cbn [Z.eqb Pos.eqb negb]. set (c := preferred_cpu me s) in *.
  pose proof Hq as [Hch Hn Hm Hs Hr]. destruct (Hch c Hc Hcs) as [Hcc Hid].
  cbn [cpus upd_task]. rewrite Hid.
  set (s' := upd_cpu c _ _).
  assert (∀ j, tasks s' j = if decide (j = t) then set_rq_next (runq_head (cpus s c)) (set_rq_cpu (Z.of_nat c) (tasks s t))
                            else tasks s j) as Htk.
  { intros j. unfold s'. cbn [tasks upd_cpu]. rewrite tasks_upd. destruct (decide (j = t)) as [->|Hne].
    - by rewrite tasks_upd, decide_True.
    - by rewrite tasks_upd, decide_False. }
  assert (∀ d, cpus s' d = if decide (d = c) then set_runq_head (Task t) (cpus s c) else cpus s d) as Hcp.
  { intros d. unfold s'. by rewrite cpus_upd. }
  assert (∀ d, t ∉ Q d) as Hnin. { intros d [_ [_ Hx]]%Hm. lia. }
  assert (∀ d, qchain s d (runq_head (cpus s d)) (Q d) → qchain s' d (runq_head (cpus s d)) (Q d)) as Hext.
  { intros d. apply qchain_ext. intros i Hi. rewrite Htk, decide_False; [done|]. intros ->. by eapply Hnin. }
  split; [constructor|].
  - intros d Hd. rewrite Hcp. unfold enqueue. destruct (decide (d = c)) as [->|Hne].
    + intros _. rewrite fn_lookup_insert. split; [|done]. split; [done|].
      rewrite Htk, decide_True by done. cbn. by apply Hext.
    + intros Hds. rewrite fn_lookup_insert_ne by done. destruct (Hch d Hd Hds). split; [by apply Hext|done].
  - intros d. unfold enqueue. destruct (decide (d = c)) as [->|]; [|by rewrite fn_lookup_insert_ne].
    rewrite fn_lookup_insert. by apply NoDup_cons.
  - intros d i. rewrite Htk. unfold enqueue. destruct (decide (d = c)) as [->|Hne].
    + rewrite fn_lookup_insert, elem_of_cons, Hm. destruct (decide (i = t)) as [->|]; [cbn; lia|]. naive_solver.
    + rewrite fn_lookup_insert_ne by done. rewrite Hm. destruct (decide (i = t)) as [->|]; [cbn; lia|done].
  - intros d i. rewrite Hcp. unfold enqueue. destruct (decide (d = c)) as [->|]; [done|].
    rewrite fn_lookup_insert_ne by done. apply Hs.
  - intros i Hi. rewrite Htk. destruct (decide (i = t)); [cbn; lia|by apply Hr].
  - split_and!; [| |done]; intros j.
    + rewrite Htk. by destruct (decide (j = t)) as [->|].
    + rewrite Hcp. by destruct (decide (j = c)) as [->|].
Qed.

(** ** Dequeue *)

Fixpoint prevnode (p : link) (l : list nat) : link :=
  match l with [] => p | i :: l' => prevnode (Task i) l' end.

Lemma prevnode_cases l : ∀ p, prevnode p l = p ∨ ∃ i, i ∈ l ∧ prevnode p l = Task i.
Proof.
  induction l as [|i l IH]; intros p; [by left|]. right. cbn.
  destruct (IH (Task i)) as [->|(j & Hj & ->)]; [exists i|exists j]; (split; [|done]).
  - apply list_elem_of_here.
  - by apply list_elem_of_further.
Qed.

Lemma next_set_eq p v s : p ≠ Null → next p (set_next p v s) = v.
Proof. destruct p as [|c|i]; [done| |]; intros _; cbn; by rewrite fn_lookup_insert. Qed.

Lemma next_set_ne p q v s : p ≠ q → next q (set_next p v s) = next q s.
Proof.
  intros Hne. destruct p as [|c|i], q as [|d|j]; cbn; try done.
  - rewrite fn_lookup_insert_ne by congruence. done.
  - rewrite fn_lookup_insert_ne by congruence. done.
Qed.

Lemma rq_next_set p i v s : p ≠ Task i → rq_next (tasks (set_next p v s) i) = rq_next (tasks s i).
Proof. intros Hne. by apply (next_set_ne p (Task i)). Qed.

Lemma set_next_core p v s : same_core s (set_next p v s).
Proof.
  destruct p as [|c|i]; [apply same_core_refl|..]; (split_and!; [| |done]); intros j; cbn [set_next].
  - done.
  - rewrite cpus_upd. by destruct (decide (j = c)) as [->|].
  - rewrite tasks_upd. by destruct (decide (j = i)) as [->|].
  - done.
Qed.

Lemma set_next_rq_cpu p v s i : rq_cpu (tasks (set_next p v s) i) = rq_cpu (tasks s i).
Proof.
  destruct p as [|c|j]; [done|done|]. cbn [set_next]. rewrite tasks_upd. by destruct (decide (i = j)) as [->|].
Qed.

Lemma unlink_chain s c t l2 : ∀ l1 p fuel,
  p ≠ Null → (∀ i, p = Task i → i ∉ l1 ++ t :: l2) → NoDup (l1 ++ t :: l2) → (length l1 < fuel)%nat →
  qchain s c (next p s) (l1 ++ t :: l2) →
  let q := prevnode p l1 in
  let s' := set_next q (rq_next (tasks s t)) s in
  find_prev fuel c t p s = Some q ∧ next q s = Task t ∧ qchain s' c (next p s') (l1 ++ l2).
Proof.
  induction l1 as [|i l1 IH]; intros p fuel Hp Hnin Hnd Hf Hc q s'; destruct fuel as [|f]; cbn in Hf; try lia.
  - destruct Hc as [Hn Hc]. cbn [prevnode] in q. subst q s'. split_and!.
    + cbn [find_prev]. rewrite Hn. rewrite (bool_decide_true (Task t = Task t)) by done. by rewrite orb_true_r.
    + done.
    + rewrite next_set_eq by done. cbn [app]. eapply qchain_ext; [|exact Hc]. intros j Hj.
      apply rq_next_set. intros ->. eapply Hnin; [done|]. by apply list_elem_of_further.
  - destruct Hc as [Hn Hc]. cbn [app] in Hnd, Hnin. apply NoDup_cons in Hnd as [Hi Hnd].
    assert (i ≠ t) as Hit by (intros ->; apply Hi; set_solver).
    destruct (IH (Task i) f) as (Hfp & Hq & Hch); [done|by intros j [= <-]|done|lia|done|].
    cbn [prevnode] in q. split_and!.
    + cbn [find_prev]. rewrite Hn.
      rewrite (bool_decide_false (Task i = Null)), (bool_decide_false (Task i = Head c)), (bool_decide_false (Task i = Task t))
        by congruence. done.
    + done.
    + assert (q ≠ p) as Hqp.
      { unfold q. destruct (prevnode_cases l1 (Task i)) as [->|(j & Hj & ->)]; intros <-; eapply Hnin; try done; set_solver. }
      unfold s'. rewrite next_set_ne by done. rewrite Hn. split; [done|]. exact Hch.
Qed.

Definition dequeue (t : nat) (Q : nat → list nat) : nat → list nat := λ c, filter (λ i, i ≠ t) (Q c).

Lemma filter_all {A} (P : A → Prop) `{∀ x, Decision (P x)} (l : list A) : (∀ x, x ∈ l → P x) → filter P l = l.
Proof.
  induction l as [|x l IH]; intros Hl; [done|]. rewrite filter_cons_True by (apply Hl, list_elem_of_here).
  f_equal. apply IH. intros y Hy. apply Hl. by apply list_elem_of_further.
Qed.

Lemma filter_remove (t : nat) (l1 l2 : list nat) : t ∉ l1 → t ∉ l2 → filter (λ i, i ≠ t) (l1 ++ t :: l2) = l1 ++ l2.
Proof.
  intros H1 H2. rewrite filter_app, filter_cons_False by naive_solver.
  rewrite !filter_all; [done|set_solver..].
Qed.

Lemma nodup_mid (t : nat) (l1 l2 : list nat) : NoDup (l1 ++ t :: l2) → (t ∉ l1) ∧ (t ∉ l2).
Proof. intros (_ & Hx & [Hy _]%NoDup_cons)%NoDup_app. split; [|done]. intros Hin. eapply Hx; [done|]. apply list_elem_of_here. Qed.

(** The final stores of [runqueue_remove]. *)
Lemma unqueue_fields s0 s t Q : queues s0 Q → (t < NR_TASKS)%nat →
  (∀ c, (c < MAX_CPUS)%nat → started (cpus s c) = true → qchain s c (runq_head (cpus s c)) (dequeue t Q c)) →
  same_core s0 s → (∀ i, rq_cpu (tasks s i) = rq_cpu (tasks s0 i)) →
  let s' := upd_task t (λ x, set_rq_cpu (-1) (set_rq_next Null x)) s in
  queues s' (dequeue t Q) ∧ same_core s0 s'.
Proof.
  intros [Hch Hn Hm Hs Hr] Ht Hch' (Hc1 & Hc2 & Hc3) Hcpu s'.
  assert (∀ c, id (cpus s c) = id (cpus s0 c) ∧ started (cpus s c) = started (cpus s0 c)) as Hid
    by (intros c; by destruct (cpu_core_fields _ _ (Hc2 c)) as (? & ? & _)).
  split; [constructor|].
  - intros c Hc Hst. change (cpus s' c) with (cpus s c) in *. destruct (Hid c) as [-> He]. split; [|apply Hch; congruence].
    eapply qchain_ext; [|by apply Hch']. intros i [Hi _]%list_elem_of_filter. unfold s'.
    by rewrite tasks_upd, decide_False.
  - intros c. by apply NoDup_filter.
  - intros c i. unfold dequeue. rewrite list_elem_of_filter, Hm. unfold s'. rewrite tasks_upd.
    destruct (decide (i = t)) as [->|]; [cbn; naive_solver lia|]. rewrite Hcpu. naive_solver.
  - intros c i [_ Hi]%list_elem_of_filter. change (cpus s' c) with (cpus s c). rewrite (proj2 (Hid c)). by eapply Hs.
  - intros i Hi. unfold s'. rewrite tasks_upd. destruct (decide (i = t)); [by left|]. rewrite Hcpu. by apply Hr.
  - split_and!; [|done|done]. intros i. unfold s'. rewrite tasks_upd. destruct (decide (i = t)) as [->|]; [|done].
    by rewrite <- (Hc1 t).
Qed.

Lemma runqueue_remove_spec t s Q : queues s Q → (t < NR_TASKS)%nat →
  ∃ s', runqueue_remove t s = Ret s' ∧ (queues s' (dequeue t Q) ∧ same_core s s') ∧ rq_cpu (tasks s' t) = -1.
Proof.
  intros Hq Ht. pose proof Hq as [Hch Hn Hm Hs Hr]. unfold runqueue_remove.
  assert (∀ s1, rq_cpu (tasks (upd_task t (λ x, set_rq_cpu (-1) (set_rq_next Null x)) s1) t) = -1) as Hlast.
  { intros s1. by rewrite tasks_upd, decide_True. }
  assert (∀ c, t ∉ Q c → dequeue t Q c = Q c) as Hskip.
  { intros c Hc. apply filter_all. by intros x Hx ->. }
  destruct (Hr t Ht) as [Hcpu|Hcpu].
  - rewrite Hcpu. cbn [Z.leb Z.compare andb mbind outcome_bind]. eexists. split; [done|].
    split; [|apply Hlast]. apply unqueue_fields; [done|done| |apply same_core_refl|done].
    intros c Hc Hst. rewrite Hskip; [by apply Hch|]. intros [_ [_ ?]]%Hm. lia.
  - set (c := Z.to_nat (rq_cpu (tasks s t))). assert (c < MAX_CPUS)%nat as Hc by (unfold c; lia).
    rewrite (proj2 (Z.leb_le _ _)), (proj2 (Z.ltb_lt _ _)) by lia. cbn [andb].
    assert (t ∈ Q c) as Hin by (apply Hm; unfold c; lia). pose proof (Hs c t Hin) as Hst.
    destruct (Hch c Hc Hst) as [Hcc Hid]. pose proof (queue_length s Q c Hq) as Hlen. pose proof (Hn c) as Hnd.
    apply list_elem_of_split in Hin as (l1 & l2 & HQ). rewrite HQ in *. rewrite length_app in Hlen. cbn in Hlen.
    destruct (unlink_chain s c t l2 l1 (Head c) (S NR_TASKS)) as (Hfp & Hnx & Hch'); [done|done|done|lia|done|].
    rewrite Hfp. cbn zeta in Hch'. set (q := prevnode (Head c) l1) in *.
    rewrite bool_decide_true by done. cbn [mbind outcome_bind]. eexists. split; [done|].
    split; [|apply Hlast].
    set (s1 := set_next q (rq_next (tasks s t)) s) in *.
    assert (q = Head c ∨ ∃ i, i ∈ l1 ∧ q = Task i) as Hqc by apply prevnode_cases.
    assert (∀ d, d ≠ c → runq_head (cpus s1 d) = runq_head (cpus s d)) as Hhd.
    { intros d Hd. apply (next_set_ne q (Head d)). destruct Hqc as [->|(i & _ & ->)]; congruence. }
    assert (same_core s s1) as Hcore by apply set_next_core.
    assert (∀ i, rq_cpu (tasks s1 i) = rq_cpu (tasks s i)) as Hcpus by (intros; apply set_next_rq_cpu).
    apply unqueue_fields; [done|done| |done|done]. intros d Hd Hdst. unfold dequeue.
    destruct (decide (d = c)) as [->|Hne].
    + destruct (nodup_mid t l1 l2 Hnd). rewrite HQ, filter_remove; [exact Hch'|done|done].
    + rewrite filter_all; [|intros x Hx ->; apply Hm in Hx; unfold c in *; lia].
      rewrite Hhd by done. destruct (proj1 (proj2 Hcore) d). eapply qchain_ext; [|apply Hch; [done|]].
      * intros i Hi. unfold s1. apply rq_next_set. destruct Hqc as [->|(j & Hj & ->)]; [done|]. intros [= ->].
        apply Hm in Hi. assert (i ∈ Q c) as Hi' by (rewrite HQ; apply elem_of_app; by left). apply Hm in Hi'. lia.
      * destruct (cpu_core_fields _ _ (proj1 (proj2 Hcore) d)) as (_ & He & _). congruence.
Qed.

(** C28. The intrusive operations are list operations: enqueueing a task that is
    on no queue puts it at the head of the queue of the preferred CPU,
    enqueueing one that is queued does nothing, and removal ends, takes exactly
    the given task off its queue and leaves every other queue and every other
    field alone. *)
Theorem runqueue_refines_lists me t s Q :
  queues s Q → (me < MAX_CPUS)%nat → started (cpus s me) = true → (t < NR_TASKS)%nat →
  (if decide (rq_cpu (tasks s t) = -1)
   then queues (runqueue_add me t s) (enqueue (preferred_cpu me s) t Q) ∧ same_core s (runqueue_add me t s)
   else runqueue_add me t s = s) ∧
  ∃ s', runqueue_remove t s = Ret s' ∧ queues s' (dequeue t Q) ∧ same_core s s' ∧ ∀ c, t ∉ dequeue t Q c.
Proof.
  intros Hq Hme Hst Ht. split.
  - destruct (decide _) as [E|E]; [by apply runqueue_add_spec|]. unfold runqueue_add.
    by rewrite (proj2 (Z.eqb_neq _ _) E).
  - destruct (runqueue_remove_spec t s Q Hq Ht) as (s' & ? & [? ?] & _). exists s'. split_and!; try done.
    intros c [Hx _]%list_elem_of_filter. done.
Qed.

(** ** Switching *)

Lemma switch_to_spec me n s Q c : queues s Q → current me s = Some c → c ≠ n →
  let s' := switch_to me n s in
  queues s' Q ∧ current me s' = Some n ∧ state (tasks s' n) = T_RUNNING ∧
  (∀ i, pid (tasks s' i) = pid (tasks s i) ∧ rq_cpu (tasks s' i) = rq_cpu (tasks s i) ∧
        (i ≠ n → state (tasks s' i) = state (tasks s i))) ∧
  (∀ d, started (cpus s' d) = started (cpus s d) ∧ idle (cpus s' d) = idle (cpus s d) ∧
        (d ≠ me → cur (cpus s' d) = cur (cpus s d))).
Proof.
  intros Hq Hcur Hne. unfold switch_to. rewrite Hcur. cbn zeta.
  set (s1 := upd_task n _ s). set (s2 := upd_task c _ s1).
  assert (queues s2 Q) as Hq2. { apply queues_upd_task; [|done]. by apply queues_upd_task. }
  assert (∀ i, tasks s2 i = if decide (i = c) then set_cpu_id (u32 (-1)) (tasks s c)
    else if decide (i = n) then set_cpu_id (Z.of_nat (id (cpus s me))) (set_quantum 6 (set_state T_RUNNING (tasks s n)))
    else tasks s i) as Ht.
  { intros i. unfold s2. rewrite tasks_upd. unfold s1. destruct (decide (i = c)) as [->|].
    - by rewrite tasks_upd, decide_False.
    - by rewrite tasks_upd. }
  split_and!.
  - by apply queues_upd_cpu.
  - unfold current. by rewrite cpus_upd, decide_True.
  - cbn [tasks upd_cpu]. by rewrite Ht, decide_False, decide_True.
  - intros i. cbn [tasks upd_cpu]. rewrite Ht. destruct (decide (i = c)) as [->|]; [done|].
    destruct (decide (i = n)) as [->|]; done.
  - intros d. rewrite cpus_upd. destruct (decide (d = me)) as [->|]; done.
Qed.

(** [runqueue_add] on the lists: a task that is on a queue stays where it is. *)
Definition requeue (me c : nat) (s : sched) (Q : nat → list nat) : nat → list nat :=
  if decide (rq_cpu (tasks s c) = -1) then enqueue (preferred_cpu me s) c Q else Q.

(** What a switch from [c] to [n] leaves behind; [requeued] says whether [c]
    went back on a queue. *)
Record switched (me c n : nat) (requeued : bool) (s s' : sched) (Q : nat → list nat) : Prop := {
  sw_queues : queues s' (dequeue n (if requeued then requeue me c s Q else Q));
  sw_cur : current me s' = Some n;
  sw_next : state (tasks s' n) = T_RUNNING;
  sw_prev : state (tasks s' c) = if requeued then T_RUNNABLE else state (tasks s c);
  sw_state i : i ≠ c → i ≠ n → state (tasks s' i) = state (tasks s i);
  sw_pid i : pid (tasks s' i) = pid (tasks s i);
  sw_cpu d : started (cpus s' d) = started (cpus s d) ∧ idle (cpus s' d) = idle (cpus s d) ∧
             (d ≠ me → cur (cpus s' d) = cur (cpus s d));
}.

Lemma core_state s s' i : same_core s s' → state (tasks s' i) = state (tasks s i) ∧ pid (tasks s' i) = pid (tasks s i).
Proof. intros (Hc & _). destruct (core_fields _ _ (Hc i)) as (? & ? & ? & _). done. Qed.

Lemma core_cpu s s' d : same_core s s' → started (cpus s' d) = started (cpus s d) ∧
  idle (cpus s' d) = idle (cpus s d) ∧ cur (cpus s' d) = cur (cpus s d).
Proof. intros (_ & Hc & _). destruct (cpu_core_fields _ _ (Hc d)) as (? & ? & ? & ? & _). done. Qed.

Lemma switch_from_spec me c n s Q : queues s Q → (me < MAX_CPUS)%nat → started (cpus s me) = true →
  current me s = Some c → (c < NR_TASKS)%nat → (n < NR_TASKS)%nat → c ≠ n →
  let requeued := bool_decide (state (tasks s c) = T_RUNNING) && negb (pid (tasks s c) =? 0) in
  ∃ s', switch_from me c n s = Ret s' ∧ switched me c n requeued s s' Q.
Proof.
  intros Hq Hme Hst Hcur Hc Hn Hne requeued. unfold switch_from. fold requeued.
  set (s1 := if requeued then _ else s).
  assert (queues s1 (if requeued then requeue me c s Q else Q) ∧
    (∀ i, state (tasks s1 i) = (if requeued && bool_decide (i = c) then T_RUNNABLE else state (tasks s i)) ∧
          pid (tasks s1 i) = pid (tasks s i)) ∧
    (∀ d, started (cpus s1 d) = started (cpus s d) ∧ idle (cpus s1 d) = idle (cpus s d) ∧
          cur (cpus s1 d) = cur (cpus s d))) as (Hq1 & Ht1 & Hc1).
  { unfold s1. destruct requeued; [|by split].
    set (s0 := upd_task c (set_state T_RUNNABLE) s).
    assert (queues (runqueue_add me c s0) (requeue me c s Q) ∧ same_core s0 (runqueue_add me c s0)) as [Hq0 Hcore].
    { assert (queues s0 Q) as Hs0 by (by apply queues_upd_task).
      assert (rq_cpu (tasks s0 c) = rq_cpu (tasks s c)) as Hrq by (unfold s0; by rewrite tasks_upd, decide_True).
      unfold requeue. destruct (decide (rq_cpu (tasks s c) = -1)) as [E|E].
      - change (preferred_cpu me s) with (preferred_cpu me s0). by apply runqueue_add_spec; [..|rewrite Hrq].
      - unfold runqueue_add. rewrite Hrq, (proj2 (Z.eqb_neq _ _) E). split; [done|apply same_core_refl]. }
    split; [done|]. split.
    - intros i. destruct (core_state _ _ i Hcore) as [-> ->]. unfold s0. rewrite tasks_upd. cbn [andb].
      destruct (decide (i = c)) as [->|]; [by rewrite bool_decide_true|by rewrite bool_decide_false].
    - intros d. exact (core_cpu s0 _ d Hcore). }
  destruct (runqueue_remove_spec n s1 _ Hq1 Hn) as (s2 & -> & [Hq2 Hcore2] & _). cbn [mbind outcome_bind].
  eexists. split; [done|].
  assert (current me s2 = Some c) as Hcur2.
  { unfold current. destruct (core_cpu _ _ me Hcore2) as (_ & _ & ->). rewrite <- Hcur. apply Hc1. }
  destruct (switch_to_spec me n s2 _ c Hq2 Hcur2 Hne) as (Hq3 & Hcur3 & Hst3 & Ht3 & Hc3).
  assert (∀ i, i ≠ n → state (tasks (switch_to me n s2) i) =
    if requeued && bool_decide (i = c) then T_RUNNABLE else state (tasks s i)) as Hstate.
  { intros i Hi. rewrite (proj2 (proj2 (Ht3 i)) Hi). rewrite (proj1 (core_state _ _ i Hcore2)). apply Ht1. }
  constructor; try done.
  - rewrite Hstate, (bool_decide_true (c = c)) by done. by rewrite andb_true_r.
  - intros i Hic Hin. rewrite Hstate, (bool_decide_false (i = c)) by done. by rewrite andb_false_r.
  - intros i. rewrite (proj1 (Ht3 i)), (proj2 (core_state _ _ i Hcore2)). apply Ht1.
  - intros d. destruct (Hc3 d) as (-> & -> & Hx). destruct (core_cpu _ _ d Hcore2) as (-> & -> & Hy).
    destruct (Hc1 d) as (-> & -> & Hz). split_and!; [done|done|]. intros Hd. rewrite Hx, Hy, Hz; done.
Qed.
