(* ===== verification/SchedRun.v ===== *)
(** Which task runs: the outcome of every [schedule], the wake-up of sleepers by
    the timer, and two ways in which a runnable task is never run. *)
From S2P Require Import Prelude Sched SchedFacts.

Lemma pick_next_head me s Q : queues s Q → (me < MAX_CPUS)%nat → started (cpus s me) = true →
  pick_next me s = head (Q me).
Proof.
  intros Hq Hme Hst. destruct (q_chain s Q Hq me Hme Hst) as [Hc _]. unfold pick_next.
  destruct (Q me) as [|i l]; [by rewrite Hc|]. by destruct Hc as [-> _].
Qed.

(** CPU [me] is up and its current task is [c]. *)
Record on_cpu (me c : nat) (s : sched) (Q : nat → list nat) : Prop := {
  oc_queues : queues s Q;
  oc_me : (me < MAX_CPUS)%nat;
  oc_started : started (cpus s me) = true;
  oc_cur : current me s = Some c;
  oc_slot : (c < NR_TASKS)%nat;
}.

(** ... and the task is on no queue. *)
Record running (me c : nat) (s : sched) (Q : nat → list nat) : Prop := {
  ru_on : on_cpu me c s Q;
  ru_off : rq_cpu (tasks s c) = -1;
}.

Lemma running_off me c s Q d : running me c s Q → c ∉ Q d.
Proof. intros [[Hq _ _ _ _] Ho] (_ & _ & Hx)%(q_cpu s Q Hq). lia. Qed.

(** C29. What [schedule] does, in every case, whatever the state of the current task
    and whether or not a wake-up has put it on a queue already.  With a queued
    task it switches to the head of this CPU's queue, and puts the task it
    leaves back on a queue iff that task is running and not idle.  When the head
    is the current task itself, that is taken off the queue and goes on.  With
    an empty queue a task that can run goes on with a fresh quantum, and one that
    cannot gives way to the idle task.  It never fails. *)
Theorem schedule_correct me c s Q :
  on_cpu me c s Q → (∀ z, idle (cpus s me) = Some z → (z < NR_TASKS)%nat) →
  let requeued := bool_decide (state (tasks s c) = T_RUNNING) && negb (pid (tasks s c) =? 0) in
  ∃ s', schedule me s = Ret s' ∧
    match Q me with
    | n :: _ =>
        if decide (n = c)
        then queues s' (dequeue c Q) ∧ same_core (if requeued then upd_task c (set_quantum 6) s else s) s'
        else switched me c n requeued s s' Q
    | [] =>
        if decide (state (tasks s c) = T_RUNNING ∨ state (tasks s c) = T_RUNNABLE) then
          s' = if pid (tasks s c) =? 0 then s else upd_task c (set_quantum 6) s
        else match idle (cpus s me) with
             | Some z => if decide (z = c) then s' = s else switched me c z false s s' Q
             | None => s' = s
             end
    end.
Proof.
  intros [Hq Hme Hst Hcur Hc] Hidle requeued. unfold schedule. rewrite Hcur.
  rewrite (pick_next_head me s Q Hq Hme Hst). destruct (Q me) as [|n rest] eqn:EQ; cbn [head].
  - rewrite <- bool_decide_or. destruct (decide (_ ∨ _)) as [Hd|Hd].
    + rewrite bool_decide_true by done. eexists. split; [done|]. by destruct (pid (tasks s c) =? 0).
    + rewrite bool_decide_false by done. destruct (idle (cpus s me)) as [z|]; [|by exists s].
      destruct (decide (z = c)) as [->|Hne]; [rewrite Nat.eqb_refl; by exists s|].
      rewrite (proj2 (Nat.eqb_neq z c) Hne).
      destruct (switch_from_spec me c z s Q) as (s' & -> & Hsw); try done; [by apply Hidle|].
      exists s'. split; [done|]. rewrite bool_decide_false in Hsw by tauto. done.
  - assert (n ∈ Q me) as Hn by (rewrite EQ; apply list_elem_of_here). pose proof Hn as (Hn' & _ & Hx)%(q_cpu s Q Hq).
    destruct (decide (n = c)) as [->|Hne].
    + rewrite Nat.eqb_refl. fold requeued. set (s1 := if requeued then _ else s).
      assert (queues s1 Q ∧ rq_cpu (tasks s1 c) = rq_cpu (tasks s c)) as [Hq1 Hr1].
      { unfold s1. destruct requeued; [|done]. split; [by apply queues_upd_task|by rewrite tasks_upd, decide_True]. }
      rewrite Hr1, (proj2 (Z.eqb_neq _ _)) by lia. cbn [negb].
      destruct (runqueue_remove_spec c s1 Q Hq1 Hc) as (s' & -> & [Hq' Hco] & _). by exists s'.
    + rewrite (proj2 (Nat.eqb_neq n c) Hne). by apply switch_from_spec.
Qed.

(** ** Two tasks keep the CPU to themselves *)

Fixpoint schedules (k me : nat) (s : sched) : outcome sched :=
  match k with O => Ret s | S k' => s ← schedule me s; schedules k' me s end.

(** [a] runs, [b] is first on the queue and the tasks of [rest] are behind it;
    the other CPUs are down. *)
Record contended (me a b : nat) (rest : list nat) (s : sched) (Q : nat → list nat) : Prop := {
  co_running : running me a s Q;
  co_queue : Q me = b :: rest;
  co_state : state (tasks s a) = T_RUNNING;
  co_pids : pid (tasks s a) ≠ 0 ∧ pid (tasks s b) ≠ 0;
  co_idle : idle (cpus s me) ≠ Some a ∧ idle (cpus s me) ≠ Some b;
  co_alone d : d ≠ me → started (cpus s d) = false;
}.

Lemma preferred_alone me a b rest s Q : contended me a b rest s Q → preferred_cpu me s = me.
Proof.
  intros [[[Hq Hme Hst Hcur _] _] _ _ _ [Hia _] Hal]. destruct (preferred_cpu_ok me s Hme Hst) as (_ & Hs & [?|(i & Hi & Hci)]); [done|].
  destruct (decide (preferred_cpu me s = me)) as [|Hne]; [done|]. by rewrite Hal in Hs.
Qed.

Lemma contended_step me a b rest s Q : contended me a b rest s Q →
  ∃ s' Q', schedule me s = Ret s' ∧ contended me b a rest s' Q'.
Proof.
  intros Hco. pose proof (preferred_alone _ _ _ _ _ _ Hco) as Hpref.
  pose proof Hco as [Hru HQ Hsta [Hpa Hpb] [Hia Hib] Hal]. pose proof Hru as [[Hq Hme Hst Hcur Ha] Hoff].
  assert (b ∈ Q me) as Hb by (rewrite HQ; apply list_elem_of_here). pose proof Hb as (Hbn & _ & Hbx)%(q_cpu s Q Hq).
  assert (b ≠ a) as Hne by (intros ->; lia).
  unfold schedule. rewrite Hcur, (pick_next_head me s Q Hq Hme Hst), HQ. cbn [head].
  rewrite (proj2 (Nat.eqb_neq b a) Hne).
  destruct (switch_from_spec me a b s Q) as (s' & -> & Hsw); try done.
  rewrite bool_decide_true, (proj2 (Z.eqb_neq _ _) Hpa) in Hsw by done. cbn [negb andb] in Hsw.
  destruct Hsw as [Hq' Hcur' Hn' Hp' Hs' Hpid' Hcpu']. unfold requeue in Hq'. rewrite decide_True, Hpref in Hq' by done.
  exists s', (dequeue b (enqueue me a Q)). split; [done|].
  pose proof (q_nodup s Q Hq me) as Hnd. rewrite HQ in Hnd. apply NoDup_cons in Hnd as [Hbr _].
  assert (dequeue b (enqueue me a Q) me = a :: rest) as HQ'.
  { unfold dequeue, enqueue. rewrite fn_lookup_insert, HQ. rewrite filter_cons_True by done.
    rewrite filter_cons_False by naive_solver. f_equal. apply filter_all. by intros x Hx ->. }
  constructor.
  - constructor; [constructor; try done; by rewrite (proj1 (Hcpu' me))|].
    destruct (q_range s' _ Hq' b Hbn) as [?|Hr]; [done|]. exfalso.
    assert (b ∈ dequeue b (enqueue me a Q) (Z.to_nat (rq_cpu (tasks s' b)))) as Hin by (apply (q_cpu s' _ Hq'); lia).
    by apply list_elem_of_filter in Hin as [? _].
  - done.
  - done.
  - by rewrite !Hpid'.
  - by rewrite (proj1 (proj2 (Hcpu' me))).
  - intros d Hd. rewrite (proj1 (Hcpu' d)). by apply Hal.
Qed.

(** The queues are not served in turn: with two busy tasks on a CPU, every
    call of [schedule] hands the CPU from one to the other and the tasks behind
    them are never run, however often it is called. *)
Theorem schedule_starves me a b rest s Q :
  contended me a b rest s Q →
  ∀ k, ∃ s' Q', schedules k me s = Ret s' ∧ queues s' Q' ∧
    current me s' = Some (if Nat.even k then a else b) ∧
    Q' me = (if Nat.even k then b else a) :: rest.
Proof.
  intros Hco k. revert a b s Q Hco. induction k as [|k IH]; intros a b s Q Hco.
  - exists s, Q. destruct Hco as [[[] ?] ]. done.
  - destruct (contended_step _ _ _ _ _ _ Hco) as (s1 & Q1 & Heq & Hco1).
    destruct (IH b a s1 Q1 Hco1) as (s2 & Q2 & Heq2 & Hq2 & Hc2 & HQ2).
    exists s2, Q2. cbn [schedules]. rewrite Heq. cbn [mbind outcome_bind]. rewrite Nat.even_succ, <- Nat.negb_even.
    destruct (Nat.even k); done.
Qed.

(** ** Timer wake-ups *)

Definition due (s : sched) (i : nat) : Prop := state (tasks s i) = T_SLEEPING ∧ sleep_until (tasks s i) ≤ jiffies s.
#[global] Instance due_dec s i : Decision (due s i).
Proof. unfold due. apply _. Defined.

Record online (me : nat) (s : sched) : Prop := {
  on_me : (me < MAX_CPUS)%nat;
  on_started : started (cpus s me) = true;
}.

Lemma runqueue_add_any me t s Q : queues s Q → online me s → (t < NR_TASKS)%nat →
  ∃ Q', queues (runqueue_add me t s) Q' ∧ same_core s (runqueue_add me t s) ∧
    (∀ i d, i ≠ t → i ∈ Q' d ↔ i ∈ Q d) ∧ ∃ d, t ∈ Q' d.
Proof.
  intros Hq [Hme Hst] Ht. destruct (decide (rq_cpu (tasks s t) = -1)) as [E|E].
  - destruct (runqueue_add_spec me t s Q Hq Hme Hst Ht E) as [Hq' Hc].
    exists (enqueue (preferred_cpu me s) t Q). split_and!; [done|done| |].
    + intros i d Hi. unfold enqueue. destruct (decide (d = preferred_cpu me s)) as [->|].
      * rewrite fn_lookup_insert, elem_of_cons. naive_solver.
      * by rewrite fn_lookup_insert_ne.
    + exists (preferred_cpu me s). unfold enqueue. rewrite fn_lookup_insert. apply list_elem_of_here.
  - exists Q. unfold runqueue_add. rewrite (proj2 (Z.eqb_neq _ _) E). cbn [negb].
    split_and!; [done|apply same_core_refl|done|].
    destruct (q_range s Q Hq t Ht) as [?|Hr]; [done|]. exists (Z.to_nat (rq_cpu (tasks s t))). apply (q_cpu s Q Hq). lia.
Qed.

(** The loop over the sleepers, up to slot [k]. *)
Record waked (me k : nat) (s x : sched) : Prop := {
  wk_queues : ∃ Q, queues x Q ∧ ∀ i, (1 ≤ i < k)%nat → due s i → ∃ d, i ∈ Q d;
  wk_online : online me x;
  wk_jiffies : jiffies x = jiffies s;
  wk_state i : state (tasks x i) = if decide ((1 ≤ i < k)%nat ∧ due s i) then T_RUNNABLE else state (tasks s i);
  wk_until i : sleep_until (tasks x i) = sleep_until (tasks s i);
}.

Lemma wake_sleeper_waked me k s x : (1 ≤ k < NR_TASKS)%nat → waked me k s x → waked me (S k) s (wake_sleeper me k x).
Proof.
  intros Hk [(Q & Hq & Hd) Hon Hj Hs Hu]. unfold wake_sleeper.
  assert (state (tasks x k) = state (tasks s k)) as Hsk by (rewrite Hs, decide_False by lia; done).
  assert (bool_decide (state (tasks x k) = T_SLEEPING) && (sleep_until (tasks x k) <=? jiffies x) = bool_decide (due s k)) as ->.
  { rewrite Hsk, Hu, Hj. unfold due. destruct (sleep_until (tasks s k) <=? jiffies s) eqn:E; bool_split.
    - rewrite andb_true_r. apply bool_decide_ext. naive_solver.
    - rewrite andb_false_r. symmetry. apply bool_decide_false. intros [_ ?]. lia. }
  case_bool_decide as Hdue; cycle 1.
  { constructor; [|done|done| |done].
    - exists Q. split; [done|]. intros i Hi Hdi. apply Hd; [|done]. assert (i ≠ k) by (by intros ->). lia.
    - intros i. rewrite Hs. destruct (decide (i = k)) as [->|].
      + rewrite !decide_False by (lia || naive_solver). done.
      + apply decide_ext. split; intros [? ?]; (split; [lia|done]). }
  set (x1 := upd_task k (set_state T_RUNNABLE) x).
  destruct (runqueue_add_any me k x1 Q) as (Q' & Hq' & Hcore & Hmem & d & Hkd);
    [by apply queues_upd_task|destruct Hon; by constructor|lia|].
  assert (∀ i, state (tasks x1 i) = if decide (i = k) then T_RUNNABLE else state (tasks x i)) as Hx1.
  { intros i. unfold x1. rewrite tasks_upd. by destruct (decide (i = k)). }
  constructor.
  - exists Q'. split; [by apply queues_upd_cpu|]. intros i Hi Hdi. destruct (decide (i = k)) as [->|Hne]; [by exists d|].
    destruct (Hd i) as [d' Hd']; [lia|done|]. exists d'. by apply Hmem.
  - destruct Hon as [? Hst]. constructor; [done|]. rewrite cpus_upd, decide_True by done. cbn.
    destruct (core_cpu _ _ me Hcore) as (-> & _). done.
  - cbn [jiffies upd_cpu]. destruct Hcore as (_ & _ & ->). done.
  - intros i. cbn [tasks upd_cpu]. rewrite (proj1 (core_state _ _ i Hcore)), Hx1. destruct (decide (i = k)) as [->|Hne].
    + rewrite decide_True by (split; [lia|done]). done.
    + rewrite Hs. apply decide_ext. split; intros [? ?]; (split; [lia|done]).
  - intros i. cbn [tasks upd_cpu]. destruct Hcore as (Hc & _). destruct (core_fields _ _ (Hc i)) as (_ & _ & _ & _ & -> & _).
    rewrite <- Hu. unfold x1. rewrite tasks_upd. by destruct (decide (i = k)) as [->|].
Qed.

Lemma wake_loop me s Q n m : queues s Q → online me s → (1 + n)%nat = m → (m ≤ NR_TASKS)%nat →
  waked me m s (for_loop (wake_sleeper me) 1 n s).
Proof.
  intros Hq Hon <- Hn. apply (for_loop_ind (λ k x, waked me k s x)).
  - constructor; try done.
    + exists Q. split; [done|]. intros i Hi. lia.
    + intros i. by rewrite decide_False by lia.
  - intros k y Hk. apply wake_sleeper_waked. lia.
Qed.

Lemma burn_quantum_same me x :
  (∀ i, state (tasks (burn_quantum me x) i) = state (tasks x i) ∧
        rq_next (tasks (burn_quantum me x) i) = rq_next (tasks x i) ∧
        rq_cpu (tasks (burn_quantum me x) i) = rq_cpu (tasks x i)) ∧
  (∀ c, runq_head (cpus (burn_quantum me x) c) = runq_head (cpus x c) ∧
        id (cpus (burn_quantum me x) c) = id (cpus x c) ∧
        started (cpus (burn_quantum me x) c) = started (cpus x c) ∧
        cur (cpus (burn_quantum me x) c) = cur (cpus x c) ∧ idle (cpus (burn_quantum me x) c) = idle (cpus x c)).
Proof.
  unfold burn_quantum. destruct (current me x) as [c|]; [|done]. destruct (pid (tasks x c) =? 0); [done|].
  destruct (0 <? quantum (tasks x c)); [|done]. set (y := upd_task c _ x).
  assert (∀ i, state (tasks y i) = state (tasks x i) ∧ rq_next (tasks y i) = rq_next (tasks x i) ∧
    rq_cpu (tasks y i) = rq_cpu (tasks x i)) as Hy.
  { intros i. unfold y. rewrite tasks_upd. by destruct (decide (i = c)) as [->|]. }
  destruct (_ && _); (split; [done|]); [|done]. intros d. rewrite cpus_upd. by destruct (decide (d = me)) as [->|].
Qed.

(** C39. After [sched_tick] no sleeper whose time has come is still asleep: every
    such task of the table is runnable and on a run queue, and every other task
    is in the state it was in. *)
Theorem sched_tick_wakes me s Q :
  queues s Q → online me s →
  ∃ Q', queues (sched_tick me s) Q' ∧ ∀ i, (1 ≤ i < NR_TASKS)%nat →
    if decide (due s i) then state (tasks (sched_tick me s) i) = T_RUNNABLE ∧ ∃ c, i ∈ Q' c
    else state (tasks (sched_tick me s) i) = state (tasks s i).
Proof.
  intros Hq Hon.
  destruct (wake_loop me s Q (NR_TASKS - 1) NR_TASKS Hq Hon eq_refl (le_n _)) as [(Q' & Hq' & Hd) _ _ Hs _].
  unfold sched_tick. set (x := for_loop (wake_sleeper me) 1 (NR_TASKS - 1) s) in *. clearbody x.
  destruct (burn_quantum_same me x) as [Ht Hc].
  exists Q'. split; [eapply queues_core; [done|intros; apply Ht|intros d; destruct (Hc d) as (? & ? & ? & _); done]|].
  intros i Hi. rewrite (proj1 (Ht i)), Hs. destruct (decide (due s i)) as [Hdi|Hdi].
  - rewrite decide_True by done. split; [done|]. by apply Hd.
  - by rewrite decide_False by naive_solver.
Qed.

(** ** A lost wake-up *)

Lemma dequeue_elem t Q i d : i ≠ t → i ∈ dequeue t Q d ↔ i ∈ Q d.
Proof. intros Hi. unfold dequeue. rewrite list_elem_of_filter. naive_solver. Qed.

(** The queues and the slots they talk about, whatever the current tasks do. *)
Record sched_inv (s : sched) (Q : nat → list nat) : Prop := {
  si_queues : queues s Q;
  si_slot d i : cur (cpus s d) = Some i ∨ idle (cpus s d) = Some i → (i < NR_TASKS)%nat;
}.

(** [c] is runnable, on no queue and nobody's current or idle task. *)
Record lost (c : nat) (s : sched) : Prop := {
  lo_state : state (tasks s c) = T_RUNNABLE;
  lo_off : rq_cpu (tasks s c) = -1;
  lo_cur d : cur (cpus s d) ≠ Some c ∧ idle (cpus s d) ≠ Some c;
}.

Lemma off_queue s Q s' Q' c : queues s Q → queues s' Q' → (c < NR_TASKS)%nat → rq_cpu (tasks s c) = -1 →
  (∀ d, c ∈ Q' d → c ∈ Q d) → rq_cpu (tasks s' c) = -1.
Proof.
  intros Hq Hq' Hc Hoff Hsub. destruct (q_range s' Q' Hq' c Hc) as [?|Hr]; [done|]. exfalso.
  assert (c ∈ Q (Z.to_nat (rq_cpu (tasks s' c)))) as Hin by (apply Hsub, (q_cpu s' Q' Hq'); lia).
  apply (q_cpu s Q Hq) in Hin. lia.
Qed.

Lemma switch_from_lost me x n c s Q : sched_inv s Q → online me s → (c < NR_TASKS)%nat → lost c s →
  current me s = Some x → x ≠ n → (n < NR_TASKS)%nat → n ≠ c →
  ∃ s' Q', switch_from me x n s = Ret s' ∧ sched_inv s' Q' ∧ lost c s'.
Proof.
  intros [Hq Hslot] Hon Hc [Hls Hlo Hlc] Hcur Hxn Hn Hnc.
  assert (x < NR_TASKS)%nat as Hx by (apply (Hslot me); by left).
  assert (x ≠ c) as Hxc by (intros ->; exact (proj1 (Hlc me) Hcur)). unfold switch_from.
  set (s1 := if bool_decide (state (tasks s x) = T_RUNNING) && _ then _ else s).
  assert (∃ Q1, queues s1 Q1 ∧ (∀ d, c ∈ Q1 d ↔ c ∈ Q d) ∧ state (tasks s1 c) = T_RUNNABLE ∧
    ∀ d, idle (cpus s1 d) = idle (cpus s d) ∧ cur (cpus s1 d) = cur (cpus s d)) as (Q1 & Hq1 & Hm1 & Hs1 & Hc1).
  { unfold s1. destruct (_ && _); [|by exists Q]. set (s0 := upd_task x (set_state T_RUNNABLE) s).
    destruct (runqueue_add_any me x s0 Q) as (Q1 & Hq1 & Hcore & Hm & _); [by apply queues_upd_task|by destruct Hon|done|].
    exists Q1. split_and!; [done|intros d; by apply Hm| |].
    - rewrite (proj1 (core_state _ _ c Hcore)). unfold s0. by rewrite tasks_upd, decide_False.
    - intros d. destruct (core_cpu s0 _ d Hcore) as (_ & -> & ->). done. }
  destruct (runqueue_remove_spec n s1 Q1 Hq1 Hn) as (s2 & -> & [Hq2 Hcore2] & _). cbn [mbind outcome_bind].
  assert (current me s2 = Some x) as Hcur2.
  { unfold current. destruct (core_cpu _ _ me Hcore2) as (_ & _ & ->). rewrite (proj2 (Hc1 me)). done. }
  destruct (switch_to_spec me n s2 _ x Hq2 Hcur2 Hxn) as (Hq3 & Hcur3 & _ & Ht3 & Hc3).
  assert (∀ d, idle (cpus (switch_to me n s2) d) = idle (cpus s d) ∧
    (cur (cpus (switch_to me n s2) d) = Some n ∨ cur (cpus (switch_to me n s2) d) = cur (cpus s d))) as Hcp.
  { intros d. destruct (Hc3 d) as (_ & -> & Hx3). destruct (core_cpu _ _ d Hcore2) as (_ & -> & Hy).
    rewrite (proj1 (Hc1 d)). split; [done|]. destruct (decide (d = me)) as [->|Hd]; [by left|right].
    rewrite Hx3, Hy by done. apply Hc1. }
  eexists _, _. split; [done|]. split; constructor.
  - exact Hq3.
  - intros d i. destruct (Hcp d) as [-> [->| ->]]; intros [?|?]; simplify_eq; try done; eapply (Hslot d); by auto.
  - rewrite (proj2 (proj2 (Ht3 c))) by done. by rewrite (proj1 (core_state _ _ c Hcore2)).
  - eapply (off_queue s Q); [done|exact Hq3|done|done|]. intros d Hd. rewrite dequeue_elem in Hd by done. by apply Hm1.
  - intros d. destruct (Hcp d) as [-> [->| ->]]; (split; [|by apply Hlc]); [congruence|by apply Hlc].
Qed.

Lemma lost_upd_task c x f s Q : sched_inv s Q → lost c s → x ≠ c →
  (∀ t, rq_next (f t) = rq_next t ∧ rq_cpu (f t) = rq_cpu t) → sched_inv (upd_task x f s) Q ∧ lost c (upd_task x f s).
Proof.
  intros [Hq Hslot] [Hls Hlo Hlc] Hx Hf. split; constructor; try done.
  - by apply queues_upd_task.
  - by rewrite tasks_upd, decide_False.
  - by rewrite tasks_upd, decide_False.
Qed.

Lemma schedule_lost me c s Q s' : sched_inv s Q → online me s → (c < NR_TASKS)%nat → lost c s →
  schedule me s = Ret s' → ∃ Q', sched_inv s' Q' ∧ lost c s'.
Proof.
  intros Hinv Hon Hc Hlost. pose proof Hinv as [Hq Hslot]. pose proof Hlost as [Hls Hlo Hlc]. unfold schedule.
  destruct (current me s) as [x|] eqn:Hcur; [|done]. assert (x ≠ c) as Hxc by (intros ->; exact (proj1 (Hlc me) Hcur)).
  rewrite (pick_next_head me s Q Hq) by apply Hon. destruct (head (Q me)) as [n|] eqn:Hh.
  - assert (n ∈ Q me) as Hn. { destruct (Q me); [done|]. injection Hh as ->. apply list_elem_of_here. }
    pose proof Hn as (Hns & _ & Hnx)%(q_cpu s Q Hq). assert (n ≠ c) as Hnc by (intros ->; lia).
    destruct (n =? x)%nat eqn:E; bool_split.
    + subst n. set (s1 := if bool_decide (state (tasks s x) = T_RUNNING) && _ then _ else s).
      assert (sched_inv s1 Q ∧ lost c s1) as [Hinv1 Hlost1].
      { unfold s1. destruct (_ && _); [by apply lost_upd_task|done]. }
      clearbody s1. destruct (negb (rq_cpu (tasks s1 x) =? -1)); [|intros [= <-]; by exists Q]. intros Hr.
      destruct (runqueue_remove_spec x s1 Q (si_queues _ _ Hinv1) Hns) as (s2 & Hr2 & [Hq2 Hcore] & _).
      assert (s2 = s') as -> by congruence. exists (dequeue x Q). split; constructor.
      * done.
      * intros d i. destruct (core_cpu _ _ d Hcore) as (_ & -> & ->). apply Hinv1.
      * rewrite (proj1 (core_state _ _ c Hcore)). apply Hlost1.
      * eapply (off_queue s1 Q); [apply Hinv1|done|done|apply Hlost1|]. intros d. by rewrite dequeue_elem.
      * intros d. destruct (core_cpu _ _ d Hcore) as (_ & -> & ->). apply Hlost1.
    + destruct (switch_from_lost me x n c s Q) as (s2 & Q' & -> & ? & ?); try done.
      intros [= <-]. by exists Q'.
  - destruct (_ || _).
    { destruct (negb _); intros [= <-]; exists Q; [by apply lost_upd_task|done]. }
    destruct (idle (cpus s me)) as [z|] eqn:Hz; [|intros [= <-]; by exists Q].
    destruct (z =? x)%nat eqn:E; bool_split; [intros [= <-]; by exists Q|].
    destruct (switch_from_lost me x z c s Q) as (s2 & Q' & -> & ? & ?); try done.
    + apply (Hslot me). by right.
    + intros ->. exact (proj2 (Hlc me) Hz).
    + intros [= <-]. by exists Q'.
Qed.

(** What the CPUs do on their own: time passes, the timer fires, the scheduler
    is entered. *)
Inductive cpu_step : sched → sched → Prop :=
  | cs_time s : cpu_step s (MkSched (tasks s) (cpus s) (u64 (jiffies s + 1)))
  | cs_tick me s : online me s → cpu_step s (sched_tick me s)
  | cs_schedule me s s' : online me s → schedule me s = Ret s' → cpu_step s s'.

Definition stays_lost (c : nat) (s : sched) : Prop := ∃ Q, sched_inv s Q ∧ lost c s.

Lemma wake_sleeper_lost me k c s : (k < NR_TASKS)%nat → (c < NR_TASKS)%nat → online me s → stays_lost c s →
  online me (wake_sleeper me k s) ∧ stays_lost c (wake_sleeper me k s).
Proof.
  intros Hk Hc Hon Hst. pose proof Hst as (Q & Hinv & Hlost). unfold wake_sleeper.
  destruct (bool_decide (state (tasks s k) = T_SLEEPING) && _) eqn:E; [|done].
  apply andb_prop in E as [E%bool_decide_eq_true _].
  assert (k ≠ c) as Hkc. { intros ->. rewrite (lo_state c s Hlost) in E. done. }
  destruct (lost_upd_task c k (set_state T_RUNNABLE) s Q Hinv Hlost Hkc) as [[Hq1 Hs1] [Hl1 Ho1 Hc1]]; [done|].
  set (s1 := upd_task k (set_state T_RUNNABLE) s) in *.
  destruct (runqueue_add_any me k s1 Q Hq1) as (Q' & Hq' & Hcore & Hm & _); [by destruct Hon|done|].
  set (s2 := upd_cpu me (set_need_resched true) (runqueue_add me k s1)).
  assert (∀ d, started (cpus s2 d) = started (cpus s d) ∧ idle (cpus s2 d) = idle (cpus s d) ∧
    cur (cpus s2 d) = cur (cpus s d)) as Hcp.
  { intros d. unfold s2. rewrite cpus_upd. destruct (core_cpu _ _ d Hcore) as (He1 & He2 & He3).
    destruct (decide (d = me)) as [->|]; done. }
  split; [|exists Q'; split; constructor].
  - destruct Hon as [? Hst0]. constructor; [done|]. by rewrite (proj1 (Hcp me)).
  - by apply queues_upd_cpu.
  - intros d i. destruct (Hcp d) as (_ & -> & ->). apply (si_slot _ _ Hinv).
  - unfold s2. cbn [tasks upd_cpu]. by rewrite (proj1 (core_state _ _ c Hcore)).
  - unfold s2. cbn [tasks upd_cpu]. eapply (off_queue s1 Q); [done|exact Hq'|done|done|]. intros d. by apply Hm.
  - intros d. destruct (Hcp d) as (_ & -> & ->). apply (lo_cur _ _ Hlost).
Qed.

Lemma sched_tick_lost me c s : (c < NR_TASKS)%nat → online me s → stays_lost c s → stays_lost c (sched_tick me s).
Proof.
  intros Hc Hon Hst. unfold sched_tick.
  assert (online me (for_loop (wake_sleeper me) 1 (NR_TASKS - 1) s) ∧
    stays_lost c (for_loop (wake_sleeper me) 1 (NR_TASKS - 1) s)) as [_ (Q & [Hq Hs] & [Hl Ho Hcu])].
  { apply (for_loop_ind (λ _ x, online me x ∧ stays_lost c x)); [done|].
    intros k x Hk [? ?]. apply wake_sleeper_lost; [unfold NR_TASKS in *; lia|done..]. }
  set (x := for_loop (wake_sleeper me) 1 (NR_TASKS - 1) s) in *. clearbody x.
  destruct (burn_quantum_same me x) as [Ht Hcp]. exists Q. split; constructor.
  - eapply queues_core; [done|intros; apply Ht|intros d; destruct (Hcp d) as (? & ? & ? & _); done].
  - intros d i. destruct (Hcp d) as (_ & _ & _ & -> & ->). apply Hs.
  - by rewrite (proj1 (Ht c)).
  - by rewrite (proj2 (proj2 (Ht c))).
  - intros d. destruct (Hcp d) as (_ & _ & _ & -> & ->). apply Hcu.
Qed.

Lemma cpu_step_lost c s s' : (c < NR_TASKS)%nat → cpu_step s s' → stays_lost c s → stays_lost c s'.
Proof.
  intros Hc Hstep Hst. destruct Hstep as [s|me s Hon|me s s' Hon Hs].
  - destruct Hst as (Q & [Hq Hsl] & [Hl Ho Hcu]). exists Q. split; constructor; try done.
    by eapply queues_core.
  - by apply sched_tick_lost.
  - destruct Hst as (Q & Hinv & Hlost). by destruct (schedule_lost me c s Q s' Hinv Hon Hc Hlost Hs) as (Q' & ? & ?); exists Q'.
Qed.

(** A wake-up that arrives while a task is on its way to sleep is lost.  When
    the current task has been made runnable again but is on no queue (the wake
    fell between its decision to sleep and its [runqueue_remove]), [schedule]
    switches away without queueing it; after that no passage of time, no timer
    tick and no further scheduling on any CPU runs it: it stays runnable, off
    every queue, and current nowhere. *)
Theorem schedule_loses_wakeup me c n rest s Q :
  running me c s Q → state (tasks s c) = T_RUNNABLE → Q me = n :: rest →
  (∀ d i, cur (cpus s d) = Some i ∨ idle (cpus s d) = Some i → (i < NR_TASKS)%nat) →
  (∀ d, idle (cpus s d) ≠ Some c ∧ (d ≠ me → cur (cpus s d) ≠ Some c)) →
  ∃ s', schedule me s = Ret s' ∧
    ∀ s'', rtc cpu_step s' s'' →
      state (tasks s'' c) = T_RUNNABLE ∧ rq_cpu (tasks s'' c) = -1 ∧ ∀ d, current d s'' ≠ Some c.
Proof.
  intros Hru Hsc HQ Hslot Hnc. pose proof Hru as [[Hq Hme Hst Hcur Hc] Hoff]. unfold schedule.
  rewrite Hcur, (pick_next_head me s Q Hq Hme Hst), HQ. cbn [head].
  assert (n ∈ Q me) as Hn by (rewrite HQ; apply list_elem_of_here). pose proof Hn as (Hns & _ & Hnx)%(q_cpu s Q Hq).
  assert (n ≠ c) as Hne by (intros ->; lia). rewrite (proj2 (Nat.eqb_neq n c) Hne).
  destruct (switch_from_spec me c n s Q) as (s' & -> & [Hq' Hcur' _ Hp' _ _ Hcpu']); try done.
  rewrite bool_decide_false in Hq', Hp' by congruence. cbn [andb] in Hq', Hp'.
  exists s'. split; [done|]. intros s'' Hr.
  assert (stays_lost c s') as Hlost.
  { exists (dequeue n Q). split; constructor.
    - done.
    - intros d i. destruct (Hcpu' d) as (_ & -> & Hx). destruct (decide (d = me)) as [->|Hd].
      + intros [Hi|Hi]; [|eapply (Hslot me); by right]. unfold current in Hcur'. congruence.
      + rewrite Hx by done. apply Hslot.
    - congruence.
    - eapply (off_queue s Q); [done|exact Hq'|done|done|]. intros d. by rewrite dequeue_elem.
    - intros d. destruct (Hcpu' d) as (_ & -> & Hx). split; [|apply Hnc].
      destruct (decide (d = me)) as [->|Hd]; [unfold current in Hcur'; congruence|]. rewrite Hx by done. by apply Hnc. }
  assert (stays_lost c s'') as (Q'' & _ & [? ? Hcu]).
  { clear -Hr Hlost Hc. induction Hr as [|s1 s2 s3 Hs _ IH]; [done|]. by eapply IH, cpu_step_lost. }
  split_and!; [done|done|]. intros d. apply Hcu.
Qed.

Module SchedDemo.
(** One CPU, the idle task in slot 0, tasks 1 and 2 queued and task 3 running. *)
Definition boot : sched :=
  sched_init 0 0x50000 (cpu_init_percpu 0 (MkSched (λ _, task_zero) (λ _, MkCpu 0 false None None Null false) 0)).
Definition spawn (i : nat) (s : sched) : sched :=
  runqueue_add 0 i (upd_task i (λ t, set_state T_RUNNABLE (set_pid (Z.of_nat i) t)) s).
Definition busy : sched :=
  upd_cpu 0 (set_cur (Some 3%nat))
    (upd_task 3 (λ t, set_state T_RUNNING (set_pid 3 t)) (spawn 2 (spawn 1 boot))).
Definition Q : nat → list nat := enqueue 0 2 (enqueue 0 1 (λ _, [])).

Lemma boot_queues : queues boot (λ _, []).
Proof.
  constructor.
  - intros [|c] Hc; [done|]. intros Hst. unfold boot, sched_init, cpu_init_percpu in Hst.
    rewrite cpus_upd in Hst. rewrite decide_False in Hst by lia. cbn [cpus upd_task] in Hst.
    rewrite cpus_upd, decide_False in Hst by lia. cbn [cpus] in Hst. by rewrite cpus_upd, decide_False in Hst by lia.
  - intros c. apply NoDup_nil_2.
  - intros c i. split; [by intros ?%elem_of_nil|]. intros (Hi & _ & He). exfalso. revert He.
    unfold boot, sched_init. cbn [tasks upd_cpu]. rewrite tasks_upd. destruct (decide (i = 0%nat)); [cbn; lia|].
    cbn [tasks upd_cpu]. rewrite (proj2 (Nat.ltb_lt _ _) Hi). cbn. lia.
  - by intros c i ?%elem_of_nil.
  - intros i Hi. left. unfold boot, sched_init. cbn [tasks upd_cpu]. rewrite tasks_upd.
    destruct (decide (i = 0%nat)); [done|]. cbn [tasks upd_cpu]. by rewrite (proj2 (Nat.ltb_lt _ _) Hi).
Qed.

Lemma spawn_queues i s P : queues s P → online 0 s → (i < NR_TASKS)%nat → rq_cpu (tasks s i) = -1 →
  preferred_cpu 0 s = 0%nat → queues (spawn i s) (enqueue 0 i P) ∧ online 0 (spawn i s).
Proof.
  intros Hq [Hme Hst] Hi Hr Hp. set (s1 := upd_task i (λ t, set_state T_RUNNABLE (set_pid (Z.of_nat i) t)) s).
  destruct (runqueue_add_spec 0 i s1 P) as [Hq' Hcore]; [by apply queues_upd_task|done|done|done| |].
  - unfold s1. by rewrite tasks_upd, decide_True.
  - change (preferred_cpu 0 s1) with (preferred_cpu 0 s) in Hq'. rewrite Hp in Hq'. split; [exact Hq'|].
    constructor; [done|]. rewrite <- Hst. exact (proj1 (core_cpu s1 _ 0%nat Hcore)).
Qed.

Lemma busy_queues : queues busy Q ∧ online 0 busy.
Proof.
  destruct (spawn_queues 1 boot (λ _, []) boot_queues) as [H1 O1]; [constructor; [by_eval|done]|by_eval|done|done|].
  destruct (spawn_queues 2 (spawn 1 boot) _ H1 O1) as [H2 O2]; [by_eval|done|done|].
  split; [apply queues_upd_cpu; [by apply queues_upd_task|done]|constructor; [by_eval|done]].
Qed.

Lemma busy_running : running 0 3 busy Q.
Proof. destruct busy_queues as [Hq [Hm Hs]]. constructor; [constructor; [exact Hq|exact Hm|exact Hs|by_eval|by_eval]|by_eval]. Qed.

Lemma busy_cpus d : d ≠ 0%nat → started (cpus busy d) = false ∧ idle (cpus busy d) = None ∧ cur (cpus busy d) = None.
Proof. intros Hd. destruct d as [|d]; [done|]. done. Qed.

Lemma busy_cpu0 : cur (cpus busy 0) = Some 3%nat ∧ idle (cpus busy 0) = Some 0%nat.
Proof. split; by_eval. Qed.
Lemma busy_slots d i : cur (cpus busy d) = Some i ∨ idle (cpus busy d) = Some i → (i < NR_TASKS)%nat.
Proof.
  destruct (decide (d = 0%nat)) as [->|Hd].
  - destruct busy_cpu0 as [-> ->]. intros [[= <-]|[= <-]]; by_eval.
  - destruct (busy_cpus d Hd) as (_ & -> & ->). by intros [?|?].
Qed.
Lemma busy_three d : idle (cpus busy d) ≠ Some 3%nat ∧ (d ≠ 0%nat → cur (cpus busy d) ≠ Some 3%nat).
Proof.
  destruct (decide (d = 0%nat)) as [->|Hd].
  - destruct busy_cpu0 as [-> ->]. done.
  - destruct (busy_cpus d Hd) as (_ & -> & ->). done.
Qed.
Lemma cpus_upd_task (P : (nat → cpu_info) → Prop) i f s : P (cpus s) → P (cpus (upd_task i f s)).
Proof. done. Qed.

Lemma running_upd me c s P x : running me c s P → running me c (upd_task c (set_state x) s) P.
Proof.
  intros [[Hq Hm Hs Hc Hn] Ho]. constructor; [constructor; try done; by apply queues_upd_task|].
  by rewrite tasks_upd, decide_True.
Qed.

(** The scenario of the lost wake-up: task 3 decides to sleep until a time that
    has passed, the timer fires and wakes it, and it goes on to leave its
    queue.  It is now runnable and off every queue. *)
Definition asleep : sched := upd_task 3 (λ t, set_state T_SLEEPING (set_sleep_until 0 t)) busy.
Definition woken : sched := get_ret busy (runqueue_remove 3 (sched_tick 0 asleep)).
Lemma lost_wakeup_scenario :
  is_ret (runqueue_remove 3 (sched_tick 0 asleep)) = true ∧
  rq_cpu (tasks (sched_tick 0 asleep) 3) = 0 ∧
  state (tasks woken 3) = T_RUNNABLE ∧ rq_cpu (tasks woken 3) = -1 ∧ pick_next 0 woken = Some 2%nat.
Proof. split_and!; by_eval. Qed.
End SchedDemo.

Lemma runqueue_refines_lists_witness :
  ∃ s', runqueue_remove 2 SchedDemo.busy = Ret s' ∧ queues s' (dequeue 2 SchedDemo.Q).
Proof.
  destruct (runqueue_refines_lists 0 2 SchedDemo.busy SchedDemo.Q (proj1 SchedDemo.busy_queues)) as [_ (s' & He & Hq & _)];
    [by_eval|by_eval|by_eval|]. exists s'. exact (conj He Hq).
Defined.

Lemma schedule_correct_witness :
  ∃ s', schedule 0 SchedDemo.busy = Ret s' ∧ switched 0 3 2 true SchedDemo.busy s' SchedDemo.Q.
Proof.
  destruct (schedule_correct 0 3 SchedDemo.busy SchedDemo.Q (ru_on _ _ _ _ SchedDemo.busy_running)) as (s' & He & Hs).
  - intros z Hz. assert (z = 0%nat) as -> by (injection Hz; congruence). by_eval.
  - exists s'. exact (conj He Hs).
Defined.

Lemma schedule_starves_witness :
  ∃ s' Q', schedules 7 0 SchedDemo.busy = Ret s' ∧ queues s' Q' ∧ Q' 0%nat = [3; 1]%nat.
Proof.
  destruct (schedule_starves 0 3 2 [1%nat] SchedDemo.busy SchedDemo.Q) with (k := 7%nat) as (s' & Q' & He & Hq & _ & HQ).
  - constructor; [exact SchedDemo.busy_running|done|by_eval|split; by_eval|split; by_eval|].
    intros d Hd. apply SchedDemo.busy_cpus, Hd.
  - exists s', Q'. exact (conj He (conj Hq HQ)).
Defined.

Lemma sched_tick_wakes_witness :
  ∃ Q', queues (sched_tick 0 SchedDemo.asleep) Q' ∧ ∃ c, 3%nat ∈ Q' c.
Proof.
  destruct (sched_tick_wakes 0 SchedDemo.asleep SchedDemo.Q) as (Q' & Hq & Hw).
  - apply queues_upd_task; [exact (proj1 SchedDemo.busy_queues)|done].
  - constructor; by_eval.
  - exists Q'. split; [exact Hq|]. specialize (Hw 3%nat ltac:(by_eval)).
    rewrite decide_True in Hw by by_eval. apply Hw.
Defined.

Lemma schedule_loses_wakeup_witness :
  ∃ s', schedule 0 (upd_task 3 (set_state T_RUNNABLE) SchedDemo.busy) = Ret s' ∧ rq_cpu (tasks s' 3) = -1.
Proof.
  destruct (schedule_loses_wakeup 0 3 2 [1%nat] (upd_task 3 (set_state T_RUNNABLE) SchedDemo.busy) SchedDemo.Q)
    as (s' & He & Hl).
  - exact (SchedDemo.running_upd _ _ _ _ _ SchedDemo.busy_running).
  - by_eval.
  - reflexivity.
  - exact (SchedDemo.cpus_upd_task (λ c, ∀ d i, cur (c d) = Some i ∨ idle (c d) = Some i → (i < NR_TASKS)%nat)
      3 _ SchedDemo.busy SchedDemo.busy_slots).
  - exact (SchedDemo.cpus_upd_task (λ c, ∀ d, idle (c d) ≠ Some 3%nat ∧ (d ≠ 0%nat → cur (c d) ≠ Some 3%nat))
      3 _ SchedDemo.busy SchedDemo.busy_three).
  - exists s'. split; [exact He|]. apply (Hl s'). constructor.
Defined.
