(* ===== verification/Input.v ===== *)
(** Keyboard and serial input ([kernel/isr.c]): the translation of scancodes,
    the ring buffers of the console and of the raw key queue, and the wake-up
    of the task that waits on them. *)
From S2P Require Import Prelude Sched SchedFacts SchedRun.

(** ** Ring buffers *)

Record ring := Ring { cells : nat → Z; rd : nat; wr : nat }.

(** The write index is advanced only when the slot behind it is not the read
    index, so a buffer of [n] cells holds [n - 1] values. *)
Definition ring_full (n : nat) (b : ring) : bool := (S (wr b) mod n =? rd b)%nat.
Definition ring_put (n : nat) (v : Z) (b : ring) : ring :=
  Ring (<[wr b := v]> (cells b)) (rd b) (S (wr b) mod n).
Definition ring_pop (n : nat) (b : ring) : option Z * ring :=
  if (rd b =? wr b)%nat then (None, b)
  else (Some (cells b (rd b)), Ring (cells b) (S (rd b) mod n) (wr b)).

Definition INBUF_SZ : nat := 256.
Definition KEYQ_SZ : nat := 64.

(** The file-scope variables, and the scheduler that a push calls into. *)
Record input := Input {
  shift_pressed : bool;
  capslock_on : bool;
  kbd_ext : bool;
  inbuf : ring;
  keyq : ring;
  con_waiter : option nat;
  key_waiter : option nat;
  isch : sched;
}.

Definition set_keys (sh caps ext : bool) (k : input) : input :=
  Input sh caps ext (inbuf k) (keyq k) (con_waiter k) (key_waiter k) (isch k).
Definition set_inbuf (b : ring) (k : input) : input :=
  Input (shift_pressed k) (capslock_on k) (kbd_ext k) b (keyq k) (con_waiter k) (key_waiter k) (isch k).
Definition set_keyq (b : ring) (k : input) : input :=
  Input (shift_pressed k) (capslock_on k) (kbd_ext k) (inbuf k) b (con_waiter k) (key_waiter k) (isch k).
Definition set_con_waiter (w : option nat) (k : input) : input :=
  Input (shift_pressed k) (capslock_on k) (kbd_ext k) (inbuf k) (keyq k) w (key_waiter k) (isch k).
Definition set_key_waiter (w : option nat) (k : input) : input :=
  Input (shift_pressed k) (capslock_on k) (kbd_ext k) (inbuf k) (keyq k) (con_waiter k) w (isch k).
Definition set_isch (s : sched) (k : input) : input :=
  Input (shift_pressed k) (capslock_on k) (kbd_ext k) (inbuf k) (keyq k) (con_waiter k) (key_waiter k) s.

Definition console_waiter_arm (t : nat) (k : input) : input := set_con_waiter (Some t) k.
Definition console_waiter_disarm (t : nat) (k : input) : input :=
  if decide (con_waiter k = Some t) then set_con_waiter None k else k.
Definition key_waiter_arm (t : nat) (k : input) : input := set_key_waiter (Some t) k.
Definition key_waiter_disarm (t : nat) (k : input) : input :=
  if decide (key_waiter k = Some t) then set_key_waiter None k else k.

(** The waiter that sleeps becomes runnable and the slot is cleared. *)
Definition wake_task (me w : nat) (k : input) : input :=
  set_isch (runqueue_add me w (upd_task w (set_state T_RUNNABLE) (isch k))) k.
Definition sleeping (w : nat) (k : input) : bool := bool_decide (state (tasks (isch k) w) = T_SLEEPING).

Definition input_push (me : nat) (c : Z) (k : input) : input :=
  if ring_full INBUF_SZ (inbuf k) then k else
  let k := set_inbuf (ring_put INBUF_SZ (i8 c) (inbuf k)) k in
  match con_waiter k with
  | Some w => if sleeping w k then wake_task me w (set_con_waiter None k) else k
  | None => k
  end.

Definition input_pop (k : input) : Z * input :=
  let '(c, b) := ring_pop INBUF_SZ (inbuf k) in (default LNXRM_EFAIL c, set_inbuf b k).

Definition keyq_push (me : nat) (ev : Z) (k : input) : input :=
  if ring_full KEYQ_SZ (keyq k) then k else
  let k := set_keyq (ring_put KEYQ_SZ (u32 ev) (keyq k)) k in
  match key_waiter k with
  | Some w => if sleeping w k then wake_task me w (set_key_waiter None k) else k
  | None => k
  end.

Definition keyq_pop (k : input) : Z * input :=
  let '(ev, b) := ring_pop KEYQ_SZ (keyq k) in (match ev with Some v => i32 v | None => -1 end, set_keyq b k).

(** ** The keyboard *)

Definition kmap : list Z :=
  [0; 27; 49; 50; 51; 52; 53; 54; 55; 56; 57; 48; 45; 61; 8;
   9; 113; 119; 101; 114; 116; 121; 117; 105; 111; 112; 91; 93; 10;
   0; 97; 115; 100; 102; 103; 104; 106; 107; 108; 59; 39; 96;
   0; 92; 122; 120; 99; 118; 98; 110; 109; 44; 46; 47;
   0; 42; 0; 32; 0].
Definition kmap_shift : list Z :=
  [0; 27; 33; 64; 35; 36; 37; 94; 38; 42; 40; 41; 95; 43; 8;
   9; 81; 87; 69; 82; 84; 89; 85; 73; 79; 80; 123; 125; 10;
   0; 65; 83; 68; 70; 71; 72; 74; 75; 76; 58; 34; 126;
   0; 124; 90; 88; 67; 86; 66; 78; 77; 60; 62; 63;
   0; 42; 0; 32; 0].

(** Entries past the initialisers are 0. *)
Definition key (m : list Z) (code : Z) : Z := default 0 (m !! Z.to_nat code).

Definition SC_LSHIFT : Z := 0x2A.
Definition SC_RSHIFT : Z := 0x36.
Definition SC_CAPSLOCK : Z := 0x3A.

Definition kbd_char (shift caps : bool) (code : Z) : Z :=
  let c := if shift then key kmap_shift code else key kmap code in
  if caps && (97 <=? c) && (c <=? 122) then c - 97 + 65
  else if caps && (65 <=? c) && (c <=? 90) then c - 65 + 97
  else c.

Definition kbd_process_sc (me : nat) (sc : Z) (k : input) : input :=
  if sc =? 0xE0 then set_keys (shift_pressed k) (capslock_on k) true k else
  let release := negb (Z.land sc 0x80 =? 0) in
  let ext := kbd_ext k in
  let code := Z.land sc 0x7f in
  let k := set_keys (shift_pressed k) (capslock_on k) false k in
  if (code =? SC_LSHIFT) || (code =? SC_RSHIFT) then set_keys (negb release) (capslock_on k) false k else
  if code =? SC_CAPSLOCK then
    if release then k else set_keys (shift_pressed k) (negb (capslock_on k)) false k else
  if release then k else
  let typed := negb ext && (code <? 128) && negb (key kmap code =? 0) in
  let c := if typed then kbd_char (shift_pressed k) (capslock_on k) code else 0 in
  let k := if typed then input_push me c k else k in
  keyq_push me (Z.lor (Z.lor (Z.shiftl (Z.b2z ext) 16) (Z.shiftl code 8)) (u8 c)) k.

(** The bytes the UART holds, in order; it then reports a negative value. *)
Definition serial_rx_handler (me : nat) (rx : list Z) (k : input) : input :=
  foldl (λ k c, input_push me c k) k rx.

(** ** The buffers are bounded queues *)

Definition ring_ok (n : nat) (b : ring) : Prop := (rd b < n ∧ wr b < n)%nat.
Definition ring_len (n : nat) (b : ring) : nat := ((wr b + n - rd b) mod n)%nat.
Definition contents (n : nat) (b : ring) : list Z :=
  (λ i, cells b ((rd b + i) mod n)%nat) <$> seq 0 (ring_len n b).

(** Indices move by one step around the ring. *)
Lemma mod_step n i : (i < n)%nat → (S i mod n = if decide (S i = n) then 0 else S i)%nat.
Proof.
  intros Hi. destruct (decide (S i = n)) as [->|]; [by apply Nat.Div0.mod_same|apply Nat.mod_small; lia].
Qed.

Lemma ring_len_eq n b : ring_ok n b →
  ring_len n b = (if decide (rd b ≤ wr b) then wr b - rd b else wr b + n - rd b)%nat.
Proof.
  intros [Hr Hw]. unfold ring_len. destruct (decide (rd b ≤ wr b)%nat).
  - replace (wr b + n - rd b)%nat with (wr b - rd b + 1 * n)%nat by lia. rewrite Nat.Div0.mod_add. apply Nat.mod_small. lia.
  - apply Nat.mod_small. lia.
Qed.

Lemma mod_wrap n a i : (a < n → i < n → (a + i) mod n = if decide (a + i < n) then a + i else a + i - n)%nat.
Proof.
  intros Ha Hi. destruct (decide (a + i < n)%nat); [apply Nat.mod_small; lia|].
  replace (a + i)%nat with (a + i - n + 1 * n)%nat at 1 by lia. rewrite Nat.Div0.mod_add. apply Nat.mod_small. lia.
Qed.

Lemma length_contents n b : length (contents n b) = ring_len n b.
Proof. unfold contents. by rewrite length_fmap, length_seq. Qed.

Lemma ring_len_lt n b : ring_ok n b → (ring_len n b < n)%nat.
Proof. intros [Hr Hw]. rewrite ring_len_eq by done. destruct (decide _); lia. Qed.

Lemma ring_full_len n b : ring_ok n b → ring_full n b = true ↔ ring_len n b = (n - 1)%nat.
Proof.
  intros Hok. pose proof Hok as [Hr Hw]. unfold ring_full. rewrite Nat.eqb_eq, mod_step, ring_len_eq by done.
  destruct (decide (S (wr b) = n)), (decide (rd b ≤ wr b)%nat); lia.
Qed.

Lemma ring_put_spec n v b : ring_ok n b → ring_full n b = false →
  ring_ok n (ring_put n v b) ∧ contents n (ring_put n v b) = contents n b ++ [v].
Proof.
  intros Hok Hf. pose proof Hok as [Hr Hw].
  assert (ring_len n b ≠ n - 1)%nat as Hl by (rewrite <- ring_full_len by done; by rewrite Hf).
  assert (ring_ok n (ring_put n v b)) as Hok'.
  { split; cbn [ring_put rd wr]; [done|]. rewrite mod_step by done. destruct (decide _); lia. }
  split; [done|]. pose proof (ring_len_lt n b Hok) as Hlt.
  assert (ring_len n (ring_put n v b) = S (ring_len n b)) as Hlen.
  { rewrite (ring_len_eq _ _ Hok'), (ring_len_eq _ _ Hok) in *. cbn [ring_put rd wr] in *. rewrite mod_step by done.
    destruct (decide (S (wr b) = n)), (decide (rd b ≤ wr b)%nat); repeat destruct (decide _); lia. }
  unfold contents. rewrite Hlen, seq_S, fmap_app. cbn [Nat.add fmap list_fmap]. f_equal.
  - apply list_fmap_ext. intros i j [-> Hi]%lookup_seq. cbn [Nat.add ring_put rd cells]. rewrite fn_lookup_insert_ne; [done|].
    rewrite mod_wrap by lia. rewrite (ring_len_eq _ _ Hok) in *. repeat destruct (decide _); lia.
  - cbn [ring_put rd cells]. rewrite mod_wrap by lia. rewrite ring_len_eq by done.
    replace (if decide _ then _ else _)%nat with (wr b); [by rewrite fn_lookup_insert|].
    rewrite (ring_len_eq _ _ Hok) in *. repeat destruct (decide _); lia.
Qed.

Lemma ring_pop_spec n b : ring_ok n b →
  ring_ok n (ring_pop n b).2 ∧ (ring_pop n b).1 = head (contents n b) ∧
  contents n (ring_pop n b).2 = tail (contents n b).
Proof.
  intros Hok. pose proof Hok as [Hr Hw]. unfold ring_pop. destruct (Nat.eqb_spec (rd b) (wr b)) as [He|Hne].
  { cbn [fst snd]. assert (contents n b = []) as ->; [|done].
    apply nil_length_inv. rewrite length_contents, ring_len_eq, decide_True by (done || lia). lia. }
  cbn [fst snd]. set (b' := Ring _ _ _).
  assert (ring_ok n b') as Hok' by (split; cbn; [rewrite mod_step by done; destruct (decide _); lia|done]).
  assert (ring_len n b = S (ring_len n b')) as Hlen.
  { rewrite (ring_len_eq _ _ Hok'), (ring_len_eq _ _ Hok). cbn [b' rd wr]. rewrite mod_step by done.
    repeat destruct (decide _); lia. }
  pose proof (ring_len_lt n b Hok) as Hlt. split; [done|].
  unfold contents. rewrite Hlen. cbn [seq fmap list_fmap head tail]. split.
  - rewrite Nat.add_0_r, Nat.mod_small by done. done.
  - rewrite <- fmap_S_seq, <- list_fmap_compose. apply list_fmap_ext. intros i j [-> Hi]%lookup_seq.
    unfold compose. cbn [Nat.add]. replace (cells b') with (cells b) by done. f_equal. change (rd b') with (S (rd b) mod n)%nat.
    rewrite mod_step by done. rewrite (mod_wrap n (rd b) (S i)) by lia.
    destruct (decide (S (rd b) = n)) as [Hs|Hs].
    + rewrite Nat.mod_small by lia. destruct (decide _); lia.
    + rewrite (mod_wrap n (S (rd b)) i) by lia. repeat destruct (decide _); lia.
Qed.

(** ** What the kernel reads *)

Definition console (k : input) : list Z := contents INBUF_SZ (inbuf k).
Definition events (k : input) : list Z := contents KEYQ_SZ (keyq k).
Definition rings_ok (k : input) : Prop := ring_ok INBUF_SZ (inbuf k) ∧ ring_ok KEYQ_SZ (keyq k).

(** A bounded queue drops what does not fit. *)
Definition put_bounded (n : nat) (v : Z) (q : list Z) : list Z := take n (q ++ [v]).

Lemma put_full n v b : ring_ok (S n) b → ring_full (S n) b = true → contents (S n) b = put_bounded n v (contents (S n) b).
Proof.
  intros Hok Hf. apply ring_full_len in Hf; [|done]. unfold put_bounded.
  rewrite take_app_le, take_ge by (rewrite length_contents; lia). done.
Qed.

Lemma put_room n v b : ring_ok (S n) b → ring_full (S n) b = false →
  contents (S n) (ring_put (S n) v b) = put_bounded n v (contents (S n) b).
Proof.
  intros Hok Hf. destruct (ring_put_spec (S n) v b Hok Hf) as [_ ->]. unfold put_bounded. rewrite take_ge; [done|].
  rewrite length_app, length_contents. cbn [length]. pose proof (ring_len_lt _ _ Hok).
  assert (ring_len (S n) b ≠ S n - 1)%nat by (rewrite <- ring_full_len by done; by rewrite Hf). lia.
Qed.

Lemma input_push_spec me c k : rings_ok k →
  rings_ok (input_push me c k) ∧ console (input_push me c k) = put_bounded 255 (i8 c) (console k) ∧
  events (input_push me c k) = events k ∧ shift_pressed (input_push me c k) = shift_pressed k ∧
  capslock_on (input_push me c k) = capslock_on k.
Proof.
  intros [Hi Hk]. unfold input_push. destruct (ring_full INBUF_SZ (inbuf k)) eqn:E.
  { split_and!; try done. by apply (put_full 255). }
  set (k1 := set_inbuf _ k).
  set (k2 := match con_waiter k1 with Some w => if sleeping w k1 then wake_task me w (set_con_waiter None k1) else k1 | None => k1 end).
  assert (inbuf k2 = ring_put INBUF_SZ (i8 c) (inbuf k) ∧ keyq k2 = keyq k ∧ shift_pressed k2 = shift_pressed k ∧
    capslock_on k2 = capslock_on k) as (Hb & Hq & Hs & Hc).
  { unfold k2. destruct (con_waiter k1) as [w|]; [destruct (sleeping w k1)|]; done. }
  clearbody k2. unfold rings_ok, console, events. rewrite Hb, Hq. split_and!; try done.
  - by apply ring_put_spec.
  - by apply (put_room 255).
Qed.

Lemma keyq_push_spec me ev k : rings_ok k →
  rings_ok (keyq_push me ev k) ∧ events (keyq_push me ev k) = put_bounded 63 (u32 ev) (events k) ∧
  console (keyq_push me ev k) = console k.
Proof.
  intros [Hi Hk]. unfold keyq_push. destruct (ring_full KEYQ_SZ (keyq k)) eqn:E.
  { split_and!; try done. by apply (put_full 63). }
  set (k1 := set_keyq _ k).
  set (k2 := match key_waiter k1 with Some w => if sleeping w k1 then wake_task me w (set_key_waiter None k1) else k1 | None => k1 end).
  assert (keyq k2 = ring_put KEYQ_SZ (u32 ev) (keyq k) ∧ inbuf k2 = inbuf k) as (Hb & Hq).
  { unfold k2. destruct (key_waiter k1) as [w|]; [destruct (sleeping w k1)|]; done. }
  clearbody k2. unfold rings_ok, console, events. rewrite Hb, Hq. split_and!; try done.
  - by apply ring_put_spec.
  - by apply (put_room 63).
Qed.

(** Interrupt handlers push and system calls pop, in any order. *)
Inductive in_op := OPush (c : Z) | OPop | OKey (ev : Z) | OKeyPop.

Definition in_step (me : nat) (o : in_op) (k : input) : option Z * input :=
  match o with
  | OPush c => (None, input_push me c k)
  | OPop => let '(c, k) := input_pop k in (Some c, k)
  | OKey ev => (None, keyq_push me ev k)
  | OKeyPop => let '(ev, k) := keyq_pop k in (Some ev, k)
  end.

(** The same on two queues. *)
Definition spec_step (o : in_op) (q : list Z * list Z) : option Z * (list Z * list Z) :=
  match o with
  | OPush c => (None, (put_bounded 255 (i8 c) q.1, q.2))
  | OPop => (Some (default LNXRM_EFAIL (head q.1)), (tail q.1, q.2))
  | OKey ev => (None, (q.1, put_bounded 63 (u32 ev) q.2))
  | OKeyPop => (Some (from_option i32 (-1) (head q.2)), (q.1, tail q.2))
  end.

Fixpoint run {A} (step : in_op → A → option Z * A) (os : list in_op) (a : A) : list (option Z) * A :=
  match os with
  | [] => ([], a)
  | o :: os => let '(r, a) := step o a in let '(rs, a) := run step os a in (r :: rs, a)
  end.

Lemma in_step_refines me o k : rings_ok k →
  let q := (console k, events k) in
  rings_ok (in_step me o k).2 ∧ (in_step me o k).1 = (spec_step o q).1 ∧
  (console (in_step me o k).2, events (in_step me o k).2) = (spec_step o q).2.
Proof.
  intros Hok. pose proof Hok as [Hi Hk]. destruct o as [c| |ev|]; cbn [in_step spec_step fst snd].
  - destruct (input_push_spec me c k Hok) as (? & -> & -> & _). done.
  - unfold input_pop. destruct (ring_pop_spec _ _ Hi) as (Hb & Hr & Hc).
    destruct (ring_pop INBUF_SZ (inbuf k)) as [r b]. cbn [fst snd] in *. unfold console, events in *. cbn [set_inbuf inbuf keyq].
    rewrite Hr, Hc. done.
  - destruct (keyq_push_spec me ev k Hok) as (? & -> & ->). done.
  - unfold keyq_pop. destruct (ring_pop_spec _ _ Hk) as (Hb & Hr & Hc).
    destruct (ring_pop KEYQ_SZ (keyq k)) as [r b]. cbn [fst snd] in *. unfold console, events in *. cbn [set_keyq inbuf keyq].
    rewrite Hr, Hc. split_and!; [done| |done]. by destruct (head _).
Qed.

(** C38. The input buffers are queues: any interleaving of arriving bytes, key
    events and reads returns what two first-in first-out queues of 255 bytes
    and 63 events return, which drop what arrives when they are full.  Bytes
    are signed, so a byte of 128 or more is read as a negative number. *)
Theorem input_refines_queues me os k : rings_ok k →
  let r := run (in_step me) os k in
  let q := run spec_step os (console k, events k) in
  r.1 = q.1 ∧ (console r.2, events r.2) = q.2.
Proof.
  revert k. induction os as [|o os IH]; intros k Hok; [done|]. cbn [run].
  destruct (in_step_refines me o k Hok) as (Hok' & Hr & Hq).
  destruct (in_step me o k) as [r k'], (spec_step o (console k, events k)) as [r' q']. cbn [fst snd] in *. subst r' q'.
  specialize (IH k' Hok'). destruct (run (in_step me) os k') as [rs k''], (run spec_step os _) as [rs' q'']. cbn [fst snd] in *.
  destruct IH as [-> ->]. done.
Qed.

(** ** The keyboard *)

(** A check of every scancode. *)
Lemma all_codes (P : Z → bool) : forallb (λ i : nat, P (Z.of_nat i)) (seq 0 128) = true →
  ∀ code, 0 ≤ code < 128 → P code = true.
Proof.
  rewrite forallb_forall. intros Hall code Hc. rewrite <- (Z2Nat.id code) by lia. apply Hall, in_seq. lia.
Qed.

Lemma kbd_char_range sh caps code : 0 ≤ code < 128 → 0 ≤ kbd_char sh caps code < 128.
Proof.
  intros Hc. apply (all_codes (λ code, (0 <=? kbd_char sh caps code) && (kbd_char sh caps code <? 128))) in Hc.
  - apply andb_prop in Hc as [? ?]. lia.
  - destruct sh, caps; vm_compute; reflexivity.
Qed.

Definition is_letter (code : Z) : bool := (97 <=? key kmap code) && (key kmap code <=? 122).

Lemma kbd_char_case sh caps code : 0 ≤ code < 128 →
  kbd_char sh caps code =
    if is_letter code then if xorb sh caps then key kmap code - 32 else key kmap code
    else if sh then key kmap_shift code else key kmap code.
Proof.
  intros Hc. apply (all_codes (λ code, kbd_char sh caps code =?
    if is_letter code then if xorb sh caps then key kmap code - 32 else key kmap code
    else if sh then key kmap_shift code else key kmap code)) in Hc; [by apply Z.eqb_eq|].
  destruct sh, caps; vm_compute; reflexivity.
Qed.

(** The event packs the scancode and the character into separate bytes. *)
Lemma event_value code c : 0 ≤ code < 128 → 0 ≤ c < 128 →
  u32 (Z.lor (Z.lor (Z.shiftl 0 16) (Z.shiftl code 8)) (u8 c)) = code * 256 + c.
Proof.
  intros Hc Hd. rewrite (u8_small c), Z.shiftl_0_l, Z.lor_0_l, Z.shiftl_mul_pow2 by lia.
  assert (Z.land (code * 2 ^ 8) c = 0) as Hz.
  { apply Z.bits_inj'. intros n Hn. rewrite Z.land_spec, Z.bits_0. destruct (Z.lt_ge_cases n 8).
    - by rewrite Z.mul_pow2_bits_low by lia.
    - rewrite <- (Z.mod_small c (2 ^ 8)) by lia. rewrite Z.mod_pow2_bits_high by lia. apply andb_false_r. }
  rewrite <- Z.lxor_lor, <- Z.add_nocarry_lxor by done. apply u32_small. lia.
Qed.

(** A key press reaches the readers: a press of an ordinary key appends one
    event with its scancode and character to the key queue, and its character
    to the console when the key has one; letters come out in upper case
    exactly when one of shift and caps lock is on, other keys by shift alone.
    A release appends nothing. *)
Theorem kbd_press_correct me code k : rings_ok k → 0 ≤ code < 128 →
  code ≠ SC_LSHIFT → code ≠ SC_RSHIFT → code ≠ SC_CAPSLOCK → kbd_ext k = false →
  let c := if is_letter code then if xorb (shift_pressed k) (capslock_on k) then key kmap code - 32 else key kmap code
           else if shift_pressed k then key kmap_shift code else key kmap code in
  let k' := kbd_process_sc me code k in
  console k' = (if key kmap code =? 0 then console k else put_bounded 255 c (console k)) ∧
  events k' = put_bounded 63 (code * 256 + (if key kmap code =? 0 then 0 else c)) (events k) ∧
  let k'' := kbd_process_sc me (code + 128) k in console k'' = console k ∧ events k'' = events k.
Proof.
  intros Hok Hc H1 H2 H3 Hext c k'. unfold c. rewrite <- kbd_char_case by done.
  pose proof (kbd_char_range (shift_pressed k) (capslock_on k) code Hc) as Hr.
  set (ch := kbd_char (shift_pressed k) (capslock_on k) code) in *. split; [|split].
  1,2: assert (Z.land code 0x80 = 0 ∧ Z.land code 0x7f = code) as [Hrel Hcode]
    by (apply (all_codes (λ code, (Z.land code 0x80 =? 0) && (Z.land code 0x7f =? code))) in Hc; [lia|vm_compute; reflexivity]).
  1,2: unfold k', kbd_process_sc; rewrite (proj2 (Z.eqb_neq code 0xE0)), Hrel, Hcode by lia;
    rewrite !(proj2 (Z.eqb_neq code _)) by done; rewrite Hext; cbn [Z.eqb negb orb andb];
    rewrite (proj2 (Z.ltb_lt code 128)) by lia; cbn [andb];
    change (shift_pressed (set_keys _ _ _ k)) with (shift_pressed k);
    change (capslock_on (set_keys _ _ _ k)) with (capslock_on k); fold ch.
  1,2: set (k1 := set_keys _ _ _ k); assert (rings_ok k1) as Hok1 by done.
  1,2: destruct (key kmap code =? 0); cbn [negb Z.b2z].
  - by destruct (keyq_push_spec me (Z.lor (Z.lor (Z.shiftl 0 16) (Z.shiftl code 8)) (u8 0)) k1 Hok1) as (_ & _ & ->).
  - destruct (input_push_spec me ch k1 Hok1) as (Hok2 & Hcon & _).
    destruct (keyq_push_spec me (Z.lor (Z.lor (Z.shiftl 0 16) (Z.shiftl code 8)) (u8 ch)) _ Hok2) as (_ & _ & ->).
    rewrite Hcon. unfold i8. by rewrite sgn_small by lia.
  - destruct (keyq_push_spec me (Z.lor (Z.lor (Z.shiftl 0 16) (Z.shiftl code 8)) (u8 0)) k1 Hok1) as (_ & -> & _).
    by rewrite event_value by lia.
  - destruct (input_push_spec me ch k1 Hok1) as (Hok2 & _ & Hev & _).
    destruct (keyq_push_spec me (Z.lor (Z.lor (Z.shiftl 0 16) (Z.shiftl code 8)) (u8 ch)) _ Hok2) as (_ & -> & _).
    by rewrite Hev, event_value by lia.
  - unfold kbd_process_sc. destruct (Z.eqb_spec (code + 128) 0xE0); [done|].
    assert (Z.land (code + 128) 0x80 = 128 ∧ Z.land (code + 128) 0x7f = code) as [-> ->]
      by (apply (all_codes (λ code, (Z.land (code + 128) 0x80 =? 128) && (Z.land (code + 128) 0x7f =? code))) in Hc; [lia|vm_compute; reflexivity]).
    rewrite !(proj2 (Z.eqb_neq code _)) by done. done.
Qed.

(** A byte that arrives wakes the reader that sleeps on the console: it is
    runnable, on exactly one run queue, and no longer registered. *)
Theorem input_push_wakes me c k w Q : rings_ok k → (length (console k) < 255)%nat → con_waiter k = Some w →
  state (tasks (isch k) w) = T_SLEEPING → queues (isch k) Q → rq_cpu (tasks (isch k) w) = -1 →
  (me < MAX_CPUS)%nat → started (cpus (isch k) me) = true → (w < NR_TASKS)%nat →
  let k' := input_push me c k in
  con_waiter k' = None ∧ state (tasks (isch k') w) = T_RUNNABLE ∧
  ∃ cpu, queues (isch k') (enqueue cpu w Q) ∧ w ∉ Q cpu.
Proof.
  intros [Hi _] Hlen Hw Hs Hq Hrq Hme Hst Hwt k'. unfold k', input_push.
  destruct (ring_full INBUF_SZ (inbuf k)) eqn:E.
  { apply ring_full_len in E; [|done]. unfold console in Hlen. rewrite length_contents, E in Hlen. cbn in Hlen. lia. }
  set (k1 := set_inbuf _ k). change (con_waiter k1) with (con_waiter k). rewrite Hw.
  unfold sleeping. rewrite bool_decide_eq_true_2 by done. split; [done|]. cbn [wake_task set_isch set_con_waiter isch].
  change (isch k1) with (isch k). set (s1 := upd_task w (set_state T_RUNNABLE) (isch k)).
  assert (queues s1 Q) as Hq1 by (by apply queues_upd_task).
  assert (rq_cpu (tasks s1 w) = -1) as Hrq1 by (unfold s1; by rewrite tasks_upd, decide_True).
  destruct (runqueue_add_spec me w s1 Q Hq1 Hme Hst Hwt Hrq1) as [Hq2 [Hcore _]]. split.
  - change (state (core (tasks (runqueue_add me w s1) w)) = T_RUNNABLE). rewrite Hcore. unfold s1. by rewrite tasks_upd, decide_True.
  - eexists. split; [exact Hq2|]. rewrite (q_cpu _ _ Hq). intros (_ & _ & Hbad). lia.
Qed.

Module InputDemo.
(** Buffers that are about to wrap; task 3 reads the console. *)
Definition k0 : input :=
  Input false true false (Ring (λ _, 0) 255 255) (Ring (λ _, 0) 63 63) (Some 3%nat) None SchedDemo.asleep.
Lemma k0_ok : rings_ok k0.
Proof. split; split; by_eval. Qed.
Lemma k0_queues : queues (isch k0) SchedDemo.Q.
Proof. apply queues_upd_task; [exact (proj1 SchedDemo.busy_queues)|done]. Qed.
End InputDemo.

Lemma input_refines_queues_witness :
  (run (in_step 0) [OPush 65; OPush 200; OKey 7; OPop; OPop; OPop; OKeyPop] InputDemo.k0).1 =
  [None; None; None; Some 65; Some (-56); Some (-1); Some 7].
Proof.
  rewrite (proj1 (input_refines_queues 0 [OPush 65; OPush 200; OKey 7; OPop; OPop; OPop; OKeyPop] InputDemo.k0 InputDemo.k0_ok)).
  vm_compute. reflexivity.
Defined.

(** With caps lock on, the key [a] gives [A]. *)
Lemma kbd_press_correct_witness :
  console (kbd_process_sc 0 30 InputDemo.k0) = [65] ∧ events (kbd_process_sc 0 30 InputDemo.k0) = [30 * 256 + 65].
Proof.
  destruct (kbd_press_correct 0 30 InputDemo.k0 InputDemo.k0_ok ltac:(by_eval) ltac:(by_eval) ltac:(by_eval)
    ltac:(by_eval) ltac:(by_eval)) as (Hc & He & _).
  rewrite Hc, He. split; vm_compute; reflexivity.
Defined.

Lemma input_push_wakes_witness :
  con_waiter (input_push 0 10 InputDemo.k0) = None ∧
  state (tasks (isch (input_push 0 10 InputDemo.k0)) 3) = T_RUNNABLE.
Proof.
  destruct (input_push_wakes 0 10 InputDemo.k0 3 SchedDemo.Q InputDemo.k0_ok ltac:(by_eval) eq_refl ltac:(by_eval)
    InputDemo.k0_queues ltac:(by_eval) ltac:(by_eval)
    ltac:(by_eval) ltac:(by_eval)) as (Hw & Hs & _). exact (conj Hw Hs).
Defined.
