(* ===== verification/Proc.v ===== *)
(** Processes: the state that the process system calls share, the descriptor
    table ([fd_get], [sys_close], [sys_dup2], [vfs_close_file] and
    [file_alloc] of [kernel/fs/vfs.c]), sending a signal ([send_signal] of
    [kernel/signal.c]) and exit ([sys_exit] of [kernel/task.c]).

    The scheduler's fields of [struct task] are those of [Sched]; [proc] has
    the others.  An object that the kernel allocates ([struct file]) is a
    heap block together with its typed contents, found by its address. *)
From S2P Require Import Prelude Pmm PmmFacts PmmInit Frames Kheap Vmm Sched.

Record intr_frame := IntrFrame {
  r15 : Z; r14 : Z; r13 : Z; r12 : Z;
  r11 : Z; r10 : Z; r9 : Z; r8 : Z;
  rbp : Z; rdi : Z; rsi : Z; rdx : Z; rcx : Z; rax : Z;
  rbx : Z;
  intno : Z;
  err : Z;
  rip : Z; cs : Z; rflags : Z; ussp : Z; usss : Z;
}.

(** The frame [tf] points to, the kernel stack, the heap bounds and the open
    files of a task. *)
Record proc := Proc {
  tf : option intr_frame;
  kstack : Z;
  brk_base : Z;
  brk_cur : Z;
  fds : nat → option Z;
}.
Definition NR_FDS : nat := 16.

Definition set_tf (f : option intr_frame) (p : proc) : proc := Proc f (kstack p) (brk_base p) (brk_cur p) (fds p).
Definition set_kstack (a : Z) (p : proc) : proc := Proc (tf p) a (brk_base p) (brk_cur p) (fds p).
Definition set_brk_base (a : Z) (p : proc) : proc := Proc (tf p) (kstack p) a (brk_cur p) (fds p).
Definition set_brk_cur (a : Z) (p : proc) : proc := Proc (tf p) (kstack p) (brk_base p) a (fds p).
Definition set_fds (g : nat → option Z) (p : proc) : proc := Proc (tf p) (kstack p) (brk_base p) (brk_cur p) g.

(** [struct file]; [f_data] is what [priv] points to. *)
Inductive file_ops := console_fops | reg_fops | dir_fops.
Record file (N : Type) := File {
  f_ops : file_ops;
  f_pos : Z;
  f_priv : Z;
  f_data : option N;
  f_is_dir : bool;
  f_flags : Z;
  refcnt : Z;
}.
Arguments File {N}.
Arguments f_ops {N}.
Arguments f_pos {N}.
Arguments f_priv {N}.
Arguments f_data {N}.
Arguments f_is_dir {N}.
Arguments f_flags {N}.
Arguments refcnt {N}.

Definition set_refcnt {N} (n : Z) (f : file N) : file N :=
  File (f_ops f) (f_pos f) (f_priv f) (f_data f) (f_is_dir f) (f_flags f) n.

Definition FILE_SIZE : Z := 40.  (* sizeof(struct file) *)
Definition VNODE_SIZE : Z := 40. (* sizeof(struct vnode) *)
Definition ITER_SIZE : Z := 32.  (* sizeof(struct dir_iter) *)

(** ** The kernel *)

Record kern (S N : Type) := Kern {
  sch : sched;
  hp : heap S;
  procs : nat → proc;
  files : gmap Z (file N);
  pid_counter : Z;
}.
Arguments Kern {S N}.
Arguments sch {S N}.
Arguments hp {S N}.
Arguments procs {S N}.
Arguments files {S N}.
Arguments pid_counter {S N}.

Definition set_sch {S N} (s : sched) (k : kern S N) : kern S N :=
  Kern s (hp k) (procs k) (files k) (pid_counter k).
Definition set_hp {S N} (h : heap S) (k : kern S N) : kern S N :=
  Kern (sch k) h (procs k) (files k) (pid_counter k).
Definition upd_proc {S N} (t : nat) (g : proc → proc) (k : kern S N) : kern S N :=
  Kern (sch k) (hp k) (<[t := g (procs k t)]> (procs k)) (files k) (pid_counter k).
Definition set_files {S N} (m : gmap Z (file N)) (k : kern S N) : kern S N :=
  Kern (sch k) (hp k) (procs k) m (pid_counter k).
Definition set_pid_counter {S N} (n : Z) (k : kern S N) : kern S N :=
  Kern (sch k) (hp k) (procs k) (files k) n.
Definition upd_tk {S N} (t : nat) (g : task → task) (k : kern S N) : kern S N := set_sch (upd_task t g (sch k)) k.

(** ** Signals *)

Definition SIGKILL : Z := 9.
Definition SIGSEGV : Z := 11.
Definition SIGCHLD : Z := 17.
Definition SIGCONT : Z := 18.
Definition SIGSTOP : Z := 19.
Definition NSIG : Z := 32.
Definition SIG_DFL : Z := 0.
Definition SIG_IGN : Z := 1.

Definition sigbit (sig : Z) : Z := Z.shiftl 1 sig.
Definition post (sig : Z) (t : task) : task := set_pending (Z.lor (signal_pending t) (sigbit sig)) t.
Definition handler_of (t : task) (sig : Z) : Z := sa_handler (sa t (Z.to_nat sig)).

(** [if (t->state == ...) { t->state = T_RUNNABLE; runqueue_add(t); }] *)
Definition wake_from (sts : list task_state) (me t : nat) (s : sched) : sched :=
  if bool_decide (state (tasks s t) ∈ sts) then runqueue_add me t (upd_task t (set_state T_RUNNABLE) s) else s.

Definition send_signal (me t : nat) (sig : Z) (s : sched) : sched :=
  if (sig <? 1) || (NSIG <=? sig) then s else
  if sig =? SIGKILL then wake_from [T_SLEEPING] me t (upd_task t (post SIGKILL) s) else
  if sig =? SIGSTOP then wake_from [T_SLEEPING] me t (upd_task t (post SIGSTOP) s) else
  if sig =? SIGCONT then wake_from [T_STOPPED; T_SLEEPING] me t (upd_task t (post SIGCONT) s) else
  if handler_of (tasks s t) sig =? SIG_IGN then s else
  wake_from [T_SLEEPING] me t (upd_task t (post sig) s).

(** ** Descriptors *)
Section fds.
Context {S N : Type} `{Frames S}.
Implicit Types (k : kern S N).

Definition vfs_close_file (p : Z) k : outcome (kern S N) :=
  match files k !! p with
  | None => Stuck
  | Some f =>
      let k := set_files (<[p := set_refcnt (i32 (refcnt f - 1)) f]> (files k)) k in
      if 1 <? refcnt f then Ret k else
      h ← (match f_ops f with dir_fops => kfree (f_priv f) (hp k) | _ => Ret (hp k) end);
      h ← kfree p h;
      Ret (set_files (delete p (files k)) (set_hp h k))
  end.

Definition fd_get (t : nat) (fd : Z) k : option Z :=
  if (fd <? 0) || (Z.of_nat NR_FDS <=? fd) then None else fds (procs k t) (Z.to_nat fd).

Definition set_fd (t : nat) (fd : Z) (p : option Z) k : kern S N :=
  upd_proc t (λ q, set_fds (<[Z.to_nat fd := p]> (fds q)) q) k.

(** [t] is the current task. *)
Definition sys_close (t : nat) (fd : Z) k : outcome (Z * kern S N) :=
  match fd_get t fd k with
  | None => Ret (LNXRM_EBADF, k)
  | Some p => k ← vfs_close_file p (set_fd t fd None k); Ret (0, k)
  end.

Definition get_file (p : Z) k : outcome (kern S N) :=
  match files k !! p with
  | None => Stuck
  | Some f => Ret (set_files (<[p := set_refcnt (i32 (refcnt f + 1)) f]> (files k)) k)
  end.

Definition sys_dup2 (t : nat) (oldfd newfd : Z) k : outcome (Z * kern S N) :=
  if oldfd =? newfd then Ret (if fd_get t oldfd k is Some _ then newfd else -9, k) else
  match fd_get t oldfd k with
  | None => Ret (LNXRM_EBADF, k)
  | Some p =>
      if (newfd <? 0) || (Z.of_nat NR_FDS <=? newfd) then Ret (LNXRM_EBADF, k) else
      k ← (if fds (procs k t) (Z.to_nat newfd) is Some _ then '(_, k) ← sys_close t newfd k; Ret k else Ret k);
      k ← get_file p (set_fd t newfd (Some p) k);
      Ret (newfd, k)
  end.

(** The private object of a file: none for the console, the position in a
    directory, the copy of the node of a regular file. *)
Definition file_alloc (ops : file_ops) (data : option N) (flags : Z) k : outcome (Z * kern S N) :=
  '(p, h) ← kmalloc FILE_SIZE (hp k);
  '(priv, h) ← (match ops with
                | console_fops => Ret (0, h)
                | dir_fops => kmalloc ITER_SIZE h
                | reg_fops => kmalloc VNODE_SIZE h
                end);
  let f := File ops 0 priv data (match ops with dir_fops => true | _ => false end) flags 1 in
  Ret (p, set_files (<[p := f]> (files k)) (set_hp h k)).

(** The end of [sys_open]: the file is put into the first free descriptor. *)
Definition fd_install (t : nat) (p : Z) k : outcome (Z * kern S N) :=
  match for_find (λ i, bool_decide (fds (procs k t) i = None)) 0 NR_FDS with
  | Some i => Ret (Z.of_nat i, set_fd t (Z.of_nat i) (Some p) k)
  | None => k ← vfs_close_file p k; Ret (LNXRM_EMFILE, k)
  end.

(** Fork's copy of the descriptor table. *)
Definition clone_fds (c ch : nat) k : outcome (kern S N) :=
  let k := upd_proc ch (set_fds (fds (procs k c))) k in
  for_loop_o (λ i k, match fds (procs k ch) i with Some p => get_file p k | None => Ret k end) 0 NR_FDS k.

(** ** Exit *)

Definition reparent (c : nat) (s : sched) : sched :=
  let init_t := find_task 1 s in
  for_loop (λ i s,
    if negb (is_unused s i) && negb (i =? c)%nat && bool_decide (parent (tasks s i) = Some c)
    then upd_task i (set_parent init_t) s else s) 0 NR_TASKS s.

Definition close_all (c : nat) k : outcome (kern S N) :=
  for_loop_o (λ i k,
    if fds (procs k c) i is Some _ then '(_, k) ← sys_close c (Z.of_nat i) k; Ret k else Ret k) 0 NR_FDS k.

(** The state after the switch to another task: exit does not return. *)
Definition sys_exit (me : nat) (code : Z) k : outcome (kern S N) :=
  match current me (sch k) with
  | None => Stuck
  | Some c =>
      k ← close_all c k;
      let s := reparent c (sch k) in
      let s := match parent (tasks s c) with Some p => send_signal me p SIGCHLD s | None => s end in
      let s := upd_task c (λ t, set_state T_ZOMBIE (set_exit_code code t)) s in
      s ← runqueue_remove c s;
      let s := match parent (tasks s c) with
               | Some p => if pid (tasks s p) =? 0 then s else wake_from [T_SLEEPING] me p s
               | None => s
               end in
      s ← schedule me s;
      Ret (set_sch s k)
  end.
End fds.
