(* ===== verification/ProcFacts.v ===== *)
(** The descriptor tables of all tasks and the reference counts of the open
    files: every operation of [Proc] keeps the count of a file equal to the
    number of descriptors that refer to it, never touches a file that has been
    released, and gives the file back to the heap with its last descriptor. *)
From S2P Require Import Prelude Pmm PmmFacts PmmInit Frames Kheap KheapFacts Vmm Sched SchedFacts SchedRun Proc.

(** ** Counting descriptors *)

Definition ind (P : Prop) `{Decision P} : Z := if decide P then 1 else 0.

Lemma ind_iff (P Q : Prop) `{Decision P, Decision Q} : (P ↔ Q) → ind P = ind Q.
Proof. unfold ind. intros. repeat destruct (decide _); naive_solver. Qed.
Lemma ind_range (P : Prop) `{Decision P} : 0 ≤ ind P ≤ 1.
Proof. unfold ind. destruct (decide P); lia. Qed.

Lemma filter_ext_in {A} (P Q : A → Prop) `{∀ x, Decision (P x), ∀ x, Decision (Q x)} (l : list A) :
  (∀ x, x ∈ l → P x ↔ Q x) → filter P l = filter Q l.
Proof.
  induction l as [|x l IH]; intros He; [done|]. rewrite !filter_cons.
  rewrite IH by (intros; apply He; by right). specialize (He x (list_elem_of_here _ _)).
  repeat destruct (decide _); naive_solver.
Qed.

(** Changing a table in one place. *)
Lemma count_update {A} (f g : A → option Z) (a : A) (l : list A) p : NoDup l → a ∈ l → (∀ x, x ≠ a → g x = f x) →
  Z.of_nat (length (filter (λ x, g x = Some p) l)) =
  Z.of_nat (length (filter (λ x, f x = Some p) l)) - ind (f a = Some p) + ind (g a = Some p).
Proof.
  intros Hnd Hin Hg. apply list_elem_of_split in Hin as (l1 & l2 & ->).
  apply NoDup_app in Hnd as (_ & Hn1 & [Hn2 _]%NoDup_cons). rewrite !filter_app, !filter_cons, !length_app.
  assert (∀ l : list A, a ∉ l → filter (λ x, g x = Some p) l = filter (λ x, f x = Some p) l) as Hrest.
  { intros l Ha. apply filter_ext_in. intros x Hx. rewrite Hg; [done|]. by intros ->. }
  rewrite (Hrest l1), (Hrest l2) by (done || (intros Ha; apply (Hn1 a Ha), list_elem_of_here)).
  unfold ind. repeat destruct (decide _); cbn [length]; lia.
Qed.

Definition fd_slots : list (nat * nat) := list_prod (seq 0 NR_TASKS) (seq 0 NR_FDS).
Lemma elem_of_fd_slots i j : (i, j) ∈ fd_slots ↔ (i < NR_TASKS)%nat ∧ (j < NR_FDS)%nat.
Proof. unfold fd_slots. rewrite list_elem_of_In, in_prod_iff, !in_seq. lia. Qed.
Lemma NoDup_list_prod {X Y} (l : list X) (l' : list Y) : NoDup l → NoDup l' → NoDup (list_prod l l').
Proof.
  intros Hl Hl'. induction Hl as [|x l Hx _ IH]; cbn [list_prod]; [constructor|]. apply NoDup_app. split_and!; [|intros [x' y] Hin Hin'|done].
  - apply (NoDup_fmap_2 (pair x) l' Hl').
  - apply list_elem_of_In in Hin, Hin'. apply in_map_iff in Hin as (y' & [= -> _] & _). apply in_prod_iff in Hin' as [Hin' _].
    by apply Hx, list_elem_of_In.
Qed.
Lemma NoDup_fd_slots : NoDup fd_slots.
Proof. apply NoDup_list_prod; apply NoDup_seq. Qed.
Lemma length_fd_slots : length fd_slots = 1024%nat.
Proof. unfold fd_slots. by rewrite length_prod, !length_seq. Qed.
#[global] Opaque fd_slots.

Section fd_facts.
Context {S N : Type} `{FrameLaws S}.
Implicit Types (k : kern S N) (d : Z → Z).

Definition fd_at k (x : nat * nat) : option Z := fds (procs k x.1) x.2.
Definition refs k (p : Z) : nat := length (filter (λ x, fd_at k x = Some p) fd_slots).

Lemma refs_bound k p : (refs k p ≤ 1024)%nat.
Proof. unfold refs. rewrite <- length_fd_slots. apply length_filter. Qed.

Lemma refs_pos k x p : x ∈ fd_slots → fd_at k x = Some p → (0 < refs k p)%nat.
Proof.
  intros Hx Hp. unfold refs. destruct (filter (λ x, fd_at k x = Some p) fd_slots) as [|y l] eqn:E; [|cbn; lia].
  assert (x ∈ filter (λ x, fd_at k x = Some p) fd_slots) as Hin by (by apply list_elem_of_filter).
  rewrite E in Hin. by apply elem_of_nil in Hin.
Qed.

Lemma refs_ext k k' p : (∀ x, x ∈ fd_slots → fd_at k' x = fd_at k x) → refs k' p = refs k p.
Proof. intros He. unfold refs. f_equal. apply filter_ext_in. intros x Hx. by rewrite He. Qed.

Lemma fd_at_set t fd v k x : fd_at (set_fd t fd v k) x = if decide (x = (t, Z.to_nat fd)) then v else fd_at k x.
Proof.
  unfold fd_at, set_fd. cbn [procs upd_proc]. destruct x as [i j]. cbn [fst snd]. destruct (decide (i = t)) as [->|Hi].
  - rewrite fn_lookup_insert. cbn [fds set_fds]. destruct (decide (j = Z.to_nat fd)) as [->|Hj].
    + by rewrite fn_lookup_insert, decide_True.
    + rewrite fn_lookup_insert_ne, decide_False by congruence. done.
  - rewrite fn_lookup_insert_ne, decide_False by congruence. done.
Qed.

Lemma refs_set_fd t fd v k p : (t < NR_TASKS)%nat → 0 ≤ fd < Z.of_nat NR_FDS →
  Z.of_nat (refs (set_fd t fd v k) p) =
  Z.of_nat (refs k p) - ind (fd_at k (t, Z.to_nat fd) = Some p) + ind (v = Some p).
Proof.
  intros Ht Hfd. unfold refs. rewrite (count_update (fd_at k) (fd_at (set_fd t fd v k)) (t, Z.to_nat fd)).
  - rewrite fd_at_set, decide_True by done. done.
  - apply NoDup_fd_slots.
  - apply elem_of_fd_slots. lia.
  - intros x Hx. by rewrite fd_at_set, decide_False.
Qed.

(** ** The invariant

    [d p] is the number of references to the file at [p] that an operation in
    progress holds outside the tables (negative: has yet to count).  [R] are
    the heap blocks of everything but open files, [O] the frames of others. *)
Definition blocks_of (p : Z) (f : file N) : list (Z * Z) :=
  (p, FILE_SIZE) :: match f_ops f with dir_fops => [(f_priv f, ITER_SIZE)] | _ => [] end.
Definition file_blocks (m : gmap Z (file N)) : list (Z * Z) := mjoin ((λ x, blocks_of x.1 x.2) <$> map_to_list m).

Record fd_inv d (R : list (Z * Z)) (O : list (Z * nat)) k : Prop := {
  fi_heap : ∃ L, heap_inv (hp k, L, O) ∧ L ≡ₚ file_blocks (files k) ++ R;
  fi_refs p : match files k !! p with
              | Some f => refcnt f = Z.of_nat (refs k p) + d p ∧ 1 ≤ refcnt f
              | None => refs k p = 0%nat ∧ d p = 0
              end;
}.

Lemma fd_inv_ext d d' R O k : (∀ p, d p = d' p) → fd_inv d R O k → fd_inv d' R O k.
Proof. intros Hd [Hh Hr]. constructor; [done|]. intros p. specialize (Hr p). by rewrite <- Hd. Qed.

Lemma file_blocks_insert m p f : m !! p = None → file_blocks (<[p := f]> m) ≡ₚ blocks_of p f ++ file_blocks m.
Proof.
  intros Hp. unfold file_blocks. rewrite (map_to_list_insert m p f Hp). done.
Qed.
Lemma file_blocks_delete m p f : m !! p = Some f → file_blocks m ≡ₚ blocks_of p f ++ file_blocks (delete p m).
Proof.
  intros Hp. rewrite <- (insert_delete_id m p f Hp) at 1. apply file_blocks_insert. apply lookup_delete_eq.
Qed.
Lemma file_blocks_update m p f f' : m !! p = Some f → blocks_of p f' = blocks_of p f →
  file_blocks (<[p := f']> m) ≡ₚ file_blocks m.
Proof.
  intros Hp Hb. rewrite (file_blocks_delete m p f Hp), (file_blocks_delete (<[p := f']> m) p f') by apply lookup_insert_eq.
  by rewrite delete_insert_eq, Hb.
Qed.

Lemma heap_inv_perm h L L' O : L ≡ₚ L' → heap_inv (h, L, O) → heap_inv (h, L', O).
Proof.
  intros HL (P & Fr & V & Hok & HF). cbn [fst snd] in *.
  apply Forall2_flip in HF. destruct (Permutation_Forall2 HL HF) as (V' & HV & HF').
  exists P, Fr, V'. split; [by eapply heap_ok_perm|by apply Forall2_flip].
Qed.

Lemma kfree_elem h L L' O p n : heap_inv (h, L, O) → L ≡ₚ (p, n) :: L' →
  ∃ h', kfree p h = Ret h' ∧ heap_inv (h', L', O).
Proof.
  intros Hi HL. apply (heap_inv_perm _ _ _ _ HL) in Hi.
  destruct (heap_inv_free h [] L' O p n Hi) as (h' & ? & ? & _). by exists h'.
Qed.

(** A block that the heap hands out is not one it has handed out before. *)
Lemma heap_fresh h p n n' L O : heap_inv (h, (p, n) :: L, O) → 0 < n → 0 < n' → (p, n') ∉ L.
Proof.
  intros Hi Hn Hn' Hin. apply list_elem_of_split in Hin as (L1 & L2 & ->).
  destruct (heap_inv_bytes _ _ _ (VIRT_TO_PHYS p) Hi) as [Hb _]. unfold held in Hb.
  rewrite filter_cons_True, filter_app, filter_cons_True in Hb by (unfold holds; cbn; lia).
  cbn [length] in Hb. rewrite length_app in Hb. cbn [length] in Hb. lia.
Qed.

Lemma file_blocks_elem m p f : m !! p = Some f → (p, FILE_SIZE) ∈ file_blocks m.
Proof. intros Hp. rewrite (file_blocks_delete m p f Hp). apply list_elem_of_here. Qed.

(** ** The steps of the operations *)

Lemma open_file d R O k x p : fd_inv d R O k → x ∈ fd_slots → fd_at k x = Some p → is_Some (files k !! p).
Proof.
  intros Hi Hx Hp. pose proof (fi_refs _ _ _ _ Hi p) as Hr. destruct (files k !! p); [done|].
  pose proof (refs_pos k x p Hx Hp). lia.
Qed.

Lemma set_fd_inv d R O k t fd v : fd_inv d R O k → (t < NR_TASKS)%nat → 0 ≤ fd < Z.of_nat NR_FDS →
  (∀ p, v = Some p → is_Some (files k !! p)) →
  fd_inv (λ p, d p + ind (fd_at k (t, Z.to_nat fd) = Some p) - ind (v = Some p)) R O (set_fd t fd v k).
Proof.
  intros Hi Ht Hfd Hv. constructor; [apply Hi|]. intros p. cbn [files set_fd upd_proc].
  pose proof (fi_refs _ _ _ _ Hi p) as Hr. pose proof (refs_set_fd t fd v k p Ht Hfd) as Hs.
  destruct (files k !! p) as [f|] eqn:E; [lia|]. destruct Hr as [Hr Hd].
  assert (ind (v = Some p) = 0) as Hv0.
  { unfold ind. destruct (decide _) as [Hvp|]; [|done]. apply Hv in Hvp as [? ?]. congruence. }
  assert (ind (fd_at k (t, Z.to_nat fd) = Some p) = 0) as Ho0.
  { unfold ind. destruct (decide _) as [Hp|]; [|done].
    apply (open_file d R O k) in Hp as [? ?]; [congruence|done|apply elem_of_fd_slots; lia]. }
  lia.
Qed.

Lemma i32_count n : 0 ≤ n ≤ 2 ^ 30 → i32 n = n.
Proof. intros Hn. apply sgn_small; lia. Qed.

(** Counting a file up or down. *)
Lemma recount d R O k p f n : fd_inv d R O k → files k !! p = Some f → 1 ≤ refcnt f + n →
  fd_inv (<[p := d p + n]> d) R O (set_files (<[p := set_refcnt (refcnt f + n) f]> (files k)) k).
Proof.
  intros [(L & Hh & HL) Hr] Hp Hn. constructor; cbn [hp files set_files].
  - exists L. split; [done|]. by rewrite (file_blocks_update _ _ f) by done.
  - intros q. assert (refs (set_files (<[p := set_refcnt (refcnt f + n) f]> (files k)) k) q = refs k q) as -> by done.
    specialize (Hr q). destruct (decide (q = p)) as [->|Hne].
    + rewrite lookup_insert_eq, fn_lookup_insert. rewrite Hp in Hr. cbn [refcnt set_refcnt]. lia.
    + rewrite lookup_insert_ne, fn_lookup_insert_ne by done. done.
Qed.

Lemma get_file_inv d R O k p : fd_inv d R O k → is_Some (files k !! p) → d p ≤ 1024 →
  ∃ k', get_file p k = Ret k' ∧ fd_inv (<[p := d p + 1]> d) R O k' ∧ procs k' = procs k ∧ sch k' = sch k ∧
    (∀ q, is_Some (files k' !! q) ↔ is_Some (files k !! q)).
Proof.
  intros Hi [f Hp] Hd. unfold get_file. rewrite Hp. pose proof (fi_refs _ _ _ _ Hi p) as Hr. rewrite Hp in Hr.
  pose proof (refs_bound k p). eexists. split; [done|]. rewrite i32_count by lia. split_and!; [by apply recount; [|done|lia]|done|done|].
  intros q. cbn [files set_files]. rewrite lookup_insert_is_Some'. naive_solver.
Qed.

Lemma vfs_close_file_inv d R O k p : fd_inv d R O k → 1 ≤ d p ≤ 1024 →
  ∃ k', vfs_close_file p k = Ret k' ∧ fd_inv (<[p := d p - 1]> d) R O k' ∧ procs k' = procs k ∧ sch k' = sch k ∧
    (∀ q, q ≠ p → files k' !! q = files k !! q) ∧ (files k' !! p = None ↔ Z.of_nat (refs k p) + d p = 1).
Proof.
  intros Hi Hd. unfold vfs_close_file. pose proof (fi_refs _ _ _ _ Hi p) as Hr. pose proof (refs_bound k p).
  destruct (files k !! p) as [f|] eqn:E; [|lia]. destruct Hr as [Hc Hpos].
  destruct (Z.ltb_spec 1 (refcnt f)).
  { eexists. split; [done|]. rewrite i32_count by lia. split_and!; [by apply (recount d R O k p f (-1)); [|done|lia]|done|done| |].
    - intros q Hq. cbn [files set_files]. by rewrite lookup_insert_ne.
    - cbn [files set_files]. rewrite lookup_insert_eq. split; [done|lia]. }
  destruct (fi_heap _ _ _ _ Hi) as (L & Hh & HL). rewrite (file_blocks_delete _ p f E) in HL.
  set (rest := file_blocks (delete p (files k)) ++ R).
  assert (∃ h1, (match f_ops f with dir_fops => kfree (f_priv f) (hp k) | _ => Ret (hp k) end) = Ret h1 ∧
    heap_inv (h1, (p, FILE_SIZE) :: rest, O)) as (h1 & Hk1 & Hh1).
  { unfold blocks_of in HL. destruct (f_ops f).
    1,2: eexists; split; [done|]; eapply heap_inv_perm; [exact HL|exact Hh].
    apply (kfree_elem _ L _ O _ ITER_SIZE Hh). rewrite HL. cbn [app]. unfold rest. apply Permutation_swap. }
  destruct (kfree_elem h1 _ rest O p FILE_SIZE Hh1 (Permutation_refl _)) as (h2 & Hk2 & Hh2).
  cbn [hp set_files]. rewrite Hk1. cbn [mbind outcome_bind]. rewrite Hk2. cbn [mbind outcome_bind].
  eexists. split; [done|]. cbn [files procs sch hp set_hp set_files]. rewrite delete_insert_eq.
  split_and!; [|done|done| |].
  - constructor; cbn [files procs sch hp set_hp set_files]; [by exists rest|]. intros q.
    match goal with |- context [refs ?k' q] => assert (refs k' q = refs k q) as -> by done end.
    pose proof (fi_refs _ _ _ _ Hi q) as Hq. destruct (decide (q = p)) as [->|Hne].
    + rewrite lookup_delete_eq, fn_lookup_insert. lia.
    + by rewrite lookup_delete_ne, fn_lookup_insert_ne.
  - intros q Hq. by rewrite lookup_delete_ne.
  - rewrite lookup_delete_eq. split; [lia|done].
Qed.

(** ** The operations *)

Definition settled : Z → Z := λ _, 0.
Definition fd_ok (R : list (Z * Z)) (O : list (Z * nat)) k : Prop := fd_inv settled R O k.

Lemma fd_get_at t fd k p : fd_get t fd k = Some p → 0 ≤ fd < Z.of_nat NR_FDS ∧ fd_at k (t, Z.to_nat fd) = Some p.
Proof.
  unfold fd_get, fd_at. destruct (Z.ltb_spec fd 0), (Z.leb_spec (Z.of_nat NR_FDS) fd); cbn [orb]; try done; intros; split; (lia || done).
Qed.

Lemma sys_close_inv R O k t fd : fd_ok R O k → (t < NR_TASKS)%nat →
  (fd_get t fd k = None ∧ sys_close t fd k = Ret (LNXRM_EBADF, k)) ∨
  ∃ p k', fd_get t fd k = Some p ∧ sys_close t fd k = Ret (0, k') ∧ fd_ok R O k' ∧
    procs k' = procs (set_fd t fd None k) ∧ sch k' = sch k ∧
    (files k' !! p = None ↔ refs k p = 1%nat) ∧ ∀ q, q ≠ p → files k' !! q = files k !! q.
Proof.
  intros Hi Ht. unfold sys_close. destruct (fd_get t fd k) as [p|] eqn:E; [right|by left].
  apply fd_get_at in E as [Hfd Hp].
  pose proof (set_fd_inv settled R O k t fd None Hi Ht Hfd ltac:(done)) as Hi1. rewrite Hp in Hi1.
  destruct (vfs_close_file_inv _ R O _ p Hi1) as (k' & -> & Hi2 & Hpr & Hsc & Hq & Hrel).
  { unfold settled, ind. rewrite decide_True, decide_False by done. lia. }
  cbn [mbind outcome_bind]. exists p, k'. split_and!; try done.
  - eapply fd_inv_ext; [|exact Hi2]. intros q. unfold settled, ind. destruct (decide (q = p)) as [->|Hne].
    + rewrite fn_lookup_insert, decide_True, decide_False by done. lia.
    + rewrite fn_lookup_insert_ne, !decide_False by congruence. lia.
  - rewrite Hrel, (refs_set_fd t fd None k p Ht Hfd). rewrite Hp. unfold settled, ind.
    rewrite !decide_True, !decide_False by done. lia.
Qed.

(** Taking a reference and storing it commute. *)
Lemma get_file_set_fd p t fd v k : get_file p (set_fd t fd v k) = (k' ← get_file p k; Ret (set_fd t fd v k')).
Proof. unfold get_file. cbn [files set_fd upd_proc]. by destruct (files k !! p). Qed.

(** A descriptor that is free is made to refer to an open file. *)
Lemma share_inv R O k t fd p : fd_ok R O k → (t < NR_TASKS)%nat → 0 ≤ fd < Z.of_nat NR_FDS →
  fd_at k (t, Z.to_nat fd) = None → is_Some (files k !! p) →
  ∃ k', get_file p (set_fd t fd (Some p) k) = Ret k' ∧ fd_ok R O k' ∧
    procs k' = procs (set_fd t fd (Some p) k) ∧ sch k' = sch k ∧ (∀ q, is_Some (files k' !! q) ↔ is_Some (files k !! q)).
Proof.
  intros Hi Ht Hfd Hfree Hp. rewrite get_file_set_fd.
  destruct (get_file_inv _ R O k p Hi Hp ltac:(unfold settled; lia)) as (k1 & -> & Hi1 & Hpr & Hsc & Hfs).
  cbn [mbind outcome_bind]. eexists. split; [done|]. split_and!.
  - eapply fd_inv_ext; [|apply (set_fd_inv _ R O k1 t fd (Some p) Hi1 Ht Hfd)].
    + intros q. unfold fd_at in *. rewrite Hpr, Hfree. unfold ind, settled. rewrite (decide_False (P := None = Some q)) by done.
      destruct (decide (q = p)) as [->|Hne].
      * rewrite fn_lookup_insert, decide_True by done. lia.
      * rewrite fn_lookup_insert_ne, decide_False by congruence. lia.
    + intros q [= <-]. by apply Hfs.
  - unfold set_fd, upd_proc. cbn [procs]. by rewrite Hpr.
  - cbn [sch set_fd upd_proc]. done.
  - done.
Qed.

Lemma sys_dup2_inv R O k t oldfd newfd : fd_ok R O k → (t < NR_TASKS)%nat →
  ∃ r k', sys_dup2 t oldfd newfd k = Ret (r, k') ∧ fd_ok R O k' ∧ sch k' = sch k ∧
    ((k' = k ∧ (r = LNXRM_EBADF ∨ r = newfd)) ∨
     (r = newfd ∧ fd_get t newfd k' = fd_get t oldfd k ∧
      ∀ i j, (i, Z.of_nat j) ≠ (t, newfd) → fds (procs k' i) j = fds (procs k i) j)).
Proof.
  intros Hi Ht. unfold sys_dup2. destruct (Z.eqb_spec oldfd newfd) as [->|Hne].
  { eexists _, k. split; [done|]. split_and!; [done|done|]. left. split; [done|]. destruct (fd_get t newfd k); auto. }
  destruct (fd_get t oldfd k) as [p|] eqn:E; [|eexists _, k; split_and!; auto].
  pose proof (fd_get_at _ _ _ _ E) as [Hofd Hop].
  destruct (Z.ltb_spec newfd 0); [eexists _, k; split_and!; auto|].
  destruct (Z.leb_spec (Z.of_nat NR_FDS) newfd); [eexists _, k; split_and!; auto|]. cbn [orb].
  assert (fd_at k (t, Z.to_nat newfd) = fds (procs k t) (Z.to_nat newfd)) as Hat by done.
  assert (∃ k1, (if fds (procs k t) (Z.to_nat newfd) is Some _ then '(_, k) ← sys_close t newfd k; Ret k else Ret k) = Ret k1 ∧
    fd_ok R O k1 ∧ sch k1 = sch k ∧ ∀ x, fd_at k1 x = if decide (x = (t, Z.to_nat newfd)) then None else fd_at k x) as (k1 & -> & Hi1 & Hs1 & Hf1).
  { destruct (fds (procs k t) (Z.to_nat newfd)) as [q|] eqn:En.
    - destruct (sys_close_inv R O k t newfd Hi Ht) as [[Hg _]|(q' & k1 & _ & -> & Hi1 & Hpr & Hs & _)].
      + unfold fd_get in Hg. rewrite (proj2 (Z.ltb_ge newfd 0)), (proj2 (Z.leb_gt _ newfd)), En in Hg by lia. done.
      + exists k1. split_and!; [done..|]. intros x. unfold fd_at at 1. rewrite Hpr. apply fd_at_set.
    - exists k. split_and!; [done..|]. intros x. destruct (decide _) as [->|]; done. }
  cbn [mbind outcome_bind].
  destruct (share_inv R O k1 t newfd p Hi1 Ht) as (k2 & -> & Hi2 & Hp2 & Hs2 & _); [lia|by rewrite Hf1, decide_True| |].
  { apply (open_file _ R O k1 (t, Z.to_nat oldfd) p Hi1); [apply elem_of_fd_slots; lia|].
    rewrite Hf1, decide_False; [done|]. intros [= Heq]. lia. }
  cbn [mbind outcome_bind]. assert (∀ x, fd_at k2 x = if decide (x = (t, Z.to_nat newfd)) then Some p else fd_at k1 x) as Hf2.
  { intros x. unfold fd_at at 1. rewrite Hp2. apply fd_at_set. }
  eexists _, k2. split; [done|]. split_and!; [done|congruence|]. right. split; [done|]. split.
  - unfold fd_get. rewrite (proj2 (Z.ltb_ge newfd 0)), (proj2 (Z.leb_gt _ newfd)) by lia. cbn [orb].
    change (fd_at k2 (t, Z.to_nat newfd) = Some p). by rewrite Hf2, decide_True.
  - intros i j Hij. change (fd_at k2 (i, j) = fd_at k (i, j)).
    rewrite Hf2, Hf1, !decide_False; [done| |]; intros [= -> ->]; apply Hij; f_equal; lia.
Qed.

(** The block of a file's node, which closing the file does not release. *)
Definition node_block (ops : file_ops) (priv : Z) : list (Z * Z) :=
  match ops with reg_fops => [(priv, VNODE_SIZE)] | _ => [] end.

Lemma file_alloc_inv R O k ops data flags : fd_ok R O k →
  file_alloc ops data flags k = Panic ∨
  ∃ p k' priv, file_alloc ops data flags k = Ret (p, k') ∧ files k !! p = None ∧
    fd_inv (<[p := 1]> settled) (node_block ops priv ++ R) O k' ∧ procs k' = procs k ∧ sch k' = sch k.
Proof.
  intros Hi. unfold file_alloc. destruct (fi_heap _ _ _ _ Hi) as (L & Hh & HL).
  destruct (heap_inv_malloc _ L O FILE_SIZE Hh) as [->|(p & h1 & -> & Hp0 & Hh1 & _)]; [by_eval|by_eval|by left|].
  cbn [mbind outcome_bind].
  assert (files k !! p = None) as Hnew.
  { destruct (files k !! p) as [f|] eqn:E; [|done]. exfalso. eapply (heap_fresh h1 p FILE_SIZE FILE_SIZE L O); [done|by_eval|by_eval|].
    rewrite HL. apply elem_of_app. left. by eapply file_blocks_elem. }
  set (extra (priv : Z) := match ops with console_fops => [] | dir_fops => [(priv, ITER_SIZE)] | reg_fops => [(priv, VNODE_SIZE)] end).
  set (alloc := match ops with console_fops => Ret (0, h1) | dir_fops => kmalloc ITER_SIZE h1 | reg_fops => kmalloc VNODE_SIZE h1 end).
  assert (alloc = Panic ∨ ∃ priv h2, alloc = Ret (priv, h2) ∧ heap_inv (h2, extra priv ++ (p, FILE_SIZE) :: L, O)) as [->|(priv & h2 & -> & Hh2)].
  { unfold alloc, extra. destruct ops; [right; by exists 0, h1| |].
    - destruct (heap_inv_malloc h1 _ O VNODE_SIZE Hh1) as [->|(q & h2 & -> & _ & Hh2 & _)]; [by_eval|by_eval|by left|].
      right. by exists q, h2.
    - destruct (heap_inv_malloc h1 _ O ITER_SIZE Hh1) as [->|(q & h2 & -> & _ & Hh2 & _)]; [by_eval|by_eval|by left|].
      right. by exists q, h2. }
  { by left. }
  right. cbn [mbind outcome_bind]. eexists p, _, priv. split; [done|]. split_and!; [done| |done|done].
  constructor; cbn [hp files set_files set_hp].
  - eexists. split; [exact Hh2|]. rewrite file_blocks_insert, HL by done. unfold extra, node_block, blocks_of. cbn [f_ops f_priv].
    destruct ops; cbn [app]; [done| |].
    + rewrite Permutation_swap. apply Permutation_skip, Permutation_middle.
    + apply Permutation_swap.
  - intros q. match goal with |- context [refs ?k' q] => assert (refs k' q = refs k q) as -> by done end.
    pose proof (fi_refs _ _ _ _ Hi q) as Hq. destruct (decide (q = p)) as [->|Hne].
    + rewrite lookup_insert_eq, fn_lookup_insert. rewrite Hnew in Hq. cbn [refcnt]. lia.
    + by rewrite lookup_insert_ne, fn_lookup_insert_ne.
Qed.

(** The task has no free descriptor. *)
Definition fds_full (t : nat) k : Prop := ∀ j, (j < NR_FDS)%nat → fds (procs k t) j ≠ None.

Lemma fd_install_inv R O k t p : fd_inv (<[p := 1]> settled) R O k → refs k p = 0%nat → (t < NR_TASKS)%nat →
  ∃ r k', fd_install t p k = Ret (r, k') ∧ fd_ok R O k' ∧ sch k' = sch k ∧
    ((0 ≤ r < Z.of_nat NR_FDS ∧ fds (procs k t) (Z.to_nat r) = None ∧ fds (procs k' t) (Z.to_nat r) = Some p ∧ is_Some (files k' !! p)) ∨
     (r = LNXRM_EMFILE ∧ files k' !! p = None ∧ fds_full t k)).
Proof.
  intros Hi Hr0 Ht. unfold fd_install. pose proof (fi_refs _ _ _ _ Hi p) as Hr. rewrite fn_lookup_insert in Hr.
  destruct (files k !! p) as [f|] eqn:Ep; [|lia].
  destruct (for_find _ 0 NR_FDS) as [i|] eqn:E.
  - apply for_find_Some in E as (Hlt & Hfree & _). apply bool_decide_eq_true_1 in Hfree.
    eexists _, _. split; [done|]. assert (fd_at k (t, Z.to_nat (Z.of_nat i)) = None) as Hat by (by rewrite Nat2Z.id).
    split; [|split; [done|left; split_and!]].
    + eapply fd_inv_ext; [|apply (set_fd_inv _ R O k t (Z.of_nat i) (Some p) Hi Ht ltac:(lia))].
      * intros q. rewrite Hat. unfold ind, settled. rewrite (decide_False (P := None = Some q)) by done.
        destruct (decide (q = p)) as [->|Hne].
        -- rewrite fn_lookup_insert, decide_True by done. lia.
        -- rewrite fn_lookup_insert_ne, decide_False by congruence. lia.
      * intros q [= <-]. by rewrite Ep.
    + lia.
    + lia.
    + by rewrite Nat2Z.id.
    + change (fd_at (set_fd t (Z.of_nat i) (Some p) k) (t, Z.to_nat (Z.of_nat i)) = Some p). by rewrite fd_at_set, decide_True.
    + cbn [files set_fd upd_proc]. by rewrite Ep.
  - destruct (vfs_close_file_inv _ R O k p Hi) as (k' & -> & Hi' & _ & Hs & _ & Hrel); [rewrite fn_lookup_insert; lia|].
    cbn [mbind outcome_bind]. eexists _, k'. split; [done|]. split_and!; [|done|right; split_and!; [done| |]].
    + eapply fd_inv_ext; [|exact Hi']. intros q. unfold settled. destruct (decide (q = p)) as [->|Hne].
      * by rewrite !fn_lookup_insert.
      * by rewrite !fn_lookup_insert_ne.
    + apply Hrel. rewrite fn_lookup_insert. lia.
    + intros j Hj. rewrite for_find_None in E. specialize (E j ltac:(lia)). by apply bool_decide_eq_false_1 in E.
Qed.

Lemma close_all_inv R O k c : fd_ok R O k → (c < NR_TASKS)%nat →
  ∃ k', close_all c k = Ret k' ∧ fd_ok R O k' ∧ sch k' = sch k ∧
    ∀ i j, (j < NR_FDS)%nat → fds (procs k' i) j = if decide (i = c) then None else fds (procs k i) j.
Proof.
  intros Hi Hc. unfold close_all.
  assert (∀ n i k, (i + n ≤ NR_FDS)%nat → fd_ok R O k → ∃ k',
    for_loop_o (λ i k, if fds (procs k c) i is Some _ then '(_, k) ← sys_close c (Z.of_nat i) k; Ret k else Ret k) i n k = Ret k' ∧
    fd_ok R O k' ∧ sch k' = sch k ∧
    ∀ x, fd_at k' x = if decide (x.1 = c ∧ (i ≤ x.2 < i + n)%nat) then None else fd_at k x) as Hloop.
  { induction n as [|n IH]; intros i k0 Hn Hi0; cbn [for_loop_o].
    { exists k0. split_and!; [done..|]. intros x. by rewrite decide_False by lia. }
    assert (∃ k1, (if fds (procs k0 c) i is Some _ then '(_, k) ← sys_close c (Z.of_nat i) k0; Ret k else Ret k0) = Ret k1 ∧
      fd_ok R O k1 ∧ sch k1 = sch k0 ∧ ∀ x, fd_at k1 x = if decide (x = (c, i)) then None else fd_at k0 x) as (k1 & -> & Hi1 & Hs1 & Hf1).
    { destruct (fds (procs k0 c) i) as [q|] eqn:E.
      - destruct (sys_close_inv R O k0 c (Z.of_nat i) Hi0 Hc) as [[Hg _]|(q' & k1 & _ & -> & Hi1 & Hp1 & Hs1 & _)].
        + unfold fd_get in Hg. rewrite (proj2 (Z.ltb_ge _ 0)), (proj2 (Z.leb_gt _ _)), Nat2Z.id, E in Hg by lia. done.
        + exists k1. split_and!; [done..|]. intros x. unfold fd_at at 1. rewrite Hp1.
          pose proof (fd_at_set c (Z.of_nat i) None k0 x) as Hx. rewrite Nat2Z.id in Hx. exact Hx.
      - exists k0. split_and!; [done..|]. intros x. destruct (decide _) as [->|]; done. }
    destruct (IH (Datatypes.S i) k1 ltac:(lia) Hi1) as (k2 & -> & Hi2 & Hs2 & Hf2). exists k2. split_and!; [done|done|congruence|].
    intros [a b]. rewrite Hf2, Hf1. cbn [fst snd]. destruct (decide (a = c)) as [->|Ha], (decide (b = i)) as [->|Hb];
      repeat case_decide; try done; exfalso; (congruence || lia). }
  destruct (Hloop NR_FDS 0%nat k ltac:(lia) Hi) as (k' & He & Hi' & Hs & Hf). exists k'. split_and!; [done..|].
  intros i j Hj. change (fd_at k' (i, j) = if decide (i = c) then None else fd_at k (i, j)). rewrite Hf. cbn [fst snd].
  destruct (decide (i = c)); [by rewrite decide_True by lia|by rewrite decide_False by tauto].
Qed.

(** ** Fork's copy of a row *)

Definition row_count (g : nat → option Z) (l : list nat) (p : Z) : Z := Z.of_nat (length (filter (λ j, g j = Some p) l)).

Lemma row_count_cons g i l p : row_count g (i :: l) p = ind (g i = Some p) + row_count g l p.
Proof. unfold row_count, ind. rewrite filter_cons. destruct (decide _); cbn [length]; lia. Qed.
Lemma row_count_app g l l' p : row_count g (l ++ l') p = row_count g l p + row_count g l' p.
Proof. unfold row_count. rewrite filter_app, length_app. lia. Qed.

Fixpoint copy_row (ch : nat) (g : nat → option Z) (n : nat) k : kern S N :=
  match n with
  | O => k
  | Datatypes.S n => set_fd ch (Z.of_nat n) (g n) (copy_row ch g n k)
  end.

Lemma copy_row_at ch g n k x : fd_at (copy_row ch g n k) x = if decide (x.1 = ch ∧ (x.2 < n)%nat) then g x.2 else fd_at k x.
Proof.
  induction n as [|n IH]; cbn [copy_row]; [by rewrite decide_False by lia|].
  rewrite fd_at_set, IH, Nat2Z.id. destruct x as [a b]. cbn [fst snd].
  destruct (decide (a = ch)) as [->|Ha], (decide (b = n)) as [->|Hb]; repeat case_decide; try done; exfalso; (congruence || lia).
Qed.

Lemma copy_row_inv R O k ch g n : fd_ok R O k → (ch < NR_TASKS)%nat → (n ≤ NR_FDS)%nat →
  (∀ j, (j < NR_FDS)%nat → fds (procs k ch) j = None) → (∀ j p, (j < NR_FDS)%nat → g j = Some p → is_Some (files k !! p)) →
  fd_inv (λ p, - row_count g (seq 0 n) p) R O (copy_row ch g n k) ∧
  files (copy_row ch g n k) = files k ∧ hp (copy_row ch g n k) = hp k.
Proof.
  intros Hi Hch Hn Hfree Hg. induction n as [|n IH]; cbn [copy_row]; [done|].
  destruct (IH ltac:(lia)) as (Hi1 & Hf1 & Hh1). split; [|done].
  assert (fd_at (copy_row ch g n k) (ch, Z.to_nat (Z.of_nat n)) = None) as Hat.
  { rewrite copy_row_at, Nat2Z.id. cbn [fst snd]. rewrite decide_False by lia. apply Hfree. cbn [snd]. lia. }
  assert (0 ≤ Z.of_nat n < Z.of_nat NR_FDS) as Hfd by lia.
  eapply fd_inv_ext; [|apply (set_fd_inv _ R O _ ch (Z.of_nat n) (g n) Hi1 Hch Hfd)].
  - intros p. cbv beta. rewrite Hat, seq_S, row_count_app, row_count_cons. rewrite (ind_iff (None = Some p) False) by naive_solver.
    change (ind False) with 0. change (row_count g [] p) with 0. cbn [Nat.add]. lia.
  - intros p Hp. rewrite Hf1. apply (Hg n p); [lia|done].
Qed.

Lemma count_row_inv R O ch g n : (ch < NR_TASKS)%nat → ∀ i k, (i + n = NR_FDS)%nat →
  fd_inv (λ p, - row_count g (seq i n) p) R O k → fds (procs k ch) = g →
  ∃ k', for_loop_o (λ i k, match fds (procs k ch) i with Some p => get_file p k | None => Ret k end) i n k = Ret k' ∧
    fd_ok R O k' ∧ procs k' = procs k ∧ sch k' = sch k.
Proof.
  intros Hch. induction n as [|n IH]; intros i k Hn Hi Hg; cbn [for_loop_o]; [by exists k|].
  rewrite Hg. assert (∃ k1, (match g i with Some p => get_file p k | None => Ret k end) = Ret k1 ∧
    fd_inv (λ p, - row_count g (seq (Datatypes.S i) n) p) R O k1 ∧ procs k1 = procs k ∧ sch k1 = sch k) as (k1 & -> & Hi1 & Hp1 & Hs1).
  { cbn [seq] in Hi. destruct (g i) as [p|] eqn:E.
    - destruct (get_file_inv _ R O k p Hi) as (k1 & -> & Hi1 & Hp1 & Hs1 & _).
      + apply (open_file _ R O k (ch, i) p Hi); [apply elem_of_fd_slots; lia|]. unfold fd_at. cbn [fst snd]. by rewrite Hg.
      + unfold row_count. lia.
      + exists k1. split_and!; try done. eapply fd_inv_ext; [|exact Hi1]. intros q. cbv beta.
        destruct (decide (q = p)) as [->|Hne].
        * rewrite fn_lookup_insert, row_count_cons, E. unfold ind. rewrite decide_True by done. lia.
        * rewrite fn_lookup_insert_ne, row_count_cons, E by done. unfold ind. rewrite decide_False by congruence. lia.
    - exists k. split_and!; try done. eapply fd_inv_ext; [|exact Hi]. intros q. cbv beta. rewrite row_count_cons, E.
      unfold ind. rewrite decide_False by done. lia. }
  destruct (IH (Datatypes.S i) k1 ltac:(lia) Hi1 ltac:(by rewrite Hp1)) as (k2 & -> & ? & ? & ?).
  exists k2. split_and!; congruence.
Qed.

Lemma clone_fds_inv R O k c ch : fd_ok R O k → (c < NR_TASKS)%nat → (ch < NR_TASKS)%nat →
  (∀ j, (j < NR_FDS)%nat → fds (procs k ch) j = None) →
  ∃ k', clone_fds c ch k = Ret k' ∧ fd_ok R O k' ∧ sch k' = sch k ∧
    (∀ i, i ≠ ch → procs k' i = procs k i) ∧ procs k' ch = set_fds (fds (procs k c)) (procs k ch).
Proof.
  intros Hi Hc Hch Hfree. unfold clone_fds. set (g := fds (procs k c)). set (k1 := upd_proc ch (set_fds g) k).
  destruct (copy_row_inv R O k ch g NR_FDS Hi Hch ltac:(lia) Hfree) as (Hi1 & Hf1 & Hh1).
  { intros j p Hj Hp. apply (open_file _ R O k (c, j) p Hi); [apply elem_of_fd_slots; lia|done]. }
  assert (procs k1 ch = set_fds g (procs k ch)) as Hpc by (unfold k1; cbn [procs upd_proc]; by rewrite fn_lookup_insert).
  destruct (count_row_inv R O ch g NR_FDS Hch 0 k1) as (k' & He & Hi' & Hp' & Hs'); [done| |by rewrite Hpc|].
  - destruct Hi1 as [Hh Hr]. constructor.
    + rewrite Hf1, Hh1 in Hh. exact Hh.
    + intros p. specialize (Hr p). rewrite Hf1 in Hr. rewrite (refs_ext (copy_row ch g NR_FDS k) k1); [exact Hr|].
      intros [a b] [Ha Hb]%elem_of_fd_slots. rewrite copy_row_at. unfold fd_at, k1. cbn [fst snd procs upd_proc].
      destruct (decide (a = ch)) as [->|Hne].
      * by rewrite fn_lookup_insert, decide_True by done.
      * rewrite fn_lookup_insert_ne by done. by rewrite decide_False by tauto.
  - exists k'. split_and!; [done|done|done| |by rewrite Hp', Hpc].
    intros i Hne. rewrite Hp'. unfold k1. cbn [procs upd_proc]. by rewrite fn_lookup_insert_ne.
Qed.

Lemma fd_get_in t r k : 0 ≤ r < Z.of_nat NR_FDS → fd_get t r k = fds (procs k t) (Z.to_nat r).
Proof. intros Hr. unfold fd_get. by rewrite (proj2 (orb_false_iff _ _)) by (split; [apply Z.ltb_ge|apply Z.leb_gt]; lia). Qed.

(** A new file in a descriptor. *)
Lemma open_inv R O k t ops data flags : fd_ok R O k → (t < NR_TASKS)%nat →
  file_alloc ops data flags k = Panic ∨
  ∃ p k1 r k2, file_alloc ops data flags k = Ret (p, k1) ∧ fd_install t p k1 = Ret (r, k2) ∧ files k !! p = None ∧
    ((0 ≤ r < Z.of_nat NR_FDS ∧ fd_get t r k = None ∧ fd_get t r k2 = Some p ∧ is_Some (files k2 !! p)) ∨
     (r = LNXRM_EMFILE ∧ fds_full t k ∧ files k2 !! p = None)).
Proof.
  intros Hi Ht. destruct (file_alloc_inv R O k ops data flags Hi) as [->|(p & k1 & priv & Ea & Hnew & Hi1 & Hpr & _)]; [by left|right].
  destruct (fd_install_inv (node_block ops priv ++ R) O k1 t p Hi1) as (r & k2 & Ein & _ & _ & Hr); [|done|].
  { pose proof (fi_refs _ _ _ _ Hi p) as Hr. rewrite Hnew in Hr. rewrite (refs_ext k k1); [apply Hr|]. intros x _. unfold fd_at. by rewrite Hpr. }
  exists p, k1, r, k2. split_and!; [done..|]. unfold fds_full in *. rewrite Hpr in Hr.
  destruct Hr as [(Hr & Hn & Hp & Hl)|(-> & Hd & Hf)]; [left; rewrite !fd_get_in by done|right]; tauto.
Qed.

(** ** All system calls, in any order *)

Inductive fd_step : kern S N → kern S N → Prop :=
  | fs_open t ops data flags p r k k1 k2 : (t < NR_TASKS)%nat →
      file_alloc ops data flags k = Ret (p, k1) → fd_install t p k1 = Ret (r, k2) → fd_step k k2
  | fs_close t fd r k k' : (t < NR_TASKS)%nat → sys_close t fd k = Ret (r, k') → fd_step k k'
  | fs_dup2 t oldfd newfd r k k' : (t < NR_TASKS)%nat → sys_dup2 t oldfd newfd k = Ret (r, k') → fd_step k k'
  | fs_fork c ch k k' : (c < NR_TASKS)%nat → (ch < NR_TASKS)%nat →
      (∀ j, (j < NR_FDS)%nat → fds (procs k ch) j = None) → clone_fds c ch k = Ret k' → fd_step k k'
  | fs_exit c k k' : (c < NR_TASKS)%nat → close_all c k = Ret k' → fd_step k k'.

Lemma fd_step_ok O k k' : fd_step k k' → (∃ R, fd_ok R O k) → ∃ R, fd_ok R O k'.
Proof.
  intros Hst [R Hi]. destruct Hst as [t ops data flags p r k k1 k2 Ht Ha Hin|t fd r k k' Ht He|t o n r k k' Ht He|c ch k k' Hc Hch Hf He|c k k' Hc He].
  - destruct (file_alloc_inv R O k ops data flags Hi) as [Hp|(p' & k1' & priv & Ha' & Hnew & Hi1 & Hpr & _)]; [congruence|].
    assert (p' = p ∧ k1' = k1) as [-> ->] by (split; congruence).
    destruct (fd_install_inv (node_block ops priv ++ R) O k1 t p Hi1) as (r' & k2' & Hin' & Hi2 & _); [|done|].
    + pose proof (fi_refs _ _ _ _ Hi p) as Hr. rewrite Hnew in Hr. rewrite (refs_ext k k1); [apply Hr|]. intros x _. unfold fd_at. by rewrite Hpr.
    + assert (k2' = k2) as -> by congruence. eauto.
  - destruct (sys_close_inv R O k t fd Hi Ht) as [[_ He']|(p & k1 & _ & He' & Hi' & _)].
    + assert (k' = k) as -> by congruence. eauto.
    + assert (k' = k1) as -> by congruence. eauto.
  - destruct (sys_dup2_inv R O k t o n Hi Ht) as (r' & k1 & He' & Hi' & _). assert (k' = k1) as -> by congruence. eauto.
  - destruct (clone_fds_inv R O k c ch Hi Hc Hch Hf) as (k1 & He' & Hi' & _). assert (k' = k1) as -> by congruence. eauto.
  - destruct (close_all_inv R O k c Hi Hc) as (k1 & He' & Hi' & _). assert (k' = k1) as -> by congruence. eauto.
Qed.

Lemma fd_start O L k : files k = ∅ → (∀ i j, fds (procs k i) j = None) → heap_inv (hp k, L, O) → fd_ok L O k.
Proof.
  intros Hf Hd Hh. constructor.
  - exists L. split; [done|]. rewrite Hf. unfold file_blocks. by rewrite map_to_list_empty.
  - intros p. rewrite Hf, lookup_empty. split; [|done]. unfold refs. rewrite (filter_ext_in _ (λ _, False)).
    + induction fd_slots as [|x l IH]; [done|]. rewrite filter_cons, decide_False by tauto. exact IH.
    + intros [i j] _. unfold fd_at. by rewrite Hd.
Qed.

(** C6. The steps of the tasks on their descriptors are: a new file object is
    allocated and put into a descriptor (the end of open, behind the lookup of
    the path), close, dup2, the copy of the table by fork, into a table that is
    empty, and the closing of all descriptors by exit.  Whatever sequence of
    these steps the tasks perform: every descriptor refers to a live file, the
    reference count of a file is the number of descriptors that refer to it and
    is not zero.  A close, a dup2, a fork and an exit then return and never
    touch a released file or fail inside the heap; a close releases the file
    exactly when its descriptor was the last one.  The first step returns a
    descriptor that was free, or EMFILE when there is none and the new file is
    released again, unless the heap has no memory for the file, which is a
    panic. *)
Theorem fd_reachable_safe O L k0 k :
  files k0 = ∅ → (∀ i j, fds (procs k0 i) j = None) → heap_inv (hp k0, L, O) → rtc fd_step k0 k →
  (∀ t fd p, (t < NR_TASKS)%nat → fd_get t fd k = Some p →
     ∃ f, files k !! p = Some f ∧ refcnt f = Z.of_nat (refs k p)) ∧
  (∀ p f, files k !! p = Some f → (0 < refs k p)%nat) ∧
  (∀ t fd, (t < NR_TASKS)%nat → ∃ r k', sys_close t fd k = Ret (r, k') ∧
     ∀ p, fd_get t fd k = Some p → (files k' !! p = None ↔ refs k p = 1%nat)) ∧
  (∀ t oldfd newfd, (t < NR_TASKS)%nat → ∃ r k', sys_dup2 t oldfd newfd k = Ret (r, k')) ∧
  (∀ c, (c < NR_TASKS)%nat → ∃ k', close_all c k = Ret k' ∧ ∀ j, (j < NR_FDS)%nat → fds (procs k' c) j = None) ∧
  (∀ c ch, (c < NR_TASKS)%nat → (ch < NR_TASKS)%nat → (∀ j, (j < NR_FDS)%nat → fds (procs k ch) j = None) →
     ∃ k', clone_fds c ch k = Ret k' ∧ fds (procs k' ch) = fds (procs k c)) ∧
  (∀ t ops data flags, (t < NR_TASKS)%nat → file_alloc ops data flags k = Panic ∨
     ∃ p k1 r k2, file_alloc ops data flags k = Ret (p, k1) ∧ fd_install t p k1 = Ret (r, k2) ∧ files k !! p = None ∧
       ((0 ≤ r < Z.of_nat NR_FDS ∧ fd_get t r k = None ∧ fd_get t r k2 = Some p ∧ is_Some (files k2 !! p)) ∨
        (r = LNXRM_EMFILE ∧ fds_full t k ∧ files k2 !! p = None))).
Proof.
  intros Hf Hd Hh Hr. assert (∃ R, fd_ok R O k) as [R Hi].
  { assert (∃ R, fd_ok R O k0) as H0' by (exists L; by apply fd_start). clear Hf Hd Hh.
    induction Hr as [|k1 k2 k3 Hst _ IH]; [done|]. apply IH. by eapply fd_step_ok. }
  split_and!.
  - intros t fd p Ht Hg. apply fd_get_at in Hg as [Hfd Hp]. pose proof (fi_refs _ _ _ _ Hi p) as Hrf.
    destruct (open_file _ R O k (t, Z.to_nat fd) p Hi) as [f E]; [apply elem_of_fd_slots; lia|done|]. exists f. split; [done|].
    rewrite E in Hrf. unfold settled in Hrf. lia.
  - intros p f E. pose proof (fi_refs _ _ _ _ Hi p) as Hrf. rewrite E in Hrf. unfold settled in Hrf. lia.
  - intros t fd Ht. destruct (sys_close_inv R O k t fd Hi Ht) as [[Hg He]|(p & k' & Hg & He & _ & _ & _ & Hrel & _)].
    + eexists _, k. split; [done|]. intros p Hp. congruence.
    + eexists _, k'. split; [done|]. intros q Hq. by assert (q = p) as -> by congruence.
  - intros t o n Ht. destruct (sys_dup2_inv R O k t o n Hi Ht) as (r & k' & He & _). eauto.
  - intros c Hc. destruct (close_all_inv R O k c Hi Hc) as (k' & He & _ & _ & Hfds). exists k'. split; [done|].
    intros j Hj. by rewrite Hfds, decide_True.
  - intros c ch Hc Hch He. destruct (clone_fds_inv R O k c ch Hi Hc Hch He) as (k' & E & _ & _ & _ & Hp). exists k'. by rewrite Hp.
  - intros t ops data flags Ht. by apply (open_inv R O).
Qed.
End fd_facts.

Module ProcDemo.
Definition p0 : proc := Proc None 0 0 0 (λ _, None).
Definition k0 : kern pmm_state unit := Kern SchedDemo.busy KheapDemo.h0 (λ _, p0) ∅ 0.

(** Open a file in task 3 and close the descriptor again. *)
Definition open_close (ops : file_ops) (k : kern pmm_state unit) : kern pmm_state unit :=
  let '(p, k) := get_ret (0, k) (file_alloc ops (Some tt) 0 k) in
  let '(fd, k) := get_ret (0, k) (fd_install 3 p k) in
  (get_ret (0, k) (sys_close 3 fd k)).2.
Definition rounds (n : nat) (ops : file_ops) : kern pmm_state unit := Nat.iter n (open_close ops) k0.

(** A directory that stays open. *)
Definition r1 := get_ret (0, k0) (file_alloc dir_fops (Some tt) 0 k0).
Definition r2 := get_ret (0, k0) (fd_install 3 r1.1 r1.2).
Definition k2 : kern pmm_state unit := r2.2.
Lemma opened : rtc fd_step k0 k2.
Proof.
  apply rtc_once, (fs_open 3 dir_fops (Some tt) 0 r1.1 r2.1 k0 r1.2 k2); [by_eval| |].
  - refine (ret_pair (0, k0) (file_alloc dir_fops (Some tt) 0 k0) _). by_eval.
  - refine (ret_pair (0, k0) (fd_install 3 r1.1 r1.2) _). by_eval.
Qed.
Lemma k0_heap : heap_inv (hp k0, [], []).
Proof. apply heap_inv_start; [done|exact KheapDemo.h0_owned]. Qed.
End ProcDemo.

(** Closing a regular file does not release its node: opening and closing
    such a file again and again uses up the heap, while directories and the
    console leave nothing behind. *)
Theorem close_leaks_node :
  heap_used (hp (ProcDemo.rounds 5 reg_fops)) = heap_used (hp ProcDemo.k0) + 5 * 64 ∧
  files (ProcDemo.rounds 5 reg_fops) = ∅ ∧
  heap_used (hp (ProcDemo.rounds 5 dir_fops)) = heap_used (hp ProcDemo.k0) ∧
  heap_used (hp (ProcDemo.rounds 5 console_fops)) = heap_used (hp ProcDemo.k0).
Proof. split_and!; by_eval. Qed.

Lemma fd_reachable_safe_witness :
  ∃ r k', sys_dup2 3 0 7 ProcDemo.k2 = Ret (r, k').
Proof.
  refine (proj1 (proj2 (proj2 (proj2 (fd_reachable_safe [] [] ProcDemo.k0 ProcDemo.k2 eq_refl (λ i j, eq_refl)
    ProcDemo.k0_heap ProcDemo.opened)))) 3%nat 0 7 _). by_eval.
Defined.
