(* ===== verification/Signal.v ===== *)
(** Signals ([kernel/signal.c] and the signal system calls of
    [kernel/syscall.c]): the check on the return to user mode, the frame that
    a handler runs on, sigreturn, and kill, sigaction and sigprocmask. *)
From S2P Require Import Prelude Bytes Pmm PmmFacts PmmInit Frames Kheap KheapFacts Vmm VmmFacts UserMem Sched Proc.

Definition SIG_TRAMPOLINE_VA : Z := 0x7fffff800000.
Definition FIXMAP_VA : Z := 0xffffffff8e000000.
Definition SYS_sigreturn : Z := 20.

(** How a kernel path ends: it returns to the interrupted program, the task
    has been switched away from and continues when it is resumed, or it has
    exited. *)
Inductive flow := Returns | Parked | Exited.
#[global] Instance flow_eq : EqDecision flow.
Proof. solve_decision. Defined.

(** ** Frames *)

Definition set_ip_sp (ip sp : Z) (f : intr_frame) : intr_frame :=
  IntrFrame (r15 f) (r14 f) (r13 f) (r12 f) (r11 f) (r10 f) (r9 f) (r8 f) (rbp f) (rdi f) (rsi f) (rdx f) (rcx f) (rax f)
    (rbx f) (intno f) (err f) ip (cs f) (rflags f) sp (usss f).
Definition set_rdi (v : Z) (f : intr_frame) : intr_frame :=
  IntrFrame (r15 f) (r14 f) (r13 f) (r12 f) (r11 f) (r10 f) (r9 f) (r8 f) (rbp f) v (rsi f) (rdx f) (rcx f) (rax f)
    (rbx f) (intno f) (err f) (rip f) (cs f) (rflags f) (ussp f) (usss f).
Definition set_rax (v : Z) (f : intr_frame) : intr_frame :=
  IntrFrame (r15 f) (r14 f) (r13 f) (r12 f) (r11 f) (r10 f) (r9 f) (r8 f) (rbp f) (rdi f) (rsi f) (rdx f) (rcx f) v
    (rbx f) (intno f) (err f) (rip f) (cs f) (rflags f) (ussp f) (usss f).
Definition set_rflags (v : Z) (f : intr_frame) : intr_frame :=
  IntrFrame (r15 f) (r14 f) (r13 f) (r12 f) (r11 f) (r10 f) (r9 f) (r8 f) (rbp f) (rdi f) (rsi f) (rdx f) (rcx f) (rax f)
    (rbx f) (intno f) (err f) (rip f) (cs f) v (ussp f) (usss f).

(** [frame[0..20]] *)
Definition frame_words (sig : Z) (f : intr_frame) : list Z :=
  [sig; rip f; cs f; rflags f; ussp f; usss f; rax f; rbx f; rcx f; rdx f; rsi f; rdi f; rbp f;
   r8 f; r9 f; r10 f; r11 f; r12 f; r13 f; r14 f; r15 f].

Definition le_bytes (n : nat) (w : Z) : list Z := (λ i : nat, nth_byte w (Z.of_nat i)) <$> seq 0 n.
Definition words_bytes (ws : list Z) : list Z := ws ≫= le_bytes 8.

Definition FRAME_SIZE : nat := 176.
Definition IOPL : Z := Z.shiftl 3 12.

Section signal.
Context {S N : Type} `{Frames S}.
Implicit Types (k : kern S N) (s : S).

Definition mem k : S := phys (hp k).
Definition set_mem s k : kern S N := set_hp (set_phys s (hp k)) k.
Definition root_of (t : nat) k : Z := pml4 (tasks (sch k) t).

(** The code of [arch/signal_trampoline.S] is [code], a list of words that
    fits a page. *)
Definition signal_init_trampoline (code : list Z) (root : Z) s : outcome S :=
  if negb (vmm_translate_in root SIG_TRAMPOLINE_VA s =? 0) then Ret s else
  let '(pa, s) := fr_alloc 0 s in
  if pa =? 0 then Ret s else
  s ← vmm_map_kernel_page FIXMAP_VA pa 0 s;
  let s := zero_page pa s in
  let s := for_loop (λ i, set_entry pa (Z.of_nat i) (default 0 (code !! i))) 0 (length code) s in
  '(_, s) ← vmm_map_user root SIG_TRAMPOLINE_VA pa true true s;
  Ret s.

(** ** Delivery *)

Definition exits (me : nat) (sig : Z) k : outcome (flow * kern S N) :=
  k ← sys_exit me (- sig) k; Ret (Exited, k).

(** The interrupted context [f] goes to the user stack below [ussp f]. *)
Definition deliver (me t : nat) (sig : Z) (f : intr_frame) k : outcome (flow * kern S N) :=
  let root := root_of t k in
  let handler := handler_of (tasks (sch k) t) sig in
  let frame_size := 176 + 8 in
  let new_sp := u64 (Z.land (u64 (ussp f - frame_size)) (Z.lnot 15) - 8) in
  if negb (user_ptr_ok root handler 1 (mem k)) || negb (user_ptr_ok root new_sp frame_size (mem k))
  then exits me SIGSEGV k else
  let s := store_bytes root new_sp (le_bytes 8 SIG_TRAMPOLINE_VA) (mem k) in
  let s := store_bytes root (new_sp + 8) (replicate FRAME_SIZE 0) s in
  let s := store_bytes root (new_sp + 8) (words_bytes (frame_words sig f)) s in
  let f' := set_rflags (Z.lor (rflags f) 0x200) (set_rdi sig (set_ip_sp handler new_sp f)) in
  Ret (Returns, upd_proc t (set_tf (Some f')) (set_mem s k)).

Definition clear_bit (sig : Z) (t : task) : task :=
  set_pending (Z.land (signal_pending t) (Z.lnot (sigbit sig))) t.

Definition fatal (sig : Z) : bool := existsb (Z.eqb sig) [2; 15; 3; 4; 6; 11].

(** [for (sig = 1; sig < _NSIG; sig++)], [n] rounds to go. *)
Fixpoint signal_loop (me t : nat) (pending : Z) (n : nat) (sig : Z) k : outcome (flow * kern S N) :=
  match n with
  | O => Ret (Returns, k)
  | Datatypes.S n =>
      if Z.land pending (sigbit sig) =? 0 then signal_loop me t pending n (sig + 1) k else
      let k := upd_tk t (clear_bit sig) k in
      if sig =? SIGKILL then exits me SIGKILL k else
      if handler_of (tasks (sch k) t) sig =? SIG_DFL then
        if fatal sig then exits me sig k else signal_loop me t pending n (sig + 1) k
      else
        match tf (procs k t) with
        | None => signal_loop me t pending n (sig + 1) k
        | Some f => deliver me t sig f k
        end
  end.

Definition deliverable (t : task) : Z :=
  Z.lor (Z.land (signal_pending t) (Z.lnot (signal_mask t)))
        (Z.land (signal_pending t) (Z.lor (sigbit SIGKILL) (sigbit SIGSTOP))).

Definition do_signal_check (me t : nat) k : outcome (flow * kern S N) :=
  let task := tasks (sch k) t in
  if pid task =? 0 then Ret (Returns, k) else
  let pending := deliverable task in
  if pending =? 0 then Ret (Returns, k) else
  if negb (Z.land pending (sigbit SIGSTOP) =? 0) then
    s ← schedule me (upd_task t (λ u, set_state T_STOPPED (clear_bit SIGSTOP u)) (sch k));
    Ret (Parked, set_sch s k)
  else if negb (Z.land pending (sigbit SIGCONT) =? 0) then
    let k := upd_tk t (clear_bit SIGCONT) k in
    if bool_decide (state task = T_STOPPED) then
      let k := upd_tk t (set_state T_RUNNABLE) k in
      Ret (Returns, if decide (current me (sch k) = Some t) then k else set_sch (runqueue_add me t (sch k)) k)
    else Ret (Returns, k)
  else signal_loop me t pending 31 1 k.

(** ** Return from a handler *)

Definition restore (w : nat → Z) (f : intr_frame) : intr_frame :=
  IntrFrame (w 20%nat) (w 19%nat) (w 18%nat) (w 17%nat) (w 16%nat) (w 15%nat) (w 14%nat) (w 13%nat)
    (w 12%nat) (w 11%nat) (w 10%nat) (w 9%nat) (w 8%nat) (w 6%nat) (w 7%nat) (intno f) (err f)
    (w 1%nat) (w 2%nat) (Z.land (Z.lor (Z.lor (w 3%nat) 0x2) 0x200) (Z.lnot IOPL)) (w 4%nat) (w 5%nat).

Definition user_selectors (cs ss : Z) : bool :=
  (Z.land cs 3 =? 3) && (Z.land cs (Z.lnot 3) =? 0x18) && (Z.land ss 3 =? 3) && (Z.land ss (Z.lnot 3) =? 0x20).

Definition sys_sigreturn (me : nat) k : outcome (flow * Z * kern S N) :=
  match current me (sch k) with
  | None => Ret (Returns, LNXRM_EFAIL, k)
  | Some t =>
      match tf (procs k t) with
      | None => Ret (Returns, LNXRM_EFAIL, k)
      | Some f =>
          let root := root_of t k in
          let usp := ussp f in
          if negb (user_ptr_ok root usp 176 (mem k))
          then '(fl, k) ← exits me SIGSEGV k; Ret (fl, LNXRM_EFAIL, k) else
          let frame := load_bytes root usp FRAME_SIZE (mem k) in
          let w (i : nat) := le64 frame (8 * i) in
          if negb (user_selectors (w 2%nat) (w 5%nat)) ||
             negb (user_ptr_ok root (w 1%nat) 1 (mem k)) || negb (user_ptr_ok root (w 4%nat) 1 (mem k))
          then '(fl, k) ← exits me SIGSEGV k; Ret (fl, LNXRM_EFAIL, k)
          else Ret (Returns, 0, upd_proc t (set_tf (Some (restore w f))) k)
      end
  end.

(** [syscall_entry] with the number of sigreturn in [rax]: the result of the
    call goes to [rax], then pending signals are delivered. *)
Definition syscall_sigreturn (me t : nat) (f : intr_frame) k : outcome (flow * kern S N) :=
  let k := upd_proc t (set_tf (Some f)) k in
  '(fl, ret, k) ← sys_sigreturn me k;
  match fl, tf (procs k t) with
  | Returns, Some f =>
      let f := set_rflags (Z.lor (rflags f) 0x200) (set_rax (u64 ret) f) in
      let k := upd_proc t (set_tf (Some f)) k in
      if Z.land (cs f) 3 =? 3 then do_signal_check me t k else Ret (Returns, k)
  | _, _ => Ret (fl, k)
  end.

(** ** System calls *)

Definition sys_kill (me : nat) (p sig : Z) (s : sched) : Z * sched :=
  if (sig <? 0) || (Z.of_nat NR_SIGNALS <=? sig) then (LNXRM_EINVAL, s) else
  if 0 <? p then
    match find_task p s with
    | None => (LNXRM_ESRCH, s)
    | Some t => (0, send_signal me t sig s)
    end
  else if p =? -1 then
    (0, for_loop (λ i (s : sched), if negb (is_unused s i) && (0 <? pid (tasks s i)) then send_signal me i sig s else s) 0 NR_TASKS s)
  else (LNXRM_EINVAL, s).

(** [struct lnxrm_sigaction] in memory: two words and a 32-bit flag word,
    and four bytes of padding [pad], which the kernel does not initialise. *)
Definition sa_bytes (pad : list Z) (a : sigaction) : list Z :=
  le_bytes 8 (sa_handler a) ++ le_bytes 8 (sa_mask a) ++ le_bytes 4 (sa_flags a) ++ pad.
Definition sa_parse (l : list Z) : sigaction := Sigaction (le64 l 0) (le64 l 8) (i32 (le32 l 16)).

Definition sys_sigaction (pad : list Z) (t : nat) (sig uact uoldact : Z) k : Z * kern S N :=
  if (sig <? 1) || (Z.of_nat NR_SIGNALS <=? sig) then (LNXRM_EINVAL, k) else
  let root := root_of t k in
  let i := Z.to_nat sig in
  let k := if negb (uoldact =? 0) && user_ptr_ok root uoldact 24 (mem k)
           then match copy_to_user root uoldact (sa_bytes pad (sa (tasks (sch k) t) i)) (mem k) with
                | Some s => set_mem s k
                | None => k
                end
           else k in
  let k := if negb (uact =? 0) && user_ptr_ok root uact 24 (mem k)
           then match copy_from_user root uact 24 (mem k) with
                | Some l => upd_tk t (λ u, set_sa (<[i := sa_parse l]> (sa u)) u) k
                | None => k
                end
           else k in
  (0, k).

Definition sys_sigprocmask (t : nat) (how uset uoldset : Z) k : Z * kern S N :=
  let root := root_of t k in
  let old := signal_mask (tasks (sch k) t) in
  let k := if negb (uoldset =? 0) && user_ptr_ok root uoldset 8 (mem k)
           then match copy_to_user root uoldset (le_bytes 8 old) (mem k) with Some s => set_mem s k | None => k end
           else k in
  if negb (uset =? 0) && user_ptr_ok root uset 8 (mem k) then
    match copy_from_user root uset 8 (mem k) with
    | None => (0, k)
    | Some l =>
        let new := le64 l 0 in
        let m := signal_mask (tasks (sch k) t) in
        let keep m := Z.land m (Z.lnot (Z.lor (sigbit SIGKILL) (sigbit SIGSTOP))) in
        if how =? 0 then (0, upd_tk t (set_mask (keep (Z.lor m new))) k)
        else if how =? 1 then (0, upd_tk t (set_mask (keep (Z.land m (Z.lnot new)))) k)
        else if how =? 2 then (0, upd_tk t (set_mask (keep new)) k)
        else (LNXRM_EINVAL, k)
    end
  else (0, k).
End signal.
