(* ===== verification/Tramp.v ===== *)
(** Installing the signal trampoline ([signal_init_trampoline] of
    [kernel/signal.c]): the code is written through the fixmap window of the
    kernel and becomes a page of the process. *)
From S2P Require Import Prelude Pmm PmmFacts PmmInit Frames Kheap Vmm VmmFacts VmmLife VmmDup UserMem Aspace Sched Proc Signal.

Section tramp.
Context {S : Type} `{FrameLaws S}.
Implicit Types (s : S) (A : list (Z * nat)).

(** The entry of the kernel's directory for the window, and the page table it
    refers to. *)
Definition FIX_SLOT : Z := PD_HI + 8 * i2_of FIXMAP_VA.
Definition fixmap s : list (Z * nat) := page (word s FIX_SLOT).

(** Memory outside the allocator changes at [x0] at most. *)
Definition foreign_but (x0 : Z) s s' : Prop := ∀ x, foreign s x → foreign s' x ∧ (x ≠ x0 → word s' x = word s x).

Lemma foreign_but_words x0 s s' : foreign_words s s' → foreign_but x0 s s'.
Proof. intros Hf x Hx. by destruct (Hf x Hx). Qed.
Lemma foreign_but_trans x0 s1 s2 s3 : foreign_but x0 s1 s2 → foreign_but x0 s2 s3 → foreign_but x0 s1 s3.
Proof.
  intros H1 H2 x Hx. destruct (H1 x Hx) as [Hx2 Hw1]. destruct (H2 x Hx2) as [Hx3 Hw2]. split; [done|].
  intros Hne. by rewrite Hw2, Hw1.
Qed.

Lemma window_entry t : (4096 | t) → let e := Z.lor (Z.lor t PG_P) PG_W in present e = true ∧ frame_of e = t.
Proof.
  intros Ht e. assert (e = Z.lor t 3) as -> by (unfold e; by rewrite <- Z.lor_assoc).
  destruct (entry_flags t 3 Ht ltac:(lia)) as (-> & -> & _). done.
Qed.

(** The page table of the window is there, or is made. *)
Lemma window_table s A : owned s (fixmap s ++ A) → foreign s FIX_SLOT →
  let r := if present (entry s PD_HI (i2_of FIXMAP_VA)) then Ret s
           else '(pt, s) ← new_table s; Ret (set_entry PD_HI (i2_of FIXMAP_VA) (Z.lor (Z.lor pt PG_P) PG_W) s) in
  r = Panic ∨ ∃ s', r = Ret s' ∧ owned s' (fixmap s' ++ A) ∧ present (word s' FIX_SLOT) = true ∧
    own_words A s s' ∧ foreign_but FIX_SLOT s s'.
Proof.
  intros Ho Hfx r. unfold r, entry, set_entry. change (PD_HI + 8 * i2_of FIXMAP_VA) with FIX_SLOT.
  destruct (present (word s FIX_SLOT)) eqn:Ep.
  { right. exists s. split_and!; [done..|]. apply foreign_but_words, foreign_words_refl. }
  unfold fixmap, page in Ho. rewrite Ep in Ho. cbn [app] in Ho.
  destruct (new_table_spec s A Ho) as [->|(t & s1 & -> & Ho1 & Hw1 & Hf1 & _)]; [by left|right]. cbn [mbind outcome_bind].
  destruct (owned_page s1 _ t Ho1 (list_elem_of_here _ _)) as [Hal _]. destruct (window_entry t Hal) as [Hp Hfr].
  set (e := Z.lor (Z.lor t PG_P) PG_W) in *. destruct (Hf1 _ Hfx) as [Hfx1 _].
  exists (set_word FIX_SLOT e s1). split; [done|]. unfold fixmap. rewrite word_set_eq. unfold page. rewrite Hp, Hfr.
  split_and!; [by apply foreign_word_owned|done| |].
  - intros x Hx. rewrite word_set_ne; [by apply Hw1|]. intros ->. by apply Hx, (foreign_owners s _ _ Ho).
  - intros x Hx. destruct (Hf1 x Hx) as [Hx1 Hwx]. split; [by apply set_word_foreign|]. intros Hne. by rewrite word_set_ne.
Qed.

Lemma map_window_spec pa s A : owned s (fixmap s ++ A) → foreign s FIX_SLOT →
  vmm_map_kernel_page FIXMAP_VA pa 0 s = Panic ∨
  ∃ s', vmm_map_kernel_page FIXMAP_VA pa 0 s = Ret s' ∧ owned s' (fixmap s' ++ A) ∧ own_words A s s' ∧ foreign_but FIX_SLOT s s'.
Proof.
  intros Ho Hfx. unfold vmm_map_kernel_page. destruct (window_table s A Ho Hfx) as [->|(s1 & -> & Ho1 & Hp1 & Hw1 & Hf1)]; [by left|right].
  cbn [mbind outcome_bind]. unfold entry at 1. change (PD_HI + 8 * i2_of FIXMAP_VA) with FIX_SLOT.
  set (pt := frame_of (word s1 FIX_SLOT)). set (v := Z.lor _ _).
  assert (fixmap s1 = [(pt, 0%nat)]) as Hfx1 by (unfold fixmap, page; by rewrite Hp1). rewrite Hfx1 in Ho1. cbn [app] in Ho1.
  assert (0 ≤ i1_of FIXMAP_VA < 512) as Hi by by_eval.
  destruct (set_entry_spec pt (i1_of FIXMAP_VA) v s1 _ Ho1 (list_elem_of_here _ _) Hi) as (Ho2 & Hout & Hf2 & _).
  set (s2 := set_entry pt _ v s1) in *. pose proof (outside_foreign pt s1 s2 _ Ho1 (list_elem_of_here _ _) Hout Hf2) as Hfw.
  assert (word s2 FIX_SLOT = word s1 FIX_SLOT) as Hsame by (apply Hfw, Hf1, Hfx).
  exists s2. split_and!; [done| | |].
  - unfold fixmap. rewrite Hsame. change (page (word s1 FIX_SLOT)) with (fixmap s1). by rewrite Hfx1.
  - eapply own_words_trans; [exact Hw1|]. by eapply outside_own.
  - eapply foreign_but_trans; [exact Hf1|]. by apply foreign_but_words.
Qed.

(** The byte of the code at an address of the page. *)
Definition code_byte (code : list Z) (a : Z) : Z :=
  nth_byte (default 0 (code !! Z.to_nat (a mod 4096 / 8))) (a mod 4096 mod 8).

(** Clearing the frame and writing the code into it. *)
Lemma write_code_spec code pa s A : owned s A → (pa, 0%nat) ∈ A → (length code ≤ 512)%nat →
  let s' := for_loop (λ i, set_entry pa (Z.of_nat i) (default 0 (code !! i))) 0 (length code) (zero_page pa s) in
  owned s' A ∧ outside pa s s' ∧ (∀ x, foreign s x → foreign s' x) ∧ ∀ a, page_byte s' pa a = code_byte code a.
Proof.
  intros Ho Hin Hlen s'. destruct (zero_page_spec pa s A Ho Hin) as (Ho1 & Hout1 & Hf1 & Hz).
  destruct (fill_spec (λ _, false) (λ i _, default 0 (code !! i)) pa A (length code) 0 (zero_page pa s))
    as (Ho2 & Hout2 & Hf2 & He); [done|done|done|lia|]. change (for_loop _ 0 _ _) with s' in Ho2, Hout2, Hf2, He.
  split_and!; [done|intros x Hx; by rewrite Hout2, Hout1|by auto|]. intros a. unfold page_byte, code_byte.
  pose proof (page_index a) as Hi. specialize (He (Z.to_nat (a mod 4096 / 8))). rewrite Z2Nat.id in He by lia. rewrite He.
  destruct (decide _) as [|Hn]; [done|]. rewrite Hz by done. by rewrite lookup_ge_None_2 by lia.
Qed.

(** The trampoline of a process that has none: its page appears with the code,
    unless there is no frame for it; nothing else of the process changes. *)
Lemma tramp_spec code root s A : owned s (user_frames s root ++ fixmap s ++ A) → foreign s FIX_SLOT →
  (length code ≤ 512)%nat → vmm_translate_in root SIG_TRAMPOLINE_VA s = 0 →
  signal_init_trampoline code root s = Panic ∨
  ∃ s', signal_init_trampoline code root s = Ret s' ∧ owned s' (user_frames s' root ++ fixmap s' ++ A) ∧
    own_words A s s' ∧ foreign_but FIX_SLOT s s' ∧ same_slots root s s' ∧
    (s' = s ∨ ∀ a, view root s' a = if decide (a / 4096 = SIG_TRAMPOLINE_VA / 4096) then Some (code_byte code a) else view root s a).
Proof.
  intros Ho Hfx Hlen Hz. unfold signal_init_trampoline. rewrite Hz. cbn [Z.eqb negb].
  destruct (alloc_page s _ Ho) as [->|(pa & s1 & -> & Hne & Ho1 & Hw1 & Hf1)]; [right|].
  { exists s. split_and!; [done|done|done|apply foreign_but_words, foreign_words_refl|done|by left]. }
  rewrite Hne. pose proof (own_words_l _ _ _ _ Hw1) as Hwu1. pose proof (user_frames_ext _ _ _ Hwu1) as Hfe1.
  assert (fixmap s1 = fixmap s) as Hx1 by (unfold fixmap; by rewrite (proj2 (Hf1 _ Hfx))).
  assert (owned s1 (fixmap s1 ++ (pa, 0%nat) :: user_frames s root ++ A)) as Ho1'.
  { rewrite Hx1. eapply owned_perm; [exact Ho1|]. rewrite <- Permutation_middle. apply perm_skip, Permutation_app_swap_app. }
  destruct (map_window_spec pa s1 _ Ho1') as [->|(s2 & -> & Ho2 & Hw2 & Hf2)]; [by apply Hf1|by left|]. cbn [mbind outcome_bind].
  assert ((pa, 0%nat) ∈ fixmap s2 ++ (pa, 0%nat) :: user_frames s root ++ A) as Hin by in_app.
  destruct (write_code_spec code pa s2 _ Ho2 Hin Hlen) as (Ho3 & Hout3 & Hf3 & Hb3). set (s3 := for_loop _ 0 _ _) in *.
  assert (own_words (fixmap s2 ++ user_frames s root ++ A) s2 s3) as Hw3.
  { eapply outside_own; [exact Ho2|by rewrite <- Permutation_middle|exact Hout3]. }
  pose proof (outside_foreign pa s2 s3 _ Ho2 Hin Hout3 Hf3) as Hfw3. destruct (Hf2 _ (proj1 (Hf1 _ Hfx))) as [Hfx2 _].
  assert (fixmap s3 = fixmap s2) as Hx3 by (unfold fixmap; by rewrite (proj2 (Hfw3 _ Hfx2))).
  assert (own_words (user_frames s root ++ A) s s3) as Hw.
  { eapply own_words_trans; [|eapply own_words_trans; [|exact (own_words_r _ _ _ _ Hw3)]].
    - eapply own_words_sub; [|exact Hw1]. intros b Hb. set_solver.
    - eapply own_words_sub; [|exact Hw2]. intros b Hb. by apply list_elem_of_further. }
  pose proof (user_frames_ext _ _ _ (own_words_l _ _ _ _ Hw)) as Hfe.
  assert (owned s3 (user_frames s3 root ++ (pa, 0%nat) :: fixmap s3 ++ A)) as Ho4.
  { rewrite Hfe, Hx3. eapply owned_perm; [exact Ho3|]. solve_Permutation. }
  assert (vmm_translate_in root SIG_TRAMPOLINE_VA s3 = 0) as Hz3.
  { rewrite (translate_ext _ _ _ _ _ _ Ho (own_words_l _ _ _ _ Hw) Ho4); [done|by_eval]. }
  destruct (map_user_view root SIG_TRAMPOLINE_VA pa true true s3 _ Ho4) as [->|(s4 & -> & [Ho5 Hw5 Hf5 Hs5] & Hv)];
    [by_eval|by_eval|done|by left|right]. cbn [mbind outcome_bind]. exists s4.
  assert (foreign_but FIX_SLOT s s4) as Hfb.
  { eapply foreign_but_trans; [by apply foreign_but_words|]. eapply foreign_but_trans; [exact Hf2|].
    apply foreign_but_words. by eapply foreign_words_trans. }
  assert (fixmap s4 = fixmap s3) as Hx4 by (unfold fixmap; by rewrite (proj2 (Hf5 _ (proj1 (Hfw3 _ Hfx2))))).
  split_and!; [done|by rewrite Hx4| |done| |right].
  - eapply own_words_trans; [exact (own_words_r _ _ _ _ Hw)|exact (own_words_r _ _ _ _ Hw5)].
  - intros i Hi Hne'. rewrite Hs5 by done. eapply own_entry; [exact (own_words_l _ _ _ _ Hw)|apply list_elem_of_here|done].
  - intros a. rewrite Hv, Hb3. destruct (decide _); [done|]. by rewrite (view_ext _ _ _ _ _ Ho (own_words_l _ _ _ _ Hw) Ho4).
Qed.
End tramp.
