(* ===== verification/Brk.v ===== *)
(** The heap of a process: [sys_brk] of [kernel/syscall.c]. *)
From S2P Require Import Prelude Pmm PmmFacts PmmInit Frames Kheap Vmm VmmFacts VmmLife VmmDup VmmDemo UserMem Aspace Budget Sched Proc Signal.

Section brk.
Context {S N : Type} `{Frames S}.
Implicit Types (k : kern S N) (s : S).

(** The loop that adds [n] pages from [va] on: the frames may run out. *)
Fixpoint brk_grow (n : nat) (root va : Z) s : outcome (bool * S) :=
  match n with
  | O => Ret (true, s)
  | Datatypes.S n =>
      '(ok, s) ← map_fresh root va true s;
      if ok : bool then brk_grow n root (va + PAGE_SIZE) s else Ret (false, s)
  end.

(** The loop that gives back [n] pages from [va] on. *)
Fixpoint brk_shrink (n : nat) (root va : Z) s : outcome S :=
  match n with
  | O => Ret s
  | Datatypes.S n =>
      let '(pa, s) := vmm_unmap_user root va s in
      s ← (if negb (pa =? 0) then free_frame pa 0 s else Ret s);
      brk_shrink n root (va + PAGE_SIZE) s
  end.

(** Both bounds of the loops are multiples of the page size. *)
Definition sys_brk (t : nat) (newbrk : Z) k : outcome (Z * kern S N) :=
  let p := procs k t in
  if newbrk =? 0 then Ret (i64 (brk_cur p), k) else
  if (newbrk <? brk_base p) || (USER_STACK_TOP - Z.shiftl 1 20 <? newbrk) then Ret (LNXRM_ENOMEM, k) else
  let old := ALIGN_UP (brk_cur p) PAGE_SIZE in
  let tgt := ALIGN_UP newbrk PAGE_SIZE in
  let done k := Ret (i64 newbrk, upd_proc t (set_brk_cur newbrk) k) in
  if old <? tgt then
    '(ok, s) ← brk_grow (Z.to_nat ((tgt - old) / PAGE_SIZE)) (root_of t k) old (mem k);
    if ok : bool then done (set_mem s k) else Ret (LNXRM_ENOMEM, set_mem s k)
  else
    s ← brk_shrink (Z.to_nat ((old - tgt) / PAGE_SIZE)) (root_of t k) tgt (mem k);
    done (set_mem s k).
End brk.

(** ** The heap of a process as a process sees it *)
Section facts.
Context {S N : Type} `{FrameLaws S}.
Implicit Types (k : kern S N) (s : S) (A : list (Z * nat)).

(** The bytes from [lo] to [hi] become [v]. *)
Definition refill_range (lo hi : Z) (v : option Z) (m : Z → option Z) (a : Z) : option Z :=
  if decide (lo ≤ a < hi) then v else m a.

(** A page and the [n] pages behind it. *)
Lemma refill_next va n v m m' a : (∀ a, m' a = refill_range va (va + 4096) v m a) →
  refill_range (va + PAGE_SIZE) (va + PAGE_SIZE + 4096 * Z.of_nat n) v m' a =
  refill_range va (va + 4096 * Z.of_nat (Datatypes.S n)) v m a.
Proof. intros Hm. unfold refill_range at 1. rewrite Hm. unfold refill_range, PAGE_SIZE. repeat case_decide; (done || lia). Qed.

Lemma page_range va a : va mod 4096 = 0 → a / 4096 = va / 4096 ↔ va ≤ a < va + 4096.
Proof.
  intros Hal. pose proof (Z.div_mod a 4096). pose proof (Z.div_mod va 4096). pose proof (Z.mod_pos_bound a 4096). lia.
Qed.

Lemma brk_grow_spec root A n : ∀ va s, owned s (user_frames s root ++ A) → va mod 4096 = 0 →
  USER_BASE ≤ va → va + 4096 * Z.of_nat n ≤ USER_MAX_VMA →
  (∀ a, va ≤ a < va + 4096 * Z.of_nat n → view root s a = None) →
  brk_grow n root va s = Panic ∨
  ∃ ok s' j, brk_grow n root va s = Ret (ok, s') ∧ kept root A s s' ∧ (j ≤ n)%nat ∧ (ok = true ↔ j = n) ∧
    (ok = false → fr_alloc 0 s' = (0, s')) ∧
    ∀ a, view root s' a = refill_range va (va + 4096 * Z.of_nat j) (Some 0) (view root s) a.
Proof.
  induction n as [|n IH]; intros va s Ho Hal Hlo Hhi Hfree; cbn [brk_grow].
  { right. exists true, s, 0%nat. split_and!; [done|by apply kept_refl|done..|]. intros a. unfold refill_range.
    by rewrite decide_False by lia. }
  assert (user_va va) as Hu by (unfold user_va, USER_MAX_VMA in *; lia).
  assert (vmm_translate_in root va s = 0) as Hz.
  { destruct (decide (vmm_translate_in root va s = 0)) as [|Hnz]; [done|]. specialize (Hfree va ltac:(lia)).
    by rewrite (view_some root va s (conj Hu Hnz)) in Hfree. }
  destruct (map_fresh_spec root va true s A Ho ltac:(lia) Hal Hz) as [->|[[-> Hoom]|(s1 & -> & Hk & Hv)]]; [by left| |].
  { right. exists false, s, 0%nat. split_and!; [done|by apply kept_refl|lia|done|done|]. intros a. unfold refill_range.
    by rewrite decide_False by lia. }
  cbn [mbind outcome_bind]. assert (∀ a, view root s1 a = refill_range va (va + 4096) (Some 0) (view root s) a) as Hv1.
  { intros a. rewrite Hv. unfold refill_range. pose proof (page_range va a Hal). repeat case_decide; (done || tauto). }
  destruct (IH (va + PAGE_SIZE) s1 (kp_owned _ _ _ _ Hk)) as [->|(ok & s2 & j & -> & Hk2 & Hj & Hok & Hoom & Hv2)].
  { unfold PAGE_SIZE. by rewrite <- Zplus_mod_idemp_l, Hal. } { unfold PAGE_SIZE. lia. } { unfold PAGE_SIZE. lia. }
  { unfold PAGE_SIZE. intros a Ha. rewrite Hv1. unfold refill_range. rewrite decide_False by lia. apply Hfree. lia. } { by left. }
  right. exists ok, s2, (Datatypes.S j). split_and!; [done|by eapply kept_trans|lia|rewrite Hok; lia|done|].
  intros a. rewrite Hv2. by apply refill_next.
Qed.

(** Four frames are enough for a page. *)
Lemma brk_grow_cost root A n : ∀ va s, owned s (user_frames s root ++ A) → va mod 4096 = 0 →
  USER_BASE ≤ va → va + 4096 * Z.of_nat n ≤ USER_MAX_VMA →
  (∀ a, va ≤ a < va + 4096 * Z.of_nat n → view root s a = None) →
  costs_ok (4 * Z.of_nat n) s (brk_grow n root va s).
Proof.
  induction n as [|n IH]; intros va s Ho Hal Hlo Hhi Hfree; cbn [brk_grow]; [cbn; lia|].
  assert (user_va va) as Hu by (unfold user_va, USER_MAX_VMA in *; lia).
  assert (vmm_translate_in root va s = 0) as Hz.
  { destruct (decide (vmm_translate_in root va s = 0)) as [|Hnz]; [done|]. specialize (Hfree va ltac:(lia)).
    by rewrite (view_some root va s (conj Hu Hnz)) in Hfree. }
  pose proof (map_fresh_cost root va true s A Ho ltac:(lia) Hal) as Hc.
  destruct (map_fresh_spec root va true s A Ho ltac:(lia) Hal Hz) as [E|[[E _]|(s1 & E & Hk & Hv)]]; rewrite E in *;
    cbn [mbind outcome_bind costs_ok] in *; [lia|lia|].
  specialize (IH (va + PAGE_SIZE) s1 (kp_owned _ _ _ _ Hk)). unfold PAGE_SIZE in *.
  assert (costs_ok (4 * Z.of_nat n) s1 (brk_grow n root (va + 4096) s1)) as Hr.
  { apply IH; [by rewrite <- Zplus_mod_idemp_l, Hal|lia|lia|]. intros a Ha. rewrite Hv.
    rewrite decide_False by (rewrite page_range by done; lia). apply Hfree. lia. }
  destruct (brk_grow _ _ _ _) as [[[] s2]| |]; cbn [costs_ok] in *; (lia || done).
Qed.

Lemma unmap_none root va s A : owned s (user_frames s root ++ A) → user_va va → vmm_translate_in root va s = 0 →
  vmm_unmap_user root va s = (0, s).
Proof.
  intros Ho Hva Hz. rewrite (translate_user s root va A Ho Hva) in Hz. cbn zeta in Hz. unfold vmm_unmap_user.
  destruct (walk_user s root va A Ho Hva) as [[-> _]|(pt & -> & Hl & _)]; [done|].
  rewrite <- Hl. destruct (present (user_leaf s root (vpath va))) eqn:E; [|done].
  pose proof (user_leaf_frame s root _ _ Ho (vpath_ok va) E). pose proof (Z.mod_pos_bound va 4096). lia.
Qed.

Lemma shrink_page root va s A : owned s (user_frames s root ++ A) → va mod 4096 = 0 → user_va va →
  ∃ s', (let '(pa, s) := vmm_unmap_user root va s in if negb (pa =? 0) then free_frame pa 0 s else Ret s) = Ret s' ∧
    kept root A s s' ∧ ∀ a, view root s' a = refill_range va (va + 4096) None (view root s) a.
Proof.
  intros Ho Hal Hu. destruct (decide (vmm_translate_in root va s = 0)) as [Hz|Hnz].
  - rewrite (unmap_none root va s A Ho Hu Hz). exists s. split_and!; [done|by apply kept_refl|]. intros a. unfold refill_range.
    case_decide as Ha; [|done]. destruct (view root s a) eqn:Ev; [|done].
    assert (mapped root a s) as [Hua Hta] by (apply view_mapped; by rewrite Ev).
    by destruct (translate_page root a va s A Ho Hua Hu (proj2 (page_range va a Hal) Ha) Hta).
  - destruct (unmap_user_view root va s A Ho Hu Hnz) as (pa & s1 & -> & Hpa & Ho1 & Hw1 & Hf1 & Hs1 & Hv1).
    rewrite (proj2 (Z.eqb_neq pa 0) Hpa). cbn [negb].
    destruct (free_frame_spec pa 0 s1 (user_frames s1 root ++ A)) as (s2 & -> & Ho2 & Hw2 & Hf2).
    { eapply owned_perm; [exact Ho1|]. by rewrite Permutation_middle. }
    pose proof (own_words_l _ _ _ _ Hw2) as Hwu. pose proof (user_frames_ext s1 s2 root Hwu) as Hfe.
    assert (owned s2 (user_frames s2 root ++ A)) as Ho2' by (by rewrite Hfe).
    exists s2. split; [done|]. split.
    + constructor; [done| |by eapply foreign_words_trans|].
      * eapply own_words_trans; [exact Hw1|exact (own_words_r _ _ _ _ Hw2)].
      * intros i Hi Hne. rewrite <- Hs1 by done. eapply own_entry; [exact Hwu|apply list_elem_of_here|done].
    + intros a. rewrite (view_ext root s1 s2 _ _ Ho1 Hwu Ho2'), Hv1. unfold refill_range.
      pose proof (page_range va a Hal). repeat case_decide; (done || tauto).
Qed.

Lemma brk_shrink_spec root A n : ∀ va s, owned s (user_frames s root ++ A) → va mod 4096 = 0 →
  USER_BASE ≤ va → va + 4096 * Z.of_nat n ≤ USER_MAX_VMA →
  ∃ s', brk_shrink n root va s = Ret s' ∧ kept root A s s' ∧
    ∀ a, view root s' a = refill_range va (va + 4096 * Z.of_nat n) None (view root s) a.
Proof.
  induction n as [|n IH]; intros va s Ho Hal Hlo Hhi; cbn [brk_shrink].
  { exists s. split_and!; [done|by apply kept_refl|]. intros a. unfold refill_range. by rewrite decide_False by lia. }
  destruct (shrink_page root va s A Ho Hal) as (s1 & E & Hk & Hv1); [unfold user_va, USER_MAX_VMA in *; lia|].
  destruct (vmm_unmap_user root va s) as [pa s0]. rewrite E. cbn [mbind outcome_bind].
  destruct (IH (va + PAGE_SIZE) s1 (kp_owned _ _ _ _ Hk)) as (s2 & -> & Hk2 & Hv2).
  { unfold PAGE_SIZE. by rewrite <- Zplus_mod_idemp_l, Hal. } { unfold PAGE_SIZE. lia. } { unfold PAGE_SIZE. lia. }
  exists s2. split_and!; [done|by eapply kept_trans|]. intros a. rewrite Hv2. by apply refill_next.
Qed.

(** The heap lies between its base and the break, above it there is room up
    to 1 MiB below the stack. *)
Definition BRK_MAX : Z := USER_STACK_TOP - Z.shiftl 1 20.
Definition page_up (x : Z) : Z := (x + 4095) / 4096 * 4096.

Record heap_at (root base brk : Z) s : Prop := {
  ha_base : USER_BASE ≤ base;
  ha_brk : base ≤ brk ≤ BRK_MAX;
  ha_heap a : page_up base ≤ a < page_up brk → view root s a ≠ None;
  ha_room a : page_up brk ≤ a < BRK_MAX → view root s a = None;
}.

Lemma page_up_eq x : 0 ≤ x ≤ BRK_MAX → ALIGN_UP x PAGE_SIZE = page_up x.
Proof.
  intros Hx. assert (BRK_MAX < 2 ^ 47) by by_eval. change PAGE_SIZE with (2 ^ 12). rewrite ALIGN_UP_pow2 by lia.
  unfold page_up. change (2 ^ 12) with 4096. do 2 f_equal. lia.
Qed.

Lemma page_up_mono x y : x ≤ y → page_up x ≤ page_up y.
Proof. intros Hxy. unfold page_up. pose proof (Z.div_le_mono (x + 4095) (y + 4095) 4096). lia. Qed.
Lemma page_up_max x : x ≤ BRK_MAX → page_up x ≤ BRK_MAX.
Proof. intros Hx. pose proof (page_up_mono x BRK_MAX Hx). assert (page_up BRK_MAX = BRK_MAX) by by_eval. lia. Qed.
Lemma page_up_mod x : page_up x mod 4096 = 0.
Proof. apply Z_mod_mult. Qed.
Lemma page_count x y : page_up x ≤ page_up y → 4096 * Z.of_nat (Z.to_nat ((page_up y - page_up x) / PAGE_SIZE)) = page_up y - page_up x.
Proof.
  intros Hxy. unfold PAGE_SIZE. rewrite Z2Nat.id by (apply Z.div_pos; lia). unfold page_up.
  rewrite <- Z.mul_sub_distr_r, Z.div_mul by lia. lia.
Qed.

(** The heap after the break has moved. *)
Definition moved (old new : Z) (m : Z → option Z) : Z → option Z :=
  if decide (page_up old < page_up new) then refill_range (page_up old) (page_up new) (Some 0) m
  else refill_range (page_up new) (page_up old) None m.

Lemma moved_heap root base old new s s' : heap_at root base old s → base ≤ new ≤ BRK_MAX →
  (∀ a, view root s' a = moved old new (view root s) a) → heap_at root base new s'.
Proof.
  intros [Hb Hr Hh Hf] Hn Hv. pose proof (page_up_mono base new). constructor; [done|done| |]; intros a Ha; rewrite Hv; unfold moved, refill_range.
  - repeat case_decide; (done || lia || (apply Hh; lia)).
  - repeat case_decide; (done || lia || (apply Hf; lia)).
Qed.

Lemma page_up_base x : USER_BASE ≤ x → USER_BASE ≤ page_up x.
Proof. intros Hx%page_up_mono. assert (page_up USER_BASE = USER_BASE) by by_eval. lia. Qed.

(** The frames that are certain to be enough: four for every page. *)
Definition grow_need (old new : Z) : Z := 4 * ((page_up new - page_up old) / 4096).

Lemma grow_case root base old new s A : owned s (user_frames s root ++ A) → heap_at root base old s →
  new ≤ BRK_MAX → page_up old < page_up new →
  let n := Z.to_nat ((page_up new - page_up old) / PAGE_SIZE) in
  (brk_grow n root (page_up old) s = Panic ∧ avail s < grow_need old new) ∨
  ∃ ok s', brk_grow n root (page_up old) s = Ret (ok, s') ∧ kept root A s s' ∧
    if ok then ∀ a, view root s' a = moved old new (view root s) a
    else avail s < grow_need old new ∧ fr_alloc 0 s' = (0, s') ∧ ∃ top, page_up old ≤ top < page_up new ∧ ∀ a, view root s' a = refill_range (page_up old) top (Some 0) (view root s) a.
Proof.
  intros Ho [Hb Hr _ Hfr] Hn Hg n. assert (BRK_MAX < USER_MAX_VMA) as HM by by_eval.
  pose proof (page_count old new ltac:(lia)) as Hpg. fold n in Hpg. pose proof (page_up_max new Hn).
  assert (4 * Z.of_nat n = grow_need old new) as Hneed by (unfold grow_need; rewrite <- (Z.div_unique_exact _ _ (Z.of_nat n)); lia).
  assert (∀ a, page_up old ≤ a < page_up old + 4096 * Z.of_nat n → view root s a = None) as Hroom by (intros a Ha; apply Hfr; lia).
  pose proof (page_up_base old ltac:(lia)) as Hlo. pose proof (brk_grow_cost root A n (page_up old) s Ho (page_up_mod _) Hlo ltac:(lia) Hroom) as Hc.
  destruct (brk_grow_spec root A n (page_up old) s Ho (page_up_mod _) Hlo ltac:(lia) Hroom) as [E|(ok & s' & j & E & Hk & Hj & Hok & Hoom & Hv)];
    rewrite E in Hc; rewrite <- Hneed; [by left|].
  right. exists ok, s'. split_and!; [done|done|]. destruct ok.
  - intros a. rewrite Hv, (proj1 Hok eq_refl). unfold moved. rewrite decide_True by done. f_equal. lia.
  - assert (j ≠ n) by (intros Hjn; by apply Hok in Hjn). split_and!; [done|by apply Hoom|]. eexists. split; [|exact Hv]. lia.
Qed.

Lemma shrink_case root base old new s A : owned s (user_frames s root ++ A) → heap_at root base old s →
  base ≤ new ≤ BRK_MAX → page_up new ≤ page_up old →
  ∃ s', brk_shrink (Z.to_nat ((page_up old - page_up new) / PAGE_SIZE)) root (page_up new) s = Ret s' ∧ kept root A s s' ∧
    ∀ a, view root s' a = moved old new (view root s) a.
Proof.
  intros Ho [Hb Hr _ Hfr] Hn Hg. assert (BRK_MAX < USER_MAX_VMA) as HM by by_eval.
  pose proof (page_up_max old ltac:(lia)). pose proof (page_count new old Hg) as Hpg. set (n := Z.to_nat _) in *.
  destruct (brk_shrink_spec root A n (page_up new) s Ho (page_up_mod _)) as (s' & E & Hk & Hv).
  { apply page_up_base. lia. } { lia. }
  exists s'. split_and!; [done|done|]. intros a. rewrite Hv. unfold moved. rewrite decide_False by lia. f_equal. lia.
Qed.

(** C14. [sys_brk] reports the break, refuses a break outside the room of the heap,
    or moves it: the pages between the old and the new break appear as zeros or
    disappear and are given back, all other bytes of the process and all other
    memory stay, and the heap is where the new break says.  Growing can fail,
    but only when fewer than four frames for each added page are free: the
    kernel panics when it finds no frame for a page table, and when it finds
    none for a page, and none is left, the call fails with the break where it
    was, but the pages that were added so far stay in the process. *)
Theorem sys_brk_correct t newbrk k A : let root := root_of t k in let p := procs k t in
  owned (mem k) (user_frames (mem k) root ++ A) → heap_at root (brk_base p) (brk_cur p) (mem k) → 0 ≤ newbrk →
  (sys_brk t newbrk k = Panic ∧ page_up (brk_cur p) < page_up newbrk ∧ avail (mem k) < grow_need (brk_cur p) newbrk) ∨
  ∃ r k', sys_brk t newbrk k = Ret (r, k') ∧ kept root A (mem k) (mem k') ∧ sch k' = sch k ∧ files k' = files k ∧
    ((newbrk = 0 ∧ r = brk_cur p ∧ k' = k) ∨
     (newbrk ≠ 0 ∧ ¬ (brk_base p ≤ newbrk ≤ BRK_MAX) ∧ r = LNXRM_ENOMEM ∧ k' = k) ∨
     (brk_base p ≤ newbrk ≤ BRK_MAX ∧ r = newbrk ∧ brk_cur (procs k' t) = newbrk ∧ brk_base (procs k' t) = brk_base p ∧
      heap_at root (brk_base p) newbrk (mem k') ∧
      ∀ a, view root (mem k') a = moved (brk_cur p) newbrk (view root (mem k)) a) ∨
     (brk_base p ≤ newbrk ≤ BRK_MAX ∧ avail (mem k) < grow_need (brk_cur p) newbrk ∧ fr_alloc 0 (mem k') = (0, mem k') ∧
      r = LNXRM_ENOMEM ∧ procs k' = procs k ∧ ∃ top, page_up (brk_cur p) ≤ top < page_up newbrk ∧
      ∀ a, view root (mem k') a = refill_range (page_up (brk_cur p)) top (Some 0) (view root (mem k)) a)).
Proof.
  intros root p Ho Hh Hn. pose proof (ha_base _ _ _ _ Hh) as Hb. pose proof (ha_brk _ _ _ _ Hh) as Hr. unfold sys_brk. fold p.
  assert (0 < USER_BASE ∧ BRK_MAX < 2 ^ 47) as (HU & H47) by by_eval.
  destruct (Z.eqb_spec newbrk 0) as [->|Hne].
  { right. exists (brk_cur p), k. split_and!; [by unfold i64; rewrite sgn_small by lia|by apply kept_refl|done..|by left]. }
  change (USER_STACK_TOP - Z.shiftl 1 20) with BRK_MAX.
  destruct ((newbrk <? brk_base p) || (BRK_MAX <? newbrk)) eqn:Eb.
  { right. exists LNXRM_ENOMEM, k. split_and!; [done|by apply kept_refl|done..|]. right; left. split_and!; [done| |done..].
    intros [? ?]. apply orb_prop in Eb as [?%Z.ltb_lt|?%Z.ltb_lt]; lia. }
  apply orb_false_elim in Eb as [Eb1%Z.ltb_ge Eb2%Z.ltb_ge]. rewrite !page_up_eq by lia.
  assert (i64 newbrk = newbrk) as Hi64 by (apply sgn_small; lia).
  assert (∀ s', kept root A (mem k) s' → (∀ a, view root s' a = moved (brk_cur p) newbrk (view root (mem k)) a) →
    heap_at root (brk_base p) newbrk s') as Hmv by (intros s' _ Hv; by eapply moved_heap).
  destruct (Z.ltb_spec (page_up (brk_cur p)) (page_up newbrk)) as [Hg|Hg].
  - destruct (grow_case root _ _ newbrk (mem k) A Ho Hh Eb2 Hg) as [[E Hlow]|(ok & s' & E & Hk & Hv)]; unfold root in E; rewrite E; [by left|right].
    cbn [mbind outcome_bind]. destruct ok; eexists _, _; rewrite ?Hi64; (split; [done|]); (split; [exact Hk|]); do 2 (split; [done|]).
    + right; right; left. split_and!; [done..| | |by apply Hmv|exact Hv]; cbn; by rewrite fn_lookup_insert.
    + right; right; right. by destruct Hv as (? & ? & ?).
  - destruct (shrink_case root _ _ newbrk (mem k) A Ho Hh ltac:(lia) Hg) as (s' & E & Hk & Hv); unfold root in E; rewrite E. right.
    cbn [mbind outcome_bind]. eexists _, _. rewrite Hi64. split; [done|]. split; [exact Hk|]. do 2 (split; [done|]).
    right; right; left. split_and!; [done..| | |by apply Hmv|exact Hv]; cbn; by rewrite fn_lookup_insert.
Qed.
End facts.

(** ** Example *)
Module BrkDemo.
Definition base : Z := VmmDemo.va.
Definition k0 : kern pmm_state unit :=
  Kern (MkSched (λ _, set_pml4 VmmDemo.root task_zero) (λ _, MkCpu 0 true (Some 0%nat) None Null false) 0)
    (Heap (λ _, 0) 0 0 0 VmmDemo.s3) (λ _, Proc None 0 base (base + 10) (λ _, None)) ∅ 0.
Definition r1 := get_ret (0, k0) (sys_brk 0 (base + 9000) k0).

Lemma other_pages a : user_va a → a / 4096 ≠ base / 4096 → view VmmDemo.root VmmDemo.s3 a = None.
Proof.
  intros Hu Hne. destruct VmmDemo.s2_owned as [Ho Hz]. destruct VmmDemo.va_ok as (Hr & Hm & _).
  destruct (map_user_spec VmmDemo.root VmmDemo.va VmmDemo.pa true true VmmDemo.s2 [] Ho Hr Hm VmmDemo.s2_unmapped)
    as [Hp|(s' & Heq & _ & Ht & _)].
  { rewrite VmmDemo.r3_eq in Hp. discriminate Hp. }
  assert (s' = VmmDemo.s3) as -> by (rewrite VmmDemo.r3_eq in Heq; congruence).
  apply view_none; [done|]. rewrite (Ht a Hu), decide_False by done.
  rewrite (translate_user VmmDemo.s2 VmmDemo.root a _ Ho Hu).
  assert (user_leaf VmmDemo.s2 VmmDemo.root (vpath a) = 0) as ->; [|done]. unfold user_leaf. by rewrite (Hz USER_SLOT).
Qed.

Lemma heap0 : heap_at VmmDemo.root base (base + 10) VmmDemo.s3.
Proof.
  assert (page_up base = base ∧ page_up (base + 10) = base + 4096) as [E1 E2] by by_eval. constructor; rewrite ?E1, ?E2.
  - by_eval.
  - by_eval.
  - intros a Ha. apply view_mapped, readable_mapped, demo_readable. exact Ha.
  - intros a Ha. assert (BRK_MAX < 2 ^ 47 ∧ USER_BASE ≤ base ∧ base mod 4096 = 0) as (? & ? & Hal) by by_eval.
    apply other_pages; [unfold user_va; lia|]. rewrite page_range by exact Hal. lia.
Qed.
End BrkDemo.

Lemma sys_brk_correct_witness :
  sys_brk 0 (BrkDemo.base + 9000) BrkDemo.k0 = Ret BrkDemo.r1 ∧ BrkDemo.r1.1 = BrkDemo.base + 9000 ∧
  view VmmDemo.root (mem BrkDemo.r1.2) (BrkDemo.base + 5000) = Some 0.
Proof.
  assert (sys_brk 0 (BrkDemo.base + 9000) BrkDemo.k0 = Ret BrkDemo.r1 ∧ BrkDemo.r1.1 = BrkDemo.base + 9000) as [E H1].
  { split; [apply ret_eta|]; vm_compute; reflexivity. }
  split_and!; [exact E|exact H1|].
  destruct (sys_brk_correct 0 (BrkDemo.base + 9000) BrkDemo.k0 [] (proj1 VmmDemo.s3_owned) BrkDemo.heap0) as [[Hp _]|(r & k' & Er & _ & _ & _ & Hc)].
  - by_eval.
  - rewrite E in Hp. discriminate Hp.
  - rewrite E in Er. assert (BrkDemo.r1 = (r, k')) as Hl by congruence. rewrite Hl in *. cbn [fst snd] in *. rewrite H1 in Hc.
    destruct Hc as [[Hx _]|[(_ & _ & Hx & _)|[(_ & _ & _ & _ & _ & Hv)|(_ & _ & _ & Hx & _)]]]; [discriminate Hx..| |discriminate Hx].
    exact (Hv (BrkDemo.base + 5000)).
Defined.
