(* ===== verification/Clients.v ===== *)
(** The heap and the address spaces live on the same frames.

    An operation on page tables or on user memory leaves the heap as it is, and
    an allocation leaves every address space as it is.  [fd_ok] of [ProcFacts]
    is the invariant of the kernel's memory: [R] are the heap blocks that are
    not open files and [O] the frames outside the heap. *)
From S2P Require Import Prelude Bytes Pmm PmmFacts PmmInit Frames Kheap KheapFacts Vmm VmmFacts VmmLife VmmDup UserMem Aspace.
From S2P Require Import Sched Proc ProcFacts Signal.

Section clients.
Context {S N : Type} `{FrameLaws S}.
Implicit Types (k : kern S N) (s : S) (h : heap S) (O A : list (Z * nat)) (R : list (Z * Z)).

Lemma heap_inv_owned h L O : heap_inv (h, L, O) → ∃ P, owned (phys h) (O ++ P).
Proof.
  intros (P & Fr & V & Hok & _). exists P. eapply owned_perm; [apply (hk_owned _ _ _ _ _ Hok)|]. apply Permutation_app_comm.
Qed.

Lemma fd_ok_owned R O k : fd_ok R O k → ∃ P, owned (mem k) (O ++ P).
Proof. intros [(L & Hh & _) _]. by eapply heap_inv_owned. Qed.

(** The invariant depends on the heap, the files and the descriptors. *)
Lemma fd_ok_ext R O k k' : fd_ok R O k → hp k' = hp k → files k' = files k →
  (∀ i, fds (procs k' i) = fds (procs k i)) → fd_ok R O k'.
Proof.
  intros [Hh Hr] Ehp Ef Ep. constructor; [by rewrite Ehp, Ef|]. intros p. specialize (Hr p). rewrite Ef.
  rewrite (refs_ext k k' p); [done|]. intros x _. unfold fd_at. by rewrite Ep.
Qed.

Lemma fd_ok_frames R O O' k : O ≡ₚ O' → fd_ok R O k → fd_ok R O' k.
Proof.
  intros Hp [(L & (P & Fr & V & Hok & HF) & HL) Hr]. constructor; [|done]. exists L. split; [|done]. exists P, Fr, V. split; [|done].
  destruct Hok as [Ho]. constructor; [|done..]. eapply owned_perm; [exact Ho|]. by apply Permutation_app_head.
Qed.

Lemma fd_ok_blocks R R' O k : R ≡ₚ R' → fd_ok R O k → fd_ok R' O k.
Proof. intros Hp [(L & Hh & HL) Hr]. constructor; [|done]. exists L. split; [done|]. by rewrite HL, Hp. Qed.

(** A step of another client of the allocator. *)
Lemma mem_step R O O' k s' : fd_ok R O k →
  (∀ A, owned (mem k) (O ++ A) → owned s' (O' ++ A) ∧ own_words A (mem k) s') → fd_ok R O' (set_mem s' k).
Proof.
  intros [(L & Hh & HL) Hr] Hs. constructor; [|done]. exists L. split; [|done]. cbn [hp set_mem set_hp].
  eapply heap_inv_foreign; [exact Hh|]. intros A Ho. destruct (Hs A) as [Ho' Hw].
  { eapply owned_perm; [exact Ho|]. apply Permutation_app_comm. }
  split; [|done]. eapply owned_perm; [exact Ho'|]. apply Permutation_app_comm.
Qed.

(** ** Allocation and memory outside the allocator *)

Lemma carve_outside pa b i h : 0 < pa → pa + 4096 < 2 ^ 62 → (b < NBINS)%nat →
  (Z.of_nat i + 1) * 2 ^ (Z.of_nat b + 4) ≤ PAGE_SIZE →
  let h' := carve (PHYS_TO_VIRT pa) b i h in
  outside pa (phys h) (phys h') ∧ ∀ x, foreign (phys h) x → foreign (phys h') x.
Proof.
  intros Hp Hp' Hb Hi h'. unfold PAGE_SIZE in Hi. set (sz := 2 ^ (Z.of_nat b + 4)) in *. set (c := pa + Z.of_nat i * sz).
  assert (16 ≤ sz) as Hsz by (unfold sz; change 16 with (2 ^ 4); apply Z.pow_le_mono_r; lia).
  assert (u64 (PHYS_TO_VIRT pa + Z.of_nat i * sz) = PHYS_TO_VIRT c) as Hhd.
  { unfold PHYS_TO_VIRT. rewrite u64_add_l. f_equal. unfold c. lia. }
  assert (pa ≤ c ∧ c + 16 ≤ pa + 4096) as Hc by (unfold c; nia).
  unfold h', carve. fold sz. rewrite Hhd. change (u64 (PHYS_TO_VIRT c + HDR)) with (ptr c). cbn [phys set_freelist set_phys].
  split.
  - intros x Hx. unfold in_blk in Hx. change (blk_size 0) with 4096 in Hx. unfold store. rewrite ptr_phys by lia.
    rewrite word_set_ne by lia. rewrite word_write_hdr by (unfold NBINS in *; lia). by rewrite decide_False by lia.
  - intros x Hx. unfold store, write_hdr, set_magic, set_bin_or_order, store. by repeat apply set_word_foreign.
Qed.

Lemma carve_loop_outside pa b n : 0 < pa → pa + 4096 < 2 ^ 62 → (b < NBINS)%nat → ∀ i h,
  (Z.of_nat i + Z.of_nat n) * 2 ^ (Z.of_nat b + 4) ≤ PAGE_SIZE →
  let h' := for_loop (carve (PHYS_TO_VIRT pa) b) i n h in
  outside pa (phys h) (phys h') ∧ ∀ x, foreign (phys h) x → foreign (phys h') x.
Proof.
  intros Hp Hp' Hb. induction n as [|n IH]; intros i h Hi h'; [done|].
  assert (0 < 2 ^ (Z.of_nat b + 4)) by (apply pow2_pos; lia).
  destruct (carve_outside pa b i h Hp Hp' Hb) as [Ho Hf]; [nia|].
  destruct (IH (Datatypes.S i) (carve (PHYS_TO_VIRT pa) b i h)) as [Ho' Hf']; [lia|].
  split; [|by auto]. intros x Hx. unfold h'. cbn [for_loop]. rewrite Ho' by done. by apply Ho.
Qed.

Lemma refill_foreign b h h' A : owned (phys h) A → (b < NBINS)%nat → refill b h = Ret h' → foreign_words (phys h) (phys h').
Proof.
  intros Ho Hb Hr. unfold refill in Hr. destruct (freelist h b =? 0); [|injection Hr as <-; apply foreign_words_refl].
  destruct (alloc_page (phys h) A Ho) as [E|(pa & s1 & E & Hne & Ho1 & _ & Hf1)]; rewrite E in Hr; [done|].
  rewrite Hne in Hr. injection Hr as <-. destruct (owned_block _ _ pa 0 Ho1 (list_elem_of_here _ _)) as (_ & _ & Hpos & Hhi).
  change (blk_size 0) with 4096 in Hhi.
  destruct (carve_loop_outside pa b (Z.to_nat (Z.shiftr PAGE_SIZE (Z.of_nat b + 4))) Hpos Hhi Hb 0 (set_phys s1 h)) as [Hout Hf].
  { rewrite Z.shiftr_div_pow2 by lia. assert (0 < 2 ^ (Z.of_nat b + 4)) by (apply pow2_pos; lia).
    rewrite Z2Nat.id by (apply Z.div_pos; (done || lia)). pose proof (Z.mul_div_le PAGE_SIZE (2 ^ (Z.of_nat b + 4))). lia. }
  eapply foreign_words_trans; [exact Hf1|]. eapply outside_foreign; [exact Ho1|apply list_elem_of_here|exact Hout|exact Hf].
Qed.

Lemma kmalloc_foreign n h p h' A : owned (phys h) A → 0 ≤ n → n + HDR ≤ 2 ^ 62 → kmalloc n h = Ret (p, h') →
  foreign_words (phys h) (phys h').
Proof.
  intros Ho Hn Hb Hk. unfold kmalloc in Hk. set (m := if n =? 0 then 1 else n) in *.
  assert (0 < m ∧ m + HDR ≤ 2 ^ 62) as [Hm Hm'] by (unfold m, HDR in *; destruct (Z.eqb_spec n 0); lia). clearbody m. clear Hn Hb n.
  rewrite (u64_small (m + HDR)) in Hk by (unfold HDR in *; lia). destruct (Z.ltb_spec 4096 (m + HDR)) as [Hl|Hl].
  - unfold kmalloc_large in Hk. destruct (up_to_pow _ _ _ _) as [o|]; [|done].
    destruct (fr_alloc o (phys h)) as [pa s1] eqn:Ea. destruct (Z.eqb_spec pa 0) as [|Hne]; [done|]. injection Hk as _ <-.
    destruct (decide (o < MAX_ORDER)%nat) as [Ho'|Ho']; [|rewrite fr_alloc_big in Ea by lia; congruence].
    destruct (fr_alloc_spec o _ A pa s1 Ho Ho' Ea) as [[-> _]|(_ & Ho1 & _)]; [done|].
    destruct (owned_block _ _ pa o Ho1 (list_elem_of_here _ _)) as (_ & _ & Hpos & Hhi). pose proof (blk_size_ge o).
    intros x Hx. destruct (fr_alloc_foreign o _ A pa s1 x Ho Ho' Ea Hx) as [Hx1 Hw1]. cbn [phys set_heap_used set_phys]. split.
    + unfold write_hdr, set_magic, set_bin_or_order, store. by repeat apply set_word_foreign.
    + rewrite word_write_hdr, decide_False; [done| |lia|].
      * intros ->. pose proof (foreign_owners _ _ _ Ho1 Hx1) as Hz. rewrite owners_cons, decide_True in Hz; [done|].
        unfold in_blk. cbn [fst snd]. lia.
      * rewrite lor_order by done. unfold MAX_ORDER in *. lia.
  - destruct (bin_of_spec (m + HDR) Hl) as (b & Eb & Hb & _). rewrite Eb in Hk. unfold kmalloc_small in Hk.
    destruct (refill b h) as [h1| |] eqn:Er; try done. cbn [mbind outcome_bind] in Hk. injection Hk as _ <-.
    exact (refill_foreign b h h1 A Ho Hb Er).
Qed.

Lemma kfree_foreign h L O p n h' : heap_inv (h, L, O) → (p, n) ∈ L → kfree p h = Ret h' → foreign_words (phys h) (phys h').
Proof.
  intros (P & Fr & V & Hok & HF) Hin Hk. cbn [fst snd] in *. apply list_elem_of_lookup in Hin as [j Hj].
  destruct (Forall2_lookup_r _ _ _ _ _ HF Hj) as ([c v] & Hc & (Hp & _)). cbn in Hp. subst p. clear HF Hj.
  assert (placed (phys h) P c v) as Hpl by (apply (hk_placed _ _ _ _ _ Hok), elem_of_app; right; by eapply list_elem_of_lookup_2).
  pose proof (hk_owned _ _ _ _ _ Hok) as Ho. destruct (placed_range _ _ _ _ _ Ho Hpl) as (Hc0 & Hc1 & Hal & Hsz).
  destruct (hdr_fields _ _ _ _ _ Ho Hpl) as [Hm Hb]. unfold kfree in Hk.
  rewrite (proj2 (Z.eqb_neq _ _) (ptr_nonzero c Hal)), ptr_hdr, Hm, Hb, Z.eqb_refl in Hk by lia. cbn [negb] in Hk.
  destruct (negb (Z.land v 0x80 =? 0)) eqn:Ev.
  - rewrite VIRT_TO_PHYS_base in Hk by lia. cbn [phys set_heap_used] in Hk.
    destruct (fr_free c _ (phys h)) as [s'|] eqn:Ef; [|done]. injection Hk as <-. cbn [phys set_phys].
    pose proof Hpl as (_ & a & o & Hin & _ & _ & [[Hv _]|[-> ->]]).
    { exfalso. unfold NBINS in Hv. assert (∃ b : nat, v = Z.of_nat b ∧ (b < 9)%nat) as (b & -> & Hb9) by (exists (Z.to_nat v); cbn in Hv; lia).
      clear -Hb9 Ev. do 9 (destruct b as [|b]; [done|]). lia. }
    destruct (owned_block _ _ a o Ho) as (Hord & _); [in_app|].
    assert (Z.to_nat (Z.land (0x80 + Z.of_nat o) 0x7f) = o) as Eo by (unfold MAX_ORDER in Hord; do 11 (destruct o as [|o]; [done|]); lia).
    rewrite Eo in Ef. apply list_elem_of_split in Hin as (P1 & P2 & ->). intros x Hx.
    eapply (fr_free_foreign a o (phys h) s' ((P1 ++ P2) ++ O)); [|done|done]. eapply owned_perm; [exact Ho|].
    rewrite <- Permutation_middle. done.
  - destruct (v <? Z.of_nat NBINS); [|done]. injection Hk as <-. cbn [phys set_heap_used set_freelist set_phys]. intros x Hx.
    split; [by apply set_word_foreign|]. unfold store. rewrite ptr_phys by lia. apply word_set_ne. intros ->.
    pose proof (foreign_owners _ _ _ Ho Hx) as Hz. rewrite owners_app in Hz.
    destruct (hdr_in_chunk c v (placed_size _ _ _ _ Hpl)) as [_ H8]. pose proof (placed_owners _ _ _ _ _ Hpl H8). lia.
Qed.

(** An allocation leaves the frames outside the heap alone. *)
Lemma kmalloc_inv d R O k n : fd_inv d R O k → 0 ≤ n → n + HDR ≤ 2 ^ 62 →
  kmalloc n (hp k) = Panic ∨
  ∃ p h, kmalloc n (hp k) = Ret (p, h) ∧ p ≠ 0 ∧ fd_inv d ((p, n) :: R) O (set_hp h k) ∧ own_words O (mem k) (phys h) ∧
    foreign_words (mem k) (phys h).
Proof.
  intros [(L & Hh & HL) Hr] Hn Hb. destruct (heap_inv_malloc (hp k) L O n Hh Hn Hb) as [->|(p & h & E & Hp & Hh' & Hw)]; [by left|right].
  destruct (heap_inv_owned _ _ _ Hh) as [P Ho]. exists p, h. split_and!; [done|done| | |by eapply kmalloc_foreign].
  - constructor; [|done]. exists ((p, n) :: L). split; [done|]. cbn [files set_hp]. by rewrite HL, Permutation_middle.
  - intros x Hx. apply Hw. by right.
Qed.

Lemma kmalloc_step R O k n : fd_ok R O k → 0 ≤ n → n + HDR ≤ 2 ^ 62 →
  kmalloc n (hp k) = Panic ∨
  ∃ p h, kmalloc n (hp k) = Ret (p, h) ∧ p ≠ 0 ∧ fd_ok ((p, n) :: R) O (set_hp h k) ∧ own_words O (mem k) (phys h) ∧
    foreign_words (mem k) (phys h).
Proof. apply kmalloc_inv. Qed.

Lemma kfree_words h L L' O p n : heap_inv (h, L, O) → L ≡ₚ (p, n) :: L' →
  ∃ h', kfree p h = Ret h' ∧ heap_inv (h', L', O) ∧ own_words O (phys h) (phys h') ∧ foreign_words (phys h) (phys h').
Proof.
  intros Hh HL. apply (heap_inv_perm _ _ _ _ HL) in Hh.
  destruct (heap_inv_free h [] L' O p n Hh) as (h' & E & Hh2 & Hw). exists h'. split_and!; [done|done|intros x Hx; apply Hw; by right|].
  eapply kfree_foreign; [exact Hh|apply list_elem_of_here|exact E].
Qed.

Lemma kfree_inv d R O k p n : fd_inv d ((p, n) :: R) O k →
  ∃ h, kfree p (hp k) = Ret h ∧ fd_inv d R O (set_hp h k) ∧ own_words O (mem k) (phys h) ∧ foreign_words (mem k) (phys h).
Proof.
  intros [(L & Hh & HL) Hr]. assert (L ≡ₚ (p, n) :: file_blocks (files k) ++ R) as HL' by (by rewrite HL, Permutation_middle).
  destruct (kfree_words _ _ _ _ _ _ Hh HL') as (h & E & Hh2 & Hw & Hf). exists h. split_and!; [done| |done|done].
  constructor; [by eexists|done].
Qed.

Lemma kfree_step R O k p n : fd_ok ((p, n) :: R) O k →
  ∃ h, kfree p (hp k) = Ret h ∧ fd_ok R O (set_hp h k) ∧ own_words O (mem k) (phys h) ∧ foreign_words (mem k) (phys h).
Proof. apply kfree_inv. Qed.

(** Closing a file: what happens to the memory and to the other files. *)
Lemma close_file_effect d R O k p k' : fd_inv d R O k → vfs_close_file p k = Ret k' →
  own_words O (mem k) (mem k') ∧ foreign_words (mem k) (mem k') ∧ pid_counter k' = pid_counter k ∧
  ∀ q f', files k' !! q = Some f' → ∃ f, files k !! q = Some f ∧ f_flags f' = f_flags f.
Proof.
  intros Hi E. unfold vfs_close_file in E. destruct (files k !! p) as [f|] eqn:Ep; [|done].
  assert (∀ g q f', f_flags g = f_flags f → <[p := g]> (files k) !! q = Some f' → ∃ f, files k !! q = Some f ∧ f_flags f' = f_flags f) as Hfl.
  { intros g q f' Hg Hq. destruct (decide (q = p)) as [->|Hne].
    - rewrite lookup_insert_eq in Hq. injection Hq as <-. by exists f.
    - rewrite lookup_insert_ne in Hq by done. by exists f'. }
  destruct (1 <? refcnt f).
  { injection E as <-. split_and!; [done|apply foreign_words_refl|done|]. intros q f' Hq. by eapply Hfl, Hq. }
  destruct (fi_heap _ _ _ _ Hi) as (L & Hh & HL). rewrite (file_blocks_delete _ p f Ep) in HL.
  set (rest := file_blocks (delete p (files k)) ++ R).
  assert (∃ h1, (match f_ops f with dir_fops => kfree (f_priv f) (hp k) | _ => Ret (hp k) end) = Ret h1 ∧
    heap_inv (h1, (p, FILE_SIZE) :: rest, O) ∧ own_words O (mem k) (phys h1) ∧ foreign_words (mem k) (phys h1)) as (h1 & Hk1 & Hh1 & Hw1 & Hf1).
  { unfold blocks_of in HL. destruct (f_ops f).
    1,2: exists (hp k); split; [done|]; split; [eapply heap_inv_perm; [exact HL|exact Hh]|]; split; [by intros x|apply foreign_words_refl].
    apply (kfree_words _ L _ O _ ITER_SIZE Hh). rewrite HL. cbn [app]. unfold rest. apply Permutation_swap. }
  destruct (kfree_words h1 _ rest O p FILE_SIZE Hh1 (Permutation_refl _)) as (h2 & Hk2 & Hh2 & Hw2 & Hf2).
  cbn [hp set_files] in E. rewrite Hk1 in E. cbn [mbind outcome_bind] in E. rewrite Hk2 in E. cbn [mbind outcome_bind] in E. injection E as <-.
  split_and!; [by eapply own_words_trans|by eapply foreign_words_trans|done|].
  intros q f' Hq. cbn [files set_files set_hp] in Hq. apply lookup_delete_Some in Hq as [_ Hq]. by eapply Hfl, Hq.
Qed.

Lemma close_step R O k t fd p : fd_ok R O k → (t < NR_TASKS)%nat → fd_get t fd k = Some p →
  ∃ k', sys_close t fd k = Ret (0, k') ∧ fd_ok R O k' ∧ own_words O (mem k) (mem k') ∧ foreign_words (mem k) (mem k') ∧
    procs k' = procs (set_fd t fd None k) ∧ sch k' = sch k ∧ pid_counter k' = pid_counter k ∧
    ∀ q f', files k' !! q = Some f' → ∃ f, files k !! q = Some f ∧ f_flags f' = f_flags f.
Proof.
  intros Hi Ht Hg. destruct (sys_close_inv R O k t fd Hi Ht) as [[Hn _]|(p' & k' & _ & E & Hok & Hpr & Hs & _)]; [congruence|].
  exists k'. split; [done|]. split; [done|]. unfold sys_close in E. rewrite Hg in E. destruct (fd_get_at _ _ _ _ Hg) as [Hfd Hp].
  destruct (vfs_close_file p (set_fd t fd None k)) as [k1| |] eqn:Ec; try done. cbn [mbind outcome_bind] in E. injection E as <-.
  destruct (close_file_effect _ R O _ p k1 (set_fd_inv settled R O k t fd None Hi Ht Hfd ltac:(done)) Ec) as (Hw & Hf & Hpc & Hfl).
  split_and!; [done|done|done|done|done|done].
Qed.
End clients.
