(* ===== verification/Task.v ===== *)
(** Processes ([kernel/task.c]): pids, fork and waitpid.

    The words below the child's frame that the first switch to it pops (six
    zeros and the address of [glue_first]) are not part of the model; the
    frame itself is [tf]. *)
From S2P Require Import Prelude Bytes Pmm PmmFacts PmmInit Frames Kheap KheapFacts Vmm VmmFacts UserMem Sched Proc Signal.

Definition KSTACK_SIZE : Z := 32768.

Section task.
Context {S N : Type} `{Frames S}.
Implicit Types (k : kern S N) (s : S).

Definition next_pid k : Z * kern S N :=
  let p := u32 (pid_counter k + 1) in (p, set_pid_counter p k).

(** [vmm_destroy_user_aspace(pml4); kfree(kstack); task_free_slot(t);] *)
Definition drop_task (t : nat) k : outcome (kern S N) :=
  m ← vmm_destroy_user_aspace (root_of t k) (mem k);
  let k := set_mem m k in
  h ← kfree (kstack (procs k t)) (hp k);
  s ← task_free_slot t (sch k);
  Ret (set_sch s (set_hp h k)).

(** The child's frame. *)
Definition child_frame (f : intr_frame) : intr_frame :=
  let f := set_rax 0 f in set_rflags (Z.lor (rflags f) 0x200) f.

(** The end of fork and of the first process: [ch] is ready to run. *)
Definition start_task (me ch : nat) (f : intr_frame) k : kern S N :=
  let k := upd_proc ch (set_tf (Some f)) k in
  let k := upd_tk ch (λ t, set_state T_RUNNABLE (set_rq_next Null (set_rq_cpu (-1) (set_cpu_id (u32 (-1)) t)))) k in
  set_sch (runqueue_add me ch (sch k)) k.

(** The new task before it has an address space. *)
Definition embryo (c ch : nat) (stk : Z) k : kern S N :=
  let k := upd_proc ch (set_kstack stk) k in
  let '(p, k) := next_pid k in
  upd_tk ch (λ t, set_state T_EMBRYO (set_parent (Some c) (set_name (name (tasks (sch k) c)) (set_pid p t)))) k.

(** The heap bounds and the signal handling are the parent's. *)
Definition inherit (c ch : nat) k : kern S N :=
  let pc := procs k c in
  let tc := tasks (sch k) c in
  let k := upd_proc ch (λ p, set_brk_cur (brk_cur pc) (set_brk_base (brk_base pc) p)) k in
  upd_tk ch (λ t, set_mask (signal_mask tc) (set_pending 0 (set_sa (sa tc) t))) k.

Definition sys_fork (master : Z) (code : list Z) (me : nat) k : outcome (Z * kern S N) :=
  match current me (sch k) with
  | None => Stuck
  | Some c =>
      match task_alloc_slot (sch k) with
      | (None, _) => Ret (LNXRM_EFAIL, k)
      | (Some ch, s) =>
          '(stk, h) ← kmalloc KSTACK_SIZE (hp k);
          let k := set_hp h (set_sch s k) in
          if stk =? 0 then s ← task_free_slot ch (sch k); Ret (LNXRM_EFAIL, set_sch s k) else
          let k := embryo c ch stk k in
          '(root, m) ← vmm_new_user_aspace master (mem k);
          let k := upd_tk ch (set_pml4 root) (set_mem m k) in
          '(r, m) ← dup_user_aspace (root_of c k) root (mem k);
          let k := set_mem m k in
          if r <? 0 then k ← drop_task ch k; Ret (LNXRM_EFAIL, k) else
          m ← signal_init_trampoline code root (mem k);
          k ← clone_fds c ch (set_mem m k);
          let k := inherit c ch k in
          match tf (procs k c) with
          | None => Stuck
          | Some f =>
              let k := start_task me ch (child_frame f) k in
              Ret (i32 (pid (tasks (sch k) ch)), k)
          end
      end
  end.

(** ** Waiting *)

Inductive wait_result := Reaped (r : Z) | Sleeps.

Definition UCP (root p : Z) s : bool := if p =? 0 then true else user_ptr_ok root p 8 s.

(** [t] is a child of [c] that the call waits for. *)
Definition is_child (c t : nat) (s : sched) : bool :=
  negb (is_unused s t) && negb (t =? c)%nat && bool_decide (parent (tasks s t) = Some c).
Definition waited (wpid : Z) (t : nat) (s : sched) : bool :=
  negb ((0 <? wpid) && negb (pid (tasks s t) =? u32 wpid)).

(** The status word goes to the waiting task when its address is good. *)
Definition put_status (c : nat) (ustatus code : Z) k : kern S N :=
  if negb (ustatus =? 0) && UCP (root_of c k) ustatus (mem k) then
    match copy_to_user (root_of c k) ustatus (le_bytes 4 (u32 code)) (mem k) with
    | Some m => set_mem m k
    | None => k
    end
  else k.

Definition reap (c t : nat) (ustatus : Z) k : outcome (Z * kern S N) :=
  let k := put_status c ustatus (exit_code (tasks (sch k) t)) k in
  let p := pid (tasks (sch k) t) in
  m ← vmm_destroy_user_aspace (root_of t k) (mem k);
  let k := set_mem m k in
  h ← kfree (kstack (procs k t)) (hp k);
  let k := upd_proc t (set_kstack 0) (set_hp h k) in
  s ← task_free_slot t (sch k);
  Ret (i32 p, set_sch s k).

(** One turn of the loop of [sys_waitpid], up to the switch to another task:
    the first zombie that is waited for is reaped. *)
Definition sys_waitpid (me : nat) (wpid ustatus opts : Z) k : outcome (wait_result * kern S N) :=
  match current me (sch k) with
  | None => Stuck
  | Some c =>
      let s := sch k in
      match for_find (λ t, is_child c t s && waited wpid t s && bool_decide (state (tasks s t) = T_ZOMBIE)) 0 NR_TASKS with
      | Some t => '(r, k) ← reap c t ustatus k; Ret (Reaped r, k)
      | None =>
          if bool_decide (for_find (λ t, is_child c t s) 0 NR_TASKS = None) then Ret (Reaped LNXRM_ECHILD, k) else
          if negb (Z.land opts 1 =? 0) then Ret (Reaped 0, k) else
          let s := upd_task c (λ t, set_sleep_until (2 ^ 64 - 1) (set_state T_SLEEPING t)) s in
          s ← runqueue_remove c s;
          s ← schedule me s;
          Ret (Sleeps, set_sch s k)
      end
  end.
End task.
