(* ===== verification/TaskFacts.v ===== *)
(** Theorems on processes: what fork makes and what waitpid releases. *)
From S2P Require Import Prelude Bytes Pmm PmmFacts PmmInit Frames Kheap KheapFacts Vmm VmmFacts VmmLife VmmDup VmmDemo UserMem Aspace.
From S2P Require Import Sched SchedFacts SchedRun Proc ProcFacts Signal Clients Task.

Section facts.
Context {S N : Type} `{FrameLaws S}.
Implicit Types (k : kern S N) (s : S) (O A : list (Z * nat)) (R : list (Z * Z)).

(** The slots of a root table that refer to kernel tables. *)
Definition kernel_slots s (root : Z) : Prop :=
  ∀ i, 0 < i < 511 → i ≠ USER_SLOT → present (entry s root i) = false.

(** The master table: outside the allocator, with the two kernel slots. *)
Record master_ok (master : Z) s : Prop := {
  mo_foreign i : 0 ≤ i < 512 → foreign s (master + 8 * i);
  mo_slots : kernel_slots s master;
}.

Lemma master_step master s s' : master_ok master s → foreign_words s s' → master_ok master s'.
Proof.
  intros [Hf Hs] Hw. constructor; [intros i Hi; by apply Hw, Hf|]. intros i Hi Hne. rewrite <- (Hs i Hi Hne). unfold entry.
  f_equal. apply Hw, Hf. lia.
Qed.

Lemma clone_fds_hp c ch k k' : clone_fds c ch k = Ret k' → hp k' = hp k.
Proof.
  unfold clone_fds. assert (∀ n i k0 k1, for_loop_o (λ i k, match fds (procs k ch) i with Some p => get_file p k | None => Ret k end) i n k0 = Ret k1 →
    hp k1 = hp k0) as Hl; [|intros E; by apply Hl in E].
  induction n as [|n IH]; intros i k0 k1 E; cbn [for_loop_o] in E; [by injection E as <-|].
  destruct (fds (procs k0 ch) i) as [p|]; cbn [mbind outcome_bind] in E; [|by apply IH in E].
  unfold get_file in E. destruct (files k0 !! p); [|done]. cbn [mbind outcome_bind] in E. by apply IH in E.
Qed.

(** A task that is on no queue: its slot is simply given back. *)
Definition vacate (x : task) : task := set_rq_next Null (set_rq_cpu (-1) (set_cpu_id (u32 (-1)) (set_state T_UNUSED x))).
Lemma free_unqueued t (s : sched) : rq_cpu (tasks s t) = -1 → task_free_slot t s = Ret (upd_task t vacate s).
Proof. intros E. unfold task_free_slot. by rewrite E. Qed.

(** Destroying an address space, as a step of the whole kernel. *)
Lemma destroy_step R A k root : fd_ok R (user_frames (mem k) root ++ A) k → kernel_slots (mem k) root →
  ∃ s', vmm_destroy_user_aspace root (mem k) = Ret s' ∧ fd_ok R A (set_mem s' k) ∧ own_words A (mem k) s' ∧
    foreign_words (mem k) s'.
Proof.
  intros Hok Hsl. destruct (fd_ok_owned _ _ _ Hok) as [P Ho]. rewrite <- app_assoc in Ho.
  destruct (destroy_aspace_spec root (mem k) (A ++ P) Ho Hsl) as (s' & E & _ & Hw & Hf). exists s'.
  split_and!; [done| |by eapply own_words_l|done]. eapply mem_step; [exact Hok|]. intros A' Ho'. rewrite <- app_assoc in Ho'.
  destruct (destroy_aspace_spec root (mem k) (A ++ A') Ho' Hsl) as (s2 & E2 & Ho2 & Hw2 & _).
  assert (s2 = s') as -> by congruence. split; [done|by eapply own_words_r].
Qed.

Lemma drop_task_spec R A k ch n :
  fd_ok ((kstack (procs k ch), n) :: R) (user_frames (mem k) (root_of ch k) ++ A) k →
  kernel_slots (mem k) (root_of ch k) → rq_cpu (tasks (sch k) ch) = -1 →
  ∃ k', drop_task ch k = Ret k' ∧ fd_ok R A k' ∧ own_words A (mem k) (mem k') ∧ foreign_words (mem k) (mem k') ∧
    procs k' = procs k ∧ sch k' = upd_task ch vacate (sch k).
Proof.
  intros Hok Hsl Hq. unfold drop_task. destruct (destroy_step _ _ _ _ Hok Hsl) as (s1 & -> & Hok1 & Hw1 & Hf1). cbn [mbind outcome_bind].
  destruct (kfree_step R A (set_mem s1 k) (kstack (procs k ch)) n Hok1) as (h & E & Hok2 & Hw2 & Hf2).
  change (procs (set_mem s1 k)) with (procs k). rewrite E. cbn [mbind outcome_bind].
  change (sch (set_mem s1 k)) with (sch k). rewrite free_unqueued by done. cbn [mbind outcome_bind].
  eexists. split; [done|]. split_and!; [|by eapply own_words_trans|by eapply foreign_words_trans|done|done].
  eapply fd_ok_ext; [exact Hok2|done..].
Qed.

(** A new address space beside those there are. *)
Lemma new_aspace_step R O k master : fd_ok R O k → master_ok master (mem k) →
  vmm_new_user_aspace master (mem k) = Panic ∨
  ∃ root s', vmm_new_user_aspace master (mem k) = Ret (root, s') ∧ fd_ok R (user_frames s' root ++ O) (set_mem s' k) ∧
    kernel_slots s' root ∧ present (entry s' root USER_SLOT) = false ∧ own_words O (mem k) s' ∧ foreign_words (mem k) s' ∧
    (∀ a, view root s' a = None).
Proof.
  intros Hok [Hf Hs]. destruct (fd_ok_owned _ _ _ Hok) as [P Ho].
  destruct (new_aspace_spec master (mem k) (O ++ P) Ho Hf) as [E|(root & s' & E & Ho' & Hu & Ht & He & Hw & Hfw)]; [by left|right].
  exists root, s'. split_and!; [done| | | |by eapply own_words_l|done|].
  - eapply mem_step; [exact Hok|]. intros A HoA.
    destruct (new_aspace_spec master (mem k) (O ++ A) HoA Hf) as [E2|(r2 & s2 & E2 & Ho2 & _ & _ & _ & Hw2 & _)]; [congruence|].
    assert (r2 = root ∧ s2 = s') as [-> ->] by (split; congruence). rewrite <- app_assoc. split; [done|by eapply own_words_r].
  - intros i Hi Hne. rewrite He by lia. by apply Hs.
  - unfold user_frames, kids in Hu. destruct (present (entry s' root USER_SLOT)) eqn:Ep; [|done].
    destruct (large _ && _); [done|]. assert (∀ {B} (x : B) l, x :: l = [x] → l = []) as Htl by (intros B x l E2; by injection E2).
    apply Htl in Hu. pose proof (frames_of_here 3 s' (frame_of (entry s' root USER_SLOT))) as Hx. rewrite Hu in Hx. by apply not_elem_of_nil in Hx.
  - intros a. destruct (decide (user_va a)) as [Hua|Hua]; [apply view_none; auto|by apply view_outside].
Qed.

Lemma dup_step R A k src dst : fd_ok R (user_frames (mem k) dst ++ user_frames (mem k) src ++ A) k →
  present (entry (mem k) dst USER_SLOT) = false → kernel_slots (mem k) dst →
  ∃ r s', dup_user_aspace src dst (mem k) = Ret (r, s') ∧
    fd_ok R (user_frames s' dst ++ user_frames s' src ++ A) (set_mem s' k) ∧ user_frames s' src = user_frames (mem k) src ∧
    own_words (user_frames (mem k) src ++ A) (mem k) s' ∧ foreign_words (mem k) s' ∧ kernel_slots s' dst ∧
    ((r = 0 ∧ ∀ a, view dst s' a = view src (mem k) a) ∨ r = LNXRM_EFAIL).
Proof.
  intros Hok Hd Hsl. destruct (fd_ok_owned _ _ _ Hok) as [P Ho].
  assert (∀ A', owned (mem k) ((user_frames (mem k) dst ++ user_frames (mem k) src ++ A) ++ A') →
    owned (mem k) (user_frames (mem k) src ++ user_frames (mem k) dst ++ A ++ A')) as Hperm.
  { intros A' Ho'. eapply owned_perm; [exact Ho'|]. rewrite <- !app_assoc. apply Permutation_app_swap_app. }
  destruct (dup_aspace_spec src dst (mem k) (A ++ P) (Hperm P Ho) Hd) as (r & s' & E & Ho' & Hw & Hf & He & Hr).
  rewrite app_assoc in Hw. assert (own_words (user_frames (mem k) src ++ A) (mem k) s') as Hw1 by (by eapply own_words_l).
  pose proof (own_words_l _ _ _ _ Hw1) as Hwu. pose proof (user_frames_ext _ _ _ Hwu) as Hfe.
  exists r, s'. split_and!; [done| |done|done|done| |].
  - eapply mem_step; [exact Hok|]. intros A' HoA.
    destruct (dup_aspace_spec src dst (mem k) (A ++ A') (Hperm A' HoA) Hd) as (r2 & s2 & E2 & Ho2 & Hw2 & _).
    assert (s2 = s') as -> by congruence. rewrite app_assoc in Hw2. split; [|by eapply own_words_r].
    eapply owned_perm; [exact Ho2|]. rewrite <- !app_assoc. apply Permutation_app_swap_app.
  - intros i Hi Hne. rewrite He by lia. by apply Hsl.
  - destruct Hr as [[-> Hc]|[-> _]]; [left; split; [done|]|by right]. intros a.
    rewrite (copy_view src dst s' _ (user_frames s' src ++ A ++ P) Ho') by (done || (eapply owned_perm; [exact Ho'|]; apply Permutation_app_swap_app)).
    apply (view_ext src (mem k) s' _ _ (Hperm P Ho) Hwu Ho').
Qed.

(** The child of a fork. *)
Record forked (c ch : nat) (f : intr_frame) (stk : Z) k k' : Prop := {
  fk_pid : pid (tasks (sch k') ch) = u32 (pid_counter k + 1);
  fk_name : name (tasks (sch k') ch) = name (tasks (sch k) c);
  fk_parent : parent (tasks (sch k') ch) = Some c;
  fk_state : state (tasks (sch k') ch) = T_RUNNABLE;
  fk_sa : sa (tasks (sch k') ch) = sa (tasks (sch k) c);
  fk_mask : signal_mask (tasks (sch k') ch) = signal_mask (tasks (sch k) c);
  fk_pending : signal_pending (tasks (sch k') ch) = 0;
  fk_proc : procs k' ch = Proc (Some (set_rflags (Z.lor (rflags f) 0x200) (set_rax 0 f))) stk (brk_base (procs k c)) (brk_cur (procs k c)) (fds (procs k c));
  fk_others i : i ≠ ch → tasks (sch k') i = tasks (sch k) i ∧ procs k' i = procs k i;
}.

(** The state in which the process [c] runs on CPU [me] in the kernel: its
    address space, the heap and the open files are sound, the queues are [Q],
    and the free slots of the task table are clean. *)
Record executing (master : Z) (me c : nat) R A (Q : nat → list nat) k : Prop := {
  ex_cur : current me (sch k) = Some c;
  ex_task : (c < NR_TASKS)%nat ∧ state (tasks (sch k) c) = T_RUNNING;
  ex_mem : fd_ok R (user_frames (mem k) (root_of c k) ++ A) k;
  ex_master : master_ok master (mem k);
  ex_queues : queues (sch k) Q;
  ex_cpu : (me < MAX_CPUS)%nat ∧ started (cpus (sch k) me) = true;
  ex_free i : (i < NR_TASKS)%nat → state (tasks (sch k) i) = T_UNUSED →
    rq_cpu (tasks (sch k) i) = -1 ∧ ∀ j, (j < NR_FDS)%nat → fds (procs k i) j = None;
}.

(** A task that is on no queue may be changed. *)
Lemma queues_off (s : sched) Q t g : queues s Q → rq_cpu (tasks s t) = -1 → (∀ x, rq_cpu (g x) = -1) → queues (upd_task t g s) Q.
Proof.
  intros [Hc Hn Hm Hs Hr] Ht Hg.
  assert (∀ j, rq_cpu (tasks (upd_task t g s) j) = rq_cpu (tasks s j)) as Hrq.
  { intros j. rewrite tasks_upd. destruct (decide (j = t)) as [->|]; [by rewrite Hg|done]. }
  constructor; [|done| |done|].
  - intros c Hlt Hst. destruct (Hc c Hlt Hst) as [Hch Hid]. split; [|done]. eapply qchain_ext; [|exact Hch].
    intros j Hj. rewrite tasks_upd, decide_False; [done|]. intros ->. apply Hm in Hj as (_ & _ & Hj). lia.
  - intros c j. rewrite Hrq. apply Hm.
  - intros j Hj. rewrite Hrq. by apply Hr.
Qed.

Lemma alloc_slot_spec (s s' : sched) ch : task_alloc_slot s = (Some ch, s') →
  (ch < NR_TASKS)%nat ∧ state (tasks s ch) = T_UNUSED ∧ ∃ g, s' = upd_task ch g s ∧ ∀ x, rq_cpu (g x) = -1.
Proof.
  unfold task_alloc_slot. destruct (for_find _ _ _) as [i|] eqn:E; [|done]. intros [= -> <-].
  apply for_find_Some in E as (Hi & Hu & _). split_and!; [lia| |].
  - unfold is_unused in Hu. by apply bool_decide_eq_true in Hu.
  - eexists. by split.
Qed.

(** Everything but the child's slot stays. *)
Record child_only (ch : nat) k k' : Prop := {
  co_tasks i : i ≠ ch → tasks (sch k') i = tasks (sch k) i;
  co_procs i : i ≠ ch → procs k' i = procs k i;
  co_cpus : cpus (sch k') = cpus (sch k);
}.

Lemma child_only_trans ch k1 k2 k3 : child_only ch k1 k2 → child_only ch k2 k3 → child_only ch k1 k3.
Proof.
  intros [Ht1 Hp1 Hc1] [Ht2 Hp2 Hc2]. constructor; [intros i Hi; by rewrite Ht2, Ht1|intros i Hi; by rewrite Hp2, Hp1|congruence].
Qed.

Lemma child_only_upd ch g k : child_only ch k (upd_tk ch g k).
Proof. constructor; [|done|done]. intros i Hi. cbn [sch upd_tk set_sch]. by rewrite tasks_upd, decide_False. Qed.
Lemma child_only_proc ch g k : child_only ch k (upd_proc ch g k).
Proof. constructor; [done| |done]. intros i Hi. cbn. by rewrite fn_lookup_insert_ne. Qed.
Lemma child_only_same ch k k' : sch k' = sch k → procs k' = procs k → child_only ch k k'.
Proof. intros Es Ep. constructor; [by rewrite Es|by rewrite Ep|by rewrite Es]. Qed.

Lemma embryo_only c ch stk k : child_only ch k (embryo c ch stk k).
Proof.
  unfold embryo. cbn zeta. eapply child_only_trans; [apply (child_only_proc ch (set_kstack stk))|].
  eapply child_only_trans; [|apply child_only_upd]. by apply child_only_same.
Qed.
Lemma inherit_only c ch k : child_only ch k (inherit c ch k).
Proof. unfold inherit. cbn zeta. eapply child_only_trans; [apply child_only_proc|apply child_only_upd]. Qed.

(** The kernel stack and the identity of the child. *)
Lemma embryo_step R O k c ch (s1 : sched) : fd_ok R O k →
  kmalloc KSTACK_SIZE (hp k) = Panic ∨
  ∃ stk h, kmalloc KSTACK_SIZE (hp k) = Ret (stk, h) ∧ stk ≠ 0 ∧
    let k' := embryo c ch stk (set_hp h (set_sch s1 k)) in
    fd_ok ((stk, KSTACK_SIZE) :: R) O k' ∧ own_words O (mem k) (mem k') ∧ foreign_words (mem k) (mem k').
Proof.
  intros Hok. destruct (kmalloc_step R O k KSTACK_SIZE Hok ltac:(by_eval) ltac:(by_eval))
    as [?|(stk & h & E & Hne & Hok' & Hw & Hf)]; [by left|right].
  exists stk, h. cbn zeta. split_and!; [done|done| |done|done]. eapply fd_ok_ext; [exact Hok'|done|done|].
  intros i. cbn. destruct (decide (i = ch)) as [->|]; [by rewrite fn_lookup_insert|by rewrite fn_lookup_insert_ne].
Qed.

(** The child's address space: a copy of the parent's, or the frames ran out. *)
Lemma space_step master R A k c ch : c ≠ ch → fd_ok R (user_frames (mem k) (root_of c k) ++ A) k → master_ok master (mem k) →
  vmm_new_user_aspace master (mem k) = Panic ∨
  ∃ root m, vmm_new_user_aspace master (mem k) = Ret (root, m) ∧ let k1 := upd_tk ch (set_pml4 root) (set_mem m k) in
    root_of c k1 = root_of c k ∧
    ∃ r m', dup_user_aspace (root_of c k) root (mem k1) = Ret (r, m') ∧ let k' := set_mem m' k1 in
      fd_ok R (user_frames m' root ++ user_frames m' (root_of c k) ++ A) k' ∧ root_of ch k' = root ∧
      own_words (user_frames (mem k) (root_of c k) ++ A) (mem k) m' ∧ foreign_words (mem k) m' ∧ kernel_slots m' root ∧
      ((r = 0 ∧ ∀ a, view root m' a = view (root_of c k) (mem k) a) ∨ r = LNXRM_EFAIL).
Proof.
  intros Hne Hok Hmo. set (src := root_of c k) in *.
  destruct (new_aspace_step R _ k master Hok Hmo) as [?|(root & m & E & Hok1 & Hsl & Hus & Hw1 & Hf1 & _)]; [by left|right].
  exists root, m. split; [done|]. set (k1 := upd_tk ch (set_pml4 root) (set_mem m k)). cbn zeta.
  assert (root_of c k1 = src) as Hrc by (unfold root_of, k1; cbn [sch upd_tk set_sch]; by rewrite tasks_upd, decide_False).
  split; [done|]. pose proof (own_words_l _ _ _ _ Hw1) as Hwu. pose proof (user_frames_ext _ _ _ Hwu) as Hfe.
  assert (fd_ok R (user_frames (mem k1) root ++ user_frames (mem k1) src ++ A) k1) as Hok1'.
  { change (mem k1) with m. rewrite Hfe. eapply fd_ok_ext; [exact Hok1|done..]. }
  destruct (dup_step R A k1 src root Hok1' Hus Hsl) as (r & m' & E' & Hok2 & Hfe2 & Hw2 & Hf2 & Hsl2 & Hr).
  exists r, m'. change (mem k1) with m in *. rewrite Hfe in Hw2. split; [done|]. split_and!; [done| | | |done|].
  - unfold root_of, k1. cbn [sch set_mem set_hp upd_tk set_sch]. by rewrite tasks_upd, decide_True.
  - by eapply own_words_trans.
  - by eapply foreign_words_trans.
  - destruct Hr as [[-> Hv]| ->]; [left|by right]. split; [done|]. intros a. rewrite Hv.
    destruct (fd_ok_owned _ _ _ Hok) as [P Ho]. rewrite <- app_assoc in Ho. destruct (fd_ok_owned _ _ _ Hok1') as [P1 Ho1].
    eapply (view_ext src (mem k) m); [exact Ho|exact Hwu|]. change (mem k1) with m in Ho1. rewrite <- !app_assoc in Ho1.
    eapply owned_perm; [exact Ho1|]. apply Permutation_app_swap_app.
Qed.

Lemma core_more t t' : core t' = core t → name t' = name t ∧ pml4 t' = pml4 t ∧ sa t' = sa t.
Proof. destruct t, t'. unfold core, set_rq_cpu, set_rq_next. cbn. intros [=]. by subst. Qed.

(** The child's task once it is queued, up to its links. *)
Definition ready (tc t : task) : task :=
  set_state T_RUNNABLE (set_cpu_id (u32 (-1)) (set_mask (signal_mask tc) (set_pending 0 (set_sa (sa tc) t)))).

Lemma runqueue_add_tasks me t (s : sched) i : i ≠ t → tasks (runqueue_add me t s) i = tasks s i.
Proof. intros Hi. unfold runqueue_add. destruct (negb _); [done|]. cbn. by rewrite !fn_lookup_insert_ne. Qed.

Lemma start_step me c ch f R O k Q : (c < NR_TASKS)%nat → (ch < NR_TASKS)%nat → c ≠ ch → fd_ok R O k →
  (∀ j, (j < NR_FDS)%nat → fds (procs k ch) j = None) → tf (procs k c) = Some f →
  queues (sch k) Q → rq_cpu (tasks (sch k) ch) = -1 → (me < MAX_CPUS)%nat ∧ started (cpus (sch k) me) = true →
  ∃ k1 cpu, clone_fds c ch k = Ret k1 ∧ tf (procs (inherit c ch k1) c) = Some f ∧
    let k' := start_task me ch (child_frame f) (inherit c ch k1) in
    fd_ok R O k' ∧ mem k' = mem k ∧ queues (sch k') (enqueue cpu ch Q) ∧
    (∀ i, i ≠ ch → tasks (sch k') i = tasks (sch k) i ∧ procs k' i = procs k i) ∧
    (∀ d, cpu_core (cpus (sch k') d) = cpu_core (cpus (sch k) d)) ∧
    core (tasks (sch k') ch) = core (ready (tasks (sch k) c) (tasks (sch k) ch)) ∧
    procs k' ch = Proc (Some (child_frame f)) (kstack (procs k ch)) (brk_base (procs k c)) (brk_cur (procs k c)) (fds (procs k c)).
Proof.
  intros Hc Hch Hne Hok Hfree Htf Hq Hrq [Hme Hst].
  destruct (clone_fds_inv R O k c ch Hok Hc Hch Hfree) as (k1 & E & Hok1 & Hs1 & Hp1 & Hp1').
  pose proof (clone_fds_hp _ _ _ _ E) as Hh1. pose proof (Hp1 c Hne) as Hpc. set (k2 := inherit c ch k1).
  set (g := λ t, set_state T_RUNNABLE (set_rq_next Null (set_rq_cpu (-1) (set_cpu_id (u32 (-1)) t)))).
  set (s3 := upd_task ch g (sch k2)). pose proof (inherit_only c ch k1) as [Ht2 Hp2 Hc2]. fold k2 in Ht2, Hp2, Hc2.
  assert (tasks (sch k2) ch = set_mask (signal_mask (tasks (sch k) c)) (set_pending 0 (set_sa (sa (tasks (sch k) c)) (tasks (sch k) ch)))) as Htch.
  { unfold k2, inherit. cbn [sch upd_tk set_sch upd_proc]. by rewrite tasks_upd, decide_True, Hs1. }
  assert (queues s3 Q) as Hq3.
  { apply queues_off; [|by rewrite Htch|done]. eapply queues_core; [exact Hq| |by rewrite Hc2, Hs1]. intros i.
    destruct (decide (i = ch)) as [->|Hi]; [by rewrite Htch|by rewrite Ht2, Hs1]. }
  destruct (runqueue_add_spec me ch s3 Q Hq3 Hme) as [Hq4 (Hco & Hcp & _)].
  { unfold s3. cbn [cpus upd_task]. by rewrite Hc2, Hs1. } { done. } { unfold s3. by rewrite tasks_upd, decide_True. }
  exists k1, (preferred_cpu me s3). split; [done|]. split; [by rewrite Hp2, Hpc|]. cbn zeta. unfold start_task.
  cbn [sch set_sch upd_tk upd_proc]. change (upd_task ch _ (sch k2)) with s3.
  assert (procs k2 ch = Proc (tf (procs k ch)) (kstack (procs k ch)) (brk_base (procs k c)) (brk_cur (procs k c)) (fds (procs k c))) as Hpch.
  { unfold k2, inherit. cbn. by rewrite fn_lookup_insert, Hp1', Hpc. }
  split_and!; [|unfold mem; cbn; by rewrite Hh1|exact Hq4| | | |].
  - eapply fd_ok_ext; [exact Hok1|done|done|]. intros i. cbn. destruct (decide (i = ch)) as [->|Hi].
    + by rewrite !fn_lookup_insert, Hp1'.
    + by rewrite !fn_lookup_insert_ne.
  - intros i Hi. cbn. split; [|by rewrite !fn_lookup_insert_ne, Hp1].
    rewrite runqueue_add_tasks by done. unfold s3. by rewrite tasks_upd, decide_False, Ht2, Hs1.
  - intros d. rewrite Hcp. unfold s3. cbn [cpus upd_task]. by rewrite Hc2, Hs1.
  - rewrite Hco. unfold s3. by rewrite tasks_upd, decide_True, Htch.
  - cbn [procs set_sch upd_tk upd_proc]. rewrite fn_lookup_insert. fold k2. rewrite Hpch. done.
Qed.

(** What holds after a call: the process goes on as before. *)
Lemma executing_view master me c R A Q R' A' Q' k k' : executing master me c R A Q k → executing master me c R' A' Q' k' →
  root_of c k' = root_of c k → own_words (user_frames (mem k) (root_of c k)) (mem k) (mem k') →
  ∀ a, view (root_of c k) (mem k') a = view (root_of c k) (mem k) a.
Proof.
  intros Hr Hr' He Hw. destruct (fd_ok_owned _ _ _ (ex_mem _ _ _ _ _ _ _ Hr)) as [P Ho].
  destruct (fd_ok_owned _ _ _ (ex_mem _ _ _ _ _ _ _ Hr')) as [P' Ho']. rewrite <- app_assoc in Ho, Ho'. rewrite He in Ho'.
  by eapply view_ext.
Qed.

(** The state after a change of an unused slot. *)
Lemma executing_step master me c ch R A Q R' A' Q' k k' : executing master me c R A Q k → c ≠ ch →
  fd_ok R' (user_frames (mem k') (root_of c k) ++ A') k' → foreign_words (mem k) (mem k') → queues (sch k') Q' →
  (∀ i, i ≠ ch → tasks (sch k') i = tasks (sch k) i ∧ procs k' i = procs k i) →
  (∀ d, cpu_core (cpus (sch k') d) = cpu_core (cpus (sch k) d)) →
  (state (tasks (sch k') ch) = T_UNUSED →
    rq_cpu (tasks (sch k') ch) = -1 ∧ ∀ j, (j < NR_FDS)%nat → fds (procs k' ch) j = None) →
  executing master me c R' A' Q' k' ∧ root_of c k' = root_of c k.
Proof.
  intros [Hcur Ht Hmem Hmo Hq Hcpu Hfr] Hne Hok Hf Hq' Hoth Hcc Hch. destruct (Hoth c Hne) as [Htc _].
  assert (root_of c k' = root_of c k) as He by (unfold root_of; by rewrite Htc). split; [|done].
  destruct (cpu_core_fields _ _ (Hcc me)) as (_ & Hst & Hc & _). constructor.
  - unfold current in *. by rewrite Hc.
  - by rewrite Htc.
  - by rewrite He.
  - by eapply master_step.
  - done.
  - by rewrite Hst.
  - intros i Hlt Hi. destruct (decide (i = ch)) as [->|Hn]; [by apply Hch|]. destruct (Hoth i Hn) as [Et Ep]. rewrite Et in Hi.
    rewrite Et, Ep. by apply Hfr.
Qed.

(** The state of fork when the child has an address space. *)
Record fork_mid (c ch : nat) (stk root' : Z) R A Q k k6 : Prop := {
  fm_ok : fd_ok ((stk, KSTACK_SIZE) :: R) (user_frames (mem k6) root' ++ user_frames (mem k6) (root_of c k) ++ A) k6;
  fm_words : own_words (user_frames (mem k) (root_of c k) ++ A) (mem k) (mem k6);
  fm_foreign : foreign_words (mem k) (mem k6);
  fm_slots : kernel_slots (mem k6) root';
  fm_others i : i ≠ ch → tasks (sch k6) i = tasks (sch k) i ∧ procs k6 i = procs k i;
  fm_cpus : cpus (sch k6) = cpus (sch k);
  fm_queues : queues (sch k6) Q;
  fm_task : rq_cpu (tasks (sch k6) ch) = -1 ∧ root_of ch k6 = root' ∧ pid (tasks (sch k6) ch) = u32 (pid_counter k + 1) ∧
            name (tasks (sch k6) ch) = name (tasks (sch k) c) ∧ parent (tasks (sch k6) ch) = Some c;
  fm_proc : kstack (procs k6 ch) = stk ∧ fds (procs k6 ch) = fds (procs k ch);
}.

Lemma fork_mid_intro c ch stk root' R A Q k h g m m' : c ≠ ch → queues (sch k) Q → rq_cpu (tasks (sch k) ch) = -1 →
  (∀ x, rq_cpu (g x) = -1) →
  let k6 := set_mem m' (upd_tk ch (set_pml4 root') (set_mem m (embryo c ch stk (set_hp h (set_sch (upd_task ch g (sch k)) k))))) in
  fd_ok ((stk, KSTACK_SIZE) :: R) (user_frames m' root' ++ user_frames m' (root_of c k) ++ A) k6 →
  own_words (user_frames (mem k) (root_of c k) ++ A) (mem k) m' → foreign_words (mem k) m' → kernel_slots m' root' →
  fork_mid c ch stk root' R A Q k k6.
Proof.
  intros Hne Hq Hrq Hg k6 Hok Hw Hf Hsl.
  assert (sch k6 = upd_task ch (set_pml4 root') (upd_task ch (λ t, set_state T_EMBRYO (set_parent (Some c)
    (set_name (name (tasks (upd_task ch g (sch k)) c)) (set_pid (u32 (pid_counter k + 1)) t)))) (upd_task ch g (sch k)))) as Es by done.
  constructor; [done|done|done|done| |done| | |].
  - intros i Hi. rewrite Es, !tasks_upd, !decide_False by done. split; [done|]. cbn. by rewrite fn_lookup_insert_ne.
  - rewrite Es. apply queues_upd_task; [|done]. apply queues_upd_task; [|done]. by apply queues_off.
  - unfold root_of. rewrite Es, !tasks_upd. repeat case_decide; try done.
    split_and!; [cbn; apply Hg|done..].
  - unfold k6. cbn. by rewrite fn_lookup_insert.
Qed.

Lemma fork_fail master me c ch stk root' R A Q k k6 : executing master me c R A Q k → c ≠ ch →
  (∀ j, (j < NR_FDS)%nat → fds (procs k ch) j = None) → fork_mid c ch stk root' R A Q k k6 →
  ∃ k', drop_task ch k6 = Ret k' ∧ executing master me c R A Q k' ∧ root_of c k' = root_of c k ∧
    own_words (user_frames (mem k) (root_of c k)) (mem k) (mem k').
Proof.
  intros Hru Hne Hfd [Hok Hw Hf Hsl Hoth Hcp Hq (Hrq & Hrt & _) [Hks Hfds]]. rewrite <- Hks in Hok. rewrite <- Hrt in Hok, Hsl.
  destruct (drop_task_spec R _ k6 ch KSTACK_SIZE Hok Hsl Hrq) as (k' & E & Hok' & Hw' & Hf' & Hp' & Hs').
  pose proof (own_words_l _ _ _ _ Hw') as Hwu. pose proof (user_frames_ext _ _ _ Hwu) as Hfe.
  pose proof (own_words_l _ _ _ _ Hw) as Hwu0. pose proof (user_frames_ext _ _ _ Hwu0) as Hfe0.
  destruct (executing_step master me c ch R A Q R A Q k k' Hru Hne) as [Hru' He].
  - by rewrite Hfe.
  - by eapply foreign_words_trans.
  - rewrite Hs'. apply queues_off; done.
  - intros i Hi. rewrite Hs', Hp', tasks_upd, decide_False by done. by apply Hoth.
  - intros d. by rewrite Hs', <- Hcp.
  - intros _. rewrite Hs', Hp', Hfds, tasks_upd, decide_True by done. done.
  - exists k'. split_and!; [done|done|done|]. eapply own_words_trans; [exact Hwu0|]. by rewrite <- Hfe0.
Qed.

Lemma fork_done master me c ch stk root' R A Q k k6 f : executing master me c R A Q k → c ≠ ch → (ch < NR_TASKS)%nat →
  (∀ j, (j < NR_FDS)%nat → fds (procs k ch) j = None) → tf (procs k c) = Some f → fork_mid c ch stk root' R A Q k k6 →
  ∃ k7 cpu, clone_fds c ch k6 = Ret k7 ∧ tf (procs (inherit c ch k7) c) = Some f ∧
    let k' := start_task me ch (child_frame f) (inherit c ch k7) in
    mem k' = mem k6 ∧ forked c ch f stk k k' ∧ root_of ch k' = root' ∧ root_of c k' = root_of c k ∧
    executing master me c ((stk, KSTACK_SIZE) :: R) (user_frames (mem k') root' ++ A) (enqueue cpu ch Q) k'.
Proof.
  intros Hru Hne Hch Hfd Htf [Hok Hw Hf Hsl Hoth Hcp Hq (Hrq & Hrt & Hpid & Hnm & Hpar) [Hks Hfds]].
  pose proof Hru as [_ [Hc _] _ _ _ [Hme Hst] _]. destruct (Hoth c Hne) as [Htc Hpc].
  destruct (start_step me c ch f _ _ k6 Q Hc Hch Hne Hok) as (k7 & cpu & E & Htf7 & Hok' & Hm' & Hq' & Hoth' & Hcc & Hcore & Hpch);
    [by rewrite Hfds|by rewrite Hpc|done|done|by rewrite Hcp|].
  exists k7, cpu. split; [done|]. split; [done|]. set (k' := start_task me ch (child_frame f) (inherit c ch k7)) in *. cbn zeta.
  destruct (core_fields _ _ Hcore) as (Cpid & _ & Cst & _ & _ & Cpar & Cpend & Cmask). destruct (core_more _ _ Hcore) as (Cnm & Cpml & Csa).
  split; [done|]. split; [|split].
  - constructor; [by rewrite Cpid|by rewrite Cnm|by rewrite Cpar|by rewrite Cst|by rewrite Csa, <- Htc|by rewrite Cmask, <- Htc|by rewrite Cpend| |].
    + by rewrite Hpch, Hks, Hpc.
    + intros i Hi. destruct (Hoth' i Hi) as [-> ->]. by apply Hoth.
  - unfold root_of. by rewrite Cpml, <- Hrt.
  - apply and_comm, (executing_step master me c ch R A Q _ _ _ k k' Hru Hne); [| |exact Hq'| | |].
    + rewrite Hm'. eapply fd_ok_frames; [|exact Hok']. apply Permutation_app_swap_app.
    + by rewrite Hm'.
    + intros i Hi. destruct (Hoth' i Hi) as [-> ->]. by apply Hoth.
    + intros d. by rewrite Hcc, Hcp.
    + by rewrite Cst.
Qed.


(** ** Waiting *)

(** A store into the memory of the running process. *)
Lemma store_step master me c R A Q k va bs : executing master me c R A Q k → Forall (λ b, 0 ≤ b < 256) bs →
  (∀ a, va ≤ a < va + Z.of_nat (length bs) → mapped (root_of c k) a (mem k)) →
  let k' := set_mem (store_bytes (root_of c k) va bs (mem k)) k in
  executing master me c R A Q k' ∧ own_words A (mem k) (mem k') ∧
  ∀ a, view (root_of c k) (mem k') a = overlay va bs (view (root_of c k) (mem k)) a.
Proof.
  intros [Hcur Ht Hmem Hmo Hq Hcpu Hfr] Hb Hm k'. destruct (fd_ok_owned _ _ _ Hmem) as [P Ho]. rewrite <- app_assoc in Ho.
  destruct (kstore_spec (root_of c k) va bs (mem k) (A ++ P) Ho Hb Hm) as (s' & E & [_ Hw Hf _] & Hv).
  assert (s' = mem k') as ->.
  { unfold kstore in E. destruct (forallb _ _); [|done]. by injection E as <-. }
  split; [|split; [by eapply own_words_l|done]]. constructor; [done|done| |by eapply master_step|done..].
  change (root_of c k') with (root_of c k). eapply mem_step; [exact Hmem|]. intros A' Ho'. rewrite <- app_assoc in Ho'.
  destruct (store_bytes_spec (root_of c k) (A ++ A') bs va (mem k) Ho' Hm) as [[Ho2 _ _ Hw2 _ _] _].
  rewrite <- app_assoc. split; [exact Ho2|by eapply own_words_r].
Qed.

Lemma le_bytes_range n w : Forall (λ b, 0 ≤ b < 256) (le_bytes n w).
Proof. apply Forall_fmap, Forall_forall. intros i _. apply nth_byte_range. Qed.

(** The status is stored when all of it can be. *)
Definition status_view (root ustatus code : Z) s : Z → option Z :=
  if decide (ustatus ≠ 0 ∧ UCP root ustatus s = true)
  then overlay ustatus (le_bytes 4 (u32 code)) (view root s) else view root s.

Lemma put_status_spec master me c R A Q k ustatus code : executing master me c R A Q k → 0 ≤ ustatus < 2 ^ 64 →
  let k' := put_status c ustatus code k in
  executing master me c R A Q k' ∧ own_words A (mem k) (mem k') ∧ foreign_words (mem k) (mem k') ∧
  sch k' = sch k ∧ procs k' = procs k ∧
  ∀ a, view (root_of c k) (mem k') a = status_view (root_of c k) ustatus code (mem k) a.
Proof.
  intros Hex Hu k'. unfold k', put_status, status_view. destruct (Z.eqb_spec ustatus 0) as [->|Hne]; cbn [negb andb].
  { rewrite decide_False by tauto. split_and!; [done|done|apply foreign_words_refl|done..]. }
  destruct (UCP (root_of c k) ustatus (mem k)) eqn:Eu.
  2: { rewrite decide_False by (intros [_ ?]; congruence). split_and!; [done|done|apply foreign_words_refl|done..]. }
  rewrite decide_True by done. unfold UCP in Eu. rewrite (proj2 (Z.eqb_neq _ _) Hne) in Eu.
  destruct (fd_ok_owned _ _ _ (ex_mem _ _ _ _ _ _ _ Hex)) as [P Ho]. rewrite <- app_assoc in Ho.
  apply (user_ptr_ok_spec _ _ 8 _ _ Ho Hu ltac:(lia)) in Eu as [_ Hr].
  assert (user_ptr_ok (root_of c k) ustatus 4 (mem k) = true) as E4.
  { apply (user_ptr_ok_spec _ _ 4 _ _ Ho Hu ltac:(lia)). split; [lia|]. intros va Hva. apply Hr. lia. }
  rewrite copy_to_user_alt. change (Z.of_nat (length (le_bytes 4 (u32 code)))) with 4. rewrite E4.
  destruct (store_step master me c R A Q k ustatus (le_bytes 4 (u32 code)) Hex (le_bytes_range _ _)) as (Hex' & Hw & Hv).
  { change (Z.of_nat (length (le_bytes 4 (u32 code)))) with 4. intros a Ha. apply readable_mapped, Hr. lia. }
  split_and!; [done|done| |done|done|done].
  destruct (store_bytes_spec (root_of c k) (A ++ P) (le_bytes 4 (u32 code)) ustatus (mem k) Ho) as [Huw _]; [|apply Huw].
  change (Z.of_nat (length (le_bytes 4 (u32 code)))) with 4. intros a Ha. apply readable_mapped, Hr. lia.
Qed.

(** The resources of a child that has exited: [R'] and [A'] are the rest. *)
Record releasable (t : nat) R A R' A' k : Prop := {
  rl_heap : R ≡ₚ (kstack (procs k t), KSTACK_SIZE) :: R';
  rl_frames : A ≡ₚ user_frames (mem k) (root_of t k) ++ A';
  rl_slots : kernel_slots (mem k) (root_of t k);
  rl_off : rq_cpu (tasks (sch k) t) = -1;
  rl_fds j : (j < NR_FDS)%nat → fds (procs k t) j = None;
}.

Lemma kernel_slots_ext s s' root : kernel_slots s root → own_words (user_frames s root) s s' → kernel_slots s' root.
Proof.
  intros Hs Hw i Hi Hne. rewrite (own_entry _ s s' root i Hw); [by apply Hs|apply list_elem_of_here|lia].
Qed.

Lemma reap_spec master me c t R A Q R' A' k ustatus : executing master me c R A Q k → releasable t R A R' A' k → t ≠ c →
  0 ≤ ustatus < 2 ^ 64 →
  ∃ k', reap c t ustatus k = Ret (i32 (pid (tasks (sch k) t)), k') ∧ executing master me c R' A' Q k' ∧
    (∀ i, i ≠ t → tasks (sch k') i = tasks (sch k) i ∧ procs k' i = procs k i) ∧ state (tasks (sch k') t) = T_UNUSED ∧
    ∀ a, view (root_of c k) (mem k') a = status_view (root_of c k) ustatus (exit_code (tasks (sch k) t)) (mem k) a.
Proof.
  intros Hex [Hrh Hrf Hsl Hoff Hfd] Hne Hu. unfold reap.
  destruct (put_status_spec master me c R A Q k ustatus (exit_code (tasks (sch k) t)) Hex Hu) as (Hex1 & Hw1 & Hf1 & Hs1 & Hp1 & Hv1).
  set (k1 := put_status _ _ _ _) in *. assert (∀ i, root_of i k1 = root_of i k) as Hr1 by (intros i; unfold root_of; by rewrite Hs1).
  assert (own_words (user_frames (mem k) (root_of t k)) (mem k) (mem k1)) as Hwt.
  { eapply own_words_sub; [|exact Hw1]. intros b Hb. rewrite Hrf. in_app. }
  pose proof (user_frames_ext _ _ _ Hwt) as Hfet. pose proof Hex1 as [_ _ Hmem1 _ _ _ _]. rewrite Hr1 in Hmem1.
  assert (fd_ok ((kstack (procs k1 t), KSTACK_SIZE) :: R') (user_frames (mem k1) (root_of t k1) ++ user_frames (mem k1) (root_of c k) ++ A') k1) as Hok1.
  { rewrite Hr1, Hfet, Hp1. eapply fd_ok_blocks; [exact Hrh|]. eapply fd_ok_frames; [|exact Hmem1]. rewrite Hrf. apply Permutation_app_swap_app. }
  destruct (destroy_step _ _ k1 _ Hok1) as (m & -> & Hok2 & Hw2 & Hf2); [rewrite Hr1; by eapply kernel_slots_ext|].
  cbn [mbind outcome_bind]. destruct (kfree_step R' _ (set_mem m k1) _ KSTACK_SIZE Hok2) as (h & E & Hok3 & Hw3 & Hf3).
  change (procs (set_mem m k1)) with (procs k1). rewrite E. cbn [mbind outcome_bind].
  cbn [sch upd_proc set_hp set_mem]. rewrite free_unqueued by (by rewrite Hs1). cbn [mbind outcome_bind]. rewrite Hs1.
  set (k' := set_sch _ _). exists k'. split; [done|]. pose proof (own_words_trans _ _ _ _ Hw2 Hw3) as Hw. change (mem (set_mem m k1)) with m in *.
  pose proof (own_words_l _ _ _ _ Hw) as Hwu. pose proof (user_frames_ext _ _ _ Hwu) as Hfe. change (phys h) with (mem k') in *.
  assert (∀ i, i ≠ t → tasks (sch k') i = tasks (sch k) i ∧ procs k' i = procs k i) as Hoth.
  { intros i Hi. unfold k'. cbn. by rewrite !fn_lookup_insert_ne, Hp1. }
  destruct (executing_step master me c t R A Q R' A' Q k k' Hex) as [Hex' Hrc]; [done| | | |done|done| |].
  - rewrite Hfe. eapply fd_ok_ext; [exact Hok3|done|done|]. intros i. unfold k'. cbn. destruct (decide (i = t)) as [->|Hi];
      [by rewrite fn_lookup_insert|by rewrite fn_lookup_insert_ne].
  - eapply foreign_words_trans; [exact Hf1|]. by eapply foreign_words_trans.
  - apply queues_off; [apply Hex|done|done].
  - intros _. unfold k'. cbn. rewrite !fn_lookup_insert. cbn. by rewrite Hp1.
  - split_and!; [done|done|unfold k'; cbn; by rewrite fn_lookup_insert|]. intros a. rewrite <- Hv1.
    rewrite <- Hr1. eapply (executing_view _ _ _ _ _ _ _ _ _ k1 k' Hex1 Hex'); [by rewrite Hr1|by rewrite Hr1].
Qed.

(** A slot that is given a stack and an address space. *)
Lemma child_state master me c ch R A Q k stk h root m g : executing master me c R A Q k →
  kmalloc KSTACK_SIZE (hp k) = Ret (stk, h) → vmm_new_user_aspace master (phys h) = Ret (root, m) →
  c ≠ ch → (ch < NR_TASKS)%nat → (∀ j, fds (procs k ch) j = None) → rq_cpu (tasks (sch k) ch) = -1 →
  (∀ x, rq_cpu (g x) = rq_cpu x ∧ rq_next (g x) = rq_next x ∧ state (g x) ≠ T_UNUSED ∧ pml4 (g x) = root) →
  let k' := upd_tk ch g (upd_proc ch (set_kstack stk) (set_mem m (set_hp h k))) in
  executing master me c ((stk, KSTACK_SIZE) :: R) (user_frames (mem k') root ++ A) Q k' ∧
  releasable ch ((stk, KSTACK_SIZE) :: R) (user_frames (mem k') root ++ A) R A k'.
Proof.
  intros Hex E1 E2 Hne Hch Hfd Hrq Hg k'. pose proof Hex as [_ _ Hmem Hmo Hq _ _].
  destruct (kmalloc_step R _ k KSTACK_SIZE Hmem ltac:(by_eval) ltac:(by_eval)) as [Hp|(p & h' & Ek & _ & Hok1 & Hw1 & Hf1)]; [congruence|].
  assert (p = stk ∧ h' = h) as [-> ->] by (split; congruence).
  destruct (new_aspace_step _ _ (set_hp h k) master Hok1) as [Hp|(rt & m' & En & Hok2 & Hsl & _ & Hw2 & Hf2 & _)];
    [by eapply master_step|change (mem (set_hp h k)) with (phys h) in Hp; congruence|].
  assert (rt = root ∧ m' = m) as [-> ->] by (change (mem (set_hp h k)) with (phys h) in En; split; congruence).
  pose proof (own_words_trans _ _ _ _ Hw1 Hw2) as Hw. pose proof (own_words_l _ _ _ _ Hw) as Hwu. pose proof (user_frames_ext _ _ _ Hwu) as Hfe.
  assert (tasks (sch k') ch = g (tasks (sch k) ch)) as Htch by (unfold k'; cbn; by rewrite fn_lookup_insert).
  destruct (Hg (tasks (sch k) ch)) as (Hg1 & Hg2 & Hg3 & Hg4). split.
  - refine (proj1 (executing_step master me c ch R A Q _ _ _ k k' Hex Hne _ _ _ _ _ _)).
    + change (mem k') with m. rewrite Hfe. eapply fd_ok_frames; [apply Permutation_app_swap_app|]. eapply fd_ok_ext; [exact Hok2|done|done|].
      intros i. unfold k'. cbn. destruct (decide (i = ch)) as [->|]; [by rewrite fn_lookup_insert|by rewrite fn_lookup_insert_ne].
    + by eapply foreign_words_trans.
    + apply queues_upd_task; [done|]. intros x. by destruct (Hg x) as (? & ? & _).
    + intros i Hi. unfold k'. cbn. by rewrite !fn_lookup_insert_ne.
    + done.
    + by rewrite Htch.
  - assert (root_of ch k' = root) as Hr by (unfold root_of; by rewrite Htch).
    assert (procs k' ch = set_kstack stk (procs k ch)) as Hpc by (unfold k'; cbn; by rewrite fn_lookup_insert).
    constructor; rewrite ?Hr, ?Hpc; [done|done|done|by rewrite Htch, Hg1|intros j _; apply Hfd].
Qed.

(** A zombie child that the call waits for. *)
Definition reapable (c : nat) (wpid : Z) (s : sched) (t : nat) : Prop :=
  (t < NR_TASKS)%nat ∧ is_child c t s = true ∧ waited wpid t s = true ∧ state (tasks s t) = T_ZOMBIE.

(** C19. [waitpid] with WNOHANG: a child that has exited and is waited for is
    reaped, which stores its exit code, gives back its address space, its
    kernel stack and its slot and changes nothing else; without children the
    call fails, and with children that still run it returns 0. *)
Theorem sys_waitpid_correct master me c R A Q k wpid ustatus opts : executing master me c R A Q k → 0 ≤ ustatus < 2 ^ 64 →
  Z.land opts 1 ≠ 0 → (∀ t, reapable c wpid (sch k) t → ∃ R' A', releasable t R A R' A' k) →
  (∃ t R' A' k', reapable c wpid (sch k) t ∧ releasable t R A R' A' k ∧
     sys_waitpid me wpid ustatus opts k = Ret (Reaped (i32 (pid (tasks (sch k) t))), k') ∧ executing master me c R' A' Q k' ∧
     (∀ i, i ≠ t → tasks (sch k') i = tasks (sch k) i ∧ procs k' i = procs k i) ∧ state (tasks (sch k') t) = T_UNUSED ∧
     ∀ a, view (root_of c k) (mem k') a = status_view (root_of c k) ustatus (exit_code (tasks (sch k) t)) (mem k) a) ∨
  ((∀ t, ¬ reapable c wpid (sch k) t) ∧
   sys_waitpid me wpid ustatus opts k =
     Ret (Reaped (if existsb (λ t, is_child c t (sch k)) (seq 0 NR_TASKS) then 0 else LNXRM_ECHILD), k)).
Proof.
  intros Hex Hu Ho Hrel. unfold sys_waitpid. rewrite (ex_cur _ _ _ _ _ _ _ Hex). cbn zeta.
  destruct (for_find _ 0 NR_TASKS) as [t|] eqn:Ef.
  - apply for_find_Some in Ef as (Ht & [[Hic Hw]%andb_prop Hz]%andb_prop & _). left.
    assert (reapable c wpid (sch k) t) as Hrp by (split_and!; [lia|done|done|by apply bool_decide_eq_true in Hz]).
    destruct (Hrel t Hrp) as (R' & A' & Hre). apply andb_prop in Hic as [[_ Hne%negb_true_iff%Nat.eqb_neq]%andb_prop _].
    destruct (reap_spec master me c t R A Q R' A' k ustatus Hex Hre Hne Hu) as (k' & E & Hrest).
    exists t, R', A', k'. rewrite E. done.
  - pose proof (proj1 (for_find_None _ _ _) Ef) as Hn. right. split.
    { intros t (Ht & Hic & Hw & Hz). specialize (Hn t ltac:(lia)). cbn beta in Hn. rewrite Hic, Hw, bool_decide_eq_true_2 in Hn by done. done. }
    destruct (for_find (λ t, is_child c t (sch k)) 0 NR_TASKS) as [t|] eqn:Ec.
    + rewrite bool_decide_eq_false_2 by done. rewrite (proj2 (Z.eqb_neq _ _) Ho). cbn [negb].
      apply for_find_Some in Ec as (Ht & Hic & _). rewrite (proj2 (existsb_exists _ _)); [done|]. exists t. split; [apply in_seq; lia|done].
    + rewrite bool_decide_eq_true_2 by done. destruct (existsb _ _) eqn:Ee; [|done]. apply existsb_exists in Ee as (t & Ht%in_seq & Hic).
      pose proof (proj1 (for_find_None _ _ _) Ec t ltac:(lia)). congruence.
Qed.
End facts.

(** ** Example *)
Module TaskDemo.
(** A process with a page of its own and the trampoline. *)
Definition r5 := get_ret (false, VmmDemo.s0) (map_fresh VmmDemo.root SIG_TRAMPOLINE_VA true VmmDemo.s3).
Definition s5 : pmm_state := r5.2.
Definition frame0 : intr_frame := IntrFrame 15 14 13 12 11 10 9 8 7 6 5 4 3 57 1 128 0 VmmDemo.va 27 0x202 (VmmDemo.va + 4096) 35.
Definition k_of (N : Type) : kern pmm_state N :=
  Kern (upd_task 3 (set_pml4 VmmDemo.root) SchedDemo.busy) (Heap (λ _, 0) 0 0 0 s5)
    (λ _, Proc (Some frame0) 0 VmmDemo.va (VmmDemo.va + 10) (λ _, None)) ∅ 3.
Definition k0 : kern pmm_state unit := k_of unit.

Lemma s5_kept : kept VmmDemo.root [] VmmDemo.s3 s5.
Proof.
  assert (map_fresh VmmDemo.root SIG_TRAMPOLINE_VA true VmmDemo.s3 = Ret (r5.1, s5)) as E.
  { refine (ret_pair (false, VmmDemo.s0) _ _). by_eval. }
  assert (r5.1 = true) as E1 by by_eval. rewrite E1 in E.
  destruct (map_fresh_spec VmmDemo.root SIG_TRAMPOLINE_VA true VmmDemo.s3 [] (proj1 VmmDemo.s3_owned)) as [Hp|[[Hp _]|(s' & Hs & Hk & _)]].
  - by_eval.
  - by_eval.
  - by_eval.
  - rewrite E in Hp. discriminate Hp.
  - rewrite E in Hp. discriminate Hp.
  - rewrite E in Hs. assert (s' = s5) as -> by congruence. exact Hk.
Qed.

Lemma master0 : master_ok 0x50000 s5.
Proof.
  constructor.
  - intros i Hi. assert (0x52000 ≤ base_addr s5) as Hb by by_eval. intros [Hx _]. lia.
  - assert (forallb (λ i : nat, negb (present (entry s5 0x50000 (Z.of_nat i)))) (seq 0 512) = true) as Hf by (vm_compute; reflexivity).
    intros i Hi _. rewrite forallb_forall in Hf. specialize (Hf (Z.to_nat i)). rewrite Z2Nat.id in Hf by lia.
    apply negb_true_iff, Hf, in_seq. lia.
Qed.

Lemma executing_of N : executing 0x50000 0 3 [] [] SchedDemo.Q (k_of N).
Proof.
  destruct SchedDemo.busy_queues as [Hq [Hme Hst]]. constructor.
  - reflexivity.
  - split; [by_eval|reflexivity].
  - apply (fd_start _ []); [reflexivity|reflexivity|]. apply heap_inv_start; [reflexivity|]. exact (kp_owned _ _ _ _ s5_kept).
  - exact master0.
  - apply queues_upd_task; [exact Hq|reflexivity || (intros; split; reflexivity)].
  - split; [exact Hme|]. vm_compute. reflexivity.
  - assert (forallb (λ i, negb (is_unused (sch (k_of N)) i) || (rq_cpu (tasks (sch (k_of N)) i) =? -1)) (seq 0 NR_TASKS) = true) as Hf by (vm_compute; reflexivity).
    intros i Hi Hu. split; [|reflexivity]. rewrite forallb_forall in Hf. specialize (Hf i ltac:(apply in_seq; lia)).
    unfold is_unused in Hf. rewrite bool_decide_eq_true_2 in Hf by exact Hu. by apply Z.eqb_eq.
Qed.

Lemma executing0 : executing 0x50000 0 3 [] [] SchedDemo.Q k0.
Proof. exact (executing_of unit). Qed.

(** The same process with a child in slot 5 that has exited with code 7. *)
Definition r1 := get_ret (0, hp k0) (kmalloc KSTACK_SIZE (hp k0)).
Definition r2 := get_ret (0, s5) (vmm_new_user_aspace 0x50000 (phys r1.2)).
Definition zombie (t : task) : task :=
  set_state T_ZOMBIE (set_exit_code 7 (set_parent (Some 3%nat) (set_pid 9 (set_pml4 r2.1 t)))).
Definition k2 : kern pmm_state unit := upd_tk 5 zombie (upd_proc 5 (set_kstack r1.1) (set_mem r2.2 (set_hp r1.2 k0))).

Lemma e1 : kmalloc KSTACK_SIZE (hp k0) = Ret (r1.1, r1.2).
Proof. refine (ret_pair (0, hp k0) _ _). by_eval. Qed.
Lemma e2 : vmm_new_user_aspace 0x50000 (phys r1.2) = Ret (r2.1, r2.2).
Proof. refine (ret_pair (0, s5) _ _). by_eval. Qed.

Lemma executing2 : executing 0x50000 0 3 [(r1.1, KSTACK_SIZE)] (user_frames (mem k2) r2.1 ++ []) SchedDemo.Q k2 ∧
  releasable 5 [(r1.1, KSTACK_SIZE)] (user_frames (mem k2) r2.1 ++ []) [] [] k2.
Proof.
  unfold k2. refine (child_state 0x50000 0 3 5 [] [] SchedDemo.Q k0 r1.1 r1.2 r2.1 r2.2 zombie executing0 e1 e2 _ _ _ _ _).
  - lia.
  - by_eval.
  - reflexivity.
  - by_eval.
  - intros x. split; [reflexivity|]. split; [reflexivity|]. split; [discriminate|reflexivity].
Qed.
End TaskDemo.


Lemma sys_waitpid_correct_witness :
  ∃ k', sys_waitpid 0 (-1) 0 1 TaskDemo.k2 = Ret (Reaped 9, k') ∧ state (tasks (sch k') 5) = T_UNUSED.
Proof.
  destruct TaskDemo.executing2 as [Hex Hre].
  assert (∀ t, reapable 3 (-1) (sch TaskDemo.k2) t → t = 5%nat) as Honly.
  { assert (forallb (λ t, negb (bool_decide (state (tasks (sch TaskDemo.k2) t) = T_ZOMBIE)) || (t =? 5)%nat) (seq 0 NR_TASKS) = true) as Hf
      by (vm_compute; reflexivity).
    intros t (Ht & _ & _ & Hz). rewrite forallb_forall in Hf. specialize (Hf t ltac:(apply in_seq; lia)). cbn beta in Hf.
    rewrite bool_decide_eq_true_2 in Hf by exact Hz. by apply Nat.eqb_eq. }
  destruct (sys_waitpid_correct 0x50000 0 3 _ _ SchedDemo.Q TaskDemo.k2 (-1) 0 1 Hex)
    as [(t & R' & A' & k' & Hr & _ & E & _ & _ & Hs & _)|[Hno _]].
  - lia.
  - discriminate.
  - intros t Hr. rewrite (Honly t Hr). exists [], []. exact Hre.
  - rewrite (Honly t Hr) in *. exists k'. split; [|exact Hs]. rewrite E. do 3 f_equal.
  - exfalso. apply (Hno 5%nat). split_and!; vm_compute; (reflexivity || lia).
Defined.
