(* ===== verification/SignalFacts.v ===== *)
(** Signal delivery and return: a handler's frame is written to the user stack
    and sigreturn restores from it exactly the interrupted context, sigreturn
    never resumes anything but user code, and which signals kill. *)
From S2P Require Import Prelude Bytes Pmm PmmFacts PmmInit Frames Kheap KheapFacts Vmm VmmFacts VmmLife VmmDup VmmDemo UserMem Sched SchedFacts SchedRun Proc Signal.

(** ** Words as bytes *)

Lemma nth_byte_div w k : 0 ≤ k → nth_byte w k = (w / 2 ^ (8 * k)) mod 2 ^ 8.
Proof. intros Hk. unfold nth_byte. by rewrite Z.land_ones, Z.shiftr_div_pow2 by lia. Qed.

Lemma split_low a m w : 0 < m → 0 < a → w mod (a * m) = w mod a + a * ((w / a) mod m).
Proof. intros. by rewrite Z.rem_mul_r by lia. Qed.

Lemma le64_bytes l off w : (∀ j, (j < 8)%nat → byte_at l (off + j) = nth_byte w (Z.of_nat j)) → le64 l off = u64 w.
Proof.
  intros Hb. unfold le64, le32, le16.
  pose proof (Hb 0%nat ltac:(lia)) as H0'. rewrite Nat.add_0_r in H0'.
  replace (off + 2 + 1)%nat with (off + 3)%nat by lia. replace (off + 4 + 2)%nat with (off + 6)%nat by lia.
  replace (off + 4 + 1)%nat with (off + 5)%nat by lia. replace (off + 6 + 1)%nat with (off + 7)%nat by lia.
  rewrite H0', !Hb by lia. rewrite !nth_byte_div by lia. unfold u64.
  change (2 ^ 64) with (2 ^ 8 * (2 ^ 8 * (2 ^ 8 * (2 ^ 8 * (2 ^ 8 * (2 ^ 8 * (2 ^ 8 * 2 ^ 8))))))).
  rewrite !split_low by lia. rewrite !Z.div_div by lia. cbn [Z.of_nat]. change (8 * 0) with 0. rewrite Z.pow_0_r, Z.div_1_r.
  change (Z.of_nat 1) with 1.
  repeat match goal with |- context [w / ?a] => progress (let b := eval vm_compute in a in change (w / a) with (w / b)) end.
  lia.
Qed.

Lemma byte_at_le n w j : (j < n)%nat → byte_at (le_bytes n w) j = nth_byte w (Z.of_nat j).
Proof. intros Hj. unfold byte_at, le_bytes. by rewrite list_lookup_fmap, lookup_seq_lt. Qed.

Lemma length_le_bytes n w : length (le_bytes n w) = n.
Proof. unfold le_bytes. by rewrite length_fmap, length_seq. Qed.

Lemma length_words ws : length (words_bytes ws) = (8 * length ws)%nat.
Proof.
  induction ws as [|w ws IH]; [done|]. unfold words_bytes in *. cbn [mbind list_bind]. rewrite length_app, length_le_bytes, IH.
  cbn [length]. lia.
Qed.

Lemma byte_at_words ws i j w : ws !! i = Some w → (j < 8)%nat → byte_at (words_bytes ws) (8 * i + j) = nth_byte w (Z.of_nat j).
Proof.
  revert i. induction ws as [|v ws IH]; intros i Hi Hj; [done|]. unfold words_bytes in *. cbn [mbind list_bind].
  unfold byte_at in *. destruct i as [|i].
  - injection Hi as ->. rewrite lookup_app_l by (rewrite length_le_bytes; lia). by apply byte_at_le.
  - rewrite lookup_app_r by (rewrite length_le_bytes; lia). rewrite length_le_bytes.
    replace (8 * S i + j - 8)%nat with (8 * i + j)%nat by lia. by apply IH.
Qed.

Lemma byte_at_load {S} `{Frames S} root va n j (s : S) : (j < n)%nat →
  byte_at (load_bytes root va n s) j = peek root (va + Z.of_nat j) s.
Proof. intros Hj. unfold byte_at, load_bytes. by rewrite list_lookup_fmap, lookup_seq_lt. Qed.

Lemma load_bytes_range {S} `{Frames S} root va n (s : S) : bytes_ok (load_bytes root va n s).
Proof. unfold bytes_ok, load_bytes. apply Forall_fmap, Forall_true. intros i. apply nth_byte_range. Qed.

Lemma le64_range l off : bytes_ok l → 0 ≤ le64 l off < 2 ^ 64.
Proof. intros Hb. unfold le64. pose proof (le32_range l off Hb). pose proof (le32_range l (off + 4) Hb). lia. Qed.

Section signal_facts.
Context {S N : Type} `{FrameLaws S}.
Implicit Types (k : kern S N) (A : list (Z * nat)).

(** ** Delivery *)

Record frame_ok (f : intr_frame) : Prop := {
  fo_words : Forall (λ w, 0 ≤ w < 2 ^ 64) (frame_words 0 f);
}.

(** The stack pointer a handler starts with. *)
Definition handler_sp (f : intr_frame) : Z := u64 (Z.land (u64 (ussp f - 184)) (Z.lnot 15) - 8).

Definition entered (h sig : Z) (f : intr_frame) : intr_frame :=
  set_rflags (Z.lor (rflags f) 0x200) (set_rdi sig (set_ip_sp h (handler_sp f) f)).

(** The bytes of the handler's frame as they are in memory: the saved context
    and, below it, the return address. *)
Definition saved (root sp sig : Z) (f : intr_frame) (s : S) : Prop :=
  ∀ j, (j < 168)%nat → peek root (sp + 8 + Z.of_nat j) s = byte_at (words_bytes (frame_words sig f)) j.
Definition framed (root sp sig : Z) (f : intr_frame) (s : S) : Prop :=
  (∀ j, (j < 8)%nat → peek root (sp + Z.of_nat j) s = nth_byte SIG_TRAMPOLINE_VA (Z.of_nat j)) ∧ saved root sp sig f s.

Lemma words_bytes_ok ws : bytes_ok (words_bytes ws).
Proof.
  unfold bytes_ok, words_bytes. apply Forall_bind, Forall_true. intros w. unfold le_bytes.
  apply Forall_fmap, Forall_true. intros i. apply nth_byte_range.
Qed.

(** The three stores of a delivery. *)
Definition write_frame (root sp sig : Z) (f : intr_frame) (s : S) : S :=
  store_bytes root (sp + 8) (words_bytes (frame_words sig f))
    (store_bytes root (sp + 8) (replicate FRAME_SIZE 0) (store_bytes root sp (le_bytes 8 SIG_TRAMPOLINE_VA) s)).

Lemma write_frame_spec root sp sig f s A : owned s (user_frames s root ++ A) →
  (∀ va, sp ≤ va < sp + 184 → mapped root va s) →
  user_write root A s (write_frame root sp sig f s) ∧ framed root sp sig f (write_frame root sp sig f s) ∧
  ∀ va, mapped root va s → ¬ sp ≤ va < sp + 184 → peek root va (write_frame root sp sig f s) = peek root va s.
Proof.
  intros Ho Hm. unfold write_frame.
  destruct (store_bytes_spec root A (le_bytes 8 SIG_TRAMPOLINE_VA) sp s Ho) as [Hw1 Hp1].
  { intros a Ha. rewrite length_le_bytes in Ha. apply Hm. lia. }
  set (s1 := store_bytes root sp _ s) in *.
  destruct (store_bytes_spec root A (replicate FRAME_SIZE 0) (sp + 8) s1 (uw_owned _ _ _ _ Hw1)) as [Hw2 Hp2].
  { intros a Ha. rewrite length_replicate in Ha. eapply user_write_mapped; [exact Hw1|]. apply Hm. unfold FRAME_SIZE in Ha. lia. }
  set (s2 := store_bytes root (sp + 8) _ s1) in *.
  destruct (store_bytes_spec root A (words_bytes (frame_words sig f)) (sp + 8) s2 (uw_owned _ _ _ _ Hw2)) as [Hw3 Hp3].
  { intros a Ha. rewrite length_words in Ha. cbn [frame_words length] in Ha.
    eapply user_write_mapped; [exact Hw2|]. eapply user_write_mapped; [exact Hw1|]. apply Hm. lia. }
  set (s3 := store_bytes root (sp + 8) _ s2) in *.
  assert (∀ a, mapped root a s → mapped root a s1 ∧ mapped root a s2) as Hmm.
  { intros a Ha. assert (mapped root a s1) by (by eapply user_write_mapped). split; [done|]. by eapply user_write_mapped. }
  rewrite length_le_bytes in Hp1. rewrite length_replicate in Hp2. rewrite length_words in Hp3. cbn [frame_words length] in Hp3.
  unfold FRAME_SIZE in Hp2. split; [by do 2 (eapply user_write_trans; [done|])|]. split; [split|].
  - intros j Hj. assert (mapped root (sp + Z.of_nat j) s) as Hj0 by (apply Hm; lia). destruct (Hmm _ Hj0).
    rewrite Hp3, decide_False, Hp2, decide_False, Hp1, decide_True by (done || lia).
    replace (Z.to_nat (sp + Z.of_nat j - sp)) with j by lia. rewrite <- (byte_at_le 8) by done. apply u8_small, byte_at_range.
    unfold bytes_ok, le_bytes. apply Forall_fmap, Forall_true. intros i. apply nth_byte_range.
  - intros j Hj. assert (mapped root (sp + 8 + Z.of_nat j) s) as Hj0 by (apply Hm; lia). destruct (Hmm _ Hj0).
    rewrite Hp3, decide_True by (done || lia). replace (Z.to_nat (sp + 8 + Z.of_nat j - (sp + 8))) with j by lia.
    apply u8_small, byte_at_range, words_bytes_ok.
  - intros va Hva Hne. destruct (Hmm _ Hva). rewrite Hp3, decide_False, Hp2, decide_False, Hp1, decide_False by (done || lia). done.
Qed.

Lemma deliver_spec me t sig f k A :
  let root := root_of t k in
  let h := handler_of (tasks (sch k) t) sig in
  let sp := handler_sp f in
  owned (mem k) (user_frames (mem k) root ++ A) → 0 ≤ h < 2 ^ 64 →
  (¬ (readable root h (mem k) ∧ ∀ va, sp ≤ va < sp + 184 → readable root va (mem k)) ∧
   deliver me t sig f k = exits me SIGSEGV k) ∨
  ((∀ va, sp ≤ va < sp + 184 → readable root va (mem k)) ∧
   deliver me t sig f k =
     Ret (Returns, upd_proc t (set_tf (Some (entered h sig f))) (set_mem (write_frame root sp sig f (mem k)) k))).
Proof.
  intros root h sp Ho Hh. unfold deliver. cbv zeta. fold root h. change (176 + 8) with 184. fold (handler_sp f). fold sp.
  assert (0 ≤ sp < 2 ^ 64) as Hsp by apply u64_range.
  pose proof (user_ptr_ok_spec root h 1 (mem k) A Ho Hh ltac:(lia)) as Hok1.
  pose proof (user_ptr_ok_spec root sp 184 (mem k) A Ho Hsp ltac:(lia)) as Hok2.
  destruct (user_ptr_ok root h 1 (mem k)); cbn [negb orb].
  2: { left. split; [|done]. intros [Hr _]. enough (false = true) by done. apply Hok1. split; [lia|]. intros va Hva. by assert (va = h) as -> by lia. }
  destruct (user_ptr_ok root sp 184 (mem k)); cbn [negb orb].
  2: { left. split; [|done]. intros [_ Hr]. enough (false = true) by done. apply Hok2. split; [lia|done]. }
  right. split; [|done]. apply (proj1 Hok2 eq_refl).
Qed.

(** ** Which signal is taken *)

Lemma land_sigbit p sig : 0 ≤ sig → (Z.land p (sigbit sig) =? 0) = negb (Z.testbit p sig).
Proof.
  intros Hs. unfold sigbit. rewrite Z.shiftl_mul_pow2, Z.mul_1_l by done.
  destruct (Z.testbit p sig) eqn:E; cbn [negb].
  - apply Z.eqb_neq. intros Hz. apply (f_equal (λ z, Z.testbit z sig)) in Hz.
    rewrite Z.land_spec, Z.pow2_bits_true, E, Z.bits_0 in Hz by done. done.
  - apply Z.eqb_eq, Z.bits_inj'. intros n Hn. rewrite Z.land_spec, Z.bits_0, Z.pow2_bits_eqb by done.
    destruct (Z.eqb_spec sig n) as [->|]; [by rewrite E|apply andb_false_r].
Qed.

(** The lowest deliverable signal, when the task is neither stopped nor
    continued. *)
Record next_signal (u : task) (sig : Z) : Prop := {
  ns_range : 1 ≤ sig < 32;
  ns_bit : Z.testbit (deliverable u) sig = true;
  ns_lowest j : 1 ≤ j < sig → Z.testbit (deliverable u) j = false;
  ns_stop : Z.testbit (deliverable u) SIGSTOP = false;
  ns_cont : Z.testbit (deliverable u) SIGCONT = false;
}.

Lemma loop_skips me t pending m : ∀ n sig k, 0 ≤ sig → (∀ j, sig ≤ j < sig + Z.of_nat m → Z.testbit pending j = false) →
  signal_loop me t pending (m + n) sig k = signal_loop me t pending n (sig + Z.of_nat m) k.
Proof.
  induction m as [|m IH]; intros n sig k Hs Hj; [by rewrite Z.add_0_r|].
  cbn [Nat.add signal_loop]. rewrite land_sigbit, Hj by lia. cbn [negb]. rewrite IH; [f_equal; lia|lia|]. intros j ?. apply Hj. lia.
Qed.

Lemma check_next me t k sig : pid (tasks (sch k) t) ≠ 0 → next_signal (tasks (sch k) t) sig →
  do_signal_check me t k = signal_loop me t (deliverable (tasks (sch k) t)) (Datatypes.S (Z.to_nat (31 - sig))) sig k.
Proof.
  intros Hp [Hr Hb Hl Hst Hc]. unfold do_signal_check. rewrite (proj2 (Z.eqb_neq _ 0) Hp).
  destruct (Z.eqb_spec (deliverable (tasks (sch k) t)) 0) as [Hz|_]; [by rewrite Hz, Z.bits_0 in Hb|].
  rewrite !land_sigbit, Hst, Hc by by_eval. cbn [negb].
  replace 31%nat with (Z.to_nat (sig - 1) + Datatypes.S (Z.to_nat (31 - sig)))%nat by lia.
  rewrite loop_skips; [f_equal; lia|lia|]. intros j Hj. apply Hl. lia.
Qed.

Lemma check_handler me t k sig f : pid (tasks (sch k) t) ≠ 0 → next_signal (tasks (sch k) t) sig → sig ≠ SIGKILL →
  handler_of (tasks (sch k) t) sig ≠ SIG_DFL → tf (procs k t) = Some f →
  do_signal_check me t k = deliver me t sig f (upd_tk t (clear_bit sig) k).
Proof.
  intros Hp Hn Hk Hh Hf. rewrite (check_next me t k sig) by done. destruct Hn as [Hr Hb _ _ _]. cbn [signal_loop].
  rewrite land_sigbit, Hb by lia. cbn [negb]. rewrite (proj2 (Z.eqb_neq _ _) Hk).
  assert (handler_of (tasks (sch (upd_tk t (clear_bit sig) k)) t) sig = handler_of (tasks (sch k) t) sig) as ->.
  { cbn [sch upd_tk set_sch tasks upd_task]. by rewrite fn_lookup_insert. }
  rewrite (proj2 (Z.eqb_neq _ _) Hh). cbn [procs upd_tk set_sch]. by rewrite Hf.
Qed.

(** ** Return *)

(** The context [f] resumed by a sigreturn trap with frame [f2]: every register
    is that of [f], with sanitised flags; the trap numbers are those of [f2]. *)
Definition resumed (f f2 : intr_frame) : intr_frame :=
  IntrFrame (r15 f) (r14 f) (r13 f) (r12 f) (r11 f) (r10 f) (r9 f) (r8 f) (rbp f) (rdi f) (rsi f) (rdx f) (rcx f) (rax f)
    (rbx f) (intno f2) (err f2) (rip f) (cs f) (Z.land (Z.lor (rflags f) 0x202) (Z.lnot IOPL)) (ussp f) (usss f).

Lemma restore_frame f f2 : restore (λ i, default 0 (frame_words 0 f !! i)) f2 = resumed f f2.
Proof. unfold restore, resumed. cbn. by rewrite <- Z.lor_assoc. Qed.

Lemma restore_ext w w' f : (∀ i, (1 ≤ i < 21)%nat → w i = w' i) → restore w f = restore w' f.
Proof. intros He. unfold restore. rewrite !He by lia. done. Qed.

Lemma frame_lookup sig f i : (1 ≤ i < 21)%nat → frame_words sig f !! i = frame_words 0 f !! i.
Proof. intros Hi. destruct i; [lia|done]. Qed.

Lemma frame_loaded root sp sig f (s : S) i : frame_ok f → saved root sp sig f s → (1 ≤ i < 21)%nat →
  le64 (load_bytes root (sp + 8) FRAME_SIZE s) (8 * i) = default 0 (frame_words 0 f !! i).
Proof.
  intros [Hok] Hf Hi. destruct (lookup_lt_is_Some_2 (frame_words 0 f) i) as [w Hw]; [cbn [frame_words length]; lia|].
  rewrite Hw. cbn [default]. rewrite (le64_bytes _ _ w).
  - apply u64_small. exact (Forall_lookup_1 _ _ _ _ Hok Hw).
  - intros j Hj. rewrite byte_at_load by (unfold FRAME_SIZE; lia). rewrite Hf by lia.
    apply byte_at_words; [by rewrite frame_lookup|done].
Qed.

Lemma handler_sp_spec f : 0 ≤ ussp f < 2 ^ 64 → 207 ≤ ussp f →
  handler_sp f + 184 ≤ ussp f - 8 ∧ ussp f - 24 < handler_sp f + 184 ∧ handler_sp f mod 16 = 8 ∧ 0 ≤ handler_sp f.
Proof.
  intros Hr Hl. unfold handler_sp. rewrite (u64_small (ussp f - 184)) by lia.
  assert (Z.land (ussp f - 184) (Z.lnot 15) = (ussp f - 184) / 16 * 16) as ->.
  { change 15 with (Z.ones 4). rewrite <- Z.ldiff_land, Z.ldiff_ones_r, Z.shiftl_mul_pow2, Z.shiftr_div_pow2 by lia. done. }
  pose proof (Z.div_mod (ussp f - 184) 16). pose proof (Z.mod_pos_bound (ussp f - 184) 16).
  rewrite u64_small by lia. split_and!; try lia.
  replace ((ussp f - 184) / 16 * 16 - 8) with (8 + ((ussp f - 184) / 16 - 1) * 16) by lia. by rewrite Z.mod_add.
Qed.

Lemma clear_bit_same t sig k :
  root_of t (upd_tk t (clear_bit sig) k) = root_of t k ∧ mem (upd_tk t (clear_bit sig) k) = mem k ∧
  handler_of (tasks (sch (upd_tk t (clear_bit sig) k)) t) sig = handler_of (tasks (sch k) t) sig.
Proof. unfold root_of. cbn [sch upd_tk set_sch tasks upd_task]. by rewrite fn_lookup_insert. Qed.

Lemma sigreturn_ok me t k f f2 sp sig A : current me (sch k) = Some t → tf (procs k t) = Some f2 → ussp f2 = sp + 8 →
  0 ≤ sp → let root := root_of t k in
  owned (mem k) (user_frames (mem k) root ++ A) → frame_ok f → saved root sp sig f (mem k) →
  (∀ va, sp + 8 ≤ va < sp + 184 → readable root va (mem k)) →
  user_selectors (cs f) (usss f) = true → readable root (rip f) (mem k) → readable root (ussp f) (mem k) →
  sys_sigreturn me k = Ret (Returns, 0, upd_proc t (set_tf (Some (resumed f f2))) k).
Proof.
  intros Hc Htf Hsp Hpos root Ho Hok Hfr Hr Hsel Hrip Hrsp. unfold sys_sigreturn. rewrite Hc, Htf. cbv zeta. fold root. rewrite Hsp.
  assert (∀ va, readable root va (mem k) → user_ptr_ok root va 1 (mem k) = true) as Hone.
  { intros va Hva. apply (user_ptr_ok_spec root va 1 (mem k) A Ho).
    - destruct Hva as [? _]. unfold USER_BASE, USER_MAX_VMA in *. lia.
    - lia.
    - split; [lia|]. intros a Ha. by assert (a = va) as -> by lia. }
  rewrite (proj2 (user_ptr_ok_spec root (sp + 8) 176 (mem k) A Ho ltac:(destruct (Hr (sp + 8) ltac:(lia)) as [? _]; unfold USER_MAX_VMA in *; lia) ltac:(lia)));
    [|split; [lia|intros; apply Hr; lia]].
  cbn [negb]. pose proof (frame_loaded root sp sig f (mem k)) as Hw.
  rewrite !Hw by (done || lia). change (default 0 (frame_words 0 f !! 1%nat)) with (rip f).
  change (default 0 (frame_words 0 f !! 2%nat)) with (cs f). change (default 0 (frame_words 0 f !! 4%nat)) with (ussp f).
  change (default 0 (frame_words 0 f !! 5%nat)) with (usss f). rewrite Hsel, !Hone by done. cbn [negb orb].
  rewrite (restore_ext _ (λ i, default 0 (frame_words 0 f !! i))) by (intros; by apply Hw). by rewrite restore_frame.
Qed.

(** [resumed] has interrupts on already. *)
Lemma resumed_if f f2 : set_rflags (Z.lor (rflags (resumed f f2)) 0x200) (set_rax 0 (resumed f f2)) = set_rax 0 (resumed f f2).
Proof.
  unfold set_rflags, set_rax, resumed. cbn [r15 r14 r13 r12 r11 r10 r9 r8 rbp rdi rsi rdx rcx rax rbx intno err rip cs rflags ussp usss]. f_equal.
  apply Z.bits_inj'. intros n Hn. change 0x200 with (2 ^ 9). rewrite Z.lor_spec, Z.land_spec, Z.lor_spec, Z.lnot_spec by done.
  destruct (decide (n = 9)) as [->|Hne]; [change (Z.testbit 0x202 9) with true; change (Z.testbit IOPL 9) with false; by rewrite !orb_true_r|].
  by rewrite (Z.pow2_bits_false 9 n), orb_false_r by lia.
Qed.

(** The trap of sigreturn: everything is restored, then the result of the call
    itself, 0, is stored in [rax]. *)
Lemma sigreturn_trap me t k f f2 sp sig A :
  current me (sch k) = Some t → ussp f2 = sp + 8 → 0 ≤ sp → let root := root_of t k in
  owned (mem k) (user_frames (mem k) root ++ A) → frame_ok f → saved root sp sig f (mem k) →
  (∀ va, sp + 8 ≤ va < sp + 184 → readable root va (mem k)) →
  user_selectors (cs f) (usss f) = true → readable root (rip f) (mem k) → readable root (ussp f) (mem k) →
  deliverable (tasks (sch k) t) = 0 →
  ∃ k', syscall_sigreturn me t f2 k = Ret (Returns, k') ∧ tf (procs k' t) = Some (set_rax 0 (resumed f f2)) ∧
    mem k' = mem k ∧ sch k' = sch k.
Proof.
  intros Hc Hsp Hpos root Ho Hok Hsv Hr Hsel Hrip Hrsp Hnone. unfold syscall_sigreturn.
  rewrite (sigreturn_ok me t (upd_proc t (set_tf (Some f2)) k) f f2 sp sig A); try done.
  2: { cbn [procs upd_proc]. by rewrite fn_lookup_insert. }
  cbn [mbind outcome_bind]. set (k1 := upd_proc t (set_tf (Some (resumed f f2))) _).
  assert (tf (procs k1 t) = Some (resumed f f2)) as -> by (unfold k1; cbn [procs upd_proc]; by rewrite fn_lookup_insert).
  change (u64 0) with 0. rewrite resumed_if. set (g := set_rax 0 (resumed f f2)). set (k' := upd_proc t (set_tf (Some g)) k1).
  assert (do_signal_check me t k' = Ret (Returns, k')) as Hq.
  { unfold do_signal_check. destruct (pid _ =? 0); [done|]. change (sch k') with (sch k). by rewrite Hnone. }
  exists k'. split; [by destruct (Z.land (cs g) 3 =? 3)|]. split; [|done]. unfold k'. cbn [procs upd_proc]. by rewrite fn_lookup_insert.
Qed.

(** C5. Delivering a signal and returning from its handler restores the interrupted
    context except for [rax].  The check on the way to user mode takes the
    lowest deliverable signal, starts the handler with the signal number on an
    aligned stack below the interrupted one with the trampoline as its return
    address.  If the handler leaves its frame alone, [sys_sigreturn] restores
    every register of the interrupted context, the flags with interrupts on and
    I/O privilege cleared; but the trap through which it is called then stores
    its result, so that with no further signal the process goes on with every
    register restored and 0 in [rax]. *)
Theorem signal_roundtrip me t sig f k A :
  let u := tasks (sch k) t in
  let root := root_of t k in
  let sp := handler_sp f in
  owned (mem k) (user_frames (mem k) root ++ A) → frame_ok f → 207 ≤ ussp f →
  pid u ≠ 0 → next_signal u sig → sig ≠ SIGKILL → handler_of u sig ≠ SIG_DFL → tf (procs k t) = Some f →
  readable root (handler_of u sig) (mem k) → (∀ va, sp ≤ va < sp + 184 → readable root va (mem k)) →
  sp mod 16 = 8 ∧ sp + 184 ≤ ussp f ∧
  ∃ k1, do_signal_check me t k = Ret (Returns, k1) ∧ tf (procs k1 t) = Some (entered (handler_of u sig) sig f) ∧
    (∀ j, (j < 8)%nat → peek root (sp + Z.of_nat j) (mem k1) = nth_byte SIG_TRAMPOLINE_VA (Z.of_nat j)) ∧
    ∀ k2 f2 A2, current me (sch k2) = Some t → root_of t k2 = root → owned (mem k2) (user_frames (mem k2) root ++ A2) →
      (∀ va, sp + 8 ≤ va < sp + 184 → readable root va (mem k2) ∧ peek root va (mem k2) = peek root va (mem k1)) →
      tf (procs k2 t) = Some f2 → ussp f2 = sp + 8 →
      user_selectors (cs f) (usss f) = true → readable root (rip f) (mem k2) → readable root (ussp f) (mem k2) →
      sys_sigreturn me k2 = Ret (Returns, 0, upd_proc t (set_tf (Some (resumed f f2))) k2) ∧
      (deliverable (tasks (sch k2) t) = 0 →
       ∃ k3, syscall_sigreturn me t f2 k2 = Ret (Returns, k3) ∧ tf (procs k3 t) = Some (set_rax 0 (resumed f f2)) ∧
         mem k3 = mem k2 ∧ sch k3 = sch k2).
Proof.
  intros u root sp Ho Hok Hl Hp Hn Hk Hh Htf Hrh Hrs.
  assert (0 ≤ ussp f < 2 ^ 64) as Hu by exact (Forall_lookup_1 _ _ 4%nat _ (fo_words f Hok) eq_refl).
  destruct (handler_sp_spec f Hu Hl) as (Hbelow & _ & Hal & Hpos). fold sp in Hbelow, Hal, Hpos.
  split; [done|]. split; [lia|]. rewrite (check_handler me t k sig f) by done.
  destruct (clear_bit_same t sig k) as (Hro & Hme & Hha). set (kc := upd_tk t (clear_bit sig) k) in *.
  destruct (deliver_spec me t sig f kc A) as [[Hbad _]|[_ ->]].
  - by rewrite Hro, Hme.
  - rewrite Hha. fold u. destruct Hrh as [? _]. unfold USER_BASE, USER_MAX_VMA in *. lia.
  - destruct Hbad. rewrite Hro, Hme, Hha. done.
  - eexists. split; [done|]. rewrite Hro, Hme, Hha. fold u root sp.
    destruct (write_frame_spec root sp sig f (mem k) A Ho) as (Hw & [Hret Hbytes] & _); [intros; by apply readable_mapped, Hrs|].
    split; [cbn [procs upd_proc]; by rewrite fn_lookup_insert|]. split; [exact Hret|].
    intros k2 f2 A2 Hc2 Hr2 Ho2 Hkeep Htf2 Hsp2 Hsel Hrip Hrsp. rewrite <- Hr2 in *.
    assert (saved (root_of t k2) sp sig f (mem k2)) as Hsv.
    { intros j Hj. rewrite (proj2 (Hkeep (sp + 8 + Z.of_nat j) ltac:(lia))). by apply Hbytes. }
    split; [apply (sigreturn_ok me t k2 f f2 sp sig A2)|apply (sigreturn_trap me t k2 f f2 sp sig A2)]; try done; intros; by apply Hkeep.
Qed.

Lemma selector cs v : 0 ≤ v → Z.land cs 3 = 3 → Z.land cs (Z.lnot 3) = v → cs = v + 3.
Proof.
  intros Hv H3 Hn. rewrite <- Hn. change 3 with (Z.ones 2) in *. rewrite Z.land_ones in H3 by lia.
  rewrite <- Z.ldiff_land, Z.ldiff_ones_r, Z.shiftl_mul_pow2, Z.shiftr_div_pow2 by lia. pose proof (Z.div_mod cs (2 ^ 2)).
  change (Z.ones 2) with 3 in *. lia.
Qed.

(** C8. Whatever a process puts on its stack: if sigreturn comes back at all, it
    resumes user code.  Either there was nothing to return to, or the code and
    stack selectors are those of user mode, the I/O privilege level is 0,
    interrupts are on, and the instruction and stack pointers are mapped user
    addresses; memory and the other tasks are unchanged. *)
Theorem sigreturn_user_mode me k r k' A :
  (∀ t, current me (sch k) = Some t → owned (mem k) (user_frames (mem k) (root_of t k) ++ A)) →
  sys_sigreturn me k = Ret (Returns, r, k') →
  (r = LNXRM_EFAIL ∧ k' = k) ∨
  ∃ t f, current me (sch k) = Some t ∧ k' = upd_proc t (set_tf (Some f)) k ∧ r = 0 ∧
    cs f = 0x1b ∧ usss f = 0x23 ∧ Z.land (rflags f) IOPL = 0 ∧ Z.testbit (rflags f) 9 = true ∧
    readable (root_of t k) (rip f) (mem k) ∧ readable (root_of t k) (ussp f) (mem k).
Proof.
  intros Ho. unfold sys_sigreturn. destruct (current me (sch k)) as [t|] eqn:Ec; [|intros [= <- <-]; by left].
  specialize (Ho t eq_refl). destruct (tf (procs k t)) as [f|] eqn:Etf; [|intros [= <- <-]; by left]. cbv zeta.
  assert (∀ k0 : kern S N, ('(fl, k1) ← exits me SIGSEGV k0; Ret (fl, LNXRM_EFAIL, k1)) = Ret (Returns, r, k') → False) as Hex.
  { intros k0. unfold exits. destruct (sys_exit me (- SIGSEGV) k0); done. }
  destruct (user_ptr_ok _ (ussp f) 176 (mem k)); [|intros Hx; by apply Hex in Hx]. cbn [negb].
  set (l := load_bytes (root_of t k) (ussp f) FRAME_SIZE (mem k)).
  assert (bytes_ok l) as Hl by apply load_bytes_range.
  destruct (user_selectors _ _) eqn:Es; [|intros Hx; by apply Hex in Hx].
  pose proof (user_ptr_ok_spec (root_of t k) (le64 l (8 * 1)) 1 (mem k) A Ho (le64_range l (8 * 1) Hl) ltac:(lia)) as H1.
  pose proof (user_ptr_ok_spec (root_of t k) (le64 l (8 * 4)) 1 (mem k) A Ho (le64_range l (8 * 4) Hl) ltac:(lia)) as H4.
  destruct (user_ptr_ok _ (le64 l (8 * 1)) 1 (mem k)); [|intros Hx; by apply Hex in Hx].
  destruct (user_ptr_ok _ (le64 l (8 * 4)) 1 (mem k)); [|intros Hx; by apply Hex in Hx]. cbn [negb orb].
  intros [= <- <-]. right. eexists t, _. split; [done|]. split; [done|]. unfold user_selectors in Es. bool_split.
  cbn [restore cs usss rflags rip ussp]. split_and!; [done|by apply (selector _ 0x18)|by apply (selector _ 0x20)| | | |].
  - rewrite <- Z.land_assoc, (Z.land_comm (Z.lnot IOPL)), Z.land_lnot_diag. apply Z.land_0_r.
  - rewrite Z.land_spec, Z.lor_spec, (Z.lor_spec _ _ 9). change (Z.testbit 0x200 9) with true.
    change (Z.testbit (Z.lnot IOPL) 9) with true. by rewrite orb_true_r.
  - apply (proj2 (proj1 H1 eq_refl) (le64 l (8 * 1))). lia.
  - apply (proj2 (proj1 H4 eq_refl) (le64 l (8 * 4))). lia.
Qed.

(** ** Signals that kill *)

Lemma kill_deliverable u : Z.testbit (signal_pending u) SIGKILL = true → Z.testbit (deliverable u) SIGKILL = true.
Proof. intros Hb. unfold deliverable. by rewrite Z.lor_spec, !(Z.land_spec (signal_pending u)), Hb, orb_true_r. Qed.

(** Until a round that delivers to a handler the loop only clears bits. *)
Lemma loop_kills me t pending n : ∀ sig k, 1 ≤ sig ≤ SIGKILL → SIGKILL < sig + Z.of_nat n →
  Z.testbit pending SIGKILL = true →
  (∀ j, sig ≤ j < SIGKILL → Z.testbit pending j = true → handler_of (tasks (sch k) t) j = SIG_DFL) →
  ∃ x k', signal_loop me t pending n sig k = exits me x k' ∧ (x = SIGKILL ∨ fatal x = true) ∧
    hp k' = hp k ∧ procs k' = procs k ∧ files k' = files k.
Proof.
  induction n as [|n IH]; intros sig k Hs Hn Hb Hd; [lia|]. cbn [signal_loop]. rewrite land_sigbit by lia.
  destruct (Z.testbit pending sig) eqn:E; cbn [negb].
  2: { apply IH; [|lia|done|intros j Hj; apply Hd; lia]. destruct (decide (sig = SIGKILL)) as [->|]; [congruence|lia]. }
  destruct (Z.eqb_spec sig SIGKILL) as [->|Hne]; [eexists _, _; split; [done|]; auto|].
  assert (∀ j, handler_of (tasks (sch (upd_tk t (clear_bit sig) k)) t) j = handler_of (tasks (sch k) t) j) as Hha.
  { intros j. cbn [sch upd_tk set_sch tasks upd_task]. by rewrite fn_lookup_insert. }
  rewrite Hha, Hd by (done || lia). cbn [Z.eqb SIG_DFL]. destruct (fatal sig) eqn:Ef; [eexists _, _; split; [done|]; auto|].
  destruct (IH (sig + 1) (upd_tk t (clear_bit sig) k)) as (x & k' & He & Hx & Hrest); [lia|lia|done| |by exists x, k'].
  intros j Hj. rewrite Hha. apply Hd. lia.
Qed.

(** SIGKILL cannot be blocked, ignored or handled: the mask that
    sigprocmask stores never contains it, and a task with SIGKILL pending does
    not get back to user mode, whatever its mask and its handler for SIGKILL
    are, if no stop or continue signal is pending and the lower signals that
    are pending have no handler: it exits. *)
Theorem sigkill_kills me t k :
  (∀ how uset uoldset r k', Z.testbit (signal_mask (tasks (sch k) t)) SIGKILL = false →
     sys_sigprocmask t how uset uoldset k = (r, k') →
     Z.testbit (signal_mask (tasks (sch k') t)) SIGKILL = false) ∧
  (pid (tasks (sch k) t) ≠ 0 → Z.testbit (signal_pending (tasks (sch k) t)) SIGKILL = true →
   Z.testbit (signal_pending (tasks (sch k) t)) SIGSTOP = false → Z.testbit (signal_pending (tasks (sch k) t)) SIGCONT = false →
   (∀ j, 1 ≤ j < SIGKILL → Z.testbit (signal_pending (tasks (sch k) t)) j = true → handler_of (tasks (sch k) t) j = SIG_DFL) →
   ∃ sig k', do_signal_check me t k = exits me sig k' ∧ (sig = SIGKILL ∨ fatal sig = true) ∧ procs k' = procs k ∧ files k' = files k).
Proof.
  split.
  - intros how uset uoldset r k' Hold. unfold sys_sigprocmask. cbv zeta.
    set (k1 := if _ && _ then match copy_to_user _ uoldset _ _ with Some s => _ | None => _ end else k).
    assert (sch k1 = sch k) as Hs by (unfold k1; destruct (_ && _); [destruct (copy_to_user _ _ _ _)|]; done). clearbody k1.
    assert (∀ m, Z.testbit (Z.land m (Z.lnot (Z.lor (sigbit SIGKILL) (sigbit SIGSTOP)))) SIGKILL = false) as Hkeep.
    { intros m. rewrite Z.land_spec. change (Z.testbit (Z.lnot _) SIGKILL) with false. apply andb_false_r. }
    destruct (_ && _); [|intros [= <- <-]; by rewrite Hs]. destruct (copy_from_user _ _ _ _); [|intros [= <- <-]; by rewrite Hs].
    repeat destruct (_ =? _); intros [= <- <-]; cbn [sch upd_tk set_sch tasks upd_task]; rewrite ?fn_lookup_insert, ?Hs; done || apply Hkeep.
  - intros Hp Hk Hst Hc Hd. set (u := tasks (sch k) t) in *. unfold do_signal_check. fold u. rewrite (proj2 (Z.eqb_neq _ 0) Hp).
    pose proof (kill_deliverable u Hk) as Hkd.
    assert (∀ j, Z.testbit (signal_pending u) j = false → Z.testbit (deliverable u) j = false) as Hno.
    { intros j Hj. unfold deliverable. by rewrite Z.lor_spec, !(Z.land_spec (signal_pending u)), Hj. }
    destruct (Z.eqb_spec (deliverable u) 0) as [Hz|_]; [by rewrite Hz, Z.bits_0 in Hkd|].
    rewrite !land_sigbit, !Hno by by_eval || done. cbn [negb].
    destruct (loop_kills me t (deliverable u) 31 1 k) as (x & k' & He & Hx & _ & Hr); [by_eval|by_eval|done| |by exists x, k'].
    intros j Hj Hb. apply Hd; [lia|]. destruct (Z.testbit (signal_pending u) j) eqn:E; [done|]. by rewrite Hno in Hb.
Qed.

(** A signal that becomes ignored while it is pending is not discarded: on
    its delivery the kernel takes the value [SIG_IGN] for the address of a
    handler and kills the process with a segmentation fault. *)
Theorem ignored_signal_kills me t sig f k :
  pid (tasks (sch k) t) ≠ 0 → next_signal (tasks (sch k) t) sig → sig ≠ SIGKILL →
  handler_of (tasks (sch k) t) sig = SIG_IGN → tf (procs k t) = Some f →
  do_signal_check me t k = exits me SIGSEGV (upd_tk t (clear_bit sig) k).
Proof.
  intros Hp Hn Hk Hh Hf. rewrite (check_handler me t k sig f) by (done || by rewrite Hh).
  destruct (clear_bit_same t sig k) as (_ & _ & Hha). unfold deliver. cbv zeta. by rewrite Hha, Hh.
Qed.

(** A signal handler destroys the result of the system call it interrupted:
    the context that was saved has the result in [rax] and sigreturn restores
    it, but then the result 0 of sigreturn itself is stored there. *)
Theorem sigreturn_loses_rax me t k f f2 sp sig A :
  current me (sch k) = Some t → ussp f2 = sp + 8 → 0 ≤ sp → let root := root_of t k in
  owned (mem k) (user_frames (mem k) root ++ A) → frame_ok f → saved root sp sig f (mem k) →
  (∀ va, sp + 8 ≤ va < sp + 184 → readable root va (mem k)) →
  user_selectors (cs f) (usss f) = true → readable root (rip f) (mem k) → readable root (ussp f) (mem k) →
  signal_pending (tasks (sch k) t) = 0 →
  ∃ k' g, syscall_sigreturn me t f2 k = Ret (Returns, k') ∧ tf (procs k' t) = Some g ∧ rip g = rip f ∧ rax g = 0.
Proof.
  intros Hc Hsp Hpos root Ho Hok Hsv Hr Hsel Hrip Hrsp Hnone.
  destruct (sigreturn_trap me t k f f2 sp sig A) as (k' & E & Ht & _); try done; [unfold deliverable; by rewrite Hnone|].
  exists k', (set_rax 0 (resumed f f2)). by split_and!.
Qed.

(** The handler's frame overwrites the 128 bytes below the interrupted stack
    pointer, which the System V ABI reserves for the interrupted function (user
    programs are compiled to use them): the word of the frame that holds [r15]
    lies inside that area. *)
Theorem signal_clobbers_red_zone me t sig f k A :
  let u := tasks (sch k) t in
  let root := root_of t k in
  owned (mem k) (user_frames (mem k) root ++ A) → frame_ok f → 207 ≤ ussp f →
  pid u ≠ 0 → next_signal u sig → sig ≠ SIGKILL → handler_of u sig ≠ SIG_DFL → tf (procs k t) = Some f →
  readable root (handler_of u sig) (mem k) → (∀ va, handler_sp f ≤ va < handler_sp f + 184 → readable root va (mem k)) →
  ∃ k1 a, do_signal_check me t k = Ret (Returns, k1) ∧ ussp f - 128 ≤ a ∧ a + 8 ≤ ussp f ∧
    ∀ j, (j < 8)%nat → peek root (a + Z.of_nat j) (mem k1) = nth_byte (r15 f) (Z.of_nat j).
Proof.
  intros u root Ho Hok Hl Hp Hn Hk Hh Htf Hrh Hrs. set (sp := handler_sp f) in *.
  assert (0 ≤ ussp f < 2 ^ 64) as Hu by exact (Forall_lookup_1 _ _ 4%nat _ (fo_words f Hok) eq_refl).
  destruct (handler_sp_spec f Hu Hl) as (Hbelow & Habove & _). fold sp in Hbelow, Habove.
  rewrite (check_handler me t k sig f) by done. destruct (clear_bit_same t sig k) as (Hro & Hme & Hha).
  destruct (deliver_spec me t sig f (upd_tk t (clear_bit sig) k) A) as [[Hbad _]|[_ ->]].
  - by rewrite Hro, Hme.
  - rewrite Hha. fold u. destruct Hrh as [? _]. unfold USER_BASE, USER_MAX_VMA in *. lia.
  - destruct Hbad. rewrite Hro, Hme, Hha. done.
  - eexists _, (sp + 8 + 160). split; [done|]. split; [lia|]. split; [lia|]. rewrite Hro, Hme, Hha. fold u root sp.
    destruct (write_frame_spec root sp sig f (mem k) A Ho) as (_ & [_ Hbytes] & _); [intros; by apply readable_mapped, Hrs|].
    intros j Hj. replace (sp + 8 + 160 + Z.of_nat j) with (sp + 8 + Z.of_nat (8 * 20 + j)) by lia.
    transitivity (byte_at (words_bytes (frame_words sig f)) (8 * 20 + j)); [apply Hbytes; lia|by apply byte_at_words].
Qed.
End signal_facts.

Module SignalDemo.
(** Task 3 runs on the one-page address space of [VmmDemo]; SIGINT is pending
    and has a handler. *)
Definition handler : Z := VmmDemo.va + 0x10.
Definition u (h pend : Z) (t : task) : task :=
  set_pml4 VmmDemo.root (set_sa (λ _, Sigaction h 0 0) (set_pending pend t)).
Definition f0 : intr_frame :=
  IntrFrame 1 2 3 4 5 6 7 8 9 10 11 12 13 14 15 128 0 (VmmDemo.va + 0x20) 0x1b 0x202 (VmmDemo.va + 0x800) 0x23.
Definition k0 (h pend : Z) : kern pmm_state unit :=
  Kern (upd_task 3 (u h pend) SchedDemo.busy) (set_phys VmmDemo.s3 KheapDemo.h0)
    (λ _, Proc (Some f0) 0 0 0 (λ _, None)) ∅ 3.
Definition sp : Z := handler_sp f0.

Lemma k0_task h pend : tasks (sch (k0 h pend)) 3 = u h pend (tasks SchedDemo.busy 3).
Proof. unfold k0. cbn [sch]. by rewrite tasks_upd, decide_True. Qed.
Lemma k0_root h pend : root_of 3 (k0 h pend) = VmmDemo.root.
Proof. unfold root_of. by rewrite k0_task. Qed.
Lemma k0_owned h pend : owned (mem (k0 h pend)) (user_frames (mem (k0 h pend)) (root_of 3 (k0 h pend)) ++ []).
Proof. rewrite k0_root. exact (proj1 VmmDemo.s3_owned). Qed.
Lemma f0_ok : frame_ok f0.
Proof. constructor. by_eval. Qed.
Lemma pid_ok h pend : pid (tasks (sch (k0 h pend)) 3) ≠ 0.
Proof. rewrite k0_task. by_eval. Qed.
Lemma sigint_next h : next_signal (tasks (sch (k0 h 4)) 3) 2.
Proof.
  rewrite k0_task. constructor; try by_eval. intros j Hj. assert (j = 1) as -> by lia. by_eval.
Qed.
Lemma sp_val : sp = VmmDemo.va + 0x738.
Proof. by_eval. Qed.
Lemma page_readable h pend a : VmmDemo.va ≤ a < VmmDemo.va + 4096 →
  readable (root_of 3 (k0 h pend)) a (mem (k0 h pend)).
Proof. rewrite k0_root. apply demo_readable. Qed.
Lemma frame_readable h pend a : sp ≤ a < sp + 184 → readable (root_of 3 (k0 h pend)) a (mem (k0 h pend)).
Proof. rewrite sp_val. intros Ha. apply page_readable. lia. Qed.

Lemma k0_handler h pend : handler_of (tasks (sch (k0 h pend)) 3) 2 = h.
Proof. by rewrite k0_task. Qed.
Lemma handler_ok : handler_of (tasks (sch (k0 handler 4)) 3) 2 ≠ SIG_DFL.
Proof. rewrite k0_handler. by_eval. Qed.
Lemma handler_readable : readable (root_of 3 (k0 handler 4)) (handler_of (tasks (sch (k0 handler 4)) 3) 2) (mem (k0 handler 4)).
Proof. rewrite k0_handler. apply page_readable. by_eval. Qed.
Lemma room : 207 ≤ ussp f0.
Proof. by_eval. Qed.
Lemma not_kill : 2 ≠ SIGKILL.
Proof. by_eval. Qed.
(** The state when the handler has returned: the frame is on the stack. *)
Definition s5 : pmm_state := write_frame VmmDemo.root sp 2 f0 VmmDemo.s3.
Definition f2 : intr_frame := set_ip_sp 0 (sp + 8) f0.
Definition k5 : kern pmm_state unit := upd_proc 3 (set_tf (Some f2)) (set_mem s5 (k0 handler 0)).

Lemma s5_spec : user_write VmmDemo.root [] VmmDemo.s3 s5 ∧ framed VmmDemo.root sp 2 f0 s5.
Proof.
  destruct (write_frame_spec VmmDemo.root sp 2 f0 VmmDemo.s3 [] (proj1 VmmDemo.s3_owned)) as (Hw & Hf & _).
  - intros a Ha. apply readable_mapped, demo_readable. rewrite sp_val in Ha. lia.
  - exact (conj Hw Hf).
Qed.
Lemma k5_root : root_of 3 k5 = VmmDemo.root.
Proof. exact (k0_root handler 0). Qed.
Lemma k5_readable a : VmmDemo.va ≤ a < VmmDemo.va + 4096 → readable (root_of 3 k5) a (mem k5).
Proof.
  intros Ha. rewrite k5_root. destruct (demo_readable a Ha) as [Hr Ht]. split; [exact Hr|].
  change (mem k5) with s5. rewrite (uw_translate _ _ _ _ (proj1 s5_spec)); [exact Ht|].
  exact (proj1 (readable_mapped _ _ _ (demo_readable a Ha))).
Qed.
Lemma k5_rip : readable (root_of 3 k5) (rip f0) (mem k5).
Proof. apply k5_readable. by_eval. Qed.
Lemma k5_rsp : readable (root_of 3 k5) (ussp f0) (mem k5).
Proof. apply k5_readable. by_eval. Qed.
Lemma k5_owned : owned (mem k5) (user_frames (mem k5) (root_of 3 k5) ++ []).
Proof. rewrite k5_root. exact (uw_owned _ _ _ _ (proj1 s5_spec)). Qed.
Lemma k5_saved : saved (root_of 3 k5) sp 2 f0 (mem k5).
Proof. rewrite k5_root. exact (proj2 (proj2 s5_spec)). Qed.
Lemma k5_frame a : sp + 8 ≤ a < sp + 184 → readable (root_of 3 k5) a (mem k5).
Proof. intros Ha. apply k5_readable. rewrite sp_val in Ha. lia. Qed.
Lemma k5_current : current 0 (sch k5) = Some 3%nat.
Proof. by_eval. Qed.
Lemma k5_return : sys_sigreturn 0 k5 = Ret (Returns, 0, upd_proc 3 (set_tf (Some (resumed f0 f2))) k5).
Proof.
  apply (sigreturn_ok 0 3 k5 f0 f2 sp 2 []); [exact k5_current|reflexivity|reflexivity| |exact k5_owned|exact f0_ok|exact k5_saved|exact k5_frame|by_eval| |].
  - rewrite sp_val. by_eval.
  - exact k5_rip.
  - exact k5_rsp.
Qed.
End SignalDemo.

Lemma signal_roundtrip_witness :
  ∃ k1, do_signal_check 0 3 (SignalDemo.k0 SignalDemo.handler 4) = Ret (Returns, k1) ∧
    tf (procs k1 3) = Some (entered (handler_of (tasks (sch (SignalDemo.k0 SignalDemo.handler 4)) 3) 2) 2 SignalDemo.f0).
Proof.
  destruct (signal_roundtrip 0 3 2 SignalDemo.f0 (SignalDemo.k0 SignalDemo.handler 4) [] (SignalDemo.k0_owned _ _) SignalDemo.f0_ok
    SignalDemo.room (SignalDemo.pid_ok _ _) (SignalDemo.sigint_next _) SignalDemo.not_kill SignalDemo.handler_ok eq_refl
    SignalDemo.handler_readable (SignalDemo.frame_readable _ _)) as (_ & _ & k1 & He & Ht & _).
  exists k1. exact (conj He Ht).
Defined.

Lemma sigreturn_user_mode_witness : ∃ t f, current 0 (sch SignalDemo.k5) = Some t ∧ cs f = 0x1b ∧ usss f = 0x23.
Proof.
  destruct (sigreturn_user_mode 0 SignalDemo.k5 0 (upd_proc 3 (set_tf (Some (resumed SignalDemo.f0 SignalDemo.f2))) SignalDemo.k5) []) as [[Hr _]|(t & f & Ht & _ & _ & Hcs & Hss & _)].
  - intros t Ht. rewrite SignalDemo.k5_current in Ht. injection Ht as <-. exact SignalDemo.k5_owned.
  - exact SignalDemo.k5_return.
  - discriminate Hr.
  - exists t, f. exact (conj Ht (conj Hcs Hss)).
Defined.

Lemma sigkill_kills_witness :
  ∃ sig k', do_signal_check 0 3 (SignalDemo.k0 SignalDemo.handler 512) = exits 0 sig k' ∧ (sig = SIGKILL ∨ fatal sig = true).
Proof.
  destruct (proj2 (sigkill_kills 0 3 (SignalDemo.k0 SignalDemo.handler 512)) (SignalDemo.pid_ok _ _)) as (sig & k' & He & Hs & _).
  - by_eval.
  - by_eval.
  - by_eval.
  - intros j Hj Hb. exfalso. rewrite SignalDemo.k0_task in Hb. change (Z.testbit 512 j = true) in Hb.
    change 512 with (2 ^ 9) in Hb. rewrite Z.pow2_bits_false in Hb; [discriminate|]. unfold SIGKILL in Hj. lia.
  - exists sig, k'. exact (conj He Hs).
Defined.

Lemma ignored_signal_kills_witness :
  ∃ k', do_signal_check 0 3 (SignalDemo.k0 SIG_IGN 4) = exits 0 SIGSEGV k'.
Proof.
  eexists. exact (ignored_signal_kills 0 3 2 SignalDemo.f0 (SignalDemo.k0 SIG_IGN 4) (SignalDemo.pid_ok _ _) (SignalDemo.sigint_next _)
    SignalDemo.not_kill (SignalDemo.k0_handler _ _) eq_refl).
Defined.

Lemma sigreturn_loses_rax_witness :
  rax SignalDemo.f0 = 14 ∧
  ∃ k' g, syscall_sigreturn 0 3 SignalDemo.f2 SignalDemo.k5 = Ret (Returns, k') ∧ tf (procs k' 3) = Some g ∧ rax g = 0.
Proof.
  split; [reflexivity|].
  destruct (sigreturn_loses_rax 0 3 SignalDemo.k5 SignalDemo.f0 SignalDemo.f2 SignalDemo.sp 2 [] SignalDemo.k5_current eq_refl
    ltac:(by_eval) SignalDemo.k5_owned SignalDemo.f0_ok SignalDemo.k5_saved SignalDemo.k5_frame ltac:(by_eval)
    SignalDemo.k5_rip SignalDemo.k5_rsp ltac:(by_eval)) as (k' & g & He & Hg & _ & Hr).
  exists k', g. exact (conj He (conj Hg Hr)).
Defined.

Lemma signal_clobbers_red_zone_witness :
  ∃ k1 a, do_signal_check 0 3 (SignalDemo.k0 SignalDemo.handler 4) = Ret (Returns, k1) ∧ ussp SignalDemo.f0 - 128 ≤ a.
Proof.
  destruct (signal_clobbers_red_zone 0 3 2 SignalDemo.f0 (SignalDemo.k0 SignalDemo.handler 4) [] (SignalDemo.k0_owned _ _) SignalDemo.f0_ok
    SignalDemo.room (SignalDemo.pid_ok _ _) (SignalDemo.sigint_next _) SignalDemo.not_kill SignalDemo.handler_ok eq_refl
    SignalDemo.handler_readable (SignalDemo.frame_readable _ _)) as (k1 & a & He & Ha & _).
  exists k1, a. exact (conj He Ha).
Defined.
