(* ===== verification/Cstring.v ===== *)
(** The kernel's string library ([kernel/lib/string.c]), as loops over a byte
    memory, and their meaning on strings.

    A memory is a total function from addresses to bytes (0 to 255).  The
    loops that run to a terminator have no bound of their own: they take
    fuel and give [None] when it runs out; each is shown to return with as
    much fuel as the string is long. *)
From S2P Require Import Prelude.

Abbreviation mem := (Z → Z).

(** ** The functions *)

(** [while (n--) *p++ = (u8)c]. *)
Fixpoint memset (d c : Z) (n : nat) (m : mem) : mem :=
  match n with
  | O => m
  | S n' => memset (d + 1) c n' (<[d := u8 c]> m)
  end.

Fixpoint memcpy (d s : Z) (n : nat) (m : mem) : mem :=
  match n with
  | O => m
  | S n' => memcpy (d + 1) (s + 1) n' (<[d := m s]> m)
  end.

Fixpoint strlen (fuel : nat) (s : Z) (m : mem) : option Z :=
  match fuel with
  | O => None
  | S f => if m s =? 0 then Some 0 else (λ n, n + 1) <$> strlen f (s + 1) m
  end.

Fixpoint strcmp (fuel : nat) (a b : Z) (m : mem) : option Z :=
  match fuel with
  | O => None
  | S f => if negb (m a =? 0) && (m a =? m b) then strcmp f (a + 1) (b + 1) m
           else Some (m a - m b)
  end.

Fixpoint strncmp (a b : Z) (n : nat) (m : mem) : Z :=
  match n with
  | O => 0
  | S n' => if negb (m a =? 0) && (m a =? m b) then strncmp (a + 1) (b + 1) n' m
            else m a - m b
  end.

Fixpoint strcpy (fuel : nat) (d s : Z) (m : mem) : option mem :=
  match fuel with
  | O => None
  | S f => let m' := <[d := m s]> m in
           if m s =? 0 then Some m' else strcpy f (d + 1) (s + 1) m'
  end.

(** [while (n-- && ( *d++ = *s++))]: gives the destination pointer and the
    counter as the loop leaves them; a counter that ran out has wrapped to
    [SIZE_MAX]. *)
Fixpoint copy_loop (fuel : nat) (d s n : Z) (m : mem) : option (Z * Z * mem) :=
  match fuel with
  | O => None
  | S f =>
      let n' := u64 (n - 1) in
      if n =? 0 then Some (d, n', m) else
      let m' := <[d := m s]> m in
      if m s =? 0 then Some (d + 1, n', m') else copy_loop f (d + 1) (s + 1) n' m'
  end.

(** [while ((long)n-- > 0) *d++ = 0]. *)
Fixpoint fill_loop (fuel : nat) (d n : Z) (m : mem) : option mem :=
  match fuel with
  | O => None
  | S f => if 0 <? i64 n then fill_loop f (d + 1) (u64 (n - 1)) (<[d := 0]> m) else Some m
  end.

Definition strncpy (d s n : Z) (m : mem) : option mem :=
  match copy_loop (S (Z.to_nat n)) d s n m with
  | None => None
  | Some (d', n', m') => fill_loop (S (Z.to_nat n)) d' n' m'
  end.

Fixpoint strchr (fuel : nat) (s c : Z) (m : mem) : option (option Z) :=
  match fuel with
  | O => None
  | S f => if negb (m s =? 0) && negb (m s =? u8 c) then strchr f (s + 1) c m
           else Some (if m s =? u8 c then Some s else None)
  end.

Fixpoint strrchr (fuel : nat) (s c : Z) (r : option Z) (m : mem) : option (option Z) :=
  match fuel with
  | O => None
  | S f => if m s =? 0 then Some r
           else strrchr f (s + 1) c (if m s =? u8 c then Some s else r) m
  end.

Fixpoint memcmp (a b : Z) (n : nat) (m : mem) : Z :=
  match n with
  | O => 0
  | S n' => if negb (m a =? m b) then (if m a <? m b then -1 else 1)
            else memcmp (a + 1) (b + 1) n' m
  end.

(** [char] is signed: a byte above 127 is negative as an [int]. *)
Definition tolower (c : Z) : Z := if (65 <=? c) && (c <=? 90) then c + 32 else c.

Fixpoint strcasecmp (fuel : nat) (a b : Z) (m : mem) : option Z :=
  match fuel with
  | O => None
  | S f =>
      let diff := tolower (i8 (m a)) - tolower (i8 (m b)) in
      if negb (m a =? 0) && negb (m b =? 0) then
        if negb (diff =? 0) then Some diff else strcasecmp f (a + 1) (b + 1) m
      else Some diff
  end.

(** ** Strings in memory *)

(** The bytes [l] are at address [p]. *)
Definition bytes_at (m : mem) (p : Z) (l : list Z) : Prop :=
  ∀ i c, l !! i = Some c → m (p + Z.of_nat i) = c.

(** The string [l] is at address [p]: its bytes are not zero and a zero byte
    follows them. *)
Definition cstr (m : mem) (p : Z) (l : list Z) : Prop :=
  bytes_at m p l ∧ Forall (λ c, c ≠ 0) l ∧ m (p + Z.of_nat (length l)) = 0.

Lemma bytes_at_cons m p c l : bytes_at m p (c :: l) ↔ m p = c ∧ bytes_at m (p + 1) l.
Proof.
  split.
  - intros H. split; [by rewrite <- (H 0%nat c), Z.add_0_r|].
    intros i x Hi. rewrite <- (H (S i) x) by done. f_equal. lia.
  - intros [Hc Hl] [|i] x Hi; simplify_eq/=; [by rewrite Z.add_0_r|].
    rewrite <- (Hl i x) by done. f_equal. lia.
Qed.

Lemma cstr_nil m p : cstr m p [] ↔ m p = 0.
Proof.
  unfold cstr. simpl. rewrite Z.add_0_r. split; [tauto|]. intros H. split_and!; [|done..].
  intros i c Hi. done.
Qed.

Lemma cstr_cons m p c l : cstr m p (c :: l) ↔ m p = c ∧ c ≠ 0 ∧ cstr m (p + 1) l.
Proof.
  unfold cstr. rewrite bytes_at_cons, Forall_cons. simpl length.
  replace (p + Z.of_nat (S (length l))) with (p + 1 + Z.of_nat (length l)) by lia. tauto.
Qed.

Lemma bytes_at_ext m m' p l :
  bytes_at m p l → (∀ a, p ≤ a < p + Z.of_nat (length l) → m' a = m a) → bytes_at m' p l.
Proof.
  intros H Heq i c Hi. rewrite Heq; [by apply H|]. apply lookup_lt_Some in Hi. lia.
Qed.

Lemma cstr_ext m m' p l :
  cstr m p l → (∀ a, p ≤ a ≤ p + Z.of_nat (length l) → m' a = m a) → cstr m' p l.
Proof.
  intros (Hb & Hnz & H0) Heq. split_and!; [|done|rewrite Heq by lia; done].
  eapply bytes_at_ext; [done|]. intros. apply Heq. lia.
Qed.

(** ** What the functions do *)

Lemma memset_spec d c n m a :
  memset d c n m a = if decide (d ≤ a < d + Z.of_nat n) then u8 c else m a.
Proof.
  revert d m. induction n as [|n IH]; intros d m; cbn [memset].
  { by rewrite decide_False by lia. }
  rewrite IH. destruct (decide (a = d)) as [->|Hne].
  - rewrite fn_lookup_insert, (decide_True _ _ (P := d ≤ d < _)) by lia. by destruct (decide _).
  - rewrite fn_lookup_insert_ne by done. destruct (decide (d + 1 ≤ a < _)).
    + by rewrite decide_True by lia.
    + by rewrite decide_False by lia.
Qed.

(** Forward copying is right when the destination does not start inside the
    source. *)
Lemma memcpy_spec d s n m a :
  d ≤ s ∨ s + Z.of_nat n ≤ d →
  memcpy d s n m a = if decide (d ≤ a < d + Z.of_nat n) then m (s + (a - d)) else m a.
Proof.
  revert d s m. induction n as [|n IH]; intros d s m Hd; cbn [memcpy].
  { by rewrite decide_False by lia. }
  rewrite IH by lia. destruct (decide (a = d)) as [->|Hne].
  - rewrite decide_False, decide_True, fn_lookup_insert by lia. f_equal. lia.
  - destruct (decide (d + 1 ≤ a < _)).
    + rewrite decide_True by lia. rewrite fn_lookup_insert_ne by lia. f_equal. lia.
    + rewrite decide_False by lia. by rewrite fn_lookup_insert_ne.
Qed.

Lemma strlen_spec fuel m p l :
  cstr m p l → (length l < fuel)%nat → strlen fuel p m = Some (Z.of_nat (length l)).
Proof.
  revert fuel p. induction l as [|c l IH]; intros [|fuel] p Hs Hf; simpl in Hf; try lia; simpl.
  - apply cstr_nil in Hs. by rewrite Hs.
  - apply cstr_cons in Hs as (-> & Hc & Hs). rewrite (proj2 (Z.eqb_neq c 0)) by done.
    rewrite (IH fuel) by (done || lia). simpl. f_equal. lia.
Qed.

Lemma strncmp_spec m a b n x y :
  cstr m a x → cstr m b y → strncmp a b n m = 0 ↔ take n x = take n y.
Proof.
  revert a b x y. induction n as [|n IH]; intros a b x y Hx Hy; simpl; [done|].
  destruct x as [|c x], y as [|e y];
    rewrite ?cstr_nil, ?cstr_cons in Hx; rewrite ?cstr_nil, ?cstr_cons in Hy;
    destruct_and?; simplify_eq.
  - rewrite Hx, Hy. done.
  - rewrite Hx. split; [|done]. simpl. lia.
  - rewrite (proj2 (Z.eqb_neq (m a) 0)), Hy by done.
    rewrite (proj2 (Z.eqb_neq (m a) 0)) by done. simpl. split; [lia|done].
  - rewrite (proj2 (Z.eqb_neq (m a) 0)) by done. simpl.
    destruct (Z.eqb_spec (m a) (m b)) as [Heq|Hne].
    + rewrite Heq, (IH _ _ x y) by done. split; congruence.
    + split; [lia|congruence].
Qed.

Lemma strcmp_spec fuel m a b x y :
  cstr m a x → cstr m b y → (length x < fuel)%nat →
  ∃ r, strcmp fuel a b m = Some r ∧ (r = 0 ↔ x = y).
Proof.
  revert a b x y. induction fuel as [|fuel IH]; intros a b x y Hx Hy Hf; [lia|]. simpl.
  destruct x as [|c x], y as [|e y];
    rewrite ?cstr_nil, ?cstr_cons in Hx; rewrite ?cstr_nil, ?cstr_cons in Hy;
    destruct_and?; simplify_eq; simpl in Hf.
  - rewrite Hx, Hy. by exists 0.
  - rewrite Hx. eexists. split; [done|]. split; [lia|done].
  - rewrite (proj2 (Z.eqb_neq (m a) 0)), Hy by done.
    rewrite (proj2 (Z.eqb_neq (m a) 0)) by done. eexists. split; [done|]. split; [lia|done].
  - rewrite (proj2 (Z.eqb_neq (m a) 0)) by done. simpl.
    destruct (Z.eqb_spec (m a) (m b)) as [Heq|Hne].
    + destruct (IH (a + 1) (b + 1) x y) as (r & -> & Hr); [done|done|lia|].
      exists r. rewrite Hr. split; [done|]. split; congruence.
    + eexists. split; [done|]. split; [lia|congruence].
Qed.

Lemma memcmp_spec m a b x y :
  bytes_at m a x → bytes_at m b y → length x = length y →
  memcmp a b (length x) m = 0 ↔ x = y.
Proof.
  revert a b y. induction x as [|c x IH]; intros a b [|e y] Hx Hy Hl; simplify_eq/=; [done|].
  apply bytes_at_cons in Hx as [<- Hx]. apply bytes_at_cons in Hy as [<- Hy].
  destruct (Z.eqb_spec (m a) (m b)) as [Heq|Hne]; simpl.
  - rewrite Heq, (IH _ _ y) by done. split; congruence.
  - split; [by destruct (m a <? m b)|congruence].
Qed.

(** The position of the first and of the last occurrence of a character. *)
Definition index_of (c : Z) (l : list Z) : option nat := fst <$> list_find (λ x, x = c) l.

Lemma index_of_cons c x l :
  index_of c (x :: l) = if decide (x = c) then Some 0%nat else S <$> index_of c l.
Proof.
  unfold index_of. simpl. destruct (decide (x = c)); [done|].
  by destruct (list_find _ l) as [[??]|].
Qed.

Lemma strchr_spec fuel m p c l :
  cstr m p l → (length l < fuel)%nat → u8 c = c → c ≠ 0 →
  strchr fuel p c m = Some ((λ i, p + Z.of_nat i) <$> index_of c l).
Proof.
  revert p l. induction fuel as [|fuel IH]; intros p l Hs Hf Hc Hc0; [lia|]. simpl.
  rewrite Hc. destruct l as [|x l].
  - apply cstr_nil in Hs. rewrite Hs. by destruct (Z.eqb_spec 0 c) as [<-|].
  - apply cstr_cons in Hs as (<- & Hx & Hs). simpl in Hf. rewrite index_of_cons.
    rewrite (proj2 (Z.eqb_neq (m p) 0)) by done. simpl.
    destruct (Z.eqb_spec (m p) c) as [Heq|Hne]; simpl.
    + rewrite decide_True by done. simpl. do 2 f_equal. lia.
    + rewrite decide_False, IH with (l := l) by (done || lia). f_equal.
      destruct (index_of c l) as [i|]; simpl; [|done]. f_equal. lia.
Qed.

Fixpoint last_index_of (c : Z) (l : list Z) : option nat :=
  match l with
  | [] => None
  | x :: l' => match last_index_of c l' with
               | Some i => Some (S i)
               | None => if decide (x = c) then Some 0%nat else None
               end
  end.

Lemma strrchr_spec fuel m p c r l :
  cstr m p l → (length l < fuel)%nat → u8 c = c →
  strrchr fuel p c r m =
    Some (match last_index_of c l with Some i => Some (p + Z.of_nat i) | None => r end).
Proof.
  revert p l r. induction fuel as [|fuel IH]; intros p l r Hs Hf Hc; [lia|]. simpl.
  rewrite Hc. destruct l as [|x l].
  - apply cstr_nil in Hs. by rewrite Hs.
  - apply cstr_cons in Hs as (<- & Hx & Hs). simpl in Hf.
    rewrite (proj2 (Z.eqb_neq (m p) 0)) by done. rewrite IH with (l := l) by (done || lia). simpl.
    destruct (last_index_of c l) as [i|]; [do 2 f_equal; lia|].
    destruct (Z.eqb_spec (m p) c) as [Heq|Hne].
    + rewrite decide_True by done. do 2 f_equal. lia.
    + by rewrite decide_False.
Qed.

Lemma tolower_nonzero c : 0 ≤ c < 256 → c ≠ 0 → tolower (i8 c) ≠ 0.
Proof.
  intros Hc H0. unfold tolower, i8.
  destruct (decide (c < 128)); [rewrite sgn_small by lia|rewrite sgn_high by lia];
    destruct (_ && _) eqn:E; bool_split; lia.
Qed.

Lemma strcasecmp_spec fuel m a b x y :
  cstr m a x → cstr m b y → (length x < fuel)%nat →
  Forall (λ c, 0 ≤ c < 256) x → Forall (λ c, 0 ≤ c < 256) y →
  ∃ r, strcasecmp fuel a b m = Some r ∧
    (r = 0 ↔ (λ c, tolower (i8 c)) <$> x = (λ c, tolower (i8 c)) <$> y).
Proof.
  revert a b x y. induction fuel as [|fuel IH]; intros a b x y Hx Hy Hf Hbx Hby; [lia|].
  cbn [strcasecmp]. destruct x as [|c x], y as [|e y];
    rewrite ?cstr_nil, ?cstr_cons in Hx; rewrite ?cstr_nil, ?cstr_cons in Hy;
    rewrite ?Forall_cons in Hbx; rewrite ?Forall_cons in Hby; destruct_and?; simplify_eq; simpl in Hf.
  - rewrite Hx, Hy. by exists 0.
  - rewrite Hx. eexists. split; [done|]. simpl. split; [|done].
    pose proof (tolower_nonzero (m b) ltac:(lia) ltac:(lia)). change (tolower (i8 0)) with 0. lia.
  - rewrite Hy. rewrite andb_false_r. eexists. split; [done|]. simpl. split; [|done].
    pose proof (tolower_nonzero (m a) ltac:(lia) ltac:(lia)). change (tolower (i8 0)) with 0. lia.
  - rewrite (proj2 (Z.eqb_neq (m a) 0)), (proj2 (Z.eqb_neq (m b) 0)) by done. cbn [negb andb].
    destruct (Z.eqb_spec (tolower (i8 (m a)) - tolower (i8 (m b))) 0) as [Heq|Hne]; cbn [negb].
    + destruct (IH (a + 1) (b + 1) x y) as (r & -> & Hr); [done|done|lia|done|done|].
      exists r. rewrite Hr, !fmap_cons. split; [done|]. split; [|congruence].
      intros ->. f_equal. lia.
    + eexists. split; [done|]. rewrite !fmap_cons. split; [done|]. intros [= He _]. lia.
Qed.

(** ** [strncpy] *)

Lemma fill_loop_spec fuel d n m :
  0 ≤ n < 2 ^ 63 → (Z.to_nat n < fuel)%nat →
  fill_loop fuel d n m = Some (memset d 0 (Z.to_nat n) m).
Proof.
  revert d n m. induction fuel as [|fuel IH]; intros d n m Hn Hf; [lia|]. cbn [fill_loop].
  unfold i64. rewrite sgn_small by lia.
  destruct (Z.ltb_spec 0 n) as [Hp|Hz].
  - rewrite u64_small, IH by lia. f_equal. by replace (Z.to_nat n) with (S (Z.to_nat (n - 1))) by lia.
  - by replace (Z.to_nat n) with 0%nat by lia.
Qed.

Lemma fill_loop_wrapped fuel d m : fill_loop (S fuel) d (2 ^ 64 - 1) m = Some m.
Proof. done. Qed.

(** The bytes the first loop copies: the string and its terminator, cut at
    [n]. *)
Lemma copy_loop_spec fuel d s n m l :
  cstr m s l → 0 ≤ n < 2 ^ 63 → (Z.to_nat n < fuel)%nat →
  d + n ≤ s ∨ s + Z.of_nat (length l) < d →
  let k := Nat.min (Z.to_nat n) (S (length l)) in
  copy_loop fuel d s n m =
    Some (d + Z.of_nat k,
          if decide (n ≤ Z.of_nat (length l)) then 2 ^ 64 - 1 else n - Z.of_nat k,
          memcpy d s k m).
Proof.
  revert d s n m l. induction fuel as [|fuel IH]; intros d s n m l Hs Hn Hf Hd; [lia|].
  cbn [copy_loop]. destruct (Z.eqb_spec n 0) as [->|Hn0].
  { rewrite decide_True by lia. simpl. by rewrite Z.add_0_r. }
  rewrite u64_small by lia. replace (Z.to_nat n) with (S (Z.to_nat (n - 1))) by lia.
  destruct l as [|c l].
  - apply cstr_nil in Hs. rewrite Hs. cbn [Z.eqb length].
    rewrite decide_False by (simpl; lia). replace (Nat.min _ _) with 1%nat by lia.
    cbn [memcpy]. rewrite Hs. do 2 f_equal.
  - apply cstr_cons in Hs as (<- & Hc & Hs). rewrite (proj2 (Z.eqb_neq (m s) 0)) by done.
    cbn [length] in *. rewrite IH with (l := l); [|..].
    + rewrite <- Nat.succ_min_distr. cbn [memcpy]. do 2 f_equal. f_equal; [lia|].
      destruct (decide (n - 1 ≤ _)), (decide (n ≤ _)); lia.
    + eapply cstr_ext; [exact Hs|]. intros a Ha. apply fn_lookup_insert_ne. lia.
    + lia.
    + lia.
    + lia.
Qed.

(** [strncpy] with its two loops and its wrapping counter, on a string
    that does not overlap the destination: it returns, writes exactly [n]
    bytes, namely the string cut at [n] and padded with zeros, and touches
    nothing else. *)
Theorem strncpy_exact d s n m l :
  cstr m s l → 0 ≤ n < 2 ^ 63 → d + n ≤ s ∨ s + Z.of_nat (length l) < d →
  ∃ m', strncpy d s n m = Some m' ∧
    (∀ i : nat, Z.of_nat i < n → m' (d + Z.of_nat i) = default 0 (l !! i)) ∧
    (∀ a, ¬ (d ≤ a < d + n) → m' a = m a).
Proof.
  intros Hs Hn Hd. unfold strncpy. rewrite copy_loop_spec with (l := l) by (done || lia).
  set (k := Nat.min (Z.to_nat n) (S (length l))). destruct Hs as (Hb & _ & H0).
  assert (∀ i : nat, (i < k)%nat → m (s + Z.of_nat i) = default 0 (l !! i)) as Hsrc.
  { intros i Hi. destruct (l !! i) as [c|] eqn:E; [by apply Hb|].
    apply lookup_ge_None in E. simpl. rewrite <- H0. f_equal. lia. }
  exists (memset (d + Z.of_nat k) 0 (Z.to_nat n - k) (memcpy d s k m)). split_and!.
  - destruct (decide (n ≤ Z.of_nat (length l))).
    + by replace (Z.to_nat n - k)%nat with 0%nat by lia.
    + rewrite fill_loop_spec by lia. do 2 f_equal. lia.
  - intros i Hi. rewrite memset_spec. destruct (decide _) as [Hin|Hout].
    + rewrite lookup_ge_None_2 by lia. done.
    + rewrite memcpy_spec, decide_True, <- Hsrc by lia. f_equal. lia.
  - intros a Ha. rewrite memset_spec, decide_False by lia.
    by rewrite memcpy_spec, decide_False by lia.
Qed.

Lemma strncpy_exact_witness :
  ∃ m', strncpy 100 0 4 (λ a, if a =? 0 then 104 else if a =? 1 then 105 else 0) = Some m' ∧
    m' 101 = 105 ∧ m' 103 = 0.
Proof.
  destruct (strncpy_exact 100 0 4 (λ a, if a =? 0 then 104 else if a =? 1 then 105 else 0)
    [104; 105]) as (m' & Hm & Hi & _).
  - split_and!; [|repeat constructor; lia|reflexivity].
    intros [|[|i]] c Hc; simpl in Hc; simplify_eq; reflexivity.
  - lia.
  - simpl. lia.
  - exists m'. split_and!; [exact Hm|exact (Hi 1%nat ltac:(lia))|exact (Hi 3%nat ltac:(lia))].
Defined.

Lemma strcpy_spec fuel d s m l :
  cstr m s l → (length l < fuel)%nat →
  d + Z.of_nat (length l) < s ∨ s + Z.of_nat (length l) < d →
  strcpy fuel d s m = Some (memcpy d s (S (length l)) m).
Proof.
  revert d s m l. induction fuel as [|fuel IH]; intros d s m l Hs Hf Hd; [lia|]. cbn [strcpy].
  destruct l as [|c l].
  - apply cstr_nil in Hs. rewrite Hs. cbn [length memcpy]. by rewrite Hs.
  - apply cstr_cons in Hs as (<- & Hc & Hs). rewrite (proj2 (Z.eqb_neq (m s) 0)) by done.
    cbn [length] in *. rewrite IH with (l := l); [done|..|lia|lia].
    eapply cstr_ext; [exact Hs|]. intros a Ha. apply fn_lookup_insert_ne. lia.
Qed.

(** The comparison loops decide equality of the strings they scan:
    [strcmp] of the whole strings, [strncmp] of their first [n] characters and
    [strcasecmp] up to the case of ASCII letters; each returns once the fuel
    exceeds the length of its first string. *)
Theorem string_compare_decides fuel m a b n x y :
  cstr m a x → cstr m b y → (length x < fuel)%nat →
  Forall (λ c, 0 ≤ c < 256) x → Forall (λ c, 0 ≤ c < 256) y →
  (∃ r, strcmp fuel a b m = Some r ∧ (r = 0 ↔ x = y)) ∧
  (strncmp a b n m = 0 ↔ take n x = take n y) ∧
  (∃ r, strcasecmp fuel a b m = Some r ∧
    (r = 0 ↔ (λ c, tolower (i8 c)) <$> x = (λ c, tolower (i8 c)) <$> y)).
Proof.
  intros Hx Hy Hf Hbx Hby. split_and!;
    [by apply strcmp_spec|by apply strncmp_spec|by apply strcasecmp_spec].
Qed.

Module CstringDemo.
(** The strings [Ab] at 0 and [aB] at 16. *)
Definition m : mem := <[0 := 65]> (<[1 := 98]> (<[16 := 97]> (<[17 := 66]> (λ _, 0)))).
Lemma m_ab : cstr m 0 [65; 98] ∧ cstr m 16 [97; 66].
Proof.
  split; (split_and!; [|repeat constructor; lia|reflexivity];
    intros [|[|i]] c Hc; simpl in Hc; simplify_eq; reflexivity).
Qed.
End CstringDemo.

Lemma string_compare_decides_witness :
  ∃ r, strcasecmp 3 0 16 CstringDemo.m = Some r ∧ r = 0.
Proof.
  destruct (string_compare_decides 3 CstringDemo.m 0 16 2 [65; 98] [97; 66]
    (proj1 CstringDemo.m_ab) (proj2 CstringDemo.m_ab)) as (_ & _ & r & Hr & Hz).
  - simpl. lia.
  - repeat constructor; lia.
  - repeat constructor; lia.
  - exists r. split; [exact Hr|]. apply Hz. reflexivity.
Defined.
