(* ===== verification/BlkDev.v ===== *)
(** Block devices: the interface [struct blkdev] offers to the block cache,
    the write journal and FAT32 ([include/sys/vfs.h]), and the partition
    devices of [kernel/fs/mbr.c] that are stacked on a parent device.

    The controllers behind the interface are outside this file: a device is
    its two operations over a world [W] it acts on, and [DiskLaws] states what
    a client may rely on.  Every operation may fail; a failing write may
    leave the sectors it was asked to write in any state. *)
From S2P Require Import Prelude.

(** A 512-byte sector. *)
Abbreviation sector := (list Z).

(** The operations of the devices [D]: [b->read(b, lba, count, buf)] gives the
    return code and the new contents of the buffer, here a list of [count]
    sectors, and [b->write(b, lba, count, buf)] the return code. *)
Class Disks (W D : Type) := {
  dev_read : D → Z → Z → list sector → W → Z * list sector * W;
  dev_write : D → Z → list sector → W → Z * W;
}.

(** Whether sector [l] is one of the [n] sectors from [lba] on. *)
Definition in_range (lba : Z) (n : nat) (l : Z) : Prop := lba ≤ l < lba + Z.of_nat n.

#[global] Instance in_range_dec lba n l : Decision (in_range lba n l).
Proof. unfold in_range. apply _. Defined.

(** The largest sector number a client uses; far below the wrap of [u64]. *)
Definition LBA_MAX : Z := 2 ^ 62.

Class DiskLaws (W D : Type) `{Disks W D} := {
  registered : D → Prop;
  con : D → W → Z → sector;
  (** A read changes no contents. *)
  read_con d lba n buf w r buf' w' d' l :
    registered d → registered d' → 0 ≤ lba < LBA_MAX → 0 ≤ n < 2 ^ 32 →
    dev_read d lba n buf w = (r, buf', w') → con d' w' l = con d' w l;
  (** A successful read delivers the contents. *)
  read_ok d lba n buf w buf' w' :
    registered d → 0 ≤ lba < LBA_MAX → 0 ≤ n < 2 ^ 32 →
    dev_read d lba n buf w = (0, buf', w') → buf' = con d w <$> seqZ lba n;
  (** A failing one-sector read leaves the buffer as it was. *)
  read_err d lba b w r buf' w' :
    registered d → 0 ≤ lba < LBA_MAX →
    dev_read d lba 1 [b] w = (r, buf', w') → r ≠ 0 → buf' = [b];
  (** A write touches no other sector and no other device. *)
  write_other d lba data w r w' d' l :
    registered d → registered d' → 0 ≤ lba < LBA_MAX → Z.of_nat (length data) < 2 ^ 32 →
    dev_write d lba data w = (r, w') → d' ≠ d ∨ ¬ in_range lba (length data) l →
    con d' w' l = con d' w l;
  (** A successful write stores the data. *)
  write_ok d lba data w w' (i : nat) (b : sector) :
    registered d → 0 ≤ lba < LBA_MAX → Z.of_nat (length data) < 2 ^ 32 →
    dev_write d lba data w = (0, w') → data !! i = Some b →
    con d w' (lba + Z.of_nat i) = b;
}.

(** ** One-sector forms, which the cache and the journal use *)

Section one_sector.
Context {W D : Type} `{DiskLaws W D}.

Lemma read1_ok d lba b w buf' w' :
  registered d → 0 ≤ lba < LBA_MAX → dev_read d lba 1 [b] w = (0, buf', w') →
  buf' = [con d w lba].
Proof.
  intros Hd Hl Hr. rewrite (read_ok d lba 1 [b] w buf' w') by (done || lia).
  rewrite seqZ_cons by lia. by rewrite seqZ_nil by lia.
Qed.

Lemma write1_ok d lba b w w' :
  registered d → 0 ≤ lba < LBA_MAX → dev_write d lba [b] w = (0, w') → con d w' lba = b.
Proof.
  intros Hd Hl Hw. rewrite <- (Z.add_0_r lba).
  by apply (write_ok d lba [b] w w' 0).
Qed.

Lemma write1_other d lba b w r w' d' l :
  registered d → registered d' → 0 ≤ lba < LBA_MAX → dev_write d lba [b] w = (r, w') →
  d' ≠ d ∨ l ≠ lba → con d' w' l = con d' w l.
Proof.
  intros Hd Hd' Hl Hw Hne. apply (write_other d lba [b] w r w'); try done.
  destruct Hne as [|Hne]; [by left|]. right. unfold in_range. simpl. lia.
Qed.
End one_sector.

(** ** Partition devices ([part_read], [part_write] of mbr.c) *)

(** [struct part_dev], with [parent] an index of the parent's devices. *)
Record part_dev (D : Type) := PartDev { parent : D; start_lba : Z; size_sectors : Z }.
Arguments PartDev {D}.
Arguments parent {D}.
Arguments start_lba {D}.
Arguments size_sectors {D}.

#[global] Instance part_dev_eq_dec {D} `{EqDecision D} : EqDecision (part_dev D).
Proof. solve_decision. Defined.

Section partition.
Context {W D : Type} `{Disks W D}.

Definition part_read (pd : part_dev D) (lba count : Z) (buf : list sector) (w : W)
  : Z * list sector * W :=
  if size_sectors pd <? u64 (lba + count) then (LNXRM_EFAIL, buf, w)
  else dev_read (parent pd) (u64 (start_lba pd + lba)) count buf w.

Definition part_write (pd : part_dev D) (lba : Z) (data : list sector) (w : W) : Z * W :=
  if size_sectors pd <? u64 (lba + Z.of_nat (length data)) then (LNXRM_EFAIL, w)
  else dev_write (parent pd) (u64 (start_lba pd + lba)) data w.

#[global] Instance part_disks : Disks W (part_dev D) := {
  dev_read := part_read;
  dev_write := part_write;
}.
End partition.

(** What [mbr_get_partition] builds from a well-formed partition table: the
    devices' parents are registered and no two partitions share a sector. *)
Record parts_ok {W D : Type} `{DiskLaws W D} (parts : list (part_dev D)) : Prop := {
  pok_parent : ∀ pd, pd ∈ parts → registered (parent pd);
  pok_start : ∀ pd, pd ∈ parts → 0 ≤ start_lba pd < 2 ^ 32;
  pok_size : ∀ pd, pd ∈ parts → 0 ≤ size_sectors pd < 2 ^ 32;
  pok_apart : ∀ pd pd', pd ∈ parts → pd' ∈ parts → pd ≠ pd' → parent pd = parent pd' →
    start_lba pd + size_sectors pd ≤ start_lba pd' ∨ start_lba pd' + size_sectors pd' ≤ start_lba pd;
}.

Section partition_laws.
Context {W D : Type} `{EqDecision D} `{DiskLaws W D}.
Implicit Types pd : part_dev D.

(** The range check of both operations, on sector numbers that do not wrap. *)
Lemma part_range pd lba n :
  0 ≤ lba < LBA_MAX → 0 ≤ n < 2 ^ 32 → 0 ≤ start_lba pd < 2 ^ 32 → 0 ≤ size_sectors pd < 2 ^ 32 →
  if size_sectors pd <? u64 (lba + n) then size_sectors pd < lba + n
  else lba + n ≤ size_sectors pd ∧ u64 (start_lba pd + lba) = start_lba pd + lba ∧
       0 ≤ start_lba pd + lba < LBA_MAX.
Proof.
  unfold LBA_MAX. intros Hl Hn Hs Hz. rewrite u64_small by lia.
  destruct (Z.ltb_spec (size_sectors pd) (lba + n)); [done|].
  split_and!; [done|apply u64_small; lia|lia|lia].
Qed.

Lemma part_write_outside pd lba data w r w' d l :
  registered (parent pd) → registered d → 0 ≤ lba < LBA_MAX → Z.of_nat (length data) < 2 ^ 32 →
  0 ≤ start_lba pd < 2 ^ 32 → 0 ≤ size_sectors pd < 2 ^ 32 →
  part_write pd lba data w = (r, w') →
  d ≠ parent pd ∨ ¬ in_range (start_lba pd + lba) (length data) l ∨
    ¬ (start_lba pd ≤ l < start_lba pd + size_sectors pd) →
  con d w' l = con d w l.
Proof.
  intros Hp Hd Hl Hn Hs Hz. unfold part_write.
  pose proof (part_range pd lba (Z.of_nat (length data)) Hl ltac:(lia) Hs Hz) as Hr.
  destruct (_ <? _); [by intros [= <- <-]|]. destruct Hr as (Hr & -> & Hb). intros Hw Hout.
  eapply write_other; [exact Hp|done|done|done|exact Hw|].
  unfold in_range in *. destruct Hout as [|Hout]; [by left|right; lia].
Qed.

(** The contents of a partition are the parent's sectors of its range. *)
Definition part_con (pd : part_dev D) (w : W) (l : Z) : sector :=
  if decide (0 ≤ l < size_sectors pd) then con (parent pd) w (start_lba pd + l) else [].

Context (parts : list (part_dev D)) (Hparts : parts_ok parts).

Lemma part_read_con pd lba n buf w r buf' w' pd' l :
  pd ∈ parts → pd' ∈ parts → 0 ≤ lba < LBA_MAX → 0 ≤ n < 2 ^ 32 →
  part_read pd lba n buf w = (r, buf', w') → part_con pd' w' l = part_con pd' w l.
Proof using Hparts.
  intros Hd Hd' Hl Hn. destruct Hparts as [Hp Hs Hz _]. unfold part_read.
  pose proof (part_range pd lba n Hl Hn (Hs _ Hd) (Hz _ Hd)) as Hr.
  destruct (_ <? _); [by intros [= <- <- <-]|]. destruct Hr as (_ & -> & Hb). intros Hrd.
  unfold part_con. destruct (decide _); [|done].
  eapply read_con; [apply Hp, Hd|apply Hp, Hd'|exact Hb|exact Hn|exact Hrd].
Qed.

Lemma part_read_ok pd lba n buf w buf' w' :
  pd ∈ parts → 0 ≤ lba < LBA_MAX → 0 ≤ n < 2 ^ 32 →
  part_read pd lba n buf w = (0, buf', w') → buf' = part_con pd w <$> seqZ lba n.
Proof using Hparts.
  intros Hd Hl Hn. destruct Hparts as [Hp Hs Hz _]. unfold part_read.
  pose proof (part_range pd lba n Hl Hn (Hs _ Hd) (Hz _ Hd)) as Hr.
  destruct (_ <? _); [done|]. destruct Hr as (Hr & -> & Hb). intros Hrd.
  rewrite (read_ok _ _ _ _ _ _ _ (Hp _ Hd) Hb Hn Hrd).
  rewrite <- fmap_add_seqZ, <- list_fmap_compose.
  apply list_fmap_ext. intros i l Hi%lookup_seqZ. unfold part_con. simpl.
  rewrite decide_True by lia. done.
Qed.

Lemma part_read_err pd lba b w r buf' w' :
  pd ∈ parts → 0 ≤ lba < LBA_MAX →
  part_read pd lba 1 [b] w = (r, buf', w') → r ≠ 0 → buf' = [b].
Proof using Hparts.
  intros Hd Hl. destruct Hparts as [Hp Hs Hz _]. unfold part_read.
  pose proof (part_range pd lba 1 Hl ltac:(lia) (Hs _ Hd) (Hz _ Hd)) as Hr.
  destruct (_ <? _); [by intros [= <- <- <-]|]. destruct Hr as (_ & -> & Hb). intros Hrd Hne.
  eapply read_err; [apply Hp, Hd|exact Hb|exact Hrd|exact Hne].
Qed.

Lemma part_write_other pd lba data w r w' pd' l :
  pd ∈ parts → pd' ∈ parts → 0 ≤ lba < LBA_MAX → Z.of_nat (length data) < 2 ^ 32 →
  part_write pd lba data w = (r, w') → pd' ≠ pd ∨ ¬ in_range lba (length data) l →
  part_con pd' w' l = part_con pd' w l.
Proof using All.
  intros Hd Hd' Hl Hn Hw Hout. destruct Hparts as [Hp Hs Hz Hap].
  unfold part_con. destruct (decide _) as [Hin|]; [|done].
  eapply part_write_outside; [apply Hp, Hd|apply Hp, Hd'|done|done|by apply Hs|by apply Hz|exact Hw|].
  unfold in_range in *. destruct (decide (pd' = pd)) as [->|Hne].
  - destruct Hout as [|Hout]; [done|]. right. left. lia.
  - destruct (decide (parent pd' = parent pd)) as [He|]; [|by left].
    right. right. destruct (Hap pd' pd Hd' Hd Hne He); lia.
Qed.

Lemma part_write_ok pd lba data w w' (i : nat) (b : sector) :
  pd ∈ parts → 0 ≤ lba < LBA_MAX → Z.of_nat (length data) < 2 ^ 32 →
  part_write pd lba data w = (0, w') → data !! i = Some b →
  part_con pd w' (lba + Z.of_nat i) = b.
Proof using Hparts.
  intros Hd Hl Hn. destruct Hparts as [Hp Hs Hz _]. unfold part_write.
  pose proof (part_range pd lba (Z.of_nat (length data)) Hl ltac:(lia) (Hs _ Hd) (Hz _ Hd)) as Hr.
  destruct (_ <? _); [done|]. destruct Hr as (Hr & -> & Hb). intros Hw Hi.
  pose proof (lookup_lt_Some _ _ _ Hi). unfold part_con. rewrite decide_True by lia.
  rewrite Z.add_assoc. eapply write_ok; [apply Hp, Hd|exact Hb|exact Hn|exact Hw|exact Hi].
Qed.

(** Disjoint partitions of lawful devices are lawful devices: the cache and
    FAT32 may be stacked on them. *)
Definition part_laws : DiskLaws W (part_dev D) := {|
  registered pd := pd ∈ parts;
  con := part_con;
  read_con := part_read_con;
  read_ok := part_read_ok;
  read_err := part_read_err;
  write_other := part_write_other;
  write_ok := part_write_ok;
|}.
End partition_laws.

(** A partition device is confined to its range: whatever a write asks
    for and whether it succeeds or fails, no sector of any device outside
    [start_lba, start_lba + size_sectors) of the parent changes; and a request that
    does not fit the partition fails without reaching the parent. *)
Theorem part_write_confined {W D} `{DiskLaws W D} (pd : part_dev D) lba data w r w' :
  registered (parent pd) → 0 ≤ lba < LBA_MAX → Z.of_nat (length data) < 2 ^ 32 →
  0 ≤ start_lba pd < 2 ^ 32 → 0 ≤ size_sectors pd < 2 ^ 32 →
  part_write pd lba data w = (r, w') →
  (∀ d l, registered d →
    d ≠ parent pd ∨ ¬ (start_lba pd ≤ l < start_lba pd + size_sectors pd) →
    con d w' l = con d w l) ∧
  (size_sectors pd < lba + Z.of_nat (length data) → r = LNXRM_EFAIL ∧ w' = w).
Proof.
  intros Hp Hl Hn Hs Hz Hw. split.
  - intros d l Hd Hout. eapply part_write_outside; [exact Hp|done..|exact Hw|tauto].
  - intros Hbig. unfold part_write in Hw.
    pose proof (part_range pd lba (Z.of_nat (length data)) Hl ltac:(lia) Hs Hz) as Hr.
    destruct (_ <? _); [naive_solver|lia].
Qed.

(** ** A disk in memory

    A concrete lawful device: sectors below [num_sectors] are readable and
    writable, a request beyond them fails ([ide_blk_read] and [ide_blk_write]
    check the same bound), and sectors listed in [bad] cannot be written. *)
Record ramdisk := Ramdisk { num_sectors : Z; bad : list Z; sectors : Z → sector }.

Fixpoint put_sectors (lba : Z) (data : list sector) (f : Z → sector) : Z → sector :=
  match data with
  | [] => f
  | b :: data' => put_sectors (lba + 1) data' (<[lba := b]> f)
  end.

Definition ram_read (_ : unit) (lba n : Z) (buf : list sector) (w : ramdisk)
  : Z * list sector * ramdisk :=
  if num_sectors w <? lba + n then (LNXRM_EFAIL, buf, w)
  else (0, sectors w <$> seqZ lba n, w).

Definition ram_write (_ : unit) (lba : Z) (data : list sector) (w : ramdisk) : Z * ramdisk :=
  if (num_sectors w <? lba + Z.of_nat (length data))
     || existsb (λ b, bool_decide (in_range lba (length data) b)) (bad w)
  then (LNXRM_EFAIL, w)
  else (0, Ramdisk (num_sectors w) (bad w) (put_sectors lba data (sectors w))).

#[global] Instance ram_disks : Disks ramdisk unit := {
  dev_read := ram_read;
  dev_write := ram_write;
}.

Lemma put_sectors_other lba data f l :
  ¬ in_range lba (length data) l → put_sectors lba data f l = f l.
Proof.
  revert lba f. induction data as [|b data IH]; intros lba f Hl; [done|].
  unfold in_range in *. cbn [length put_sectors] in *. rewrite IH by lia. apply fn_lookup_insert_ne. lia.
Qed.

Lemma put_sectors_in lba data f i b :
  data !! i = Some b → put_sectors lba data f (lba + Z.of_nat i) = b.
Proof.
  revert lba f i. induction data as [|b' data IH]; intros lba f [|i] Hi; try done.
  - injection Hi as ->. cbn [put_sectors]. rewrite Z.add_0_r, put_sectors_other.
    + apply fn_lookup_insert.
    + unfold in_range. lia.
  - cbn [put_sectors]. replace (lba + Z.of_nat (S i)) with (lba + 1 + Z.of_nat i) by lia.
    by apply IH.
Qed.

#[global] Program Instance ram_laws : DiskLaws ramdisk unit := {
  registered _ := True;
  con _ := sectors;
}.
Next Obligation. intros * _ _ _ _. unfold dev_read. simpl. unfold ram_read. by destruct (_ <? _); intros [= _ _ <-]. Qed.
Next Obligation. intros * _ _ _. simpl. unfold ram_read. by destruct (_ <? _); intros [=]. Qed.
Next Obligation. intros * _ _. simpl. unfold ram_read. by destruct (_ <? _); intros [= <- <- _]. Qed.
Next Obligation.
  intros * _ _ _ _. simpl. unfold ram_write. destruct (_ || _); [by intros [= _ <-]|].
  intros [= _ <-] [Hne|Hne]; [by destruct d, d'|]. by apply put_sectors_other.
Qed.
Next Obligation.
  intros * _ _ _. simpl. unfold ram_write. destruct (_ || _); [done|].
  intros [= <-]. apply put_sectors_in.
Qed.

Lemma ram_registered (d : unit) : registered (W := ramdisk) d.
Proof. exact I. Qed.

(** A four-sector partition from sector 2 of a sixteen-sector disk. *)
Lemma part_write_confined_witness :
  con tt (part_write (PartDev tt 2 4) 1 [[7]; [8]] (Ramdisk 16 [] (λ _, []))).2 6 = [] ∧
  con tt (part_write (PartDev tt 2 4) 1 [[7]; [8]] (Ramdisk 16 [] (λ _, []))).2 4 = [8].
Proof.
  split; [|vm_compute; reflexivity].
  destruct (@part_write_confined ramdisk unit ram_disks ram_laws (PartDev tt 2 4) 1 [[7]; [8]] (Ramdisk 16 [] (λ _, [])) _ _
    I ltac:(unfold LBA_MAX; lia) ltac:(simpl; lia) ltac:(simpl; lia) ltac:(simpl; lia)
    (surjective_pairing _)) as [Hout _].
  rewrite (Hout tt 6 I); [reflexivity|]. right. simpl. lia.
Defined.
