(* ===== verification/BlkCache.v ===== *)
(** The sector cache ([kernel/fs/blk_cache.c]): 64 write-back entries with a
    second-chance replacement.  The cache lock makes every operation atomic,
    so an operation is a function on the state. *)
From S2P Require Import Prelude BlkDev.

Definition CACHE_ENTRIES : nat := 64.

Record cache_entry (D : Type) := Entry {
  lba : Z; data : sector; valid : bool; dirty : bool; used : bool; dev : D;
}.
Arguments Entry {D}.
Arguments lba {D}.
Arguments data {D}.
Arguments valid {D}.
Arguments dirty {D}.
Arguments used {D}.
Arguments dev {D}.

(** The static [cache] array and the devices behind it. *)
Record blk_state (W D : Type) := BlkState { cache : nat → cache_entry D; world : W }.
Arguments BlkState {W D}.
Arguments cache {W D}.
Arguments world {W D}.

Section operations.
Context {W D : Type} `{EqDecision D} `{Disks W D}.
Implicit Types (st : blk_state W D) (e : cache_entry D).

Definition set_entry (i : nat) (e : cache_entry D) (st : blk_state W D) : blk_state W D :=
  BlkState (<[i := e]> (cache st)) (world st).
Definition set_world (w : W) (st : blk_state W D) : blk_state W D := BlkState (cache st) w.

Definition set_used (b : bool) (e : cache_entry D) : cache_entry D :=
  Entry (lba e) (data e) (valid e) (dirty e) b (dev e).
Definition set_dirty (b : bool) (e : cache_entry D) : cache_entry D :=
  Entry (lba e) (data e) (valid e) b (used e) (dev e).
Definition set_data (s : sector) (e : cache_entry D) : cache_entry D :=
  Entry (lba e) s (valid e) (dirty e) (used e) (dev e).

(** [null] is the pointer [NULL]; the sector buffers keep what they held. *)
Definition blk_cache_init (null : D) (st : blk_state W D) : blk_state W D :=
  for_loop (λ i st, set_entry i (Entry 0 (data (cache st i)) false false false null) st)
    0 CACHE_ENTRIES st.

Definition hit (d : D) (l : Z) (e : cache_entry D) : bool :=
  valid e && bool_decide (dev e = d) && (lba e =? l).

Definition cache_find (d : D) (l : Z) (st : blk_state W D) : option nat * blk_state W D :=
  match for_find (λ i, hit d l (cache st i)) 0 CACHE_ENTRIES with
  | Some i => (Some i, set_entry i (set_used true (cache st i)) st)
  | None => (None, st)
  end.

Definition cache_find_victim (st : blk_state W D) : nat * blk_state W D :=
  match for_find (λ i, negb (valid (cache st i))) 0 CACHE_ENTRIES with
  | Some i => (i, st)
  | None =>
      match for_find (λ i, negb (used (cache st i))) 0 CACHE_ENTRIES with
      | Some i => (i, st)
      | None =>
          let st := for_loop (λ i st, set_entry i (set_used false (cache st i)) st)
                      0 CACHE_ENTRIES st in
          match for_find (λ i, negb (used (cache st i))) 0 CACHE_ENTRIES with
          | Some i => (i, st)
          | None => (0%nat, st)
          end
      end
  end.

Definition cache_writeback (idx : nat) (st : blk_state W D) : Z * blk_state W D :=
  let e := cache st idx in
  if negb (valid e) || negb (dirty e) then (0, st) else
  let '(ret, w) := dev_write (dev e) (lba e) [data e] (world st) in
  let st := set_world w st in
  if ret =? 0 then (ret, set_entry idx (set_dirty false e) st) else (ret, st).

Definition flush_step (d : D) (i : nat) (acc : Z * blk_state W D) : Z * blk_state W D :=
  let '(ret, st) := acc in
  let e := cache st i in
  if valid e && dirty e && bool_decide (dev e = d) then
    let '(r, st) := cache_writeback i st in
    (if negb (r =? 0) then r else ret, st)
  else (ret, st).

Definition cache_flush_locked (d : D) (st : blk_state W D) : Z * blk_state W D :=
  for_loop (flush_step d) 0 CACHE_ENTRIES (0, st).

(** The victim is chosen and written back if it is dirty; the third component
    is the result of the writeback. *)
Definition cache_evict (st : blk_state W D) : nat * Z * blk_state W D :=
  let '(idx, st) := cache_find_victim st in
  if valid (cache st idx) && dirty (cache st idx) then
    let '(ret, st) := cache_writeback idx st in (idx, ret, st)
  else (idx, 0, st).

(** [buf] is the caller's buffer, [None] the null pointer. *)
Definition blk_cache_read (d : D) (l : Z) (buf : option sector) (st : blk_state W D)
  : Z * option sector * blk_state W D :=
  match buf with
  | None => (LNXRM_EFAIL, buf, st)
  | Some _ =>
      let '(idx, st) := cache_find d l st in
      match idx with
      | Some idx => (0, Some (data (cache st idx)), st)
      | None =>
          let '(idx, ret, st) := cache_evict st in
          if negb (ret =? 0) then (ret, buf, st) else
          let '(ret, sec, w) := dev_read d l 1 [data (cache st idx)] (world st) in
          let st := set_world w st in
          let st := set_entry idx (set_data (default [] (head sec)) (cache st idx)) st in
          if negb (ret =? 0) then (ret, buf, st) else
          let st := set_entry idx (Entry l (data (cache st idx)) true false true d) st in
          (0, Some (data (cache st idx)), st)
      end
  end.

Definition blk_cache_write (d : D) (l : Z) (buf : option sector) (st : blk_state W D)
  : Z * blk_state W D :=
  match buf with
  | None => (LNXRM_EFAIL, st)
  | Some b =>
      let store idx st := (0, set_entry idx (set_dirty true (set_data b (cache st idx))) st) in
      let '(idx, st) := cache_find d l st in
      match idx with
      | Some idx => store idx st
      | None =>
          let '(idx, ret, st) := cache_evict st in
          if negb (ret =? 0) then (ret, st) else
          let e := cache st idx in
          store idx (set_entry idx (Entry l (data e) true (dirty e) true d) st)
      end
  end.

Definition blk_cache_flush (d : D) (st : blk_state W D) : Z * blk_state W D :=
  cache_flush_locked d st.
End operations.
