(* ===== verification/BlkCacheFacts.v ===== *)
(** Correctness of the sector cache.

    The cache promises its clients a plain array of sectors per device, the
    [view]: a sector's cached copy if there is one and the device's contents
    otherwise.  [cache_inv] is what every operation maintains; the theorems
    show that reads return the view, writes update it at one point, replacement
    and write-back never change it, and a successful flush makes the device
    agree with it. *)
From S2P Require Import Prelude BlkDev BlkCache.

Lemma CACHE_ENTRIES_pos : (0 < CACHE_ENTRIES)%nat.
Proof. unfold CACHE_ENTRIES. lia. Qed.
#[local] Opaque CACHE_ENTRIES.

Section facts.
Context {W D : Type} `{EqDecision D} `{DiskLaws W D}.
Implicit Types (st : blk_state W D) (e : cache_entry D) (d : D) (l : Z).

Record cache_inv (st : blk_state W D) : Prop := {
  ci_dev : ∀ i, (i < CACHE_ENTRIES)%nat → valid (cache st i) = true →
    registered (dev (cache st i)) ∧ 0 ≤ lba (cache st i) < LBA_MAX;
  ci_uniq : ∀ i j d l, (i < CACHE_ENTRIES)%nat → (j < CACHE_ENTRIES)%nat →
    hit d l (cache st i) = true → hit d l (cache st j) = true → i = j;
  ci_clean : ∀ i, (i < CACHE_ENTRIES)%nat → valid (cache st i) = true →
    dirty (cache st i) = false →
    data (cache st i) = con (dev (cache st i)) (world st) (lba (cache st i));
}.

Definition view (st : blk_state W D) (d : D) (l : Z) : sector :=
  match for_find (λ i, hit d l (cache st i)) 0 CACHE_ENTRIES with
  | Some i => data (cache st i)
  | None => con d (world st) l
  end.

Lemma hit_spec d l e : hit d l e = true ↔ valid e = true ∧ dev e = d ∧ lba e = l.
Proof. unfold hit. rewrite !andb_true_iff, bool_decide_eq_true, Z.eqb_eq. tauto. Qed.

Lemma view_hit st d l i :
  cache_inv st → (i < CACHE_ENTRIES)%nat → hit d l (cache st i) = true →
  view st d l = data (cache st i).
Proof.
  intros Hi Hl Hh. unfold view.
  destruct (for_find_is_Some (λ i, hit d l (cache st i)) 0 CACHE_ENTRIES i) as [j Hj];
    [lia|done|]. rewrite Hj. apply for_find_Some in Hj as (Hjl & Hjh & _).
  by rewrite (ci_uniq st Hi i j d l) by (done || lia).
Qed.

Lemma view_miss st d l :
  (∀ i, (i < CACHE_ENTRIES)%nat → hit d l (cache st i) = false) →
  view st d l = con d (world st) l.
Proof.
  intros Hm. unfold view.
  rewrite (proj2 (for_find_None (λ i, hit d l (cache st i)) 0 CACHE_ENTRIES)); [done|].
  intros j Hj. apply Hm. lia.
Qed.

(** Either one entry holds the sector or none does. *)
Lemma view_cases st d l :
  (∃ i, (i < CACHE_ENTRIES)%nat ∧ hit d l (cache st i) = true) ∨
  (∀ i, (i < CACHE_ENTRIES)%nat → hit d l (cache st i) = false).
Proof.
  destruct (for_find (λ i, hit d l (cache st i)) 0 CACHE_ENTRIES) as [i|] eqn:E.
  - left. apply for_find_Some in E as (? & ? & _). exists i. split; [lia|done].
  - right. rewrite for_find_None in E. intros i Hi. apply E. lia.
Qed.

(** ** Reference bits do not matter

    States that differ in the [used] flags only are equivalent: replacement
    policy is invisible to the invariant and to the view. *)
Definition entry_equiv : relation (cache_entry D) := λ e e', set_used false e = set_used false e'.
Definition state_equiv : relation (blk_state W D) := λ st st',
  world st = world st' ∧
  ∀ i, (i < CACHE_ENTRIES)%nat → entry_equiv (cache st i) (cache st' i).

#[global] Instance entry_equiv_equivalence : Equivalence entry_equiv.
Proof. split; red; unfold entry_equiv; [done|congruence|congruence]. Qed.
#[global] Instance state_equiv_equivalence : Equivalence state_equiv.
Proof.
  split; [by intros st|intros ?? [? H']; split; [done|by intros i Hi; symmetry; apply H']|].
  intros ??? [? Ha] [? Hb]. split; [congruence|]. intros i Hi. etrans; [by apply Ha|by apply Hb].
Qed.

Lemma entry_equiv_fields e e' : entry_equiv e e' →
  lba e = lba e' ∧ data e = data e' ∧ valid e = valid e' ∧ dirty e = dirty e' ∧ dev e = dev e'.
Proof.
  intros He. split_and!; [exact (f_equal lba He)|exact (f_equal data He)|exact (f_equal valid He)
    |exact (f_equal dirty He)|exact (f_equal dev He)].
Qed.

#[global] Instance hit_proper d l : Proper (entry_equiv ==> eq) (hit d l).
Proof. intros e e' (Hl & _ & Hv & _ & Hd)%entry_equiv_fields. unfold hit. by rewrite Hl, Hv, Hd. Qed.

Lemma state_equiv_inv st st' : state_equiv st st' → cache_inv st → cache_inv st'.
Proof.
  intros [Hw He] [Hd Hu Hc].
  pose proof (λ i Hi, entry_equiv_fields _ _ (He i Hi)) as Hf.
  split.
  - intros i Hi. destruct (Hf i Hi) as (<- & _ & <- & _ & <-). auto.
  - intros i j d l Hi Hj. rewrite <- !He by done. apply Hu; done.
  - intros i Hi. destruct (Hf i Hi) as (<- & <- & <- & <- & <-). rewrite <- Hw. auto.
Qed.

#[global] Instance cache_inv_proper : Proper (state_equiv ==> iff) cache_inv.
Proof. intros st st' Heq. split; apply state_equiv_inv; [done|by symmetry]. Qed.

#[global] Instance view_proper : Proper (state_equiv ==> eq ==> eq ==> eq) view.
Proof.
  intros st st' [Hw He] d ? <- l ? <-. unfold view.
  rewrite (for_find_ext _ (λ i, hit d l (cache st' i))).
  - destruct (for_find _ _ _) as [i|] eqn:E; [|by rewrite Hw].
    apply for_find_Some in E as (Hi & _). by destruct (entry_equiv_fields _ _ (He i ltac:(lia))) as (_ & -> & _).
  - intros j Hj. apply hit_proper, He. lia.
Qed.

Lemma mark_used_equiv st i b : state_equiv (set_entry i (set_used b (cache st i)) st) st.
Proof.
  split; [done|]. intros j Hj. simpl. destruct (decide (j = i)) as [->|Hne].
  - by rewrite fn_lookup_insert.
  - by rewrite fn_lookup_insert_ne.
Qed.

Lemma cache_find_spec st d l :
  let '(o, st') := cache_find d l st in
  state_equiv st' st ∧
  match o with
  | Some i => (i < CACHE_ENTRIES)%nat ∧ hit d l (cache st' i) = true
  | None => st' = st ∧ ∀ i, (i < CACHE_ENTRIES)%nat → hit d l (cache st i) = false
  end.
Proof.
  unfold cache_find. destruct (for_find _ _ _) as [i|] eqn:E.
  - apply for_find_Some in E as (Hi & Hh & _). split; [apply mark_used_equiv|].
    split; [lia|]. simpl. by rewrite fn_lookup_insert.
  - rewrite for_find_None in E. split_and!; [done..|]. intros i Hi. apply E. lia.
Qed.

Lemma cache_find_victim_spec st :
  let '(i, st') := cache_find_victim st in (i < CACHE_ENTRIES)%nat ∧ state_equiv st' st.
Proof.
  unfold cache_find_victim.
  destruct (for_find (λ i, negb (valid (cache st i))) 0 CACHE_ENTRIES) as [i|] eqn:E1.
  { apply for_find_Some in E1 as (? & _). split; [lia|done]. }
  destruct (for_find (λ i, negb (used (cache st i))) _ _) as [i|] eqn:E2.
  { apply for_find_Some in E2 as (? & _). split; [lia|done]. }
  set (st' := for_loop _ _ _ _).
  assert (state_equiv st' st) as Heq.
  { apply (for_loop_ind (λ _ x, state_equiv x st)); [done|].
    intros k x _ Hx. etrans; [apply mark_used_equiv|done]. }
  destruct (for_find (λ i, negb (used (cache st' i))) _ _) as [i|] eqn:E3.
  - apply for_find_Some in E3 as (? & _). split; [lia|done].
  - split; [apply CACHE_ENTRIES_pos|done].
Qed.

(** ** Replacing one entry *)

Lemma set_entry_eq i e st : cache (set_entry i e st) i = e.
Proof. apply fn_lookup_insert. Qed.
Lemma set_entry_ne i j e st : j ≠ i → cache (set_entry i e st) j = cache st j.
Proof. intros. by apply fn_lookup_insert_ne. Qed.

(** A valid entry for a key no other slot holds may replace slot [i], if what
    the slot held is invalid, clean or for the same key. *)
Lemma put_spec st i e :
  cache_inv st → (i < CACHE_ENTRIES)%nat → valid e = true →
  registered (dev e) → 0 ≤ lba e < LBA_MAX →
  (∀ j, (j < CACHE_ENTRIES)%nat → j ≠ i → hit (dev e) (lba e) (cache st j) = false) →
  (valid (cache st i) = true → dirty (cache st i) = false ∨ hit (dev e) (lba e) (cache st i) = true) →
  (dirty e = false → data e = con (dev e) (world st) (lba e)) →
  cache_inv (set_entry i e st) ∧
  ∀ d l, registered d →
    view (set_entry i e st) d l = if decide (d = dev e ∧ l = lba e) then data e else view st d l.
Proof.
  intros Hi Hlt Hv Hreg Hl Hno Hold Hclean.
  assert (cache_inv (set_entry i e st)) as Hi'.
  { split.
    - intros j Hj. destruct (decide (j = i)) as [->|]; [by rewrite set_entry_eq|].
      rewrite set_entry_ne by done. by apply (ci_dev st Hi).
    - intros j k d l Hj Hk. destruct (decide (j = i)) as [->|], (decide (k = i)) as [->|];
        rewrite ?set_entry_eq, ?set_entry_ne by done; try done.
      + intros (_ & <- & <-)%hit_spec. by rewrite Hno.
      + intros Hh (_ & <- & <-)%hit_spec. by rewrite Hno in Hh.
      + by apply (ci_uniq st Hi).
    - intros j Hj. destruct (decide (j = i)) as [->|]; [rewrite set_entry_eq; auto|].
      rewrite set_entry_ne by done. by apply (ci_clean st Hi). }
  split; [done|]. intros d l Hd. destruct (decide _) as [[-> ->]|Hne].
  { rewrite (view_hit _ _ _ i Hi' Hlt); rewrite set_entry_eq; [done|by apply hit_spec]. }
  assert (hit d l e = false) as He.
  { apply not_true_iff_false. intros (_ & <- & <-)%hit_spec. tauto. }
  destruct (view_cases st d l) as [(j & Hj & Hh)|Hm].
  - destruct (decide (j = i)) as [->|Hji].
    + (* the sector was in the replaced slot, which was clean *)
      rewrite (view_hit st d l i Hi Hlt Hh). apply hit_spec in Hh as (Hvi & <- & <-).
      rewrite view_miss.
      * symmetry. apply (ci_clean st Hi); [done..|]. destruct (Hold Hvi) as [|Hsame]; [done|].
        apply hit_spec in Hsame as (_ & ? & ?). tauto.
      * intros k Hk. destruct (decide (k = i)) as [->|]; [by rewrite set_entry_eq|].
        rewrite set_entry_ne by done. apply not_true_iff_false. intros Hh'.
        apply n. symmetry. apply (ci_uniq st Hi _ _ (dev (cache st i)) (lba (cache st i))); try done.
        by apply hit_spec.
    + rewrite (view_hit st d l j Hi Hj Hh), (view_hit _ d l j Hi' Hj); by rewrite set_entry_ne.
  - rewrite (view_miss st) by done. rewrite view_miss; [done|]. intros k Hk.
    destruct (decide (k = i)) as [->|]; [by rewrite set_entry_eq|]. rewrite set_entry_ne; auto.
Qed.

(** A change of the device at the sector one valid entry covers is invisible,
    as long as the entry stays dirty or the device got its data. *)
Lemma covered_change st st' i :
  cache_inv st → (i < CACHE_ENTRIES)%nat → valid (cache st i) = true →
  (∀ d l, registered d → hit d l (cache st i) = false →
    con d (world st') l = con d (world st) l) →
  (∀ j, j ≠ i → cache st' j = cache st j) →
  (cache st' i = cache st i ∧ dirty (cache st i) = true ∨
   cache st' i = set_dirty false (cache st i) ∧
     con (dev (cache st i)) (world st') (lba (cache st i)) = data (cache st i)) →
  cache_inv st' ∧ ∀ d l, registered d → view st' d l = view st d l.
Proof.
  intros Hi Hlt Hv Hcon Hne Heq.
  assert (∀ j, cache st' j = cache st j ∨ cache st' j = set_dirty false (cache st j)) as Hf.
  { intros j. destruct (decide (j = i)) as [->|]; [|by left; apply Hne].
    destruct Heq as [[-> _]|[-> _]]; auto. }
  assert (∀ j d l, hit d l (cache st' j) = hit d l (cache st j)) as Hhit.
  { intros j d l. by destruct (Hf j) as [-> | ->]. }
  assert (cache_inv st') as Hi'.
  { split.
    - intros j Hj. pose proof (ci_dev st Hi j Hj). by destruct (Hf j) as [-> | ->].
    - intros j k d l Hj Hk. rewrite !Hhit. by apply (ci_uniq st Hi).
    - intros j Hj. destruct (decide (j = i)) as [->|Hji].
      { destruct Heq as [[-> ->]|[-> Hd]]; [done|]. by simpl. }
      rewrite Hne by done. intros Hvj Hdj. rewrite (ci_clean st Hi j) by done. symmetry. apply Hcon.
      { by apply (ci_dev st Hi). }
      apply not_true_iff_false. intros Hh. apply Hji.
      refine (ci_uniq st Hi j i _ _ Hj Hlt _ Hh). by apply hit_spec. }
  split; [done|]. intros d l Hd. destruct (view_cases st d l) as [(j & Hj & Hh)|Hm].
  - rewrite (view_hit st d l j Hi Hj Hh), (view_hit st' d l j Hi' Hj) by by rewrite Hhit.
    by destruct (Hf j) as [-> | ->].
  - rewrite (view_miss st) by done. rewrite view_miss by (intros; rewrite Hhit; auto). auto.
Qed.

(** Writing an entry back, successfully or not, changes no view: even if a
    failed write garbled the sector on the device, the entry keeps covering
    it. *)
Lemma cache_writeback_spec st i :
  cache_inv st → (i < CACHE_ENTRIES)%nat →
  let '(r, st') := cache_writeback i st in
  cache_inv st' ∧ (∀ d l, registered d → view st' d l = view st d l) ∧
  (∀ j, j ≠ i → cache st' j = cache st j) ∧
  (cache st' i = cache st i ∨ cache st' i = set_dirty false (cache st i)) ∧
  (r = 0 → valid (cache st' i) = true → dirty (cache st' i) = false).
Proof.
  intros Hi Hlt. unfold cache_writeback.
  destruct (valid (cache st i)) eqn:Hv; [|by split_and!; auto; rewrite Hv].
  destruct (dirty (cache st i)) eqn:Hdt; [|by split_and!; auto]. simpl.
  destruct (ci_dev st Hi i Hlt Hv) as [Hreg Hl].
  destruct (dev_write _ _ _ _) as [r w] eqn:Hw.
  assert (∀ d l, registered d → hit d l (cache st i) = false →
    con d w l = con d (world st) l) as Hcon.
  { intros d l Hd Hh. eapply write1_other; [exact Hreg|done|exact Hl|exact Hw|].
    destruct (decide (d = dev (cache st i))) as [->|]; [right|by left]. intros ->.
    revert Hh. apply not_false_iff_true. by apply hit_spec. }
  destruct (Z.eqb_spec r 0) as [->|Hr].
  - set (st' := set_entry i (set_dirty false (cache st i)) (set_world w st)).
    destruct (covered_change st st' i Hi Hlt Hv) as [Hi' Hview]; [exact Hcon|..].
    + intros j Hj. unfold st'. by rewrite set_entry_ne.
    + right. unfold st'. rewrite set_entry_eq. split; [done|].
      eapply write1_ok; [exact Hreg|exact Hl|exact Hw].
    + unfold st' in *. rewrite set_entry_eq.
      split_and!; [done|done|intros; by rewrite set_entry_ne|by right|done].
  - destruct (covered_change st (set_world w st) i Hi Hlt Hv) as [Hi' Hview];
      [exact Hcon|done|by left|]. by split_and!; auto.
Qed.

Lemma set_entry_twice i e e' st :
  state_equiv (set_entry i e (set_entry i e' st)) (set_entry i e st).
Proof.
  split; [done|]. intros j _. destruct (decide (j = i)) as [->|].
  - by rewrite !set_entry_eq.
  - by rewrite !set_entry_ne.
Qed.

Lemma set_entry_same i st : state_equiv (set_entry i (cache st i) st) st.
Proof.
  split; [done|]. intros j _. destruct (decide (j = i)) as [->|].
  - by rewrite !set_entry_eq.
  - by rewrite !set_entry_ne.
Qed.

(** A device that changed internally but not in contents. *)
Lemma same_contents st w :
  cache_inv st → (∀ d l, registered d → con d w l = con d (world st) l) →
  cache_inv (set_world w st) ∧ ∀ d l, registered d → view (set_world w st) d l = view st d l.
Proof.
  intros Hi Hcon. split.
  - split; [apply Hi|apply Hi|]. intros i Hlt Hv Hdt. simpl in *.
    rewrite Hcon by by apply (ci_dev st Hi). by apply (ci_clean st Hi).
  - intros d l Hd. unfold view. simpl. destruct (for_find _ _ _); [done|]. by apply Hcon.
Qed.

(** ** The operations *)

(** After eviction the slot may be reused: it is invalid or clean. *)
Lemma cache_evict_spec st :
  cache_inv st →
  let '(i, r, st') := cache_evict st in
  (i < CACHE_ENTRIES)%nat ∧ cache_inv st' ∧
  (∀ d l, registered d → view st' d l = view st d l) ∧
  (∀ d l, (∀ j, (j < CACHE_ENTRIES)%nat → hit d l (cache st j) = false) →
    ∀ j, (j < CACHE_ENTRIES)%nat → hit d l (cache st' j) = false) ∧
  (r = 0 → valid (cache st' i) = true → dirty (cache st' i) = false).
Proof.
  intros Hi. unfold cache_evict. pose proof (cache_find_victim_spec st) as Hvic.
  destruct (cache_find_victim st) as [i st1]. destruct Hvic as [Hlt Heq].
  rewrite <- Heq in Hi.
  assert (∀ d l, registered d → view st1 d l = view st d l) as Hview1.
  { intros d l _. by rewrite Heq. }
  assert (∀ d l j, (j < CACHE_ENTRIES)%nat →
    hit d l (cache st1 j) = hit d l (cache st j)) as Hhit1.
  { intros d l j Hj. apply hit_proper, Heq, Hj. }
  destruct (valid (cache st1 i) && dirty (cache st1 i)) eqn:E.
  - pose proof (cache_writeback_spec st1 i Hi Hlt) as Hwb.
    destruct (cache_writeback i st1) as [r st2].
    destruct Hwb as (Hi2 & Hview2 & Hne & Hii & Hcl). split_and!; try done.
    + intros d l Hd. by rewrite Hview2, Hview1.
    + intros d l Hm j Hj. rewrite <- (Hm j), <- Hhit1 by done.
      destruct (decide (j = i)) as [->|]; [|by rewrite Hne]. by destruct Hii as [-> | ->].
  - split_and!; try done.
    + intros d l Hm j Hj. by rewrite Hhit1, Hm.
    + intros _ Hv. rewrite Hv in E. by apply E.
Qed.

Definition set_view (d : D) (l : Z) (b : sector) (v : D → Z → sector) : D → Z → sector :=
  λ d' l', if decide (d' = d ∧ l' = l) then b else v d' l'.

Lemma read_spec st d l b :
  cache_inv st → registered d → 0 ≤ l < LBA_MAX →
  let '(r, buf, st') := blk_cache_read d l (Some b) st in
  cache_inv st' ∧ (∀ d' l', registered d' → view st' d' l' = view st d' l') ∧
  (r = 0 → buf = Some (view st d l)) ∧ (r ≠ 0 → buf = Some b).
Proof.
  intros Hi Hd Hl. unfold blk_cache_read. pose proof (cache_find_spec st d l) as Hf.
  destruct (cache_find d l st) as [[i|] st1]; destruct Hf as [Heq Hf].
  - rewrite <- Heq in Hi. destruct Hf as [Hlt Hh]. split_and!; [done| |intros _|done].
    + intros d' l' _. by rewrite Heq.
    + rewrite <- (view_hit st1 d l i Hi Hlt Hh). by rewrite Heq.
  - destruct Hf as [-> Hm]. pose proof (cache_evict_spec st Hi) as Hev.
    destruct (cache_evict st) as [[i r] st1].
    destruct Hev as (Hlt & Hi1 & Hview1 & Hm1 & Hcl).
    destruct (Z.eqb_spec r 0) as [->|Hr]; cbn [negb]; [|by split_and!].
    destruct (dev_read _ _ _ _ _) as [[r sec] w] eqn:Hrd.
    assert (∀ d' l', registered d' → con d' w l' = con d' (world st1) l') as Hcon.
    { intros d' l' Hd'. eapply read_con; [exact Hd|done|exact Hl| |exact Hrd]. lia. }
    destruct (same_contents st1 w Hi1 Hcon) as [Hi2 Hview2].
    destruct (Z.eqb_spec r 0) as [->|Hr]; cbn [negb].
    + apply read1_ok in Hrd as ->; [|done..]. cbn [default head].
      rewrite set_entry_eq. cbn [data set_data].
      match goal with |- cache_inv (set_entry i ?E _) ∧ _ => set (e := E) end.
      destruct (put_spec (set_world w st1) i e Hi2 Hlt) as [Hi3 Hview3]; try done.
      { intros j Hj _. by apply Hm1. }
      { intros Hv. left. by apply Hcl. }
      { intros _. symmetry. by apply Hcon. }
      split_and!; [by rewrite set_entry_twice| |intros _|done].
      * intros d' l' Hd'. rewrite set_entry_twice, Hview3 by done. simpl.
        destruct (decide _) as [[-> ->]|]; [|by rewrite Hview2, Hview1].
        rewrite <- Hview1 by done. symmetry. by apply view_miss, Hm1.
      * rewrite set_entry_eq. simpl. f_equal. rewrite <- Hview1 by done. symmetry.
        by apply view_miss, Hm1.
    + apply read_err in Hrd as ->; [|done..].
      assert (set_data (default [] (head [data (cache st1 i)])) (cache (set_world w st1) i) =
        cache (set_world w st1) i) as ->.
      { simpl. by destruct (cache st1 i). }
      split_and!; [by rewrite set_entry_same| |done|done].
      intros d' l' Hd'. by rewrite set_entry_same, Hview2, Hview1.
Qed.

Lemma write_spec st d l b :
  cache_inv st → registered d → 0 ≤ l < LBA_MAX →
  let '(r, st') := blk_cache_write d l (Some b) st in
  cache_inv st' ∧
  ∀ d' l', registered d' →
    view st' d' l' = if decide (r = 0) then set_view d l b (view st) d' l' else view st d' l'.
Proof.
  intros Hi Hd Hl. unfold blk_cache_write. pose proof (cache_find_spec st d l) as Hf.
  destruct (cache_find d l st) as [[i|] st1]; destruct Hf as [Heq Hf].
  - rewrite <- Heq in Hi. destruct Hf as [Hlt Hh]. pose proof Hh as (Hv & Hde & Hle)%hit_spec.
    set (e := set_dirty true (set_data b (cache st1 i))).
    destruct (put_spec st1 i e Hi Hlt) as [Hi2 Hview2]; simpl; rewrite ?Hde, ?Hle; try done.
    + intros j Hj Hne. apply not_true_iff_false. intros Hh'. apply Hne.
      by apply (ci_uniq st1 Hi j i d l).
    + auto.
    + split; [done|]. intros d' l' Hd'. rewrite Hview2 by done.
      unfold set_view. simpl. rewrite Hde, Hle. destruct (decide _); [done|by rewrite Heq].
  - destruct Hf as [-> Hm]. pose proof (cache_evict_spec st Hi) as Hev.
    destruct (cache_evict st) as [[i r] st1].
    destruct Hev as (Hlt & Hi1 & Hview1 & Hm1 & Hcl).
    destruct (Z.eqb_spec r 0) as [->|Hr]; cbn [negb].
    + rewrite set_entry_eq. cbn [data set_data set_dirty lba valid used dev].
      set (e := Entry l b true true true d).
      destruct (put_spec st1 i e Hi1 Hlt) as [Hi2 Hview2]; try done.
      { intros j Hj _. by apply Hm1. }
      { intros Hv. left. by apply Hcl. }
      split; [by rewrite set_entry_twice|]. intros d' l' Hd'.
      rewrite decide_True, set_entry_twice, Hview2 by done. unfold set_view. simpl. by rewrite Hview1.
    + split; [done|]. intros d' l' Hd'. rewrite decide_False by done. auto.
Qed.

(** The flush loop: the entries it has passed are clean unless an error is
    reported. *)
Lemma flush_spec st d :
  cache_inv st → registered d →
  let '(r, st') := blk_cache_flush d st in
  cache_inv st' ∧ (∀ d' l, registered d' → view st' d' l = view st d' l) ∧
  (r = 0 → ∀ l, con d (world st') l = view st d l).
Proof.
  intros Hi Hd. unfold blk_cache_flush, cache_flush_locked.
  pose proof (for_loop_ind (λ k '(r, x), cache_inv x ∧
    (∀ d' l, registered d' → view x d' l = view st d' l) ∧
    (r = 0 → ∀ j, (j < k)%nat → valid (cache x j) = true → dev (cache x j) = d →
      dirty (cache x j) = false)) (flush_step d) 0 CACHE_ENTRIES (0, st)) as Hloop.
  destruct (for_loop _ _ _ _) as [r st'] eqn:E. destruct Hloop as (Hi' & Hview & Hcl).
  - split_and!; [done..|]. intros _ j Hj. lia.
  - clear E. intros k [r1 x] Hk (Hx & Hvx & Hcx). unfold flush_step.
    destruct (valid (cache x k) && dirty (cache x k) && bool_decide (dev (cache x k) = d)) eqn:Et.
    + pose proof (cache_writeback_spec x k Hx ltac:(lia)) as Hwb.
      destruct (cache_writeback k x) as [r2 y]. destruct Hwb as (Hy & Hvy & Hne & Hkk & Hck).
      split_and!; [done|intros; by rewrite Hvy, Hvx|].
      destruct (Z.eqb_spec r2 0) as [->|Hr2]; [|done]. simpl. intros -> j Hj.
      destruct (decide (j = k)) as [->|Hjk]; [auto|]. rewrite Hne by done. apply Hcx; [done|lia].
    + split_and!; [done..|]. intros Hr1 j Hj Hv Hde. destruct (decide (j = k)) as [->|Hjk].
      * rewrite Hv, bool_decide_true in Et by done. by destruct (dirty _).
      * apply Hcx; [done|lia|done|done].
  - split_and!; [done..|]. intros Hr l. rewrite <- Hview by done.
    destruct (view_cases st' d l) as [(j & Hj & Hh)|Hm]; [|by rewrite view_miss].
    rewrite (view_hit st' d l j Hi' Hj Hh). apply hit_spec in Hh as (Hv & <- & <-).
    symmetry. apply (ci_clean st' Hi'); [done|done|]. apply Hcl; [done|lia|done|done].
Qed.

(** ** The cache refines an array of sectors *)

Inductive cache_op :=
  | OpRead (d : D) (l : Z) (b : sector)
  | OpWrite (d : D) (l : Z) (b : sector)
  | OpFlush (d : D).

Definition op_ok (op : cache_op) : Prop :=
  match op with
  | OpRead d l _ | OpWrite d l _ => registered d ∧ 0 ≤ l < LBA_MAX
  | OpFlush d => registered d
  end.

(** One operation of the cache: return code and the caller's read buffer. *)
Definition run_op (op : cache_op) (st : blk_state W D) : Z * option sector * blk_state W D :=
  match op with
  | OpRead d l b => blk_cache_read d l (Some b) st
  | OpWrite d l b => let '(r, st) := blk_cache_write d l (Some b) st in (r, None, st)
  | OpFlush d => let '(r, st) := blk_cache_flush d st in (r, None, st)
  end.

Fixpoint run_ops (ops : list cache_op) (st : blk_state W D)
  : list (Z * option sector) * blk_state W D :=
  match ops with
  | [] => ([], st)
  | op :: ops =>
      let '(r, buf, st) := run_op op st in
      let '(outs, st) := run_ops ops st in ((r, buf) :: outs, st)
  end.

(** The specification: the same operations on an array [v], given which of
    them report success. *)
Definition abs_out (op : cache_op) (r : Z) (v : D → Z → sector) : option sector :=
  match op with
  | OpRead d l b => Some (if decide (r = 0) then v d l else b)
  | _ => None
  end.

Definition abs_step (op : cache_op) (r : Z) (v : D → Z → sector) : D → Z → sector :=
  match op with
  | OpWrite d l b => if decide (r = 0) then set_view d l b v else v
  | _ => v
  end.

Fixpoint abs_ops (ops : list cache_op) (rs : list Z) (v : D → Z → sector)
  : list (option sector) * (D → Z → sector) :=
  match ops, rs with
  | op :: ops, r :: rs =>
      let '(outs, v') := abs_ops ops rs (abs_step op r v) in (abs_out op r v :: outs, v')
  | _, _ => ([], v)
  end.

Lemma run_op_spec op st v :
  cache_inv st → op_ok op → (∀ d l, registered d → view st d l = v d l) →
  let '(r, buf, st') := run_op op st in
  cache_inv st' ∧ buf = abs_out op r v ∧
  ∀ d l, registered d → view st' d l = abs_step op r v d l.
Proof.
  intros Hi Hok Hv. destruct op as [d l b|d l b|d]; cbn [run_op op_ok abs_out abs_step] in *.
  - destruct Hok as [Hd Hl]. pose proof (read_spec st d l b Hi Hd Hl) as H1.
    destruct (blk_cache_read _ _ _ _) as [[r buf] st']. destruct H1 as (Hi' & Hview & Hz & Hne).
    split_and!; [done| |intros; rewrite Hview; auto].
    destruct (decide (r = 0)); [by rewrite Hz, Hv|auto].
  - destruct Hok as [Hd Hl]. pose proof (write_spec st d l b Hi Hd Hl) as H1.
    destruct (blk_cache_write _ _ _ _) as [r st']. destruct H1 as (Hi' & Hview).
    split_and!; [done..|]. intros d' l' Hd'. rewrite Hview by done.
    destruct (decide (r = 0)); [|auto]. unfold set_view. destruct (decide _); auto.
  - pose proof (flush_spec st d Hi Hok) as H1. destruct (blk_cache_flush _ _) as [r st'].
    destruct H1 as (Hi' & Hview & _). split_and!; [done..|]. intros. rewrite Hview; auto.
Qed.

Lemma run_ops_spec ops st v :
  cache_inv st → Forall op_ok ops → (∀ d l, registered d → view st d l = v d l) →
  let '(outs, st') := run_ops ops st in
  let '(bufs, v') := abs_ops ops outs.*1 v in
  cache_inv st' ∧ outs.*2 = bufs ∧ ∀ d l, registered d → view st' d l = v' d l.
Proof.
  revert st v. induction ops as [|op ops IH]; intros st v Hi Hok Hv; simpl; [done|].
  apply Forall_cons in Hok as [Hop Hok]. pose proof (run_op_spec op st v Hi Hop Hv) as H1.
  destruct (run_op op st) as [[r buf] st1]. destruct H1 as (Hi1 & -> & Hv1).
  specialize (IH st1 (abs_step op r v) Hi1 Hok Hv1). destruct (run_ops ops st1) as [outs st2].
  rewrite !fmap_cons. cbn [fst snd abs_ops].
  destruct (abs_ops ops outs.*1 (abs_step op r v)) as [bufs v']. by destruct IH as (? & <- & ?).
Qed.

(** An empty cache shows the devices' contents. *)
Lemma init_spec null st :
  cache_inv (blk_cache_init null st) ∧
  ∀ d l, view (blk_cache_init null st) d l = con d (world st) l.
Proof.
  unfold blk_cache_init.
  pose proof (for_loop_ind (λ k x, world x = world st ∧
    ∀ i, (i < k)%nat → valid (cache x i) = false)
    (λ i st, set_entry i (Entry 0 (data (cache st i)) false false false null) st)
    0 CACHE_ENTRIES st) as H1.
  set (st' := for_loop _ _ _ _) in *. destruct H1 as [Hw Hv].
  - split; [done|]. intros; lia.
  - intros k x Hk [Hwx Hvx]. split; [done|]. intros i Hi.
    destruct (decide (i = k)) as [->|]; [by rewrite set_entry_eq|].
    rewrite set_entry_ne by done. apply Hvx. lia.
  - rewrite Nat.add_0_l in Hv.
    assert (∀ d l i, (i < CACHE_ENTRIES)%nat → hit d l (cache st' i) = false) as Hh.
    { intros d l i Hi. unfold hit. by rewrite Hv. }
    split; [split|].
    + intros i Hi Hvi. by rewrite Hv in Hvi.
    + intros i j d l Hi Hj Hhi. by rewrite Hh in Hhi.
    + intros i Hi Hvi. by rewrite Hv in Hvi.
    + intros d l. rewrite view_miss by auto. by rewrite Hw.
Qed.
End facts.
Arguments cache_op : clear implicits.

Section theorems.
Context {W D : Type} `{EqDecision D} `{DiskLaws W D}.

(** C23. From [blk_cache_init] on, any sequence of cached reads, writes and
    flushes behaves as the same sequence on a plain array of sectors that
    starts as the devices' contents, whichever operations the devices make
    fail: a read that reports success returns the last value whose write
    reported success, a failing read leaves the caller's buffer alone, a
    failing write changes nothing; and when a flush of [d] then reports
    success, the device itself holds that array. *)
Theorem blk_cache_refines null st ops d outs st' r st'' bufs v :
  Forall op_ok ops → registered d →
  run_ops ops (blk_cache_init null st) = (outs, st') →
  abs_ops ops outs.*1 (λ d l, con d (world st) l) = (bufs, v) →
  blk_cache_flush d st' = (r, st'') →
  outs.*2 = bufs ∧ (r = 0 → ∀ l, con d (world st'') l = v d l).
Proof.
  intros Hok Hd Hrun Habs Hfl. destruct (init_spec null st) as [Hi Hv].
  pose proof (run_ops_spec ops _ (λ d l, con d (world st) l) Hi Hok (λ d l _, Hv d l)) as Hr.
  rewrite Hrun, Habs in Hr. destruct Hr as (Hi' & Hout & Hview). split; [done|].
  pose proof (flush_spec st' d Hi' Hd) as Hf. rewrite Hfl in Hf. destruct Hf as (_ & _ & H1).
  intros Hr l. rewrite H1, Hview; done.
Qed.

(** An error never loses data: when the write-back of a victim fails, the
    read or write that triggered it reports the error, the sectors that were
    cached stay readable with their latest values, and the cache stays
    well-formed. *)
Theorem blk_cache_error_safe st d l b :
  cache_inv st → registered d → 0 ≤ l < LBA_MAX →
  (∀ r st', blk_cache_write d l (Some b) st = (r, st') → r ≠ 0 →
    cache_inv st' ∧ ∀ d' l', registered d' → view st' d' l' = view st d' l') ∧
  (∀ r buf st', blk_cache_read d l (Some b) st = (r, buf, st') → r ≠ 0 →
    cache_inv st' ∧ buf = Some b ∧ ∀ d' l', registered d' → view st' d' l' = view st d' l').
Proof.
  intros Hi Hd Hl. pose proof (write_spec st d l b Hi Hd Hl) as Hw.
  pose proof (read_spec st d l b Hi Hd Hl) as Hr. split.
  - intros r st' E Hne. rewrite E in Hw. destruct Hw as [Hi' Hv]. split; [done|].
    intros d' l' Hd'. by rewrite Hv, decide_False.
  - intros r buf st' E Hne. rewrite E in Hr. destruct Hr as (Hi' & Hv & _ & Hb). auto.
Qed.
End theorems.

(** ** A device that breaks [read_err]

    The missed sector is read straight into the victim's buffer.  A device
    that has transferred part of the data when it reports the error (a DMA
    controller may) leaves it there, under the victim's old key. *)
Module Leaky.
(** Sector [l] holds [[l]]; sectors from 64 on cannot be read, and the attempt
    leaves [[-1]] in the buffer. *)
#[local] Instance leaky : Disks unit unit := {
  dev_read _ l n buf w := if l <? 64 then (0, [[l]], w) else (LNXRM_EFAIL, [[-1]], w);
  dev_write _ _ _ w := (0, w);
}.

(** Fill the cache with the sectors 0 to 63. *)
Definition full : blk_state unit unit :=
  for_loop (λ i st, (blk_cache_read tt (Z.of_nat i) (Some []) st).2) 0 CACHE_ENTRIES
    (blk_cache_init tt (BlkState (λ _, Entry 0 [] false false false tt) tt)).

(** After a failed read of sector 64 the cache answers a read of sector 0
    with success and the garbage of the failed transfer, although sector 0 was
    cached correctly before: the victim stays valid under its old key. *)
Theorem blk_cache_failed_read_clobbers :
  (blk_cache_read tt 0 (Some []) full).1 = (0, Some [0]) ∧
  (blk_cache_read tt 64 (Some []) full).1 = (LNXRM_EFAIL, Some []) ∧
  (blk_cache_read tt 0 (Some []) (blk_cache_read tt 64 (Some []) full).2).1 = (0, Some [-1]).
Proof. split_and!; vm_compute; reflexivity. Qed.
End Leaky.

(** ** Witnesses *)

Module CacheDemo.
(** An eight-sector disk whose sector 5 cannot be written. *)
Definition st0 : blk_state ramdisk unit :=
  BlkState (λ _, Entry 0 [] true true true tt) (Ramdisk 8 [5] (λ l, [l])).
Definition ops : list (cache_op unit) :=
  [OpWrite tt 3 [33]; OpRead tt 3 []; OpRead tt 4 []; OpRead tt 9 [7]; OpFlush tt; OpWrite tt 5 [55]].

Lemma ops_ok : Forall (op_ok (W := ramdisk)) ops.
Proof. repeat constructor; simpl; unfold LBA_MAX; lia. Qed.

(** A cache whose only entry is the dirty sector 5. *)
Definition st1 : blk_state ramdisk unit :=
  (blk_cache_write tt 5 (Some [55]) (blk_cache_init tt st0)).2.
Lemma st1_inv : cache_inv st1.
Proof.
  unfold st1. pose proof (write_spec (blk_cache_init tt st0) tt 5 [55] (proj1 (init_spec tt st0)) I)
    as Hw.
  destruct (blk_cache_write _ _ _ _) as [r st]. apply Hw. unfold LBA_MAX. lia.
Qed.
End CacheDemo.

Lemma blk_cache_refines_witness :
  (run_ops CacheDemo.ops (blk_cache_init tt CacheDemo.st0)).1 =
    [(0, None); (0, Some [33]); (0, Some [4]); (-1, Some [7]); (0, None); (0, None)] ∧
  (run_ops CacheDemo.ops (blk_cache_init tt CacheDemo.st0)).1.*2 =
    (abs_ops CacheDemo.ops (run_ops CacheDemo.ops (blk_cache_init tt CacheDemo.st0)).1.*1
      (λ _ l, [l])).1.
Proof.
  split; [vm_compute; reflexivity|].
  refine (proj1 (blk_cache_refines tt CacheDemo.st0 CacheDemo.ops tt _ _ _ _ _ _
    CacheDemo.ops_ok I (surjective_pairing _) (surjective_pairing _) (surjective_pairing _))).
Defined.

Lemma blk_cache_error_safe_witness :
  (blk_cache_read tt 9 (Some [7]) CacheDemo.st1).1 = (LNXRM_EFAIL, Some [7]) ∧
  view (blk_cache_read tt 9 (Some [7]) CacheDemo.st1).2 tt 5 = view CacheDemo.st1 tt 5.
Proof.
  split; [vm_compute; reflexivity|].
  destruct (blk_cache_error_safe CacheDemo.st1 tt 9 [7] CacheDemo.st1_inv I) as [_ Hr].
  { unfold LBA_MAX. lia. }
  destruct (blk_cache_read tt 9 (Some [7]) CacheDemo.st1) as [[r buf] st'] eqn:E.
  destruct (Hr r buf st' eq_refl) as (_ & _ & Hv).
  - intros ->. assert ((blk_cache_read tt 9 (Some [7]) CacheDemo.st1).1.1 = LNXRM_EFAIL) as E'
      by (vm_compute; reflexivity).
    rewrite E in E'. discriminate E'.
  - exact (Hv tt 5 I).
Defined.
