(* ===== verification/BlkHealth.v ===== *)
(** The cache over a device that works.

    FAT32 ignores most return codes of the block layer.  What its operations
    achieve is stated for a device that serves every access within its [n]
    sectors: on such a device every cache operation succeeds, and because the
    cache serves this device only, the invariants below are kept. *)
From S2P Require Import Prelude BlkDev BlkCache BlkCacheFacts.

#[local] Opaque CACHE_ENTRIES.

Class DiskHealth (W D : Type) `{DiskLaws W D} := {
  healthy : D → Z → W → Prop;
  healthy_read d n lba cnt buf w :
    registered d → healthy d n w → 0 ≤ lba → 0 ≤ cnt → lba + cnt ≤ n →
    ∃ w', dev_read d lba cnt buf w = (0, con d w <$> seqZ lba cnt, w') ∧ healthy d n w';
  healthy_write d n lba data w :
    registered d → healthy d n w → 0 ≤ lba → lba + Z.of_nat (length data) ≤ n →
    ∃ w', dev_write d lba data w = (0, w') ∧ healthy d n w';
}.

Section health.
Context {W D : Type} `{EqDecision D} `{DiskHealth W D}.
Context (d : D) (lo n : Z).
Implicit Types (st : blk_state W D).

(** Every cached sector is one of the sectors [lo], ..., [n - 1] of [d]. *)
Definition cache_for st : Prop := ∀ i, (i < CACHE_ENTRIES)%nat → valid (cache st i) = true →
  dev (cache st i) = d ∧ lo ≤ lba (cache st i) < n.

Record cache_ok st : Prop := {
  ck_inv : cache_inv st;
  ck_for : cache_for st;
  ck_health : healthy d n (world st);
}.

(** [st'] shows what [st] shows, and the device got nothing but cached
    data. *)
Definition settles st st' : Prop :=
  (∀ l, view st' d l = view st d l) ∧
  ∀ l, con d (world st') l = con d (world st) l ∨ con d (world st') l = view st d l.

Definition synced st : Prop := ∀ l, con d (world st) l = view st d l.

Lemma settles_synced st st' : settles st st' → synced st → synced st'.
Proof. intros [Hv Hc] Hs l. rewrite Hv. destruct (Hc l) as [-> | ->]; [apply Hs|done]. Qed.

Lemma settles_con st st' l : settles st st' → synced st → con d (world st') l = con d (world st) l.
Proof. intros [_ Hc] Hs. destruct (Hc l) as [-> | ->]; [done|]. by rewrite Hs. Qed.

Lemma settles_refl st : settles st st.
Proof. split; auto. Qed.

Lemma settles_trans st1 st2 st3 : settles st1 st2 → settles st2 st3 → settles st1 st3.
Proof.
  intros [Hv1 Hc1] [Hv2 Hc2]. split; [intros l; by rewrite Hv2|].
  intros l. destruct (Hc2 l) as [-> | ->]; [apply Hc1|rewrite Hv1; by right].
Qed.

Context (Hd : registered d) (Hlo : 0 ≤ lo) (Hn : n ≤ LBA_MAX).

Lemma cache_for_equiv st st' : state_equiv st st' → cache_for st → cache_for st'.
Proof.
  intros [_ He] Hf i Hi. destruct (entry_equiv_fields _ _ (He i Hi)) as (<- & _ & <- & _ & <-).
  by apply Hf.
Qed.

Lemma cache_ok_equiv st st' : state_equiv st st' → cache_ok st → cache_ok st'.
Proof.
  intros Heq [Hi Hf Hh]. split; [by rewrite <- Heq|by eapply cache_for_equiv|].
  by destruct Heq as [<- _].
Qed.

Lemma settles_equiv st st' : state_equiv st st' → settles st st'.
Proof.
  intros Heq. split; [intros l; by rewrite Heq|]. intros l. left. by destruct Heq as [-> _].
Qed.

Lemma cache_for_put i e st :
  cache_for st → dev e = d → lo ≤ lba e < n → cache_for (set_entry i e st).
Proof.
  intros Hf He Hl j Hj. destruct (decide (j = i)) as [->|].
  - by rewrite set_entry_eq.
  - rewrite set_entry_ne by done. by apply Hf.
Qed.

Lemma writeback_ok i st :
  (i < CACHE_ENTRIES)%nat → cache_ok st →
  ∃ st', cache_writeback i st = (0, st') ∧ cache_ok st' ∧ settles st st'.
Proof.
  intros Hi Hok. pose proof Hok as [Hinv Hf Hh]. pose proof (cache_writeback_spec st i Hinv Hi) as Hs.
  unfold cache_writeback in *. destruct (valid (cache st i)) eqn:Hv; simpl in *;
    [|exists st; by eauto using settles_refl, cache_ok].
  destruct (dirty (cache st i)) eqn:Hdt; simpl in *;
    [|exists st; by eauto using settles_refl, cache_ok].
  destruct (Hf i Hi Hv) as [Hde Hl]. rewrite Hde in *.
  destruct (healthy_write d n (lba (cache st i)) [data (cache st i)] (world st)) as (w & Hw & Hh');
    [done|done|lia|simpl; lia|]. rewrite Hw in *. simpl in *.
  destruct Hs as (Hinv' & Hview & _). eexists. split; [done|]. split.
  - split; [done| |done]. apply cache_for_put; [|done|done]. exact Hf.
  - split; [auto|]. intros l. simpl. destruct (decide (l = lba (cache st i))) as [->|Hne].
    + right. rewrite (write1_ok d _ _ _ _ Hd) with (2 := Hw) by lia. symmetry.
      apply view_hit; [done|done|]. by apply hit_spec.
    + left. eapply write1_other; [exact Hd|exact Hd| |exact Hw|by right]. lia.
Qed.

Lemma evict_ok st :
  cache_ok st → ∃ i st', cache_evict st = (i, 0, st') ∧ (i < CACHE_ENTRIES)%nat ∧ cache_ok st' ∧ settles st st'.
Proof.
  intros Hok. unfold cache_evict. pose proof (cache_find_victim_spec st) as Hvic.
  destruct (cache_find_victim st) as [i st1]. destruct Hvic as [Hi Heq]. symmetry in Heq.
  pose proof (cache_ok_equiv _ _ Heq Hok) as Hok1. pose proof (settles_equiv _ _ Heq) as Hs1.
  destruct (valid (cache st1 i) && dirty (cache st1 i)).
  - destruct (writeback_ok i st1 Hi Hok1) as (st2 & -> & Hok2 & Hs2).
    exists i, st2. split_and!; [done..|]. by eapply settles_trans.
  - by exists i, st1.
Qed.

(** A write to the device below [lo], where nothing is cached. *)
Lemma below_change st w :
  cache_ok st → healthy d n w →
  (∀ d' l, registered d' → d' ≠ d ∨ lo ≤ l → con d' w l = con d' (world st) l) →
  cache_ok (set_world w st) ∧ (∀ l, lo ≤ l → view (set_world w st) d l = view st d l) ∧
  (synced st → synced (set_world w st)).
Proof.
  intros [Hi Hf Hh] Hh' Hcon.
  assert (∀ l, l < lo → view (set_world w st) d l = con d w l) as Hlow.
  { intros l Hl. apply view_miss. intros i Hlt. apply not_true_iff_false. intros (Hv & _ & Hb)%hit_spec.
    destruct (Hf i Hlt Hv). simpl in *. lia. }
  assert (∀ l, lo ≤ l → view (set_world w st) d l = view st d l) as Hhigh.
  { intros l Hl. unfold view. simpl. destruct (for_find _ _ _); [done|]. apply Hcon; auto. }
  split_and!; [split; [|done|done]|done|].
  - split; [apply Hi|apply Hi|]. intros i Hlt Hv Hdt. destruct (Hf i Hlt Hv) as [Hde Hl].
    simpl in *. rewrite Hcon by (rewrite ?Hde; auto || right; lia). by apply (ci_clean st Hi).
  - intros Hs l. simpl. destruct (decide (lo ≤ l)); [|rewrite Hlow by lia; done].
    rewrite Hhigh, Hcon by auto. apply Hs.
Qed.

(** ** The operations succeed *)

Lemma read_healthy st l b :
  cache_ok st → lo ≤ l < n →
  ∃ st', blk_cache_read d l (Some b) st = (0, Some (view st d l), st') ∧ cache_ok st' ∧ settles st st'.
Proof.
  intros Hok Hl. pose proof (read_spec st d l b (ck_inv _ Hok) Hd ltac:(lia)) as Hs.
  unfold blk_cache_read in *. pose proof (cache_find_spec st d l) as Hf.
  destruct (cache_find d l st) as [[i|] st1]; destruct Hf as [Heq Hf].
  - symmetry in Heq. destruct Hs as (_ & _ & Hb & _). exists st1. rewrite Hb by done.
    split_and!; [done|by eapply cache_ok_equiv|by apply settles_equiv].
  - destruct Hf as [-> _]. destruct (evict_ok st Hok) as (i & st1 & E & Hi & Hok1 & Hs1).
    rewrite E in *. cbn [negb Z.eqb] in *.
    destruct (healthy_read d n l 1 [data (cache st1 i)] (world st1)) as (w & Hr & Hh);
      [done|apply Hok1|lia|lia|lia|]. rewrite Hr in *. cbn [negb Z.eqb] in *.
    destruct Hs as (Hinv & Hview & Hb & _). specialize (Hb eq_refl).
    eexists. split; [rewrite Hb; reflexivity|]. split.
    + split; [done| |exact Hh]. intros j Hj. destruct (decide (j = i)) as [->|].
      * by rewrite set_entry_eq.
      * rewrite !set_entry_ne by done. by apply (ck_for _ Hok1).
    + split; [auto|]. intros l'. cbn [world set_world set_entry].
      rewrite (read_con d l 1 _ _ _ _ _ d l' Hd Hd) with (3 := Hr) by lia. apply Hs1.
Qed.

Lemma write_healthy st l b :
  cache_ok st → lo ≤ l < n →
  ∃ st', blk_cache_write d l (Some b) st = (0, st') ∧ cache_ok st' ∧
    (∀ l', view st' d l' = if decide (l' = l) then b else view st d l') ∧
    ∀ l', con d (world st') l' = con d (world st) l' ∨ con d (world st') l' = view st d l'.
Proof.
  intros Hok Hl. pose proof (write_spec st d l b (ck_inv _ Hok) Hd ltac:(lia)) as Hs.
  assert (∀ v v' : D → Z → sector, (∀ d' l', registered d' → v' d' l' = set_view d l b v d' l') →
    ∀ l', v' d l' = if decide (l' = l) then b else v d l') as Hset.
  { intros v v' Hv l'. rewrite Hv by done. unfold set_view.
    destruct (decide (l' = l)) as [->|]; [by rewrite decide_True|rewrite decide_False by tauto; done]. }
  unfold blk_cache_write in *. pose proof (cache_find_spec st d l) as Hf.
  destruct (cache_find d l st) as [[i|] st1]; destruct Hf as [Heq Hf].
  - destruct Hf as [Hi Hh]. symmetry in Heq. pose proof (cache_ok_equiv _ _ Heq Hok) as Hok1.
    apply hit_spec in Hh as (Hv & Hde & Hle). destruct Hs as [Hinv Hview].
    eexists. split; [reflexivity|]. split_and!.
    + split; [done| |apply Hok1]. apply cache_for_put; [apply Hok1|done|simpl; lia].
    + by apply Hset.
    + intros l'. left. simpl. by destruct Heq as [-> _].
  - destruct Hf as [-> _]. destruct (evict_ok st Hok) as (i & st1 & E & Hi & Hok1 & Hs1).
    rewrite E in *. cbn [negb Z.eqb] in *. destruct Hs as [Hinv Hview].
    eexists. split; [reflexivity|]. split_and!.
    + split; [done| |apply Hok1]. rewrite set_entry_eq.
      do 2 (apply cache_for_put; [|done|simpl; lia]). apply Hok1.
    + by apply Hset.
    + intros l'. apply Hs1.
Qed.

Lemma flush_healthy st :
  cache_ok st →
  ∃ st', blk_cache_flush d st = (0, st') ∧ cache_ok st' ∧ (∀ l, view st' d l = view st d l) ∧ synced st'.
Proof.
  intros Hok. pose proof (flush_spec st d (ck_inv _ Hok) Hd) as Hs.
  unfold blk_cache_flush, cache_flush_locked in *.
  pose proof (for_loop_ind (λ _ '(r, x), r = 0 ∧ cache_ok x) (flush_step d) 0 CACHE_ENTRIES (0, st)) as Hl.
  destruct (for_loop _ _ _ _) as [r st']. destruct Hs as (_ & Hv & Hc). destruct Hl as [-> Hok'].
  - done.
  - intros k [r1 x] Hk [-> Hx]. unfold flush_step.
    destruct (_ && _ && _); [|done]. destruct (writeback_ok k x ltac:(lia) Hx) as (y & -> & Hy & _).
    done.
  - exists st'. split_and!; auto. intros l. rewrite Hc, Hv by done. done.
Qed.
End health.

(** The RAM disk of [BlkDev] works when it is large enough and has no bad
    sectors. *)
#[global] Program Instance ram_health : DiskHealth ramdisk unit := {
  healthy _ n w := n ≤ num_sectors w ∧ bad w = [];
}.
Next Obligation.
  intros [] n lba cnt buf w _ [Hn Hb] Hl Hc Hle. simpl. unfold ram_read.
  rewrite (proj2 (Z.ltb_ge _ _)) by lia. by eexists.
Qed.
Next Obligation.
  intros [] n lba data w _ [Hn Hb] Hl Hle. simpl. unfold ram_write.
  rewrite (proj2 (Z.ltb_ge _ _)), Hb by lia. simpl. by eexists.
Qed.
