(* ===== verification/Journal.v ===== *)
(** The FAT32 write journal ([kernel/fs/fat32/fat32_journal.c]): one global
    transaction that collects up to 32 sector images in memory and writes
    them to the device at commit. *)
From S2P Require Import Prelude BlkDev BlkCache BlkCacheFacts.

Definition MAX_JOURNAL_ENTRIES : nat := 32.
Definition JOURNAL_MAGIC : Z := 0x4A4F5552.

Record journal_entry := JEntry { je_lba : Z; je_data : sector; je_valid : bool }.

Record journal (D : Type) := Journal {
  magic : Z;
  entries : nat → journal_entry;
  jcount : nat;
  active : bool;
  jdev : D;
}.
Arguments Journal {D}.
Arguments magic {D}.
Arguments entries {D}.
Arguments jcount {D}.
Arguments active {D}.
Arguments jdev {D}.

Section journal.
Context {W D : Type} `{EqDecision D} `{Disks W D}.

Definition fat32_journal_init (d : D) (j : journal D) : journal D :=
  Journal JOURNAL_MAGIC (entries j) 0 false d.

Definition fat32_journal_begin (j : journal D) : Z * journal D :=
  if active j then (LNXRM_EFAIL, j)
  else (0, Journal (magic j) (entries j) 0 true (jdev j)).

Definition fat32_journal_add (l : Z) (b : sector) (j : journal D) : Z * journal D :=
  if negb (active j) then (LNXRM_EFAIL, j)
  else if (MAX_JOURNAL_ENTRIES <=? jcount j)%nat then (LNXRM_ENOENT, j)
  else (0, Journal (magic j) (<[jcount j := JEntry l b true]> (entries j))
             (S (jcount j)) (active j) (jdev j)).

Definition fat32_journal_abort (j : journal D) : Z * journal D :=
  (0, Journal (magic j) (entries j) 0 false (jdev j)).

(** The write loop of a commit: the first error ends it. *)
Fixpoint commit_loop (i n : nat) (j : journal D) (st : blk_state W D) : Z * blk_state W D :=
  match n with
  | O => (0, st)
  | S n' =>
      let e := entries j i in
      if je_valid e then
        let '(ret, w) := dev_write (jdev j) (je_lba e) [je_data e] (world st) in
        let st := set_world w st in
        if negb (ret =? 0) then (ret, st) else commit_loop (S i) n' j st
      else commit_loop (S i) n' j st
  end.

Definition fat32_journal_commit (j : journal D) (st : blk_state W D)
  : Z * journal D * blk_state W D :=
  if negb (active j) then (LNXRM_EFAIL, j, st) else
  let '(ret, st) := commit_loop 0 (jcount j) j st in
  if negb (ret =? 0) then
    let '(_, j) := fat32_journal_abort j in (ret, j, st)
  else
    let j := Journal (magic j) (entries j) 0 false (jdev j) in
    let '(_, st) := blk_cache_flush (jdev j) st in
    (0, j, st).
End journal.

(** ** What a transaction means *)

(** The pending writes of an active transaction, oldest first. *)
Definition pending {D} (j : journal D) : list (Z * sector) :=
  (λ i, (je_lba (entries j i), je_data (entries j i))) <$> seq 0 (jcount j).

(** The pending writes applied in order. *)
Definition apply_txn (txn : list (Z * sector)) (f : Z → sector) : Z → sector :=
  foldl (λ f w, <[w.1 := w.2]> f) f txn.

Section facts.
Context {W D : Type} `{EqDecision D} `{DiskLaws W D}.
Implicit Types (j : journal D) (st : blk_state W D).

Record journal_inv (j : journal D) : Prop := {
  ji_count : (jcount j ≤ MAX_JOURNAL_ENTRIES)%nat;
  ji_valid : ∀ i, (i < jcount j)%nat → je_valid (entries j i) = true;
  ji_lba : ∀ i, (i < jcount j)%nat → 0 ≤ je_lba (entries j i) < LBA_MAX;
  ji_idle : active j = false → jcount j = 0%nat;
}.

Lemma length_pending j : length (pending j) = jcount j.
Proof. unfold pending. by rewrite length_fmap, length_seq. Qed.

Lemma add_spec l b j :
  journal_inv j → active j = true → 0 ≤ l < LBA_MAX →
  let '(r, j') := fat32_journal_add l b j in
  journal_inv j' ∧ active j' = true ∧ jdev j' = jdev j ∧
  if decide (length (pending j) < MAX_JOURNAL_ENTRIES)%nat
  then r = 0 ∧ pending j' = pending j ++ [(l, b)]
  else r = LNXRM_ENOENT ∧ j' = j.
Proof.
  intros Hj Ha Hlb. pose proof Hj as [Hc Hv Hl Hid]. unfold fat32_journal_add.
  rewrite Ha, length_pending. cbn [negb].
  destruct (Nat.leb_spec MAX_JOURNAL_ENTRIES (jcount j)) as [Hfull|Hroom].
  { rewrite decide_False by lia. by split_and!. }
  rewrite decide_True by lia. split_and!; [|done..|].
  - split; simpl; [lia|..|done].
    + intros i Hi. destruct (decide (i = jcount j)) as [->|].
      * by rewrite fn_lookup_insert.
      * rewrite fn_lookup_insert_ne by done. apply Hv. lia.
    + intros i Hi. destruct (decide (i = jcount j)) as [->|].
      * by rewrite fn_lookup_insert.
      * rewrite fn_lookup_insert_ne by done. apply Hl. lia.
  - unfold pending. cbn [jcount entries]. rewrite seq_S, fmap_app. simpl.
    rewrite fn_lookup_insert. f_equal. apply list_fmap_ext. intros i x Hi%lookup_seq.
    rewrite fn_lookup_insert_ne by lia. done.
Qed.

Lemma apply_txn_cons e txn f : apply_txn (e :: txn) f = apply_txn txn (<[e.1 := e.2]> f).
Proof. done. Qed.

Lemma apply_txn_ext txn f g l : (∀ l, f l = g l) → apply_txn txn f l = apply_txn txn g l.
Proof.
  revert f g. induction txn as [|[l' b] txn IH]; intros f g Hfg; simpl; [done|].
  apply IH. intros l''. destruct (decide (l'' = l')) as [->|].
  - by rewrite !fn_lookup_insert.
  - by rewrite !fn_lookup_insert_ne.
Qed.

(** The loop writes the entries in order and stops at the first error; a
    failing write may garble its own sector and no other. *)
Lemma commit_loop_spec n i j st :
  journal_inv j → registered (jdev j) → (i + n ≤ jcount j)%nat →
  let txn := (λ i, (je_lba (entries j i), je_data (entries j i))) <$> seq i n in
  let '(r, st') := commit_loop i n j st in
  cache st' = cache st ∧
  (∀ d l, registered d → d ≠ jdev j → con d (world st') l = con d (world st) l) ∧
  (r = 0 → ∀ l, con (jdev j) (world st') l = apply_txn txn (con (jdev j) (world st)) l) ∧
  (r ≠ 0 → ∃ k e, txn !! k = Some e ∧ ∀ l, l ≠ e.1 →
    con (jdev j) (world st') l = apply_txn (take k txn) (con (jdev j) (world st)) l).
Proof.
  intros Hj Hd. pose proof Hj as [_ Hv Hlb _]. revert i st.
  induction n as [|n IH]; intros i st Hi; cbn [commit_loop seq]; [done|].
  rewrite fmap_cons.
  rewrite Hv by lia. specialize (Hlb i ltac:(lia)).
  destruct (dev_write _ _ _ _) as [r w] eqn:Hw.
  assert (∀ d l, registered d → d ≠ jdev j ∨ l ≠ je_lba (entries j i) →
    con d w l = con d (world st) l) as Hother.
  { intros d l Hreg Hne. eapply write1_other; [exact Hd|done|exact Hlb|exact Hw|done]. }
  destruct (Z.eqb_spec r 0) as [->|Hr]; cbn [negb].
  - assert (∀ l, con (jdev j) w l =
      (<[je_lba (entries j i) := je_data (entries j i)]> (con (jdev j) (world st))) l) as Hcon.
    { intros l. destruct (decide (l = je_lba (entries j i))) as [->|].
      - rewrite fn_lookup_insert. eapply write1_ok; [exact Hd|exact Hlb|exact Hw].
      - rewrite fn_lookup_insert_ne by done. auto. }
    specialize (IH (S i) (set_world w st) ltac:(lia)).
    destruct (commit_loop (S i) n j (set_world w st)) as [r st'].
    destruct IH as (Hc & Ho & H1 & H2). split_and!; [done| | |].
    + intros d l Hreg Hne. rewrite Ho by done. auto.
    + intros Hr l. rewrite H1, apply_txn_cons by done. by apply apply_txn_ext.
    + intros Hr. destruct (H2 Hr) as (k & e & Hk & Hl). exists (S k), e. split; [done|].
      intros l Hne. rewrite Hl by done. cbn [take].
      rewrite apply_txn_cons. by apply apply_txn_ext.
  - split_and!; [done|auto|done|]. intros _. eexists 0%nat, _. split; [done|].
    intros l Hne. simpl. auto.
Qed.

(** Several sectors added one after the other. *)
Fixpoint add_all (ws : list (Z * sector)) (j : journal D) : list Z * journal D :=
  match ws with
  | [] => ([], j)
  | (l, b) :: ws =>
      let '(r, j) := fat32_journal_add l b j in
      let '(rs, j) := add_all ws j in (r :: rs, j)
  end.

Lemma add_all_spec ws j :
  journal_inv j → active j = true → Forall (λ w, 0 ≤ w.1 < LBA_MAX) ws →
  let '(rs, j') := add_all ws j in
  journal_inv j' ∧ active j' = true ∧ jdev j' = jdev j ∧
  pending j' = take MAX_JOURNAL_ENTRIES (pending j ++ ws) ∧ length rs = length ws ∧
  ∀ i, (i < length ws)%nat →
    rs !! i = Some (if decide (length (pending j) + i < MAX_JOURNAL_ENTRIES)%nat
                    then 0 else LNXRM_ENOENT).
Proof.
  revert j. induction ws as [|[l b] ws IH]; intros j Hj Ha Hok; cbn [add_all].
  { split_and!; [done..| |done|intros; simpl in *; lia].
    rewrite app_nil_r, take_ge; [done|]. rewrite length_pending. apply Hj. }
  apply Forall_cons in Hok as [Hl Hok]. pose proof (add_spec l b j Hj Ha Hl) as Hadd.
  destruct (fat32_journal_add l b j) as [r j1]. destruct Hadd as (Hj1 & Ha1 & Hd1 & Hadd).
  specialize (IH j1 Hj1 Ha1 Hok). destruct (add_all ws j1) as [rs j2].
  destruct IH as (Hj2 & Ha2 & Hd2 & Hp2 & Hl2 & Hr2). rewrite Hd1 in Hd2.
  destruct (decide (length (pending j) < MAX_JOURNAL_ENTRIES)%nat) as [Hlt|Hge].
  - destruct Hadd as [-> Hp]. rewrite Hp, <- app_assoc in Hp2. split_and!; try done; [simpl; lia|].
    intros [|i] Hi; simpl in *; [by rewrite decide_True by lia|].
    rewrite Hr2 by lia. rewrite Hp, length_app. simpl. by rewrite <- Nat.add_assoc.
  - destruct Hadd as [-> ->]. pose proof (length_pending j) as Hlen. pose proof (ji_count j Hj).
    split_and!; try done; [|simpl; lia|].
    + rewrite Hp2. rewrite !take_app_ge by lia.
      by replace (MAX_JOURNAL_ENTRIES - length (pending j))%nat with 0%nat by lia.
    + intros [|i] Hi; simpl in *; [by rewrite decide_False by lia|].
      rewrite Hr2, !decide_False by lia. done.
Qed.

(** The value a transaction gives to a sector, if it writes it. *)
Definition txn_last (txn : list (Z * sector)) (l : Z) : option sector :=
  snd <$> last (filter (λ w, w.1 = l) txn).

Lemma apply_txn_last txn f l : apply_txn txn f l = default (f l) (txn_last txn l).
Proof.
  revert f. induction txn as [|[l' b] txn IH]; intros f; [done|].
  rewrite apply_txn_cons, IH. unfold txn_last. rewrite filter_cons. cbn [fst snd].
  destruct (decide (l' = l)) as [->|Hne].
  - rewrite last_cons, fn_lookup_insert. by destruct (last _).
  - by rewrite fn_lookup_insert_ne.
Qed.

Lemma apply_txn_idem txn f l : apply_txn txn (apply_txn txn f) l = apply_txn txn f l.
Proof. rewrite !apply_txn_last. by destruct (txn_last txn l). Qed.

Lemma apply_txn_app txn1 txn2 f : apply_txn (txn1 ++ txn2) f = apply_txn txn2 (apply_txn txn1 f).
Proof. apply foldl_app. Qed.

(** Writing to the device behind the cache's back keeps the cache coherent
    when what is written is what the cache shows. *)
Lemma commit_in_sync j st st1 :
  journal_inv j → registered (jdev j) → cache_inv st →
  (∀ l, apply_txn (pending j) (view st (jdev j)) l = view st (jdev j) l) →
  commit_loop 0 (jcount j) j st = (0, st1) →
  cache_inv st1 ∧ ∀ d l, registered d → view st1 d l = view st d l.
Proof.
  intros Hj Hd Hi Hsync Hc.
  pose proof (commit_loop_spec (jcount j) 0 j st Hj Hd ltac:(lia)) as Hloop. cbv zeta in Hloop.
  rewrite Hc in Hloop. destruct Hloop as (Hcache & Hother & Hcon & _).
  specialize (Hcon eq_refl). fold (pending j) in Hcon.
  assert (∀ d l, registered d → con d (world st) l = view st d l →
    con d (world st1) l = view st d l) as Hkeep.
  { intros d l Hreg Heq. destruct (decide (d = jdev j)) as [->|Hne]; [|by rewrite Hother].
    rewrite Hcon, apply_txn_last, Heq. by rewrite <- apply_txn_last, Hsync. }
  split.
  - split; rewrite Hcache; [apply Hi|apply Hi|]. intros i Hlt Hv Hdt.
    assert (hit (dev (cache st i)) (lba (cache st i)) (cache st i) = true) as Hh by by apply hit_spec.
    rewrite <- (view_hit st _ _ i Hi Hlt Hh). symmetry. apply Hkeep.
    { by apply (ci_dev st Hi). }
    rewrite (view_hit st _ _ i Hi Hlt Hh). symmetry. by apply (ci_clean st Hi).
  - intros d l Hreg. unfold view at 1. rewrite Hcache.
    destruct (for_find _ _ _) as [i|] eqn:E.
    + apply for_find_Some in E as (Hlt & Hh & _). symmetry. apply view_hit; [done|lia|done].
    + apply Hkeep; [done|]. unfold view. by rewrite E.
Qed.
End facts.

(** ** Transactions as FAT32 runs them

    FAT32 reads sectors through the cache, and every sector it changes is
    added to the journal and written through the cache. *)
Inductive txn_op := TRead (l : Z) (buf : sector) | TLog (l : Z) (b : sector).

Section transactions.
Context {W D : Type} `{EqDecision D} `{Disks W D}.

(** [fat32_journal_add(lba, buf); fat_write_sector(m, lba, buf);] *)
Definition journaled_write (l : Z) (b : sector) (j : journal D) (st : blk_state W D)
  : Z * Z * journal D * blk_state W D :=
  let '(r1, j) := fat32_journal_add l b j in
  let '(r2, st) := blk_cache_write (jdev j) l (Some b) st in
  (r1, r2, j, st).

(** The return codes of the logged writes and the final state. *)
Fixpoint run_txn (ops : list txn_op) (j : journal D) (st : blk_state W D)
  : list (Z * Z) * journal D * blk_state W D :=
  match ops with
  | [] => ([], j, st)
  | TRead l buf :: ops =>
      let '(_, _, st) := blk_cache_read (jdev j) l (Some buf) st in run_txn ops j st
  | TLog l b :: ops =>
      let '(r1, r2, j, st) := journaled_write l b j st in
      let '(rs, j, st) := run_txn ops j st in ((r1, r2) :: rs, j, st)
  end.
End transactions.

Definition op_lba (op : txn_op) : Z := match op with TRead l _ | TLog l _ => l end.
Definition logs (ops : list txn_op) : list (Z * sector) :=
  omap (λ op, match op with TLog l b => Some (l, b) | _ => None end) ops.

Section theorems.
Context {W D : Type} `{EqDecision D} `{DiskLaws W D}.
Implicit Types (j : journal D) (st : blk_state W D).

Lemma begin_spec j :
  active j = false →
  journal_inv (fat32_journal_begin j).2 ∧ active (fat32_journal_begin j).2 = true ∧
  jdev (fat32_journal_begin j).2 = jdev j ∧ pending (fat32_journal_begin j).2 = [].
Proof.
  intros Ha. unfold fat32_journal_begin. rewrite Ha. split_and!; try done.
  split; simpl; done || lia.
Qed.

Lemma run_txn_spec ops j st rs j' st' :
  journal_inv j → active j = true → registered (jdev j) → cache_inv st →
  Forall (λ op, 0 ≤ op_lba op < LBA_MAX) ops →
  run_txn ops j st = (rs, j', st') → Forall (λ r, r = (0, 0)) rs →
  journal_inv j' ∧ active j' = true ∧ jdev j' = jdev j ∧ cache_inv st' ∧
  pending j' = pending j ++ logs ops ∧
  ∀ d l, registered d → view st' d l =
    if decide (d = jdev j) then apply_txn (logs ops) (view st d) l else view st d l.
Proof.
  intros Hj Ha Hd Hi Hok. revert j st rs Hj Ha Hd Hi.
  induction Hok as [|op ops Hl Hok IH]; intros j st rs Hj Ha Hd Hi; cbn [run_txn].
  { intros [= <- <- <-] _. rewrite app_nil_r. split_and!; try done. by intros; destruct (decide _). }
  destruct op as [l buf|l b]; cbn [op_lba] in Hl.
  - pose proof (read_spec st (jdev j) l buf Hi Hd Hl) as Hr.
    destruct (blk_cache_read _ _ _ _) as [[r o] st1]. destruct Hr as (Hi1 & Hv1 & _).
    intros Hrun Hrs. destruct (IH j st1 rs Hj Ha Hd Hi1 Hrun Hrs) as (? & ? & ? & ? & ? & Hv).
    split_and!; try done. intros d l' Hreg. rewrite Hv by done.
    destruct (decide _); [|by apply Hv1]. by apply apply_txn_ext; auto.
  - unfold journaled_write. pose proof (add_spec l b j Hj Ha Hl) as Hadd.
    destruct (fat32_journal_add l b j) as [r1 j1]. destruct Hadd as (Hj1 & Ha1 & Hd1 & Hadd).
    pose proof (write_spec st (jdev j1) l b Hi ltac:(by rewrite Hd1) Hl) as Hw.
    destruct (blk_cache_write _ _ _ _) as [r2 st1]. destruct Hw as (Hi1 & Hv1).
    destruct (run_txn ops j1 st1) as [[rs1 j2] st2] eqn:Erun. intros [= <- <- <-].
    intros [[= -> ->] Hrs]%Forall_cons.
    destruct (decide (length (pending j) < MAX_JOURNAL_ENTRIES)%nat); [|by destruct Hadd].
    destruct Hadd as [_ Hp].
    destruct (IH j1 st1 rs1 Hj1 Ha1 ltac:(by rewrite Hd1) Hi1 Erun Hrs) as (? & ? & Hd2 & ? & Hp2 & Hv).
    rewrite Hd1 in *. split_and!; try done; [by rewrite Hp2, Hp, <- app_assoc|].
    intros d l' Hreg. rewrite Hv by done. change (logs (TLog l b :: ops)) with ((l, b) :: logs ops).
    destruct (decide (d = jdev j)) as [->|Hne].
    + rewrite apply_txn_cons. apply apply_txn_ext. intros l''. rewrite Hv1, decide_True by done.
      unfold set_view. cbn [fst snd]. destruct (decide (l'' = l)) as [->|].
      * by rewrite decide_True, fn_lookup_insert.
      * rewrite decide_False by tauto. by rewrite fn_lookup_insert_ne.
    + rewrite Hv1, decide_True by done. unfold set_view. by rewrite decide_False by tauto.
Qed.

(** C24. A transaction as FAT32 runs one, from an idle journal and a coherent cache:
    reads through the cache interleaved with sectors that are logged and
    written, then a commit.  When each of these reports success, the commit
    included, then the journal is idle, the cache is coherent although the
    commit wrote to the device behind its back, every device shows through the
    cache the old contents with the logged sectors applied in order, and the
    device itself had received every logged sector, in order, when the commit
    came to its final flush.  The device holds the transaction and everything
    written before it when that flush succeeds; the commit does not look at its
    result. *)
Theorem journal_transaction_applies ops j st rs j2 st2 j3 st3 :
  active j = false → registered (jdev j) → cache_inv st →
  Forall (λ op, 0 ≤ op_lba op < LBA_MAX) ops →
  run_txn ops (fat32_journal_begin j).2 st = (rs, j2, st2) → Forall (λ r, r = (0, 0)) rs →
  fat32_journal_commit j2 st2 = (0, j3, st3) →
  active j3 = false ∧ cache_inv st3 ∧
  (∀ d l, registered d → view st3 d l =
    if decide (d = jdev j) then apply_txn (logs ops) (view st d) l else view st d l) ∧
  ∃ st1, commit_loop 0 (jcount j2) j2 st2 = (0, st1) ∧ st3 = (blk_cache_flush (jdev j) st1).2 ∧
    (∀ l, con (jdev j) (world st1) l = apply_txn (logs ops) (con (jdev j) (world st2)) l) ∧
    ((blk_cache_flush (jdev j) st1).1 = 0 →
     ∀ l, con (jdev j) (world st3) l = apply_txn (logs ops) (view st (jdev j)) l).
Proof.
  intros Ha Hd Hi Hok Hrun Hrs. destruct (begin_spec j Ha) as (Hj1 & Ha1 & Hd1 & Hp1).
  destruct (run_txn_spec ops _ st rs j2 st2 Hj1 Ha1 ltac:(by rewrite Hd1) Hi Hok Hrun Hrs)
    as (Hj2 & Ha2 & Hd2 & Hi2 & Hp2 & Hv2).
  rewrite Hd1 in *. rewrite Hp1, app_nil_l in Hp2.
  unfold fat32_journal_commit. rewrite Ha2. cbn [negb].
  pose proof (commit_loop_spec (jcount j2) 0 j2 st2 Hj2 ltac:(by rewrite Hd2) ltac:(lia)) as Hloop. cbv zeta in Hloop. fold (pending j2) in Hloop.
  destruct (commit_loop 0 (jcount j2) j2 st2) as [r st1] eqn:Ec. destruct Hloop as (_ & _ & Hdev & _).
  destruct (Z.eqb_spec r 0) as [->|Hr]; cbn [negb fat32_journal_abort]; [|by intros [=]].
  destruct (commit_in_sync j2 st2 st1 Hj2 ltac:(by rewrite Hd2) Hi2) as [Hi1 Hv1]; [|exact Ec|].
  { intros l. rewrite Hp2, Hd2, (apply_txn_ext _ _ (apply_txn (logs ops) (view st (jdev j)))).
    - rewrite apply_txn_idem, Hv2 by done. by rewrite decide_True.
    - intros l'. rewrite Hv2 by done. by rewrite decide_True. }
  cbn [jdev]. pose proof (flush_spec st1 (jdev j2) Hi1 ltac:(by rewrite Hd2)) as Hf. rewrite Hd2 in *.
  destruct (blk_cache_flush (jdev j) st1) as [r st3'] eqn:Ef.
  destruct Hf as (Hi3 & Hv3 & Hcon). intros [= <- <-]. split_and!; [done|done| |].
  - intros d l Hreg. by rewrite Hv3, Hv1, Hv2.
  - exists st1. split; [done|]. rewrite Ef. cbn [fst snd]. split; [done|].
    split; [intros l; rewrite <- Hp2; by apply Hdev|]. intros Hr l.
    rewrite Hcon, Hv1, Hv2 by done. by rewrite decide_True.
Qed.

(** What a failed commit leaves behind, whatever the cache holds: the
    images before some failing one are on the device, that sector may hold
    anything, and the later ones are not written; the transaction is
    discarded. *)
Theorem journal_failed_commit j st r j' st' :
  journal_inv j → registered (jdev j) → active j = true →
  fat32_journal_commit j st = (r, j', st') → r ≠ 0 →
  active j' = false ∧ pending j' = [] ∧ cache st' = cache st ∧
  ∃ k e, pending j !! k = Some e ∧ ∀ l, l ≠ e.1 →
    con (jdev j) (world st') l = apply_txn (take k (pending j)) (con (jdev j) (world st)) l.
Proof.
  intros Hj Hd Ha. unfold fat32_journal_commit. rewrite Ha. cbn [negb].
  pose proof (commit_loop_spec (jcount j) 0 j st Hj Hd ltac:(lia)) as Hloop. cbv zeta in Hloop.
  destruct (commit_loop 0 (jcount j) j st) as [r1 st1]. destruct Hloop as (Hc & _ & _ & He).
  destruct (Z.eqb_spec r1 0) as [->|Hr]; cbn [negb fat32_journal_abort jdev].
  - destruct (blk_cache_flush _ _) as [? ?]. by intros [= <- <- <-].
  - intros [= <- <- <-] Hne. split_and!; [done..|]. by apply He.
Qed.

(** The journal is bounded: of the images added to one transaction the
    first 32 are kept, and each later add changes nothing and reports
    [LNXRM_ENOENT]. *)
Theorem journal_capacity (ws : list (Z * sector)) j rs j2 :
  active j = false → Forall (λ w, 0 ≤ w.1 < LBA_MAX) ws →
  add_all ws (fat32_journal_begin j).2 = (rs, j2) →
  pending j2 = take MAX_JOURNAL_ENTRIES ws ∧
  ∀ i, (i < length ws)%nat →
    rs !! i = Some (if decide (i < MAX_JOURNAL_ENTRIES)%nat then 0 else LNXRM_ENOENT).
Proof.
  intros Ha Hok Hadd. destruct (begin_spec j Ha) as (Hj1 & Ha1 & _ & Hp1).
  pose proof (add_all_spec ws _ Hj1 Ha1 Hok) as Hs. rewrite Hadd, Hp1 in Hs.
  destruct Hs as (_ & _ & _ & Hp & _ & Hr). by split.
Qed.
End theorems.

(** ** Witnesses *)

Module JournalDemo.
Definition j0 : journal unit :=
  fat32_journal_init tt (Journal 0 (λ _, JEntry 0 [] false) 0 false tt).
(** A disk whose sector 5 cannot be written, and an empty cache. *)
Definition st0 : blk_state ramdisk unit :=
  blk_cache_init tt (BlkState (λ _, Entry 0 [] true true true tt) (Ramdisk 8 [5] (λ l, [l]))).
Definition good : list txn_op := [TRead 3 []; TLog 3 [33]; TLog 4 [44]; TRead 6 []; TLog 3 [34]].
(** An open transaction whose second sector fails. *)
Definition j1 : journal unit :=
  (add_all [(3, [33]); (5, [55]); (4, [44])] (fat32_journal_begin j0).2).2.
(** The open transaction and the state [good] leads to. *)
Definition txn := run_txn good (fat32_journal_begin j0).2 st0.

Lemma j1_spec : journal_inv j1 ∧ active j1 = true.
Proof.
  split; [|reflexivity]. split; [unfold MAX_JOURNAL_ENTRIES; simpl; lia|..|done];
    intros [|[|[|i]]] Hi; try done; simpl in Hi; lia.
Qed.
Lemma good_ok : Forall (λ op, 0 ≤ op_lba op < LBA_MAX) good.
Proof. repeat constructor; simpl; unfold LBA_MAX; lia. Qed.
Lemma st0_inv : cache_inv st0.
Proof. apply init_spec. Qed.
End JournalDemo.

Lemma journal_transaction_applies_witness :
  active (fat32_journal_commit JournalDemo.txn.1.2 JournalDemo.txn.2).1.2 = false ∧
  view (fat32_journal_commit JournalDemo.txn.1.2 JournalDemo.txn.2).2 tt 3 = [34].
Proof.
  destruct (fat32_journal_commit JournalDemo.txn.1.2 JournalDemo.txn.2) as [[r j3] st3] eqn:Ec.
  assert ((fat32_journal_commit JournalDemo.txn.1.2 JournalDemo.txn.2).1.1 = 0) as E0
    by (vm_compute; reflexivity).
  rewrite Ec in E0. cbn [fst snd] in *. subst r.
  destruct (journal_transaction_applies JournalDemo.good JournalDemo.j0 JournalDemo.st0
    JournalDemo.txn.1.1 JournalDemo.txn.1.2 JournalDemo.txn.2 j3 st3 eq_refl (ram_registered _)
    JournalDemo.st0_inv JournalDemo.good_ok) as (Ha & _ & Hv & _).
  - unfold JournalDemo.txn. destruct (run_txn _ _ _) as [[? ?] ?]. reflexivity.
  - vm_compute. repeat constructor.
  - exact Ec.
  - split; [exact Ha|]. rewrite (Hv tt 3 (ram_registered _)). vm_compute. reflexivity.
Defined.

Lemma journal_failed_commit_witness :
  (fat32_journal_commit JournalDemo.j1 JournalDemo.st0).1.1 = LNXRM_EFAIL ∧
  active (fat32_journal_commit JournalDemo.j1 JournalDemo.st0).1.2 = false ∧
  con tt (world (fat32_journal_commit JournalDemo.j1 JournalDemo.st0).2) 3 = [33] ∧
  con tt (world (fat32_journal_commit JournalDemo.j1 JournalDemo.st0).2) 4 = [4].
Proof.
  split; [vm_compute; reflexivity|]. split; [|split; vm_compute; reflexivity].
  destruct (fat32_journal_commit JournalDemo.j1 JournalDemo.st0) as [[r j'] st'] eqn:E.
  assert ((fat32_journal_commit JournalDemo.j1 JournalDemo.st0).1.1 = LNXRM_EFAIL) as E0
    by (vm_compute; reflexivity).
  rewrite E in E0. cbn [fst] in E0.
  apply (journal_failed_commit JournalDemo.j1 JournalDemo.st0 r j' st'
    (proj1 JournalDemo.j1_spec) (ram_registered _) (proj2 JournalDemo.j1_spec) E).
  rewrite E0. discriminate.
Defined.

Lemma journal_capacity_witness :
  length (pending (add_all (replicate 40 (7, [])) (fat32_journal_begin JournalDemo.j0).2).2) = 32%nat.
Proof.
  destruct (journal_capacity (replicate 40 (7, [])) JournalDemo.j0 _ _ eq_refl
    ltac:(apply Forall_replicate; simpl; unfold LBA_MAX; lia) (surjective_pairing _)) as [Hp _].
  rewrite Hp. reflexivity.
Defined.
