(* ===== verification/Mbr.v ===== *)
(** The MBR partition table ([kernel/fs/mbr.c], [struct mbr_entry] and
    [struct mbr_info] of [include/disk.h]). *)
From S2P Require Import Prelude Bytes BlkDev.

Definition MBR_SIGNATURE : Z := 0xAA55.
Definition MBR_PARTITION_TABLE_OFFSET : nat := 446.
Definition MBR_PARTITION_ENTRY_SIZE : nat := 16.
Definition MBR_MAX_PARTITIONS : nat := 4.

Definition PART_TYPE_NONE : Z := 0x00.
Definition PART_TYPE_EXTENDED : Z := 0x05.
Definition PART_TYPE_EXT_LBA : Z := 0x0F.

(** The fields of [struct mbr_entry] the parser uses. *)
Record mbr_entry := MbrEntry { status : Z; e_ptype : Z; lba_first : Z; sectors_count : Z }.

Definition load_entry (sec : sector) (i : nat) : mbr_entry :=
  let off := (MBR_PARTITION_TABLE_OFFSET + i * MBR_PARTITION_ENTRY_SIZE)%nat in
  MbrEntry (byte_at sec off) (byte_at sec (off + 4)) (le32 sec (off + 8)) (le32 sec (off + 12)).

(** One element of [out->parts]. *)
Record part := Part { p_type : Z; p_lba_first : Z; p_sectors_count : Z; is_extended : bool }.

Record mbr_info (D : Type) := MbrInfo {
  mi_dev : D;
  total_sectors : Z;
  boot_ind : Z;
  parts : nat → part;
  part_count : nat;
}.
Arguments MbrInfo {D}.
Arguments mi_dev {D}.
Arguments total_sectors {D}.
Arguments boot_ind {D}.
Arguments parts {D}.
Arguments part_count {D}.

(** One round of the table loop. *)
Definition mbr_step {D} (sec : sector) (i : nat) (out : mbr_info D) : mbr_info D :=
  let e := load_entry sec i in
  if e_ptype e =? PART_TYPE_NONE then out else
  let p := Part (e_ptype e) (lba_first e) (sectors_count e)
             ((e_ptype e =? PART_TYPE_EXTENDED) || (e_ptype e =? PART_TYPE_EXT_LBA)) in
  MbrInfo (mi_dev out) (total_sectors out)
    (if negb (Z.land (status e) 0x80 =? 0) then u8 (Z.of_nat (part_count out)) else boot_ind out)
    (<[part_count out := p]> (parts out)) (S (part_count out)).

(** [num] is [dev->num_sectors]; [buf] is what the stack buffer held. *)
Definition mbr_parse {W D} `{Disks W D} (d : D) (num : Z) (buf : sector) (w : W)
  : Z * mbr_info D * W :=
  let out := MbrInfo d (u32 num) (u8 (-1)) (λ _, Part 0 0 0 false) 0 in
  let '(r, secs, w) := dev_read d 0 1 [buf] w in
  let sec := default [] (head secs) in
  if negb (r =? 0) then (LNXRM_EFAIL, out, w)
  else if negb (le16 sec 510 =? MBR_SIGNATURE) then (LNXRM_EFAIL, out, w)
  else (0, for_loop (mbr_step sec) 0 MBR_MAX_PARTITIONS out, w).

(** The device [mbr_get_partition] fills in; the allocation of its private
    part is the caller's [pd_alloc]. *)
Record part_blkdev (D : Type) := PartBlkdev {
  pb_name : list Z; pb_num_sectors : Z; pb_drv : part_dev D;
}.
Arguments PartBlkdev {D}.
Arguments pb_name {D}.
Arguments pb_num_sectors {D}.
Arguments pb_drv {D}.

(** Up to twelve characters of the parent's name and the partition's digit. *)
Definition part_name (parent_name : list Z) (index : Z) : list Z :=
  take 12 parent_name ++ [u8 (48 + index + 1)].

Definition mbr_get_partition {D} (mbr : mbr_info D) (index : Z) (parent : D)
    (parent_name : list Z) (pd_alloc : bool) : Z * option (part_blkdev D) :=
  if (index <? 0) || (Z.of_nat (part_count mbr) <=? index) then (LNXRM_EFAIL, None)
  else if negb pd_alloc then (LNXRM_EFAIL, None)
  else
    let p := parts mbr (Z.to_nat index) in
    (0, Some (PartBlkdev (part_name parent_name index) (p_sectors_count p)
                (PartDev parent (p_lba_first p) (p_sectors_count p)))).

(** ** The table as a list *)

Definition part_list {D} (m : mbr_info D) : list part := parts m <$> seq 0 (part_count m).

Definition entry_part (e : mbr_entry) : part :=
  Part (e_ptype e) (lba_first e) (sectors_count e)
    (bool_decide (e_ptype e = 0x05 ∨ e_ptype e = 0x0F)).

(** A disk image of a table, for the round trip: [img] supplies the boot code
    and the CHS bytes. *)
Definition store_entry (i : nat) (e : mbr_entry) (img : sector) : sector :=
  let off := (MBR_PARTITION_TABLE_OFFSET + i * MBR_PARTITION_ENTRY_SIZE)%nat in
  put32 (off + 12) (sectors_count e) (put32 (off + 8) (lba_first e)
    (put8 (off + 4) (e_ptype e) (put8 off (status e) img))).

Fixpoint store_table (i : nat) (es : list mbr_entry) (img : sector) : sector :=
  match es with
  | [] => img
  | e :: es => store_table (S i) es (store_entry i e img)
  end.

Definition mbr_image (es : list mbr_entry) (img : sector) : sector :=
  put16 510 MBR_SIGNATURE (store_table 0 es img).

Definition entry_ok (e : mbr_entry) : Prop :=
  0 ≤ status e < 256 ∧ 0 ≤ e_ptype e < 256 ∧
  0 ≤ lba_first e < 2 ^ 32 ∧ 0 ≤ sectors_count e < 2 ^ 32.

(** ** Round trip *)

Definition entry_off (i : nat) : nat := MBR_PARTITION_TABLE_OFFSET + i * MBR_PARTITION_ENTRY_SIZE.

Lemma load_entry_ext a b i :
  (∀ k, (entry_off i ≤ k < entry_off i + 16)%nat → byte_at a k = byte_at b k) →
  load_entry a i = load_entry b i.
Proof.
  intros H. unfold load_entry, le32, le16. cbv zeta. fold (entry_off i). by rewrite !H by lia.
Qed.

Lemma length_store_entry i e img : length (store_entry i e img) = length img.
Proof. unfold store_entry. by rewrite !length_put32, !length_put8. Qed.

Lemma store_entry_other i e img k :
  (k < entry_off i ∨ entry_off i + 16 ≤ k)%nat →
  byte_at (store_entry i e img) k = byte_at img k.
Proof.
  intros H. unfold store_entry. cbv zeta. fold (entry_off i).
  by rewrite !byte_at_put32_ne, !byte_at_put8_ne by lia.
Qed.

Lemma load_store_entry i e img :
  (entry_off i + 16 ≤ length img)%nat → entry_ok e → load_entry (store_entry i e img) i = e.
Proof.
  intros Hl (Hs & Ht & Hb & Hc). unfold load_entry, store_entry. cbv zeta. fold (entry_off i).
  destruct e as [s t b c]; cbn [status e_ptype lba_first sectors_count] in *. f_equal.
  - rewrite !byte_at_put32_ne, byte_at_put8_ne, byte_at_put8_eq by lia. apply u8_small. lia.
  - rewrite !byte_at_put32_ne, byte_at_put8_eq by (rewrite ?length_put8; lia). apply u8_small. lia.
  - rewrite le32_put32_ne, le32_put32 by (rewrite ?length_put8; lia). apply u32_small. lia.
  - rewrite le32_put32 by (rewrite ?length_put32, ?length_put8; lia). apply u32_small. lia.
Qed.

Lemma length_store_table es i img : length (store_table i es img) = length img.
Proof.
  revert i img. induction es as [|e es IH]; intros i img; simpl; [done|].
  by rewrite IH, length_store_entry.
Qed.

Lemma entry_off_lt i j : (i < j)%nat → (entry_off i + 16 ≤ entry_off j)%nat.
Proof. unfold entry_off, MBR_PARTITION_ENTRY_SIZE. lia. Qed.

Lemma load_store_table es i j e img :
  (entry_off (i + length es) ≤ length img)%nat → Forall entry_ok es → es !! j = Some e →
  load_entry (store_table i es img) (i + j) = e.
Proof.
  revert i j img. induction es as [|e' es IH]; intros i j img Hl Hok Hj; [done|].
  apply Forall_cons in Hok as [He Hok]. cbn [store_table length] in *. destruct j as [|j].
  - injection Hj as ->. rewrite Nat.add_0_r.
    assert (∀ es k img, (i < k)%nat →
      load_entry (store_table k es img) i = load_entry img i) as Hother.
    { clear. induction es as [|e es IH]; intros k img Hk; cbn [store_table]; [done|].
      rewrite IH by lia. apply load_entry_ext. intros b Hb. apply store_entry_other.
      pose proof (entry_off_lt i k Hk). lia. }
    rewrite Hother by lia. apply load_store_entry; [|done].
    pose proof (entry_off_lt i (i + S (length es)) ltac:(lia)). lia.
  - rewrite Nat.add_succ_r, <- Nat.add_succ_l. apply IH; try done.
    by rewrite length_store_entry, Nat.add_succ_l, <- Nat.add_succ_r.
Qed.

(** The used entries, and the index of the last active one among them. *)
Definition used_entries (es : list mbr_entry) : list mbr_entry :=
  filter (λ e, e_ptype e ≠ PART_TYPE_NONE) es.

Fixpoint boot_index (j : nat) (es : list mbr_entry) (b : Z) : Z :=
  match es with
  | [] => b
  | e :: es => boot_index (S j) es (if decide (Z.land (status e) 0x80 = 0) then b else Z.of_nat j)
  end.

Lemma boot_index_app j es e b :
  boot_index j (es ++ [e]) b =
    if decide (Z.land (status e) 0x80 = 0) then boot_index j es b else Z.of_nat (j + length es).
Proof.
  revert j b. induction es as [|e' es IH]; intros j b; simpl; [by rewrite Nat.add_0_r|].
  rewrite IH. by rewrite Nat.add_succ_r.
Qed.

Lemma extended_flag t :
  (t =? PART_TYPE_EXTENDED) || (t =? PART_TYPE_EXT_LBA) = bool_decide (t = 0x05 ∨ t = 0x0F).
Proof.
  unfold PART_TYPE_EXTENDED, PART_TYPE_EXT_LBA. symmetry.
  destruct (Z.eqb_spec t 0x05), (Z.eqb_spec t 0x0F); simpl;
    first [apply bool_decide_true; tauto|apply bool_decide_false; tauto].
Qed.

Lemma mbr_loop_spec {D} sec n (out : mbr_info D) :
  (n ≤ 4)%nat → part_count out = 0%nat → boot_ind out = 255 →
  let es := used_entries (load_entry sec <$> seq 0 n) in
  let out' := for_loop (mbr_step sec) 0 n out in
  part_count out' = length es ∧ part_list out' = entry_part <$> es ∧
  boot_ind out' = boot_index 0 es 255 ∧ mi_dev out' = mi_dev out ∧
  total_sectors out' = total_sectors out.
Proof.
  intros Hn Hc Hb. cbv zeta.
  apply (for_loop_ind (λ k x, (k ≤ n)%nat →
    let es := used_entries (load_entry sec <$> seq 0 k) in
    part_count x = length es ∧ part_list x = entry_part <$> es ∧
    boot_ind x = boot_index 0 es 255 ∧ mi_dev x = mi_dev out ∧ total_sectors x = total_sectors out)
    (mbr_step sec) 0 n out); [|..|lia].
  - intros _. unfold part_list. by rewrite Hc.
  - intros k x Hk IH HSk. specialize (IH ltac:(lia)). cbv zeta in *.
    destruct IH as (IHc & IHp & IHb & IHd & IHt).
    rewrite seq_S, fmap_app. unfold used_entries in *. rewrite filter_app. cbn [fmap list_fmap].
    rewrite Nat.add_0_l. set (es := filter _ _) in *. rewrite filter_cons, filter_nil.
    unfold mbr_step. set (e := load_entry sec k).
    destruct (Z.eqb_spec (e_ptype e) PART_TYPE_NONE) as [Hz|Hnz].
    { rewrite decide_False by (intros Hne; by apply Hne). rewrite app_nil_r. by split_and!. }
    rewrite decide_True by done. cbn [part_count boot_ind mi_dev total_sectors].
    assert (length es ≤ k)%nat as Hlen.
    { unfold es. rewrite length_filter. by rewrite length_fmap, length_seq. }
    rewrite fmap_app, length_app, boot_index_app, IHc. cbn [length]. split_and!; try done; [lia|..].
    + unfold part_list in *. cbn [part_count parts]. rewrite seq_S, fmap_app, <- IHp, IHc. f_equal.
      * apply list_fmap_ext. intros i j Hj%lookup_seq. by rewrite fn_lookup_insert_ne by lia.
      * cbn [fmap list_fmap]. rewrite Nat.add_0_l, fn_lookup_insert. unfold entry_part.
        by rewrite extended_flag.
    + destruct (Z.eqb_spec (Z.land (status e) 128) 0) as [Hs|Hs]; cbn [negb].
      * by rewrite decide_True.
      * rewrite decide_False by done. apply u8_small. simpl. lia.
Qed.

(** C36. Reading back a partition table: for a device whose sector 0 carries the
    boot signature and the four entries [es], [mbr_parse] succeeds exactly when
    the device delivers the sector, and then reports the entries with a
    partition type, in table order with their extents, and as boot index the
    last active one among them (255 when there is none). *)
Theorem mbr_parse_roundtrip {W D} `{DiskLaws W D} (d : D) num buf img es w r out w' :
  registered d → length img = 512%nat → length es = 4%nat → Forall entry_ok es →
  con d w 0 = mbr_image es img → mbr_parse d num buf w = (r, out, w') →
  w' = (dev_read d 0 1 [buf] w).2 ∧
  if decide ((dev_read d 0 1 [buf] w).1.1 = 0)
  then r = 0 ∧ part_list out = entry_part <$> used_entries es ∧ boot_ind out = boot_index 0 (used_entries es) 255
  else r = LNXRM_EFAIL ∧ part_list out = [].
Proof.
  intros Hd Himg Hes Hok Hcon. unfold mbr_parse.
  destruct (dev_read d 0 1 [buf] w) as [[r1 secs] w1] eqn:Hrd. cbn [fst snd].
  destruct (Z.eqb_spec r1 0) as [->|Hr]; cbn [negb].
  2: { intros [= <- <- <-]. by rewrite decide_False. }
  apply read1_ok in Hrd as ->; [|done|unfold LBA_MAX; lia]. rewrite Hcon. cbn [default head].
  assert (le16 (mbr_image es img) 510 = MBR_SIGNATURE) as Hsig.
  { unfold mbr_image. rewrite le16_put16; [done|]. rewrite length_store_table. lia. }
  cbn [from_option id]. rewrite Hsig, Z.eqb_refl. cbn [negb]. intros [= <- <- <-]. split; [done|]. rewrite decide_True by done. split; [done|].
  set (out0 := MbrInfo _ _ _ _ _).
  destruct (mbr_loop_spec (mbr_image es img) 4 out0) as (_ & Hp & Hb & _); [done..|].
  assert (load_entry (mbr_image es img) <$> seq 0 4 = es) as Hload.
  { apply list_eq. intros i. rewrite list_lookup_fmap. destruct (es !! i) as [e|] eqn:E.
    - pose proof (lookup_lt_Some _ _ _ E). rewrite lookup_seq_lt by lia. simpl. f_equal.
      rewrite <- (load_store_table es 0 i e img); [|rewrite Hes, Himg; vm_compute; lia|done|done].
      apply load_entry_ext. intros k Hk. apply byte_at_put16_ne.
      unfold entry_off, MBR_PARTITION_TABLE_OFFSET, MBR_PARTITION_ENTRY_SIZE in Hk. lia.
    - apply lookup_ge_None in E. by rewrite lookup_seq_ge by lia. }
  rewrite Hload in Hp, Hb. by rewrite <- Hp, <- Hb.
Qed.

(** A bootable FAT32 partition in the second slot and a swap one in the
    fourth. *)
Definition demo_entries : list mbr_entry :=
  [MbrEntry 0 0 0 0; MbrEntry 0x80 0x0C 2048 65536; MbrEntry 0 0 0 0; MbrEntry 0 0x82 67584 4096].

Lemma mbr_parse_roundtrip_witness :
  part_list (mbr_parse (W := ramdisk) tt 100000 []
    (Ramdisk 100000 [] (λ _, mbr_image demo_entries (replicate 512 0)))).1.2 =
    [Part 0x0C 2048 65536 false; Part 0x82 67584 4096 false].
Proof.
  destruct (mbr_parse_roundtrip (W := ramdisk) tt 100000 [] (replicate 512 0) demo_entries
    (Ramdisk 100000 [] (λ _, mbr_image demo_entries (replicate 512 0))) _ _ _
    (ram_registered tt) ltac:(reflexivity) ltac:(reflexivity)
    ltac:(repeat constructor; simpl; lia) ltac:(reflexivity)
    (eq_trans (surjective_pairing _) (f_equal (λ p, (p, _)) (surjective_pairing _))))
    as [_ Hp].
  rewrite decide_True in Hp by (vm_compute; reflexivity). exact (proj1 (proj2 Hp)).
Defined.
