(* ===== verification/FatName.v ===== *)
(** FAT32 file names: 8.3 short names and long-name records
    ([include/fat32_priv.h], [kernel/fs/fat32/fat32_dir.c] and
    [kernel/fs/fat32/fat32_meta.c]).

    A name is the list of its bytes without the terminating zero. *)
From S2P Require Import Prelude Bytes Cstring.

Definition SPACE : Z := 32.
Definition DOT : Z := 46.
Definition SLASH : Z := 47.

Definition ascii_toupper (c : Z) : Z := if (97 <=? c) && (c <=? 122) then c - 32 else c.
Definition ascii_tolower (c : Z) : Z := if (65 <=? c) && (c <=? 90) then c + 32 else c.

(** ** Short names *)

(** The first loop of [name_to_short]: up to [n] characters in front of a dot,
    and what is left of the name. *)
Fixpoint upto_dot (n : nat) (s : list Z) : list Z * list Z :=
  match n, s with
  | S n', c :: s' =>
      if c =? DOT then ([], s)
      else let '(b, r) := upto_dot n' s' in (ascii_toupper c :: b, r)
  | _, _ => ([], s)
  end.

(** The field filled with blanks to its width ([memset(out, ' ', 11)]). *)
Definition pad (n : nat) (l : list Z) : list Z := l ++ replicate (n - length l) SPACE.

Definition name_to_short (s : list Z) : list Z :=
  let '(base, rest) := upto_dot 8 s in
  let ext := match rest with
             | c :: r => if c =? DOT then ascii_toupper <$> take 3 r else []
             | [] => []
             end in
  pad 8 base ++ pad 3 ext.

(** The characters in front of the first blank. *)
Fixpoint upto_space (l : list Z) : list Z :=
  match l with
  | c :: l' => if c =? SPACE then [] else ascii_tolower c :: upto_space l'
  | [] => []
  end.

Definition fat_short_to_name (sn : list Z) : list Z :=
  let ext := upto_space (take 3 (drop 8 sn)) in
  upto_space (take 8 sn) ++ (if decide (ext = []) then [] else DOT :: ext).

(** The stored byte is compared as a signed [char] with the unsigned bytes of
    the alias. *)
Definition fat_name_eq_short (want ename : list Z) : bool :=
  let s := name_to_short want in
  forallb (λ i, i8 (ascii_toupper (byte_at ename i)) =? byte_at s i) (seq 0 11).

Definition lfn_checksum (sn : list Z) : Z :=
  for_loop (λ i sum, u8 (Z.shiftl (Z.land sum 1) 7 + Z.shiftr sum 1 + byte_at sn i)) 0 11 0.

(** The case-insensitive comparison of whole names ([strcasecmp]). *)
Definition name_case (s : list Z) : list Z := (λ c, tolower (i8 c)) <$> s.
Definition names_equal (a b : list Z) : bool := bool_decide (name_case a = name_case b).

(** Number of long-name records a name needs; negative when it cannot be
    stored. *)
Definition fat_lfn_count (name : list Z) : Z :=
  let len := Z.of_nat (length name) in
  if (len =? 0) || (255 <? len) then -1
  else if names_equal (fat_short_to_name (name_to_short name)) name then 0
  else (len + 12) / 13.

(** ** Long-name records *)

Definition DIRENT_SIZE : nat := 32.
Definition ATTR_LFN : Z := 0x0F.
Definition lfn_offs : list nat := [1; 3; 5; 7; 9; 14; 16; 18; 20; 22; 24; 28; 30]%nat.

(** The 16-bit character a record stores at position [idx] of the name. *)
Definition lfn_ch (name : list Z) (idx : nat) : Z :=
  if (idx <? length name)%nat then u8 (byte_at name idx)
  else if (idx =? length name)%nat then 0
  else 0xFFFF.

Fixpoint fill_chars (offs : list nat) (idx : nat) (name raw : list Z) : list Z :=
  match offs with
  | [] => raw
  | o :: offs => fill_chars offs (S idx) name (put16 o (lfn_ch name idx) raw)
  end.

(** [lfn_fill(e, seq, total, sum, name)]: the 32 bytes of the record. *)
Definition lfn_fill (seq total sum : Z) (name : list Z) : list Z :=
  let raw := replicate DIRENT_SIZE 0 in
  let raw := put8 0 (if seq =? total then Z.lor seq 0x40 else seq) raw in
  let raw := fill_chars lfn_offs (Z.to_nat ((seq - 1) * 13)) name raw in
  put8 27 0 (put8 26 0 (put8 13 sum (put8 12 0 (put8 11 ATTR_LFN raw)))).

(** ** Reassembly, as [fat_scan_dir] does it *)

Record lfn_state := Lfn { longname : list Z; seq_max : Z; name_end : Z }.

Definition LONGNAME_SIZE : nat := 256.

Definition lfn_reset (lf : lfn_state) : lfn_state := Lfn (<[0%nat := 0]> (longname lf)) 0 0.

(** The characters of one record; 0xFFFF and 0 end it. *)
Fixpoint lfn_piece (offs : list nat) (raw : list Z) : list Z :=
  match offs with
  | [] => []
  | o :: offs =>
      let ch := le16 raw o in
      if (ch =? 0xFFFF) || (ch =? 0) then [] else u8 ch :: lfn_piece offs raw
  end.

Definition lfn_add (raw : list Z) (lf : lfn_state) : lfn_state :=
  let seq := Z.land (byte_at raw 0) 0x1F in
  if (1 <=? seq) && (seq <=? 20) then
    let piece := lfn_piece lfn_offs raw in
    let base := Z.to_nat ((seq - 1) * 13) in
    let fin := (base + length piece)%nat in
    let fits := (fin <? LONGNAME_SIZE)%nat in
    Lfn (if fits then take base (longname lf) ++ piece ++ drop fin (longname lf) else longname lf)
        (Z.max (seq_max lf) seq)
        (if fits then Z.max (name_end lf) (Z.of_nat fin) else name_end lf)
  else lf.

(** The name an 8.3 record is reported under. *)
Definition lfn_name (lf : lfn_state) (sn : list Z) : list Z :=
  if (0 <? seq_max lf) && (0 <? name_end lf)
  then take (Nat.min (Z.to_nat (name_end lf)) (LONGNAME_SIZE - 1)) (longname lf)
  else fat_short_to_name sn.
