(* ===== verification/FatNameFacts.v ===== *)
(** Round trips of FAT32 names: 8.3 aliases, and long names cut into records
    and reassembled. *)
From Stdlib Require Import Sorted.
From S2P Require Import Prelude Bytes Cstring FatName.

(** ** Short names *)

Lemma lower_upper c : ascii_tolower (ascii_toupper c) = ascii_tolower c.
Proof.
  unfold ascii_tolower, ascii_toupper.
  repeat case_match; bool_split; lia.
Qed.

Lemma upper_not_space c : c ≠ SPACE → ascii_toupper c ≠ SPACE.
Proof. unfold ascii_toupper, SPACE. case_match; bool_split; lia. Qed.

Lemma upto_dot_spec n s r :
  (length s ≤ n)%nat → Forall (λ c, c ≠ DOT) s → r = [] ∨ head r = Some DOT →
  upto_dot n (s ++ r) = (ascii_toupper <$> s, r).
Proof.
  revert n. induction s as [|c s IH]; intros n Hn Hs Hr; simpl in *.
  - destruct Hr as [->|Hr]; [by destruct n|]. destruct r as [|x r]; [done|].
    injection Hr as ->. by destruct n.
  - destruct n as [|n]; [lia|]. apply Forall_cons in Hs as [Hc Hs]. simpl.
    rewrite (proj2 (Z.eqb_neq c DOT)) by done. by rewrite IH by (done || lia).
Qed.

Lemma upto_space_pad n s :
  Forall (λ c, c ≠ SPACE) s → (length s ≤ n)%nat →
  upto_space (take n (pad n (ascii_toupper <$> s))) = ascii_tolower <$> s.
Proof.
  intros Hs Hn. unfold pad. rewrite take_ge by (rewrite length_app, length_replicate, length_fmap; lia).
  rewrite length_fmap. generalize (n - length s)%nat as k. clear Hn. intros k.
  induction Hs as [|c s Hc Hs IH].
  - by destruct k.
  - rewrite !fmap_cons. cbn [app upto_space]. rewrite (proj2 (Z.eqb_neq _ _)) by by apply upper_not_space.
    by rewrite lower_upper, IH.
Qed.

Lemma length_pad n l : (length l ≤ n)%nat → length (pad n l) = n.
Proof. intros H. unfold pad. rewrite length_app, length_replicate. lia. Qed.

(** The display form of an 8.3 name. *)
Definition join83 (base ext : list Z) : list Z :=
  base ++ (if decide (ext = []) then [] else DOT :: ext).

Lemma name_to_short_join base ext :
  (length base ≤ 8)%nat → (length ext ≤ 3)%nat → Forall (λ c, c ≠ DOT) base →
  name_to_short (join83 base ext) = pad 8 (ascii_toupper <$> base) ++ pad 3 (ascii_toupper <$> ext).
Proof.
  intros Hb He Hd. unfold name_to_short, join83.
  rewrite upto_dot_spec; [|done|done|by destruct (decide _); [left|right]].
  destruct (decide (ext = [])) as [->|Hne]; [done|].
  rewrite Z.eqb_refl, take_ge by done. done.
Qed.

Lemma lower_case_blind s :
  Forall (λ c, 0 < c < 128) s → names_equal (ascii_tolower <$> s) s = true.
Proof.
  intros Hs. unfold names_equal. apply bool_decide_eq_true. unfold name_case.
  induction Hs as [|c s Hc Hs IH]; [done|]. rewrite !fmap_cons, IH. f_equal.
  unfold tolower, ascii_tolower, i8.
  repeat case_match; rewrite ?sgn_small in * by (bool_split; lia); bool_split; lia.
Qed.

(** An 8.3 name survives the alias: for a base of at most eight and an
    extension of at most three characters (no dot in the base, no blanks), the
    alias [name_to_short] builds is eleven bytes and [fat_short_to_name] gives
    the name back in lower case, so that [fat_lfn_count] asks for no
    long-name record. *)
Theorem short_name_roundtrip base ext :
  (1 ≤ length base ≤ 8)%nat → (length ext ≤ 3)%nat →
  Forall (λ c, 0 < c < 128 ∧ c ≠ SPACE ∧ c ≠ DOT) base →
  Forall (λ c, 0 < c < 128 ∧ c ≠ SPACE) ext →
  length (name_to_short (join83 base ext)) = 11%nat ∧
  fat_short_to_name (name_to_short (join83 base ext)) = ascii_tolower <$> join83 base ext ∧
  fat_lfn_count (join83 base ext) = 0.
Proof.
  intros Hb He Hbc Hec.
  assert (Forall (λ c, 0 < c < 128) (join83 base ext)) as Hascii.
  { apply Forall_app. split; [by eapply Forall_impl; [exact Hbc|]; naive_solver|].
    destruct (decide _); [done|]. constructor; [done|].
    by eapply Forall_impl; [exact Hec|]; naive_solver. }
  assert (fat_short_to_name (name_to_short (join83 base ext)) =
    ascii_tolower <$> join83 base ext) as Hback.
  { rewrite name_to_short_join; [|lia|done|by eapply Forall_impl; [exact Hbc|]; naive_solver].
    unfold fat_short_to_name. pose proof (length_pad 8 (ascii_toupper <$> base)) as Hl8.
    rewrite length_fmap in Hl8. specialize (Hl8 ltac:(lia)).
    rewrite take_app_le by lia. rewrite drop_app_ge by lia. rewrite Hl8. cbn [Nat.sub]. rewrite drop_0.
    rewrite !upto_space_pad; [..|done| |lia];
      [|by eapply Forall_impl; [exact Hec|]; naive_solver
       |by eapply Forall_impl; [exact Hbc|]; naive_solver].
    unfold join83. rewrite fmap_app. f_equal. by destruct ext. }
  split_and!.
  - rewrite name_to_short_join; [|lia|done|by eapply Forall_impl; [exact Hbc|]; naive_solver].
    by rewrite length_app, !length_pad by (rewrite length_fmap; lia).
  - done.
  - unfold fat_lfn_count. rewrite Hback, lower_case_blind by done.
    assert (1 ≤ length (join83 base ext) ≤ 12)%nat as Hlen.
    { unfold join83. rewrite length_app. destruct (decide _); simpl; lia. }
    by destruct ((_ =? 0) || (255 <? _)) eqn:E; [bool_split; lia|].
Qed.

Lemma short_name_roundtrip_witness :
  fat_short_to_name (name_to_short (join83 [82; 101; 97; 100; 77; 101] [84; 120; 116])) =
    [114; 101; 97; 100; 109; 101; 46; 116; 120; 116].
Proof.
  destruct (short_name_roundtrip [82; 101; 97; 100; 77; 101] [84; 120; 116]) as (_ & H & _).
  - simpl. lia.
  - simpl. lia.
  - repeat constructor; unfold SPACE, DOT; lia.
  - repeat constructor; unfold SPACE, DOT; lia.
  - rewrite H. reflexivity.
Defined.

(** ** Long names *)

(** Characters that can be stored: not the terminator. *)
Definition name_ok (name : list Z) : Prop := Forall (λ c, 0 < c < 256) name.

Lemma lfn_ch_range name idx : 0 ≤ lfn_ch name idx < 2 ^ 16.
Proof.
  unfold lfn_ch. pose proof (u8_range (byte_at name idx)). repeat case_match; lia.
Qed.

Lemma length_fill_chars offs idx name raw : length (fill_chars offs idx name raw) = length raw.
Proof.
  revert idx raw. induction offs as [|o offs IH]; intros idx raw; simpl; [done|].
  by rewrite IH, length_put16.
Qed.

Lemma fill_chars_other offs idx name raw i :
  Forall (λ o, i < o ∨ o + 2 ≤ i)%nat offs →
  byte_at (fill_chars offs idx name raw) i = byte_at raw i.
Proof.
  revert idx raw. induction offs as [|o offs IH]; intros idx raw Hi; simpl; [done|].
  apply Forall_cons in Hi as [Ho Hi]. by rewrite IH, byte_at_put16_ne by done.
Qed.

Lemma fill_chars_at offs idx name raw k o :
  StronglySorted (λ a b, a + 2 ≤ b)%nat offs → Forall (λ o, o + 2 ≤ length raw)%nat offs →
  offs !! k = Some o → le16 (fill_chars offs idx name raw) o = lfn_ch name (idx + k).
Proof.
  intros Hs. revert idx raw k. induction Hs as [|o' offs Hs IH Hall]; intros idx raw k Hl Hk; [done|].
  apply Forall_cons in Hl as [Ho Hl]. cbn [fill_chars]. destruct k as [|k].
  - injection Hk as ->. unfold le16. rewrite !fill_chars_other.
    + fold (le16 (put16 o (lfn_ch name idx) raw) o). rewrite le16_put16 by done.
      rewrite Nat.add_0_r. apply u16_small, lfn_ch_range.
    + eapply Forall_impl; [exact Hall|]. simpl. lia.
    + eapply Forall_impl; [exact Hall|]. simpl. lia.
  - rewrite (IH (S idx) _ k); [f_equal; lia| |done].
    eapply Forall_impl; [exact Hl|]. intros x. by rewrite length_put16.
Qed.

Lemma lfn_offs_sorted : StronglySorted (λ a b, a + 2 ≤ b)%nat lfn_offs.
Proof. repeat constructor; lia. Qed.

Lemma lfn_fill_ch seq total sum name k o :
  lfn_offs !! k = Some o →
  le16 (lfn_fill seq total sum name) o = lfn_ch name (Z.to_nat ((seq - 1) * 13) + k).
Proof.
  intros Hk. unfold lfn_fill.
  assert (o ∈ lfn_offs) as Hin by (eapply list_elem_of_lookup_2; exact Hk).
  assert ((o ≠ 11 ∧ o ≠ 12 ∧ o ≠ 13 ∧ o ≠ 26 ∧ o ≠ 27 ∧
    o + 1 ≠ 11 ∧ o + 1 ≠ 12 ∧ o + 1 ≠ 13 ∧ o + 1 ≠ 26 ∧ o + 1 ≠ 27)%nat) as Hne.
  { unfold lfn_offs in Hin. rewrite !elem_of_cons, elem_of_nil in Hin. lia. }
  unfold le16. rewrite !byte_at_put8_ne by lia.
  rewrite <- (fill_chars_at lfn_offs _ name (put8 0 (if seq =? total then Z.lor seq 0x40 else seq)
    (replicate DIRENT_SIZE 0)) k o lfn_offs_sorted); [done| |done].
  repeat constructor; unfold DIRENT_SIZE; simpl; lia.
Qed.

Lemma lfn_piece_spec offs idx name raw :
  name_ok name → (∀ k o, offs !! k = Some o → le16 raw o = lfn_ch name (idx + k)) →
  lfn_piece offs raw = take (length offs) (drop idx name).
Proof.
  intros Hn. revert idx. induction offs as [|o offs IH]; intros idx Ho; [done|].
  cbn [lfn_piece length]. rewrite (Ho 0%nat o) by done. rewrite Nat.add_0_r. unfold lfn_ch.
  destruct (Nat.ltb_spec idx (length name)) as [Hlt|Hge].
  - destruct (lookup_lt_is_Some_2 name idx Hlt) as [c Hc].
    pose proof (Forall_lookup_1 _ _ _ _ Hn Hc) as Hr. simpl in Hr.
    unfold byte_at. rewrite Hc. cbn [default from_option id]. rewrite !u8_small by (rewrite ?u8_small; lia).
    rewrite (proj2 (Z.eqb_neq c 65535)), (proj2 (Z.eqb_neq c 0)) by lia. cbn [orb].
    rewrite (drop_S _ c) by done. cbn [take]. f_equal. apply IH. intros k o' Hk.
    rewrite (Ho (S k) o') by done. f_equal. lia.
  - rewrite drop_ge by lia. rewrite take_nil. by destruct (idx =? length name)%nat.
Qed.

(** The sequence number survives the 0x40 mark. *)
Lemma lfn_seq seq total sum name :
  1 ≤ seq ≤ 20 → Z.land (byte_at (lfn_fill seq total sum name) 0) 0x1F = seq.
Proof.
  intros Hs. unfold lfn_fill. rewrite !byte_at_put8_ne by lia.
  rewrite fill_chars_other by (repeat constructor; lia).
  rewrite byte_at_put8_eq by (simpl; lia).
  assert (forallb (λ q, (Z.land (u8 (Z.lor q 0x40)) 0x1F =? q) && (Z.land (u8 q) 0x1F =? q))
    (seqZ 1 20) = true) as Hall by reflexivity.
  rewrite forallb_forall in Hall. specialize (Hall seq).
  assert (In seq (seqZ 1 20)) as Hin by (apply list_elem_of_In, elem_of_seqZ; lia).
  specialize (Hall Hin). bool_split. by destruct (seq =? total).
Qed.

(** Where the buffer already holds the name. *)
Definition holds (name : list Z) (from : nat) (buf : list Z) : Prop :=
  ∀ i, (from ≤ i < length name)%nat → buf !! i = name !! i.

Lemma lfn_add_spec name seq total sum lf :
  name_ok name → (length name ≤ 255)%nat → 1 ≤ seq ≤ 20 →
  13 * (seq - 1) < Z.of_nat (length name) → length (longname lf) = LONGNAME_SIZE →
  holds name (Z.to_nat (13 * seq)) (longname lf) →
  let lf' := lfn_add (lfn_fill seq total sum name) lf in
  length (longname lf') = LONGNAME_SIZE ∧
  holds name (Z.to_nat (13 * (seq - 1))) (longname lf') ∧
  seq_max lf' = Z.max (seq_max lf) seq ∧
  name_end lf' = Z.max (name_end lf) (Z.min (13 * seq) (Z.of_nat (length name))).
Proof.
  intros Hn Hlen Hs Hb Hbuf Hh. unfold LONGNAME_SIZE in *. cbv zeta. unfold lfn_add.
  rewrite lfn_seq by done.
  rewrite (proj2 (Z.leb_le 1 seq)), (proj2 (Z.leb_le seq 20)) by lia. cbn [andb].
  rewrite (lfn_piece_spec _ (Z.to_nat ((seq - 1) * 13)) name); [|done|by intros; apply lfn_fill_ch].
  change (length lfn_offs) with 13%nat. set (base := Z.to_nat ((seq - 1) * 13)).
  rewrite length_take, length_drop.
  replace (base + Nat.min 13 (length name - base))%nat
    with (Nat.min (base + 13) (length name)) by lia.
  rewrite (proj2 (Nat.ltb_lt _ _)) by (unfold LONGNAME_SIZE; lia). cbn [longname seq_max name_end].
  split_and!; [| |done|lia].
  - rewrite !length_app, length_take, length_take, !length_drop. unfold LONGNAME_SIZE. lia.
  - intros i Hi. replace (Z.to_nat (13 * (seq - 1))) with base in Hi by lia.
    rewrite lookup_app_r by (rewrite length_take; lia). rewrite length_take.
    replace (Nat.min base (length (longname lf))) with base by lia.
    destruct (decide (i < base + 13)%nat).
    + rewrite lookup_app_l by (rewrite length_take, length_drop; lia).
      rewrite lookup_take_lt, lookup_drop by lia. f_equal. lia.
    + rewrite lookup_app_r by (rewrite length_take, length_drop; lia).
      rewrite length_take, length_drop, lookup_drop.
      rewrite <- (Hh i) by lia. f_equal. lia.
Qed.

(** The records with the sequence numbers [k], ..., 1 of a name, one after the
    other. *)
Fixpoint lfn_run (k : nat) (total sum : Z) (name : list Z) : list (list Z) :=
  match k with
  | O => []
  | S k' => lfn_fill (Z.of_nat k) total sum name :: lfn_run k' total sum name
  end.

(** Reading them completes the name, whatever the buffer held in front. *)
Lemma lfn_run_fold name total sum k : ∀ lf,
  name_ok name → (length name ≤ 255)%nat → (k ≤ 20)%nat → (0 < k)%nat → 13 * (Z.of_nat k - 1) < Z.of_nat (length name) →
  length (longname lf) = LONGNAME_SIZE → holds name (13 * k) (longname lf) →
  let lf' := foldl (λ lf raw, lfn_add raw lf) lf (lfn_run k total sum name) in
  length (longname lf') = LONGNAME_SIZE ∧ holds name 0 (longname lf') ∧ seq_max lf' = Z.max (seq_max lf) (Z.of_nat k) ∧
  name_end lf' = Z.max (name_end lf) (Z.min (13 * Z.of_nat k) (Z.of_nat (length name))).
Proof.
  induction k as [|k IH]; intros lf Hn Hlen Hk Hk0 Hb Hbuf Hh; [lia|]. cbn [lfn_run foldl].
  destruct (lfn_add_spec name (Z.of_nat (S k)) total sum lf) as (H1 & H2 & H3 & H4); [done|lia|lia|lia|done| |].
  { by replace (Z.to_nat (13 * Z.of_nat (S k))) with (13 * S k)%nat by lia. }
  set (lf1 := lfn_add _ lf) in *. replace (Z.to_nat (13 * (Z.of_nat (S k) - 1))) with (13 * k)%nat in H2 by lia.
  destruct (decide (k = 0%nat)) as [->|Hne].
  - cbn [lfn_run foldl]. split_and!; [done|done|lia|lia].
  - destruct (IH lf1) as (J1 & J2 & J3 & J4); [done|lia|lia|lia|lia|done|done|]. split_and!; [done|done|lia|lia].
Qed.

(** A name of 1 to 255 nonzero bytes, in as many records as it needs, is
    read back from a state in which nothing was collected. *)
Lemma lfn_run_name name sum lf sn k : name_ok name → (1 ≤ length name ≤ 255)%nat → length (longname lf) = LONGNAME_SIZE →
  seq_max lf = 0 → name_end lf = 0 → Z.of_nat k = (Z.of_nat (length name) + 12) / 13 →
  lfn_name (foldl (λ lf raw, lfn_add raw lf) lf (lfn_run k (Z.of_nat k) sum name)) sn = name.
Proof.
  intros Hn Hlen Hbuf Hq He Hk. pose proof (Z.div_mod (Z.of_nat (length name) + 12) 13). pose proof (Z.mod_pos_bound (Z.of_nat (length name) + 12) 13).
  destruct (lfn_run_fold name (Z.of_nat k) sum k lf) as (H1 & H2 & H3 & H4); [done|lia|lia|lia|lia|done|intros i Hi; lia|].
  set (lf' := foldl _ _ _) in *. unfold lfn_name. rewrite H3, H4.
  rewrite (proj2 (Z.ltb_lt 0 _)), (proj2 (Z.ltb_lt 0 _)) by lia. cbn [andb].
  replace (Z.to_nat _) with (length name) by lia. unfold LONGNAME_SIZE in *. rewrite Nat.min_l by lia.
  apply list_eq. intros i. destruct (decide (i < length name)%nat).
  - rewrite lookup_take_lt by done. apply H2. lia.
  - rewrite lookup_take_ge, lookup_ge_None_2 by lia. done.
Qed.
