(* ===== verification/FatTable.v ===== *)
(** The FAT itself: the cached table, cluster chains and mounting
    ([kernel/fs/fat32/fat32.c], [alloc_chain] of [fat32_file.c] and the
    chain-freeing loop of [fat32_meta.c]).

    The FAT lock makes every file-system operation atomic.  [m->fat] is the
    byte list of the cached table. *)
From S2P Require Import Prelude Bytes BlkDev BlkCache Journal.

Record fat_mount (D : Type) := FatMount {
  fm_dev : D;
  bytes_per_sector : Z;
  sectors_per_cluster : Z;
  cluster_size : Z;
  reserved_sectors : Z;
  num_fats : Z;
  fatsz : Z;
  root_cluster : Z;
  data_start_lba : Z;
  max_cluster : Z;
  fat : list Z;
  fat_bytes : Z;
}.
Arguments FatMount {D}.
Arguments fm_dev {D}.
Arguments bytes_per_sector {D}.
Arguments sectors_per_cluster {D}.
Arguments cluster_size {D}.
Arguments reserved_sectors {D}.
Arguments num_fats {D}.
Arguments fatsz {D}.
Arguments root_cluster {D}.
Arguments data_start_lba {D}.
Arguments max_cluster {D}.
Arguments fat {D}.
Arguments fat_bytes {D}.

(** The state of the driver: the mount, the global journal and the block
    layer. *)
Record fs (W D : Type) := Fs { mnt : fat_mount D; jr : journal D; bs : blk_state W D }.
Arguments Fs {W D}.
Arguments mnt {W D}.
Arguments jr {W D}.
Arguments bs {W D}.

Definition EOC : Z := 0x0FFFFFFF.
Definition FAT_MASK : Z := 0x0FFFFFFF.

Definition cluster_is_eoc (c : Z) : bool := 0x0FFFFFF8 <=? c.

Definition cluster_lba {D} (m : fat_mount D) (clus : Z) : Z :=
  u64 (data_start_lba m + u32 (clus - 2) * sectors_per_cluster m).

(** The cached entry of a cluster, with its reserved upper bits. *)
Definition fat_word {D} (m : fat_mount D) (clus : Z) : Z := le32 (fat m) (Z.to_nat (u32 (clus * 4))).

Definition fat_next_cluster {D} (m : fat_mount D) (clus : Z) : Z :=
  if max_cluster m <=? clus then EOC else Z.land (fat_word m clus) FAT_MASK.

Definition set_fat {D} (f : list Z) (m : fat_mount D) : fat_mount D :=
  FatMount (fm_dev m) (bytes_per_sector m) (sectors_per_cluster m) (cluster_size m)
    (reserved_sectors m) (num_fats m) (fatsz m) (root_cluster m) (data_start_lba m)
    (max_cluster m) f (fat_bytes m).

(** Sector [k] of the cached table. *)
Definition fat_sector {D} (m : fat_mount D) (k : Z) : sector :=
  take (Z.to_nat (bytes_per_sector m)) (drop (Z.to_nat (k * bytes_per_sector m)) (fat m)).

Section table.
Context {W D : Type} `{EqDecision D} `{Disks W D}.

Definition fat_set_entry (clus val : Z) (s : fs W D) : fs W D :=
  let m := mnt s in
  if max_cluster m <=? clus then s else
  let old := fat_word m clus in
  let off := u32 (clus * 4) in
  let m' := set_fat (put32 (Z.to_nat off)
              (Z.lor (Z.land old 0xF0000000) (Z.land val FAT_MASK)) (fat m)) m in
  let base := Z.land off (Z.lnot (bytes_per_sector m - 1)) in
  let '(_, w) := dev_write (fm_dev m) (reserved_sectors m + off / bytes_per_sector m)
                   [take (Z.to_nat (bytes_per_sector m)) (drop (Z.to_nat base) (fat m'))]
                   (world (bs s)) in
  Fs m' (jr s) (set_world w (bs s)).

Definition fat_find_free_cluster (m : fat_mount D) : Z :=
  match for_find (λ i, Z.land (fat_word m (Z.of_nat i)) FAT_MASK =? 0) 2
          (Z.to_nat (max_cluster m) - 2) with
  | Some i => Z.of_nat i
  | None => 0
  end.

Definition fat_freespace (m : fat_mount D) : Z :=
  u64 (for_loop (λ i n, if Z.land (fat_word m (Z.of_nat i)) FAT_MASK =? 0 then n + 1 else n)
         2 (Z.to_nat (max_cluster m) - 2) 0 * cluster_size m).

(** ** Chains *)

(** The walk of [alloc_chain] to the end of a chain: the last cluster (0 when
    there is none) and the number of clusters.  The loop has no bound of its
    own: [None] when the fuel runs out. *)
Fixpoint chain_walk (fuel : nat) (m : fat_mount D) (c prev cnt : Z) : option (Z * Z) :=
  if negb (cluster_is_eoc c) && (2 <=? c) then
    match fuel with
    | O => None
    | S f => chain_walk f m (fat_next_cluster m c) c (u32 (cnt + 1))
    end
  else Some (prev, cnt).

(** The allocation loop: [n] clusters are still missing.  The result is the
    head, 0 when the disk is full. *)
Fixpoint alloc_loop (n : nat) (head prev : Z) (s : fs W D) : Z * fs W D :=
  match n with
  | O => (head, s)
  | S n' =>
      let nc := fat_find_free_cluster (mnt s) in
      if nc =? 0 then (0, s) else
      let s := fat_set_entry nc EOC s in
      let '(head, s) := if negb (prev =? 0) then (head, fat_set_entry prev nc s) else (nc, s) in
      alloc_loop n' head nc s
  end.

Definition alloc_chain (fuel : nat) (first need_bytes : Z) (s : fs W D) : option (Z * fs W D) :=
  let m := mnt s in
  let nclus := u32 (u64 (need_bytes + cluster_size m - 1) / cluster_size m) in
  let walked := if negb (first =? 0) && cluster_is_eoc first then Some (0, 0)
                else if negb (first =? 0) then chain_walk fuel m first 0 0
                else Some (0, 0) in
  match walked with
  | None => None
  | Some (prev, cnt) => Some (alloc_loop (Z.to_nat (nclus - cnt)) first prev s)
  end.

(** The loop of [fat_unlink_impl] and [fat_rmdir_impl] that frees a chain. *)
Fixpoint free_chain (fuel : nat) (clus : Z) (s : fs W D) : option (fs W D) :=
  if negb (cluster_is_eoc clus) && (2 <=? clus) then
    match fuel with
    | O => None
    | S f => let nx := fat_next_cluster (mnt s) clus in
             free_chain f nx (fat_set_entry clus 0 s)
    end
  else Some s.

(** ** Mounting *)

(** The geometry a boot sector describes, if it is acceptable: lines 151 to
    195 of [fat_mount].  [sector_size] and [num] are the fields of [dev]. *)
Definition bpb_mount (d : D) (sector_size num : Z) (bpb : sector) : option (fat_mount D) :=
  let bps := le16 bpb 11 in
  let spc := byte_at bpb 13 in
  let rsv := le16 bpb 14 in
  let nfats := byte_at bpb 16 in
  let fatsz16 := le16 bpb 22 in
  let fsz := if negb (fatsz16 =? 0) then fatsz16 else le32 bpb 36 in
  let root := le32 bpb 44 in
  let totsec := if negb (le16 bpb 19 =? 0) then le16 bpb 19 else le32 bpb 32 in
  if negb (bps =? sector_size) || (4096 <? bps) || (spc =? 0) || (fsz =? 0) || (rsv =? 0)
     || (negb (nfats =? 1) && negb (nfats =? 2)) || (root <? 2)
     || (negb (fatsz16 =? 0) && negb (spc =? 0))
  then None else
  let totsec := if negb (totsec =? 0) && negb (num =? 0) && (num <? totsec)
                then u32 num else totsec in
  let data_start := rsv + nfats * fsz + (le16 bpb 17 * 32 + bps - 1) / bps in
  if totsec <=? data_start then None else
  let maxc := if data_start <? totsec then u32 ((totsec - data_start) / spc + 2) else 2 in
  let csize := u32 (bps * spc) in
  let fat_entries := u32 (fsz * bps) / 4 in
  let maxc := if fat_entries <=? maxc
              then (if negb (fat_entries =? 0) then fat_entries - 1 else 2) else maxc in
  Some (FatMount d bps spc csize rsv nfats fsz root data_start maxc [] (fsz * bps)).

(** [alloc_ok] tells whether [kmalloc(m->fat_bytes)] succeeded; [buf] and
    [fatbuf] are the contents of the fresh buffers.  The two probe reads only
    feed the boot log. *)
Definition fat_mount_dev (d : D) (sector_size num : Z) (alloc_ok : bool) (buf : sector)
    (fatbuf : list sector) (j : journal D) (st : blk_state W D)
  : option (fat_mount D * journal D) * blk_state W D :=
  let '(r, secs, w) := dev_read d 0 1 [buf] (world st) in
  let st := set_world w st in
  if negb (r =? 0) then (None, st) else
  match bpb_mount d sector_size num (default [] (head secs)) with
  | None => (None, st)
  | Some m =>
      if negb alloc_ok then (None, st) else
      let '(r, secs, w) := dev_read d (reserved_sectors m) (fatsz m) fatbuf (world st) in
      let st := set_world w st in
      if negb (r =? 0) then (None, st) else
      let '(_, _, w) := dev_read d 0 1 [replicate 512 0xAB] (world st) in
      let '(_, _, w) := dev_read d (data_start_lba m) 1 [replicate 512 0xAB] w in
      (Some (set_fat (concat secs) m, fat32_journal_init d j), set_world w st)
  end.
End table.
