(* ===== verification/FatTableFacts.v ===== *)
(** Correctness of the FAT: entries, chains, allocation, release, mounting. *)
From S2P Require Import Prelude Bytes BlkDev BlkCache BlkCacheFacts Journal FatTable.

(** Geometry of a mounted volume: 512-byte sectors and a cluster range that
    the cached table covers. *)
Record mount_ok {D} (m : fat_mount D) : Prop := {
  mo_bps : bytes_per_sector m = 512;
  mo_max : 2 ≤ max_cluster m < 2 ^ 24;
  mo_fat : 4 * max_cluster m ≤ Z.of_nat (length (fat m));
  mo_len : Z.of_nat (length (fat m)) = fatsz m * 512;
  mo_rsv : 0 ≤ reserved_sectors m < 2 ^ 16;
  mo_fatsz : 0 ≤ fatsz m < 2 ^ 32;
  mo_bytes : bytes_ok (fat m);
}.

Lemma mask_land z : Z.land z FAT_MASK = z mod 2 ^ 28.
Proof. change FAT_MASK with (Z.ones 28). apply Z.land_ones. lia. Qed.

Lemma entry_update old val :
  Z.land (Z.lor (Z.land old 0xF0000000) (Z.land val FAT_MASK)) FAT_MASK = Z.land val FAT_MASK.
Proof.
  rewrite Z.land_lor_distr_l, <- !Z.land_assoc.
  change (Z.land 0xF0000000 FAT_MASK) with 0. rewrite Z.land_0_r, Z.lor_0_l.
  by rewrite Z.land_diag.
Qed.

Lemma entry_update_range old val :
  0 ≤ old < 2 ^ 32 → 0 ≤ val →
  0 ≤ Z.lor (Z.land old 0xF0000000) (Z.land val FAT_MASK) < 2 ^ 32.
Proof.
  intros Ho Hv. unfold FAT_MASK. split.
  - apply Z.lor_nonneg. split; apply Z.land_nonneg; auto; lia.
  - apply Z.log2_lt_cancel. rewrite Z.log2_pow2 by lia. apply Z.le_lt_trans with 31; [|lia].
    rewrite Z.log2_lor by (apply Z.land_nonneg; lia).
    apply Z.max_lub; (etrans; [apply Z.log2_land; lia|]).
    + etrans; [apply Z.le_min_r|]. vm_compute. done.
    + etrans; [apply Z.le_min_r|]. vm_compute. done.
Qed.

Section entries.
Context {W D : Type} `{EqDecision D} `{DiskLaws W D}.
Implicit Types (m : fat_mount D) (s : fs W D).

Lemma fat_index m clus :
  mount_ok m → 0 ≤ clus < max_cluster m →
  Z.to_nat (u32 (clus * 4)) = (4 * Z.to_nat clus)%nat ∧
  (4 * Z.to_nat clus + 4 ≤ length (fat m))%nat.
Proof. intros [_ Hm Hf _ _ _ _] Hc. rewrite u32_small by lia. lia. Qed.

(** What [fat_set_entry] does to the table. *)
Lemma fat_set_entry_mnt clus val s :
  mount_ok (mnt s) → 0 ≤ val → 0 ≤ clus →
  let s' := fat_set_entry clus val s in
  mount_ok (mnt s') ∧ (∃ f, mnt s' = set_fat f (mnt s)) ∧ jr s' = jr s ∧
  cache (bs s') = cache (bs s) ∧
  ∀ c, 0 ≤ c → fat_next_cluster (mnt s') c =
    if decide (c = clus ∧ clus < max_cluster (mnt s)) then Z.land val FAT_MASK
    else fat_next_cluster (mnt s) c.
Proof.
  intros Hm Hv Hc0. cbv zeta. unfold fat_set_entry.
  destruct (Z.leb_spec (max_cluster (mnt s)) clus) as [Hge|Hlt].
  { split_and!; [done| |done|done|].
    - exists (fat (mnt s)). by destruct (mnt s).
    - intros c _. by rewrite decide_False by lia. }
  destruct (fat_index (mnt s) clus Hm) as [Hidx Hlen]; [lia|].
  destruct (dev_write _ _ _ _) as [r w]. cbn [mnt jr bs cache set_world].
  rewrite Hidx. set (v := Z.lor _ _).
  assert (0 ≤ v < 2 ^ 32) as Hvr.
  { apply entry_update_range; [|done]. apply le32_range, mo_bytes, Hm. }
  split_and!; [|by eexists|done|done|].
  - destruct Hm as [H1 H2 H3 H4 H5 H6 H7].
    split; cbn [bytes_per_sector max_cluster fat fatsz reserved_sectors set_fat];
      rewrite ?length_put32; try done. by apply put32_ok.
  - intros c Hc. unfold fat_next_cluster. cbn [max_cluster set_fat].
    destruct (Z.leb_spec (max_cluster (mnt s)) c) as [Hcge|Hclt].
    { by rewrite decide_False by lia. }
    destruct (fat_index (mnt s) c Hm) as [Hidx' Hlen']; [lia|].
    unfold fat_word. cbn [fat set_fat]. rewrite Hidx'. destruct (decide (c = clus ∧ _)) as [[-> _]|Hne].
    + rewrite le32_put32 by lia. rewrite u32_small by done. apply entry_update.
    + rewrite le32_put32_ne; [done|]. destruct (decide (c = clus)); [tauto|]. lia.
Qed.

Lemma fat_find_free_spec m :
  mount_ok m →
  let c := fat_find_free_cluster m in
  (c = 0 ∧ ∀ i, 2 ≤ i < max_cluster m → fat_next_cluster m i ≠ 0) ∨
  (2 ≤ c < max_cluster m ∧ fat_next_cluster m c = 0).
Proof.
  intros [_ Hm _ _ _ _ _]. unfold fat_find_free_cluster.
  assert (∀ i, 0 ≤ i < max_cluster m →
    fat_next_cluster m i = Z.land (fat_word m i) FAT_MASK) as Hnx.
  { intros i Hi. unfold fat_next_cluster. by rewrite (proj2 (Z.leb_gt _ _)) by lia. }
  destruct (for_find _ _ _) as [i|] eqn:E.
  - right. apply for_find_Some in E as (Hi & Hz & _). split; [lia|].
    rewrite Hnx by lia. by apply Z.eqb_eq.
  - left. split; [done|]. rewrite for_find_None in E. intros i Hi. rewrite Hnx by lia.
    apply Z.eqb_neq. specialize (E (Z.to_nat i) ltac:(lia)). by rewrite Z2Nat.id in E by lia.
Qed.

(** ** Chains *)

Definition ends (c : Z) : Prop := cluster_is_eoc c = true ∨ c < 2.

#[global] Instance ends_dec c : Decision (ends c).
Proof. unfold ends. apply _. Defined.

Lemma walk_guard c : negb (cluster_is_eoc c) && (2 <=? c) = bool_decide (¬ ends c).
Proof.
  apply eq_iff_eq_true. rewrite andb_true_iff, negb_true_iff, Z.leb_le, bool_decide_eq_true.
  unfold ends. rewrite <- not_true_iff_false. split.
  - intros [? ?] [?|?]; [done|lia].
  - intros Hn. split; [tauto|]. destruct (decide (c < 2)); [tauto|lia].
Qed.

(** [l] are the clusters of the chain that starts at [c]. *)
Fixpoint fchain (m : fat_mount D) (c : Z) (l : list Z) : Prop :=
  match l with
  | [] => ends c
  | x :: l' => x = c ∧ ¬ ends c ∧ fchain m (fat_next_cluster m c) l'
  end.

Lemma fchain_det m c l l' : fchain m c l → fchain m c l' → l = l'.
Proof.
  revert c l'. induction l as [|x l IH]; intros c [|x' l']; simpl; [done|tauto|tauto|].
  intros (-> & _ & Hl) (-> & _ & Hl'). f_equal. by eapply IH.
Qed.

Lemma fchain_ext m m' c l :
  (∀ x, x ∈ l → fat_next_cluster m' x = fat_next_cluster m x) → fchain m c l → fchain m' c l.
Proof.
  revert c. induction l as [|x l IH]; intros c Heq; simpl; [done|].
  intros (-> & Hn & Hl). split_and!; [done|done|]. rewrite Heq by left.
  apply IH; [|done]. intros y Hy. apply Heq. by right.
Qed.

Lemma fchain_suffix m c l1 x l2 : fchain m c (l1 ++ x :: l2) → fchain m x (x :: l2).
Proof.
  revert c. induction l1 as [|y l1 IH]; intros c; simpl.
  - intros (-> & Hn & Hl). by split_and!.
  - intros (-> & _ & Hl). by apply IH in Hl.
Qed.

(** A finite chain visits no cluster twice. *)
Lemma fchain_nodup m c l : fchain m c l → NoDup l.
Proof.
  revert c. induction l as [|x l IH]; intros c; [intros; constructor|].
  intros Hl. pose proof Hl as (-> & _ & Ht). constructor; [|by eapply IH].
  intros (l1 & l2 & ->)%list_elem_of_split. apply fchain_suffix in Ht.
  pose proof (fchain_det m c _ _ Hl Ht) as Heq. apply (f_equal length) in Heq.
  simpl in Heq. rewrite length_app in Heq. simpl in Heq. lia.
Qed.

Lemma fchain_ge2 m c l : fchain m c l → Forall (λ x, ¬ ends x) l.
Proof.
  revert c. induction l as [|x l IH]; intros c; simpl; [constructor|].
  intros (-> & Hn & Hl). constructor; [done|]. by eapply IH.
Qed.

Lemma not_ends_ge2 c : ¬ ends c → 2 ≤ c.
Proof. unfold ends. intros H'. destruct (decide (c < 2)); [tauto|lia]. Qed.

(** Linking a fresh cluster behind the last one. *)
Lemma fchain_snoc m m' c l p nc :
  fchain m c (l ++ [p]) → (∀ x, x ∈ l → fat_next_cluster m' x = fat_next_cluster m x) →
  fat_next_cluster m' p = nc → ¬ ends nc → ends (fat_next_cluster m' nc) →
  fchain m' c (l ++ [p; nc]).
Proof.
  revert c. induction l as [|x l IH]; intros c; simpl.
  - intros (-> & Hn & _) _ Hp Hnc He. rewrite Hp. by split_and!.
  - intros (-> & Hn & Hl) Heq Hp Hnc He. split_and!; [done|done|]. rewrite Heq by left.
    apply IH; try done. intros y Hy. apply Heq. by right.
Qed.

(** ** Walking *)

Lemma chain_walk_spec fuel m c l prev cnt :
  fchain m c l → (length l ≤ fuel)%nat → 0 ≤ cnt → cnt + Z.of_nat (length l) < 2 ^ 32 →
  chain_walk fuel m c prev cnt = Some (default prev (last l), cnt + Z.of_nat (length l)).
Proof.
  revert c l prev cnt. induction fuel as [|fuel IH]; intros c l prev cnt Hl Hf Hc Hcl;
    cbn [chain_walk]; rewrite walk_guard; destruct l as [|x l]; simpl in Hl, Hf, Hcl.
  - rewrite bool_decide_false by tauto. simpl. by rewrite Z.add_0_r.
  - lia.
  - rewrite bool_decide_false by tauto. simpl. by rewrite Z.add_0_r.
  - destruct Hl as (-> & Hn & Hl). rewrite bool_decide_true by done.
    rewrite u32_small by lia. rewrite (IH _ l) by (done || lia).
    rewrite last_cons. do 2 f_equal; [by destruct (last l)|]. simpl. lia.
Qed.

(** ** Releasing a chain *)

Lemma free_chain_spec fuel s c l :
  mount_ok (mnt s) → fchain (mnt s) c l → (length l ≤ fuel)%nat →
  ∃ s', free_chain fuel c s = Some s' ∧ mount_ok (mnt s') ∧
    (∃ f, mnt s' = set_fat f (mnt s)) ∧ jr s' = jr s ∧ cache (bs s') = cache (bs s) ∧
    ∀ x, 0 ≤ x → fat_next_cluster (mnt s') x =
      if decide (x ∈ l ∧ x < max_cluster (mnt s)) then 0 else fat_next_cluster (mnt s) x.
Proof.
  revert fuel s c. induction l as [|y l IH]; intros fuel s c Hm Hl Hf.
  - exists s. split_and!; [|done| |done|done|].
    + destruct fuel; cbn [free_chain]; by rewrite walk_guard, bool_decide_false by tauto.
    + exists (fat (mnt s)). by destruct (mnt s).
    + intros x _. by rewrite decide_False by set_solver.
  - pose proof (fchain_nodup _ _ _ Hl) as [Hny _]%NoDup_cons. destruct Hl as (-> & Hn & Hl).
    destruct fuel as [|fuel]; simpl in Hf; [lia|]. cbn [free_chain].
    rewrite walk_guard, bool_decide_true by done. pose proof (not_ends_ge2 c Hn) as Hc.
    destruct (fat_set_entry_mnt c 0 s Hm) as (Hm1 & (f1 & Hf1) & Hj1 & Hc1 & Hnx1); [lia..|].
    set (s1 := fat_set_entry c 0 s) in *.
    destruct (IH fuel s1 (fat_next_cluster (mnt s) c)) as
      (s' & Hs' & Hm' & (f' & Hf') & Hj' & Hc' & Hnx'); [done| |lia|].
    { eapply fchain_ext; [|exact Hl]. intros x Hx. rewrite Hnx1.
      - rewrite decide_False; [done|]. intros [-> _]. done.
      - pose proof (proj1 (Forall_forall _ _) (fchain_ge2 _ _ _ Hl) x Hx) as Hxe.
        apply not_ends_ge2 in Hxe. lia. }
    exists s'. split_and!; [done|done| |congruence|congruence|].
    + exists f'. by rewrite Hf', Hf1.
    + intros x Hx. rewrite Hnx', Hf1 by done. cbn [max_cluster set_fat].
      rewrite <- Hf1, Hnx1 by done. change (Z.land 0 FAT_MASK) with 0.
      destruct (decide (x ∈ l ∧ x < max_cluster (mnt s))) as [[Hxl Hxm]|Hxn].
      * rewrite decide_True; [done|]. split; [by right|done].
      * destruct (decide (x = c ∧ c < max_cluster (mnt s))) as [[-> ?]|Hne].
        { rewrite decide_True; [done|]. split; [left|done]. }
        rewrite decide_False; [done|]. rewrite elem_of_cons. intros [[->|Hxl] Hxm]; tauto.
Qed.

(** The clusters in use. *)
Definition used_clusters (m : fat_mount D) : list Z :=
  filter (λ i, fat_next_cluster m i ≠ 0) (seqZ 2 (max_cluster m - 2)).

Lemma free_chain_total fuel s c :
  mount_ok (mnt s) → 0 ≤ c → (length (used_clusters (mnt s)) + 1 ≤ fuel)%nat →
  is_Some (free_chain fuel c s).
Proof.
  revert s c. induction fuel as [|fuel IH]; intros s c Hm Hc Hf; [lia|]. cbn [free_chain].
  rewrite walk_guard. destruct (decide (ends c)) as [He|Hn].
  { by rewrite bool_decide_false by tauto. }
  rewrite bool_decide_true by done. pose proof (not_ends_ge2 c Hn) as Hc2.
  destruct (fat_set_entry_mnt c 0 s Hm) as (Hm1 & (f1 & Hf1) & _ & _ & Hnx1); [lia..|].
  set (s1 := fat_set_entry c 0 s) in *.
  assert (∀ e, ends e → is_Some (free_chain fuel e s1)) as Hend.
  { intros e He. destruct fuel; cbn [free_chain];
      by rewrite walk_guard, bool_decide_false by tauto. }
  destruct (decide (c < max_cluster (mnt s))) as [Hlt|Hge].
  2:{ apply Hend. unfold fat_next_cluster. rewrite (proj2 (Z.leb_le _ _)) by lia. by left. }
  destruct (decide (fat_next_cluster (mnt s) c = 0)) as [Hz|Hnz].
  { apply Hend. rewrite Hz. right. lia. }
  apply IH; [done| |].
  { unfold fat_next_cluster. destruct (_ <=? _); [unfold EOC; lia|]. apply Z.land_nonneg.
    right. unfold FAT_MASK. lia. }
  assert (length (used_clusters (mnt s1)) < length (used_clusters (mnt s)))%nat; [|lia].
  assert (max_cluster (mnt s1) = max_cluster (mnt s)) as Hmax by by rewrite Hf1.
  unfold used_clusters. rewrite Hmax.
  apply (filter_length_lt _ _ _ c).
  - intros y [Hy _]%elem_of_seqZ. rewrite Hnx1 by lia. by destruct (decide _).
  - apply elem_of_seqZ. lia.
  - done.
  - rewrite Hnx1, decide_True by done. tauto.
Qed.

(** ** Growing a chain *)

(** A cluster a chain may run through: inside the table and in use. *)
Definition live (m : fat_mount D) (c : Z) : Prop :=
  2 ≤ c < max_cluster m ∧ fat_next_cluster m c ≠ 0.

Record grown (s : fs W D) (l new : list Z) (s' : fs W D) : Prop := {
  gr_mount : mount_ok (mnt s');
  gr_fat : ∃ f, mnt s' = set_fat f (mnt s);
  gr_jr : jr s' = jr s;
  gr_cache : cache (bs s') = cache (bs s);
  gr_free : Forall (λ c, 2 ≤ c < max_cluster (mnt s) ∧ fat_next_cluster (mnt s) c = 0) new;
  gr_live : Forall (live (mnt s')) (l ++ new);
  gr_other : ∀ c, 0 ≤ c → c ∉ l ++ new →
    fat_next_cluster (mnt s') c = fat_next_cluster (mnt s) c;
}.

Lemma grown_refl s l : mount_ok (mnt s) → Forall (live (mnt s)) l → grown s l [] s.
Proof.
  intros Hm Hl. split; try done.
  - exists (fat (mnt s)). by destruct (mnt s).
  - by rewrite app_nil_r.
Qed.

Lemma low_not_ends m c : mount_ok m → 2 ≤ c < max_cluster m → ¬ ends c.
Proof.
  intros [_ Hm _ _ _ _ _] Hc [He|He]; [|lia]. unfold cluster_is_eoc in He.
  apply Z.leb_le in He. lia.
Qed.

Lemma mask_low c : 0 ≤ c < 2 ^ 28 → Z.land c FAT_MASK = c.
Proof. intros. rewrite mask_land. by apply Z.mod_small. Qed.

(** Both rounds of the allocation loop start by marking the fresh cluster as
    an end of chain. *)
Lemma mark_end s nc :
  mount_ok (mnt s) → 2 ≤ nc < max_cluster (mnt s) → fat_next_cluster (mnt s) nc = 0 →
  let s1 := fat_set_entry nc EOC s in
  grown s [] [nc] s1 ∧ fchain (mnt s1) nc [nc] ∧ fat_next_cluster (mnt s1) nc = EOC.
Proof.
  intros Hm Hnc Hz. cbv zeta.
  destruct (fat_set_entry_mnt nc EOC s Hm) as (Hm1 & Hf1 & Hj1 & Hc1 & Hnx1);
    [unfold EOC; lia|lia|].
  set (s1 := fat_set_entry nc EOC s) in *. change (Z.land EOC FAT_MASK) with EOC in Hnx1.
  assert (max_cluster (mnt s1) = max_cluster (mnt s)) as Hmax by (by destruct Hf1 as [f ->]).
  assert (fat_next_cluster (mnt s1) nc = EOC) as Hend by (rewrite Hnx1, decide_True; lia).
  cbn [fchain]. rewrite Hend.
  split_and!; [|done|by apply (low_not_ends (mnt s))|by left|done].
  split; try done.
  - by constructor.
  - constructor; [|by constructor]. split; [by rewrite Hmax|by rewrite Hend].
  - intros c Hc Hne. rewrite Hnx1, decide_False by set_solver. done.
Qed.

(** Linking the marked cluster behind the last cluster of a chain. *)
Lemma link_end s s1 head l p nc :
  mount_ok (mnt s) → fchain (mnt s) head (l ++ [p]) → Forall (live (mnt s)) (l ++ [p]) →
  2 ≤ nc < max_cluster (mnt s) → fat_next_cluster (mnt s) nc = 0 →
  grown s [] [nc] s1 → fat_next_cluster (mnt s1) nc = EOC →
  grown s (l ++ [p]) [nc] (fat_set_entry p nc s1) ∧
  fchain (mnt (fat_set_entry p nc s1)) head (l ++ [p; nc]).
Proof.
  intros Hm Hch Hlive Hnc Hz [Hm1 [f1 Hf1] Hj1 Hc1 Hfree1 _ Hnx1] Hend. pose proof (mo_max _ Hm) as Hmx.
  assert (max_cluster (mnt s1) = max_cluster (mnt s)) as Hmax by by rewrite Hf1.
  assert (∀ x, x ∈ l ++ [p] → x ≠ nc ∧ 2 ≤ x < max_cluster (mnt s) ∧
    fat_next_cluster (mnt s) x ≠ 0) as Hl.
  { intros x Hx. pose proof (proj1 (Forall_forall _ _) Hlive x Hx) as [? ?].
    split_and!; [|lia|lia|done]. by intros ->. }
  destruct (Hl p ltac:(set_solver)) as (Hpn & Hp & _).
  apply fchain_nodup in Hch as Hnd. apply NoDup_app in Hnd as (_ & Hdis & _).
  destruct (fat_set_entry_mnt p nc s1 Hm1) as (Hm2 & [f2 Hf2] & Hj2 & Hc2 & Hnx2); [lia..|].
  set (s2 := fat_set_entry p nc s1) in *. rewrite mask_low, Hmax in Hnx2 by lia.
  assert (max_cluster (mnt s2) = max_cluster (mnt s)) as Hmax2 by by rewrite Hf2.
  assert (fat_next_cluster (mnt s2) p = nc) as Hnp by (rewrite Hnx2, decide_True; lia).
  assert (fat_next_cluster (mnt s2) nc = EOC) as Hnn by (rewrite Hnx2, decide_False; lia).
  assert (∀ x, 0 ≤ x → x ≠ p → x ≠ nc →
    fat_next_cluster (mnt s2) x = fat_next_cluster (mnt s) x) as Hkeep.
  { intros x Hx H1 H2. rewrite Hnx2, decide_False, Hnx1; try lia; set_solver. }
  split.
  - split; try done; [exists f2; by rewrite Hf2, Hf1|congruence|congruence| |].
    + apply Forall_forall. intros x [Hx| ->%list_elem_of_singleton]%elem_of_app.
      * destruct (Hl x Hx) as (? & ? & ?). split; [by rewrite Hmax2|].
        destruct (decide (x = p)) as [->|]; [lia|]. rewrite Hkeep by lia. done.
      * split; [by rewrite Hmax2|by rewrite Hnn].
    + intros c Hc Hne. apply Hkeep; set_solver.
  - eapply fchain_snoc; [exact Hch| |done|by apply (low_not_ends (mnt s))|by rewrite Hnn; left].
    intros x Hx. destruct (Hl x ltac:(set_solver)) as (? & ? & ?). apply Hkeep; [lia| |done].
    intros ->. apply (Hdis p Hx). left.
Qed.

Lemma grown_trans s l new1 s1 new2 s2 :
  grown s l new1 s1 → grown s1 (l ++ new1) new2 s2 → grown s l (new1 ++ new2) s2.
Proof.
  intros [_ [f1 Hf1] Hj1 Hc1 Hfr1 Hlv1 Ho1] [Hm2 [f2 Hf2] Hj2 Hc2 Hfr2 Hlv2 Ho2].
  assert (max_cluster (mnt s1) = max_cluster (mnt s)) as Hmax by by rewrite Hf1.
  split; [done|exists f2; by rewrite Hf2, Hf1|congruence|congruence| |by rewrite app_assoc|].
  - apply Forall_app. split; [done|]. apply Forall_forall. intros c Hc.
    apply (proj1 (Forall_forall _ _) Hfr2) in Hc as [Hr Hz]. rewrite Hmax in Hr. split; [done|].
    rewrite <- Ho1; [done|lia|]. intros Hin. by apply (proj1 (Forall_forall _ _) Hlv1) in Hin as [_ ?].
  - intros c Hc Hne. rewrite Ho2, Ho1; [done|done| |done|]; set_solver.
Qed.

(** The allocation loop: either the chain has grown by [n] clusters that were
    free, or the disk is full. *)
Lemma alloc_loop_spec n s head l prev :
  mount_ok (mnt s) → fchain (mnt s) head l → Forall (live (mnt s)) l →
  prev = default 0 (last l) → l ≠ [] ∨ n ≠ 0%nat →
  let '(h, s') := alloc_loop n head prev s in
  ∃ new, grown s l new s' ∧ (l ≠ [] → fchain (mnt s') head (l ++ new)) ∧
  if decide (h = 0)
  then ∀ c, 2 ≤ c < max_cluster (mnt s') → fat_next_cluster (mnt s') c ≠ 0
  else length new = n ∧ fchain (mnt s') h (l ++ new).
Proof.
  revert s head l prev. induction n as [|n IH]; intros s head l prev Hm Hch Hlive Hprev Hne;
    cbn [alloc_loop].
  { exists []. rewrite app_nil_r. split; [by apply grown_refl|]. split; [done|]. rewrite decide_False; [done|].
    destruct l as [|x l]; [tauto|]. destruct Hch as (_ & Hn & _). apply not_ends_ge2 in Hn. lia. }
  destruct (fat_find_free_spec (mnt s) Hm) as [[Hz Hfull]|[Hnc Hfree]].
  { rewrite Hz. cbn [Z.eqb]. exists []. rewrite app_nil_r. split; [by apply grown_refl|done]. }
  set (nc := fat_find_free_cluster (mnt s)) in *.
  rewrite (proj2 (Z.eqb_neq nc 0)) by lia. cbv zeta.
  destruct (mark_end s nc Hm Hnc Hfree) as (Hg1 & Hch1 & Hend).
  set (s1 := fat_set_entry nc EOC s) in *.
  assert (∃ head' s2, (if negb (prev =? 0) then (head, fat_set_entry prev nc s1) else (nc, s1)) =
    (head', s2) ∧ grown s l [nc] s2 ∧ fchain (mnt s2) head' (l ++ [nc]) ∧ (l ≠ [] → head' = head))
    as (head' & s2 & -> & Hg2 & Hch2 & Hh).
  { destruct (last l) as [p|] eqn:El; simpl in Hprev; subst prev.
    - apply last_Some in El as [l' ->].
      pose proof (proj1 (Forall_forall _ _) Hlive p ltac:(set_solver)) as [? _].
      rewrite (proj2 (Z.eqb_neq p 0)) by lia. eexists _, _. split; [done|].
      rewrite <- app_assoc. destruct (link_end s s1 head l' p nc) as [? ?]; done.
    - apply last_None in El as ->. by eexists _, _. }
  specialize (IH s2 head' (l ++ [nc]) nc (gr_mount _ _ _ _ Hg2) Hch2 (gr_live _ _ _ _ Hg2)).
  rewrite last_snoc in IH. specialize (IH eq_refl ltac:(by left; destruct l)).
  destruct (alloc_loop n head' nc s2) as [h s']. destruct IH as (new & Hg3 & Hk3 & Hres).
  rewrite <- app_assoc in Hk3. exists (nc :: new). split; [by apply (grown_trans s l [nc] s2)|].
  split; [intros Hl; rewrite <- (Hh Hl); apply Hk3; by destruct l|].
  destruct (decide (h = 0)); [done|]. destruct Hres as [Hlen Hfin]. split; [simpl; lia|].
  by rewrite <- app_assoc in Hfin.
Qed.

(** A chain that shares no cluster with the grown one is untouched, and none
    of its clusters was handed out. *)
Lemma grown_other s l new s' c l' :
  grown s l new s' → fchain (mnt s) c l' → Forall (live (mnt s)) l' → (∀ x, x ∈ l' → x ∉ l) →
  fchain (mnt s') c l' ∧ ∀ x, x ∈ l' → x ∉ new.
Proof.
  intros Hg Hch Hlive Hdis.
  assert (∀ x, x ∈ l' → x ∉ new) as Hnew.
  { intros x Hx Hn. apply (proj1 (Forall_forall _ _) (gr_free _ _ _ _ Hg)) in Hn as [_ Hz].
    by apply (proj1 (Forall_forall _ _) Hlive) in Hx as [_ ?]. }
  split; [|done]. eapply fchain_ext; [|exact Hch]. intros x Hx.
  pose proof (proj1 (Forall_forall _ _) Hlive x Hx) as [? _].
  apply (gr_other _ _ _ _ Hg); [lia|]. rewrite elem_of_app. intros [?|?]; [by apply (Hdis x)|by apply (Hnew x)].
Qed.
End entries.

Section theorems.
Context {W D : Type} `{EqDecision D} `{DiskLaws W D}.
Implicit Types (m : fat_mount D) (s : fs W D).

Lemma fchain_length m c l :
  mount_ok m → fchain m c l → Forall (λ x, x < max_cluster m) l →
  (length l ≤ Z.to_nat (max_cluster m))%nat.
Proof.
  intros Hm Hch Hlt. pose proof (mo_max m Hm).
  assert (Z.of_nat (length l) ≤ max_cluster m - 0); [|lia].
  apply NoDup_bounded_length; [by eapply fchain_nodup| |lia]. intros x Hx. split.
  - pose proof (proj1 (Forall_forall _ _) (fchain_ge2 _ _ _ Hch) x Hx) as He.
    apply not_ends_ge2 in He. lia.
  - by apply (proj1 (Forall_forall _ _) Hlt).
Qed.

Lemma alloc_chain_spec fuel first need s l :
  (length l ≤ fuel)%nat →
  mount_ok (mnt s) → fchain (mnt s) first l → Forall (live (mnt s)) l →
  0 < need < 2 ^ 32 → 0 < cluster_size (mnt s) < 2 ^ 32 →
  ∃ h s' new, alloc_chain fuel first need s = Some (h, s') ∧
    grown s l new s' ∧ (l ≠ [] → fchain (mnt s') first (l ++ new)) ∧
    (h = 0 → ∀ c, 2 ≤ c < max_cluster (mnt s') → fat_next_cluster (mnt s') c ≠ 0) ∧
    (h ≠ 0 → fchain (mnt s') h (l ++ new) ∧
      need ≤ cluster_size (mnt s) * Z.of_nat (length (l ++ new)) ∧
      (new ≠ [] → cluster_size (mnt s) * (Z.of_nat (length (l ++ new)) - 1) < need)) ∧
    (∀ c l', fchain (mnt s) c l' → Forall (live (mnt s)) l' → (∀ x, x ∈ l' → x ∉ l) →
      fchain (mnt s') c l' ∧ ∀ x, x ∈ l' → x ∉ new).
Proof.
  intros Hlen Hm Hch Hlive Hneed Hcs. pose proof (mo_max _ Hm) as Hmx.
  set (cs := cluster_size (mnt s)) in *. set (nclus := (need + cs - 1) / cs).
  assert (cs * (nclus - 1) < need ≤ cs * nclus ∧ 1 ≤ nclus < 2 ^ 32) as (Hnc1 & Hnc2).
  { unfold nclus. pose proof (Z.div_mod (need + cs - 1) cs). pose proof (Z.mod_pos_bound (need + cs - 1) cs).
    nia. }
  assert (length l ≤ Z.to_nat (max_cluster (mnt s)))%nat as Hlm.
  { apply (fchain_length _ first); [done..|]. eapply Forall_impl; [exact Hlive|]. intros x [? _]. lia. }
  assert ((if negb (first =? 0) && cluster_is_eoc first then Some (0, 0)
    else if negb (first =? 0) then chain_walk fuel (mnt s) first 0 0
    else Some (0, 0)) = Some (default 0 (last l), Z.of_nat (length l))) as Hwalk.
  { destruct (Z.eqb_spec first 0) as [->|Hf]; cbn [negb andb].
    - destruct l as [|x l]; [done|]. destruct Hch as (_ & Hn & _). apply not_ends_ge2 in Hn. lia.
    - destruct (cluster_is_eoc first) eqn:Ee.
      + destruct l as [|x l]; [done|]. destruct Hch as (_ & Hn & _). unfold ends in Hn. tauto.
      + by rewrite (chain_walk_spec _ _ _ l) by (done || lia). }
  unfold alloc_chain. rewrite Hwalk. rewrite (u64_small (need + _ - 1)) by lia.
  fold cs nclus. rewrite (u32_small nclus) by lia.
  pose proof (alloc_loop_spec (Z.to_nat (nclus - Z.of_nat (length l))) s first l _ Hm Hch Hlive eq_refl)
    as Hloop.
  destruct (alloc_loop _ _ _ _) as [h s']. destruct Hloop as (new & Hg & Hkeep & Hres).
  { destruct l; [right; simpl; lia|by left]. }
  exists h, s', new. split_and!; [done|done|done| | |by intros; eapply grown_other].
  - intros ->. by rewrite decide_True in Hres.
  - intros Hh. rewrite decide_False in Hres by done. destruct Hres as [Hn Hfin].
    rewrite length_app, Hn. split_and!; [done|nia|]. intros Hnew. destruct new; [done|]. simpl in Hn. nia.
Qed.

(** C40. Growing a file never cross-links: on a volume whose table covers its
    clusters, [alloc_chain] on a proper chain [l] terminates and either extends
    the chain, by clusters that were free and are now linked behind it, until
    it covers the bytes asked for, or returns 0 with no free cluster left and
    the chain still proper; and every other chain keeps its clusters, none of
    which is handed out. *)
Theorem alloc_chain_extends first need s l :
  mount_ok (mnt s) → fchain (mnt s) first l → Forall (live (mnt s)) l →
  0 < need < 2 ^ 32 → 0 < cluster_size (mnt s) < 2 ^ 32 →
  ∃ h s' new, alloc_chain (Z.to_nat (max_cluster (mnt s))) first need s = Some (h, s') ∧
    grown s l new s' ∧ (l ≠ [] → fchain (mnt s') first (l ++ new)) ∧
    (h = 0 → ∀ c, 2 ≤ c < max_cluster (mnt s') → fat_next_cluster (mnt s') c ≠ 0) ∧
    (h ≠ 0 → fchain (mnt s') h (l ++ new) ∧
      need ≤ cluster_size (mnt s) * Z.of_nat (length (l ++ new)) ∧
      (new ≠ [] → cluster_size (mnt s) * (Z.of_nat (length (l ++ new)) - 1) < need)) ∧
    (∀ c l', fchain (mnt s) c l' → Forall (live (mnt s)) l' → (∀ x, x ∈ l' → x ∉ l) →
      fchain (mnt s') c l' ∧ ∀ x, x ∈ l' → x ∉ new).
Proof.
  intros Hm Hch Hl. apply alloc_chain_spec; [|done..]. apply (fchain_length _ first); [done..|].
  eapply Forall_impl; [exact Hl|]. intros x [? _]. lia.
Qed.

(** C33. Releasing a chain terminates on every table, cyclic or cross-linked
    ones included, within as many steps as the volume has clusters; on a
    proper chain it frees exactly the clusters of that chain. *)
Theorem free_chain_terminates s c :
  mount_ok (mnt s) → 0 ≤ c →
  is_Some (free_chain (Z.to_nat (max_cluster (mnt s))) c s) ∧
  ∀ l s', fchain (mnt s) c l → Forall (λ x, x < max_cluster (mnt s)) l →
    free_chain (Z.to_nat (max_cluster (mnt s))) c s = Some s' →
    mount_ok (mnt s') ∧
    ∀ x, 0 ≤ x → fat_next_cluster (mnt s') x =
      if decide (x ∈ l) then 0 else fat_next_cluster (mnt s) x.
Proof.
  intros Hm Hc. pose proof (mo_max _ Hm) as Hmx. split.
  - apply free_chain_total; [done|done|].
    assert (length (used_clusters (mnt s)) ≤ length (seqZ 2 (max_cluster (mnt s) - 2)))%nat as Hl
      by apply length_filter.
    rewrite length_seqZ in Hl. lia.
  - intros l s' Hch Hlt Hfr.
    destruct (free_chain_spec (Z.to_nat (max_cluster (mnt s))) s c l) as
      (s1 & Hs1 & Hm1 & _ & _ & _ & Hnx); [done|done|by apply (fchain_length _ c)|].
    rewrite Hfr in Hs1. injection Hs1 as <-. split; [done|]. intros x Hx. rewrite Hnx by done.
    destruct (decide (x ∈ l)) as [Hin|Hn].
    + rewrite decide_True; [done|]. split; [done|]. by apply (proj1 (Forall_forall _ _) Hlt).
    + by rewrite decide_False by tauto.
Qed.

(** ** The table on the device *)

(** The first FAT on the device is the cached table. *)
Definition fat_on_disk (s : fs W D) : Prop :=
  ∀ k, 0 ≤ k < fatsz (mnt s) →
    con (fm_dev (mnt s)) (world (bs s)) (reserved_sectors (mnt s) + k) = fat_sector (mnt s) k.

Lemma fat_sector_block m k :
  bytes_per_sector m = 512 → 0 ≤ k → fat_sector m k = block 512 (Z.to_nat k) (fat m).
Proof.
  intros Hb Hk. unfold fat_sector, block. rewrite Hb.
  by replace (Z.to_nat (k * 512)) with (Z.to_nat k * 512)%nat by lia.
Qed.

(** The sector write [fat_set_entry] issues, and its result. *)
Definition entry_write (clus : Z) (s s' : fs W D) : Z * W :=
  dev_write (fm_dev (mnt s)) (reserved_sectors (mnt s) + clus * 4 / 512)
    [fat_sector (mnt s') (clus * 4 / 512)] (world (bs s)).

(** The cached table and the FAT on the device stay the same table: the entry
    is written to its sector and nothing else changes. *)
Lemma fat_set_entry_synced clus val s :
  mount_ok (mnt s) → registered (fm_dev (mnt s)) → 0 ≤ val → 0 ≤ clus < max_cluster (mnt s) →
  let s' := fat_set_entry clus val s in
  world (bs s') = (entry_write clus s s').2 ∧
  (∀ d l, registered d → d ≠ fm_dev (mnt s) ∨ l ≠ reserved_sectors (mnt s) + clus * 4 / 512 →
    con d (world (bs s')) l = con d (world (bs s)) l) ∧
  (fat_on_disk s → (entry_write clus s s').1 = 0 → fat_on_disk s').
Proof.
  intros Hm Hreg Hv Hc. cbv zeta. pose proof Hm as [Hbps Hmx Hf Hlen Hrsv Hfsz _].
  destruct (fat_index (mnt s) clus Hm Hc) as [Hidx Hin].
  unfold entry_write, fat_set_entry. rewrite (proj2 (Z.leb_gt _ _)) by lia.
  rewrite (u32_small (clus * 4)) by lia. rewrite Hbps.
  change (Z.lnot (512 - 1)) with (Z.lnot (2 ^ 9 - 1)). rewrite land_lnot_mask by lia.
  change (2 ^ 9) with 512. set (k := clus * 4 / 512).
  assert (0 ≤ k < fatsz (mnt s) ∧ 512 * k ≤ clus * 4 < 512 * k + 512) as (Hk & Hkb).
  { unfold k. pose proof (Z.div_mod (clus * 4) 512). pose proof (Z.mod_pos_bound (clus * 4) 512). lia. }
  set (m' := set_fat _ (mnt s)).
  assert (take (Z.to_nat 512) (drop (Z.to_nat (k * 512)) (fat m')) = fat_sector m' k) as Hsec.
  { unfold fat_sector, m'. cbn [bytes_per_sector set_fat]. by rewrite Hbps. }
  rewrite Hsec. destruct (dev_write _ _ _ _) as [r w] eqn:Hw. cbn [mnt bs world set_world fst snd].
  rewrite Hw. cbn [fst snd].
  assert (0 ≤ reserved_sectors (mnt s) + k < LBA_MAX) as Hlba by (unfold LBA_MAX; lia).
  split_and!; [done| |].
  - intros d l Hd Hne. eapply write1_other; [exact Hreg|done|exact Hlba|exact Hw|done].
  - unfold fat_on_disk. intros Hsync ->. cbn [mnt bs world set_world].
    change (fatsz m') with (fatsz (mnt s)). change (fm_dev m') with (fm_dev (mnt s)).
    change (reserved_sectors m') with (reserved_sectors (mnt s)). intros j Hj.
    destruct (decide (j = k)) as [->|Hjk].
    { eapply write1_ok; [exact Hreg|exact Hlba|exact Hw]. }
    rewrite (write1_other _ _ _ _ _ _ _ _ Hreg Hreg Hlba Hw) by (right; lia).
    rewrite Hsync by done. rewrite !fat_sector_block by (done || lia). apply block_ext.
    intros i Hi. unfold m'. cbn [fat set_fat]. rewrite lookup_put32_ne; [done|]. lia.
Qed.

(** ** Mounting *)

(** Cluster range the mount computes: what the volume has, cut down to what
    the table can describe. *)
Lemma mount_range fsz spc totsec ds :
  0 < fsz → fsz * 512 ≤ 2 ^ 24 → 1 ≤ spc < 256 → 2 ≤ ds < totsec → totsec < 2 ^ 32 →
  let maxc := u32 ((totsec - ds) / spc + 2) in
  let fat_entries := u32 (fsz * 512) / 4 in
  let maxc := if fat_entries <=? maxc
              then (if negb (fat_entries =? 0) then fat_entries - 1 else 2) else maxc in
  2 ≤ maxc < 2 ^ 24 ∧ 4 * maxc ≤ fsz * 512 ∧ (maxc - 2) * spc ≤ totsec - ds.
Proof.
  intros Hf Hf24 Hs Hd Ht. cbv zeta.
  assert ((totsec - ds) / spc * spc ≤ totsec - ds ∧ 0 ≤ (totsec - ds) / spc ≤ totsec - ds) as (Hq & Hqr).
  { pose proof (Z.div_mod (totsec - ds) spc). pose proof (Z.mod_pos_bound (totsec - ds) spc). nia. }
  rewrite (u32_small (fsz * 512)), (u32_small (_ + 2)) by lia.
  replace (fsz * 512 / 4) with (fsz * 128) by (replace (fsz * 512) with (fsz * 128 * 4) by lia;
    by rewrite Z.div_mul).
  destruct (Z.leb_spec (fsz * 128) ((totsec - ds) / spc + 2)) as [Hle|Hgt].
  - rewrite (proj2 (Z.eqb_neq (fsz * 128) 0)) by lia. cbn [negb]. split_and!; [lia..|]. nia.
  - split_and!; [lia..|]. nia.
Qed.

Lemma cluster_end c maxc spc size :
  2 ≤ c < maxc → 0 ≤ spc → (maxc - 2) * spc ≤ size → 0 ≤ (c - 2) * spc ∧ (c - 2) * spc + spc ≤ size.
Proof.
  intros Hc Hs Hm. split; [apply Z.mul_nonneg_nonneg; lia|].
  transitivity ((maxc - 2) * spc); [|done].
  replace ((c - 2) * spc + spc) with ((c - 1) * spc) by lia. apply Z.mul_le_mono_nonneg_r; lia.
Qed.

(** The sectors of every cluster lie between the data area and [num]. *)
Definition clusters_inside (num : Z) (m : fat_mount D) : Prop :=
  ∀ c, 2 ≤ c < max_cluster m →
    data_start_lba m ≤ cluster_lba m c ∧ cluster_lba m c + sectors_per_cluster m ≤ num.

(** A volume of [num] sectors the driver can work on. *)
Record volume (num : Z) (m : fat_mount D) : Prop := {
  vo_mount : mount_ok m;
  vo_inside : clusters_inside num m;
  vo_spc : 1 ≤ sectors_per_cluster m < 256;
  vo_csize : cluster_size m = 512 * sectors_per_cluster m;
  vo_data : reserved_sectors m + fatsz m ≤ data_start_lba m < 2 ^ 32;
  vo_root : 2 ≤ root_cluster m;
}.

Lemma bpb_checks bpb bps spc rsv nf f16 root fsz :
  bytes_ok bpb → bps = le16 bpb 11 → spc = byte_at bpb 13 → rsv = le16 bpb 14 →
  nf = byte_at bpb 16 → f16 = le16 bpb 22 → root = le32 bpb 44 →
  fsz = (if negb (f16 =? 0) then f16 else le32 bpb 36) →
  negb (bps =? 512) || (4096 <? bps) || (spc =? 0) || (fsz =? 0) || (rsv =? 0)
     || (negb (nf =? 1) && negb (nf =? 2)) || (root <? 2)
     || (negb (f16 =? 0) && negb (spc =? 0)) = false →
  bps = 512 ∧ 1 ≤ spc < 256 ∧ 0 < fsz < 2 ^ 32 ∧ 0 < rsv < 2 ^ 16 ∧ (nf = 1 ∨ nf = 2) ∧ 2 ≤ root.
Proof.
  intros Hb -> -> -> -> -> -> -> E. pose proof (byte_at_range bpb 13 Hb).
  pose proof (le16_range bpb 14 Hb). pose proof (le16_range bpb 22 Hb).
  pose proof (le32_range bpb 36 Hb).
  destruct (negb (le16 bpb 22 =? 0)); bool_split; lia.
Qed.

Lemma bpb_total bpb num tot :
  bytes_ok bpb → 0 < num →
  tot = (if negb (le16 bpb 19 =? 0) then le16 bpb 19 else le32 bpb 32) →
  let ts := if negb (tot =? 0) && negb (num =? 0) && (num <? tot) then u32 num else tot in
  ts ≤ num ∧ ts < 2 ^ 32.
Proof.
  intros Hb Hn Ht. assert (0 ≤ tot < 2 ^ 32).
  { pose proof (le16_range bpb 19 Hb). pose proof (le32_range bpb 32 Hb). subst tot.
    destruct (negb _); lia. }
  cbv zeta. destruct (_ && _) eqn:E; bool_split; [rewrite u32_small by lia|..]; lia.
Qed.

Lemma bpb_mount_spec d num bpb m :
  bytes_ok bpb → 0 < num → bpb_mount d 512 num bpb = Some m → fat_bytes m ≤ 2 ^ 24 →
  fm_dev m = d ∧ bytes_per_sector m = 512 ∧ 2 ≤ max_cluster m < 2 ^ 24 ∧
  4 * max_cluster m ≤ fatsz m * 512 ∧ 0 < reserved_sectors m < 2 ^ 16 ∧ 0 < fatsz m < 2 ^ 32 ∧
  2 ≤ root_cluster m ∧ reserved_sectors m + fatsz m ≤ data_start_lba m < 2 ^ 32 ∧
  1 ≤ sectors_per_cluster m < 256 ∧ cluster_size m = 512 * sectors_per_cluster m ∧
  clusters_inside num m.
Proof.
  intros Hb Hn. unfold bpb_mount. cbv zeta.
  match goal with |- (if ?c then _ else _) = _ → _ => destruct c eqn:Econd end; [done|].
  apply (bpb_checks bpb) in Econd as (Hbps & Hspc & Hfsz & Hrsv & Hnf & Hroot); try done.
  pose proof (bpb_total bpb num _ Hb Hn eq_refl) as Hts. cbv zeta in Hts.
  set (fsz := if negb (le16 bpb 22 =? 0) then _ else _) in *.
  set (ts := if negb (_ =? 0) && _ && _ then _ else _) in *.
  rewrite Hbps. set (rdl := (le16 bpb 17 * 32 + 512 - 1) / 512).
  assert (0 ≤ rdl) as Hrdl.
  { pose proof (le16_range bpb 17 Hb). unfold rdl. apply Z.div_pos; lia. }
  set (ds := le16 bpb 14 + byte_at bpb 16 * fsz + rdl).
  destruct (Z.leb_spec ts ds) as [|Hds]; [done|]. rewrite (proj2 (Z.ltb_lt ds ts)) by done.
  assert (le16 bpb 14 + fsz ≤ ds) as Hds2 by (unfold ds; destruct Hnf as [-> | ->]; lia).
  clearbody fsz ts rdl ds. intros [= <-]. cbn. intros Hf24.
  destruct (mount_range fsz (byte_at bpb 13) ts ds) as (Hmx & Hm4 & Hin); [lia..|]. cbv zeta in *.
  set (maxc := if _ <=? _ then _ else _) in *. split_and!; try done; [lia..|by apply u32_small; lia|].
  intros c Hc. cbn [max_cluster] in Hc. unfold cluster_lba. cbn. rewrite (u32_small (c - 2)) by lia.
  destruct (cluster_end c maxc (byte_at bpb 13) (ts - ds)) as [Hc0 Hc1]; [lia..|].
  rewrite u64_small by lia. lia.
Qed.

(** C34. What [fat_mount] accepts is safe to run on: if it mounts a 512-byte
    sector device whose FAT fits the 16 MiB kernel heap, every cluster number
    below [max_cluster] indexes inside the cached table, the sectors of every
    such cluster lie inside the device and behind the FAT, and the cached table
    is the FAT on the device, whatever the boot sector claims. *)
Theorem fat_mount_safe d num alloc_ok buf fatbuf j (st : blk_state W D) m j' st' :
  registered d → 0 < num →
  (∀ l, length (con d (world st) l) = 512%nat ∧ bytes_ok (con d (world st) l)) →
  fat_mount_dev d 512 num alloc_ok buf fatbuf j st = (Some (m, j'), st') →
  fat_bytes m ≤ 2 ^ 24 →
  volume num m ∧ fm_dev m = d ∧ fat_on_disk (Fs m j' st') ∧
  active j' = false ∧ jdev j' = d ∧ cache st' = cache st.
Proof.
  intros Hreg Hnum Hsec. unfold fat_mount_dev.
  destruct (dev_read d 0 1 [buf] (world st)) as [[r secs] w1] eqn:Hr1.
  destruct (Z.eqb_spec r 0) as [->|]; cbn [negb]; [|by intros [=]].
  assert (∀ l, con d w1 l = con d (world st) l) as Hc1.
  { intros l. eapply read_con; [exact Hreg|exact Hreg| | |exact Hr1]; unfold LBA_MAX; lia. }
  apply read1_ok in Hr1 as ->; [|done|unfold LBA_MAX; lia].
  destruct (bpb_mount _ _ _ _) as [m0|] eqn:Ebpb; [|by intros [=]].
  destruct alloc_ok; cbn [negb]; [|by intros [=]]. cbn [world set_world].
  destruct (dev_read d (reserved_sectors m0) (fatsz m0) fatbuf w1) as [[r secs] w2] eqn:Hr2.
  destruct (Z.eqb_spec r 0) as [->|]; cbn [negb]; [|by intros [=]].
  destruct (dev_read d 0 1 _ w2) as [[r3 s3] w3] eqn:Hr3.
  destruct (dev_read d (data_start_lba m0) 1 _ w3) as [[r4 s4] w4] eqn:Hr4.
  intros [= <- <- <-] Hf24.
  apply bpb_mount_spec in Ebpb as (Hd & Hbps & Hmx & Hm4 & Hrsv & Hfsz & Hroot & Hds & Hspc & Hcs & Hin);
    [|apply (Hsec 0)|done|exact Hf24].
  assert (∀ l, con d w2 l = con d w1 l) as Hc2.
  { intros l. eapply read_con; [exact Hreg|exact Hreg| | |exact Hr2]; unfold LBA_MAX; lia. }
  assert (∀ l, con d w4 l = con d (world st) l) as Hc4.
  { intros l. rewrite <- Hc1, <- Hc2. transitivity (con d w3 l);
      (eapply read_con; [exact Hreg|exact Hreg| | |eassumption]; unfold LBA_MAX; lia). }
  apply read_ok in Hr2 as ->; [|done|unfold LBA_MAX; lia|lia].
  set (secs := con d w1 <$> seqZ (reserved_sectors m0) (fatsz m0)).
  assert (Forall (λ x, length x = 512%nat ∧ bytes_ok x) secs) as Hsecs.
  { apply Forall_fmap, Forall_forall. intros l _. simpl. rewrite Hc1. apply Hsec. }
  assert (length (concat secs) = (Z.to_nat (fatsz m0) * 512)%nat) as Hlen.
  { rewrite (length_concat_blocks 512); [|by eapply Forall_impl; [exact Hsecs|intros ? []]].
    unfold secs. by rewrite length_fmap, length_seqZ. }
  split_and!; [|done| |done..].
  - split; [|done..]. split; cbn; try done; [lia..|]. apply Forall_concat.
    eapply Forall_impl; [exact Hsecs|]. by intros ? [].
  - intros k Hk. cbn [mnt bs world set_world] in *. change (fatsz (set_fat _ m0)) with (fatsz m0) in Hk.
    rewrite fat_sector_block by (done || lia). cbn [fat set_fat fm_dev reserved_sectors].
    rewrite Hd, Hc4. symmetry. apply block_concat; [by eapply Forall_impl; [exact Hsecs|intros ? []]|].
    unfold secs. rewrite list_lookup_fmap, lookup_seqZ_lt by lia. simpl. by rewrite Hc1, Z2Nat.id by lia.
Qed.
End theorems.

(** A sixty-four-sector volume: boot sector, one FAT sector, one-sector
    clusters.  The root directory is cluster 2 and holds one file of 700 bytes,
    [hi.txt], in the clusters 3 and 4. *)
Module FatDemo.
Definition boot : sector :=
  put32 44 2 (put32 36 1 (put32 32 64 (put8 16 1 (put16 14 1 (put8 13 1 (put16 11 512
    (replicate 512 0))))))).
Definition table : sector := put32 16 EOC (put32 12 4 (put32 8 EOC (replicate 512 0))).
Definition root : sector :=
  put32 28 700 (put16 26 3 ([72; 73; 32; 32; 32; 32; 32; 32; 84; 88; 84; 32] ++ replicate 500 0)).
Definition disk : ramdisk :=
  Ramdisk 64 [] (λ l, if l =? 0 then boot else if l =? 1 then table else if l =? 2 then root
                      else replicate 512 (l mod 256)).
Definition st0 : blk_state ramdisk unit :=
  blk_cache_init tt (BlkState (λ _, Entry 0 [] true true true tt) disk).
Definition j0 : journal unit := Journal 0 (λ _, JEntry 0 [] false) 0 false tt.
Definition mounted : option (fat_mount unit * journal unit) * blk_state ramdisk unit :=
  fat_mount_dev tt 512 64 true [] [] j0 st0.
Definition m0 : fat_mount unit := FatMount tt 512 1 512 1 1 1 2 2 64 table 512.
Definition s0 : fs ramdisk unit := Fs m0 (fat32_journal_init tt j0) st0.

Lemma m0_ok : mount_ok m0.
Proof.
  split; [reflexivity|vm_compute; split; [discriminate|reflexivity]|vm_compute; discriminate|
    reflexivity|vm_compute; split; [discriminate|reflexivity]|vm_compute; split; [discriminate|reflexivity]|].
  by_eval.
Qed.

Lemma disk_ok l : length (con tt disk l) = 512%nat ∧ bytes_ok (con tt disk l).
Proof.
  change (con tt disk l) with (if l =? 0 then boot else if l =? 1 then table else if l =? 2 then root
    else replicate 512 (l mod 256)).
  destruct (l =? 0); [split; [reflexivity|by_eval]|].
  destruct (l =? 1); [split; [reflexivity|by_eval]|].
  destruct (l =? 2); [split; [reflexivity|by_eval]|].
  split; [apply length_replicate|]. apply Forall_replicate. apply Z.mod_pos_bound. lia.
Qed.

Lemma file_chain : fchain m0 3 [3; 4].
Proof. split_and!; try reflexivity; try (by_eval). Qed.

Lemma root_chain : fchain m0 2 [2].
Proof. split_and!; try reflexivity; try (by_eval). Qed.
End FatDemo.

(** The two-cluster file grows to three clusters; the root directory's chain
    is untouched. *)
Lemma alloc_chain_extends_witness :
  ∃ h s', alloc_chain 64 3 1500 FatDemo.s0 = Some (h, s') ∧ mount_ok (mnt s') ∧
    fchain (mnt s') 2 [2] ∧ fat_next_cluster (mnt s') 4 = 5.
Proof.
  destruct (alloc_chain_extends 3 1500 FatDemo.s0 [3; 4] FatDemo.m0_ok FatDemo.file_chain
    ltac:(by_eval) ltac:(lia) ltac:(simpl; lia))
    as (h & s' & new & E & Hg & _ & _ & _ & Ho).
  exists h, s'. split; [exact E|]. split; [apply Hg|]. split.
  - apply (Ho 2 [2] FatDemo.root_chain ltac:(by_eval)).
    intros x Hx. apply list_elem_of_singleton in Hx as ->. by_eval.
  - change s' with (default FatDemo.s0 (snd <$> Some (h, s'))). rewrite <- E. vm_compute. reflexivity.
Defined.

Lemma free_chain_terminates_witness :
  ∃ s', free_chain 64 3 FatDemo.s0 = Some s' ∧ mount_ok (mnt s') ∧
    fat_next_cluster (mnt s') 4 = 0 ∧ fat_next_cluster (mnt s') 2 = EOC.
Proof.
  destruct (free_chain_terminates FatDemo.s0 3 FatDemo.m0_ok ltac:(lia)) as [[s' E] Hl].
  exists s'. split; [exact E|].
  destruct (Hl [3; 4] s' FatDemo.file_chain ltac:(repeat constructor) E) as [Hm Hn].
  split; [exact Hm|]. split; rewrite Hn by lia; vm_compute; reflexivity.
Defined.

Lemma fat_mount_safe_witness :
  ∃ m j' st', FatDemo.mounted = (Some (m, j'), st') ∧ volume 64 m ∧ fm_dev m = tt.
Proof.
  assert (is_Some (FatDemo.mounted.1)) as Hs by (vm_compute; eauto).
  assert (fat_bytes (default FatDemo.m0 (fst <$> FatDemo.mounted.1)) = 512) as Hb
    by (vm_compute; reflexivity).
  destruct FatDemo.mounted as [[[m j']|] st'] eqn:E; [|destruct Hs; discriminate].
  exists m, j', st'. split; [reflexivity|].
  destruct (fat_mount_safe tt 64 true [] [] FatDemo.j0 FatDemo.st0 m j' st'
    (ram_registered _) ltac:(lia) FatDemo.disk_ok E) as (Hm & Hdev & _).
  - cbn in Hb. rewrite Hb. lia.
  - split; assumption.
Defined.
