(* ===== verification/FatDir.v ===== *)
(** Directories of the FAT32 driver: records, the scan of a directory, path
    resolution, enumeration and lookup ([include/fat32_priv.h],
    [kernel/fs/fat32/fat32_dir.c], [fat_lookup_impl] of [fat32_file.c]).

    The operations run in a state monad over [fs]; [None] means that a walk of
    a cluster chain used up its fuel.  A chain of a mounted volume has at most
    [max_cluster] clusters unless it is cyclic, and the C loops have no bound
    of their own.  A 32-byte record is the list of its bytes. *)
From S2P Require Import Prelude Bytes Cstring BlkDev BlkCache Journal FatName FatTable.

(** ** The monad *)

Definition M (W D A : Type) : Type := fs W D → option (A * fs W D).
#[global] Instance M_ret W D : MRet (M W D) := λ A x s, Some (x, s).
#[global] Instance M_bind W D : MBind (M W D) := λ A B f m s,
  match m s with Some (x, s') => f x s' | None => None end.

Definition gets {W D A} (f : fs W D → A) : M W D A := λ s, Some (f s, s).
Definition out_of_fuel {W D A} : M W D A := λ _, None.

(** What a loop body does next: go on with a new loop state or leave. *)
Inductive ctl (A R : Type) := Go (a : A) | Stop (r : R).
Arguments Go {A R}.
Arguments Stop {A R}.

(** ** Records *)

Abbreviation dirent := (list Z).

Definition de_name (e : dirent) : list Z := take 11 e.
Definition de_attr (e : dirent) : Z := byte_at e 11.
Definition fstclushi (e : dirent) : Z := le16 e 20.
Definition fstcluslo (e : dirent) : Z := le16 e 26.
Definition filesize (e : dirent) : Z := le32 e 28.
Definition set_cluster (c : Z) (e : dirent) : dirent := put16 20 (Z.shiftr c 16) (put16 26 (Z.land c 0xFFFF) e).
Definition set_filesize (n : Z) (e : dirent) : dirent := put32 28 n e.

(** [((u32)e->fstclushi << 16) | e->fstcluslo] *)
Definition de_cluster (e : dirent) : Z := Z.lor (Z.shiftl (fstclushi e) 16) (fstcluslo e).

Definition ATTR_VOLUME : Z := 0x08.
Definition ATTR_DIR : Z := 0x10.
Definition ATTR_ARCHIVE : Z := 0x20.
Definition ENT_FREE : Z := 0x00.
Definition ENT_E5 : Z := 0xE5.
Definition ENT_END : Z := 0x05.

Definition entry_used (e : dirent) : bool :=
  negb (byte_at e 0 =? ENT_FREE) && negb (byte_at e 0 =? ENT_E5).
Definition is_lfn (e : dirent) : bool := Z.land (de_attr e) ATTR_LFN =? ATTR_LFN.
Definition is_dir (e : dirent) : bool := negb (Z.land (de_attr e) ATTR_DIR =? 0).

(** The record at offset [off] of a buffer. *)
Definition record_at (buf : list Z) (off : nat) : dirent := take DIRENT_SIZE (drop off buf).

(** The C string a character buffer holds. *)
Fixpoint c_str (l : list Z) : list Z :=
  match l with
  | [] => []
  | c :: l' => if c =? 0 then [] else c :: c_str l'
  end.

(** ** Loops over a directory *)

(** The contents of fresh buffers: a cluster from the heap, a sector and the
    long-name state on the stack. *)
Record scratch := Scratch { s_clus : list sector; s_sec : sector; s_lfn : lfn_state }.

Section dir.
Context {W D : Type} `{EqDecision D} `{Disks W D}.
Context (scr : scratch).

(** [for (c = first; !cluster_is_eoc(c) && c >= 2; c = fat_next_cluster(m, c))] *)
Fixpoint walk_chain {A R} (fuel : nat) (body : Z → A → M W D (ctl A R)) (c : Z) (a : A)
  : M W D (ctl A R) :=
  if negb (cluster_is_eoc c) && (2 <=? c) then
    match fuel with
    | O => out_of_fuel
    | S f =>
        x ← body c a;
        match x with
        | Go a => nx ← gets (λ s, fat_next_cluster (mnt s) c); walk_chain f body nx a
        | Stop r => mret (Stop r)
        end
    end
  else mret (Go a).

(** The loop over the records of a buffer: [n] records from [off] on; the body
    gets the offset and the record. *)
Fixpoint walk_records {A R} (body : nat → dirent → A → ctl A R) (buf : list Z) (off n : nat) (a : A)
  : ctl A R :=
  match n with
  | O => Go a
  | S n' => match body off (record_at buf off) a with
            | Go a => walk_records body buf (off + DIRENT_SIZE) n' a
            | Stop r => Stop r
            end
  end.

(** The loop over [n] sectors from [lba] on. *)
Fixpoint walk_sectors {A R} (body : Z → A → M W D (ctl A R)) (lba : Z) (n : nat) (a : A)
  : M W D (ctl A R) :=
  match n with
  | O => mret (Go a)
  | S n' => x ← body lba a;
            match x with
            | Go a => walk_sectors body (u64 (lba + 1)) n' a
            | Stop r => mret (Stop r)
            end
  end.

(** The number of records the loops [off < cluster_size] and
    [doff <= bytes_per_sector - DIRENT_SIZE] visit. *)
Definition cluster_records (m : fat_mount D) : nat := Z.to_nat ((cluster_size m + 31) / 32).
Definition sector_records (m : fat_mount D) : nat :=
  Z.to_nat (u32 (bytes_per_sector m - 32) / 32 + 1).

(** [m->dev->read(m->dev, lba, count, buf)] *)
Definition m_read (lba count : Z) (buf : list sector) : M W D (Z * list sector) := λ s,
  let '(r, buf, w) := dev_read (fm_dev (mnt s)) lba count buf (world (bs s)) in
  Some (r, buf, Fs (mnt s) (jr s) (set_world w (bs s))).

(** ** The scan *)

(** One record; [cb] is the callback on the name, the record and its
    context. *)
Definition scan_record {C} (cb : list Z → dirent → C → bool * C) (e : dirent)
    (a : lfn_state * C) : ctl (lfn_state * C) (bool * C) :=
  let '(lf, c) := a in
  if byte_at e 0 =? ENT_END then Stop (false, c)
  else if negb (entry_used e) then Go (lfn_reset lf, c)
  else if is_lfn e then Go (lfn_add e lf, c)
  else if negb (Z.land (de_attr e) ATTR_VOLUME =? 0) then Go (lf, c)
  else
    let '(hit, c) := cb (c_str (lfn_name lf (de_name e))) e c in
    if hit then Stop (true, c) else Go (lfn_reset lf, c).

Definition fat_scan_dir {C} (fuel : nat) (dirclus : Z) (cb : list Z → dirent → C → bool * C) (c : C)
  : M W D (bool * C) :=
  m ← gets mnt;
  x ← walk_chain fuel (λ clus '(buf, (lf, c)),
        '(_, buf) ← m_read (cluster_lba m clus) (sectors_per_cluster m) buf;
        mret (match walk_records (λ _, scan_record cb) (concat buf) 0 (cluster_records m) (lf, c) with
              | Go a => Go (buf, a)
              | Stop r => Stop r
              end))
      dirclus (s_clus scr, (lfn_reset (s_lfn scr), c));
  mret (match x with Go (_, (_, c)) => (false, c) | Stop r => r end).

(** The context is [fc.found]. *)
Definition fat_scan_find_cb (want name : list Z) (e found : dirent) : bool * dirent :=
  if names_equal name want || fat_name_eq_short want (de_name e) then (true, e) else (false, found).

Definition scan_find (fuel : nat) (dirclus : Z) (want : list Z) : M W D (bool * dirent) :=
  fat_scan_dir fuel dirclus (fat_scan_find_cb want) (replicate DIRENT_SIZE 0).

(** ** Paths *)

Record resolve := Resolve { dir_cluster : Z; r_name : list Z; r_de : dirent; found : bool }.

Fixpoint skip_slashes (p : list Z) : list Z :=
  match p with
  | c :: p' => if c =? SLASH then skip_slashes p' else p
  | [] => []
  end.

(** The loop of [fat_resolve_path]: every turn consumes a component of [p], so
    a fuel of [length p + 1] turns is enough.  The fields of a result with
    [found] false are those of [r]. *)
Fixpoint resolve_loop (turns fuel : nat) (cur : Z) (p : list Z) (r : resolve) : M W D (bool * resolve) :=
  match turns with
  | O => out_of_fuel
  | S turns' =>
      let sl := index_of SLASH p in
      let comp := match sl with Some i => take i p | None => p end in
      if (56 <=? length comp)%nat then mret (false, r) else
      '(hit, de) ← scan_find fuel cur comp;
      if negb hit then mret (false, r) else
      match sl with
      | None => mret (true, Resolve cur comp de true)
      | Some i =>
          if negb (is_dir de) then mret (false, r) else
          let cur := de_cluster de in
          let p := skip_slashes (drop (S i) p) in
          if decide (p = []) then mret (true, Resolve cur comp de true)
          else resolve_loop turns' fuel cur p r
      end
  end.

(** [r] holds what the caller's structure contained before. *)
Definition fat_resolve_path (fuel : nat) (path : list Z) (r : resolve) : M W D (bool * resolve) :=
  m ← gets mnt;
  let r := Resolve (root_cluster m) (r_name r) (r_de r) false in
  let p := skip_slashes path in
  if decide (p = []) then mret (true, r)
  else resolve_loop (S (length p)) fuel (root_cluster m) p r.

(** ** Enumeration *)

Record iter_ctx := IterCtx { target : Z; seen : Z; i_name : list Z; i_type : Z; i_hit : bool }.

Definition scan_iter_cb (name : list Z) (e : dirent) (c : iter_ctx) : bool * iter_ctx :=
  if byte_at name 0 =? DOT then (false, c)
  else if seen c =? target c
  then (true, IterCtx (target c) (u64 (seen c + 1)) (take 55 name) (if is_dir e then 4 else 8) true)
  else (false, IterCtx (target c) (u64 (seen c + 1)) (i_name c) (i_type c) (i_hit c)).

(** The return code, the new cookie and what is stored in [struct
    dirent_out]. *)
Definition fat_dir_iter (fuel : nat) (r : resolve) (cookie : Z)
  : M W D (Z * Z * option (list Z * Z)) :=
  let dc := de_cluster (r_de r) in
  let want_idx := Z.shiftr cookie 8 in
  let seen_exhausted := Z.land cookie 1 in
  if negb (seen_exhausted =? 0) then mret (LNXRM_EFAIL, cookie, None) else
  '(_, ctx) ← fat_scan_dir fuel dc scan_iter_cb (IterCtx want_idx 0 [] 0 false);
  if negb (i_hit ctx) then mret (LNXRM_EFAIL, Z.lor cookie 1, None)
  else mret (0, Z.lor (u64 (Z.shiftl (want_idx + 1) 8)) seen_exhausted,
             Some (take 55 (i_name ctx), i_type ctx)).

Definition fat32_getdent_impl (fuel : nat) (dirnode : resolve) (cookie : Z)
  : M W D (Z * Z * option (list Z * Z)) := fat_dir_iter fuel dirnode cookie.

(** ** Lookup *)

Inductive vnode_type := V_REG | V_DIR | V_CHR.
Record vnode := Vnode { v_type : vnode_type; v_size : Z; fs_data : resolve }.

Definition fat_lookup_impl (fuel : nat) (path : list Z) : M W D (Z * option vnode) :=
  m ← gets mnt;
  let path := skip_slashes path in
  if decide (path = []) then
    let de := set_cluster (root_cluster m) (put8 11 ATTR_DIR (replicate DIRENT_SIZE 0)) in
    mret (0, Some (Vnode V_DIR 0 (Resolve (root_cluster m) [] de false)))
  else
    '(ok, r) ← fat_resolve_path fuel path (Resolve 0 [] [] false);
    if negb ok || negb (found r) then mret (LNXRM_EFAIL, None)
    else if is_dir (r_de r) then mret (0, Some (Vnode V_DIR 0 r))
    else mret (0, Some (Vnode V_REG (filesize (r_de r)) r)).
End dir.
