(* ===== verification/FatFile.v ===== *)
(** File contents: [fat_read_impl] and [fat_write_impl] of
    [kernel/fs/fat32/fat32_file.c], with the sector access of
    [include/fat32_priv.h]. *)
From S2P Require Import Prelude Bytes Cstring BlkDev BlkCache Journal FatName FatTable FatDir.

Section file.
Context {W D : Type} `{EqDecision D} `{Disks W D}.
Context (scr : scratch).

(** ** Sectors through the cache, and the journal *)

Definition fat_read_sector (lba : Z) (buf : sector) : M W D (Z * sector) := λ s,
  let '(r, b, st) := blk_cache_read (fm_dev (mnt s)) lba (Some buf) (bs s) in
  Some (r, default buf b, Fs (mnt s) (jr s) st).

Definition fat_write_sector (lba : Z) (buf : sector) : M W D Z := λ s,
  let '(r, st) := blk_cache_write (fm_dev (mnt s)) lba (Some buf) (bs s) in
  Some (r, Fs (mnt s) (jr s) st).

Definition j_begin : M W D Z := λ s,
  let '(r, j) := fat32_journal_begin (jr s) in Some (r, Fs (mnt s) j (bs s)).
Definition j_add (lba : Z) (buf : sector) : M W D Z := λ s,
  let '(r, j) := fat32_journal_add lba buf (jr s) in Some (r, Fs (mnt s) j (bs s)).
Definition j_commit : M W D Z := λ s,
  let '(r, j, st) := fat32_journal_commit (jr s) (bs s) in Some (r, Fs (mnt s) j st).
Definition j_abort : M W D Z := λ s,
  let '(r, j) := fat32_journal_abort (jr s) in Some (r, Fs (mnt s) j (bs s)).

(** [fat32_journal_add(lba, buf); fat_write_sector(m, lba, buf);] *)
Definition log_sector (lba : Z) (buf : sector) : M W D unit :=
  _ ← j_add lba buf; _ ← fat_write_sector lba buf; mret tt.

(** ** Reading *)

(** [while (skip >= m->cluster_size && !cluster_is_eoc(clus) && clus >= 2)] *)
Fixpoint skip_clusters (fuel : nat) (m : fat_mount D) (skip clus : Z) : option (Z * Z) :=
  if (cluster_size m <=? skip) && negb (cluster_is_eoc clus) && (2 <=? clus) then
    match fuel with
    | O => None
    | S f => skip_clusters f m (skip - cluster_size m) (fat_next_cluster m clus)
    end
  else Some (skip, clus).

(** The copy loop; [out] are the bytes stored in the caller's buffer so
    far. *)
Fixpoint read_loop (fuel : nat) (n clus in_clus done : Z) (tmp : list sector) (out : list Z)
  : M W D (Z * list Z) :=
  if (done <? n) && negb (cluster_is_eoc clus) && (2 <=? clus) then
    match fuel with
    | O => out_of_fuel
    | S f =>
        m ← gets mnt;
        let sec_off := in_clus mod bytes_per_sector m in
        let chunk := Z.min (n - done) (bytes_per_sector m - sec_off) in
        '(r, tmp) ← m_read (u64 (cluster_lba m clus + in_clus / bytes_per_sector m)) 1 tmp;
        if negb (r =? 0) then mret (done, out) else
        let out := out ++ take (Z.to_nat chunk) (drop (Z.to_nat sec_off) (concat tmp)) in
        let done := u64 (done + chunk) in
        let in_clus := u32 (in_clus + chunk) in
        if cluster_size m <=? in_clus
        then read_loop f n (fat_next_cluster m clus) 0 done tmp out
        else read_loop f n clus in_clus done tmp out
    end
  else mret (done, out).

(** [ubuf] tells whether the buffer pointer is not null.  The result is the
    return value and the bytes stored at the start of the buffer. *)
Definition fat_read_impl (fuel : nat) (r : resolve) (off : Z) (ubuf : bool) (n : Z)
  : M W D (Z * list Z) :=
  m ← gets mnt;
  if is_dir (r_de r) then mret (LNXRM_EFAIL, []) else
  if negb ubuf && (0 <? n) then mret (LNXRM_EFAIL, []) else
  let clus := de_cluster (r_de r) in
  let size := filesize (r_de r) in
  if size <=? off then mret (0, []) else
  let n := if size <? u64 (off + n) then size - off else n in
  let n := if 1024 * 1024 <? n then 1024 * 1024 else n in
  match skip_clusters fuel m off clus with
  | None => out_of_fuel
  | Some (skip, clus) => read_loop fuel n clus (u32 (skip mod cluster_size m)) 0 [s_sec scr] []
  end.

(** ** Writing *)

(** [memcpy(tmp + off, src, n)] *)
Definition copy_into (off : nat) (src tmp : list Z) : list Z :=
  take off tmp ++ src ++ drop (off + length src) tmp.

Fixpoint write_loop (fuel : nat) (buf : list Z) (n c in_clus done : Z) (tmp : sector)
  : M W D Z :=
  if (done <? n) && negb (cluster_is_eoc c) && (2 <=? c) then
    match fuel with
    | O => out_of_fuel
    | S f =>
        m ← gets mnt;
        let lba := u64 (cluster_lba m c + in_clus / bytes_per_sector m) in
        let sec_off := in_clus mod bytes_per_sector m in
        let chunk := Z.min (n - done) (bytes_per_sector m - sec_off) in
        '(_, tmp) ← fat_read_sector lba tmp;
        let tmp := copy_into (Z.to_nat sec_off) (take (Z.to_nat chunk) (drop (Z.to_nat done) buf)) tmp in
        _ ← log_sector lba tmp;
        let done := u64 (done + chunk) in
        let in_clus := u32 (in_clus + chunk) in
        if cluster_size m <=? in_clus
        then write_loop f buf n (fat_next_cluster m c) 0 done tmp
        else write_loop f buf n c in_clus done tmp
    end
  else mret done.

(** The record of the file in a sector of its directory gets the new size and
    first cluster: [Stop None] at the end marker, [Stop (Some buf)] with the
    updated sector. *)
Definition update_record (de : dirent) (dbuf : list Z) (doff : nat) (e : dirent) (_ : unit)
  : ctl unit (option sector) :=
  if byte_at e 0 =? ENT_END then Stop None
  else if negb (entry_used e) then Go tt
  else if decide (de_name e = de_name de) then
    let e := set_filesize (filesize de) e in
    let e := set_cluster (de_cluster de) e in
    let e := put8 11 (Z.lor (de_attr e) ATTR_ARCHIVE) e in
    Stop (Some (copy_into doff e dbuf))
  else Go tt.

(** [Stop tt] when the loops end early, after the sector was logged or at the
    end marker. *)
Definition update_sector (de : dirent) (lba : Z) (dbuf : sector) : M W D (ctl sector unit) :=
  m ← gets mnt;
  '(_, dbuf) ← fat_read_sector lba dbuf;
  match walk_records (update_record de dbuf) dbuf 0 (sector_records m) tt with
  | Go _ => mret (Go dbuf)
  | Stop None => mret (Stop tt)
  | Stop (Some dbuf) => _ ← log_sector lba dbuf; mret (Stop tt)
  end.

Definition update_dirent (fuel : nat) (dc : Z) (de : dirent) : M W D unit :=
  m ← gets mnt;
  _ ← walk_chain fuel (λ cc dbuf,
        walk_sectors (update_sector de) (cluster_lba m cc) (Z.to_nat (sectors_per_cluster m)) dbuf)
      dc (s_sec scr);
  mret tt.

(** The node is updated in place: the second component is its new contents.
    [buf] is [None] for the null pointer. *)
Definition fat_write_impl (fuel : nat) (r : resolve) (off : Z) (buf : option (list Z)) (n : Z)
  : M W D (Z * resolve) :=
  if is_dir (r_de r) then mret (LNXRM_EFAIL, r) else
  match buf with
  | None =>
      if n =? 0
      then mret (0, Resolve (dir_cluster r) (r_name r) (set_filesize 0 (r_de r)) (found r))
      else mret (LNXRM_EFAIL, r)
  | Some buf =>
      let n := if 1024 * 1024 <? n then 1024 * 1024 else n in
      _ ← j_begin;
      let need := Z.max (u64 (off + n)) (filesize (r_de r)) in
      clus ← (λ s, alloc_chain fuel (de_cluster (r_de r)) need s);
      if clus =? 0 then _ ← j_abort; mret (LNXRM_EIO, r) else
      let de := set_cluster clus (r_de r) in
      m ← gets mnt;
      match skip_clusters fuel m off clus with
      | None => out_of_fuel
      | Some (skip, c) =>
          done ← write_loop fuel buf n c (u32 (skip mod cluster_size m)) 0 (s_sec scr);
          let de := set_filesize (if u64 (off + n) <? need then filesize de else u64 (off + n)) de in
          _ ← update_dirent fuel (dir_cluster r) de;
          _ ← j_commit;
          mret (done, Resolve (dir_cluster r) (r_name r) de (found r))
      end
  end.
End file.
