(* ===== verification/FatMeta.v ===== *)
(** Namespace operations of the FAT32 driver: create, mkdir, rmdir, unlink and
    rename ([kernel/fs/fat32/fat32_meta.c]). *)
From S2P Require Import Prelude Bytes Cstring BlkDev BlkCache Journal FatName FatTable FatDir FatFile.

Definition LFN_ENTRIES_MAX : nat := 20.

(** Where a record lives, and a name with its long-name records. *)
Record dirent_pos := Pos { p_lba : Z; p_off : Z }.
Record dirent_loc := Loc { l_pos : dirent_pos; l_de : dirent; l_lfn : list dirent_pos }.
Definition n_lfn (loc : dirent_loc) : nat := length (l_lfn loc).

Definition set_fat_entry {W D} `{Disks W D} (clus val : Z) : M W D unit := λ s,
  Some (tt, fat_set_entry clus val s).

(** The record [parent_entry_add] stores. *)
Definition new_record (name : list Z) (attr first_clus : Z) : dirent :=
  let e := copy_into 0 (name_to_short name) (replicate DIRENT_SIZE 0) in
  let e := put8 11 attr e in
  let e := put16 16 0x5A00 (put16 14 0x6000 e) in
  let e := put16 24 0x5A00 (put16 22 0x6000 e) in
  set_filesize 0 (set_cluster first_clus e).

Section meta.
Context {W D : Type} `{EqDecision D} `{Disks W D}.
Context (scr : scratch).

(** ** Parent directories *)

(** The name without its directory part, and the directory part; [full] is
    the bounded copy of the path. *)
Definition split_path (full : list Z) : list Z * list Z :=
  match last_index_of SLASH full with
  | Some i => (take i full, drop (S i) full)
  | None => ([], full)
  end.

(** The return code, [pd->name] and [pd->cluster]. *)
Definition parent_dir_init (fuel : nat) (path : list Z) : M W D (Z * (list Z * Z)) :=
  m ← gets mnt;
  let full := take 127 path in
  let '(parent, name) := split_path full in
  let rest (cluster : Z) : M W D (Z * (list Z * Z)) :=
    if decide (name = []) then mret (LNXRM_EFAIL, (name, cluster)) else
    '(hit, _) ← scan_find scr fuel cluster name;
    mret (if hit : bool then LNXRM_EEXIST else 0, (name, cluster)) in
  if decide (parent = []) then rest (root_cluster m) else
  '(ok, rr) ← fat_resolve_path scr fuel parent (Resolve 0 [] [] false);
  if negb ok || negb (found rr) || negb (is_dir (r_de rr))
  then mret (LNXRM_EFAIL, (name, 0))
  else rest (de_cluster (r_de rr)).

(** The first slot of a sector that is free, deleted or an end marker takes
    the new record. *)
Definition claim_record (e' : dirent) (pbuf : list Z) (doff : nat) (e : dirent) (_ : unit)
  : ctl unit sector :=
  if negb (byte_at e 0 =? ENT_END) && negb (byte_at e 0 =? ENT_FREE) && negb (byte_at e 0 =? ENT_E5)
  then Go tt
  else Stop (copy_into doff e' pbuf).

Definition claim_sector (e' : dirent) (lba : Z) (pbuf : sector) : M W D (ctl sector unit) :=
  m ← gets mnt;
  '(_, pbuf) ← fat_read_sector lba pbuf;
  match walk_records (claim_record e' pbuf) pbuf 0 (sector_records m) tt with
  | Go _ => mret (Go pbuf)
  | Stop pbuf => _ ← log_sector lba pbuf; _ ← j_commit; mret (Stop tt)
  end.

Definition parent_entry_add (fuel : nat) (pdir : Z) (name : list Z) (attr first_clus : Z) : M W D Z :=
  m ← gets mnt;
  _ ← j_begin;
  x ← walk_chain fuel (λ cc pbuf,
        walk_sectors (claim_sector (new_record name attr first_clus)) (cluster_lba m cc)
          (Z.to_nat (sectors_per_cluster m)) pbuf)
      pdir (s_sec scr);
  match x with
  | Stop _ => mret 0
  | Go _ => _ ← j_abort; mret LNXRM_EFAIL
  end.

(** ** Record primitives *)

Definition dirent_write (p : dirent_pos) (de : dirent) : M W D unit :=
  '(_, buf) ← fat_read_sector (p_lba p) (s_sec scr);
  log_sector (p_lba p) (copy_into (Z.to_nat (p_off p)) de buf).

Definition dirent_free (p : dirent_pos) : M W D unit :=
  '(_, buf) ← fat_read_sector (p_lba p) (s_sec scr);
  log_sector (p_lba p) (<[Z.to_nat (p_off p) := ENT_E5]> buf).

Fixpoint free_all (ps : list dirent_pos) : M W D unit :=
  match ps with
  | [] => mret tt
  | p :: ps => _ ← dirent_free p; free_all ps
  end.

Definition free_dirent_record (loc : dirent_loc) : M W D unit :=
  _ ← free_all (l_lfn loc); dirent_free (l_pos loc).

(** The state of [dirent_locate] is the run of long-name records, of which
    the first [LFN_ENTRIES_MAX] are kept.  [Stop None] ends the search. *)
Definition locate_record (m : fat_mount D) (clba : Z) (sn : list Z) (off : nat) (e : dirent)
    (run : list dirent_pos) : ctl (list dirent_pos) (option dirent_loc) :=
  if byte_at e 0 =? ENT_FREE then Stop None
  else if negb (entry_used e) then Go []
  else
    let p := Pos (u64 (clba + Z.of_nat off / bytes_per_sector m)) (Z.of_nat off mod bytes_per_sector m) in
    if is_lfn e then Go (if (length run <? LFN_ENTRIES_MAX)%nat then run ++ [p] else run)
    else if decide (de_name e = sn) then Stop (Some (Loc p e run))
    else Go [].

(** [mem] tells whether the cluster buffer could be allocated. *)
Definition dirent_locate (fuel : nat) (mem : bool) (dirclus : Z) (sn : list Z)
  : M W D (option dirent_loc) :=
  if negb mem then mret None else
  m ← gets mnt;
  x ← walk_chain fuel (λ c '(buf, run),
        let clba := cluster_lba m c in
        '(_, buf) ← m_read clba (sectors_per_cluster m) buf;
        mret (match walk_records (locate_record m clba sn) (concat buf) 0 (cluster_records m) run with
              | Go run => Go (buf, run)
              | Stop r => Stop r
              end))
      dirclus (s_clus scr, []);
  mret (match x with Go _ => None | Stop r => r end).

(** The claimed run so far and whether the scan is past the end marker. *)
Definition run_record (m : fat_mount D) (clba : Z) (need : nat) (off : nat) (e : dirent)
    (a : list dirent_pos * bool) : ctl (list dirent_pos * bool) (Z * list dirent_pos) :=
  let '(run, in_tail) := a in
  let p := Pos (u64 (clba + Z.of_nat off / bytes_per_sector m)) (Z.of_nat off mod bytes_per_sector m) in
  let take_slot in_tail :=
    let run := run ++ [p] in
    if (need <=? length run)%nat then Stop (0, run) else Go (run, in_tail) in
  if in_tail then
    if negb (byte_at e 0 =? ENT_FREE) then Stop (LNXRM_ENOSPC, []) else take_slot true
  else if byte_at e 0 =? ENT_FREE then take_slot true
  else if negb (byte_at e 0 =? ENT_E5) then Go ([], false)
  else take_slot false.

Definition dir_claim_run (fuel : nat) (mem : bool) (dirclus : Z) (need : nat)
  : M W D (Z * list dirent_pos) :=
  if (need =? 0)%nat || (S LFN_ENTRIES_MAX <? need)%nat then mret (LNXRM_EINVAL, []) else
  if negb mem then mret (LNXRM_ENOMEM, []) else
  m ← gets mnt;
  x ← walk_chain fuel (λ c '(buf, a),
        let clba := cluster_lba m c in
        '(_, buf) ← m_read clba (sectors_per_cluster m) buf;
        mret (match walk_records (run_record m clba need) (concat buf) 0 (cluster_records m) a with
              | Go a => Go (buf, a)
              | Stop r => Stop r
              end))
      dirclus (s_clus scr, ([], false));
  mret (match x with Go _ => (LNXRM_ENOSPC, []) | Stop r => r end).

(** ** Create and mkdir *)

Definition fat_create_impl (fuel : nat) (path : list Z) : M W D Z :=
  '(rc, (name, cluster)) ← parent_dir_init fuel path;
  if negb (rc =? 0) then mret rc else
  rc ← parent_entry_add fuel cluster name ATTR_ARCHIVE 0;
  mret (if negb (rc =? 0) then LNXRM_EFAIL else 0).

Definition dot_record (dots : nat) (cluster : Z) : dirent :=
  set_filesize 0 (set_cluster cluster (put8 11 ATTR_DIR
    (copy_into 0 (replicate dots DOT ++ replicate (11 - dots) SPACE) (replicate DIRENT_SIZE 0)))).

(** The first sector of a new directory. *)
Definition dir_image (new_clus parent : Z) : sector :=
  copy_into DIRENT_SIZE (dot_record 2 parent) (copy_into 0 (dot_record 1 new_clus) (replicate 512 0)).

(** [for (s = 1; s < m->sectors_per_cluster; s++)]: [n] sectors are left. *)
Fixpoint zero_sectors (lba : Z) (n : nat) : M W D unit :=
  match n with
  | O => mret tt
  | S n' => _ ← fat_write_sector lba (replicate 512 0); zero_sectors (u64 (lba + 1)) n'
  end.

Definition fat_mkdir_impl (fuel : nat) (path : list Z) : M W D Z :=
  '(rc, (name, cluster)) ← parent_dir_init fuel path;
  if negb (rc =? 0) then mret rc else
  m ← gets mnt;
  let new_clus := fat_find_free_cluster m in
  if new_clus =? 0 then mret LNXRM_ENOSPC else
  _ ← set_fat_entry new_clus EOC;
  let new_lba := cluster_lba m new_clus in
  _ ← fat_write_sector new_lba (dir_image new_clus cluster);
  _ ← zero_sectors (u64 (new_lba + 1)) (Z.to_nat (sectors_per_cluster m) - 1);
  rc ← parent_entry_add fuel cluster name (Z.lor ATTR_DIR ATTR_ARCHIVE) new_clus;
  if negb (rc =? 0) then _ ← set_fat_entry new_clus 0; mret LNXRM_EFAIL else mret 0.

(** ** Rmdir and unlink *)

(** The number of entries seen; [Stop false] for an entry other than the dots,
    [Stop true] at the end marker. *)
Definition empty_record (e : dirent) (count : nat) : ctl nat (bool * nat) :=
  if byte_at e 0 =? ENT_END then Stop (true, count)
  else if (byte_at e 0 =? ENT_FREE) || (byte_at e 0 =? ENT_E5) then Go count
  else if (byte_at e 0 =? DOT) && ((byte_at e 1 =? SPACE) || (byte_at e 1 =? DOT)) then Go (S count)
  else Stop (false, S count).

Definition empty_sector (lba : Z) (a : sector * nat) : M W D (ctl (sector * nat) (bool * nat)) :=
  m ← gets mnt;
  '(_, dbuf) ← fat_read_sector lba a.1;
  mret (match walk_records (λ _, empty_record) dbuf 0 (sector_records m) a.2 with
        | Go count => Go (dbuf, count)
        | Stop r => Stop r
        end).

Definition dir_is_empty (fuel : nat) (dir_clus : Z) : M W D (bool * nat) :=
  m ← gets mnt;
  x ← walk_chain fuel (λ cc a, walk_sectors empty_sector (cluster_lba m cc)
                                 (Z.to_nat (sectors_per_cluster m)) a)
      dir_clus (s_sec scr, 0%nat);
  mret (match x with Go (_, count) => (true, count) | Stop r => r end).

(** The transaction that removes the record and frees the chain. *)
Definition remove (fuel : nat) (loc : dirent_loc) (clus : Z) : M W D Z :=
  _ ← j_begin;
  _ ← free_dirent_record loc;
  _ ← (λ s, (tt,.) <$> free_chain fuel clus s);
  _ ← j_commit;
  mret 0.

Definition fat_rmdir_impl (fuel : nat) (mem : bool) (path : list Z) : M W D Z :=
  '(ok, r) ← fat_resolve_path scr fuel path (Resolve 0 [] [] false);
  if negb ok || negb (found r) then mret LNXRM_ENOENT else
  if negb (is_dir (r_de r)) then mret LNXRM_ENOTDIR else
  let dir_clus := de_cluster (r_de r) in
  if dir_clus <? 2 then mret LNXRM_EFAIL else
  '(empty, entry_count) ← dir_is_empty fuel dir_clus;
  if negb empty then mret LNXRM_ENOTEMPTY else
  if (entry_count <? 2)%nat then mret LNXRM_EFAIL else
  loc ← dirent_locate fuel mem (dir_cluster r) (de_name (r_de r));
  match loc with
  | None => mret LNXRM_ENOENT
  | Some loc => remove fuel loc dir_clus
  end.

Definition fat_unlink_impl (fuel : nat) (mem : bool) (path : list Z) : M W D Z :=
  '(ok, r) ← fat_resolve_path scr fuel path (Resolve 0 [] [] false);
  if negb ok || negb (found r) then mret LNXRM_ENOENT else
  if is_dir (r_de r) then mret LNXRM_EFAIL else
  loc ← dirent_locate fuel mem (dir_cluster r) (de_name (r_de r));
  match loc with
  | None => mret LNXRM_ENOENT
  | Some loc => remove fuel loc (de_cluster (r_de r))
  end.

(** ** Rename *)

(** The context is [rc.hit]; [skip] is the alias of the record that is being
    renamed. *)
Definition rename_exists_cb (want : list Z) (skip : option (list Z)) (name : list Z) (e : dirent)
    (hit : bool) : bool * bool :=
  if decide (skip = Some (de_name e)) then (false, hit)
  else if names_equal name want || fat_name_eq_short want (de_name e) then (true, true)
  else (false, hit).

(** The search for the dot-dot record in the first sector of a directory: its
    offset, if there is one. *)
Definition dotdot_record (off : nat) (e : dirent) (_ : unit) : ctl unit (option nat) :=
  if byte_at e 0 =? ENT_FREE then Stop None
  else if negb (entry_used e) || is_lfn e then Go tt
  else if (byte_at e 0 =? DOT) && (byte_at e 1 =? DOT) && (byte_at e 2 =? SPACE) then Stop (Some off)
  else if (byte_at e 0 =? DOT) && (byte_at e 1 =? SPACE) then Go tt
  else Stop None.

Definition find_dotdot (m : fat_mount D) (buf : list Z) : option nat :=
  match walk_records dotdot_record buf 0 (sector_records m) tt with
  | Go _ => None
  | Stop r => r
  end.

Definition dir_dotdot (clus : Z) : M W D Z :=
  m ← gets mnt;
  '(r, buf) ← fat_read_sector (cluster_lba m clus) (s_sec scr);
  if negb (r =? 0) then mret 0 else
  mret (match find_dotdot m buf with
        | Some off => de_cluster (record_at buf off)
        | None => 0
        end).

Definition dir_set_dotdot (clus parent : Z) : M W D unit :=
  m ← gets mnt;
  let lba := cluster_lba m clus in
  '(r, buf) ← fat_read_sector lba (s_sec scr);
  if negb (r =? 0) then mret tt else
  match find_dotdot m buf with
  | Some off => log_sector lba (copy_into off (set_cluster parent (record_at buf off)) buf)
  | None => mret tt
  end.

(** At most [n] steps up. *)
Fixpoint contains_loop (n : nat) (dir c : Z) : M W D bool :=
  match n with
  | O => mret false
  | S n' =>
      m ← gets mnt;
      if (2 <=? c) && (c <? max_cluster m) then
        if c =? dir then mret true else
        p ← dir_dotdot c;
        if (p =? c) || (p <? 2) || (max_cluster m <=? p) then mret false
        else contains_loop n' dir p
      else mret false
  end.

Definition dir_contains (dir node : Z) : M W D bool := contains_loop 64 dir node.

(** The long-name records of a name, sequence numbers [n], ..., 1, stored at
    the given places. *)
Fixpoint write_lfn (ps : list dirent_pos) (total : nat) (sum : Z) (name : list Z) : M W D unit :=
  match ps with
  | [] => mret tt
  | p :: ps => _ ← dirent_write p (lfn_fill (Z.of_nat (S (length ps))) (Z.of_nat total) sum name);
               write_lfn ps total sum name
  end.

(** The record under its new alias. *)
Definition renamed (alias : list Z) (de : dirent) : dirent := put8 12 0 (copy_into 0 alias de).

Definition rename_in_place (loc : dirent_loc) (n : nat) (nname alias : list Z) (sum : Z) : M W D Z :=
  _ ← j_begin;
  _ ← free_all (take (n_lfn loc - n) (l_lfn loc));
  _ ← write_lfn (drop (n_lfn loc - n) (l_lfn loc)) n sum nname;
  _ ← dirent_write (l_pos loc) (renamed alias (l_de loc));
  _ ← j_commit;
  mret 0.

(** The transaction that moves a record to the claimed slots. *)
Definition relocate (loc : dirent_loc) (slots : list dirent_pos) (n : nat) (nname alias : list Z)
    (sum : Z) (relink : option (Z * Z)) : M W D Z :=
  _ ← j_begin;
  _ ← write_lfn (take n slots) n sum nname;
  _ ← dirent_write (default (Pos 0 0) (slots !! n)) (renamed alias (l_de loc));
  _ ← free_dirent_record loc;
  _ ← match relink with Some (clus, parent) => dir_set_dotdot clus parent | None => mret tt end;
  _ ← j_commit;
  mret 0.

(** Trailing slashes go, but never the first character. *)
Definition path_trim (p : list Z) : list Z :=
  match p with
  | [] => []
  | c :: p' => c :: reverse (skip_slashes (reverse p'))
  end.

(** The destination directory: an error code or its cluster. *)
Definition rename_target (fuel : nat) (pdir : list Z) : M W D (Z + Z) :=
  m ← gets mnt;
  if decide (pdir = []) then mret (inr (root_cluster m)) else
  '(ok, rp) ← fat_resolve_path scr fuel pdir (Resolve 0 [] [] false);
  if negb ok || negb (found rp) then mret (inl LNXRM_ENOENT)
  else if negb (is_dir (r_de rp)) then mret (inl LNXRM_ENOTDIR)
  else mret (inr (de_cluster (r_de rp))).

(** From the point where source and destination directory are known. *)
Definition rename_into (fuel : nat) (mem1 mem2 : bool) (ro : resolve) (new_dir : Z) (nname : list Z)
  : M W D Z :=
  let old_dir := dir_cluster ro in
  let old_clus := de_cluster (r_de ro) in
  let same := old_dir =? new_dir in
  if same && names_equal (r_name ro) nname then mret 0 else
  '(_, hit) ← fat_scan_dir scr fuel new_dir
                (rename_exists_cb nname (if same then Some (de_name (r_de ro)) else None)) false;
  if hit : bool then mret LNXRM_EEXIST else
  inside ← (if is_dir (r_de ro) then dir_contains old_clus new_dir else mret false);
  if inside : bool then mret LNXRM_EINVAL else
  let cnt := fat_lfn_count nname in
  if cnt <? 0 then mret LNXRM_EINVAL else
  let n := Z.to_nat cnt in
  let alias := name_to_short nname in
  let sum := lfn_checksum alias in
  loc ← dirent_locate fuel mem1 old_dir (de_name (r_de ro));
  match loc with
  | None => mret LNXRM_ENOENT
  | Some loc =>
      if same && (n <=? n_lfn loc)%nat then rename_in_place loc n nname alias sum else
      '(err, slots) ← dir_claim_run fuel mem2 new_dir (n + 1);
      if negb (err =? 0) then mret err else
      relocate loc slots n nname alias sum
        (if is_dir (r_de ro) && negb same then Some (old_clus, new_dir) else None)
  end.

Definition fat_rename_impl (fuel : nat) (mem1 mem2 : bool) (oldpath newpath : list Z) : M W D Z :=
  let ob := path_trim (take 127 oldpath) in
  let nb := path_trim (take 127 newpath) in
  '(ok, ro) ← fat_resolve_path scr fuel ob (Resolve 0 [] (replicate DIRENT_SIZE 0) false);
  if negb ok || negb (found ro) then mret LNXRM_ENOENT else
  let '(pdir, tail) := split_path nb in
  let nname := take 55 tail in
  if bool_decide (nname = [] ∨ nname = [DOT] ∨ nname = [DOT; DOT]) then mret LNXRM_EINVAL else
  t ← rename_target fuel pdir;
  match t with
  | inl err => mret err
  | inr new_dir => rename_into fuel mem1 mem2 ro new_dir nname
  end.
End meta.
