(* ===== verification/FatReady.v ===== *)
(** The FAT32 driver on a working device: the invariant of its state between
    and within operations, and what its sector accesses and transactions do.

    Outside a transaction the cache holds nothing the device does not hold;
    within one, every sector that was changed is pending in the journal or
    dirty in the cache, and the commit brings both to the device. *)
From S2P Require Import Prelude Bytes BlkDev BlkCache BlkCacheFacts BlkHealth Journal FatName FatTable FatTableFacts FatDir FatFile.

#[local] Opaque CACHE_ENTRIES.

Section ready.
Context {W D : Type} `{EqDecision D} `{DiskHealth W D}.
Context (n : Z).
Implicit Types (s : fs W D) (st : blk_state W D) (m : fat_mount D).

(** A sector of the volume as the driver sees it through the cache. *)
Definition sec s (l : Z) : sector := view (bs s) (fm_dev (mnt s)) l.

Record ready s : Prop := {
  rd_vol : volume n (mnt s);
  rd_n : n ≤ LBA_MAX;
  rd_reg : registered (fm_dev (mnt s));
  rd_ok : cache_ok (fm_dev (mnt s)) (data_start_lba (mnt s)) n (bs s);
  rd_fat : fat_on_disk s;
  rd_jinv : journal_inv (jr s);
  rd_jdev : jdev (jr s) = fm_dev (mnt s);
}.

Definition in_sync s : Prop := synced (fm_dev (mnt s)) (bs s).

(** Between operations. *)
Record idle s : Prop := {
  id_ready : ready s;
  id_jr : active (jr s) = false;
  id_sync : in_sync s;
}.

(** Sectors of the data area. *)
Definition data_lba m (l : Z) : Prop := data_start_lba m ≤ l < n.

(** Within a transaction: the journal agrees with the cache on what it
    holds. *)
Record in_txn s : Prop := {
  tx_ready : ready s;
  tx_act : active (jr s) = true;
  tx_agree : ∀ l, apply_txn (pending (jr s)) (sec s) l = sec s l;
  tx_lba : Forall (λ w, data_lba (mnt s) w.1) (pending (jr s));
}.

(** [s'] is [s] up to the internals of cache and device. *)
Record same s s' : Prop := {
  sm_mnt : mnt s' = mnt s;
  sm_jr : jr s' = jr s;
  sm_sec : ∀ l, sec s' l = sec s l;
  sm_sync : in_sync s → in_sync s';
  sm_ready : ready s → ready s';
}.

#[global] Instance same_refl : Reflexive same.
Proof. by split. Qed.
#[global] Instance same_trans : Transitive same.
Proof.
  intros s1 s2 s3 [] []. split; [congruence|congruence| |auto|auto].
  intros l. etrans; eauto.
Qed.

Lemma same_idle s s' : same s s' → idle s → idle s'.
Proof. intros [Hm Hj Hs Hy Hr] [? ? ?]. split; [auto| |auto]. by rewrite Hj. Qed.

Lemma same_txn s s' : same s s' → in_txn s → in_txn s'.
Proof.
  intros [Hm Hj Hs Hy Hr] [Hrd Ha Heq Hl]. split; rewrite ?Hj, ?Hm; auto.
  intros l. rewrite Hs, <- Heq. by apply apply_txn_ext.
Qed.

(** The FAT region is never cached. *)
Lemma uncached s l : ready s → l < data_start_lba (mnt s) → sec s l = con (fm_dev (mnt s)) (world (bs s)) l.
Proof.
  intros Hr Hl. apply view_miss. intros i Hi. apply not_true_iff_false. intros (Hv & _ & Hb)%hit_spec.
  destruct (ck_for _ _ _ _ (rd_ok s Hr) i Hi Hv). lia.
Qed.

Lemma fat_on_disk_keep s s' :
  ready s → mnt s' = mnt s →
  (∀ l, l < data_start_lba (mnt s) →
    con (fm_dev (mnt s)) (world (bs s')) l = con (fm_dev (mnt s)) (world (bs s)) l) →
  fat_on_disk s'.
Proof.
  intros Hr Hm Hc k Hk. rewrite Hm in *. rewrite Hc; [by apply (rd_fat s Hr)|].
  pose proof (vo_data _ _ (rd_vol s Hr)). lia.
Qed.

(** A cache operation that only settles the cache. *)
Lemma settles_same s st :
  ready s → cache_ok (fm_dev (mnt s)) (data_start_lba (mnt s)) n st →
  settles (fm_dev (mnt s)) (bs s) st → same s (Fs (mnt s) (jr s) st).
Proof.
  intros Hr Hok Hs. split; [done|done|apply Hs|by apply settles_synced|].
  intros _. destruct Hr as [Hv Hn Hreg Hok0 Hf Hji Hj]. split; try done.
  apply (fat_on_disk_keep s); [by split|done|]. intros l Hl.
  pose proof (uncached s l ltac:(by split) Hl) as Hun. unfold sec in Hun.
  destruct Hs as [_ Hs]. cbn [bs]. destruct (Hs l) as [-> | ->]; done.
Qed.

(** ** Sector access *)

Lemma m_read_spec lba cnt buf s :
  ready s → 0 ≤ lba → 0 < cnt < 2 ^ 32 → lba + cnt ≤ n →
  ∃ s', m_read lba cnt buf s = Some (0, con (fm_dev (mnt s)) (world (bs s)) <$> seqZ lba cnt, s') ∧ same s s'.
Proof.
  intros Hr Hl Hc Hle. pose proof (rd_reg s Hr) as Hreg. pose proof (rd_n s Hr) as Hn.
  pose proof (rd_ok s Hr) as Hok. unfold m_read.
  destruct (healthy_read _ n lba cnt buf (world (bs s)) Hreg (ck_health _ _ _ _ Hok)) as (w & Hw & Hh);
    [lia..|]. rewrite Hw. eexists. split; [reflexivity|].
  assert (∀ d' l, registered d' → con d' w l = con d' (world (bs s)) l) as Hcon.
  { intros d' l Hd'. eapply read_con; [exact Hreg|done| | |exact Hw]; lia. }
  destruct (same_contents (bs s) w (ck_inv _ _ _ _ Hok) Hcon) as [Hinv Hview].
  apply settles_same; [done| |].
  - split; [done|apply Hok|done].
  - split; [auto|]. left. by apply Hcon.
Qed.

Lemma read_sector_spec lba buf s :
  ready s → data_lba (mnt s) lba →
  ∃ s', fat_read_sector lba buf s = Some (0, sec s lba, s') ∧ same s s'.
Proof.
  intros Hr Hl. unfold fat_read_sector. pose proof (vo_data _ _ (rd_vol s Hr)).
  pose proof (mo_rsv _ (vo_mount _ _ (rd_vol s Hr))). pose proof (mo_fatsz _ (vo_mount _ _ (rd_vol s Hr))).
  destruct (read_healthy (fm_dev (mnt s)) (data_start_lba (mnt s)) n (rd_reg s Hr) ltac:(lia) (rd_n s Hr)
    (bs s) lba buf (rd_ok s Hr) Hl) as (st & -> & Hok & Hs).
  eexists. split; [reflexivity|]. by apply settles_same.
Qed.

Lemma data_nonneg s : ready s → 0 ≤ data_start_lba (mnt s).
Proof.
  intros Hr. pose proof (vo_data _ _ (rd_vol s Hr)). pose proof (mo_rsv _ (vo_mount _ _ (rd_vol s Hr))).
  pose proof (mo_fatsz _ (vo_mount _ _ (rd_vol s Hr))). lia.
Qed.

Lemma write_sector_spec lba buf s :
  ready s → data_lba (mnt s) lba →
  ∃ s', fat_write_sector lba buf s = Some (0, s') ∧ ready s' ∧ mnt s' = mnt s ∧ jr s' = jr s ∧
    ∀ l, sec s' l = (<[lba := buf]> (sec s)) l.
Proof.
  intros Hr Hl. unfold fat_write_sector. pose proof (data_nonneg s Hr).
  destruct (write_healthy (fm_dev (mnt s)) (data_start_lba (mnt s)) n (rd_reg s Hr) ltac:(lia) (rd_n s Hr)
    (bs s) lba buf (rd_ok s Hr) Hl) as (st & -> & Hok & Hv & Hs).
  eexists. split; [reflexivity|]. split_and!; [|done|done|].
  - destruct Hr as [Hvol Hn Hreg Hok0 Hf Hji Hj]. split; try done.
    apply (fat_on_disk_keep s); [by split|done|]. intros l Hlt. cbn [bs].
    pose proof (uncached s l ltac:(by split) Hlt) as Hun. unfold sec in Hun.
    destruct (Hs l) as [-> | ->]; done.
  - intros l. unfold sec at 1. cbn [mnt bs]. rewrite Hv.
    destruct (decide (l = lba)) as [->|]; [by rewrite fn_lookup_insert|by rewrite fn_lookup_insert_ne].
Qed.

(** ** FAT entries *)

(** [s'] is [s] with some FAT entries changed. *)
Record fat_change s s' : Prop := {
  fc_ready : ready s';
  fc_mnt : ∃ f, mnt s' = set_fat f (mnt s);
  fc_jr : jr s' = jr s;
  fc_sec : ∀ l, data_start_lba (mnt s) ≤ l → sec s' l = sec s l;
  fc_sync : in_sync s → in_sync s';
}.

Lemma fat_change_refl s : ready s → fat_change s s.
Proof. intros Hr. split; try done. exists (fat (mnt s)). by destruct (mnt s). Qed.

Lemma fat_change_trans s1 s2 s3 : fat_change s1 s2 → fat_change s2 s3 → fat_change s1 s3.
Proof.
  intros [_ [f Hm] Hj Hs Hy] [Hr' [f' Hm'] Hj' Hs' Hy']. split; [done| |congruence| |auto].
  - exists f'. by rewrite Hm', Hm.
  - intros l Hl. rewrite Hs', Hs; [done|done|by rewrite Hm].
Qed.

Lemma set_entry_ready clus val s :
  ready s → 0 ≤ val → 2 ≤ clus → fat_change s (fat_set_entry clus val s).
Proof.
  intros Hr Hv Hc. pose proof (data_nonneg s Hr) as Hpos. pose proof Hr as [Hvol Hn Hreg Hok Hf Hji Hjd].
  pose proof Hvol as [Hm Hin Hspc Hcs Hdata Hroot].
  destruct (decide (clus < max_cluster (mnt s))) as [Hlt|Hge].
  2: { unfold fat_set_entry. rewrite (proj2 (Z.leb_le _ _)) by lia. by apply fat_change_refl. }
  destruct (fat_set_entry_mnt clus val s Hm Hv ltac:(lia)) as (Hm' & Hset & Hj & Hca & _).
  destruct (fat_set_entry_synced clus val s Hm Hreg Hv ltac:(lia)) as (Hw & Hcon & Hfod).
  set (s' := fat_set_entry clus val s) in *. destruct Hset as [f Hset].
  assert (0 ≤ clus * 4 / 512 < fatsz (mnt s)) as Hk.
  { pose proof (mo_fat _ Hm). pose proof (mo_len _ Hm). split; [apply Z.div_pos; lia|].
    apply Z.div_lt_upper_bound; lia. }
  pose proof (mo_rsv _ Hm) as Hrsv. destruct (Hin clus ltac:(lia)) as [Hin1 Hin2].
  destruct (healthy_write (fm_dev (mnt s)) n (reserved_sectors (mnt s) + clus * 4 / 512)
    [fat_sector (mnt s') (clus * 4 / 512)] (world (bs s)) Hreg (ck_health _ _ _ _ Hok)) as (w & Ew & Hh);
    [lia|simpl; lia|]. unfold entry_write in *. rewrite Ew in *. cbn [fst snd] in *.
  assert (bs s' = set_world w (bs s)) as Hbs by (destruct (bs s'); simpl in *; subst; done).
  destruct (below_change (fm_dev (mnt s)) (data_start_lba (mnt s)) n Hreg (bs s) w Hok Hh) as (Hok' & Hv' & Hs').
  { intros d' l Hd' Hor. rewrite <- Hw. apply Hcon; [done|]. destruct Hor; [by left|right; lia]. }
  split; [|by exists f|done| |].
  - split; rewrite ?Hset, ?Hj, ?Hbs; try done; [|by apply Hfod].
    split; try done. by rewrite <- Hset.
  - intros l Hl. unfold sec. rewrite Hset, Hbs. by apply Hv'.
  - unfold in_sync. rewrite Hset, Hbs. exact Hs'.
Qed.

(** ** Transactions *)

Lemma j_begin_spec s :
  idle s → ∃ s', j_begin s = Some (0, s') ∧ in_txn s' ∧ in_sync s' ∧ mnt s' = mnt s ∧ bs s' = bs s ∧
    jcount (jr s') = 0%nat.
Proof.
  intros [Hr Ha Hs]. unfold j_begin. pose proof (begin_spec (jr s) Ha) as (Hj & Ha' & Hd & Hp).
  unfold fat32_journal_begin in *. rewrite Ha in *. cbn [fst snd] in *.
  eexists. split; [reflexivity|]. split_and!; [|exact Hs|done..].
  split; cbn [jr mnt]; [|done|intros l; by rewrite Hp|by rewrite Hp].
  destruct Hr as [Hvol Hn Hreg Hok0 Hf Hji Hjd]. split; done.
Qed.

Lemma txn_last_none txn l : l ∉ txn.*1 → txn_last txn l = None.
Proof.
  induction txn as [|[l' b] txn IH]; [done|]. rewrite fmap_cons, not_elem_of_cons. intros [Hne Hno].
  unfold txn_last in *. rewrite filter_cons, decide_False by (simpl in *; congruence). by apply IH.
Qed.

(** A sector is logged when the journal has room, or when it is not in the
    journal. *)
Lemma log_sector_spec lba buf s :
  in_txn s → data_lba (mnt s) lba →
  (jcount (jr s) < MAX_JOURNAL_ENTRIES)%nat ∨ lba ∉ (pending (jr s)).*1 →
  ∃ s', log_sector lba buf s = Some (tt, s') ∧ in_txn s' ∧ mnt s' = mnt s ∧
    (∀ l, sec s' l = (<[lba := buf]> (sec s)) l) ∧
    (jcount (jr s') ≤ S (jcount (jr s)))%nat ∧ ∀ l, l ∈ (pending (jr s')).*1 → l = lba ∨ l ∈ (pending (jr s)).*1.
Proof.
  intros [Hr Ha Hag Hpl] Hl Hroom. unfold log_sector, j_add. unfold mbind, M_bind.
  pose proof (data_nonneg s Hr). pose proof (rd_n s Hr). red in Hl.
  pose proof (add_spec lba buf (jr s) (rd_jinv s Hr) Ha ltac:(lia)) as Hadd.
  destruct (fat32_journal_add lba buf (jr s)) as [r j] eqn:Ej. destruct Hadd as (Hji & Ha' & Hjd & Hadd).
  set (s1 := Fs (mnt s) j (bs s)).
  assert (ready s1) as Hr1.
  { destruct Hr as [Hvol Hn Hreg Hok0 Hf Hji0 Hjd0]. split; try done. cbn. by rewrite Hjd. }
  destruct (write_sector_spec lba buf s1 Hr1 Hl) as (s2 & -> & Hr2 & Hm2 & Hj2 & Hs2).
  exists s2. split; [done|].
  assert ((pending j = pending (jr s) ++ [(lba, buf)] ∧ (length (pending (jr s)) < 32)%nat) ∨
    j = jr s ∧ lba ∉ (pending (jr s)).*1) as Hcase.
  { rewrite length_pending in *. unfold MAX_JOURNAL_ENTRIES in *.
    destruct (decide _); [left|right]; destruct Hadd; [done|]. split; [done|].
    destruct Hroom; [lia|done]. }
  assert (∀ l, sec s2 l = (<[lba := buf]> (sec s)) l) as Hsec by done.
  split_and!; [split|by rewrite Hm2|done|..]; rewrite ?Hj2, ?Hm2; cbn [jr mnt s1]; try done.
  - intros l. rewrite (apply_txn_ext _ _ _ _ Hsec), Hsec.
    destruct Hcase as [[-> _]|[-> Hno]].
    + rewrite apply_txn_app. cbn. destruct (decide (l = lba)) as [->|Hne].
      { by rewrite !fn_lookup_insert. }
      rewrite !fn_lookup_insert_ne, apply_txn_last by done. rewrite fn_lookup_insert_ne by done.
      by rewrite <- apply_txn_last, Hag.
    + rewrite apply_txn_last. destruct (decide (l = lba)) as [->|Hne].
      * rewrite fn_lookup_insert.
        by rewrite (txn_last_none _ _ Hno).
      * rewrite fn_lookup_insert_ne by done. by rewrite <- apply_txn_last, Hag.
  - destruct Hcase as [[-> _]|[-> _]]; [|done]. apply Forall_app. split; [done|]. by apply Forall_singleton.
  - rewrite <- !length_pending. destruct Hcase as [[-> _]|[-> _]]; rewrite ?length_app; simpl; lia.
  - intros l. destruct Hcase as [[-> _]|[-> _]]; [|tauto]. rewrite fmap_app, elem_of_app. simpl.
    rewrite list_elem_of_singleton. tauto.
Qed.

Lemma commit_loop_healthy k i s st :
  ready s → (∀ i, (i < jcount (jr s))%nat → data_lba (mnt s) (je_lba (entries (jr s) i))) →
  (i + k ≤ jcount (jr s))%nat → healthy (fm_dev (mnt s)) n (world st) →
  ∃ st', commit_loop i k (jr s) st = (0, st') ∧ healthy (fm_dev (mnt s)) n (world st').
Proof.
  intros Hr Hl. revert i st. induction k as [|k IH]; intros i st Hi Hh; cbn [commit_loop]; [eauto|].
  rewrite (ji_valid _ (rd_jinv s Hr)) by lia. rewrite (rd_jdev s Hr).
  pose proof (data_nonneg s Hr). specialize (Hl i ltac:(lia)) as Hli. red in Hli.
  destruct (healthy_write (fm_dev (mnt s)) n (je_lba (entries (jr s) i)) [je_data (entries (jr s) i)] (world st))
    as (w & -> & Hh'); [apply Hr|done|lia|simpl; lia|]. cbn [negb Z.eqb]. apply IH; [lia|done].
Qed.

Lemma j_commit_spec s :
  in_txn s → ∃ s', j_commit s = Some (0, s') ∧ idle s' ∧ mnt s' = mnt s ∧ ∀ l, sec s' l = sec s l.
Proof.
  intros [Hr Ha Hag Hpl]. pose proof Hr as [Hvol Hn Hreg [Hinv Hfor Hh] Hf Hji Hjd].
  pose proof (data_nonneg s Hr) as Hpos. unfold j_commit, fat32_journal_commit. rewrite Ha. cbn [negb].
  assert (∀ i, (i < jcount (jr s))%nat → data_lba (mnt s) (je_lba (entries (jr s) i))) as Hlba.
  { intros i Hi. rewrite Forall_lookup in Hpl. refine (Hpl i (_, _) _). unfold pending.
    rewrite list_lookup_fmap, lookup_seq_lt by done. done. }
  destruct (commit_loop_healthy (jcount (jr s)) 0 s (bs s) Hr Hlba ltac:(lia) Hh) as (st1 & Ec & Hh1).
  pose proof (commit_loop_spec (jcount (jr s)) 0 (jr s) (bs s) Hji ltac:(by rewrite Hjd) ltac:(lia)) as Hspec.
  cbv zeta in Hspec. fold (pending (jr s)) in Hspec. rewrite Ec, Hjd in *.
  destruct Hspec as (Hc & _ & Hcon & _). specialize (Hcon eq_refl).
  destruct (commit_in_sync (jr s) (bs s) st1 Hji ltac:(by rewrite Hjd) Hinv) as [Hinv1 Hv1];
    [by rewrite Hjd|done|]. cbn [negb Z.eqb jdev].
  destruct (flush_healthy (fm_dev (mnt s)) (data_start_lba (mnt s)) n Hreg Hpos Hn st1)
    as (st2 & -> & Hok2 & Hv2 & Hs2).
  { split; [done| |done]. unfold cache_for. by rewrite Hc. }
  eexists. split; [reflexivity|]. split_and!; [|done|intros l; unfold sec; cbn [mnt bs]; by rewrite Hv2, Hv1].
  split; [|done|exact Hs2]. split; try done.
  - apply (fat_on_disk_keep s); [done|done|]. intros l Hl. cbn [bs]. rewrite Hs2, Hv2, Hv1 by done.
    by apply uncached.
  - split; cbn; lia.
Qed.

Lemma j_abort_spec s :
  in_txn s → in_sync s → pending (jr s) = [] →
  ∃ s', j_abort s = Some (0, s') ∧ idle s' ∧ mnt s' = mnt s ∧ ∀ l, sec s' l = sec s l.
Proof.
  intros [Hr Ha Hag Hpl] Hs Hp. unfold j_abort. simpl. eexists. split; [reflexivity|].
  split_and!; [|done|done]. split; [|done|done]. destruct Hr as [Hvol Hn Hreg Hok Hf Hji Hjd].
  split; try done. split; cbn; lia.
Qed.
End ready.

(** The demonstration volume is ready for operations. *)
Module ReadyDemo.
Lemma s0_volume : volume 64 FatDemo.m0.
Proof.
  split; [apply FatDemo.m0_ok| |by_eval|reflexivity|by_eval|by_eval].
  intros c Hc. cbn [FatDemo.m0 max_cluster] in Hc. unfold cluster_lba. cbn.
  rewrite (u32_small (c - 2)), u64_small by lia. lia.
Qed.

Lemma s0_idle : idle 64 FatDemo.s0.
Proof.
  destruct (init_spec tt (BlkState (λ _, Entry 0 [] true true true tt) FatDemo.disk)) as [Hinv Hview].
  split; [|reflexivity|].
  - split; [apply s0_volume|unfold LBA_MAX; lia|apply ram_registered| | | |reflexivity].
    + split; [exact Hinv| |split; [by_eval|reflexivity]].
      intros i Hi Hv. exfalso.
      assert (∀ i, (i < 64)%nat → valid (cache FatDemo.st0 i) = false) as Hall.
      { intros j Hj. do 64 (destruct j as [|j]; [reflexivity|]). lia. }
      rewrite Hall in Hv; [discriminate|exact Hi].
    + intros k Hk. cbn in Hk. assert (k = 0) as -> by lia. vm_compute. reflexivity.
    + split; cbn; (lia || reflexivity).
  - intros l. rewrite Hview. reflexivity.
Qed.
End ReadyDemo.
