(* ===== verification/FatDirFacts.v ===== *)
(** Correctness of directory scanning: a directory is the list of its records,
    its entries are what the records spell out, and the scan, the search and
    the enumeration of the driver work on that list. *)
From S2P Require Import Prelude Bytes Cstring BlkDev BlkCache BlkCacheFacts BlkHealth Journal FatName FatTable FatTableFacts FatDir FatFile FatReady.

#[local] Opaque CACHE_ENTRIES.

(** ** Walks over lists *)

Fixpoint walk_list {E A R} (g : E → A → ctl A R) (l : list E) (a : A) : ctl A R :=
  match l with
  | [] => Go a
  | e :: l => match g e a with Go a => walk_list g l a | Stop r => Stop r end
  end.

Definition ctl_bind {A B R} (x : ctl A R) (f : A → ctl B R) : ctl B R :=
  match x with Go a => f a | Stop r => Stop r end.

Lemma walk_list_app {E A R} (g : E → A → ctl A R) l1 l2 a :
  walk_list g (l1 ++ l2) a = ctl_bind (walk_list g l1 a) (walk_list g l2).
Proof. revert a. induction l1 as [|e l1 IH]; intros a; simpl; [done|]. by destruct (g e a). Qed.

Lemma walk_list_ext {E A R} (g h : E → A → ctl A R) l a :
  (∀ e a, e ∈ l → g e a = h e a) → walk_list g l a = walk_list h l a.
Proof.
  revert a. induction l as [|e l IH]; intros a Hgh; simpl; [done|].
  rewrite Hgh by set_solver. destruct (h e a); [|done]. apply IH. set_solver.
Qed.

Lemma walk_list_concat {E F A R} (g : F → A → ctl A R) (f : E → list F) l a :
  walk_list (λ e, walk_list g (f e)) l a = walk_list g (concat (f <$> l)) a.
Proof.
  revert a. induction l as [|e l IH]; intros a; [done|]. rewrite fmap_cons. simpl.
  rewrite walk_list_app. destruct (walk_list g (f e) a); [apply IH|done].
Qed.

(** A loop that also carries a read buffer it never looks at before filling
    it. *)
Lemma walk_list_buf {E A R B} (g : E → A → ctl A R) (b : E → B) l buf a :
  ctl_bind (walk_list (λ e '(_, a), ctl_bind (g e a) (λ a, Go (b e, a))) l (buf, a)) (λ x, Go x.2)
  = walk_list g l a.
Proof.
  revert buf a. induction l as [|e l IH]; intros buf a; simpl; [done|].
  by destruct (g e a); simpl.
Qed.

(** ** Records of sectors *)

Definition sector_recs (b : sector) : list dirent :=
  (λ i, record_at b (i * DIRENT_SIZE)) <$> seq 0 16.

Lemma walk_records_list {A R} (body : nat → dirent → A → ctl A R) buf off k a :
  walk_records body buf off k a =
  walk_list (λ i, body (off + i * DIRENT_SIZE)%nat (record_at buf (off + i * DIRENT_SIZE))) (seq 0 k) a.
Proof.
  revert off a. induction k as [|k IH]; intros off a; [done|]. cbn [walk_records seq walk_list].
  rewrite Nat.mul_0_l, Nat.add_0_r. destruct (body off (record_at buf off) a) as [a'|r]; [|done]. rewrite IH.
  rewrite <- (fmap_S_seq 0). generalize (seq 0 k) as l. intros l. clear IH. revert a'.
  induction l as [|i l IHl]; intros a'; [done|]. rewrite fmap_cons. cbn [walk_list].
  replace (off + S i * DIRENT_SIZE)%nat with (off + DIRENT_SIZE + i * DIRENT_SIZE)%nat
    by (unfold DIRENT_SIZE; lia). destruct (body _ _ a'); [apply IHl|done].
Qed.

Lemma walk_list_fmap {E F A R} (g : F → A → ctl A R) (f : E → F) l a :
  walk_list g (f <$> l) a = walk_list (λ e, g (f e)) l a.
Proof. revert a. induction l as [|e l IH]; intros a; simpl; [done|]. by destruct (g (f e) a). Qed.

Lemma record_at_app_l b1 b2 off :
  (off + DIRENT_SIZE ≤ length b1)%nat → record_at (b1 ++ b2) off = record_at b1 off.
Proof.
  intros Hl. unfold record_at. rewrite drop_app_le by lia. rewrite take_app_le; [done|].
  rewrite length_drop. lia.
Qed.

Lemma record_at_app_r b1 b2 off :
  record_at (b1 ++ b2) (length b1 + off) = record_at b2 off.
Proof. unfold record_at. by rewrite <- drop_drop, drop_app_length. Qed.

(** The records of a cluster are those of its sectors. *)
Lemma cluster_recs (bufs : list sector) :
  Forall (λ b, length b = 512%nat) bufs →
  (λ i, record_at (concat bufs) (i * DIRENT_SIZE)) <$> seq 0 (16 * length bufs) =
  concat (sector_recs <$> bufs).
Proof.
  induction bufs as [|b bufs IH]; intros Hb; [done|]. apply Forall_cons in Hb as [Hl Hb].
  cbn [concat]. rewrite fmap_cons. cbn [concat length]. rewrite <- IH by done.
  replace (16 * S (length bufs))%nat with (16 + 16 * length bufs)%nat by lia.
  rewrite seq_app, fmap_app. f_equal.
  - unfold sector_recs. apply list_fmap_ext. intros i x [-> Hi]%lookup_seq.
    apply record_at_app_l. rewrite Hl. unfold DIRENT_SIZE. lia.
  - rewrite <- (Nat.add_0_r (0 + 16)), <- fmap_add_seq, <- list_fmap_compose.
    apply list_fmap_ext. intros i x _. unfold compose.
    replace ((0 + 16 + x) * DIRENT_SIZE)%nat with (length b + x * DIRENT_SIZE)%nat
      by (rewrite Hl; unfold DIRENT_SIZE; lia).
    apply record_at_app_r.
Qed.

(** ** Entries *)

(** What a list of records spells out: the names and records of files and
    directories, with the long-name state in front of the list. *)
Fixpoint dir_entries (lf : lfn_state) (rs : list dirent) : list (list Z * dirent) :=
  match rs with
  | [] => []
  | e :: rs =>
      if byte_at e 0 =? ENT_END then []
      else if negb (entry_used e) then dir_entries (lfn_reset lf) rs
      else if is_lfn e then dir_entries (lfn_add e lf) rs
      else if negb (Z.land (de_attr e) ATTR_VOLUME =? 0) then dir_entries lf rs
      else (c_str (lfn_name lf (de_name e)), e) :: dir_entries (lfn_reset lf) rs
  end.

(** The entries one after the other, until the callback is satisfied. *)
Fixpoint first_hit {C} (cb : list Z → dirent → C → bool * C) (es : list (list Z * dirent)) (c : C)
  : bool * C :=
  match es with
  | [] => (false, c)
  | (nm, e) :: es => let '(hit, c) := cb nm e c in if hit then (true, c) else first_hit cb es c
  end.

Lemma scan_entries {C} (cb : list Z → dirent → C → bool * C) rs lf c :
  match walk_list (scan_record cb) rs (lf, c) with Go (_, c) => (false, c) | Stop r => r end =
  first_hit cb (dir_entries lf rs) c.
Proof.
  revert lf c. induction rs as [|e rs IH]; intros lf c; [done|].
  cbn [walk_list dir_entries scan_record].
  destruct (byte_at e 0 =? ENT_END); [done|]. destruct (entry_used e); cbn [negb]; [|apply IH].
  destruct (is_lfn e); [apply IH|].
  destruct (negb (Z.land (de_attr e) ATTR_VOLUME =? 0)); [apply IH|]. cbn [first_hit].
  destruct (cb _ e c) as [[|] c']; [done|apply IH].
Qed.

(** ** Searching and enumerating *)

(** Whether an entry answers to a name: by its display name up to case or by
    its alias. *)
Definition matches (want nm : list Z) (e : dirent) : bool :=
  names_equal nm want || fat_name_eq_short want (de_name e).

Fixpoint first_match (want : list Z) (es : list (list Z * dirent)) : option dirent :=
  match es with
  | [] => None
  | (nm, e) :: es => if matches want nm e then Some e else first_match want es
  end.

Lemma find_first want es c :
  first_hit (fat_scan_find_cb want) es c =
  match first_match want es with Some e => (true, e) | None => (false, c) end.
Proof.
  induction es as [|[nm e] es IH]; cbn [first_hit first_match]; [done|].
  unfold fat_scan_find_cb at 1, matches. by destruct (_ || _).
Qed.

Lemma first_match_app want es1 es2 :
  first_match want (es1 ++ es2) =
  match first_match want es1 with Some e => Some e | None => first_match want es2 end.
Proof. induction es1 as [|[nm e] es1 IH]; simpl; [done|]. by destruct (matches want nm e). Qed.

(** The entries an enumeration shows. *)
Definition visible (es : list (list Z * dirent)) : list (list Z * dirent) :=
  filter (λ x, byte_at x.1 0 ≠ DOT) es.
Definition shown (x : list Z * dirent) : list Z * Z := (take 55 x.1, if is_dir x.2 then 4 else 8).

Lemma iter_first es k j nm ty :
  0 ≤ j ≤ k → k < 2 ^ 60 →
  match visible es !! Z.to_nat (k - j) with
  | Some x => first_hit scan_iter_cb es (IterCtx k j nm ty false) =
      (true, IterCtx k (k + 1) (shown x).1 (shown x).2 true)
  | None => i_hit (first_hit scan_iter_cb es (IterCtx k j nm ty false)).2 = false
  end.
Proof.
  revert j. induction es as [|[nm' e] es IH]; intros j Hj Hk; [done|].
  cbn [first_hit]. unfold scan_iter_cb at 1 3. cbn [seen target i_name i_type i_hit].
  unfold visible. rewrite filter_cons. cbn [fst]. destruct (Z.eqb_spec (byte_at nm' 0) DOT) as [Hd|Hd].
  - rewrite decide_False by tauto. by apply IH.
  - rewrite decide_True by done. rewrite (u64_small (j + 1)) by lia.
    destruct (Z.eqb_spec j k) as [->|Hne].
    + rewrite Z.sub_diag. done.
    + replace (Z.to_nat (k - j)) with (S (Z.to_nat (k - (j + 1)))) by lia. cbn [lookup list_lookup].
      apply (IH (j + 1)); lia.
Qed.

Lemma length_dir_entries lf rs : (length (dir_entries lf rs) ≤ length rs)%nat.
Proof.
  revert lf. induction rs as [|e rs IH]; intros lf; cbn [dir_entries length]; [done|].
  destruct (_ =? ENT_END); [simpl; lia|]. destruct (negb _); [etrans; [apply IH|lia]|].
  destruct (is_lfn e); [etrans; [apply IH|lia]|].
  destruct (negb _); [etrans; [apply IH|lia]|]. simpl. specialize (IH (lfn_reset lf)). lia.
Qed.

Section dir.
Context {W D : Type} `{EqDecision D} `{DiskHealth W D}.
Context (n : Z) (scr : scratch).
Implicit Types (s : fs W D) (m : fat_mount D).

(** The sectors of a chain of clusters, and the records of a directory. *)
Definition cluster_lbas m (c : Z) : list Z := seqZ (cluster_lba m c) (sectors_per_cluster m).
Definition chain_lbas m (l : list Z) : list Z := concat (cluster_lbas m <$> l).
Definition dir_records s (l : list Z) : list dirent :=
  concat (sector_recs <$> (sec s <$> chain_lbas (mnt s) l)).

(** All sectors of the data area are 512 bytes. *)
Definition sized s : Prop :=
  ∀ l, data_lba n (mnt s) l → length (sec s l) = 512%nat ∧ bytes_ok (sec s l).

(** The entries of a directory in a state. *)
Definition entries_of s (l : list Z) : list (list Z * dirent) :=
  dir_entries (lfn_reset (s_lfn scr)) (dir_records s l).

(** A well-formed chain, as directories and files have it. *)
Definition good_chain m (c : Z) (l : list Z) : Prop := fchain m c l ∧ Forall (live m) l.

Lemma cluster_lba_eq m c :
  volume n m → 2 ≤ c < max_cluster m →
  cluster_lba m c = data_start_lba m + (c - 2) * sectors_per_cluster m.
Proof.
  intros [Hm Hin Hspc Hcs Hd Hr] Hc. unfold cluster_lba. pose proof (mo_max _ Hm).
  pose proof (mo_rsv _ Hm). pose proof (mo_fatsz _ Hm).
  rewrite (u32_small (c - 2)) by lia. apply u64_small.
  assert (0 ≤ (c - 2) * sectors_per_cluster m ≤ 2 ^ 24 * 256); [|lia].
  split; [apply Z.mul_nonneg_nonneg; lia|apply Z.mul_le_mono_nonneg; lia].
Qed.

Lemma cluster_lbas_data m c l :
  volume n m → 2 ≤ c < max_cluster m → l ∈ cluster_lbas m c → data_lba n m l.
Proof.
  intros Hv Hc Hl. apply elem_of_seqZ in Hl. destruct (vo_inside _ _ Hv c Hc). split; lia.
Qed.

Lemma same_entries s s' l : same n s s' → entries_of s' l = entries_of s l.
Proof.
  intros Hs. unfold entries_of, dir_records. rewrite (sm_mnt _ _ _ Hs).
  do 3 f_equal. apply list_fmap_ext. intros. apply Hs.
Qed.

Lemma same_sized s s' : same n s s' → sized s → sized s'.
Proof. intros Hs Hz l Hl. rewrite (sm_mnt _ _ _ Hs) in Hl. rewrite (sm_sec _ _ _ Hs). by apply Hz. Qed.

(** Loops over a chain whose body changes nothing. *)
Lemma walk_chain_same {A R} (body : Z → A → M W D (ctl A R)) (g : Z → A → ctl A R) fuel c l a s :
  fchain (mnt s) c l → (length l ≤ fuel)%nat →
  (∀ c a s', c ∈ l → same n s s' → ∃ s'', body c a s' = Some (g c a, s'') ∧ same n s' s'') →
  ∃ s', walk_chain fuel body c a s = Some (walk_list g l a, s') ∧ same n s s'.
Proof.
  revert fuel c a s. induction l as [|x l IH]; intros fuel c a s Hch Hf Hb; cbn [walk_list].
  - exists s. split; [|done]. destruct fuel; cbn [walk_chain]; rewrite walk_guard, bool_decide_false by tauto; done.
  - destruct Hch as (-> & Hne & Hch). destruct fuel as [|fuel]; [simpl in Hf; lia|].
    cbn [walk_chain]. rewrite walk_guard, bool_decide_true by done. unfold mbind, M_bind.
    destruct (Hb c a s) as (s1 & -> & Hs1); [set_solver|done|].
    destruct (g c a) as [a'|r]; [|by exists s1]. unfold gets. rewrite (sm_mnt _ _ _ Hs1).
    destruct (IH fuel (fat_next_cluster (mnt s) c) a' s1) as (s2 & -> & Hs2).
    + by rewrite (sm_mnt _ _ _ Hs1).
    + simpl in Hf. lia.
    + intros c' a'' s' Hc' Hs'. apply Hb; [set_solver|]. by etrans.
    + exists s2. split; [done|]. by etrans.
Qed.

(** Reading a cluster straight from the device. *)
Lemma m_read_cluster c buf s :
  idle n s → 2 ≤ c < max_cluster (mnt s) →
  ∃ s', m_read (cluster_lba (mnt s) c) (sectors_per_cluster (mnt s)) buf s =
    Some (0, sec s <$> cluster_lbas (mnt s) c, s') ∧ same n s s'.
Proof.
  intros [Hr _ Hsy] Hc. pose proof (vo_inside _ _ (rd_vol _ _ Hr) c Hc).
  pose proof (vo_spc _ _ (rd_vol _ _ Hr)). pose proof (data_nonneg n s Hr).
  destruct (m_read_spec n (cluster_lba (mnt s) c) (sectors_per_cluster (mnt s)) buf s) as (s' & -> & Hs);
    [done|lia|lia|lia|]. exists s'. split; [|done]. do 3 f_equal.
  apply list_fmap_ext. intros. apply Hsy.
Qed.

Lemma cluster_walk {A R} (g : dirent → A → ctl A R) s c a :
  ready n s → sized s → 2 ≤ c < max_cluster (mnt s) →
  walk_records (λ _, g) (concat (sec s <$> cluster_lbas (mnt s) c)) 0 (cluster_records (mnt s)) a =
  walk_list g (concat (sector_recs <$> (sec s <$> cluster_lbas (mnt s) c))) a.
Proof.
  intros Hr Hz Hc. rewrite walk_records_list. rewrite <- cluster_recs.
  - rewrite walk_list_fmap. unfold cluster_records. pose proof (vo_spc _ _ (rd_vol _ _ Hr)).
    rewrite (vo_csize _ _ (rd_vol _ _ Hr)). rewrite length_fmap. unfold cluster_lbas. rewrite length_seqZ.
    replace ((512 * sectors_per_cluster (mnt s) + 31) / 32) with (16 * sectors_per_cluster (mnt s)).
    + by rewrite Z2Nat.inj_mul by lia.
    + apply Z.div_unique with 31; lia.
  - apply Forall_fmap, Forall_forall. intros l Hl. apply Hz.
    by eapply cluster_lbas_data; [apply Hr|exact Hc|].
Qed.

Lemma live_range m l c : Forall (live m) l → c ∈ l → 2 ≤ c < max_cluster m.
Proof. intros Hl Hc. by apply (proj1 (Forall_forall _ _) Hl) in Hc as [? _]. Qed.

(** The scan runs the callback over the entries of the directory. *)
Lemma scan_dir_spec {C} (cb : list Z → dirent → C → bool * C) fuel dc l c s :
  idle n s → sized s → good_chain (mnt s) dc l → (length l ≤ fuel)%nat →
  ∃ s', fat_scan_dir scr fuel dc cb c s = Some (first_hit cb (entries_of s l) c, s') ∧ same n s s'.
Proof.
  intros Hid Hz [Hch Hl] Hf. unfold fat_scan_dir, mbind, M_bind, gets.
  match goal with |- context [walk_chain fuel ?b dc ?a s] => set (body := b); set (a0 := a) end.
  set (g := λ (c : Z) (a : list sector * (lfn_state * C)),
    let '(_, a) := a in ctl_bind (walk_list (scan_record cb)
      (concat (sector_recs <$> (sec s <$> cluster_lbas (mnt s) c))) a)
      (λ a, Go (R := bool * C) (sec s <$> cluster_lbas (mnt s) c, a))).
  destruct (walk_chain_same body g fuel dc l a0 s Hch Hf) as (s' & -> & Hs).
  - intros x [buf [lf c']] s1 Hx Hs1. unfold body, mbind, M_bind.
    pose proof (live_range _ _ _ Hl Hx) as Hxr. rewrite <- (sm_mnt _ _ _ Hs1) in Hxr |- *.
    destruct (m_read_cluster x buf s1 (same_idle _ _ _ Hs1 Hid) Hxr) as (s2 & -> & Hs2).
    exists s2. split; [|done]. unfold mret, M_ret. do 2 f_equal.
    rewrite cluster_walk by (done || by eapply same_sized || apply (same_idle _ _ _ Hs1 Hid)).
    unfold g. rewrite <- (sm_mnt _ _ _ Hs1).
    assert (sec s1 <$> cluster_lbas (mnt s1) x = sec s <$> cluster_lbas (mnt s1) x) as ->
      by (apply list_fmap_ext; intros; apply Hs1). done.
  - exists s'. split; [|done]. unfold mret, M_ret. do 2 f_equal. unfold entries_of. rewrite <- scan_entries.
    unfold dir_records, chain_lbas. unfold a0.
    set (W0 := walk_list g l _).
    assert (ctl_bind W0 (λ x, Go x.2) = walk_list (scan_record cb)
      (concat (sector_recs <$> (sec s <$> concat (cluster_lbas (mnt s) <$> l)))) (lfn_reset (s_lfn scr), c)) as <-.
    { unfold W0, g. rewrite walk_list_buf, walk_list_concat. f_equal. clear.
      induction l as [|x l IH]; [done|]. rewrite !fmap_cons. cbn [concat]. by rewrite !fmap_app, concat_app, IH. }
    by destruct W0 as [[? [? ?]]|].
Qed.

Lemma scan_find_spec fuel dc l want s :
  idle n s → sized s → good_chain (mnt s) dc l → (length l ≤ fuel)%nat →
  ∃ s', scan_find scr fuel dc want s = Some (match first_match want (entries_of s l) with
      | Some e => (true, e) | None => (false, replicate DIRENT_SIZE 0) end, s') ∧ same n s s'.
Proof. intros. unfold scan_find. rewrite <- find_first. by apply scan_dir_spec. Qed.

Lemma entries_bound s c l :
  ready n s → good_chain (mnt s) c l → Z.of_nat (length (entries_of s l)) ≤ 2 ^ 37.
Proof.
  intros Hr [Hch Hl]. pose proof (vo_mount _ _ (rd_vol _ _ Hr)) as Hm. pose proof (mo_max _ Hm).
  pose proof (vo_spc _ _ (rd_vol _ _ Hr)).
  assert (length l ≤ Z.to_nat (max_cluster (mnt s)))%nat as Hll.
  { apply (fchain_length (mnt s) c); [done|done|]. eapply Forall_impl; [exact Hl|]. intros ? [? _]. lia. }
  assert (length (dir_records s l) = 16 * (length l * Z.to_nat (sectors_per_cluster (mnt s))))%nat as Hlen.
  { unfold dir_records, chain_lbas. clear. induction l as [|x l IH]; [done|]. rewrite fmap_cons. cbn [concat].
    rewrite fmap_app, fmap_app, concat_app, length_app, IH. clear IH.
    assert (∀ q : list sector, length (concat (sector_recs <$> q)) = (16 * length q)%nat) as ->.
    { intros q. induction q as [|b q' IHb]; [done|]. rewrite fmap_cons. cbn [concat]. rewrite length_app, IHb. simpl. lia. }
    rewrite length_fmap. unfold cluster_lbas. rewrite length_seqZ. simpl. lia. }
  unfold entries_of. pose proof (length_dir_entries (lfn_reset (s_lfn scr)) (dir_records s l)).
  rewrite Hlen in *. assert (Z.of_nat (length l) * sectors_per_cluster (mnt s) ≤ 2 ^ 24 * 256) by
    (apply Z.mul_le_mono_nonneg; lia). lia.
Qed.

(** One call of [getdent]: the cookie counts the entries delivered so far. *)
Lemma getdent_spec fuel r l k s :
  idle n s → sized s → good_chain (mnt s) (de_cluster (r_de r)) l → (length l ≤ fuel)%nat →
  (k < 2 ^ 50)%Z → 0 ≤ k →
  ∃ s', fat32_getdent_impl scr fuel r (256 * k) s = Some (match visible (entries_of s l) !! Z.to_nat k with
      | Some x => (0, 256 * (k + 1), Some (shown x))
      | None => (LNXRM_EFAIL, Z.lor (256 * k) 1, None) end, s') ∧ same n s s'.
Proof.
  intros Hid Hz Hch Hf Hk Hk0. unfold fat32_getdent_impl, fat_dir_iter.
  assert (Z.shiftr (256 * k) 8 = k) as -> by (rewrite Z.shiftr_div_pow2 by lia; symmetry; apply Z.div_unique_exact; lia).
  assert (Z.land (256 * k) 1 = 0) as ->.
  { change 1 with (Z.ones 1). rewrite Z.land_ones by lia. replace (256 * k) with (128 * k * 2 ^ 1) by lia.
    apply Z.mod_mul. lia. }
  cbn [negb Z.eqb]. unfold mbind, M_bind.
  destruct (scan_dir_spec scan_iter_cb fuel _ l (IterCtx k 0 [] 0 false) s Hid Hz Hch Hf) as (s' & -> & Hs).
  exists s'. split; [|done]. pose proof (iter_first (entries_of s l) k 0 [] 0 ltac:(lia) ltac:(lia)) as Hi.
  rewrite Z.sub_0_r in Hi. destruct (visible (entries_of s l) !! Z.to_nat k) as [x|].
  - rewrite Hi. cbn [i_hit i_name i_type negb]. unfold mret, M_ret. rewrite Z.lor_0_r, Z.shiftl_mul_pow2 by lia.
    rewrite u64_small by lia. unfold shown. cbn [fst snd]. rewrite take_take, Nat.min_id. do 4 f_equal. lia.
  - destruct (first_hit _ _ _) as [h c']. cbn [snd] in Hi. by rewrite Hi.
Qed.

(** Reading a directory to the end, from a cookie on. *)
Fixpoint readdir (turns fuel : nat) (r : resolve) (cookie : Z) : M W D (list (list Z * Z)) :=
  match turns with
  | O => out_of_fuel
  | S turns => '(rc, cookie, d) ← fat32_getdent_impl scr fuel r cookie;
               match d with
               | Some x => xs ← readdir turns fuel r cookie; mret (x :: xs)
               | None => mret []
               end
  end.

Lemma readdir_S turns fuel r cookie :
  readdir (S turns) fuel r cookie =
  ('(rc, cookie, d) ← fat32_getdent_impl scr fuel r cookie;
   match d with
   | Some x => xs ← readdir turns fuel r cookie; mret (x :: xs)
   | None => mret []
   end).
Proof. done. Qed.

(** Enumeration is complete and finite: reading a directory of a working
    volume from cookie 0 until [getdent] fails delivers every entry whose name
    does not start with a dot exactly once, in directory order, with its name
    cut to 55 characters and its type, and changes nothing. *)
Theorem readdir_enumerates fuel r l s :
  idle n s → sized s → good_chain (mnt s) (de_cluster (r_de r)) l → (length l ≤ fuel)%nat →
  ∃ s', readdir (S (length (visible (entries_of s l)))) fuel r 0 s =
    Some (shown <$> visible (entries_of s l), s') ∧ same n s s'.
Proof.
  intros Hid Hz Hch Hf. pose proof (entries_bound s _ l (id_ready _ _ Hid) Hch) as Hb.
  assert (length (visible (entries_of s l)) ≤ length (entries_of s l))%nat as Hv by apply length_filter.
  set (v := visible (entries_of s l)) in *.
  assert (∀ k s1, (k ≤ length v)%nat → same n s s1 → ∃ s',
    readdir (S (length v - k)) fuel r (256 * Z.of_nat k) s1 = Some (shown <$> drop k v, s') ∧ same n s s') as Hk.
  2: { destruct (Hk 0%nat s ltac:(lia)) as (s' & E & Hs); [done|]. exists s'. split; [|done].
       by rewrite Nat.sub_0_r in E. }
  intros k. remember (length v - k)%nat as j eqn:Hj. revert k Hj.
  induction j as [|j IH]; intros k Hj s1 Hle Hs1; rewrite readdir_S; unfold mbind, M_bind;
    (destruct (getdent_spec fuel r l (Z.of_nat k) s1) as (s2 & -> & Hs2);
      [by eapply same_idle|by eapply same_sized|by rewrite (sm_mnt _ _ _ Hs1)|done|lia|lia|]);
    rewrite (same_entries s s1) by done; fold v; rewrite Nat2Z.id.
  - rewrite lookup_ge_None_2 by lia. exists s2. split; [|by etrans]. by rewrite drop_ge by lia.
  - destruct (lookup_lt_is_Some_2 v k) as [x Hx]; [lia|]. rewrite Hx.
    replace (256 * (Z.of_nat k + 1)) with (256 * Z.of_nat (S k)) by lia.
    destruct (IH (S k) ltac:(lia) s2 ltac:(lia)) as (s3 & -> & Hs3); [by etrans|].
    exists s3. split; [|done]. unfold mret, M_ret. by rewrite (drop_S v x k Hx).
Qed.
End dir.
