(* ===== verification/FatWalk.v ===== *)
(** Loops of the driver that go through a chain sector by sector, as one loop
    over the list of its sectors; and what replacing a record does to the
    records of a directory. *)
From S2P Require Import Prelude Bytes Cstring BlkDev BlkCache BlkCacheFacts BlkHealth Journal FatName FatTable FatTableFacts FatDir FatFile FatMeta FatReady FatDirFacts.

#[local] Opaque CACHE_ENTRIES.

Section flat.
Context {W D : Type} `{EqDecision D} `{Disks W D}.

Fixpoint walk_m {A R} (body : Z → A → M W D (ctl A R)) (ls : list Z) (a : A) : M W D (ctl A R) :=
  match ls with
  | [] => mret (Go a)
  | l :: ls => x ← body l a;
               match x with Go a => walk_m body ls a | Stop r => mret (Stop r) end
  end.

Lemma walk_m_app {A R} (body : Z → A → M W D (ctl A R)) ls1 ls2 a s :
  walk_m body (ls1 ++ ls2) a s =
  match walk_m body ls1 a s with
  | Some (Go a, s') => walk_m body ls2 a s'
  | x => x
  end.
Proof.
  revert a s. induction ls1 as [|l ls1 IH]; intros a s; [done|]. simpl. unfold mbind, M_bind.
  destruct (body l a s) as [[[a'|r] s']|]; [apply IH|done..].
Qed.

Lemma walk_sectors_flat {A R} (body : Z → A → M W D (ctl A R)) lba k a s :
  0 ≤ lba → lba + Z.of_nat k < 2 ^ 64 →
  walk_sectors body lba k a s = walk_m body (seqZ lba (Z.of_nat k)) a s.
Proof.
  revert lba a s. induction k as [|k IH]; intros lba a s Hl Hk; [done|].
  rewrite seqZ_cons by lia. cbn [walk_sectors walk_m]. unfold mbind, M_bind.
  destruct (body lba a s) as [[[a'|r] s']|]; [|done..].
  rewrite u64_small by lia. rewrite IH by lia. unfold Z.succ. by replace (Z.pred (Z.of_nat (S k))) with (Z.of_nat k) by lia.
Qed.

(** A computation that leaves the mount alone. *)
Definition keeps_mnt {A} (f : M W D A) : Prop := ∀ s x s', f s = Some (x, s') → mnt s' = mnt s.

Lemma keeps_ret {A} (x : A) : keeps_mnt (mret x).
Proof. intros s y s' [= <- <-]. done. Qed.
Lemma keeps_gets {A} (f : fs W D → A) : keeps_mnt (gets f).
Proof. intros s y s' [= <- <-]. done. Qed.
Lemma keeps_bind {A B} (f : M W D A) (k : A → M W D B) :
  keeps_mnt f → (∀ x, keeps_mnt (k x)) → keeps_mnt (f ≫= k).
Proof.
  intros Hf Hk s x s'. unfold mbind, M_bind. destruct (f s) as [[y s1]|] eqn:E; [|done].
  intros Ek. rewrite (Hk _ _ _ _ Ek). by eapply Hf.
Qed.
Lemma keeps_read_sector lba buf : keeps_mnt (fat_read_sector lba buf).
Proof.
  intros s x s'. unfold fat_read_sector. destruct (blk_cache_read _ _ _ _) as [[? ?] ?].
  by intros [= <- <-].
Qed.
Lemma keeps_log_sector lba buf : keeps_mnt (log_sector lba buf).
Proof.
  intros s x s'. unfold log_sector, j_add, fat_write_sector, mbind, M_bind.
  destruct (fat32_journal_add _ _ _) as [? ?]. cbn [mnt jr bs].
  destruct (blk_cache_write _ _ _ _) as [? ?]. by intros [= <- <-].
Qed.
Lemma keeps_commit : keeps_mnt j_commit.
Proof. intros s x s'. unfold j_commit. destruct (fat32_journal_commit _ _) as [[? ?] ?]. by intros [= <- <-]. Qed.
End flat.

#[export] Hint Resolve keeps_ret keeps_gets keeps_bind keeps_read_sector keeps_log_sector keeps_commit : lnx.

Lemma walk_m_keeps {W D A R} (body : Z → A → M W D (ctl A R)) ls a :
  (∀ l a, keeps_mnt (body l a)) → keeps_mnt (walk_m body ls a).
Proof.
  intros Hb. revert a. induction ls as [|l ls IH]; intros a; cbn [walk_m]; [apply keeps_ret|].
  apply keeps_bind; [done|]. intros [a'|r]; [apply IH|apply keeps_ret].
Qed.

Section chains.
Context {W D : Type} `{EqDecision D} `{DiskHealth W D}.
Context (n : Z).
Implicit Types (s : fs W D) (m : fat_mount D).

Lemma elem_of_chain_lbas m l x : x ∈ chain_lbas m l ↔ ∃ c, c ∈ l ∧ x ∈ cluster_lbas m c.
Proof.
  unfold chain_lbas. induction l as [|c l IH]; [set_solver|]. rewrite fmap_cons. cbn [concat].
  rewrite elem_of_app, IH. set_solver.
Qed.

Lemma live_lbas m l x : volume n m → Forall (live m) l → x ∈ chain_lbas m l → data_lba n m x.
Proof.
  intros Hv Hl (c & Hc & Hx)%elem_of_chain_lbas.
  eapply cluster_lbas_data; [done| |done]. by eapply live_range.
Qed.

(** Different clusters have different sectors. *)
Lemma chain_lbas_nodup m c l : volume n m → good_chain m c l → NoDup (chain_lbas m l).
Proof.
  intros Hv [Hch Hl]. apply fchain_nodup in Hch. unfold chain_lbas. clear c.
  induction l as [|c l IH]; [constructor|]. rewrite fmap_cons. cbn [concat].
  apply NoDup_cons in Hch as [Hc Hch]. apply Forall_cons in Hl as [Hcl Hl].
  apply NoDup_app. split; [apply NoDup_seqZ|]. split; [|by apply IH].
  intros x Hx (c' & Hc' & Hx')%elem_of_chain_lbas. pose proof (live_range _ _ _ Hl Hc') as Hr.
  destruct Hcl as [Hcr _]. apply elem_of_seqZ in Hx, Hx'. pose proof (vo_spc _ _ Hv).
  rewrite (cluster_lba_eq n m c) in Hx by done. rewrite (cluster_lba_eq n m c') in Hx' by done.
  assert (c = c') as -> by nia. done.
Qed.

Lemma chain_lbas_disjoint m l l' x : volume n m → Forall (λ c, 2 ≤ c < max_cluster m) l → Forall (λ c, 2 ≤ c < max_cluster m) l' →
  (∀ c, c ∈ l → c ∉ l') → x ∈ chain_lbas m l → x ∉ chain_lbas m l'.
Proof.
  intros Hv Hl Hl' Hd (c & Hc & Hx)%elem_of_chain_lbas (c' & Hc' & Hx')%elem_of_chain_lbas.
  pose proof (proj1 (Forall_forall _ _) Hl c Hc). pose proof (proj1 (Forall_forall _ _) Hl' c' Hc').
  apply elem_of_seqZ in Hx, Hx'. pose proof (vo_spc _ _ Hv).
  rewrite (cluster_lba_eq n m c) in Hx by done. rewrite (cluster_lba_eq n m c') in Hx' by done.
  assert (c = c') as -> by nia. by apply (Hd c').
Qed.

(** The whole loop, over the sectors of the chain. *)
Lemma chain_flat {A R} (body : Z → A → M W D (ctl A R)) fuel c l a s :
  volume n (mnt s) → n ≤ LBA_MAX → good_chain (mnt s) c l → (length l ≤ fuel)%nat →
  (∀ l a, keeps_mnt (body l a)) →
  walk_chain fuel (λ cc a, walk_sectors body (cluster_lba (mnt s) cc)
    (Z.to_nat (sectors_per_cluster (mnt s))) a) c a s = walk_m body (chain_lbas (mnt s) l) a s.
Proof.
  intros Hv Hn [Hch Hl] Hf Hb. pose proof (vo_spc _ _ Hv) as Hspc.
  assert (∀ c, c ∈ l → ∀ a s', walk_sectors body (cluster_lba (mnt s) c)
    (Z.to_nat (sectors_per_cluster (mnt s))) a s' = walk_m body (cluster_lbas (mnt s) c) a s') as Hflat.
  { intros c' Hc' a' s'. pose proof (live_range _ _ _ Hl Hc') as Hr. destruct (vo_inside _ _ Hv c' Hr).
    pose proof (vo_data _ _ Hv). pose proof (mo_rsv _ (vo_mount _ _ Hv)). pose proof (mo_fatsz _ (vo_mount _ _ Hv)).
    unfold LBA_MAX in Hn. rewrite walk_sectors_flat by lia. unfold cluster_lbas. by rewrite Z2Nat.id by lia. }
  clear Hl Hv. generalize (eq_refl (mnt s)). generalize s at 1 5 7 as s1. revert fuel c a Hf Hch.
  induction l as [|x l IH]; intros fuel c a Hf Hch s1 Hm.
  - destruct fuel; cbn [walk_chain]; rewrite walk_guard, bool_decide_false by tauto; done.
  - destruct Hch as (-> & Hne & Hch). destruct fuel as [|fuel]; [simpl in Hf; lia|].
    cbn [walk_chain]. rewrite walk_guard, bool_decide_true by done.
    unfold chain_lbas. rewrite fmap_cons. cbn [concat]. rewrite walk_m_app. unfold mbind at 1, M_bind at 1.
    rewrite Hflat by set_solver.
    destruct (walk_m body (cluster_lbas (mnt s) c) a s1) as [[[a'|r] s2]|] eqn:E; [|done..].
    apply (walk_m_keeps body _ _ Hb) in E. unfold mbind, M_bind, gets.
    rewrite E, Hm. apply IH; [set_solver|simpl in Hf; lia|done|congruence].
Qed.
End chains.

(** ** Replacing records *)

Lemma length_copy_into off src tmp :
  (off + length src ≤ length tmp)%nat → length (copy_into off src tmp) = length tmp.
Proof. intros Hl. unfold copy_into. rewrite !length_app, length_take, length_drop. lia. Qed.

Lemma bytes_ok_copy off src tmp : bytes_ok src → bytes_ok tmp → bytes_ok (copy_into off src tmp).
Proof.
  intros Hs Ht. unfold copy_into, bytes_ok. rewrite !Forall_app.
  split_and!; [by apply Forall_take|done|by apply Forall_drop].
Qed.

Lemma record_copy b i j e :
  length b = 512%nat → length e = DIRENT_SIZE → (i < 16)%nat → (j < 16)%nat →
  record_at (copy_into (i * DIRENT_SIZE) e b) (j * DIRENT_SIZE) =
  if decide (j = i) then e else record_at b (j * DIRENT_SIZE).
Proof.
  intros Hb He Hi Hj. unfold copy_into. rewrite He. unfold DIRENT_SIZE in *.
  assert (length (take (i * 32) b) = i * 32)%nat as Ht by (rewrite length_take; lia).
  destruct (decide (j = i)) as [->|Hne].
  - pose proof (record_at_app_r (take (i * 32) b) (e ++ drop (i * 32 + 32) b) 0) as Hr.
    rewrite Ht, Nat.add_0_r in Hr. rewrite Hr. unfold record_at, DIRENT_SIZE. rewrite drop_0.
    by rewrite take_app_le, take_ge by lia.
  - destruct (decide (j < i)%nat) as [Hlt|Hgt].
    + rewrite record_at_app_l by (unfold DIRENT_SIZE; lia). unfold record_at, DIRENT_SIZE.
      rewrite !take_drop_commute, take_take. do 2 f_equal. lia.
    + pose proof (record_at_app_r (take (i * 32) b) (e ++ drop (i * 32 + 32) b)
        (length e + (j - i - 1) * 32)) as Hr.
      rewrite Ht, He in Hr. replace (i * 32 + (32 + (j - i - 1) * 32))%nat with (j * 32)%nat in Hr by lia.
      rewrite Hr. clear Hr. pose proof (record_at_app_r e (drop (i * 32 + 32) b) ((j - i - 1) * 32)) as Hr.
      rewrite He in Hr. rewrite Hr. unfold record_at.
      rewrite drop_drop. do 2 f_equal. lia.
Qed.

Lemma length_sector_recs b : length (sector_recs b) = 16%nat.
Proof. done. Qed.

Lemma sector_recs_lookup b j :
  (j < 16)%nat → sector_recs b !! j = Some (record_at b (j * DIRENT_SIZE)).
Proof. intros Hj. unfold sector_recs. by rewrite list_lookup_fmap, lookup_seq_lt by done. Qed.

Lemma sector_recs_copy b i e :
  length b = 512%nat → length e = DIRENT_SIZE → (i < 16)%nat →
  sector_recs (copy_into (i * DIRENT_SIZE) e b) = <[i := e]> (sector_recs b).
Proof.
  intros Hb He Hi. apply (list_eq_same_length _ _ 16); [by rewrite length_insert|done|].
  intros j x y Hj. rewrite sector_recs_lookup by done. rewrite record_copy by done. intros [= <-].
  destruct (decide (j = i)) as [->|].
  - rewrite list_lookup_insert_eq by done. by intros [= <-].
  - rewrite list_lookup_insert_ne, sector_recs_lookup by done. by intros [= <-].
Qed.

Lemma concat_insert {A} (k : nat) (rss : list (list A)) j i r e :
  Forall (λ r, length r = k) rss → rss !! j = Some r → (i < k)%nat →
  concat (<[j := <[i := e]> r]> rss) = <[(j * k + i)%nat := e]> (concat rss).
Proof.
  revert j. induction rss as [|r' rss IH]; intros j Hl Hj Hi; [done|].
  apply Forall_cons in Hl as [Hr Hl]. destruct j as [|j].
  - injection Hj as ->. cbn [insert list_insert concat]. cbn [Nat.mul Nat.add].
    by rewrite insert_app_l by lia.
  - cbn [insert list_insert concat]. fold (insert (M := list (list A)) j (<[i:=e]> r) rss).
    rewrite IH by done. cbn [lookup] in Hj.
    replace (S j * k + i)%nat with (length r' + (j * k + i))%nat by lia.
    by rewrite insert_app_r.
Qed.

Lemma concat_lookup {A} (k : nat) (rss : list (list A)) j i r :
  Forall (λ r, length r = k) rss → rss !! j = Some r → (i < k)%nat →
  concat rss !! (j * k + i)%nat = r !! i.
Proof.
  revert j. induction rss as [|r' rss IH]; intros j Hl Hj Hi; [done|].
  apply Forall_cons in Hl as [Hr Hl]. destruct j as [|j]; cbn [concat].
  - injection Hj as ->. by rewrite lookup_app_l by lia.
  - rewrite lookup_app_r by lia. rewrite <- (IH j) by done. f_equal. lia.
Qed.

Section records.
Context {W D : Type} `{EqDecision D} `{DiskHealth W D}.
Context (n : Z).
Implicit Types (s : fs W D) (m : fat_mount D).

Lemma insert_lbas (ls : list Z) (f : Z → sector) j x b :
  NoDup ls → ls !! j = Some x → (<[x := b]> f) <$> ls = <[j := b]> (f <$> ls).
Proof.
  intros Hnd Hx. apply list_eq. intros i. rewrite list_lookup_fmap.
  destruct (decide (i = j)) as [->|Hne].
  - rewrite list_lookup_insert_eq, Hx by (rewrite length_fmap; by eapply lookup_lt_Some).
    simpl. by rewrite fn_lookup_insert.
  - rewrite list_lookup_insert_ne, list_lookup_fmap by done. destruct (ls !! i) as [y|] eqn:Hy; [|done].
    simpl. f_equal. apply fn_lookup_insert_ne. intros ->. apply Hne. by eapply NoDup_lookup.
Qed.

(** One record of a directory is replaced. *)
Lemma dir_records_put s s' c l j i x e :
  ready n s → sized n s → good_chain (mnt s) c l → chain_lbas (mnt s) l !! j = Some x → (i < 16)%nat →
  length e = DIRENT_SIZE → mnt s' = mnt s →
  (∀ y, sec s' y = (<[x := copy_into (i * DIRENT_SIZE) e (sec s x)]> (sec s)) y) →
  dir_records s' l = <[(j * 16 + i)%nat := e]> (dir_records s l).
Proof.
  intros Hr Hz Hch Hx Hi He Hm Hs. unfold dir_records. rewrite Hm.
  assert (sec s' <$> chain_lbas (mnt s) l =
    <[j := copy_into (i * DIRENT_SIZE) e (sec s x)]> (sec s <$> chain_lbas (mnt s) l)) as ->.
  { rewrite <- insert_lbas with (x := x); [|by eapply chain_lbas_nodup; [apply Hr|]|done].
    apply list_fmap_ext. intros. apply Hs. }
  rewrite list_fmap_insert, sector_recs_copy; [| |done|done].
  - apply concat_insert; [|by rewrite !list_lookup_fmap, Hx|done].
    apply Forall_fmap, Forall_forall. intros; apply length_sector_recs.
  - apply Hz. apply (live_lbas n (mnt s) l); [apply Hr|apply Hch|by eapply list_elem_of_lookup_2].
Qed.
End records.
