(* ===== verification/FatMetaFacts.v ===== *)
(** Correctness of the namespace operations on a working volume: creating and
    removing directory entries. *)
From S2P Require Import Prelude Bytes Cstring BlkDev BlkCache BlkCacheFacts BlkHealth Journal FatName FatNameFacts FatTable FatTableFacts FatDir FatFile FatMeta FatReady FatDirFacts FatWalk.

#[local] Opaque CACHE_ENTRIES.

(** ** Free slots *)

Definition claimable (e : dirent) : Prop :=
  byte_at e 0 = ENT_END ∨ byte_at e 0 = ENT_FREE ∨ byte_at e 0 = ENT_E5.
#[global] Instance claimable_dec e : Decision (claimable e).
Proof. unfold claimable. apply _. Defined.

Lemma claim_record_cases e' b off e :
  claim_record e' b off e tt = if decide (claimable e) then Stop (copy_into off e' b) else Go tt.
Proof.
  unfold claim_record, claimable.
  destruct (Z.eqb_spec (byte_at e 0) ENT_END); [by rewrite decide_True by tauto|].
  destruct (Z.eqb_spec (byte_at e 0) ENT_FREE); [by rewrite decide_True by tauto|].
  destruct (Z.eqb_spec (byte_at e 0) ENT_E5); [by rewrite decide_True by tauto|].
  by rewrite decide_False by tauto.
Qed.

Lemma claim_records e' b :
  walk_records (claim_record e' b) b 0 16 tt =
  match list_find claimable (sector_recs b) with
  | Some (i, _) => Stop (copy_into (i * DIRENT_SIZE) e' b)
  | None => Go tt
  end.
Proof.
  rewrite walk_records_list. unfold sector_recs. cbn [Nat.add].
  assert (∀ k st, walk_list (λ i, claim_record e' b (i * DIRENT_SIZE) (record_at b (i * DIRENT_SIZE))) (seq st k) tt =
    match list_find claimable ((λ i, record_at b (i * DIRENT_SIZE)) <$> seq st k) with
    | Some (i, _) => Stop (copy_into ((st + i) * DIRENT_SIZE) e' b)
    | None => Go tt
    end) as Hk; [|apply (Hk 16%nat 0%nat)].
  intros k. induction k as [|k IH]; intros st; [done|]. cbn [seq walk_list]. rewrite fmap_cons. cbn [list_find].
  rewrite claim_record_cases. destruct (decide _).
  - by rewrite Nat.add_0_r.
  - rewrite IH. destruct (list_find _ _) as [[i ?]|]; [|done]. cbn.
    by replace (st + S i)%nat with (S (st + i)) by lia.
Qed.

Lemma list_find_app {A} (P : A → Prop) `{∀ x, Decision (P x)} l1 l2 :
  list_find P (l1 ++ l2) = match list_find P l1 with
    | Some x => Some x
    | None => prod_map (λ i, length l1 + i)%nat id <$> list_find P l2
    end.
Proof.
  induction l1 as [|x l1 IH]; simpl; [by destruct (list_find P l2) as [[? ?]|]|].
  destruct (decide (P x)); [done|]. rewrite IH.
  destruct (list_find P l1) as [[? ?]|]; [done|]. by destruct (list_find P l2) as [[? ?]|].
Qed.

(** ** Names and new records *)

(** Printable ASCII names, which is what the 8.3 encoding preserves. *)
Definition printable (name : list Z) : Prop := Forall (λ c, 32 ≤ c < 127) name.

Lemma upto_dot_ok k s :
  printable s → printable (upto_dot k s).1 ∧ Forall (λ c, ascii_toupper c = c) (upto_dot k s).1 ∧
  printable (upto_dot k s).2 ∧ (length (upto_dot k s).1 ≤ k)%nat.
Proof.
  revert s. induction k as [|k IH]; intros [|c s] Hs; simpl;
    try (split_and!; first [lia|done|by constructor]; fail).
  apply Forall_cons in Hs as [Hc Hs]. destruct (c =? DOT).
  - split_and!; [constructor|constructor|by constructor|simpl; lia].
  - specialize (IH s Hs). destruct (upto_dot k s) as [b r]. destruct IH as (H1 & H2 & H3 & H4). simpl in *.
    split_and!; [constructor; [|done]|constructor; [|done]|done|lia];
      unfold ascii_toupper; repeat case_match; bool_split; lia.
Qed.

Lemma upper_list s : printable s → printable (ascii_toupper <$> s) ∧
  Forall (λ c, ascii_toupper c = c) (ascii_toupper <$> s).
Proof.
  intros Hs. split; apply Forall_fmap; (eapply Forall_impl; [exact Hs|]); simpl; intros c Hc;
    unfold ascii_toupper; repeat case_match; bool_split; lia.
Qed.

Lemma name_to_short_ok name :
  printable name → length (name_to_short name) = 11%nat ∧ printable (name_to_short name) ∧
  Forall (λ c, ascii_toupper c = c) (name_to_short name).
Proof.
  intros Hn. unfold name_to_short. pose proof (upto_dot_ok 8 name Hn) as H1.
  destruct (upto_dot 8 name) as [b r]. destruct H1 as (Hb & Hbu & Hr & Hbl). simpl in *.
  assert (∀ k l, printable l → Forall (λ c, ascii_toupper c = c) l → (length l ≤ k)%nat →
    length (pad k l) = k ∧ printable (pad k l) ∧ Forall (λ c, ascii_toupper c = c) (pad k l)) as Hpad.
  { intros k l Hl Hu Hk. split; [by apply length_pad|]. unfold pad, printable. rewrite !Forall_app.
    split_and!; try done; apply Forall_replicate; by unfold SPACE. }
  destruct (Hpad 8%nat b Hb Hbu Hbl) as (L1 & P1 & U1).
  set (ext := match r with [] => [] | _ :: _ => _ end).
  assert (printable ext ∧ Forall (λ c, ascii_toupper c = c) ext ∧ (length ext ≤ 3)%nat) as (He & Heu & Hel).
  { unfold ext. destruct r as [|c r]; [split_and!; first [by constructor|simpl; lia]|].
    apply Forall_cons in Hr as [_ Hr]. destruct (c =? DOT); [|split_and!; first [by constructor|simpl; lia]].
    assert (printable (take 3 r)) as Ht by by apply Forall_take.
    destruct (upper_list _ Ht). split_and!; [done|done|]. rewrite length_fmap, length_take. lia. }
  destruct (Hpad 3%nat ext He Heu Hel) as (L2 & P2 & U2).
  unfold printable. rewrite length_app, !Forall_app. split_and!; (done || lia).
Qed.

Lemma eq_short_self name :
  printable name → fat_name_eq_short name (name_to_short name) = true.
Proof.
  intros Hn. destruct (name_to_short_ok name Hn) as (Hl & Hp & Hu). unfold fat_name_eq_short.
  apply forallb_forall. intros i Hi%in_seq. apply Z.eqb_eq.
  destruct (lookup_lt_is_Some_2 (name_to_short name) i) as [c Hc]; [lia|]. unfold byte_at. rewrite Hc. cbn.
  rewrite (Forall_lookup_1 _ _ _ _ Hu Hc). pose proof (Forall_lookup_1 _ _ _ _ Hp Hc) as Hc2. cbv beta in Hc2.
  unfold i8. apply sgn_small; [lia|]. change (2 ^ (8 - 1)) with 128. lia.
Qed.

(** A record of a file or directory. *)
Record plain (e : dirent) : Prop := {
  pl_end : byte_at e 0 ≠ ENT_END;
  pl_used : entry_used e = true;
  pl_lfn : is_lfn e = false;
  pl_vol : Z.land (de_attr e) ATTR_VOLUME = 0;
}.

Lemma new_record_ok name attr clus :
  printable name →
  length (new_record name attr clus) = DIRENT_SIZE ∧ bytes_ok (new_record name attr clus) ∧
  de_name (new_record name attr clus) = name_to_short name ∧
  de_attr (new_record name attr clus) = u8 attr ∧ filesize (new_record name attr clus) = 0.
Proof.
  intros Hn. destruct (name_to_short_ok name Hn) as (Hl & Hp & _).
  unfold new_record, set_filesize, set_cluster.
  set (e0 := copy_into 0 (name_to_short name) (replicate DIRENT_SIZE 0)).
  assert (length e0 = 32%nat) as Hl0.
  { unfold e0. rewrite length_copy_into; [done|]. rewrite Hl, length_replicate. unfold DIRENT_SIZE. lia. }
  assert (bytes_ok e0) as Hb0.
  { apply bytes_ok_copy; [eapply Forall_impl; [exact Hp|]; simpl; lia|]. apply Forall_replicate. lia. }
  assert (take 11 e0 = name_to_short name) as Hn0.
  { unfold e0, copy_into. rewrite take_0, app_nil_l, take_app_le, take_ge by lia. done. }
  split_and!.
  - by autorewrite with lnx.
  - auto 20 with lnx.
  - unfold de_name. rewrite <- Hn0. unfold put32, put16.
    apply list_eq. intros i. destruct (decide (i < 11)%nat).
    + rewrite !lookup_take_lt by done. by rewrite !lookup_put8_ne by lia.
    + rewrite !lookup_take_ge by lia. done.
  - unfold de_attr. rewrite byte_at_put32_ne, !byte_at_put16_ne by lia. apply byte_at_put8_eq. lia.
  - unfold filesize. rewrite le32_put32; [done|]. autorewrite with lnx. lia.
Qed.

Lemma new_record_plain name attr clus :
  printable name → attr = ATTR_ARCHIVE ∨ attr = Z.lor ATTR_DIR ATTR_ARCHIVE → plain (new_record name attr clus).
Proof.
  intros Hn Ha. destruct (new_record_ok name attr clus Hn) as (Hl & Hb & Hnm & Hat & _).
  destruct (name_to_short_ok name Hn) as (Hsl & Hsp & _).
  assert (32 ≤ byte_at (new_record name attr clus) 0 < 127) as H0.
  { replace (byte_at (new_record name attr clus) 0) with (byte_at (de_name (new_record name attr clus)) 0).
    - rewrite Hnm. unfold byte_at. destruct (lookup_lt_is_Some_2 (name_to_short name) 0) as [c Hc]; [lia|].
      rewrite Hc. exact (Forall_lookup_1 _ _ _ _ Hsp Hc).
    - unfold byte_at, de_name. by rewrite lookup_take_lt by lia. }
  unfold ENT_END in *. split.
  - unfold ENT_END. lia.
  - unfold entry_used, ENT_FREE, ENT_E5. rewrite !(proj2 (Z.eqb_neq _ _)) by lia. done.
  - unfold is_lfn. rewrite Hat. by destruct Ha as [-> | ->].
  - rewrite Hat. by destruct Ha as [-> | ->].
Qed.

(** ** Well-formed directories *)

Definition lfn_rec (e : dirent) : Prop := entry_used e = true ∧ is_lfn e = true.

(** What follows a long-name record: another one, or the record it names. *)
Definition run_next (e : dirent) : Prop := entry_used e = true ∧ (is_lfn e = true ∨ Z.land (de_attr e) ATTR_VOLUME = 0).

Definition dir_wf (rs : list dirent) : Prop := ∀ i e e', rs !! i = Some e → rs !! S i = Some e' → lfn_rec e → run_next e'.

Lemma dir_wf_tail e rs : dir_wf (e :: rs) → dir_wf rs.
Proof. intros Hr i x y Hx Hy. by apply (Hr (S i)). Qed.

(** The long-name state in front of a list of records: nothing is assembled,
    or the list goes on with the run. *)
Definition run_head (lf : lfn_state) (rs : list dirent) : Prop :=
  seq_max lf = 0 ∨ ∀ e, head rs = Some e → run_next e.

Lemma run_head_next e rs lf : dir_wf (e :: rs) → entry_used e = true → is_lfn e = true → run_head lf rs.
Proof. intros Hr Hu Hl. right. intros e' He'. apply (Hr 0%nat e e'); [done| |done]. by destruct rs. Qed.

(** Putting a record into a slot that the scan reaches inserts its entry; a
    slot that was free hides no entry. *)
Lemma entries_put rs k e e' lf :
  dir_wf rs → run_head lf rs → rs !! k = Some e → (∀ j x, rs !! j = Some x → (j < k)%nat → byte_at x 0 ≠ ENT_END) → plain e' →
  ∃ es1 es2 es3 nm, dir_entries lf rs = es1 ++ es2 ∧ dir_entries lf (<[k := e']> rs) = es1 ++ (nm, e') :: es3 ∧
    (entry_used e = false → es3 = es2 ∧ nm = c_str (fat_short_to_name (de_name e'))).
Proof.
  revert k lf. induction rs as [|x rs IH]; intros k lf Hwf Hh Hk Hb Hp; [done|].
  pose proof (dir_wf_tail _ _ Hwf) as Hwf'. destruct k as [|k].
  - injection Hk as ->. eexists [], _, _, _. split; [done|].
    cbn [insert list_insert dir_entries app]. destruct Hp as [Hpe Hpu Hpl Hpv]. rewrite (proj2 (Z.eqb_neq _ _) Hpe), Hpu, Hpl, Hpv.
    cbn [negb Z.eqb]. split; [done|]. intros Hu. rewrite Hu. split.
    + destruct (Z.eqb_spec (byte_at e 0) ENT_END) as [He|]; [|done]. unfold entry_used in Hu. by rewrite He in Hu.
    + unfold lfn_name. destruct Hh as [->|Hh]; [done|]. destruct (Hh e eq_refl) as [Hu' _]. congruence.
  - change (<[S k := e']> (x :: rs)) with (x :: <[k := e']> rs). cbn [dir_entries].
    rewrite (proj2 (Z.eqb_neq _ _) (Hb 0%nat x eq_refl ltac:(lia))). cbn [lookup] in Hk.
    assert (∀ j y, rs !! j = Some y → (j < k)%nat → byte_at y 0 ≠ ENT_END) as Hb' by (intros j y Hy Hj; apply (Hb (S j)); [done|lia]).
    destruct (entry_used x) eqn:Hux; cbn [negb]; [|by apply IH; [|left| | |]].
    destruct (is_lfn x) eqn:Hlx; [apply IH; try done; by eapply run_head_next|].
    destruct (Z.eqb_spec (Z.land (de_attr x) ATTR_VOLUME) 0) as [Hvx|Hvx]; cbn [negb].
    + destruct (IH k (lfn_reset lf)) as (es1 & es2 & es3 & nm & -> & -> & Hf); [done|by left|done..|].
      by eexists (_ :: es1), es2, es3, nm.
    + apply IH; try done. destruct Hh as [|Hh]; [by left|]. destruct (Hh x eq_refl) as [_ [?|?]]; congruence.
Qed.

(** ** Plain file names *)

Record file_name (name : list Z) : Prop := {
  fn_print : printable name;
  fn_slash : SLASH ∉ name;
  fn_len : (0 < length name < 56)%nat;
}.

Lemma index_of_none c l : c ∉ l → index_of c l = None.
Proof.
  induction l as [|x l IH]; [done|]. rewrite index_of_cons. intros [? ?]%not_elem_of_cons.
  rewrite decide_False by done. by rewrite IH.
Qed.

Lemma last_index_of_none c l : c ∉ l → last_index_of c l = None.
Proof.
  induction l as [|x l IH]; [done|]. intros [? ?]%not_elem_of_cons. cbn. rewrite IH by done.
  by rewrite decide_False.
Qed.

Lemma skip_slashes_none l : SLASH ∉ l → skip_slashes l = l.
Proof.
  destruct l as [|x l]; [done|]. intros [Hne _]%not_elem_of_cons. cbn.
  by rewrite (proj2 (Z.eqb_neq _ _)) by done.
Qed.

Section meta.
Context {W D : Type} `{EqDecision D} `{DiskHealth W D}.
Context (n : Z) (scr : scratch).
Implicit Types (s : fs W D) (m : fat_mount D).

Lemma sector_records_16 m : volume n m → sector_records m = 16%nat.
Proof. intros Hv. unfold sector_records. by rewrite (mo_bps _ (vo_mount _ _ Hv)). Qed.

(** One sector, with the transaction committed when it has a slot. *)
Lemma claim_sector_spec e' x pbuf s :
  in_txn n s → data_lba n (mnt s) x → (jcount (jr s) < MAX_JOURNAL_ENTRIES)%nat →
  match list_find claimable (sector_recs (sec s x)) with
  | Some (i, _) => ∃ s', claim_sector e' x pbuf s = Some (Stop tt, s') ∧ (i < 16)%nat ∧
      idle n s' ∧ mnt s' = mnt s ∧
      ∀ y, sec s' y = (<[x := copy_into (i * DIRENT_SIZE) e' (sec s x)]> (sec s)) y
  | None => ∃ s', claim_sector e' x pbuf s = Some (Go (sec s x), s') ∧ same n s s'
  end.
Proof.
  intros Htx Hx Hj. destruct (read_sector_spec n x pbuf s (tx_ready _ _ Htx) Hx) as (s1 & Erd & Hs1).
  assert (claim_sector e' x pbuf s = match list_find claimable (sector_recs (sec s x)) with
    | Some (i, _) => (_ ← log_sector x (copy_into (i * DIRENT_SIZE) e' (sec s x)); _ ← j_commit; mret (Stop tt)) s1
    | None => Some (Go (sec s x), s1) end) as ->.
  { unfold claim_sector, mbind, M_bind, gets. rewrite Erd, (sector_records_16 (mnt s)) by apply Htx.
    rewrite claim_records. by destruct (list_find _ _) as [[? ?]|]. }
  destruct (list_find claimable (sector_recs (sec s x))) as [[i e]|] eqn:E; [|by exists s1].
  apply list_find_Some in E as (Hi & _). apply lookup_lt_Some in Hi. rewrite length_sector_recs in Hi.
  pose proof (same_txn _ _ _ Hs1 Htx) as Htx1. unfold mbind, M_bind.
  destruct (log_sector_spec n x (copy_into (i * DIRENT_SIZE) e' (sec s x)) s1 Htx1) as
    (s2 & -> & Htx2 & Hm2 & Hsec2 & _); [by rewrite (sm_mnt _ _ _ Hs1)|left; by rewrite (sm_jr _ _ _ Hs1)|].
  destruct (j_commit_spec n s2 Htx2) as (s3 & -> & Hid & Hm3 & Hsec3).
  exists s3. split_and!; try done; [by rewrite Hm3, Hm2, (sm_mnt _ _ _ Hs1)|].
  intros y. rewrite Hsec3, Hsec2. destruct (decide (y = x)) as [->|].
  - by rewrite !fn_lookup_insert.
  - rewrite !fn_lookup_insert_ne by done. apply Hs1.
Qed.

(** The search through the sectors [ls]. *)
Lemma claim_walk e' ls pbuf s :
  in_txn n s → Forall (data_lba n (mnt s)) ls → (jcount (jr s) < MAX_JOURNAL_ENTRIES)%nat →
  match list_find claimable (concat (sector_recs <$> (sec s <$> ls))) with
  | Some (k, _) => ∃ s' j i x, walk_m (claim_sector e') ls pbuf s = Some (Stop tt, s') ∧
      k = (j * 16 + i)%nat ∧ (i < 16)%nat ∧ ls !! j = Some x ∧ idle n s' ∧ mnt s' = mnt s ∧
      ∀ y, sec s' y = (<[x := copy_into (i * DIRENT_SIZE) e' (sec s x)]> (sec s)) y
  | None => ∃ s' b, walk_m (claim_sector e') ls pbuf s = Some (Go b, s') ∧ same n s s'
  end.
Proof.
  revert pbuf s. induction ls as [|x ls IH]; intros pbuf s Htx Hls Hj; [by exists s, pbuf|].
  apply Forall_cons in Hls as [Hx Hls]. rewrite !fmap_cons. cbn [concat walk_m]. rewrite list_find_app.
  pose proof (claim_sector_spec e' x pbuf s Htx Hx Hj) as Hx1. unfold mbind, M_bind.
  destruct (list_find claimable (sector_recs (sec s x))) as [[i e]|].
  - destruct Hx1 as (s1 & -> & Hi & Hid & Hm & Hsec). by exists s1, 0%nat, i, x.
  - destruct Hx1 as (s1 & -> & Hs1). rewrite length_sector_recs.
    specialize (IH (sec s x) s1 (same_txn _ _ _ Hs1 Htx)). rewrite (sm_mnt _ _ _ Hs1), (sm_jr _ _ _ Hs1) in IH.
    specialize (IH Hls Hj).
    assert (sec s1 <$> ls = sec s <$> ls) as Hsecs by (apply list_fmap_ext; intros; apply Hs1).
    rewrite Hsecs in IH. destruct (list_find _ (concat _)) as [[k e]|].
    + destruct IH as (s' & j & i & y & E1 & -> & Hi & Hy & Hid & Hm & Hsec). cbn [fmap option_fmap option_map prod_map].
      exists s', (S j), i, y. split_and!; try done. intros z. rewrite Hsec.
      destruct (decide (z = y)) as [->|].
      * rewrite !fn_lookup_insert. by rewrite (sm_sec _ _ _ Hs1).
      * rewrite !fn_lookup_insert_ne by done. apply Hs1.
    + destruct IH as (s' & b & E1 & Hs'). exists s', b. split; [done|]. by etrans.
Qed.

(** ** Adding an entry *)

(** [s'] is [s] with the records of a directory replaced. *)
Record dir_change s s' (l : list Z) (rs : list dirent) : Prop := {
  dc_mnt : mnt s' = mnt s;
  dc_recs : dir_records s' l = rs;
  dc_other : ∀ x, x ∉ chain_lbas (mnt s) l → sec s' x = sec s x;
  dc_sized : sized n s → sized n s';
}.

Lemma claim_keeps e' lba pbuf : keeps_mnt (W := W) (D := D) (claim_sector e' lba pbuf).
Proof.
  unfold claim_sector. apply keeps_bind; [apply keeps_gets|]. intros m.
  apply keeps_bind; [apply keeps_read_sector|]. intros [r b].
  destruct (walk_records _ _ _ _ _); [apply keeps_ret|]. eauto with lnx.
Qed.

Lemma put_sector_change s s' c l j i x e :
  ready n s → sized n s → good_chain (mnt s) c l → chain_lbas (mnt s) l !! j = Some x → (i < 16)%nat →
  length e = DIRENT_SIZE → bytes_ok e → mnt s' = mnt s →
  (∀ y, sec s' y = (<[x := copy_into (i * DIRENT_SIZE) e (sec s x)]> (sec s)) y) →
  dir_change s s' l (<[(j * 16 + i)%nat := e]> (dir_records s l)).
Proof.
  intros Hr Hz Hch Hx Hi He Hb Hm Hs. split; [done|by eapply dir_records_put|..].
  - intros y Hy. rewrite Hs. apply fn_lookup_insert_ne. intros ->. apply Hy. by eapply list_elem_of_lookup_2.
  - intros _ y Hy. rewrite Hm in Hy. rewrite Hs. destruct (decide (y = x)) as [->|].
    + rewrite fn_lookup_insert. destruct (Hz x Hy) as [Hlx Hbx].
      rewrite length_copy_into; [split; [done|by apply bytes_ok_copy]|].
      rewrite He, Hlx. unfold DIRENT_SIZE. lia.
    + rewrite fn_lookup_insert_ne by done. by apply Hz.
Qed.

Lemma parent_entry_add_spec fuel c l name attr clus s :
  idle n s → sized n s → good_chain (mnt s) c l → (length l ≤ fuel)%nat → printable name →
  match list_find claimable (dir_records s l) with
  | Some (k, _) => ∃ s', parent_entry_add scr fuel c name attr clus s = Some (0, s') ∧ idle n s' ∧
      dir_change s s' l (<[k := new_record name attr clus]> (dir_records s l))
  | None => ∃ s', parent_entry_add scr fuel c name attr clus s = Some (LNXRM_EFAIL, s') ∧ idle n s' ∧
      mnt s' = mnt s ∧ ∀ x, sec s' x = sec s x
  end.
Proof.
  intros Hid Hz Hch Hf Hn. destruct (new_record_ok name attr clus Hn) as (Hlen & Hb & _).
  unfold parent_entry_add, mbind, M_bind. cbn [gets].
  destruct (j_begin_spec n s Hid) as (s1 & E & Htx & Hsy & Hm & Hbs & Hj). unfold gets. rewrite E.
  assert (∀ x, sec s1 x = sec s x) as Hsec1 by (intros x; unfold sec; by rewrite Hm, Hbs).
  pose proof (tx_ready _ _ Htx) as Hr1.
  rewrite <- Hm in Hch |- *. rewrite (chain_flat n) with (l := l);
    [|apply Hr1|apply Hr1|done|done|intros; apply claim_keeps].
  pose proof (claim_walk (new_record name attr clus) (chain_lbas (mnt s1) l) (s_sec scr) s1 Htx) as Hw.
  assert (dir_records s l = concat (sector_recs <$> (sec s1 <$> chain_lbas (mnt s1) l))) as Hrec.
  { unfold dir_records. rewrite Hm. do 2 f_equal. apply list_fmap_ext. intros. by rewrite Hsec1. }
  rewrite Hrec. destruct (list_find _ _) as [[k e]|].
  - destruct Hw as (s' & j & i & x & -> & -> & Hi & Hx & Hid' & Hm' & Hs').
    { apply Forall_forall. intros y Hy. eapply live_lbas; [apply Hr1|apply Hch|done]. }
    { rewrite Hj. unfold MAX_JOURNAL_ENTRIES. lia. }
    exists s'. split; [done|]. split; [done|]. rewrite <- Hrec.
    eapply put_sector_change; [apply Hid|done|by rewrite <- Hm|by rewrite <- Hm|done..| |].
    + congruence.
    + intros y. rewrite Hs'. destruct (decide (y = x)) as [->|].
      * rewrite !fn_lookup_insert. by rewrite Hsec1.
      * rewrite !fn_lookup_insert_ne by done. apply Hsec1.
  - destruct Hw as (s' & b & -> & Hs').
    { apply Forall_forall. intros y Hy. eapply live_lbas; [apply Hr1|apply Hch|done]. }
    { rewrite Hj. unfold MAX_JOURNAL_ENTRIES. lia. }
    destruct (j_abort_spec n s') as (s2 & -> & Hid2 & Hm2 & Hs2).
    + by eapply same_txn.
    + by apply Hs'.
    + rewrite (sm_jr _ _ _ Hs'). apply nil_length_inv. by rewrite length_pending.
    + exists s2. split_and!; [done|done|by rewrite Hm2, (sm_mnt _ _ _ Hs')|]. intros x. rewrite Hs2, (sm_sec _ _ _ Hs'). apply Hsec1.
Qed.

(** ** Files of the root directory *)

Lemma resolve_root_spec fuel name l r s :
  idle n s → sized n s → good_chain (mnt s) (root_cluster (mnt s)) l → (length l ≤ fuel)%nat → file_name name →
  ∃ s', fat_resolve_path scr fuel name r s = Some (match first_match name (entries_of scr s l) with
      | Some e => (true, Resolve (root_cluster (mnt s)) name e true)
      | None => (false, Resolve (root_cluster (mnt s)) (r_name r) (r_de r) false) end, s') ∧ same n s s'.
Proof.
  intros Hid Hz Hch Hf [Hp Hsl Hln]. unfold fat_resolve_path, mbind, M_bind, gets.
  rewrite skip_slashes_none by done. rewrite decide_False by by intros ->; simpl in Hln; lia.
  cbn [resolve_loop]. rewrite index_of_none by done. rewrite (proj2 (Nat.leb_gt _ _)) by lia.
  unfold mbind, M_bind.
  destruct (scan_find_spec n scr fuel _ l name s Hid Hz Hch Hf) as (s' & -> & Hs).
  exists s'. split; [|done]. by destruct (first_match _ _).
Qed.

Lemma lookup_root_spec fuel name l s :
  idle n s → sized n s → good_chain (mnt s) (root_cluster (mnt s)) l → (length l ≤ fuel)%nat → file_name name →
  ∃ s', fat_lookup_impl scr fuel name s = Some (match first_match name (entries_of scr s l) with
      | Some e => (0, Some (Vnode (if is_dir e then V_DIR else V_REG) (if is_dir e then 0 else filesize e)
                             (Resolve (root_cluster (mnt s)) name e true)))
      | None => (LNXRM_EFAIL, None) end, s') ∧ same n s s'.
Proof.
  intros Hid Hz Hch Hf Hn. pose proof Hn as [Hp Hsl Hln]. unfold fat_lookup_impl, mbind, M_bind, gets.
  rewrite skip_slashes_none by done. rewrite decide_False by by intros ->; simpl in Hln; lia.
  destruct (resolve_root_spec fuel name l (Resolve 0 [] [] false) s Hid Hz Hch Hf Hn) as (s' & -> & Hs).
  exists s'. split; [|done]. destruct (first_match _ _) as [e|]; cbn; [|done]. by destruct (is_dir e).
Qed.

Lemma sized_ext s s' : mnt s' = mnt s → (∀ x, sec s' x = sec s x) → sized n s → sized n s'.
Proof. intros Hm Hs Hz x Hx. rewrite Hm in Hx. rewrite Hs. by apply Hz. Qed.

(** The entries after a record was put into the first slot. *)
Lemma added_entry s s' l k e0 name attr clus :
  dir_wf (dir_records s l) → list_find claimable (dir_records s l) = Some (k, e0) → printable name →
  attr = ATTR_ARCHIVE ∨ attr = Z.lor ATTR_DIR ATTR_ARCHIVE →
  dir_change s s' l (<[k := new_record name attr clus]> (dir_records s l)) →
  first_match name (entries_of scr s l) = None →
  ∃ es1 es2 es3 nm, entries_of scr s l = es1 ++ es2 ∧
    entries_of scr s' l = es1 ++ (nm, new_record name attr clus) :: es3 ∧ (entry_used e0 = false → es3 = es2) ∧
    first_match name (entries_of scr s' l) = Some (new_record name attr clus).
Proof.
  intros Hwf Hk Hn Ha Hdc Hfm. apply list_find_Some in Hk as (Hk & Hcl & Hb).
  assert (∀ j x, dir_records s l !! j = Some x → (j < k)%nat → byte_at x 0 ≠ ENT_END) as Hb'.
  { intros j x Hx Hj He. apply (Hb j x Hx Hj). by left. }
  destruct (entries_put _ k e0 (new_record name attr clus) (lfn_reset (s_lfn scr)) Hwf
    ltac:(by left) Hk Hb' (new_record_plain _ _ _ Hn Ha)) as (es1 & es2 & es3 & nm & H1' & H2' & Hfree).
  unfold entries_of in *. rewrite (dc_recs _ _ _ _ Hdc). rewrite H2'.
  exists es1, es2, es3, nm. split; [done|]. split; [done|]. split; [by intros; apply Hfree|].
  rewrite H1', first_match_app in Hfm. rewrite first_match_app.
  destruct (first_match name es1); [done|]. cbn [first_match]. unfold matches.
  destruct (new_record_ok name attr clus Hn) as (_ & _ & -> & _). rewrite eq_short_self by done.
  by rewrite orb_true_r.
Qed.

End meta.

(** ** The demonstration volume *)

Module MetaDemo.
Definition scr : scratch := Scratch [] [] (Lfn (replicate LONGNAME_SIZE 0) 0 0).
Definition root_node : resolve :=
  Resolve 2 [] (set_cluster 2 (put8 11 ATTR_DIR (replicate DIRENT_SIZE 0))) false.

Lemma s0_sized : sized 64 FatDemo.s0.
Proof.
  intros l _. unfold sec. rewrite <- (id_sync _ _ ReadyDemo.s0_idle l). apply FatDemo.disk_ok.
Qed.

Lemma root_good : good_chain FatDemo.m0 2 [2].
Proof. split; [apply FatDemo.root_chain|]. by_eval. Qed.

Lemma root_wf : dir_wf (dir_records FatDemo.s0 [2]).
Proof.
  intros i e e' He _ [_ Hl]. exfalso.
  assert (Forall (λ e, is_lfn e = false) (dir_records FatDemo.s0 [2])) as Hf by by_eval.
  apply (Forall_lookup_1 _ _ _ _ Hf) in He. congruence.
Qed.
End MetaDemo.

Lemma readdir_enumerates_witness :
  ∃ s', readdir MetaDemo.scr 2 64 MetaDemo.root_node 0 FatDemo.s0 =
    Some ([([104; 105; 46; 116; 120; 116], 8)], s') ∧ same 64 FatDemo.s0 s'.
Proof.
  destruct (readdir_enumerates 64 MetaDemo.scr 64 MetaDemo.root_node [2] FatDemo.s0
    ReadyDemo.s0_idle MetaDemo.s0_sized MetaDemo.root_good ltac:(simpl; lia)) as (s' & E & Hs).
  exists s'. split; [|exact Hs].
  assert (shown <$> visible (entries_of MetaDemo.scr FatDemo.s0 [2]) = [([104; 105; 46; 116; 120; 116], 8)])
    as Hv by (vm_compute; reflexivity).
  rewrite <- (length_fmap shown), Hv in E. exact E.
Defined.

