(* ===== verification/FatData.v ===== *)
(** The data of regular files on a working volume: reading a range of a file
    ([fat_read_impl]) and writing one ([fat_write_impl]), from the position in
    the cluster chain to the contents of the sectors. *)
From S2P Require Import Prelude Bytes Cstring BlkDev BlkCache BlkCacheFacts BlkHealth Journal FatName FatNameFacts FatTable FatTableFacts FatDir FatFile FatMeta FatReady FatDirFacts FatWalk FatMetaFacts.

#[local] Opaque CACHE_ENTRIES.

(** ** Rows of equal length *)

Lemma take_drop_rows {A} (k : nat) (rss : list (list A)) q row so c :
  Forall (λ r, length r = k) rss → rss !! q = Some row → (so + c ≤ k)%nat →
  take c (drop (q * k + so) (concat rss)) = take c (drop so row).
Proof.
  revert q. induction rss as [|r rss IH]; intros q Hl Hq Hc; [done|].
  apply Forall_cons in Hl as [Hr Hl]. destruct q as [|q]; cbn [concat].
  - injection Hq as ->. cbn [Nat.mul Nat.add]. rewrite drop_app_le, take_app_le by (rewrite ?length_drop; lia). done.
  - rewrite <- (IH q) by done. rewrite drop_app_ge by lia. do 2 f_equal. lia.
Qed.

Lemma copy_into_app_l (off : nat) (src b1 b2 : list Z) :
  (off + length src ≤ length b1)%nat → copy_into off src (b1 ++ b2) = copy_into off src b1 ++ b2.
Proof. intros Hl. unfold copy_into. rewrite take_app_le, drop_app_le by lia. by rewrite <- !app_assoc. Qed.

Lemma copy_into_app_r (off : nat) (src b1 b2 : list Z) :
  copy_into (length b1 + off) src (b1 ++ b2) = b1 ++ copy_into off src b2.
Proof.
  unfold copy_into. rewrite take_app_ge, drop_app_ge by lia.
  rewrite <- !app_assoc. do 2 f_equal; [f_equal; lia|]. do 2 f_equal; lia.
Qed.

Lemma copy_rows (k : nat) (rss : list (list Z)) q row so src :
  Forall (λ r, length r = k) rss → rss !! q = Some row → (so + length src ≤ k)%nat →
  concat (<[q := copy_into so src row]> rss) = copy_into (q * k + so) src (concat rss).
Proof.
  revert q. induction rss as [|r rss IH]; intros q Hl Hq Hc; [done|].
  apply Forall_cons in Hl as [Hr Hl]. destruct q as [|q]; cbn [insert list_insert concat].
  - injection Hq as ->. cbn [Nat.mul Nat.add]. by rewrite copy_into_app_l by lia.
  - fold (insert (M := list (list Z)) q (copy_into so src row) rss). rewrite IH by done.
    rewrite <- copy_into_app_r. f_equal. lia.
Qed.

Lemma copy_into_twice p a b B :
  (p + length a + length b ≤ length B)%nat → copy_into (p + length a) b (copy_into p a B) = copy_into p (a ++ b) B.
Proof.
  intros Hl. unfold copy_into. rewrite length_app.
  assert (length (take p B) = p) as Hp by (rewrite length_take; lia).
  rewrite (app_assoc (take p B) a), take_app_ge, drop_app_ge by (rewrite length_app; lia).
  rewrite length_app, Hp, Nat.sub_diag, take_0, app_nil_r, drop_drop, <- !app_assoc.
  do 4 f_equal. lia.
Qed.

Lemma copy_into_nil p B : copy_into p [] B = B.
Proof. unfold copy_into. rewrite Nat.add_0_r. apply take_drop. Qed.

(** What is read back from a range that was written. *)
Lemma read_copy p a B : (p + length a ≤ length B)%nat → take (length a) (drop p (copy_into p a B)) = a.
Proof.
  intros Hl. unfold copy_into. rewrite drop_app_ge by (rewrite length_take; lia).
  rewrite length_take, Nat.min_l, Nat.sub_diag, drop_0 by lia. by rewrite take_app_length.
Qed.

Section data.
Context {W D : Type} `{EqDecision D} `{DiskHealth W D}.
Context (n : Z) (scr : scratch).
Implicit Types (s : fs W D) (m : fat_mount D).

(** The bytes of a chain of clusters, and how many they are. *)
Definition file_bytes s (l : list Z) : list Z := concat (sec s <$> chain_lbas (mnt s) l).
Definition capacity m (l : list Z) : Z := Z.of_nat (length l) * cluster_size m.

Lemma length_chain_lbas m l : volume n m → length (chain_lbas m l) = (length l * Z.to_nat (sectors_per_cluster m))%nat.
Proof.
  intros Hv. unfold chain_lbas. rewrite (length_concat_blocks (Z.to_nat (sectors_per_cluster m))), length_fmap; [done|].
  apply Forall_fmap, Forall_forall. intros. apply length_seqZ.
Qed.

Lemma rows_sized s l : ready n s → sized n s → Forall (live (mnt s)) l →
  Forall (λ r, length r = 512%nat) (sec s <$> chain_lbas (mnt s) l).
Proof.
  intros Hr Hz Hl. apply Forall_fmap, Forall_forall. intros x Hx. apply Hz. eapply live_lbas; [apply Hr|done|done].
Qed.

Lemma length_file_bytes s l : ready n s → sized n s → Forall (live (mnt s)) l →
  Z.of_nat (length (file_bytes s l)) = capacity (mnt s) l.
Proof.
  intros Hr Hz Hl. unfold file_bytes, capacity. rewrite (length_concat_blocks 512) by by apply rows_sized.
  rewrite length_fmap, length_chain_lbas by apply Hr. rewrite (vo_csize _ _ (rd_vol _ _ Hr)).
  pose proof (vo_spc _ _ (rd_vol _ _ Hr)). lia.
Qed.

Lemma file_bytes_ext s s' l : mnt s' = mnt s → (∀ x, x ∈ chain_lbas (mnt s) l → sec s' x = sec s x) → file_bytes s' l = file_bytes s l.
Proof. intros Hm Hs. unfold file_bytes. rewrite Hm. f_equal. apply Forall_fmap_ext, Forall_forall. done. Qed.

(** ** Positions in a chain *)

(** [c] and [ic] are the cluster and the offset in it of position [p] of the
    chain [l]; [c] ends the chain when [p] is the position behind it. *)
Definition cursor m (l : list Z) (p c ic : Z) : Prop :=
  ∃ j : nat, (j ≤ length l)%nat ∧ p = Z.of_nat j * cluster_size m + ic ∧ 0 ≤ ic < cluster_size m ∧ fchain m c (drop j l).

Lemma fchain_step m c j l : fchain m c (drop j l) → ¬ ends c →
  (j < length l)%nat ∧ l !! j = Some c ∧ fchain m (fat_next_cluster m c) (drop (S j) l).
Proof.
  intros Hch Hne. destruct (drop j l) as [|x r] eqn:E; [done|]. destruct Hch as (-> & _ & Hch).
  assert (l !! j = Some c) as Hj by (by rewrite <- (Nat.add_0_r j), <- lookup_drop, E).
  split_and!; [by eapply lookup_lt_Some|done|]. replace (S j) with (j + 1)%nat by lia. by rewrite <- drop_drop, E.
Qed.

(** The loop that looks for the cluster of an offset. *)
Lemma skip_clusters_spec fuel m c l off :
  volume n m → fchain m c l → (length l ≤ fuel)%nat → 0 ≤ off ≤ capacity m l →
  ∃ skip c', skip_clusters fuel m off c = Some (skip, c') ∧ cursor m l off c' (skip mod cluster_size m).
Proof.
  intros Hv Hch Hf Hoff. pose proof (vo_spc _ _ Hv). pose proof (vo_csize _ _ Hv) as Hcs. unfold capacity in Hoff.
  set (cs := cluster_size m) in *.
  assert (∀ j fuel c, (j ≤ length l)%nat → (length l - j ≤ fuel)%nat → fchain m c (drop j l) → Z.of_nat j * cs ≤ off →
    ∃ skip c', skip_clusters fuel m (off - Z.of_nat j * cs) c = Some (skip, c') ∧ cursor m l off c' (skip mod cs)) as Hgen.
  2: { destruct (Hgen 0%nat fuel c) as (sk & c' & E & Hc); [lia|lia|done|lia|]. exists sk, c'. split; [|done].
       by rewrite Z.sub_0_r in E. }
  clear fuel Hf c Hch. intros j fuel. revert j. induction fuel as [|fuel IH]; intros j c Hj Hf Hch Hle.
  - assert (j = length l) as -> by lia. rewrite drop_ge in Hch by lia. cbn [skip_clusters].
    rewrite <- andb_assoc, walk_guard, bool_decide_false, andb_false_r by tauto.
    eexists _, _. split; [done|]. exists (length l). rewrite drop_ge by lia. replace (off - _) with 0 by lia.
    rewrite Z.mod_0_l by lia. split_and!; (done || lia).
  - cbn [skip_clusters]. rewrite <- andb_assoc, walk_guard. fold cs.
    destruct (Z.leb_spec cs (off - Z.of_nat j * cs)) as [Hge|Hlt]; cbn [andb].
    + destruct (decide (ends c)) as [He|He].
      { destruct (drop j l) as [|x r] eqn:E; [|by destruct Hch as (_ & ? & _)].
        assert (length l - j = 0)%nat by (rewrite <- length_drop, E; done).
        assert (j = length l) as -> by lia. lia. }
      rewrite bool_decide_true by done. destruct (fchain_step _ _ _ _ Hch He) as (Hj' & _ & Hch').
      destruct (IH (S j) (fat_next_cluster m c)) as (sk & c' & E & Hc); [lia|lia|done|lia|].
      exists sk, c'. split; [|done]. rewrite <- E. f_equal. lia.
    + eexists _, _. split; [done|]. exists j. rewrite Z.mod_small by lia. split_and!; (done || lia).
Qed.

Lemma cursor_sector m l p c ic :
  volume n m → Forall (live m) l → cursor m l p c ic → p < capacity m l →
  ¬ ends c ∧ p mod 512 = ic mod 512 ∧ ∃ x, chain_lbas m l !! Z.to_nat (p / 512) = Some x ∧
    cluster_lba m c + ic / 512 = x ∧ data_lba n m x.
Proof.
  intros Hv Hl (j & Hj & -> & Hic & Hch) Hp. unfold capacity in Hp. pose proof (vo_spc _ _ Hv) as Hspc.
  pose proof (vo_csize _ _ Hv) as Hcs. set (spc := sectors_per_cluster m) in *. rewrite Hcs in *.
  assert (j < length l)%nat as Hjl by nia. destruct (lookup_lt_is_Some_2 l j Hjl) as [x Hx].
  rewrite (drop_S _ _ _ Hx) in Hch. destruct Hch as (-> & Hne & Hch). split; [done|].
  replace (Z.of_nat j * (512 * spc) + ic) with (ic + Z.of_nat j * spc * 512) by lia.
  rewrite Z.mod_add, Z.div_add by lia. split; [done|]. exists (cluster_lba m c + ic / 512).
  assert (0 ≤ ic / 512 < spc) as Hq by (split; [apply Z.div_pos; lia|apply Z.div_lt_upper_bound; lia]).
  assert (chain_lbas m l !! Z.to_nat (ic / 512 + Z.of_nat j * spc) = Some (cluster_lba m c + ic / 512)) as Hlk.
  { replace (Z.to_nat (ic / 512 + Z.of_nat j * spc)) with (j * Z.to_nat spc + Z.to_nat (ic / 512))%nat by lia.
    unfold chain_lbas. rewrite (concat_lookup (Z.to_nat spc) _ j _ (cluster_lbas m c)).
    - apply lookup_seqZ. lia.
    - apply Forall_fmap, Forall_forall. intros. apply length_seqZ.
    - by rewrite list_lookup_fmap, Hx.
    - lia. }
  split_and!; [done|done|]. eapply live_lbas; [done|exact Hl|]. by eapply list_elem_of_lookup_2.
Qed.

Lemma cursor_step m l p c ic k :
  volume n m → cursor m l p c ic → ¬ ends c → 0 < k ≤ 512 - ic mod 512 →
  ic + k ≤ cluster_size m ∧
  cursor m l (p + k) (if cluster_size m <=? ic + k then fat_next_cluster m c else c)
    (if cluster_size m <=? ic + k then 0 else ic + k).
Proof.
  intros Hv (j & Hj & -> & Hic & Hch) Hne Hk. pose proof (vo_spc _ _ Hv) as Hspc.
  pose proof (vo_csize _ _ Hv) as Hcs. pose proof (Z.div_mod ic 512). 
  assert (ic / 512 < sectors_per_cluster m) by (apply Z.div_lt_upper_bound; lia).
  assert (ic + k ≤ cluster_size m) as Hle by lia. split; [done|].
  destruct (fchain_step _ _ _ _ Hch Hne) as (Hj' & _ & Hch').
  destruct (Z.leb_spec (cluster_size m) (ic + k)); [exists (S j)|exists j]; split_and!; (done || lia).
Qed.

(** ** Reading *)

Lemma same_file_bytes s s' l : same n s s' → file_bytes s' l = file_bytes s l.
Proof. intros Hs. apply file_bytes_ext; [apply Hs|]. intros. apply Hs. Qed.

Lemma capacity_sectors m l : volume n m → capacity m l = 512 * (capacity m l / 512).
Proof.
  intros Hv. unfold capacity. rewrite (vo_csize _ _ Hv).
  replace (Z.of_nat (length l) * (512 * sectors_per_cluster m)) with (Z.of_nat (length l) * sectors_per_cluster m * 512) by lia.
  rewrite Z.div_mul by lia. lia.
Qed.

(** The arithmetic of one turn: [k] bytes are left and [ck] of them are in the
    sector of position [p]. *)
Lemma chunk_arith p ic k ck cap :
  0 ≤ p → 0 < k → p mod 512 = ic mod 512 → cap = 512 * (cap / 512) → p + k ≤ cap → ck = Z.min k (512 - ic mod 512) →
  0 < ck ≤ 512 - ic mod 512 ∧ 0 ≤ ic mod 512 < 512 ∧ p / 512 < cap / 512 ∧
  (Z.to_nat (p / 512) * 512 + Z.to_nat (ic mod 512))%nat = Z.to_nat p ∧
  (ck < k → (p + ck) / 512 = p / 512 + 1 ∧ (p + ck) mod 512 = 0).
Proof.
  intros Hp Hk Hmod Hcap Hle ->. pose proof (Z.mod_pos_bound ic 512 ltac:(lia)). pose proof (Z.div_mod p 512 ltac:(lia)).
  pose proof (Z.div_pos p 512 Hp ltac:(lia)).
  split_and!; [lia..| |lia|]; [apply Z.div_lt_upper_bound; lia|]. intros Hlt.
  assert (p + Z.min k (512 - ic mod 512) = (p / 512 + 1) * 512) as -> by lia.
  rewrite Z.div_mul, Z.mod_mul by lia. lia.
Qed.

Lemma read_loop_done fuel k c ic done tmp out s : k ≤ done → read_loop fuel k c ic done tmp out s = Some (done, out, s).
Proof. intros Hk. destruct fuel; cbn [read_loop]; by rewrite (proj2 (Z.ltb_ge _ _)) by lia. Qed.

(** One turn of the copy loop. *)
Lemma read_loop_turn fuel l k p c ic done tmp out s :
  idle n s → sized n s → Forall (live (mnt s)) l → cursor (mnt s) l p c ic → 0 ≤ p → 0 ≤ done < k → k < 2 ^ 32 →
  p + (k - done) ≤ capacity (mnt s) l →
  ∃ ck c' ic' tmp' s1, ck = Z.min (k - done) (512 - ic mod 512) ∧ cursor (mnt s) l (p + ck) c' ic' ∧ same n s s1 ∧
    read_loop (S fuel) k c ic done tmp out s = read_loop fuel k c' ic' (done + ck) tmp'
      (out ++ take (Z.to_nat ck) (drop (Z.to_nat p) (file_bytes s l))) s1.
Proof.
  intros Hid Hz Hl Hcu Hp Hd Hk Hcap. pose proof (id_ready _ _ Hid) as Hr. pose proof (rd_vol _ _ Hr) as Hv.
  destruct (cursor_sector _ _ _ _ _ Hv Hl Hcu ltac:(lia)) as (Hne & Hmod & x & Hx & Hlba & Hdx).
  set (ck := Z.min (k - done) (512 - ic mod 512)).
  destruct (chunk_arith p ic (k - done) ck _ Hp ltac:(lia) Hmod (capacity_sectors _ _ Hv) Hcap eq_refl) as (Hck & Hso & _ & Hpn & _).
  destruct (cursor_step _ _ _ _ _ ck Hv Hcu Hne Hck) as [Hle Hcu'].
  pose proof (data_nonneg n s Hr). pose proof (rd_n _ _ Hr) as Hn. unfold LBA_MAX, data_lba in *.
  destruct (m_read_spec n x 1 tmp s Hr) as (s1 & Erd & Hs1); [lia..|].
  eexists ck, _, _, _, s1. split_and!; [done|exact Hcu'|done|].
  cbn [read_loop]. rewrite <- andb_assoc, walk_guard, bool_decide_true, (proj2 (Z.ltb_lt _ _)) by (done || lia). cbn [andb].
  unfold mbind, M_bind, gets. rewrite (mo_bps _ (vo_mount _ _ Hv)), Hlba, (u64_small x), Erd by lia.
  assert (0 ≤ ic) by (destruct Hcu as (? & _ & _ & ? & _); lia). pose proof (vo_csize _ _ Hv). pose proof (vo_spc _ _ Hv).
  cbn [Z.eqb negb]. fold ck. rewrite (u64_small (done + ck)), (u32_small (ic + ck)) by lia.
  change (seqZ x 1) with [x]. cbn [fmap list_fmap concat]. rewrite app_nil_r, (id_sync _ _ Hid x).
  assert (take (Z.to_nat ck) (drop (Z.to_nat (ic mod 512)) (view (bs s) (fm_dev (mnt s)) x)) =
    take (Z.to_nat ck) (drop (Z.to_nat p) (file_bytes s l))) as ->; [|by destruct (_ <=? _)].
  unfold file_bytes. rewrite <- Hpn. symmetry. apply take_drop_rows; [by apply rows_sized|by rewrite list_lookup_fmap, Hx|lia].
Qed.

Lemma read_loop_spec fuel l k p c ic done tmp out s :
  idle n s → sized n s → Forall (live (mnt s)) l → cursor (mnt s) l p c ic → 0 ≤ p → 0 ≤ done ≤ k → k < 2 ^ 32 →
  p + (k - done) ≤ capacity (mnt s) l → (done < k → capacity (mnt s) l / 512 - p / 512 ≤ Z.of_nat fuel) →
  ∃ s', read_loop fuel k c ic done tmp out s =
    Some (k, out ++ take (Z.to_nat (k - done)) (drop (Z.to_nat p) (file_bytes s l)), s') ∧ same n s s'.
Proof.
  revert p c ic done tmp out s. induction fuel as [|fuel IH]; intros p c ic dn tmp out s Hid Hz Hl Hcu Hp Hd Hk Hcap Hf.
  all: pose proof (rd_vol _ _ (id_ready _ _ Hid)) as Hv; pose proof (capacity_sectors _ l Hv) as Hc.
  all: destruct (decide (dn < k)) as [Hlt|Hge].
  2, 4: exists s; (split; [|done]); assert (dn = k) as -> by lia; rewrite Z.sub_diag, take_0, app_nil_r;
    by apply read_loop_done.
  all: destruct (cursor_sector _ _ _ _ _ Hv Hl Hcu ltac:(lia)) as (_ & Hmod & _);
    destruct (chunk_arith p ic (k - dn) _ _ Hp ltac:(lia) Hmod Hc Hcap eq_refl) as (Hck & Hso & Hpc & Hpn & Hnext).
  { specialize (Hf Hlt). lia. }
  destruct (read_loop_turn fuel l k p c ic dn tmp out s) as (ck & c' & ic' & tmp' & s1 & Eck & Hcu' & Hs1 & ->); [done..|lia|lia|done|].
  rewrite <- Eck in *. pose proof (sm_mnt _ _ _ Hs1) as Hm1.
  destruct (IH (p + ck) c' ic' (dn + ck) tmp' (out ++ take (Z.to_nat ck) (drop (Z.to_nat p) (file_bytes s l))) s1) as (s2 & -> & Hs2);
    [by eapply same_idle|by eapply same_sized|by rewrite Hm1|by rewrite Hm1|lia|lia|lia|rewrite Hm1; lia| |].
  { rewrite Hm1. intros Hlt'. destruct (Hnext ltac:(lia)) as [-> _]. lia. }
  exists s2. split; [|by etrans]. rewrite (same_file_bytes s s1) by done. rewrite <- app_assoc. do 4 f_equal.
  replace (Z.to_nat (p + ck)) with (Z.to_nat p + Z.to_nat ck)%nat by lia. rewrite <- drop_drop, take_take_drop. f_equal. lia.
Qed.
(** Fuel for every loop over a chain and its sectors. *)
Definition enough m (fuel : nat) : Prop := max_cluster m * sectors_per_cluster m ≤ Z.of_nat fuel.

Lemma enough_chain m fuel c l :
  volume n m → good_chain m c l → enough m fuel → (length l ≤ fuel)%nat ∧ capacity m l / 512 ≤ Z.of_nat fuel ∧ capacity m l < 2 ^ 41.
Proof.
  intros Hv [Hch Hl] Hf. pose proof (vo_mount _ _ Hv) as Hm. pose proof (mo_max _ Hm). pose proof (vo_spc _ _ Hv).
  assert (length l ≤ Z.to_nat (max_cluster m))%nat as Hll.
  { apply (fchain_length m c); [done|done|]. eapply Forall_impl; [exact Hl|]. intros ? [? _]. lia. }
  unfold enough in Hf. unfold capacity. rewrite (vo_csize _ _ Hv).
  replace (Z.of_nat (length l) * (512 * sectors_per_cluster m)) with (Z.of_nat (length l) * sectors_per_cluster m * 512) by lia.
  rewrite Z.div_mul by lia.
  assert (Z.of_nat (length l) * sectors_per_cluster m ≤ max_cluster m * sectors_per_cluster m) by (apply Z.mul_le_mono_nonneg_r; lia).
  assert (max_cluster m * sectors_per_cluster m < 2 ^ 24 * 256) by (apply Z.mul_lt_mono_nonneg; lia).
  split_and!; [nia|lia|lia].
Qed.

(** The contents of a file of [size] bytes. *)
Definition contents s (l : list Z) (size : Z) : list Z := take (Z.to_nat size) (file_bytes s l).

Definition MAX_IO : Z := 1024 * 1024.

Lemma read_contents s l size off k : 0 ≤ off →
  take (Z.to_nat (Z.min k (size - off))) (drop (Z.to_nat off) (file_bytes s l)) =
  take (Z.to_nat k) (drop (Z.to_nat off) (contents s l size)).
Proof.
  intros Hoff. unfold contents. rewrite skipn_firstn_comm, take_take. f_equal. lia.
Qed.

Lemma fat_read_spec fuel r off k l s :
  idle n s → sized n s → enough (mnt s) fuel → is_dir (r_de r) = false →
  good_chain (mnt s) (de_cluster (r_de r)) l → filesize (r_de r) ≤ capacity (mnt s) l →
  0 ≤ off → 0 ≤ k → off + k < 2 ^ 64 →
  let data := take (Z.to_nat (Z.min k MAX_IO)) (drop (Z.to_nat off) (contents s l (filesize (r_de r)))) in
  ∃ s', fat_read_impl scr fuel r off true k s = Some (Z.of_nat (length data), data, s') ∧ same n s s'.
Proof.
  intros Hid Hz Hf Hdir Hch Hsz Hoff Hk Hov data. pose proof (id_ready _ _ Hid) as Hr. pose proof (rd_vol _ _ Hr) as Hv.
  destruct (enough_chain _ _ _ _ Hv Hch Hf) as (Hf1 & Hf2 & Hcap). pose proof (length_file_bytes s l Hr Hz (proj2 Hch)) as Hlen.
  unfold fat_read_impl, mbind at 1, M_bind at 1, gets. rewrite Hdir. cbn [negb andb]. set (size := filesize (r_de r)) in *.
  destruct (Z.leb_spec size off) as [Hge|Hlt].
  { exists s. split; [|done]. unfold data. rewrite drop_ge, take_nil; [done|].
    unfold contents. rewrite length_take. lia. }
  rewrite (u64_small (off + k)) by lia.
  set (k' := if 1024 * 1024 <? _ then _ else _).
  assert (k' = Z.min (Z.min k MAX_IO) (size - off)) as Hk'.
  { unfold k', MAX_IO. destruct (Z.ltb_spec size (off + k)); [destruct (Z.ltb_spec (1024 * 1024) (size - off))|destruct (Z.ltb_spec (1024 * 1024) k)]; lia. }
  destruct (skip_clusters_spec fuel (mnt s) _ l off Hv (proj1 Hch) Hf1 ltac:(lia)) as (skip & c' & -> & Hcu).
  pose proof (vo_csize _ _ Hv). pose proof (vo_spc _ _ Hv). pose proof (Z.mod_pos_bound skip (cluster_size (mnt s)) ltac:(lia)).
  rewrite u32_small by lia.
  destruct (read_loop_spec fuel l k' off c' _ 0 [s_sec scr] [] s Hid Hz (proj2 Hch) Hcu Hoff) as (s' & -> & Hs);
    [unfold MAX_IO in *; lia..| |].
  { intros _. pose proof (Z.div_pos off 512 Hoff ltac:(lia)). lia. }
  exists s'. split; [|done]. rewrite Z.sub_0_r, app_nil_l.
  assert (take (Z.to_nat k') (drop (Z.to_nat off) (file_bytes s l)) = data) as Hd by (unfold data; rewrite Hk'; by apply read_contents).
  rewrite Hd. do 3 f_equal. rewrite <- Hd, length_take, length_drop. unfold MAX_IO in Hk'. lia.
Qed.
(** Reading from a regular file of a working volume delivers exactly the bytes
    of the file at the offset, as many as were asked for, the file has left
    there and one call transfers (1 MiB), and changes nothing. *)
Theorem fat_read_correct fuel r off k l s :
  idle n s → sized n s → enough (mnt s) fuel → is_dir (r_de r) = false →
  good_chain (mnt s) (de_cluster (r_de r)) l → filesize (r_de r) ≤ capacity (mnt s) l →
  0 ≤ off → 0 ≤ k → off + k < 2 ^ 64 →
  let data := take (Z.to_nat (Z.min k MAX_IO)) (drop (Z.to_nat off) (contents s l (filesize (r_de r)))) in
  ∃ s', fat_read_impl scr fuel r off true k s = Some (Z.of_nat (length data), data, s') ∧ same n s s'.
Proof. apply fat_read_spec. Qed.

(** ** Writing *)

Definition pend s : list Z := (pending (jr s)).*1.

(** Within a transaction, [src] was written at position [p] of the chain [l];
    nothing else changed. *)
Record written s s' (l : list Z) (p : Z) (src : list Z) : Prop := {
  wr_txn : in_txn n s';
  wr_mnt : mnt s' = mnt s;
  wr_sized : sized n s';
  wr_bytes : file_bytes s' l = copy_into (Z.to_nat p) src (file_bytes s l);
  wr_other : ∀ y, y ∉ chain_lbas (mnt s) l → sec s' y = sec s y;
  wr_pend : ∀ y, y ∈ pend s' → y ∈ pend s ∨ y ∈ chain_lbas (mnt s) l;
}.

Lemma written_nil s l p : in_txn n s → sized n s → written s s l p [].
Proof. intros Ht Hz. split; auto. by rewrite copy_into_nil. Qed.

Lemma written_app s s1 s2 l p a b :
  written s s1 l p a → written s1 s2 l (p + Z.of_nat (length a)) b → 0 ≤ p →
  (Z.to_nat p + length a + length b ≤ length (file_bytes s l))%nat → written s s2 l p (a ++ b).
Proof.
  intros [_ Hm1 _ Hb1 Ho1 Hp1] [Ht2 Hm2 Hz2 Hb2 Ho2 Hp2] Hp Hle. rewrite Hm1 in *. split; [done|congruence|done|..].
  - rewrite Hb2, Hb1, Z2Nat.inj_add, Nat2Z.id by lia. by apply copy_into_twice.
  - intros y Hy. rewrite Ho2, Ho1 by done. done.
  - intros y [Hy|Hy]%Hp2; auto.
Qed.

Lemma written_sector s s' c l p q x so src :
  ready n s → sized n s → good_chain (mnt s) c l → chain_lbas (mnt s) l !! q = Some x →
  (so + length src ≤ 512)%nat → bytes_ok src → Z.to_nat p = (q * 512 + so)%nat →
  in_txn n s' → mnt s' = mnt s → (∀ y, sec s' y = (<[x := copy_into so src (sec s x)]> (sec s)) y) →
  (∀ y, y ∈ pend s' → y = x ∨ y ∈ pend s) → written s s' l p src.
Proof.
  intros Hr Hz Hch Hx Hso Hb Hp Ht Hm Hs Hpe. pose proof (list_elem_of_lookup_2 _ _ _ Hx) as Hin.
  assert (data_lba n (mnt s) x) as Hdx by (eapply live_lbas; [apply Hr|apply Hch|done]).
  destruct (Hz x Hdx) as [Hlx Hbx]. split; [done|done| | | |].
  - intros y Hy. rewrite Hm in Hy. rewrite Hs. destruct (decide (y = x)) as [->|].
    + rewrite fn_lookup_insert, length_copy_into by lia. split; [done|by apply bytes_ok_copy].
    + rewrite fn_lookup_insert_ne by done. by apply Hz.
  - unfold file_bytes. rewrite Hm, Hp.
    rewrite <- (copy_rows 512 _ q (sec s x)); [|apply rows_sized; [done|done|apply Hch]|by rewrite list_lookup_fmap, Hx|done].
    rewrite <- insert_lbas with (x := x); [|eapply (chain_lbas_nodup n); [apply Hr|done]|done].
    f_equal. apply list_fmap_ext. intros. apply Hs.
  - intros y Hy. rewrite Hs. apply fn_lookup_insert_ne. by intros ->.
  - intros y [->|Hy]%Hpe; auto.
Qed.

Lemma write_loop_done fuel buf k c ic done tmp s : k ≤ done → write_loop fuel buf k c ic done tmp s = Some (done, s).
Proof. intros Hk. destruct fuel; cbn [write_loop]; by rewrite (proj2 (Z.ltb_ge _ _)) by lia. Qed.

Lemma write_loop_turn fuel buf c0 l k p c ic done tmp s :
  in_txn n s → sized n s → good_chain (mnt s) c0 l → cursor (mnt s) l p c ic → 0 ≤ p → 0 ≤ done < k → k < 2 ^ 32 →
  k ≤ Z.of_nat (length buf) → bytes_ok buf → p + (k - done) ≤ capacity (mnt s) l →
  (∀ i y, chain_lbas (mnt s) l !! i = Some y → p / 512 ≤ Z.of_nat i → y ∉ pend s) →
  ∃ ck c' ic' tmp' s1, ck = Z.min (k - done) (512 - ic mod 512) ∧ cursor (mnt s) l (p + ck) c' ic' ∧
    written s s1 l p (take (Z.to_nat ck) (drop (Z.to_nat done) buf)) ∧
    (∀ y, y ∈ pend s1 → chain_lbas (mnt s) l !! Z.to_nat (p / 512) = Some y ∨ y ∈ pend s) ∧
    write_loop (S fuel) buf k c ic done tmp s = write_loop fuel buf k c' ic' (done + ck) tmp' s1.
Proof.
  intros Htx Hz Hch Hcu Hp Hd Hk Hbl Hb Hcap Hfresh. pose proof (tx_ready _ _ Htx) as Hr. pose proof (rd_vol _ _ Hr) as Hv.
  destruct (cursor_sector _ _ _ _ _ Hv (proj2 Hch) Hcu ltac:(lia)) as (Hne & Hmod & x & Hx & Hlba & Hdx).
  set (ck := Z.min (k - done) (512 - ic mod 512)).
  destruct (chunk_arith p ic (k - done) ck _ Hp ltac:(lia) Hmod (capacity_sectors _ _ Hv) Hcap eq_refl) as (Hck & Hso & _ & Hpn & _).
  destruct (cursor_step _ _ _ _ _ ck Hv Hcu Hne Hck) as [Hle Hcu'].
  pose proof (data_nonneg n s Hr). pose proof (rd_n _ _ Hr) as Hn. pose proof (Z.div_pos p 512 Hp ltac:(lia)).
  unfold LBA_MAX in Hn. pose proof Hdx as Hdx'. unfold data_lba in Hdx'.
  set (src := take (Z.to_nat ck) (drop (Z.to_nat done) buf)).
  assert (length src = Z.to_nat ck) as Hls by (unfold src; rewrite length_take, length_drop; lia).
  destruct (read_sector_spec n x tmp s Hr Hdx) as (s1 & Erd & Hs1). pose proof (sm_mnt _ _ _ Hs1) as Hm1.
  destruct (log_sector_spec n x (copy_into (Z.to_nat (ic mod 512)) src (sec s x)) s1) as
    (s2 & Elog & Htx2 & Hm2 & Hsec2 & _ & Hpe2); [by eapply same_txn|by rewrite Hm1| |].
  { right. rewrite (sm_jr _ _ _ Hs1). eapply Hfresh; [exact Hx|lia]. }
  rewrite (sm_jr _ _ _ Hs1) in Hpe2.
  eexists ck, _, _, _, s2. split_and!; [done|exact Hcu'| | |].
  - eapply (written_sector s s2 c0 l p (Z.to_nat (p / 512)) x (Z.to_nat (ic mod 512)));
      [done..|fold src; lia| |by rewrite Hpn|done|congruence| |done].
    + by apply Forall_take, Forall_drop.
    + intros y. rewrite Hsec2. destruct (decide (y = x)) as [->|]; [by rewrite !fn_lookup_insert|].
      rewrite !fn_lookup_insert_ne by done. apply Hs1.
  - intros y [->|Hy]%Hpe2; auto.
  - cbn [write_loop]. rewrite <- andb_assoc, walk_guard, bool_decide_true, (proj2 (Z.ltb_lt _ _)) by (done || lia). cbn [andb].
    unfold mbind, M_bind, gets. rewrite (mo_bps _ (vo_mount _ _ Hv)), Hlba, (u64_small x), Erd by lia.
    fold ck src. rewrite Elog. assert (0 ≤ ic) by (destruct Hcu as (? & _ & _ & ? & _); lia).
    pose proof (vo_csize _ _ Hv). pose proof (vo_spc _ _ Hv).
    rewrite (u64_small (done + ck)), (u32_small (ic + ck)) by lia. by destruct (_ <=? _).
Qed.

Lemma write_loop_spec fuel buf c0 l k p c ic done tmp s :
  in_txn n s → sized n s → good_chain (mnt s) c0 l → cursor (mnt s) l p c ic → 0 ≤ p → 0 ≤ done ≤ k → k < 2 ^ 32 →
  k ≤ Z.of_nat (length buf) → bytes_ok buf → p + (k - done) ≤ capacity (mnt s) l →
  (done < k → capacity (mnt s) l / 512 - p / 512 ≤ Z.of_nat fuel) →
  (done < k → ∀ i y, chain_lbas (mnt s) l !! i = Some y → p / 512 ≤ Z.of_nat i → y ∉ pend s) →
  ∃ s', write_loop fuel buf k c ic done tmp s = Some (k, s') ∧
    written s s' l p (take (Z.to_nat (k - done)) (drop (Z.to_nat done) buf)).
Proof.
  revert p c ic done tmp s.
  induction fuel as [|fuel IH]; intros p c ic dn tmp s Htx Hz Hch Hcu Hp Hd Hk Hbl Hb Hcap Hf Hfresh.
  all: pose proof (tx_ready _ _ Htx) as Hr; pose proof (rd_vol _ _ Hr) as Hv; pose proof (capacity_sectors _ l Hv) as Hc.
  all: destruct (decide (dn < k)) as [Hlt|Hge].
  2, 4: exists s; assert (dn = k) as -> by lia; rewrite Z.sub_diag, take_0;
    (split; [by apply write_loop_done|by apply written_nil]).
  all: destruct (cursor_sector _ _ _ _ _ Hv (proj2 Hch) Hcu ltac:(lia)) as (_ & Hmod & _);
    destruct (chunk_arith p ic (k - dn) _ _ Hp ltac:(lia) Hmod Hc Hcap eq_refl) as (Hck & Hso & Hpc & Hpn & Hnext).
  { specialize (Hf Hlt). lia. }
  destruct (write_loop_turn fuel buf c0 l k p c ic dn tmp s) as (ck & c' & ic' & tmp' & s1 & Eck & Hcu' & Hw1 & Hpe1 & ->);
    [done..|lia|lia|done|done|done|exact (Hfresh Hlt)|].
  rewrite <- Eck in *. pose proof (wr_mnt _ _ _ _ _ Hw1) as Hm1.
  destruct (IH (p + ck) c' ic' (dn + ck) tmp' s1) as (s2 & -> & Hw2); rewrite ?Hm1; try done; try lia; [apply Hw1|apply Hw1| |].
  { intros Hlt' i y Hy Hi Hin. destruct (Hnext ltac:(lia)) as [Hq _]. apply Hpe1 in Hin as [Hin|Hin].
    - pose proof (Z.div_pos p 512 Hp ltac:(lia)). assert (Z.to_nat (p / 512) = i) as <-; [|lia].
      eapply NoDup_lookup; [eapply (chain_lbas_nodup n); [apply Hr|exact Hch]|exact Hin|exact Hy].
    - revert Hin. apply (Hfresh Hlt i y Hy). lia. }
  exists s2. split; [done|]. set (a := take (Z.to_nat ck) (drop (Z.to_nat dn) buf)) in *.
  assert (Z.of_nat (length a) = ck) as Hla by (unfold a; rewrite length_take, length_drop; lia).
  replace (take (Z.to_nat (k - dn)) (drop (Z.to_nat dn) buf)) with (a ++ take (Z.to_nat (k - (dn + ck))) (drop (Z.to_nat (dn + ck)) buf)).
  - eapply written_app; [exact Hw1|by rewrite Hla|done|].
    pose proof (length_file_bytes s l Hr Hz (proj2 Hch)). rewrite length_take, length_drop. lia.
  - unfold a. replace (Z.to_nat (dn + ck)) with (Z.to_nat dn + Z.to_nat ck)%nat by lia.
    rewrite <- drop_drop, take_take_drop. f_equal. lia.
Qed.
End data.
