(* ===== verification/FatWrite.v ===== *)
(** Writing a file on a working volume ([fat_write_impl]): the chain grows, the
    data reach the sectors of the file, the directory gets the new size, and
    the transaction brings all of it to the device. *)
From S2P Require Import Prelude Bytes Cstring BlkDev BlkCache BlkCacheFacts BlkHealth Journal FatName FatNameFacts FatTable FatTableFacts FatDir FatFile FatMeta FatReady FatDirFacts FatWalk FatMetaFacts FatData.

#[local] Opaque CACHE_ENTRIES.

(** ** The record of the file *)

(** The update stops at the end marker or at the name. *)
Definition hits (de e : dirent) : Prop :=
  byte_at e 0 = ENT_END ∨ (entry_used e = true ∧ de_name e = de_name de).
#[global] Instance hits_dec de e : Decision (hits de e).
Proof. unfold hits. apply _. Defined.

Definition updated (de e : dirent) : dirent :=
  let e := set_cluster (de_cluster de) (set_filesize (filesize de) e) in
  put8 11 (Z.lor (de_attr e) ATTR_ARCHIVE) e.

(** The records of a directory after the update. *)
Definition update_dir (de : dirent) (rs : list dirent) : list dirent :=
  match list_find (hits de) rs with
  | Some (k, e) => if decide (byte_at e 0 = ENT_END) then rs else <[k := updated de e]> rs
  | None => rs
  end.

Lemma update_record_cases de b off e :
  update_record de b off e tt =
  if decide (hits de e) then Stop (if decide (byte_at e 0 = ENT_END) then None else Some (copy_into off (updated de e) b))
  else Go tt.
Proof.
  unfold update_record. destruct (decide (hits de e)) as [Hh|Hh]; unfold hits in Hh;
    destruct (Z.eqb_spec (byte_at e 0) ENT_END) as [He|He]; [by rewrite decide_True| |tauto|].
  - rewrite (decide_False (P := _ = ENT_END)) by done. destruct Hh as [?|[-> Hn]]; [done|]. cbn [negb]. by rewrite decide_True.
  - destruct (entry_used e); cbn [negb]; [|done]. rewrite decide_False by tauto. done.
Qed.

Lemma update_records de b :
  walk_records (update_record de b) b 0 16 tt =
  match list_find (hits de) (sector_recs b) with
  | Some (i, e) => Stop (if decide (byte_at e 0 = ENT_END) then None else Some (copy_into (i * DIRENT_SIZE) (updated de e) b))
  | None => Go tt
  end.
Proof.
  rewrite walk_records_list. unfold sector_recs. cbn [Nat.add].
  assert (∀ k st, walk_list (λ i, update_record de b (i * DIRENT_SIZE) (record_at b (i * DIRENT_SIZE))) (seq st k) tt =
    match list_find (hits de) ((λ i, record_at b (i * DIRENT_SIZE)) <$> seq st k) with
    | Some (i, e) => Stop (if decide (byte_at e 0 = ENT_END) then None else Some (copy_into ((st + i) * DIRENT_SIZE) (updated de e) b))
    | None => Go tt
    end) as Hk; [|apply (Hk 16%nat 0%nat)].
  intros k. induction k as [|k IH]; intros st; [done|]. cbn [seq walk_list]. rewrite fmap_cons. cbn [list_find].
  rewrite update_record_cases. destruct (decide (hits _ _)).
  - by rewrite Nat.add_0_r.
  - rewrite IH. destruct (list_find _ _) as [[i ?]|]; [|done]. cbn.
    by replace (st + S i)%nat with (S (st + i)) by lia.
Qed.

Lemma length_updated de e : length (updated de e) = length e.
Proof. unfold updated, set_cluster, set_filesize. by autorewrite with lnx. Qed.
Lemma updated_ok de e : bytes_ok e → bytes_ok (updated de e).
Proof. intros. unfold updated, set_cluster, set_filesize. auto 10 with lnx. Qed.

(** ** Fields of a record *)

Lemma set_cluster_fields c e :
  length e = DIRENT_SIZE → 0 ≤ c < 2 ^ 32 →
  de_cluster (set_cluster c e) = c ∧ filesize (set_cluster c e) = filesize e ∧
  de_attr (set_cluster c e) = de_attr e ∧ de_name (set_cluster c e) = de_name e ∧ length (set_cluster c e) = DIRENT_SIZE.
Proof.
  intros Hl Hc. unfold DIRENT_SIZE in *. unfold set_cluster. split_and!.
  - unfold de_cluster, fstclushi, fstcluslo.
    rewrite le16_put16, le16_put16_ne, le16_put16 by (autorewrite with lnx; lia).
    change 0xFFFF with (Z.ones 16). rewrite Z.land_ones, Z.shiftr_div_pow2 by lia. unfold u16.
    rewrite Zmod_mod, (Z.mod_small (c / 2 ^ 16)) by (split; [apply Z.div_pos; lia|apply Z.div_lt_upper_bound; lia]).
    rewrite Z.shiftl_mul_pow2, (lor_low _ _ 16) by (first [lia|by exists (c / 2 ^ 16)|apply Z.mod_pos_bound; lia]).
    pose proof (Z.div_mod c (2 ^ 16)). lia.
  - unfold filesize, le32. by rewrite !le16_put16_ne by lia.
  - unfold de_attr. by rewrite !byte_at_put16_ne by lia.
  - unfold de_name, put16. apply list_eq. intros i. destruct (decide (i < 11)%nat); [|by rewrite !lookup_take_ge by lia].
    rewrite !lookup_take_lt by done. by rewrite !lookup_put8_ne by lia.
  - by autorewrite with lnx.
Qed.

Lemma set_filesize_fields z e :
  length e = DIRENT_SIZE →
  filesize (set_filesize z e) = u32 z ∧ de_cluster (set_filesize z e) = de_cluster e ∧
  de_attr (set_filesize z e) = de_attr e ∧ de_name (set_filesize z e) = de_name e ∧ length (set_filesize z e) = DIRENT_SIZE.
Proof.
  intros Hl. unfold DIRENT_SIZE in *. unfold set_filesize. split_and!.
  - unfold filesize. by rewrite le32_put32 by lia.
  - unfold de_cluster, fstclushi, fstcluslo. by rewrite !le16_put32_ne by lia.
  - unfold de_attr. by rewrite byte_at_put32_ne by lia.
  - unfold de_name. apply list_eq. intros i. destruct (decide (i < 11)%nat); [|by rewrite !lookup_take_ge by lia].
    rewrite !lookup_take_lt by done. by rewrite lookup_put32_ne by lia.
  - by autorewrite with lnx.
Qed.

(** The record [k] of the directory [rs] is the one with the short name [nm]:
    the first in use with this name, and no record before it begins with
    [ENT_END], where the search for it would end. *)
Record recorded (nm : list Z) (rs : list dirent) (k : nat) : Prop := {
  rc_here : ∃ e, rs !! k = Some e ∧ entry_used e = true ∧ byte_at e 0 ≠ ENT_END ∧ de_name e = nm;
  rc_before : ∀ j e, rs !! j = Some e → (j < k)%nat → byte_at e 0 ≠ ENT_END ∧ (entry_used e = true → de_name e ≠ nm);
}.

(** The record [e] describes the same file as [de]. *)
Record describes (de e : dirent) : Prop := {
  ds_size : filesize e = filesize de;
  ds_cluster : de_cluster e = de_cluster de;
  ds_name : de_name e = de_name de;
}.

Lemma updated_describes de e :
  length e = DIRENT_SIZE → 0 ≤ de_cluster de < 2 ^ 32 → 0 ≤ filesize de < 2 ^ 32 → de_name e = de_name de → describes de (updated de e).
Proof.
  intros Hl Hc Hs Hn. destruct (set_filesize_fields (filesize de) e Hl) as (F1 & F2 & F3 & F4 & F5).
  destruct (set_cluster_fields (de_cluster de) _ F5 Hc) as (G1 & G2 & G3 & G4 & G5). unfold updated. set (e2 := set_cluster _ _) in *.
  constructor.
  - transitivity (filesize e2); [|by rewrite G2, F1, u32_small]. unfold filesize, le32, le16. by rewrite !byte_at_put8_ne by lia.
  - transitivity (de_cluster e2); [|exact G1]. unfold de_cluster, fstclushi, fstcluslo, le16. by rewrite !byte_at_put8_ne by lia.
  - rewrite <- Hn, <- F4, <- G4. unfold de_name. apply list_eq. intros i. destruct (decide (i < 11)%nat); [|by rewrite !lookup_take_ge by lia].
    rewrite !lookup_take_lt by done. by rewrite lookup_put8_ne by lia.
Qed.

Lemma update_recorded de rs k :
  Forall (λ e, length e = DIRENT_SIZE) rs → 0 ≤ de_cluster de < 2 ^ 32 → 0 ≤ filesize de < 2 ^ 32 → recorded (de_name de) rs k →
  ∃ e', update_dir de rs = <[k := e']> rs ∧ describes de e'.
Proof.
  intros Hl Hc Hs [(e & He & Hu & Hne & Hn) Hb]. unfold update_dir. rewrite (proj2 (list_find_Some _ _ k e)).
  - rewrite decide_False by done. eexists. split; [done|]. apply updated_describes; [|done..]. by eapply Forall_lookup_1 in Hl.
  - split_and!; [done|by right|]. intros j y Hy Hj [?|[? ?]]; destruct (Hb j y Hy Hj); naive_solver.
Qed.

Lemma update_lost de rs : (∀ k, ¬ recorded (de_name de) rs k) → update_dir de rs = rs.
Proof.
  intros Hno. unfold update_dir. destruct (list_find (hits de) rs) as [[k e]|] eqn:E; [|done].
  apply list_find_Some in E as (He & Hh & Hb). case_decide as Hd; [done|]. destruct (Hno k). destruct Hh as [?|[Hu Hn]]; [done|].
  constructor; [by exists e|]. intros j y Hy Hj. pose proof (Hb j y Hy Hj) as Hnh. unfold hits in Hnh. tauto.
Qed.

Lemma record_at_ok b i :
  length b = 512%nat → bytes_ok b → (i < 16)%nat → length (record_at b (i * DIRENT_SIZE)) = DIRENT_SIZE ∧ bytes_ok (record_at b (i * DIRENT_SIZE)).
Proof.
  intros Hl Hb Hi. unfold record_at, DIRENT_SIZE. split; [rewrite length_take, length_drop; lia|].
  by apply Forall_take, Forall_drop.
Qed.

Section write.
Context {W D : Type} `{EqDecision D} `{DiskHealth W D}.
Context (n : Z) (scr : scratch).
Implicit Types (s : fs W D) (m : fat_mount D).

(** The sector [x] after the update of its record [i]. *)
Definition put_record s (x : Z) (i : nat) (de e : dirent) : Z → sector :=
  if decide (byte_at e 0 = ENT_END) then sec s else <[x := copy_into (i * DIRENT_SIZE) (updated de e) (sec s x)]> (sec s).

Lemma put_record_same s s1 x i de e : same n s s1 → ∀ y, put_record s1 x i de e y = put_record s x i de e y.
Proof.
  intros Hs y. unfold put_record. destruct (decide (byte_at e 0 = ENT_END)); [apply Hs|].
  destruct (decide (y = x)) as [->|]; [by rewrite !fn_lookup_insert, (sm_sec _ _ _ Hs)|].
  rewrite !fn_lookup_insert_ne by done. apply Hs.
Qed.

Lemma update_sector_spec de x b s :
  in_txn n s → data_lba n (mnt s) x → x ∉ pend s →
  match list_find (hits de) (sector_recs (sec s x)) with
  | Some (i, e) => ∃ s', update_sector de x b s = Some (Stop tt, s') ∧ (i < 16)%nat ∧
      in_txn n s' ∧ mnt s' = mnt s ∧ ∀ y, sec s' y = put_record s x i de e y
  | None => ∃ s', update_sector de x b s = Some (Go (sec s x), s') ∧ same n s s'
  end.
Proof.
  intros Htx Hx Hp. destruct (read_sector_spec n x b s (tx_ready _ _ Htx) Hx) as (s1 & Erd & Hs1).
  pose proof (sm_mnt _ _ _ Hs1) as Hm1. pose proof (same_txn _ _ _ Hs1 Htx) as Htx1.
  unfold update_sector, mbind, M_bind, gets. rewrite Erd, (sector_records_16 n (mnt s)), update_records by apply Htx.
  destruct (list_find (hits de) (sector_recs (sec s x))) as [[i e]|] eqn:E; [|by exists s1].
  apply list_find_Some in E as (Hi & _). apply lookup_lt_Some in Hi. rewrite length_sector_recs in Hi.
  unfold put_record. destruct (decide (byte_at e 0 = ENT_END)).
  - exists s1. split_and!; [done..|apply Hs1].
  - destruct (log_sector_spec n x (copy_into (i * DIRENT_SIZE) (updated de e) (sec s x)) s1 Htx1) as
      (s2 & -> & Htx2 & Hm2 & Hsec2 & _); [by rewrite Hm1|right; by rewrite (sm_jr _ _ _ Hs1)|].
    exists s2. split_and!; [done..|congruence|]. intros y. rewrite Hsec2. destruct (decide (y = x)) as [->|].
    + by rewrite !fn_lookup_insert.
    + rewrite !fn_lookup_insert_ne by done. apply Hs1.
Qed.

Lemma update_walk de ls b s :
  in_txn n s → Forall (data_lba n (mnt s)) ls → (∀ x, x ∈ ls → x ∉ pend s) →
  match list_find (hits de) (concat (sector_recs <$> (sec s <$> ls))) with
  | Some (k, e) => ∃ s' j i x, walk_m (update_sector de) ls b s = Some (Stop tt, s') ∧
      k = (j * 16 + i)%nat ∧ (i < 16)%nat ∧ ls !! j = Some x ∧ in_txn n s' ∧ mnt s' = mnt s ∧
      ∀ y, sec s' y = put_record s x i de e y
  | None => ∃ s' b', walk_m (update_sector de) ls b s = Some (Go b', s') ∧ same n s s'
  end.
Proof.
  revert b s. induction ls as [|x ls IH]; intros b s Htx Hls Hp; [by exists s, b|].
  apply Forall_cons in Hls as [Hx Hls]. rewrite !fmap_cons. cbn [concat walk_m]. rewrite list_find_app.
  pose proof (update_sector_spec de x b s Htx Hx (Hp x (list_elem_of_here _ _))) as Hx1. unfold mbind, M_bind.
  destruct (list_find (hits de) (sector_recs (sec s x))) as [[i e]|].
  { destruct Hx1 as (s1 & -> & Hi & Hid & Hm & Hsec). by exists s1, 0%nat, i, x. }
  destruct Hx1 as (s1 & -> & Hs1). rewrite length_sector_recs.
  specialize (IH (sec s x) s1 (same_txn _ _ _ Hs1 Htx)). unfold pend in *. rewrite (sm_mnt _ _ _ Hs1), (sm_jr _ _ _ Hs1) in IH.
  specialize (IH Hls (λ y Hy, Hp y (list_elem_of_further _ _ _ Hy))).
  assert (sec s1 <$> ls = sec s <$> ls) as Hsecs by (apply list_fmap_ext; intros; apply Hs1).
  rewrite Hsecs in IH. destruct (list_find _ (concat _)) as [[k e]|].
  - destruct IH as (s' & j & i & y & E1 & -> & Hi & Hy & Hid & Hm & Hsec). cbn [fmap option_fmap option_map prod_map].
    exists s', (S j), i, y. split_and!; try done. intros z. rewrite Hsec. by apply put_record_same.
  - destruct IH as (s' & b' & E1 & Hs'). exists s', b'. split; [done|]. by etrans.
Qed.

Lemma update_keeps de lba b : keeps_mnt (W := W) (D := D) (update_sector de lba b).
Proof.
  unfold update_sector. apply keeps_bind; [apply keeps_gets|]. intros m.
  apply keeps_bind; [apply keeps_read_sector|]. intros [r b'].
  destruct (walk_records _ _ _ _ _) as [|[]]; eauto with lnx.
Qed.

Lemma dir_record_ok s l e :
  ready n s → sized n s → Forall (live (mnt s)) l → e ∈ dir_records s l → length e = DIRENT_SIZE ∧ bytes_ok e.
Proof.
  intros Hr Hz Hl He. unfold dir_records in He. apply list_elem_of_In, in_concat in He as (rs & Hrs & He).
  apply list_elem_of_In in Hrs, He. apply list_elem_of_fmap in Hrs as (b & -> & Hb).
  apply list_elem_of_fmap in Hb as (x & -> & Hx). unfold sector_recs in He.
  apply list_elem_of_fmap in He as (i & -> & Hi%elem_of_seq).
  destruct (Hz x) as [Hlx Hbx]; [by eapply live_lbas; [apply Hr| |]|]. apply record_at_ok; [done|done|lia].
Qed.

Lemma update_dirent_spec fuel dc dl de s :
  in_txn n s → sized n s → good_chain (mnt s) dc dl → (length dl ≤ fuel)%nat →
  (∀ x, x ∈ chain_lbas (mnt s) dl → x ∉ pend s) →
  ∃ s', update_dirent scr fuel dc de s = Some (tt, s') ∧ in_txn n s' ∧
    dir_change n s s' dl (update_dir de (dir_records s dl)).
Proof.
  intros Htx Hz Hch Hf Hp. pose proof (tx_ready _ _ Htx) as Hr.
  unfold update_dirent, mbind, M_bind. cbn [gets].
  rewrite (chain_flat n) with (l := dl); [|apply Hr|apply Hr|done|done|intros; apply update_keeps].
  pose proof (update_walk de (chain_lbas (mnt s) dl) (s_sec scr) s Htx) as Hw.
  fold (dir_records s dl) in Hw. unfold update_dir. destruct (list_find (hits de) (dir_records s dl)) as [[k e]|] eqn:Ek.
  - destruct Hw as (s' & j & i & x & -> & -> & Hi & Hx & Hid' & Hm' & Hs'); [|done|].
    { apply Forall_forall. intros y Hy. eapply live_lbas; [apply Hr|apply Hch|done]. }
    exists s'. split_and!; [done|done|]. unfold put_record in Hs'. destruct (decide (byte_at e 0 = ENT_END)).
    + split; [done| |by intros; apply Hs'|by apply (sized_ext n s)].
      unfold dir_records. rewrite Hm'. do 2 f_equal. apply list_fmap_ext. intros. apply Hs'.
    + apply list_find_Some in Ek as (Hk & _). 
      assert (length e = DIRENT_SIZE ∧ bytes_ok e) as [Hle Hbe].
      { eapply (dir_record_ok s dl); [done|done|apply Hch|by eapply list_elem_of_lookup_2]. }
      eapply put_sector_change; [done|done|done|done|done|by rewrite length_updated|by apply updated_ok|done|done].
  - destruct Hw as (s' & b & -> & Hs'); [|done|].
    { apply Forall_forall. intros y Hy. eapply live_lbas; [apply Hr|apply Hch|done]. }
    exists s'. split_and!; [done|by eapply same_txn|]. split; [apply Hs'| |by intros; apply Hs'|by apply same_sized].
    unfold dir_records. rewrite (sm_mnt _ _ _ Hs'). do 2 f_equal. apply list_fmap_ext. intros. apply Hs'.
Qed.
(** ** Growing the chain *)

Lemma alloc_loop_change k head prev s :
  ready n s → prev = 0 ∨ 2 ≤ prev → fat_change n s (alloc_loop k head prev s).2.
Proof.
  revert head prev s. induction k as [|k IH]; intros head prev s Hr Hp; cbn [alloc_loop]; [by apply fat_change_refl|].
  destruct (fat_find_free_spec (mnt s) (vo_mount _ _ (rd_vol _ _ Hr))) as [[-> _]|[Hnc _]]; [by apply fat_change_refl|].
  set (nc := fat_find_free_cluster (mnt s)) in *. rewrite (proj2 (Z.eqb_neq nc 0)) by lia.
  assert (fat_change n s (fat_set_entry nc EOC s)) as Hc1 by (apply set_entry_ready; [done|by vm_compute|lia]).
  pose proof (fc_ready _ _ _ Hc1) as Hr1. destruct (Z.eqb_spec prev 0) as [->|Hne]; cbn [negb].
  - eapply fat_change_trans; [exact Hc1|]. apply IH; [done|lia].
  - assert (fat_change n (fat_set_entry nc EOC s) (fat_set_entry prev nc (fat_set_entry nc EOC s))) as Hc2
      by (apply set_entry_ready; [done|lia|lia]).
    eapply fat_change_trans; [exact Hc1|]. eapply fat_change_trans; [exact Hc2|]. apply IH; [apply Hc2|lia].
Qed.

Lemma chain_walk_prev fuel m c prev cnt p k :
  prev = 0 ∨ 2 ≤ prev → chain_walk fuel m c prev cnt = Some (p, k) → p = 0 ∨ 2 ≤ p.
Proof.
  revert c prev cnt. induction fuel as [|fuel IH]; intros c prev cnt Hp; cbn [chain_walk]; rewrite walk_guard;
    case_bool_decide as He; try congruence.
  intros Hw. eapply IH; [|exact Hw]. right. by apply not_ends_ge2.
Qed.

Lemma alloc_chain_change fuel first need s h s' :
  ready n s → alloc_chain fuel first need s = Some (h, s') → fat_change n s s'.
Proof.
  intros Hr. unfold alloc_chain. set (w := if negb (first =? 0) && cluster_is_eoc first then _ else _).
  assert (∀ p k, w = Some (p, k) → p = 0 ∨ 2 ≤ p) as Hw.
  { intros p k. unfold w. repeat case_match; try (intros [= <- <-]; by left). apply chain_walk_prev. by left. }
  destruct w as [[p k]|]; [|done]. intros [= E]. specialize (Hw _ _ eq_refl).
  match type of E with alloc_loop ?k _ _ _ = _ => pose proof (alloc_loop_change k first p s Hr Hw) as Hc end.
  by rewrite E in Hc.
Qed.

(** FAT entries may change in a transaction that holds nothing yet. *)
Lemma fat_change_txn s s' : in_txn n s → pending (jr s) = [] → fat_change n s s' → in_txn n s' ∧ pending (jr s') = [].
Proof.
  intros [Hr Ha _ _] Hp Hc. rewrite (fc_jr _ _ _ Hc). split; [|done].
  split; rewrite ?(fc_jr _ _ _ Hc), ?Hp; [apply Hc|done|done|constructor].
Qed.

Lemma fat_change_sized s s' : fat_change n s s' → sized n s → sized n s'.
Proof.
  intros Hc Hz l Hl. destruct (fc_mnt _ _ _ Hc) as [f Hm]. unfold data_lba in Hl. rewrite Hm in Hl. cbn in Hl.
  rewrite (fc_sec _ _ _ Hc) by lia. by apply Hz.
Qed.

Lemma chain_lbas_set_fat f m l : chain_lbas (set_fat f m) l = chain_lbas m l.
Proof. done. Qed.

(** Different clusters have different sectors, across chains too. *)
Lemma lbas_disjoint m l l' x :
  volume n m → Forall (live m) l → Forall (live m) l' → (∀ c, c ∈ l → c ∉ l') → x ∈ chain_lbas m l → x ∉ chain_lbas m l'.
Proof.
  intros Hv Hl Hl'. apply (chain_lbas_disjoint n); [done| |]; (eapply Forall_impl; [eassumption|]); by intros c [].
Qed.

(** ** The whole operation *)

(** [r] is the node of a regular file with the chain [l], in a directory with
    the chain [dl]. *)
Record file_at s (r : resolve) (l dl : list Z) : Prop := {
  fa_reg : is_dir (r_de r) = false;
  fa_len : length (r_de r) = DIRENT_SIZE;
  fa_bytes : bytes_ok (r_de r);
  fa_chain : good_chain (mnt s) (de_cluster (r_de r)) l;
  fa_size : filesize (r_de r) ≤ capacity (mnt s) l;
  fa_parent : good_chain (mnt s) (dir_cluster r) dl;
  fa_apart : ∀ c, c ∈ l → c ∉ dl;
}.

Lemma grown_good s l new s' c dl :
  grown s l new s' → good_chain (mnt s) c dl → (∀ x, x ∈ dl → x ∉ l) → good_chain (mnt s') c dl ∧ ∀ x, x ∈ l ++ new → x ∉ dl.
Proof.
  intros Hg [Hch Hl] Hd. destruct (grown_other _ _ _ _ _ _ Hg Hch Hl Hd) as [Hch' Hn].
  assert (∀ x, x ∈ l ++ new → x ∉ dl) as Hdis by (intros x [Hx|Hx]%elem_of_app Hdl; [by apply (Hd x)|by apply (Hn x)]).
  split; [|done]. split; [done|]. apply Forall_forall. intros x Hx.
  destruct (proj1 (Forall_forall _ _) Hl x Hx) as [Hr Hnz]. destruct (gr_fat _ _ _ _ Hg) as [f Hm].
  split; [by rewrite Hm|]. rewrite (gr_other _ _ _ _ Hg); [done|lia|]. intros Hin. by apply (Hdis x).
Qed.

(** The chains beside [l] stay as they are when [l] grows by [new]. *)
Definition keeps_chains m m' (l new : list Z) : Prop := ∀ c l', good_chain m c l' → (∀ x, x ∈ l' → x ∉ l) →
  good_chain m' c l' ∧ ∀ x, x ∈ l ++ new → x ∉ l'.

(** What a successful write of [data] at [off] has done. *)
Record wrote s s' (r r' : resolve) (l new dl : list Z) (off : Z) (data : list Z) : Prop := {
  wo_file : file_at s' r' (l ++ new) dl;
  wo_dir : dir_cluster r' = dir_cluster r;
  wo_name : de_name (r_de r') = de_name (r_de r);
  wo_size : filesize (r_de r') = Z.max (off + Z.of_nat (length data)) (filesize (r_de r));
  wo_room : off + Z.of_nat (length data) ≤ capacity (mnt s) (l ++ new);
  wo_bytes : file_bytes s' (l ++ new) = copy_into (Z.to_nat off) data (file_bytes s (l ++ new));
  wo_recs k : recorded (de_name (r_de r)) (dir_records s dl) k →
    ∃ e', dir_records s' dl = <[k := e']> (dir_records s dl) ∧ describes (r_de r') e';
  wo_lost : (∀ k, ¬ recorded (de_name (r_de r)) (dir_records s dl) k) → dir_records s' dl = dir_records s dl;
  wo_other : ∀ y, data_lba n (mnt s) y → y ∉ chain_lbas (mnt s) (l ++ new) → y ∉ chain_lbas (mnt s) dl → sec s' y = sec s y;
  wo_free : Forall (λ c, 2 ≤ c < max_cluster (mnt s) ∧ fat_next_cluster (mnt s) c = 0) new;
  wo_geometry : ∃ f, mnt s' = set_fat f (mnt s);
  wo_chains : keeps_chains (mnt s) (mnt s') l new;
}.

(** What a write that found no room has done: the chain may have grown. *)
Record refused s s' (r : resolve) (l dl : list Z) : Prop := {
  re_file : ∃ new, file_at s' r (l ++ new) dl ∧ Forall (λ c, 2 ≤ c < max_cluster (mnt s)) new ∧ keeps_chains (mnt s) (mnt s') l new;
  re_geometry : ∃ f, mnt s' = set_fat f (mnt s);
  re_sec : ∀ y, data_lba n (mnt s) y → sec s' y = sec s y;
  re_full : ∀ c, 2 ≤ c < max_cluster (mnt s') → fat_next_cluster (mnt s') c ≠ 0;
}.

(** The part of a write behind the allocation: the chain covers the data. *)
Lemma store_spec fuel de dc off data buf c l dl skip c' s :
  in_txn n s → sized n s → enough (mnt s) fuel → pend s = [] → good_chain (mnt s) c l → good_chain (mnt s) dc dl →
  (∀ x, x ∈ l → x ∉ dl) → data = take (length data) buf → bytes_ok buf → 0 ≤ off →
  off + Z.of_nat (length data) ≤ capacity (mnt s) l → Z.of_nat (length data) < 2 ^ 32 →
  cursor (mnt s) l off c' (skip mod cluster_size (mnt s)) →
  ∃ s1 s2 s3, write_loop fuel buf (Z.of_nat (length data)) c' (u32 (skip mod cluster_size (mnt s))) 0 (s_sec scr) s =
      Some (Z.of_nat (length data), s1) ∧
    update_dirent scr fuel dc de s1 = Some (tt, s2) ∧ j_commit s2 = Some (0, s3) ∧ idle n s3 ∧ sized n s3 ∧ mnt s3 = mnt s ∧
    file_bytes s3 l = copy_into (Z.to_nat off) data (file_bytes s l) ∧
    dir_records s3 dl = update_dir de (dir_records s dl) ∧
    ∀ y, y ∉ chain_lbas (mnt s) l → y ∉ chain_lbas (mnt s) dl → sec s3 y = sec s y.
Proof.
  intros Htx Hz Hf Hp Hch Hdch Hap Hdata Hb Hoff Hroom Hlen Hcu. pose proof (tx_ready _ _ Htx) as Hr. pose proof (rd_vol _ _ Hr) as Hv.
  destruct (enough_chain n _ _ _ _ Hv Hch Hf) as (Hf1 & Hf2 & Hcap). destruct (enough_chain n _ _ _ _ Hv Hdch Hf) as (Hf3 & _).
  pose proof (vo_csize _ _ Hv). pose proof (vo_spc _ _ Hv). pose proof (Z.mod_pos_bound skip (cluster_size (mnt s)) ltac:(lia)).
  rewrite u32_small by lia. pose proof (Z.div_pos off 512 Hoff ltac:(lia)).
  assert (Z.of_nat (length data) ≤ Z.of_nat (length buf)) as Hle by (rewrite Hdata, length_take; lia).
  destruct (write_loop_spec n fuel buf c l (Z.of_nat (length data)) off c' _ 0 (s_sec scr) s Htx Hz Hch Hcu Hoff) as (s1 & E1 & Hw);
    [lia|done|lia|done|lia|lia|rewrite Hp; set_solver|].
  rewrite Z.sub_0_r, Nat2Z.id, drop_0, <- Hdata in Hw. pose proof (wr_mnt _ _ _ _ _ _ Hw) as Hm1.
  assert (∀ x, x ∈ chain_lbas (mnt s) dl → x ∉ chain_lbas (mnt s) l) as Hsep.
  { intros x. apply lbas_disjoint; [done|apply Hdch|apply Hch|]. intros y Hy Hy'. by apply (Hap y). }
  destruct (update_dirent_spec fuel dc dl de s1) as (s2 & E2 & Htx2 & Hdc);
    [apply Hw|apply Hw|by rewrite Hm1|done| |].
  { rewrite Hm1. intros x Hx Hin. apply (wr_pend _ _ _ _ _ _ Hw) in Hin as [Hin|Hin]; [rewrite Hp in Hin; set_solver|by apply (Hsep x)]. }
  destruct (j_commit_spec n s2 Htx2) as (s3 & E3 & Hid & Hm3 & Hs3). destruct Hdc as [Hm2 Hr2 Ho2 Hz2]. rewrite Hm1 in *.
  assert (mnt s3 = mnt s) as Hm by congruence.
  exists s1, s2, s3. split_and!; [done..| |done| | |].
  - apply (sized_ext n s2); [done|done|]. apply Hz2. apply Hw.
  - rewrite <- (wr_bytes _ _ _ _ _ _ Hw). apply file_bytes_ext; [congruence|]. rewrite Hm1. intros x Hx.
    rewrite Hs3. apply Ho2. intros Hx'. by apply (Hsep x).
  - assert (dir_records s3 dl = dir_records s2 dl) as ->.
    { unfold dir_records. rewrite Hm3. do 2 f_equal. apply list_fmap_ext. intros. apply Hs3. }
    rewrite Hr2. f_equal. unfold dir_records. rewrite Hm1. do 2 f_equal. apply Forall_fmap_ext, Forall_forall.
    intros x Hx. apply (wr_other _ _ _ _ _ _ Hw). by apply Hsep.
  - intros y H1' H2'. rewrite Hs3, Ho2 by done. by apply (wr_other _ _ _ _ _ _ Hw).
Qed.
(** The node after a write. *)
Definition new_node (r : resolve) (clus size : Z) : resolve :=
  Resolve (dir_cluster r) (r_name r) (set_filesize size (set_cluster clus (r_de r))) (found r).

Lemma new_node_fields r clus size :
  length (r_de r) = DIRENT_SIZE → bytes_ok (r_de r) → 0 ≤ clus < 2 ^ 32 → 0 ≤ size < 2 ^ 32 →
  let r' := new_node r clus size in
  is_dir (r_de r') = is_dir (r_de r) ∧ length (r_de r') = DIRENT_SIZE ∧ bytes_ok (r_de r') ∧
  de_cluster (r_de r') = clus ∧ filesize (r_de r') = size ∧ de_name (r_de r') = de_name (r_de r).
Proof.
  intros Hl Hb Hc Hs. cbn [new_node r_de]. destruct (set_cluster_fields clus _ Hl Hc) as (F1 & F2 & F3 & F4 & F5).
  destruct (set_filesize_fields size _ F5) as (G1 & G2 & G3 & G4 & G5). unfold is_dir. rewrite G1, G2, G3, G4, F1, F3, F4.
  rewrite u32_small by lia. split_and!; try done. unfold set_filesize, set_cluster. auto with lnx.
Qed.

(** The allocation of a write, with what it keeps. *)
Lemma store_alloc_spec fuel need r l dl s :
  in_txn n s → sized n s → enough (mnt s) fuel → pend s = [] → file_at s r l dl → 0 < need < 2 ^ 32 →
  ∃ h s1, alloc_chain fuel (de_cluster (r_de r)) need s = Some (h, s1) ∧ in_txn n s1 ∧ sized n s1 ∧ pend s1 = [] ∧
    fat_change n s s1 ∧
    (h = 0 → (∀ c, 2 ≤ c < max_cluster (mnt s1) → fat_next_cluster (mnt s1) c ≠ 0) ∧
      ∃ new, file_at s1 r (l ++ new) dl ∧ Forall (λ c, 2 ≤ c < max_cluster (mnt s)) new ∧ keeps_chains (mnt s) (mnt s1) l new) ∧
    (h ≠ 0 → ∃ new, good_chain (mnt s1) h (l ++ new) ∧ need ≤ capacity (mnt s) (l ++ new) ∧ 0 ≤ h < 2 ^ 32 ∧ grown s l new s1).
Proof.
  intros Htx Hz Hf Hp [Hreg Hlen Hby Hch Hsz Hpa Hap] Hneed. pose proof (tx_ready _ _ Htx) as Hr. pose proof (rd_vol _ _ Hr) as Hv.
  pose proof (vo_csize _ _ Hv). pose proof (vo_spc _ _ Hv). pose proof (mo_max _ (vo_mount _ _ Hv)).
  destruct (enough_chain n _ _ _ _ Hv Hch Hf) as (Hf1 & _).
  destruct (alloc_chain_spec fuel (de_cluster (r_de r)) need s l Hf1 (vo_mount _ _ Hv) (proj1 Hch) (proj2 Hch) Hneed ltac:(lia))
    as (h & s1 & new & E & Hg & Hkp & Hfu & Hok & _).
  pose proof (alloc_chain_change _ _ _ _ _ _ Hr E) as Hfc.
  destruct (fat_change_txn s s1 Htx) as [Htx1 Hp1]; [by apply fmap_nil_inv in Hp|done|].
  destruct (grown_good s l new s1 _ _ Hg Hpa) as [Hpa1 Hap1]; [by intros x Hx Hx'; apply (Hap x)|].
  exists h, s1. split_and!; [done|done|by eapply fat_change_sized|by unfold pend; rewrite Hp1|done| |].
  { intros Hh. split; [by apply Hfu|]. exists (if l is [] then [] else new). destruct (gr_fat _ _ _ _ Hg) as [f Hm].
    assert (filesize (r_de r) ≤ capacity (mnt s1) (l ++ new)) as Hsz' by (rewrite Hm; unfold capacity in *; rewrite length_app; cbn; nia).
    split; [|split].
    3: { intros c l' Hgc Hd. destruct (grown_good s l new s1 c l' Hg Hgc Hd) as [Hgc' Hdis]. split; [done|]. intros x Hx. apply Hdis.
         destruct l; [by apply elem_of_nil in Hx|done]. }
    - destruct l as [|x l]; split; try done.
      + split; [apply Hch|constructor].
      + split; [by apply Hkp|apply Hg].
    - destruct l; [constructor|]. eapply Forall_impl; [apply Hg|]. simpl. tauto. }
  intros Hh. destruct (Hok Hh) as (Hch' & Hcap & _). exists new.
  assert (l ++ new ≠ []) as Hne by (intros He; rewrite He in Hcap; simpl in Hcap; lia).
  destruct (l ++ new) as [|x l'] eqn:El; [done|]. pose proof Hch' as (-> & _ & _).
  split_and!; [split; [done|]; rewrite <- El; apply Hg|unfold capacity; lia| | |done].
  all: pose proof (gr_live _ _ _ _ Hg) as Hlive; rewrite El in Hlive; apply Forall_cons in Hlive as [[Hx _] _];
    destruct (gr_fat _ _ _ _ Hg) as [f Hm]; rewrite Hm in Hx; cbn in Hx; lia.
Qed.

Lemma bytes_set_fat s s1 f l :
  mnt s1 = set_fat f (mnt s) → (∀ y, data_lba n (mnt s) y → sec s1 y = sec s y) → volume n (mnt s1) → Forall (live (mnt s1)) l →
  file_bytes s1 l = file_bytes s l ∧ dir_records s1 l = dir_records s l.
Proof.
  intros Hm Hs Hv Hl. assert (sec s1 <$> chain_lbas (mnt s1) l = sec s <$> chain_lbas (mnt s) l) as E.
  { rewrite Hm, chain_lbas_set_fat. apply Forall_fmap_ext, Forall_forall. intros x Hx. apply Hs.
    assert (data_lba n (mnt s1) x) as Hd by (eapply live_lbas; [done|exact Hl|by rewrite Hm]). by rewrite Hm in Hd. }
  unfold file_bytes, dir_records. by rewrite E.
Qed.

(** The state after the allocation, [s1], and the one after the stores, [s'],
    make a successful write. *)
Lemma wrote_intro s s1 s' r h l new dl off data f :
  let size := Z.max (off + Z.of_nat (length data)) (filesize (r_de r)) in
  file_at s r l dl → mnt s1 = set_fat f (mnt s) → (∀ y, data_lba n (mnt s) y → sec s1 y = sec s y) → volume n (mnt s1) →
  good_chain (mnt s1) h (l ++ new) → 0 ≤ h < 2 ^ 32 → 0 ≤ size < 2 ^ 32 → size ≤ capacity (mnt s) (l ++ new) →
  Forall (λ c, 2 ≤ c < max_cluster (mnt s) ∧ fat_next_cluster (mnt s) c = 0) new →
  (∀ c l', good_chain (mnt s) c l' → (∀ x, x ∈ l' → x ∉ l) → good_chain (mnt s1) c l' ∧ ∀ x, x ∈ l ++ new → x ∉ l') →
  mnt s' = mnt s1 → file_bytes s' (l ++ new) = copy_into (Z.to_nat off) data (file_bytes s1 (l ++ new)) →
  dir_records s' dl = update_dir (r_de (new_node r h size)) (dir_records s1 dl) →
  Forall (λ e, length e = DIRENT_SIZE) (dir_records s1 dl) →
  (∀ y, y ∉ chain_lbas (mnt s1) (l ++ new) → y ∉ chain_lbas (mnt s1) dl → sec s' y = sec s1 y) →
  wrote s s' r (new_node r h size) l new dl off data.
Proof.
  intros size [Hreg Hlen Hby Hch Hsz Hpa Hap] Hm1 Hs1 Hv1 Hch1 Hh Hsize Hcap Hfree Hother Hm Hb Hrec Hrl Ho.
  destruct (new_node_fields r h size Hlen Hby Hh Hsize) as (N1 & N2 & N3 & N4 & N5 & N6).
  destruct (Hother _ _ Hpa) as [Hpa1 Hap1]; [by intros x Hx Hx'; apply (Hap x)|].
  destruct (bytes_set_fat s s1 f (l ++ new) Hm1 Hs1 Hv1 (proj2 Hch1)) as [B1 _].
  destruct (bytes_set_fat s s1 f dl Hm1 Hs1 Hv1 (proj2 Hpa1)) as [_ B2].
  split; try done.
  - split; rewrite ?Hm, ?N4, ?N5; try done; [by rewrite N1|by rewrite Hm1].
  - unfold size in Hcap. lia.
  - by rewrite <- B1.
  - intros k Hk. rewrite <- B2 in *. rewrite Hrec. apply update_recorded; [done|by rewrite N4|by rewrite N5|by rewrite N6].
  - intros Hk. rewrite <- B2 in *. rewrite Hrec. apply update_lost. by rewrite N6.
  - intros y Hy H1' H2'. rewrite Ho, Hs1; [done|done|by rewrite Hm1|by rewrite Hm1].
  - exists f. by rewrite Hm.
  - intros c l' Hgc Hd. rewrite Hm. by apply Hother.
Qed.

Lemma fat_write_spec fuel r off buf l dl s :
  idle n s → sized n s → enough (mnt s) fuel → file_at s r l dl → bytes_ok buf → buf ≠ [] →
  0 ≤ off → off + Z.of_nat (length buf) < 2 ^ 32 →
  let data := take (Z.to_nat MAX_IO) buf in
  ∃ rc r' s', fat_write_impl scr fuel r off (Some buf) (Z.of_nat (length buf)) s = Some (rc, r', s') ∧ idle n s' ∧ sized n s' ∧
    enough (mnt s') fuel ∧
    (rc = LNXRM_EIO ∧ r' = r ∧ refused s s' r l dl ∨
     rc = Z.of_nat (length data) ∧ ∃ new, wrote s s' r r' l new dl off data).
Proof.
  intros Hid Hz Hf Hfa Hb Hne Hoff Hov data. pose proof Hfa as [Hreg Hlen Hby Hch Hsz Hpa Hap].
  unfold fat_write_impl, mbind, M_bind. rewrite Hreg.
  set (k := if 1024 * 1024 <? _ then _ else _).
  assert (k = Z.of_nat (length data)) as Hk.
  { unfold k, data, MAX_IO. rewrite length_take. destruct (Z.ltb_spec (1024 * 1024) (Z.of_nat (length buf))); lia. }
  assert (0 < k ≤ Z.of_nat (length buf) ∧ k ≤ MAX_IO) as [Hk0 Hk1].
  { rewrite Hk. unfold data, MAX_IO. rewrite length_take. destruct buf; [done|]. simpl length. lia. }
  destruct (j_begin_spec n s Hid) as (s0 & -> & Htx0 & Hsy0 & Hm0 & Hbs0 & Hj0).
  assert (∀ x, sec s0 x = sec s x) as Hs0 by (intros; unfold sec; by rewrite Hm0, Hbs0).
  assert (pend s0 = []) as Hp0 by (unfold pend; by rewrite (nil_length_inv (pending (jr s0))) by by rewrite length_pending).
  rewrite (u64_small (off + k)) by lia. set (need := Z.max (off + k) (filesize (r_de r))).
  pose proof (le32_range (r_de r) 28 Hby) as Hfs. fold (filesize (r_de r)) in Hfs. rewrite <- Hm0 in Hf.
  destruct (store_alloc_spec fuel need r l dl s0 Htx0) as (h & s1 & -> & Htx1 & Hz1 & Hp1 & Hfc & Hfull & Hok);
    [by apply (sized_ext n s)|done|done|by split; rewrite ?Hm0|lia|].
  destruct (fc_mnt _ _ _ Hfc) as [f Hm1]. rewrite Hm0 in Hm1.
  assert (∀ y, data_lba n (mnt s) y → sec s1 y = sec s y) as Hs1.
  { intros y Hy. rewrite (fc_sec _ _ _ Hfc), Hs0; [done|]. rewrite Hm0. apply Hy. }
  destruct (Z.eqb_spec h 0) as [->|Hh].
  { destruct (j_abort_spec n s1 Htx1) as (s2 & -> & Hid2 & Hm2 & Hs2);
      [by apply Hfc|by apply fmap_nil_inv in Hp1|].
    exists LNXRM_EIO, r, s2. split_and!; [done|done|by apply (sized_ext n s1)|by rewrite Hm2, Hm1, <- Hm0|].
    left. destruct (Hfull eq_refl) as (Hno & new & Hfa1 & Hnew & Hkc). rewrite Hm0 in Hnew, Hkc. split_and!; [done|done|]. split.
    - exists new. split_and!; [|done|by rewrite Hm2]. destruct Hfa1. by split; rewrite ?Hm2.
    - exists f. by rewrite Hm2.
    - intros y Hy. rewrite Hs2. by apply Hs1.
    - by rewrite Hm2. }
  destruct (Hok Hh) as (new & Hch1 & Hcap & Hhr & Hg). unfold gets. rewrite Hm0 in Hcap.
  assert (enough (mnt s1) fuel) as Hf1 by (by rewrite Hm1, <- Hm0).
  pose proof (rd_vol _ _ (tx_ready _ _ Htx1)) as Hv1. destruct (enough_chain n _ _ _ _ Hv1 Hch1 Hf1) as (Hfl & _).
  assert (capacity (mnt s1) (l ++ new) = capacity (mnt s) (l ++ new)) as Hce by (by rewrite Hm1).
  destruct (skip_clusters_spec n fuel (mnt s1) h (l ++ new) off Hv1 (proj1 Hch1) Hfl) as (skip & c' & -> & Hcu); [lia|].
  assert (∀ c l', good_chain (mnt s) c l' → (∀ x, x ∈ l' → x ∉ l) →
    good_chain (mnt s1) c l' ∧ ∀ x, x ∈ l ++ new → x ∉ l') as Hother.
  { intros c l' Hgc. rewrite <- Hm0 in Hgc. by apply (grown_good s0 l new s1). }
  destruct (Hother _ _ Hpa) as [Hpa1 Hap1]; [by intros x Hx Hx'; apply (Hap x)|].
  assert ((if off + k <? need then filesize (set_cluster h (r_de r)) else off + k) = need) as ->.
  { destruct (set_cluster_fields h (r_de r) Hlen Hhr) as (_ & -> & _). destruct (Z.ltb_spec (off + k) need); lia. }
  destruct (store_spec fuel (r_de (new_node r h need)) (dir_cluster r) off data buf h (l ++ new) dl skip c' s1)
    as (s2 & s3 & s4 & E2 & E3 & E4 & Hid4 & Hz4 & Hm4 & Hb4 & Hr4 & Ho4); [done..| |done|done|lia|unfold MAX_IO in *; lia|done|].
  { unfold data. rewrite length_take. by rewrite <- take_take, firstn_all. }
  rewrite Hk, E2. cbn [new_node r_de] in E3. rewrite E3, E4.
  eexists _, (new_node r h need), s4. split_and!; [done..|by rewrite Hm4|]. right. split; [done|]. exists new.
  unfold need in *. rewrite Hk in *. apply (wrote_intro s s1 s4 r h l new dl off data f); try done; [lia| |].
  2: { apply Forall_forall. intros e He. eapply (dir_record_ok s1 dl); [apply Htx1|done|apply Hpa1|done]. }
  pose proof (gr_free _ _ _ _ Hg) as Hfree. by rewrite Hm0 in Hfree.
Qed.
Lemma take_copy_into (off size : nat) d B X :
  (size ≤ length B)%nat → (off + length d ≤ length (B ++ X))%nat →
  take (Nat.max (off + length d) size) (copy_into off d (B ++ X)) =
  copy_into off d (take size B ++ take (off - size) (drop size (B ++ X))).
Proof.
  intros Ho Hl. rewrite length_app in Hl. destruct (decide (off ≤ size)%nat) as [Hle|Hgt].
  - rewrite (proj2 (Nat.sub_0_le off size)), take_0, app_nil_r by done. unfold copy_into.
    rewrite take_take, Nat.min_l, (take_app_le B) by lia.
    rewrite take_app_ge, length_take, Nat.min_l by (rewrite ?length_take; lia). f_equal.
    rewrite take_app_ge by lia. f_equal. rewrite skipn_firstn_comm. destruct (decide (off + length d ≤ size)%nat).
    + rewrite Nat.max_r by lia. rewrite drop_app_le, take_app_le by (rewrite ?length_drop; lia). f_equal. lia.
    + rewrite Nat.max_l by lia. rewrite !(proj2 (Nat.sub_0_le _ _)) by lia. by rewrite !take_0.
  - rewrite Nat.max_l by lia. replace (take size B) with (take size (B ++ X)) by (by rewrite take_app_le by lia).
    rewrite take_take_drop. replace (size + (off - size))%nat with off by lia. unfold copy_into.
    rewrite take_take, Nat.min_id, (drop_ge (take off _)), app_nil_r by (rewrite length_take; lia).
    rewrite app_assoc, take_app_le by (rewrite !length_app, length_take, length_app; lia).
    apply take_ge. rewrite !length_app, length_take, length_app. lia.
Qed.

Lemma file_bytes_app s l new : file_bytes s (l ++ new) = file_bytes s l ++ file_bytes s new.
Proof. unfold file_bytes, chain_lbas. by rewrite fmap_app, concat_app, fmap_app, concat_app. Qed.

Lemma length_new_bytes s new : ready n s → sized n s → Forall (λ c, 2 ≤ c < max_cluster (mnt s)) new →
  Z.of_nat (length (file_bytes s new)) = capacity (mnt s) new.
Proof.
  intros Hr Hz Hnew. pose proof (rd_vol _ _ Hr) as Hv. unfold file_bytes. rewrite (length_concat_blocks 512).
  - rewrite length_fmap, (length_chain_lbas n) by done. unfold capacity. rewrite (vo_csize _ _ Hv). pose proof (vo_spc _ _ Hv). lia.
  - apply Forall_fmap, Forall_forall. intros x (c & Hc & Hx)%elem_of_chain_lbas. apply Hz.
    eapply cluster_lbas_data; [done|by apply (proj1 (Forall_forall _ _) Hnew)|done].
Qed.

(** Bytes between the old end and the offset are what the clusters held. *)
Lemma wrote_overlay s s' r r' l new dl off data :
  ready n s → sized n s → file_at s r l dl → wrote s s' r r' l new dl off data → 0 ≤ off →
  ∃ gap, length gap = Z.to_nat (off - filesize (r_de r)) ∧
    contents s' (l ++ new) (filesize (r_de r')) = copy_into (Z.to_nat off) data (contents s l (filesize (r_de r)) ++ gap).
Proof.
  intros Hr Hz Hfa Hw Hoff. pose proof (le32_range (r_de r) 28 (fa_bytes _ _ _ _ Hfa)) as Hfs. fold (filesize (r_de r)) in Hfs.
  unfold contents. rewrite (wo_bytes _ _ _ _ _ _ _ _ _ Hw), (wo_size _ _ _ _ _ _ _ _ _ Hw), file_bytes_app.
  pose proof (length_file_bytes n s l Hr Hz (proj2 (fa_chain _ _ _ _ Hfa))) as Hlen. pose proof (fa_size _ _ _ _ Hfa) as Hsz.
  pose proof (wo_room _ _ _ _ _ _ _ _ _ Hw) as Hroom. unfold capacity in Hroom. rewrite length_app in Hroom.
  assert (Z.of_nat (length (file_bytes s new)) = capacity (mnt s) new) as Hln.
  { apply length_new_bytes; [done|done|]. eapply Forall_impl; [apply Hw|]. simpl. tauto. }
  unfold capacity in *. eexists (take (Z.to_nat off - Z.to_nat (filesize (r_de r))) (drop (Z.to_nat (filesize (r_de r))) (file_bytes s l ++ file_bytes s new))).
  split; [rewrite length_take, length_drop, length_app; lia|]. rewrite <- take_copy_into; [f_equal; lia|lia|rewrite length_app; lia].
Qed.

Lemma refused_contents s s' r l new dl :
  ready n s → sized n s → file_at s r l dl → refused s s' r l dl → file_at s' r (l ++ new) dl → ready n s' →
  contents s' (l ++ new) (filesize (r_de r)) = contents s l (filesize (r_de r)).
Proof.
  intros Hr Hz Hfa [_ [f Hm] Hs _] Hfa' Hr'. unfold contents.
  destruct (bytes_set_fat s s' f (l ++ new) Hm Hs (rd_vol _ _ Hr') (proj2 (fa_chain _ _ _ _ Hfa'))) as [-> _].
  pose proof (length_file_bytes n s l Hr Hz (proj2 (fa_chain _ _ _ _ Hfa))) as Hlen. pose proof (fa_size _ _ _ _ Hfa) as Hsz.
  rewrite file_bytes_app, take_app_le by lia. done.
Qed.

(** C13. Writing to a regular file of a working volume either fails with
    [LNXRM_EIO] because the volume is full, and then no sector of the data area
    and no field of the node changes, or it stores the data, at most 1 MiB: the
    file is its old contents with the data laid over them at the offset; when
    the offset is behind the old end, the bytes between are not cleared but are
    what the clusters held ([gap]).  The chain has grown by free clusters only.
    The directory record of the file has the new size and first cluster and the
    others are unchanged ([wo_recs]); a record that the search does not find,
    because a record before it begins with 5, stays as it was ([wo_lost]).
    Every sector outside the file and its directory and every other chain is
    untouched, nothing is left in journal or cache, and reading the range back
    delivers the data. *)
Theorem fat_write_read fuel r off buf l dl s :
  idle n s → sized n s → enough (mnt s) fuel → file_at s r l dl → bytes_ok buf → buf ≠ [] →
  0 ≤ off → off + Z.of_nat (length buf) < 2 ^ 32 →
  let data := take (Z.to_nat MAX_IO) buf in
  ∃ rc r' s', fat_write_impl scr fuel r off (Some buf) (Z.of_nat (length buf)) s = Some (rc, r', s') ∧ idle n s' ∧ sized n s' ∧
    (rc = LNXRM_EIO ∧ r' = r ∧ refused s s' r l dl ∨
     rc = Z.of_nat (length data) ∧ ∃ new gap, wrote s s' r r' l new dl off data ∧
       Z.of_nat (length gap) = Z.max 0 (off - filesize (r_de r)) ∧
       contents s' (l ++ new) (filesize (r_de r')) = copy_into (Z.to_nat off) data (contents s l (filesize (r_de r)) ++ gap) ∧
       ∃ s'', fat_read_impl scr fuel r' off true rc s' = Some (rc, data, s'') ∧ same n s' s'').
Proof.
  intros Hid Hz Hf Hfa Hb Hne Hoff Hov data.
  destruct (fat_write_spec fuel r off buf l dl s Hid Hz Hf Hfa Hb Hne Hoff Hov) as (rc & r' & s' & E & Hid' & Hz' & Hf' & Hres).
  exists rc, r', s'. split_and!; [done..|]. destruct Hres as [Hfail|(-> & new & Hw)]; [by left|right]. split; [done|].
  fold data in Hw |- *. pose proof (wo_file _ _ _ _ _ _ _ _ _ Hw) as [Hreg _ _ Hch' Hsz' _ _].
  destruct (wrote_overlay s s' r r' l new dl off data (id_ready _ _ Hid) Hz Hfa Hw Hoff) as (gap & Hgl & Hc).
  exists new, gap. split; [done|]. split; [lia|]. split; [done|].
  assert (length data ≤ length buf)%nat as Hdl by (unfold data; rewrite length_take; lia).
  destruct (fat_read_spec n scr fuel r' off (Z.of_nat (length data)) (l ++ new) s' Hid' Hz' Hf' Hreg Hch' Hsz') as (s'' & E' & Hs);
    [lia..|]. exists s''. split; [|done]. rewrite Hc in E'.
  assert (take (Z.to_nat (Z.min (Z.of_nat (length data)) MAX_IO)) (drop (Z.to_nat off) (copy_into (Z.to_nat off) data
    (contents s l (filesize (r_de r)) ++ gap))) = data) as Hd.
  { pose proof (length_file_bytes n s l (id_ready _ _ Hid) Hz (proj2 (fa_chain _ _ _ _ Hfa))). pose proof (fa_size _ _ _ _ Hfa).
    pose proof (le32_range (r_de r) 28 (fa_bytes _ _ _ _ Hfa)) as Hfs. fold (filesize (r_de r)) in Hfs.
    assert (length (contents s l (filesize (r_de r)) ++ gap) = Nat.max (Z.to_nat off) (Z.to_nat (filesize (r_de r)))) as Hcl
      by (rewrite length_app; unfold contents; rewrite length_take; lia).
    unfold copy_into. rewrite drop_app_ge, length_take by (rewrite length_take; lia).
    rewrite Nat.min_l, Nat.sub_diag, drop_0 by lia. apply take_app_length'. unfold data at 2. unfold data. rewrite length_take. lia. }
  by rewrite Hd in E'.
Qed.
End write.

(** ** The demonstration volume *)

Module WriteDemo.
(** The node of [hi.txt]. *)
Definition node : resolve := Resolve 2 [104; 105; 46; 116; 120; 116] (record_at FatDemo.root 0) true.

Lemma file_good : good_chain FatDemo.m0 3 [3; 4].
Proof. split; [apply FatDemo.file_chain|]. by_eval. Qed.

Lemma node_file : file_at FatDemo.s0 node [3; 4] [2].
Proof.
  split; [reflexivity|reflexivity|by_eval|exact file_good|by_eval|exact MetaDemo.root_good|].
  intros c Hc. rewrite !elem_of_cons in *. intros Hc'. set_solver.
Qed.

Lemma s0_enough : enough FatDemo.m0 64.
Proof. unfold enough. simpl. lia. Qed.
End WriteDemo.

(** Four bytes across the two clusters of the file. *)
Lemma fat_read_correct_witness :
  ∃ s', fat_read_impl MetaDemo.scr 64 WriteDemo.node 510 true 4 FatDemo.s0 = Some (4, [3; 3; 4; 4], s') ∧ same 64 FatDemo.s0 s'.
Proof.
  destruct (fat_read_correct 64 MetaDemo.scr 64 WriteDemo.node 510 4 [3; 4] FatDemo.s0 ReadyDemo.s0_idle MetaDemo.s0_sized
    WriteDemo.s0_enough eq_refl WriteDemo.file_good ltac:(by_eval) ltac:(lia) ltac:(lia) ltac:(lia)) as (s' & E & Hs).
  exists s'. split; [|exact Hs]. rewrite E.
  assert (take (Z.to_nat (Z.min 4 MAX_IO)) (drop (Z.to_nat 510) (contents FatDemo.s0 [3; 4] (filesize (r_de WriteDemo.node)))) =
    [3; 3; 4; 4]) as -> by (vm_compute; reflexivity). reflexivity.
Defined.

(** Three bytes at the end of the file. *)
Lemma fat_write_read_witness :
  ∃ r' s' s'', fat_write_impl MetaDemo.scr 64 WriteDemo.node 700 (Some [1; 2; 3]) 3 FatDemo.s0 = Some (3, r', s') ∧ idle 64 s' ∧
    (∃ e', dir_records s' [2] !! 0%nat = Some e' ∧ filesize e' = 703) ∧
    fat_read_impl MetaDemo.scr 64 r' 700 true 3 s' = Some (3, [1; 2; 3], s'').
Proof.
  assert (fst <$> (fst <$> fat_write_impl MetaDemo.scr 64 WriteDemo.node 700 (Some [1; 2; 3]) 3 FatDemo.s0) = Some 3) as H3
    by (vm_compute; reflexivity).
  destruct (fat_write_read 64 MetaDemo.scr 64 WriteDemo.node 700 [1; 2; 3] [3; 4] [2] FatDemo.s0 ReadyDemo.s0_idle MetaDemo.s0_sized
    WriteDemo.s0_enough WriteDemo.node_file ltac:(by_eval) ltac:(discriminate)) as (rc & r' & s' & E & Hid & _ & Hres).
  - lia.
  - simpl. lia.
  - simpl length in E. change (Z.of_nat 3) with 3 in E. rewrite E in H3. simpl in H3. injection H3 as ->.
    destruct Hres as [(Hrc & _)|(_ & new & gap & Hw & _ & _ & s'' & Er & _)]; [discriminate|].
    exists r', s', s''. split; [exact E|]. split; [exact Hid|]. split; [|exact Er].
    destruct (wo_recs _ _ _ _ _ _ _ _ _ _ Hw 0) as (e' & -> & Hd).
    + constructor; [|intros; lia]. eexists. split; [vm_compute; reflexivity|by_eval].
    + exists e'. split; [vm_compute; reflexivity|]. rewrite (ds_size _ _ Hd), (wo_size _ _ _ _ _ _ _ _ _ _ Hw). vm_compute. reflexivity.
Defined.
