(* ===== verification/FatRename.v ===== *)
(** Renaming a file within its directory ([rename_in_place] of
    [kernel/fs/fat32/fat32_meta.c]): the records that the driver writes for the
    new name are the ones from which the directory scan reads it back. *)
From S2P Require Import Prelude Bytes Cstring BlkDev BlkCache BlkCacheFacts BlkHealth Journal FatName FatNameFacts FatTable FatTableFacts FatDir FatFile FatMeta FatReady FatDirFacts FatWalk FatMetaFacts FatData FatWrite.

#[local] Opaque CACHE_ENTRIES.

(** ** The records of the new name *)

Lemma fill_chars_ok offs name : ∀ idx raw, bytes_ok raw → bytes_ok (fill_chars offs idx name raw).
Proof. induction offs as [|o offs IH]; intros idx raw Hr; [done|]. cbn [fill_chars]. apply IH. auto with lnx. Qed.

Lemma lfn_fill_ok q total sum name : length (lfn_fill q total sum name) = DIRENT_SIZE ∧ bytes_ok (lfn_fill q total sum name).
Proof.
  unfold lfn_fill. split.
  - autorewrite with lnx. rewrite length_fill_chars. by autorewrite with lnx.
  - do 5 apply put8_ok. apply fill_chars_ok, put8_ok. apply Forall_replicate. lia.
Qed.

Lemma lfn_fill_head q total sum name :
  byte_at (lfn_fill q total sum name) 0 = u8 (if q =? total then Z.lor q 0x40 else q) ∧ de_attr (lfn_fill q total sum name) = ATTR_LFN.
Proof.
  unfold lfn_fill. split.
  - rewrite !byte_at_put8_ne by lia. rewrite fill_chars_other by (repeat constructor; lia). by rewrite byte_at_put8_eq by (simpl; lia).
  - unfold de_attr. rewrite !byte_at_put8_ne by lia. rewrite byte_at_put8_eq; [done|]. rewrite length_fill_chars. autorewrite with lnx. simpl. lia.
Qed.

(** None of the records of a name of at most 65 characters begins with 5: the
    fifth is the last one then, and carries the mark of the last. *)
Lemma lfn_fill_seen (q total : nat) sum name : (1 ≤ q ≤ total)%nat → (total ≤ 5)%nat → let e := lfn_fill (Z.of_nat q) (Z.of_nat total) sum name in
  byte_at e 0 ≠ ENT_END ∧ entry_used e = true ∧ is_lfn e = true.
Proof.
  intros Hq Ht e. destruct (lfn_fill_head (Z.of_nat q) (Z.of_nat total) sum name) as [H0 Ha]. fold e in H0, Ha.
  assert (byte_at e 0 = if decide (q = total) then Z.of_nat q + 0x40 else Z.of_nat q) as Hb.
  { rewrite H0. destruct (Z.eqb_spec (Z.of_nat q) (Z.of_nat total)), (decide (q = total)); try lia;
      do 6 (destruct q as [|q]; [first [lia|reflexivity]|]); lia. }
  unfold entry_used, is_lfn, ENT_END, ENT_FREE, ENT_E5. rewrite Ha, Hb. split_and!; [| |done].
  - case_decide; lia.
  - rewrite !(proj2 (Z.eqb_neq _ _)) by (case_decide; lia). done.
Qed.

(** The record under its new alias. *)
Lemma renamed_ok nname de : printable nname → length de = DIRENT_SIZE → bytes_ok de → is_lfn de = false →
  Z.land (de_attr de) ATTR_VOLUME = 0 → let e := renamed (name_to_short nname) de in
  plain e ∧ length e = DIRENT_SIZE ∧ bytes_ok e ∧ de_name e = name_to_short nname ∧ de_attr e = de_attr de ∧
  filesize e = filesize de ∧ de_cluster e = de_cluster de.
Proof.
  intros Hn Hl Hb Hlf Hv e. destruct (name_to_short_ok nname Hn) as (Hsl & Hsp & _). set (sn := name_to_short nname) in *.
  set (e0 := copy_into 0 sn de). assert (length e0 = DIRENT_SIZE) as Hl0.
  { unfold e0. rewrite length_copy_into; [done|]. rewrite Hsl, Hl. unfold DIRENT_SIZE. lia. }
  assert (∀ i, (11 ≤ i)%nat → byte_at e0 i = byte_at de i) as Hhi.
  { intros i Hi. unfold e0, copy_into, byte_at. rewrite take_0, app_nil_l, lookup_app_r by lia. rewrite lookup_drop. do 2 f_equal. lia. }
  assert (∀ i, i ≠ 12%nat → byte_at e i = byte_at e0 i) as Hne by (intros i Hi; by apply byte_at_put8_ne).
  assert (de_name e = sn) as Hnm.
  { unfold de_name. apply list_eq. intros i. destruct (decide (i < 11)%nat) as [Hi|].
    - rewrite lookup_take_lt by done. unfold e, renamed. rewrite lookup_put8_ne by lia. unfold copy_into.
      by rewrite take_0, app_nil_l, lookup_app_l by lia.
    - by rewrite lookup_take_ge, lookup_ge_None_2 by lia. }
  assert (de_attr e = de_attr de) as Ha by (unfold de_attr; rewrite Hne, Hhi by lia; done).
  assert (32 ≤ byte_at e 0 < 127) as H0.
  { rewrite Hne by lia. unfold e0, copy_into, byte_at. rewrite take_0, app_nil_l, lookup_app_l by lia.
    destruct (lookup_lt_is_Some_2 sn 0 ltac:(lia)) as [c Hc]. rewrite Hc. exact (Forall_lookup_1 _ _ _ _ Hsp Hc). }
  split_and!; [split|unfold e, renamed; by autorewrite with lnx| |done|done| |].
  - unfold ENT_END. lia.
  - unfold entry_used, ENT_FREE, ENT_E5. by rewrite !(proj2 (Z.eqb_neq _ _)) by lia.
  - unfold is_lfn. by rewrite Ha.
  - by rewrite Ha.
  - apply put8_ok, bytes_ok_copy; [|done]. eapply Forall_impl; [exact Hsp|]. simpl. lia.
  - unfold filesize, le32, le16. by rewrite !Hne, !Hhi by lia.
  - unfold de_cluster, fstclushi, fstcluslo, le16. by rewrite !Hne, !Hhi by lia.
Qed.

(** ** Reading the records *)

(** The state in front of a run: nothing is collected. *)
Definition fresh (lf : lfn_state) : Prop := length (longname lf) = LONGNAME_SIZE ∧ seq_max lf = 0 ∧ name_end lf = 0.

Lemma fresh_reset lf : length (longname lf) = LONGNAME_SIZE → fresh (lfn_reset lf).
Proof. intros Hl. split_and!; [by cbn; rewrite length_insert|done|done]. Qed.

Lemma length_lfn_add e lf : length (longname lf) = LONGNAME_SIZE → length (longname (lfn_add e lf)) = LONGNAME_SIZE.
Proof.
  intros Hl. unfold lfn_add. destruct (_ && _); [|done]. cbn [longname]. destruct (Nat.ltb_spec (Z.to_nat ((Z.land (byte_at e 0) 31 - 1) * 13) + length (lfn_piece lfn_offs e)) LONGNAME_SIZE); [|done].
  rewrite !length_app, length_take, length_drop. lia.
Qed.

Lemma scan_run (k : nat) sum name rest lf : (k ≤ 5)%nat → ∀ j, (j ≤ k)%nat →
  dir_entries lf (lfn_run j (Z.of_nat k) sum name ++ rest) =
  dir_entries (foldl (λ lf raw, lfn_add raw lf) lf (lfn_run j (Z.of_nat k) sum name)) rest.
Proof.
  intros Hk j. revert lf. induction j as [|j IH]; intros lf Hj; [done|]. cbn [lfn_run app dir_entries foldl].
  destruct (lfn_fill_seen (S j) k sum name) as (He & Hu & Hl); [lia|lia|].
  rewrite (proj2 (Z.eqb_neq _ _) He), Hu, Hl. apply IH. lia.
Qed.

(** The listed records do not depend on what was collected before. *)
Lemma dir_entries_records rs : ∀ lf lf', (dir_entries lf rs).*2 = (dir_entries lf' rs).*2.
Proof.
  induction rs as [|e rs IH]; intros lf lf'; [done|]. cbn [dir_entries].
  destruct (_ =? ENT_END); [done|]. destruct (negb (entry_used e)); [apply IH|]. destruct (is_lfn e); [apply IH|].
  destruct (negb _); [apply IH|]. cbn [fmap list_fmap]. f_equal. apply IH.
Qed.

(** The records in front of a run leave nothing collected. *)
Definition ends_run (e : dirent) : Prop := entry_used e = false ∨ is_lfn e = false ∧ Z.land (de_attr e) ATTR_VOLUME = 0.

(** The entries that the records [pre] list, and the state behind them. *)
Fixpoint listed (lf : lfn_state) (pre : list dirent) : list (list Z * dirent) * lfn_state :=
  match pre with
  | [] => ([], lf)
  | e :: pre =>
      if negb (entry_used e) then listed (lfn_reset lf) pre
      else if is_lfn e then listed (lfn_add e lf) pre
      else if negb (Z.land (de_attr e) ATTR_VOLUME =? 0) then listed lf pre
      else let '(es, lf') := listed (lfn_reset lf) pre in ((c_str (lfn_name lf (de_name e)), e) :: es, lf')
  end.

Lemma entries_before pre rest : Forall (λ e, byte_at e 0 ≠ ENT_END) pre → ∀ lf,
  dir_entries lf (pre ++ rest) = (listed lf pre).1 ++ dir_entries (listed lf pre).2 rest.
Proof.
  induction 1 as [|e pre He _ IH]; intros lf; [done|]. cbn [app dir_entries listed]. rewrite (proj2 (Z.eqb_neq _ _) He).
  destruct (negb (entry_used e)); [apply IH|]. destruct (is_lfn e); [apply IH|]. destruct (negb _); [apply IH|].
  rewrite IH. by destruct (listed _ pre).
Qed.

Lemma listed_fresh pre : (∀ e, last pre = Some e → ends_run e) → ∀ lf, length (longname lf) = LONGNAME_SIZE →
  (pre = [] → fresh lf) → fresh (listed lf pre).2.
Proof.
  induction pre as [|e pre IH]; intros Hlast lf Hl Hf; [by apply Hf|].
  assert (∀ lf, length (longname lf) = LONGNAME_SIZE → (pre = [] → fresh lf) → fresh (listed lf pre).2) as IH'.
  { intros lf1 H1 H2. destruct pre as [|x pre]; [by apply H2|]. apply IH; [|done..]. intros y Hy. by apply Hlast. }
  assert (pre = [] → ends_run e) as He1 by (intros ->; by apply Hlast).
  cbn [listed]. pose proof (fresh_reset lf Hl) as Hfr. destruct (entry_used e) eqn:Hu; cbn [negb]; [|apply IH'; [apply Hfr|done]].
  destruct (is_lfn e) eqn:Hlf.
  { apply IH'; [by apply length_lfn_add|]. intros ->. destruct (He1 eq_refl) as [?|[? _]]; congruence. }
  destruct (Z.eqb_spec (Z.land (de_attr e) ATTR_VOLUME) 0) as [Hv|Hv]; cbn [negb].
  - pose proof (IH' (lfn_reset lf) (proj1 Hfr) (λ _, Hfr)) as Hi. by destruct (listed _ pre).
  - apply IH'; [done|]. intros ->. destruct (He1 eq_refl) as [?|[_ ?]]; congruence.
Qed.

(** ** Writing the records *)
Section rename.
Context {W D : Type} `{EqDecision D} `{DiskHealth W D}.
Context (n : Z) (scr : scratch).
Implicit Types (s : fs W D) (m : fat_mount D).

(** The place of the record [i] of a directory. *)
Definition pos_of m (l : list Z) (i : nat) : dirent_pos :=
  Pos (default 0 (chain_lbas m l !! (i / 16)%nat)) (Z.of_nat (i mod 16 * DIRENT_SIZE)).

(** Within a transaction the records of the directory became [rs], with [k]
    more sectors logged at most. *)
Record stepped (l : list Z) (k : nat) s s' (rs : list dirent) : Prop := {
  st_txn : in_txn n s';
  st_sized : sized n s';
  st_count : (jcount (jr s') ≤ jcount (jr s) + k)%nat;
  st_dir : dir_change n s s' l rs;
}.

Lemma stepped_refl l s : in_txn n s → sized n s → stepped l 0 s s (dir_records s l).
Proof. intros Ht Hz. split; [done|done|lia|]. by split. Qed.

Lemma stepped_trans l k1 k2 s1 s2 s3 rs1 rs2 : stepped l k1 s1 s2 rs1 → stepped l k2 s2 s3 rs2 → stepped l (k1 + k2) s1 s3 rs2.
Proof.
  intros [_ _ Hc1 [Hm1 _ Ho1 Hz1]] [Ht Hz Hc2 [Hm2 Hr2 Ho2 Hz2]]. split; [done|done|lia|]. split; [congruence|done| |auto].
  intros x Hx. rewrite Ho2 by (by rewrite Hm1). by apply Ho1.
Qed.

Lemma length_dir_records s l : length (dir_records s l) = (16 * length (chain_lbas (mnt s) l))%nat.
Proof.
  unfold dir_records. rewrite (length_concat_blocks 16).
  - by rewrite !length_fmap, Nat.mul_comm.
  - apply Forall_fmap, Forall_forall. intros b _. done.
Qed.

(** A sector of the directory gets the record [e] at the place [i]. *)
Lemma put_at c l i e s x : in_txn n s → sized n s → good_chain (mnt s) c l → chain_lbas (mnt s) l !! (i / 16)%nat = Some x →
  length e = DIRENT_SIZE → bytes_ok e → (jcount (jr s) < MAX_JOURNAL_ENTRIES)%nat →
  ∃ s1 s', fat_read_sector x (s_sec scr) s = Some (0, sec s x, s1) ∧
    log_sector x (copy_into (i mod 16 * DIRENT_SIZE) e (sec s x)) s1 = Some (tt, s') ∧ stepped l 1 s s' (<[i := e]> (dir_records s l)).
Proof.
  intros Ht Hz Hch Hx He Hb Hj. pose proof (tx_ready _ _ Ht) as Hr.
  assert (data_lba n (mnt s) x) as Hd by (eapply live_lbas; [apply Hr|apply Hch|by eapply list_elem_of_lookup_2]).
  destruct (read_sector_spec n x (s_sec scr) s Hr Hd) as (s1 & E1 & Hs1).
  destruct (log_sector_spec n x (copy_into (i mod 16 * DIRENT_SIZE) e (sec s x)) s1 (same_txn _ _ _ Hs1 Ht)) as (s2 & E2 & Ht2 & Hm2 & Hsec2 & Hj2 & _);
    [by rewrite (sm_mnt _ _ _ Hs1)|left; by rewrite (sm_jr _ _ _ Hs1)|].
  exists s1, s2. split_and!; [done|done|]. rewrite (sm_mnt _ _ _ Hs1) in Hm2. rewrite (sm_jr _ _ _ Hs1) in Hj2.
  pose proof (Nat.mod_upper_bound i 16 ltac:(lia)).
  assert (dir_change n s s2 l (<[(i / 16 * 16 + i mod 16)%nat := e]> (dir_records s l))) as Hdc.
  { eapply put_sector_change; [done|done|done|done|lia|done|done|done|]. intros y. rewrite Hsec2. destruct (decide (y = x)) as [->|].
    - by rewrite !fn_lookup_insert.
    - rewrite !fn_lookup_insert_ne by done. apply Hs1. }
  replace (i / 16 * 16 + i mod 16)%nat with i in Hdc by (pose proof (Nat.div_mod_eq i 16); lia).
  split; [done|by apply Hdc|lia|done].
Qed.

Lemma pos_sector s l i : (i < length (dir_records s l))%nat → ∃ x, chain_lbas (mnt s) l !! (i / 16)%nat = Some x ∧
  p_lba (pos_of (mnt s) l i) = x ∧ Z.to_nat (p_off (pos_of (mnt s) l i)) = (i mod 16 * DIRENT_SIZE)%nat.
Proof.
  intros Hi. rewrite length_dir_records in Hi. destruct (lookup_lt_is_Some_2 (chain_lbas (mnt s) l) (i / 16)) as [x Hx].
  { apply Nat.Div0.div_lt_upper_bound. lia. }
  exists x. unfold pos_of. cbn [p_lba p_off]. rewrite Hx, Nat2Z.id. done.
Qed.

Lemma dirent_write_at c l i e s : in_txn n s → sized n s → good_chain (mnt s) c l → (i < length (dir_records s l))%nat →
  length e = DIRENT_SIZE → bytes_ok e → (jcount (jr s) < MAX_JOURNAL_ENTRIES)%nat →
  ∃ s', dirent_write scr (pos_of (mnt s) l i) e s = Some (tt, s') ∧ stepped l 1 s s' (<[i := e]> (dir_records s l)).
Proof.
  intros Ht Hz Hch Hi He Hb Hj. destruct (pos_sector s l i Hi) as (x & Hx & Hp & Ho).
  destruct (put_at c l i e s x Ht Hz Hch Hx He Hb Hj) as (s1 & s2 & E1 & E2 & Hst). exists s2. split; [|done].
  unfold dirent_write, mbind, M_bind. by rewrite Hp, Ho, E1.
Qed.

(** The first byte of a record is changed. *)
Lemma mark_record b i v : length b = 512%nat → (i < 16)%nat →
  <[(i * DIRENT_SIZE)%nat := v]> b = copy_into (i * DIRENT_SIZE) (<[0%nat := v]> (record_at b (i * DIRENT_SIZE))) b.
Proof.
  intros Hb Hi. unfold copy_into, record_at, DIRENT_SIZE. rewrite length_insert, length_take, length_drop, Hb.
  replace (Nat.min 32 (512 - i * 32)) with 32%nat by lia. apply list_eq. intros j.
  destruct (decide (j < i * 32)%nat) as [Hlt|Hge].
  - rewrite list_lookup_insert_ne by lia. rewrite lookup_app_l by (rewrite length_take; lia). by rewrite lookup_take_lt.
  - rewrite lookup_app_r by (rewrite length_take; lia). rewrite length_take. replace (Nat.min (i * 32) (length b)) with (i * 32)%nat by lia.
    destruct (decide (j < i * 32 + 32)%nat) as [Hlt|Hge2].
    + rewrite lookup_app_l by (rewrite length_insert, length_take, length_drop; lia). destruct (decide (j = i * 32)%nat) as [->|Hne].
      * rewrite Nat.sub_diag, list_lookup_insert_eq by lia. by rewrite list_lookup_insert_eq by (rewrite length_take, length_drop; lia).
      * rewrite !list_lookup_insert_ne, lookup_take_lt, lookup_drop by lia. f_equal. lia.
    + rewrite list_lookup_insert_ne by lia. rewrite lookup_app_r by (rewrite length_insert, length_take, length_drop; lia).
      rewrite length_insert, length_take, length_drop, lookup_drop. f_equal. lia.
Qed.

Definition freed (e : dirent) : dirent := <[0%nat := ENT_E5]> e.

Lemma dirent_free_at c l i e s : in_txn n s → sized n s → good_chain (mnt s) c l → dir_records s l !! i = Some e →
  (jcount (jr s) < MAX_JOURNAL_ENTRIES)%nat →
  ∃ s', dirent_free scr (pos_of (mnt s) l i) s = Some (tt, s') ∧ stepped l 1 s s' (<[i := freed e]> (dir_records s l)).
Proof.
  intros Ht Hz Hch Hi Hj. destruct (pos_sector s l i (lookup_lt_Some _ _ _ Hi)) as (x & Hx & Hp & Ho).
  pose proof (tx_ready _ _ Ht) as Hr. pose proof (Nat.mod_upper_bound i 16 ltac:(lia)) as Hm.
  assert (data_lba n (mnt s) x) as Hd by (eapply live_lbas; [apply Hr|apply Hch|by eapply list_elem_of_lookup_2]). destruct (Hz x Hd) as [Hlx Hbx].
  assert (record_at (sec s x) (i mod 16 * DIRENT_SIZE) = e) as Hrec.
  { unfold dir_records in Hi. rewrite (Nat.div_mod_eq i 16), Nat.mul_comm in Hi.
    rewrite (concat_lookup 16 _ (i / 16) (i mod 16) (sector_recs (sec s x))) in Hi; [|apply Forall_fmap, Forall_forall; done| |lia].
    - rewrite sector_recs_lookup in Hi by lia. by injection Hi.
    - by rewrite !list_lookup_fmap, Hx. }
  destruct (record_at_ok (sec s x) (i mod 16) Hlx Hbx Hm) as [Hle Hbe]. rewrite Hrec in Hle, Hbe.
  destruct (put_at c l i (freed e) s x Ht Hz Hch Hx) as (s1 & s2 & E1 & E2 & Hst); [by unfold freed; rewrite length_insert| |done|].
  { unfold freed. apply Forall_insert; [done|]. unfold ENT_E5. lia. }
  exists s2. split; [|done]. unfold dirent_free, mbind, M_bind. rewrite Hp, Ho, E1.
  rewrite mark_record, Hrec by done. exact E2.
Qed.

Lemma insert_middle {A} (pre : list A) x y post : <[length pre := y]> (pre ++ x :: post) = (pre ++ [y]) ++ post.
Proof. rewrite <- app_assoc. rewrite insert_app_r_alt by lia. by rewrite Nat.sub_diag. Qed.

Lemma free_all_at c l C : ∀ B A s, in_txn n s → sized n s → good_chain (mnt s) c l → dir_records s l = A ++ B ++ C →
  (jcount (jr s) + length B ≤ MAX_JOURNAL_ENTRIES)%nat →
  ∃ s', free_all scr (pos_of (mnt s) l <$> seq (length A) (length B)) s = Some (tt, s') ∧ stepped l (length B) s s' (A ++ (freed <$> B) ++ C).
Proof.
  induction B as [|b B IH]; intros A s Ht Hz Hch Hrec Hj; cbn [length seq fmap list_fmap free_all].
  { exists s. split; [done|]. rewrite <- Hrec. by apply stepped_refl. }
  cbn [length] in Hj. destruct (dirent_free_at c l (length A) b s Ht Hz Hch) as (s1 & E1 & Hs1); [rewrite Hrec; cbn [app]; by rewrite list_lookup_middle|lia|].
  unfold mbind, M_bind. rewrite E1. pose proof Hs1 as [Ht1 Hz1 Hj1 [Hm1 Hr1 _ _]].
  rewrite Hrec in Hr1. cbn [app] in Hr1. rewrite insert_middle in Hr1.
  destruct (IH (A ++ [freed b]) s1 Ht1 Hz1) as (s2 & E2 & Hs2); [by rewrite Hm1|done|lia|].
  rewrite length_app, Hm1 in E2. cbn [length] in E2. rewrite Nat.add_1_r in E2. exists s2. split; [exact E2|].
  rewrite <- app_assoc in Hs2. by eapply (stepped_trans l 1).
Qed.

Lemma write_lfn_at c l C total sum name : ∀ B A s, in_txn n s → sized n s → good_chain (mnt s) c l → dir_records s l = A ++ B ++ C →
  (jcount (jr s) + length B ≤ MAX_JOURNAL_ENTRIES)%nat →
  ∃ s', write_lfn scr (pos_of (mnt s) l <$> seq (length A) (length B)) total sum name s = Some (tt, s') ∧
    stepped l (length B) s s' (A ++ lfn_run (length B) (Z.of_nat total) sum name ++ C).
Proof.
  induction B as [|b B IH]; intros A s Ht Hz Hch Hrec Hj; cbn [length seq fmap list_fmap write_lfn lfn_run].
  { exists s. split; [done|]. rewrite <- Hrec. by apply stepped_refl. }
  cbn [length] in Hj. set (e := lfn_fill (Z.of_nat (S (length B))) (Z.of_nat total) sum name).
  destruct (lfn_fill_ok (Z.of_nat (S (length B))) (Z.of_nat total) sum name) as [Hle Hbe].
  destruct (dirent_write_at c l (length A) e s Ht Hz Hch) as (s1 & E1 & Hs1); [rewrite Hrec, length_app; simpl; lia|done|done|lia|].
  unfold mbind, M_bind. change (list_fmap _ _ ?f ?x) with (f <$> x). rewrite length_fmap, length_seq. fold e. rewrite E1. pose proof Hs1 as [Ht1 Hz1 Hj1 [Hm1 Hr1 _ _]].
  rewrite Hrec in Hr1. cbn [app] in Hr1. rewrite insert_middle in Hr1.
  destruct (IH (A ++ [e]) s1 Ht1 Hz1) as (s2 & E2 & Hs2); [by rewrite Hm1|done|lia|].
  rewrite length_app, Hm1 in E2. cbn [length] in E2. rewrite Nat.add_1_r in E2. exists s2. split; [exact E2|].
  rewrite <- app_assoc in Hs2. by eapply (stepped_trans l 1).
Qed.

(** The place of a record: [run] are the long-name records in front of it, the
    directory goes on with [post]. *)
Record located s (l : list Z) (pre run : list dirent) (de : dirent) (post : list dirent) (loc : dirent_loc) : Prop := {
  lc_dir : dir_records s l = pre ++ run ++ de :: post;
  lc_pos : l_pos loc = pos_of (mnt s) l (length pre + length run);
  lc_de : l_de loc = de;
  lc_lfn : l_lfn loc = pos_of (mnt s) l <$> seq (length pre) (length run);
}.

(** The records of the directory after the rename. *)
Lemma rename_records c l pre run de post loc k nname sum s : idle n s → sized n s → good_chain (mnt s) c l →
  located s l pre run de post loc → (length run ≤ LFN_ENTRIES_MAX)%nat → (k ≤ length run)%nat → printable nname →
  length de = DIRENT_SIZE → bytes_ok de → is_lfn de = false → Z.land (de_attr de) ATTR_VOLUME = 0 →
  let alias := name_to_short nname in
  ∃ s', rename_in_place scr loc k nname alias sum s = Some (0, s') ∧ idle n s' ∧
    dir_change n s s' l (pre ++ (freed <$> take (length run - k) run) ++ lfn_run k (Z.of_nat k) sum nname ++ renamed alias de :: post).
Proof.
  intros Hid Hz Hch [Hdir Hpos Hde Hlfn] Hm Hk Hn Hl Hb Hlf Hv alias. unfold LFN_ENTRIES_MAX in Hm.
  destruct (renamed_ok nname de Hn Hl Hb Hlf Hv) as (_ & Hrl & Hrb & _). fold alias in Hrl, Hrb.
  destruct (j_begin_spec n s Hid) as (s0 & E0 & Ht0 & _ & Hm0 & Hbs0 & Hj0).
  assert (∀ x, sec s0 x = sec s x) as Hs0 by (intros; unfold sec; by rewrite Hm0, Hbs0).
  assert (dir_records s0 l = dir_records s l) as Hd0 by (unfold dir_records; rewrite Hm0; do 2 f_equal; apply list_fmap_ext; intros; apply Hs0).
  set (R1 := take (length run - k) run). set (R2 := drop (length run - k) run).
  assert (run = R1 ++ R2) as Hrun by (unfold R1, R2; by rewrite take_drop).
  assert (length R1 = length run - k)%nat as Hl1 by (unfold R1; rewrite length_take; lia).
  assert (length R2 = k) as Hl2 by (unfold R2; rewrite length_drop; lia).
  assert (seq (length pre) (length run) = seq (length pre) (length R1) ++ seq (length pre + length R1) (length R2)) as Hsq
    by (rewrite <- seq_app; f_equal; lia).
  unfold rename_in_place, mbind, M_bind, n_lfn. rewrite E0, Hlfn, Hpos, Hde, length_fmap, length_seq, <- Hl1, <- Hm0, Hsq, fmap_app.
  rewrite take_app_length', drop_app_length' by (by rewrite length_fmap, length_seq).
  assert (dir_records s0 l = pre ++ R1 ++ R2 ++ de :: post) as Hr0 by (rewrite Hd0, Hdir, Hrun, <- app_assoc; done).
  destruct (free_all_at c l (R2 ++ de :: post) R1 pre s0 Ht0) as (s1 & E1 & [Ht1 Hz1 Hj1 Hdc1]);
    [by apply (sized_ext n s)|by rewrite Hm0|done|unfold MAX_JOURNAL_ENTRIES; lia|]. rewrite E1. pose proof Hdc1 as [Hm1 Hr1 Ho1 _].
  destruct (write_lfn_at c l (de :: post) k sum nname R2 (pre ++ (freed <$> R1)) s1 Ht1 Hz1) as (s2 & E2 & [Ht2 Hz2 Hj2 Hdc2]);
    [by rewrite Hm1, Hm0|by rewrite Hr1, <- app_assoc|unfold MAX_JOURNAL_ENTRIES; lia|].
  rewrite length_app, length_fmap, Hm1 in E2. rewrite E2. pose proof Hdc2 as [Hm2 Hr2 Ho2 _]. rewrite Hl2 in *.
  set (rec := renamed alias de) in *. set (P := (pre ++ (freed <$> R1)) ++ lfn_run k (Z.of_nat k) sum nname) in *.
  assert (length P = length pre + length run)%nat as HP.
  { unfold P. rewrite !length_app, length_fmap. assert (∀ j t, length (lfn_run j t sum nname) = j) as -> by (induction j; intros; simpl; auto). lia. }
  rewrite app_assoc in Hr2. fold P in Hr2.
  destruct (dirent_write_at c l (length P) rec s2 Ht2 Hz2) as (s3 & E3 & [Ht3 Hz3 Hj3 Hdc3]);
    [by rewrite Hm2, Hm1, Hm0|rewrite Hr2, length_app; simpl; lia|done|done|unfold MAX_JOURNAL_ENTRIES; lia|].
  rewrite Hm2, Hm1, HP in E3. rewrite E3. pose proof Hdc3 as [Hm3 Hr3 Ho3 _].
  destruct (j_commit_spec n s3 Ht3) as (s4 & E4 & Hid4 & Hm4 & Hs4). rewrite E4. exists s4. split; [done|]. split; [done|].
  rewrite Hr2, insert_middle in Hr3. assert (mnt s4 = mnt s) as Hm' by congruence. split; [done| | |].
  - unfold dir_records. rewrite Hm', <- Hm0, <- Hm1, <- Hm2, <- Hm3. transitivity (dir_records s3 l).
    + unfold dir_records. do 2 f_equal. apply list_fmap_ext. intros. apply Hs4.
    + rewrite Hr3. unfold P. rewrite <- !app_assoc. done.
  - intros x Hx. rewrite Hs4, Ho3, Ho2, Ho1, Hs0; rewrite ?Hm2, ?Hm1, ?Hm0; done.
  - intros _. by apply (sized_ext n s3).
Qed.

Lemma c_str_id l : Forall (λ c, c ≠ 0) l → c_str l = l.
Proof. induction 1 as [|c l Hc _ IH]; [done|]. cbn [c_str]. by rewrite (proj2 (Z.eqb_neq _ _) Hc), IH. Qed.

Lemma short_chars sn : printable sn → Forall (λ c, c ≠ 0) (fat_short_to_name sn).
Proof.
  assert (∀ l, printable l → Forall (λ c, c ≠ 0) (upto_space l)) as Hu.
  { induction 1 as [|c l Hc _ IH]; [constructor|]. cbn [upto_space]. destruct (c =? SPACE); [constructor|]. constructor; [|done].
    unfold ascii_tolower. destruct (_ && _); lia. }
  intros Hp. unfold fat_short_to_name. apply Forall_app. split; [by apply Hu, Forall_take|]. case_decide; [constructor|].
  constructor; [done|]. by apply Hu, Forall_take, Forall_drop.
Qed.

(** What the scan reports for the record with the new records in front. *)
Lemma reported nname sum lf rs : file_name nname → fresh lf → let k := Z.to_nat (fat_lfn_count nname) in
  ∀ e, plain e → de_name e = name_to_short nname →
  ∃ nm lf', dir_entries lf (lfn_run k (Z.of_nat k) sum nname ++ e :: rs) = (nm, e) :: dir_entries lf' rs ∧
    names_equal nm nname = true ∧ ((0 < k)%nat → nm = nname).
Proof.
  intros [Hp _ Hlen] (Hl & Hq & He0) k e [He Hu Hlf Hv] Hn. assert (∀ c, names_equal c c = true) as Hrefl by (intros; by apply bool_decide_eq_true).
  assert (Forall (λ c, c ≠ 0) nname) as Hnz by (eapply Forall_impl; [exact Hp|]; simpl; lia).
  assert (fat_lfn_count nname = if names_equal (fat_short_to_name (name_to_short nname)) nname then 0 else (Z.of_nat (length nname) + 12) / 13) as Hcnt.
  { unfold fat_lfn_count. cbv zeta. by rewrite (proj2 (Z.eqb_neq _ 0)), (proj2 (Z.ltb_ge 255 _)) by lia. }
  assert (k ≤ 5)%nat as Hk.
  { unfold k. rewrite Hcnt. destruct (names_equal _ _); [lia|]. pose proof (Z.div_mod (Z.of_nat (length nname) + 12) 13).
    pose proof (Z.mod_pos_bound (Z.of_nat (length nname) + 12) 13). lia. }
  rewrite scan_run by lia. cbn [dir_entries]. rewrite (proj2 (Z.eqb_neq _ _) He), Hu, Hlf, Hv, Hn. cbn [negb Z.eqb].
  eexists _, _. split; [done|]. destruct (names_equal (fat_short_to_name (name_to_short nname)) nname) eqn:Eq.
  - assert (k = 0%nat) as -> by (unfold k; by rewrite Hcnt). cbn [lfn_run foldl]. unfold lfn_name. rewrite Hq. cbn [Z.ltb Z.compare andb].
    rewrite c_str_id by (apply short_chars; by apply name_to_short_ok). split; [done|lia].
  - rewrite lfn_run_name; [by rewrite c_str_id| |lia|done|done|done|].
    + eapply Forall_impl; [exact Hp|]. simpl. lia.
    + unfold k. rewrite Hcnt, Z2Nat.id; [done|]. apply Z.div_pos; lia.
Qed.

Lemma scan_freed rs B : ∀ lf, fresh lf → ∃ lf', fresh lf' ∧ dir_entries lf ((freed <$> B) ++ rs) = dir_entries lf' rs.
Proof.
  induction B as [|b B IH]; intros lf Hf; [by exists lf|]. cbn [fmap list_fmap app dir_entries].
  assert (byte_at (freed b) 0 = ENT_E5 ∨ byte_at (freed b) 0 = 0) as Hb by (unfold freed; destruct b; [by right|by left]).
  assert (byte_at (freed b) 0 ≠ ENT_END ∧ entry_used (freed b) = false) as [He Hu]
    by (unfold entry_used; destruct Hb as [-> | ->]; by vm_compute).
  rewrite (proj2 (Z.eqb_neq _ _) He), Hu. apply IH. apply fresh_reset, Hf.
Qed.

(** The long-name records of the old name lead to its record. *)
Lemma scan_old rs de run : plain de → Forall (λ e, byte_at e 0 ≠ ENT_END) run → Forall lfn_rec run → ∀ lf,
  ∃ nm lf', dir_entries lf (run ++ de :: rs) = (nm, de) :: dir_entries lf' rs.
Proof.
  intros [He Hu Hlf Hv] Hend Hrun. induction Hrun as [|e run [Hue Hle] Hrun IH]; intros lf; cbn [app dir_entries].
  - rewrite (proj2 (Z.eqb_neq _ _) He), Hu, Hlf, Hv. cbn [negb Z.eqb]. by eexists _, _.
  - apply Forall_cons in Hend as [He' Hend]. rewrite (proj2 (Z.eqb_neq _ _) He'), Hue, Hle. cbn [negb]. by apply IH.
Qed.

(** C35. Renaming a file to a name of at most 55 printable characters that needs
    no more long-name records than the old one, in a directory in which no
    record up to that of the file begins with 5.  The records that the driver
    writes ([fat_lfn_count] of them, [lfn_fill] in descending order, then the
    8.3 record) are read back by the directory scan as exactly the new name, or
    up to case when the 8.3 alias alone represents it; the file keeps its
    attributes, size and first cluster; the listing in front of it is unchanged
    and the same records are listed behind it; no sector outside the directory
    changes, and the transaction is on the device. *)
Theorem rename_in_place_correct c l pre run de post loc nname s :
  let k := Z.to_nat (fat_lfn_count nname) in let alias := name_to_short nname in let rec := renamed alias de in
  idle n s → sized n s → good_chain (mnt s) c l → located s l pre run de post loc → plain de →
  Forall lfn_rec run → (length run ≤ LFN_ENTRIES_MAX)%nat → Forall (λ e, byte_at e 0 ≠ ENT_END) (pre ++ run) →
  (∀ e, last pre = Some e → ends_run e) → length (longname (s_lfn scr)) = LONGNAME_SIZE →
  file_name nname → (k ≤ length run)%nat →
  ∃ s' es1 onm nm es2 es2', rename_in_place scr loc k nname alias (lfn_checksum alias) s = Some (0, s') ∧
    idle n s' ∧ sized n s' ∧ mnt s' = mnt s ∧ (∀ x, x ∉ chain_lbas (mnt s) l → sec s' x = sec s x) ∧
    entries_of scr s l = es1 ++ (onm, de) :: es2 ∧ entries_of scr s' l = es1 ++ (nm, rec) :: es2' ∧ es2'.*2 = es2.*2 ∧
    names_equal nm nname = true ∧ ((0 < k)%nat → nm = nname) ∧
    de_name rec = alias ∧ de_attr rec = de_attr de ∧ filesize rec = filesize de ∧ de_cluster rec = de_cluster de.
Proof.
  intros k alias rec Hid Hz Hch Hloc Hpl Hrun Hm Hend Hlast Hlf Hfn Hk. pose proof Hfn as [Hp _ Hlen]. pose proof Hpl as [_ _ Hdl Hdv].
  assert (length de = DIRENT_SIZE ∧ bytes_ok de) as [Hde Hbe].
  { eapply (dir_record_ok n s l); [apply Hid|done|apply Hch|]. rewrite (lc_dir _ _ _ _ _ _ _ Hloc), app_assoc. apply elem_of_app. right. apply list_elem_of_here. }
  destruct (renamed_ok nname de Hp Hde Hbe Hdl Hdv) as (Hrp & _ & _ & Hrn & Hra & Hrs & Hrc). fold alias rec in Hrp, Hrn, Hra, Hrs, Hrc.
  destruct (rename_records c l pre run de post loc k nname (lfn_checksum alias) s Hid Hz Hch Hloc Hm Hk Hp Hde Hbe Hdl Hdv)
    as (s' & E & Hid' & [Hm' Hr' Ho' Hz']). fold alias rec in E, Hr'.
  apply Forall_app in Hend as [Hend1 Hend2].
  pose proof (fresh_reset _ Hlf) as Hf0. pose proof (listed_fresh pre Hlast (lfn_reset (s_lfn scr)) (proj1 Hf0) (λ _, Hf0)) as Hf1.
  pose proof (λ rest, entries_before pre rest Hend1 (lfn_reset (s_lfn scr))) as E1. destruct (listed (lfn_reset (s_lfn scr)) pre) as [es lf1]. cbn [fst snd] in *.
  set (new := (freed <$> take (length run - k) run) ++ lfn_run k (Z.of_nat k) (lfn_checksum alias) nname ++ rec :: post) in *.
  destruct (scan_old post de run Hpl Hend2 Hrun lf1) as (onm & lf3 & E3).
  destruct (scan_freed (lfn_run k (Z.of_nat k) (lfn_checksum alias) nname ++ rec :: post) (take (length run - k) run) lf1 Hf1) as (lf4 & Hf4 & E4).
  destruct (reported nname (lfn_checksum alias) lf4 post Hfn Hf4 rec Hrp Hrn) as (nm & lf5 & E5 & Hnm & Hnm'). fold k in E5, Hnm'.
  exists s', es, onm, nm, (dir_entries lf3 post), (dir_entries lf5 post). split_and!; try done; [by apply Hz'| | |apply dir_entries_records].
  - unfold entries_of. by rewrite (lc_dir _ _ _ _ _ _ _ Hloc), E1, E3.
  - unfold entries_of. rewrite Hr', E1. unfold new. by rewrite E4, E5.
Qed.
End rename.

(** ** A directory with a long name *)

Module RenameDemo.
Definition old_name : list Z := [97; 32; 108; 111; 110; 103; 32; 110; 97; 109; 101; 46; 116; 120; 116].
Definition new_name : list Z := [97; 110; 111; 116; 104; 101; 114; 32; 110; 97; 109; 101; 46; 116; 120; 116].
Definition de : dirent := take 32 FatDemo.root.
Definition run : list dirent := lfn_run 2 2 0 old_name.
Definition root : sector := concat run ++ de ++ replicate 416 0.
Definition disk : ramdisk :=
  Ramdisk 64 [] (λ l, if l =? 0 then FatDemo.boot else if l =? 1 then FatDemo.table else if l =? 2 then root else replicate 512 (l mod 256)).
Definition st0 : blk_state ramdisk unit := blk_cache_init tt (BlkState (λ _, Entry 0 [] true true true tt) disk).
Definition s0 : fs ramdisk unit := Fs FatDemo.m0 (fat32_journal_init tt FatDemo.j0) st0.
Definition post : list dirent := replicate 13 (replicate 32 0).
Definition loc : dirent_loc := Loc (pos_of FatDemo.m0 [2] 2) de [pos_of FatDemo.m0 [2] 0; pos_of FatDemo.m0 [2] 1].

Lemma r0_idle : idle 64 s0.
Proof.
  destruct (init_spec tt (BlkState (λ _, Entry 0 [] true true true tt) disk)) as [Hinv Hview]. split; [|reflexivity|].
  - split; [apply ReadyDemo.s0_volume|unfold LBA_MAX; lia|apply ram_registered| | | |reflexivity].
    + split; [exact Hinv| |split; [by_eval|reflexivity]]. intros i Hi Hv. exfalso.
      assert (∀ i, (i < 64)%nat → valid (cache st0 i) = false) as Hall by (intros j Hj; do 64 (destruct j as [|j]; [reflexivity|]); lia).
      rewrite Hall in Hv; [discriminate|exact Hi].
    + intros k Hk. cbn in Hk. assert (k = 0) as -> by lia. vm_compute. reflexivity.
    + split; cbn; (lia || reflexivity).
  - intros l. rewrite Hview. reflexivity.
Qed.

Lemma r0_sized : sized 64 s0.
Proof.
  intros l _. unfold sec. rewrite <- (id_sync _ _ r0_idle l).
  change (con (fm_dev (mnt s0)) (world (bs s0)) l) with (if l =? 0 then FatDemo.boot else if l =? 1 then FatDemo.table else if l =? 2 then root
    else replicate 512 (l mod 256)).
  destruct (l =? 0); [split; [reflexivity|by_eval]|]. destruct (l =? 1); [split; [reflexivity|by_eval]|]. destruct (l =? 2); [split; [reflexivity|by_eval]|].
  split; [apply length_replicate|]. apply Forall_replicate. apply Z.mod_pos_bound. lia.
Qed.

Lemma loc_ok : located s0 [2] [] run de post loc.
Proof. split; vm_compute; reflexivity. Qed.
End RenameDemo.

Lemma rename_in_place_correct_witness :
  ∃ s' nm rec es, rename_in_place MetaDemo.scr RenameDemo.loc 2 RenameDemo.new_name (name_to_short RenameDemo.new_name)
      (lfn_checksum (name_to_short RenameDemo.new_name)) RenameDemo.s0 = Some (0, s') ∧
    entries_of MetaDemo.scr s' [2] = (nm, rec) :: es ∧ nm = RenameDemo.new_name ∧ filesize rec = 700.
Proof.
  destruct (rename_in_place_correct 64 MetaDemo.scr 2 [2] [] RenameDemo.run RenameDemo.de RenameDemo.post RenameDemo.loc RenameDemo.new_name
    RenameDemo.s0 RenameDemo.r0_idle RenameDemo.r0_sized MetaDemo.root_good RenameDemo.loc_ok)
    as (s' & es1 & onm & nm & es2 & es2' & E & _ & _ & _ & _ & Ho & Hn & _ & _ & Hnm & _ & _ & Hs & _).
  - split; by_eval.
  - repeat constructor; by_eval.
  - vm_compute. lia.
  - by_eval.
  - intros e [=].
  - reflexivity.
  - split; [by_eval|by_eval|simpl; lia].
  - vm_compute. lia.
  - assert (length (entries_of MetaDemo.scr RenameDemo.s0 [2]) = 1%nat) as Hl by (vm_compute; reflexivity).
    rewrite Ho, length_app in Hl. destruct es1 as [|x es1]; [|simpl in Hl; lia]. change (Z.to_nat (fat_lfn_count RenameDemo.new_name)) with 2%nat in E.
    eexists s', nm, _, es2'. split; [exact E|]. split; [exact Hn|]. split; [apply Hnm; vm_compute; lia|]. rewrite Hs. vm_compute. reflexivity.
Defined.
