(* ===== verification/Ansi.v ===== *)
(** The tokenizer of ANSI escape sequences ([kernel/ansi.c]) that the VGA
    console and the framebuffer console share, and the scan of the parameters
    of a cursor position that both of them contain.

    A character is a value of the C type [char], a [Z] in [-128, 128). *)
From S2P Require Import Prelude.

Definition ANSI_SEQ_MAX : Z := 8.

Inductive token := ANSI_TEXT | ANSI_CONSUMED | ANSI_DONE.
#[global] Instance token_eq_dec : EqDecision token.
Proof. solve_decision. Defined.

(** [phase]: 0 in text, 1 after ESC, 2 after ESC[. *)
Record ansi_seq := AnsiSeq { phase : Z; len : Z; buf : Z → Z }.

Definition letter (c : Z) : bool := ((65 <=? c) && (c <=? 90)) || ((97 <=? c) && (c <=? 122)).
Definition digit (c : Z) : bool := (48 <=? c) && (c <=? 57).

Definition ansi_feed (c : Z) (s : ansi_seq) : token * ansi_seq :=
  if phase s =? 0 then
    if c =? 27 then (ANSI_CONSUMED, AnsiSeq 1 (len s) (buf s)) else (ANSI_TEXT, s)
  else if phase s =? 1 then
    (ANSI_CONSUMED, AnsiSeq (if c =? 91 then 2 else 0) (if c =? 91 then 0 else len s) (buf s))
  else
    let s := if len s <? ANSI_SEQ_MAX - 1 then AnsiSeq (phase s) (len s + 1) (<[len s := c]> (buf s)) else s in
    if letter c then (ANSI_DONE, AnsiSeq 0 (len s) (<[len s := 0]> (buf s)))
    else (ANSI_CONSUMED, s).

Definition ansi_map : list Z := [0; 4; 2; 6; 1; 5; 3; 7].
Definition ansi_color_index (code : Z) : Z := default 0 (ansi_map !! Z.to_nat (code - 30)).

(** ** Cursor positions

    [ESC\[row;colH]: the loop over the parameter bytes, then the choice of the
    row and the column it leaves. *)
Record pos_scan := PosScan { p_row : Z; p_num : Z; p_have : bool; p_semi : bool }.

Definition pos_step (c : Z) (p : pos_scan) : pos_scan :=
  if digit c then PosScan (p_row p) (p_num p * 10 + (c - 48)) true (p_semi p)
  else if c =? 59 then
    if p_have p then PosScan (p_num p) 0 false true else PosScan (p_row p) (p_num p) (p_have p) true
  else p.

Definition csi_position (b : Z → Z) (n : Z) : Z * Z :=
  let p := for_z (λ i, pos_step (b i)) 0 (n - 1) (PosScan 1 0 false false) in
  if p_semi p then (p_row p, if p_have p then p_num p else 1)
  else (if p_have p then p_num p else p_row p, 1).

(** Clamp of a 1-based coordinate into [0, n): the two tests of the source, in
    their order. *)
Definition clamp (n v : Z) : Z :=
  let v := v - 1 in
  let v := if v <? 0 then 0 else v in
  if n <=? v then n - 1 else v.

(** ** The tokenizer stays inside its buffer *)

Definition ansi_ok (s : ansi_seq) : Prop := 0 ≤ phase s ≤ 2 ∧ 0 ≤ len s ≤ ANSI_SEQ_MAX - 1.

Lemma ansi_feed_ok c s : ansi_ok s → ansi_ok (ansi_feed c s).2.
Proof.
  unfold ansi_ok, ansi_feed, ANSI_SEQ_MAX. intros [Hp Hl].
  repeat case_match; bool_split; simpl in *; split; simpl; lia.
Qed.

(** The bytes it stores, the terminator included, have an index below
    [ANSI_SEQ_MAX], and a finished sequence is not empty. *)
Lemma ansi_feed_inside c s i : ansi_ok s → ¬ 0 ≤ i < ANSI_SEQ_MAX →
  buf (ansi_feed c s).2 i = buf s i.
Proof.
  unfold ansi_ok, ansi_feed, ANSI_SEQ_MAX. intros [Hp Hl] Hi.
  repeat case_match; bool_split; simpl; rewrite ?fn_lookup_insert_ne by (simpl in *; lia); done.
Qed.

Lemma ansi_done_len c s : ansi_ok s → (ansi_feed c s).1 = ANSI_DONE →
  0 < len (ansi_feed c s).2 ≤ ANSI_SEQ_MAX - 1.
Proof.
  unfold ansi_ok, ansi_feed, ANSI_SEQ_MAX. intros [Hp Hl].
  repeat case_match; bool_split; simpl in *; intros; done || lia.
Qed.

(** ** Feeding strings *)

Definition ansi_feeds (l : list Z) (s : ansi_seq) : ansi_seq := foldl (λ s c, (ansi_feed c s).2) s l.

(** Inside a sequence, as many bytes as fit are stored one after the other. *)
Lemma feed_params l s :
  phase s = 2 → 0 ≤ len s → Forall (λ c, letter c = false) l →
  len s + Z.of_nat (length l) ≤ ANSI_SEQ_MAX - 1 →
  phase (ansi_feeds l s) = 2 ∧ len (ansi_feeds l s) = len s + Z.of_nat (length l) ∧
  (∀ i c, l !! i = Some c → buf (ansi_feeds l s) (len s + Z.of_nat i) = c) ∧
  (∀ k, k < len s → buf (ansi_feeds l s) k = buf s k).
Proof.
  revert s. induction l as [|c l IH]; intros s Hp Hl Hf Hn.
  { simpl. split_and!; [done|lia|done|done]. }
  apply Forall_cons in Hf as [Hc Hf]. simpl in Hn.
  change (ansi_feeds (c :: l) s) with (ansi_feeds l (ansi_feed c s).2).
  assert ((ansi_feed c s).2 = AnsiSeq 2 (len s + 1) (<[len s := c]> (buf s))) as ->.
  { unfold ansi_feed. rewrite Hp. simpl. rewrite (proj2 (Z.ltb_lt (len s) _)) by lia. by rewrite Hc. }
  edestruct (IH (AnsiSeq 2 (len s + 1) (<[len s := c]> (buf s)))) as (H1 & H2 & H3 & H4);
    simpl; [done|lia|done|lia|]. simpl in *.
  split_and!; [done|rewrite H2; lia| |].
  - intros [|i] x Hx; simpl in Hx.
    + injection Hx as ->. rewrite Z.add_0_r, H4 by lia. apply fn_lookup_insert.
    + rewrite <- (H3 i x Hx). f_equal. lia.
  - intros k Hk. rewrite H4 by lia. apply fn_lookup_insert_ne. lia.
Qed.
