(* ===== verification/Fb.v ===== *)
(** The framebuffer and its text console ([kernel/framebuffer.c]): pixels, the
    font, the palette, the console that draws characters, and the set-up that
    maps the device and starts it.

    Framebuffer memory is a function from byte offsets relative to [FB_VMA]. *)
From S2P Require Import Prelude Ansi Cstring Frames Vmm.

(** ** Tables *)

Definition font8x16 : list (list Z) :=
  [replicate 16 0;
   [0x00; 0x00; 0x18; 0x3C; 0x3C; 0x3C; 0x18; 0x18; 0x18; 0x00; 0x18; 0x18; 0x00; 0x00; 0x00; 0x00];
   [0x00; 0x66; 0x66; 0x66; 0x24; 0x00; 0x00; 0x00; 0x00; 0x00; 0x00; 0x00; 0x00; 0x00; 0x00; 0x00];
   [0x00; 0x00; 0x00; 0x6C; 0x6C; 0xFE; 0x6C; 0x6C; 0x6C; 0xFE; 0x6C; 0x6C; 0x00; 0x00; 0x00; 0x00];
   [0x18; 0x18; 0x7C; 0xC6; 0xC2; 0xC0; 0x7C; 0x06; 0x06; 0x86; 0xC6; 0x7C; 0x18; 0x18; 0x00; 0x00];
   [0x00; 0x00; 0x00; 0x00; 0xC2; 0xC6; 0x0C; 0x18; 0x30; 0x60; 0xC6; 0x86; 0x00; 0x00; 0x00; 0x00];
   [0x00; 0x00; 0x38; 0x6C; 0x6C; 0x38; 0x76; 0xDC; 0xCC; 0xCC; 0xCC; 0x76; 0x00; 0x00; 0x00; 0x00];
   [0x00; 0x00; 0x18; 0x18; 0x18; 0x00; 0x00; 0x00; 0x00; 0x00; 0x00; 0x00; 0x00; 0x00; 0x00; 0x00];
   [0x00; 0x00; 0x00; 0x0C; 0x18; 0x30; 0x30; 0x30; 0x30; 0x30; 0x18; 0x0C; 0x00; 0x00; 0x00; 0x00];
   [0x00; 0x00; 0x00; 0x30; 0x18; 0x0C; 0x0C; 0x0C; 0x0C; 0x0C; 0x18; 0x30; 0x00; 0x00; 0x00; 0x00];
   [0x00; 0x00; 0x00; 0x00; 0x00; 0x66; 0x3C; 0xFF; 0x3C; 0x66; 0x00; 0x00; 0x00; 0x00; 0x00; 0x00];
   [0x00; 0x00; 0x00; 0x00; 0x00; 0x18; 0x18; 0x7E; 0x18; 0x18; 0x00; 0x00; 0x00; 0x00; 0x00; 0x00];
   [0x00; 0x00; 0x00; 0x00; 0x00; 0x00; 0x00; 0x00; 0x00; 0x18; 0x18; 0x18; 0x30; 0x00; 0x00; 0x00];
   [0x00; 0x00; 0x00; 0x00; 0x00; 0x00; 0x00; 0xFE; 0x00; 0x00; 0x00; 0x00; 0x00; 0x00; 0x00; 0x00];
   [0x00; 0x00; 0x00; 0x00; 0x00; 0x00; 0x00; 0x00; 0x00; 0x00; 0x18; 0x18; 0x00; 0x00; 0x00; 0x00];
   [0x00; 0x00; 0x00; 0x00; 0x02; 0x06; 0x0C; 0x18; 0x30; 0x60; 0xC0; 0x80; 0x00; 0x00; 0x00; 0x00];
   [0x00; 0x00; 0x7C; 0xC6; 0xC6; 0xCE; 0xDE; 0xF6; 0xE6; 0xC6; 0xC6; 0x7C; 0x00; 0x00; 0x00; 0x00];
   [0x00; 0x00; 0x18; 0x38; 0x78; 0x18; 0x18; 0x18; 0x18; 0x18; 0x18; 0x7E; 0x00; 0x00; 0x00; 0x00];
   [0x00; 0x00; 0x7C; 0xC6; 0x06; 0x0C; 0x18; 0x30; 0x60; 0xC0; 0xC6; 0xFE; 0x00; 0x00; 0x00; 0x00];
   [0x00; 0x00; 0x7C; 0xC6; 0x06; 0x06; 0x3C; 0x06; 0x06; 0x06; 0xC6; 0x7C; 0x00; 0x00; 0x00; 0x00];
   [0x00; 0x00; 0x0C; 0x1C; 0x3C; 0x6C; 0xCC; 0xFE; 0x0C; 0x0C; 0x0C; 0x1E; 0x00; 0x00; 0x00; 0x00];
   [0x00; 0x00; 0xFE; 0xC0; 0xC0; 0xC0; 0xFC; 0x06; 0x06; 0x06; 0xC6; 0x7C; 0x00; 0x00; 0x00; 0x00];
   [0x00; 0x00; 0x38; 0x60; 0xC0; 0xC0; 0xFC; 0xC6; 0xC6; 0xC6; 0xC6; 0x7C; 0x00; 0x00; 0x00; 0x00];
   [0x00; 0x00; 0xFE; 0xC6; 0x06; 0x0C; 0x18; 0x30; 0x30; 0x30; 0x30; 0x30; 0x00; 0x00; 0x00; 0x00];
   [0x00; 0x00; 0x7C; 0xC6; 0xC6; 0xC6; 0x7C; 0xC6; 0xC6; 0xC6; 0xC6; 0x7C; 0x00; 0x00; 0x00; 0x00];
   [0x00; 0x00; 0x7C; 0xC6; 0xC6; 0xC6; 0x7E; 0x06; 0x06; 0x06; 0x0C; 0x78; 0x00; 0x00; 0x00; 0x00];
   [0x00; 0x00; 0x00; 0x00; 0x18; 0x18; 0x00; 0x00; 0x00; 0x18; 0x18; 0x00; 0x00; 0x00; 0x00; 0x00];
   [0x00; 0x00; 0x00; 0x00; 0x18; 0x18; 0x00; 0x00; 0x00; 0x18; 0x18; 0x30; 0x00; 0x00; 0x00; 0x00];
   [0x00; 0x00; 0x00; 0x0C; 0x18; 0x30; 0x60; 0xC0; 0x60; 0x30; 0x18; 0x0C; 0x00; 0x00; 0x00; 0x00];
   [0x00; 0x00; 0x00; 0x00; 0x00; 0x7E; 0x00; 0x00; 0x7E; 0x00; 0x00; 0x00; 0x00; 0x00; 0x00; 0x00];
   [0x00; 0x00; 0x00; 0x60; 0x30; 0x18; 0x0C; 0x06; 0x0C; 0x18; 0x30; 0x60; 0x00; 0x00; 0x00; 0x00];
   [0x00; 0x00; 0x7C; 0xC6; 0xC6; 0x0C; 0x18; 0x18; 0x18; 0x00; 0x18; 0x18; 0x00; 0x00; 0x00; 0x00];
   [0x00; 0x00; 0x00; 0x7C; 0xC6; 0xC6; 0xDE; 0xDE; 0xDE; 0xDC; 0xC0; 0x7C; 0x00; 0x00; 0x00; 0x00];
   [0x00; 0x00; 0x10; 0x38; 0x6C; 0xC6; 0xC6; 0xFE; 0xC6; 0xC6; 0xC6; 0xC6; 0x00; 0x00; 0x00; 0x00];
   [0x00; 0x00; 0xFC; 0x66; 0x66; 0x66; 0x7C; 0x66; 0x66; 0x66; 0x66; 0xFC; 0x00; 0x00; 0x00; 0x00];
   [0x00; 0x00; 0x3C; 0x66; 0xC2; 0xC0; 0xC0; 0xC0; 0xC0; 0xC2; 0x66; 0x3C; 0x00; 0x00; 0x00; 0x00];
   [0x00; 0x00; 0xF8; 0x6C; 0x66; 0x66; 0x66; 0x66; 0x66; 0x66; 0x6C; 0xF8; 0x00; 0x00; 0x00; 0x00];
   [0x00; 0x00; 0xFE; 0x66; 0x62; 0x68; 0x78; 0x68; 0x60; 0x62; 0x66; 0xFE; 0x00; 0x00; 0x00; 0x00];
   [0x00; 0x00; 0xFE; 0x66; 0x62; 0x68; 0x78; 0x68; 0x60; 0x60; 0x60; 0xF0; 0x00; 0x00; 0x00; 0x00];
   [0x00; 0x00; 0x3C; 0x66; 0xC2; 0xC0; 0xC0; 0xDE; 0xC6; 0xC6; 0x66; 0x3A; 0x00; 0x00; 0x00; 0x00];
   [0x00; 0x00; 0xC6; 0xC6; 0xC6; 0xC6; 0xFE; 0xC6; 0xC6; 0xC6; 0xC6; 0xC6; 0x00; 0x00; 0x00; 0x00];
   [0x00; 0x00; 0x3C; 0x18; 0x18; 0x18; 0x18; 0x18; 0x18; 0x18; 0x18; 0x3C; 0x00; 0x00; 0x00; 0x00];
   [0x00; 0x00; 0x1E; 0x0C; 0x0C; 0x0C; 0x0C; 0x0C; 0xCC; 0xCC; 0xCC; 0x78; 0x00; 0x00; 0x00; 0x00];
   [0x00; 0x00; 0xE6; 0x66; 0x6C; 0x78; 0x70; 0x78; 0x6C; 0x66; 0x66; 0xE6; 0x00; 0x00; 0x00; 0x00];
   [0x00; 0x00; 0xF0; 0x60; 0x60; 0x60; 0x60; 0x60; 0x60; 0x62; 0x66; 0xFE; 0x00; 0x00; 0x00; 0x00];
   [0x00; 0x00; 0xC6; 0xEE; 0xFE; 0xFE; 0xD6; 0xC6; 0xC6; 0xC6; 0xC6; 0xC6; 0x00; 0x00; 0x00; 0x00];
   [0x00; 0x00; 0xC6; 0xE6; 0xF6; 0xFE; 0xDE; 0xCE; 0xC6; 0xC6; 0xC6; 0xC6; 0x00; 0x00; 0x00; 0x00];
   [0x00; 0x00; 0x7C; 0xC6; 0xC6; 0xC6; 0xC6; 0xC6; 0xC6; 0xC6; 0xC6; 0x7C; 0x00; 0x00; 0x00; 0x00];
   [0x00; 0x00; 0xFC; 0x66; 0x66; 0x66; 0x7C; 0x60; 0x60; 0x60; 0x60; 0xF0; 0x00; 0x00; 0x00; 0x00];
   [0x00; 0x00; 0x7C; 0xC6; 0xC6; 0xC6; 0xC6; 0xC6; 0xC6; 0xD6; 0xDE; 0x7C; 0x0C; 0x0E; 0x00; 0x00];
   [0x00; 0x00; 0xFC; 0x66; 0x66; 0x66; 0x7C; 0x6C; 0x66; 0x66; 0x66; 0xE6; 0x00; 0x00; 0x00; 0x00];
   [0x00; 0x00; 0x7C; 0xC6; 0xC6; 0x60; 0x38; 0x0C; 0x06; 0xC6; 0xC6; 0x7C; 0x00; 0x00; 0x00; 0x00];
   [0x00; 0x00; 0xFF; 0xDB; 0x99; 0x18; 0x18; 0x18; 0x18; 0x18; 0x18; 0x3C; 0x00; 0x00; 0x00; 0x00];
   [0x00; 0x00; 0xC6; 0xC6; 0xC6; 0xC6; 0xC6; 0xC6; 0xC6; 0xC6; 0xC6; 0x7C; 0x00; 0x00; 0x00; 0x00];
   [0x00; 0x00; 0xC6; 0xC6; 0xC6; 0xC6; 0xC6; 0xC6; 0xC6; 0x6C; 0x38; 0x10; 0x00; 0x00; 0x00; 0x00];
   [0x00; 0x00; 0xC6; 0xC6; 0xC6; 0xC6; 0xD6; 0xD6; 0xD6; 0xFE; 0xEE; 0x6C; 0x00; 0x00; 0x00; 0x00];
   [0x00; 0x00; 0xC6; 0xC6; 0x6C; 0x7C; 0x38; 0x38; 0x7C; 0x6C; 0xC6; 0xC6; 0x00; 0x00; 0x00; 0x00];
   [0x00; 0x00; 0xC6; 0xC6; 0xC6; 0x6C; 0x38; 0x18; 0x18; 0x18; 0x18; 0x3C; 0x00; 0x00; 0x00; 0x00];
   [0x00; 0x00; 0xFE; 0xC6; 0x86; 0x0C; 0x18; 0x30; 0x60; 0xC2; 0xC6; 0xFE; 0x00; 0x00; 0x00; 0x00];
   [0x00; 0x00; 0x3C; 0x30; 0x30; 0x30; 0x30; 0x30; 0x30; 0x30; 0x30; 0x3C; 0x00; 0x00; 0x00; 0x00];
   [0x00; 0x00; 0x00; 0x80; 0xC0; 0x60; 0x30; 0x18; 0x0C; 0x06; 0x02; 0x00; 0x00; 0x00; 0x00; 0x00];
   [0x00; 0x00; 0x3C; 0x0C; 0x0C; 0x0C; 0x0C; 0x0C; 0x0C; 0x0C; 0x0C; 0x3C; 0x00; 0x00; 0x00; 0x00];
   [0x10; 0x38; 0x6C; 0xC6; 0x00; 0x00; 0x00; 0x00; 0x00; 0x00; 0x00; 0x00; 0x00; 0x00; 0x00; 0x00];
   [0x00; 0x00; 0x00; 0x00; 0x00; 0x00; 0x00; 0x00; 0x00; 0x00; 0x00; 0x00; 0xFF; 0x00; 0x00; 0x00];
   [0x00; 0x00; 0x00; 0x00; 0x00; 0x00; 0x00; 0x00; 0x00; 0x18; 0x18; 0x00; 0x00; 0x00; 0x00; 0x00];
   [0x00; 0x00; 0x00; 0x00; 0x00; 0x78; 0x0C; 0x7C; 0xCC; 0xCC; 0xCC; 0x76; 0x00; 0x00; 0x00; 0x00];
   [0x00; 0x00; 0xE0; 0x60; 0x60; 0x78; 0x6C; 0x66; 0x66; 0x66; 0x66; 0x7C; 0x00; 0x00; 0x00; 0x00];
   [0x00; 0x00; 0x00; 0x00; 0x00; 0x7C; 0xC6; 0xC0; 0xC0; 0xC0; 0xC6; 0x7C; 0x00; 0x00; 0x00; 0x00];
   [0x00; 0x00; 0x1C; 0x0C; 0x0C; 0x3C; 0x6C; 0xCC; 0xCC; 0xCC; 0xCC; 0x76; 0x00; 0x00; 0x00; 0x00];
   [0x00; 0x00; 0x00; 0x00; 0x00; 0x7C; 0xC6; 0xFE; 0xC0; 0xC0; 0xC6; 0x7C; 0x00; 0x00; 0x00; 0x00];
   [0x00; 0x00; 0x1C; 0x36; 0x32; 0x30; 0x78; 0x30; 0x30; 0x30; 0x30; 0x78; 0x00; 0x00; 0x00; 0x00];
   [0x00; 0x00; 0x00; 0x00; 0x00; 0x76; 0xCC; 0xCC; 0xCC; 0xCC; 0xCC; 0x7C; 0x0C; 0xCC; 0x78; 0x00];
   [0x00; 0x00; 0xE0; 0x60; 0x60; 0x6C; 0x76; 0x66; 0x66; 0x66; 0x66; 0xE6; 0x00; 0x00; 0x00; 0x00];
   [0x00; 0x00; 0x18; 0x18; 0x00; 0x38; 0x18; 0x18; 0x18; 0x18; 0x18; 0x3C; 0x00; 0x00; 0x00; 0x00];
   [0x00; 0x00; 0x06; 0x06; 0x00; 0x0E; 0x06; 0x06; 0x06; 0x06; 0x06; 0x06; 0x66; 0x66; 0x3C; 0x00];
   [0x00; 0x00; 0xE0; 0x60; 0x60; 0x66; 0x6C; 0x78; 0x78; 0x6C; 0x66; 0xE6; 0x00; 0x00; 0x00; 0x00];
   [0x00; 0x00; 0x38; 0x18; 0x18; 0x18; 0x18; 0x18; 0x18; 0x18; 0x18; 0x3C; 0x00; 0x00; 0x00; 0x00];
   [0x00; 0x00; 0x00; 0x00; 0x00; 0xEC; 0xFE; 0xD6; 0xD6; 0xD6; 0xD6; 0xC6; 0x00; 0x00; 0x00; 0x00];
   [0x00; 0x00; 0x00; 0x00; 0x00; 0xDC; 0x66; 0x66; 0x66; 0x66; 0x66; 0x66; 0x00; 0x00; 0x00; 0x00];
   [0x00; 0x00; 0x00; 0x00; 0x00; 0x7C; 0xC6; 0xC6; 0xC6; 0xC6; 0xC6; 0x7C; 0x00; 0x00; 0x00; 0x00];
   [0x00; 0x00; 0x00; 0x00; 0x00; 0xDC; 0x66; 0x66; 0x66; 0x66; 0x66; 0x7C; 0x60; 0x60; 0xF0; 0x00];
   [0x00; 0x00; 0x00; 0x00; 0x00; 0x76; 0xCC; 0xCC; 0xCC; 0xCC; 0xCC; 0x7C; 0x0C; 0x0C; 0x1E; 0x00];
   [0x00; 0x00; 0x00; 0x00; 0x00; 0xDC; 0x76; 0x66; 0x60; 0x60; 0x60; 0xF0; 0x00; 0x00; 0x00; 0x00];
   [0x00; 0x00; 0x00; 0x00; 0x00; 0x7C; 0xC6; 0x60; 0x38; 0x0C; 0xC6; 0x7C; 0x00; 0x00; 0x00; 0x00];
   [0x00; 0x00; 0x10; 0x30; 0x30; 0xFC; 0x30; 0x30; 0x30; 0x30; 0x36; 0x1C; 0x00; 0x00; 0x00; 0x00];
   [0x00; 0x00; 0x00; 0x00; 0x00; 0xCC; 0xCC; 0xCC; 0xCC; 0xCC; 0xCC; 0x76; 0x00; 0x00; 0x00; 0x00];
   [0x00; 0x00; 0x00; 0x00; 0x00; 0xC6; 0xC6; 0xC6; 0xC6; 0xC6; 0x6C; 0x38; 0x00; 0x00; 0x00; 0x00];
   [0x00; 0x00; 0x00; 0x00; 0x00; 0xC6; 0xC6; 0xD6; 0xD6; 0xD6; 0xFE; 0x6C; 0x00; 0x00; 0x00; 0x00];
   [0x00; 0x00; 0x00; 0x00; 0x00; 0xC6; 0x6C; 0x38; 0x38; 0x38; 0x6C; 0xC6; 0x00; 0x00; 0x00; 0x00];
   [0x00; 0x00; 0x00; 0x00; 0x00; 0xC6; 0xC6; 0xC6; 0xC6; 0xC6; 0xC6; 0x7E; 0x06; 0x0C; 0xF8; 0x00];
   [0x00; 0x00; 0x00; 0x00; 0x00; 0xFE; 0xCC; 0x18; 0x30; 0x60; 0xC6; 0xFE; 0x00; 0x00; 0x00; 0x00];
   [0x00; 0x00; 0x0E; 0x18; 0x18; 0x18; 0x70; 0x18; 0x18; 0x18; 0x18; 0x0E; 0x00; 0x00; 0x00; 0x00];
   [0x00; 0x00; 0x18; 0x18; 0x18; 0x18; 0x00; 0x18; 0x18; 0x18; 0x18; 0x18; 0x00; 0x00; 0x00; 0x00];
   [0x00; 0x00; 0x70; 0x18; 0x18; 0x18; 0x0E; 0x18; 0x18; 0x18; 0x18; 0x70; 0x00; 0x00; 0x00; 0x00];
   [0x00; 0x00; 0x76; 0xDC; 0x00; 0x00; 0x00; 0x00; 0x00; 0x00; 0x00; 0x00; 0x00; 0x00; 0x00; 0x00]].

Definition palette16 : list (list Z) :=
  [[0x00; 0x00; 0x00]; [0x00; 0x00; 0xAA]; [0x00; 0xAA; 0x00]; [0x00; 0xAA; 0xAA];
   [0xAA; 0x00; 0x00]; [0xAA; 0x00; 0xAA]; [0xAA; 0x55; 0x00]; [0xAA; 0xAA; 0xAA];
   [0x55; 0x55; 0x55]; [0x55; 0x55; 0xFF]; [0x55; 0xFF; 0x55]; [0x55; 0xFF; 0xFF];
   [0xFF; 0x55; 0x55]; [0xFF; 0x55; 0xFF]; [0xFF; 0xFF; 0x55]; [0xFF; 0xFF; 0xFF]].
Definition pal16 (i k : Z) : Z := default 0 (default [] (palette16 !! Z.to_nat i) !! Z.to_nat k).

Definition FB_VMA : Z := 0xffffffff8d000000.
Definition PG_PCD : Z := 0x10.
Definition FB_CLR_BLACK : Z := 0.
Definition FB_CLR_LGREY : Z := 7.
Definition FB_CLR_WHITE : Z := 15.

(** ** State *)

(** The mode: resolution, scan line length, depth and channel layout. *)
Record fb_mode := FbMode {
  fb_width : Z; fb_height : Z; fb_pitch : Z; fb_bpp : Z; fb_pxsz : Z;
  fb_r_pos : Z; fb_r_size : Z; fb_g_pos : Z; fb_g_size : Z; fb_b_pos : Z; fb_b_size : Z }.

(** [fb_on] says whether [fb_ptr] is set. *)
Record fb := Fb {
  fmode : fb_mode;
  fb_on : bool;
  fb_pal : Z → Z;
  fbmem : mem;
  fb_active : bool;
  fbc_cols : Z; fbc_rows : Z;
  fbc_row : Z; fbc_col : Z;
  fbc_fg : Z; fbc_bg : Z;
  fbc_ansi : ansi_seq }.

Definition set_fbmem (m : mem) (f : fb) : fb :=
  Fb (fmode f) (fb_on f) (fb_pal f) m (fb_active f) (fbc_cols f) (fbc_rows f)
     (fbc_row f) (fbc_col f) (fbc_fg f) (fbc_bg f) (fbc_ansi f).
Definition set_cursor (r c : Z) (f : fb) : fb :=
  Fb (fmode f) (fb_on f) (fb_pal f) (fbmem f) (fb_active f) (fbc_cols f) (fbc_rows f)
     r c (fbc_fg f) (fbc_bg f) (fbc_ansi f).
Definition set_colors (fg bg : Z) (f : fb) : fb :=
  Fb (fmode f) (fb_on f) (fb_pal f) (fbmem f) (fb_active f) (fbc_cols f) (fbc_rows f)
     (fbc_row f) (fbc_col f) fg bg (fbc_ansi f).
Definition set_ansi (a : ansi_seq) (f : fb) : fb :=
  Fb (fmode f) (fb_on f) (fb_pal f) (fbmem f) (fb_active f) (fbc_cols f) (fbc_rows f)
     (fbc_row f) (fbc_col f) (fbc_fg f) (fbc_bg f) a.

(** ** Pixels *)

Definition fb_pack (g : fb_mode) (r gr b : Z) : Z :=
  let chan v size pos px :=
    if size =? 0 then px
    else Z.lor px (u32 (Z.shiftl (Z.land (Z.shiftr v (8 - size)) (Z.shiftl 1 size - 1)) pos)) in
  chan b (fb_b_size g) (fb_b_pos g) (chan gr (fb_g_size g) (fb_g_pos g) (chan r (fb_r_size g) (fb_r_pos g) 0)).

(** The colour cube: [(v ? v * 40 + 55 : 0)]. *)
Definition cube (v : Z) : Z := if v =? 0 then 0 else v * 40 + 55.

Definition fb_palette (g : fb_mode) (i : Z) : Z :=
  if i <? 16 then fb_pack g (pal16 i 0) (pal16 i 1) (pal16 i 2)
  else if i <? 232 then
    let n := i - 16 in fb_pack g (u8 (cube (n / 36))) (u8 (cube (n / 6 mod 6))) (u8 (cube (n mod 6)))
  else let v := u8 (8 + (i - 232) * 10) in fb_pack g v v v.

(** The port writes that program the DAC of an indexed mode. *)
Definition dac_writes : list (Z * Z) :=
  [(0x3C8, 0)] ++
  (palette16 ≫= λ e, (λ v, (0x3C9, Z.shiftr v 2)) <$> e) ++
  [(0x3C8, 16)] ++
  (seqZ 0 6 ≫= λ r, seqZ 0 6 ≫= λ g, seqZ 0 6 ≫= λ b, (λ v, (0x3C9, Z.shiftr (cube v) 2)) <$> [r; g; b]) ++
  [(0x3C8, 232)] ++
  (seqZ 0 24 ≫= λ i, let v := u8 (8 + i * 10) in replicate 3 (0x3C9, Z.shiftr v 2)).

(** The palette of the mode (an array of 256 packed pixels) and what is sent
    to the ports. *)
Definition fb_setup_palette (f : fb) : fb * list (Z * Z) :=
  (Fb (fmode f) (fb_on f) (λ i, if (0 <=? i) && (i <? 256) then fb_palette (fmode f) i else fb_pal f i)
      (fbmem f) (fb_active f) (fbc_cols f) (fbc_rows f) (fbc_row f) (fbc_col f) (fbc_fg f) (fbc_bg f) (fbc_ansi f),
   if fb_pxsz (fmode f) =? 1 then dac_writes else []).

(** The [n] low bytes of [v], in memory order. *)
Definition store_px (n dst v : Z) (m : mem) : mem :=
  for_z (λ i, <[dst + i := u8 (Z.shiftr v (8 * i))]>) 0 n m.

Definition fb_store (g : fb_mode) (dst px : Z) (m : mem) : mem :=
  if fb_pxsz g =? 4 then store_px 4 dst px m
  else if fb_pxsz g =? 2 then store_px 2 dst (u16 px) m
  else store_px (fb_pxsz g) dst px m.

Definition px_addr (g : fb_mode) (x y : Z) : Z := y * fb_pitch g + x * fb_pxsz g.

Definition fb_put_pixel (x y color : Z) (f : fb) : fb :=
  let g := fmode f in
  if (fb_width g <=? x) || (fb_height g <=? y) || negb (fb_on f) then f else
  let dst := px_addr g x y in
  if fb_pxsz g =? 1 then set_fbmem (<[dst := color]> (fbmem f)) f
  else set_fbmem (fb_store g dst (fb_pal f color) (fbmem f)) f.

Definition fb_clear (color : Z) (f : fb) : fb :=
  let g := fmode f in
  if negb (fb_on f) then f
  else if fb_pxsz g =? 1 then
    set_fbmem (memset 0 color (Z.to_nat (fb_pitch g * fb_height g)) (fbmem f)) f
  else
    set_fbmem (for_z (λ y, for_z (λ x, fb_store g (px_addr g x y) (fb_pal f color)) 0 (fb_width g))
                 0 (fb_height g) (fbmem f)) f.

Definition fb_fill_rect (x y w h color : Z) (f : fb) : fb :=
  let g := fmode f in
  if negb (fb_on f) then f else
  let px := fb_pal f color in
  set_fbmem
    (for_z (λ row,
       for_z (λ col m,
         let dst := px_addr g col row in
         if fb_pxsz g =? 1 then <[dst := color]> m else fb_store g dst px m)
         x (Z.min (u32 (x + w)) (fb_width g)))
       y (Z.min (u32 (y + h)) (fb_height g)) (fbmem f)) f.

(** A character outside the font is blank. *)
Definition glyph (ch : Z) : list Z :=
  let idx := u8 ch - 0x20 in
  let idx := if (idx <? 0) || (94 <? idx) then 0 else idx in
  default [] (font8x16 !! Z.to_nat idx).
Definition glyph_bit (ch row col : Z) : bool :=
  negb (Z.land (default 0 (glyph ch !! Z.to_nat row)) (Z.shiftr 0x80 col) =? 0).

Definition fb_draw_char (x y ch fg bg : Z) (f : fb) : fb :=
  if negb (fb_on f) then f else
  for_z (λ row, for_z (λ col,
    fb_put_pixel (u32 (x + col)) (u32 (y + row)) (if glyph_bit ch row col then fg else bg)) 0 8) 0 16 f.

Fixpoint fb_puts (x y : Z) (s : list Z) (fg bg : Z) (f : fb) : fb :=
  match s with
  | [] => f
  | c :: s' => fb_puts (u32 (x + 8)) y s' fg bg (fb_draw_char x y c fg bg f)
  end.

(** ** The text console *)

Definition fbc_cursor (show : bool) (f : fb) : fb :=
  if negb (fb_on f) then f else
  let c := if show then FB_CLR_LGREY else fbc_bg f in
  for_z (λ dy, for_z (λ dx, fb_put_pixel (u32 (fbc_col f * 8 + dx)) (u32 (fbc_row f * 16 + dy)) c) 0 8) 14 16 f.

(** One parameter of [ESC\[...m]. *)
Definition fbc_sgr (num : Z) (f : fb) : fb :=
  if num =? 0 then set_colors FB_CLR_LGREY FB_CLR_BLACK f
  else if (30 <=? num) && (num <=? 37) then set_colors (ansi_color_index num) (fbc_bg f) f
  else if (40 <=? num) && (num <=? 47) then set_colors (fbc_fg f) (ansi_color_index (num - 10)) f
  else if num =? 1 then set_colors FB_CLR_WHITE (fbc_bg f) f
  else f.

Definition fbc_sgr_step (b : Z → Z) (n i : Z) (a : Z * bool * fb) : Z * bool * fb :=
  let '(num, have, f) := a in
  if digit (b i) then (num * 10 + (b i - 48), true, f)
  else if ((b i =? 59) || (i =? n - 1)) && have then (0, false, fbc_sgr num f)
  else (num, have, f).

Definition fbc_esc_process (b : Z → Z) (n : Z) (f : fb) : fb :=
  let last := b (n - 1) in
  if last =? 74 then
    if (2 <=? n) && (b 0 =? 50) then set_cursor 0 0 (fb_clear (fbc_bg f) f) else f
  else if last =? 72 then
    let '(row, col) := csi_position b n in set_cursor (clamp (fbc_rows f) row) (clamp (fbc_cols f) col) f
  else if last =? 109 then
    if n =? 1 then set_colors FB_CLR_LGREY FB_CLR_BLACK f
    else (for_z (fbc_sgr_step b n) 0 n (0, false, f)).2
  else f.

Definition fbc_scroll (f : fb) : fb :=
  let g := fmode f in
  let row_bytes := u32 (fb_pitch g * 16) in
  let m := for_z (λ r, memcpy (r * row_bytes) ((r + 1) * row_bytes) (Z.to_nat row_bytes))
             0 (fbc_rows f - 1) (fbmem f) in
  fb_fill_rect 0 (u32 ((fbc_rows f - 1) * 16)) (fb_width g) 16 (fbc_bg f) (set_fbmem m f).

(** [if (++fbc_row >= fbc_rows) { fbc_scroll(); fbc_row--; }] with the column
    back at 0. *)
Definition fbc_newline (f : fb) : fb :=
  let f := set_cursor (fbc_row f + 1) 0 f in
  if fbc_rows f <=? fbc_row f then let f := fbc_scroll f in set_cursor (fbc_row f - 1) (fbc_col f) f else f.

Definition fbc_draw (c : Z) (f : fb) : fb :=
  fb_draw_char (u32 (fbc_col f * 8)) (u32 (fbc_row f * 16)) c (fbc_fg f) (fbc_bg f) f.

Definition fbc_render (c : Z) (f : fb) : fb :=
  if c =? 10 then fbc_newline f
  else if c =? 13 then f
  else if c =? 9 then
    let f := set_cursor (fbc_row f) ((Z.quot (fbc_col f) 8 + 1) * 8) f in
    if fbc_cols f <=? fbc_col f then fbc_newline f else f
  else if c =? 8 then
    if 0 <? fbc_col f then fbc_draw 32 (set_cursor (fbc_row f) (fbc_col f - 1) f) else f
  else if (0x20 <=? c) && (c <=? 0x7E) then
    let f := fbc_draw c f in
    let f := set_cursor (fbc_row f) (fbc_col f + 1) f in
    if fbc_cols f <=? fbc_col f then fbc_newline f else f
  else f.

Definition fb_console_putc (c : Z) (f : fb) : fb :=
  if negb (fb_active f) then f else
  let '(r, a) := ansi_feed c (fbc_ansi f) in
  let f := set_ansi a f in
  match r with
  | ANSI_CONSUMED => if phase a =? 1 then fbc_cursor false f else f
  | ANSI_DONE => fbc_cursor true (fbc_esc_process (buf a) (len a) f)
  | ANSI_TEXT => fbc_cursor true (fbc_render c (fbc_cursor false f))
  end.

(** The console starts on a clear screen and replays the [n] characters the
    console ring holds, [get i] being the [i]-th. *)
Definition fb_console_init (n : Z) (get : Z → Z) (f : fb) : fb :=
  let f := Fb (fmode f) (fb_on f) (fb_pal f) (fbmem f) (fb_active f)
              (fb_width (fmode f) / 8) (fb_height (fmode f) / 16) 0 0 (fbc_fg f) (fbc_bg f) (fbc_ansi f) in
  let f := fb_clear (fbc_bg f) f in
  let f := Fb (fmode f) (fb_on f) (fb_pal f) (fbmem f) true (fbc_cols f) (fbc_rows f)
              (fbc_row f) (fbc_col f) (fbc_fg f) (fbc_bg f) (fbc_ansi f) in
  for_z (λ i, fb_console_putc (get i)) 0 n f.

(** ** Set-up *)

Record fb_info := FbInfo {
  phys_addr : Z; i_width : Z; i_height : Z; i_pitch : Z; i_bpp : Z; i_ok : bool;
  i_r_pos : Z; i_r_size : Z; i_g_pos : Z; i_g_size : Z; i_b_pos : Z; i_b_size : Z }.

Definition fb_invalid (i : fb_info) : bool :=
  (i_width i =? 0) || (i_height i =? 0) || (i_pitch i =? 0) || (8192 <? i_width i) || (8192 <? i_height i) ||
  (negb (i_bpp i =? 8) && negb (i_bpp i =? 15) && negb (i_bpp i =? 16) &&
   negb (i_bpp i =? 24) && negb (i_bpp i =? 32)).

(** The mode of the descriptor, with a layout for loaders that give none; the
    scan line length stays what it was. *)
Definition fb_layout (i : fb_info) (old_pitch : Z) : fb_mode :=
  let mk := FbMode (i_width i) (i_height i) old_pitch (i_bpp i) ((i_bpp i + 7) / 8) in
  if (i_r_size i =? 0) && (i_g_size i =? 0) && (i_b_size i =? 0) then
    if i_bpp i =? 15 then mk 10 5 5 5 0 5
    else if i_bpp i =? 16 then mk 11 5 5 6 0 5
    else if 24 <=? i_bpp i then mk 16 8 8 8 0 8
    else mk (i_r_pos i) (i_r_size i) (i_g_pos i) (i_g_size i) (i_b_pos i) (i_b_size i)
  else mk (i_r_pos i) (i_r_size i) (i_g_pos i) (i_g_size i) (i_b_pos i) (i_b_size i).

Definition bad_layout (g : fb_mode) : bool :=
  (8 <? fb_r_size g) || (8 <? fb_g_size g) || (8 <? fb_b_size g) ||
  (31 <? fb_r_pos g) || (31 <? fb_g_pos g) || (31 <? fb_b_pos g).

Definition set_mode (g : fb_mode) (on : bool) (f : fb) : fb :=
  Fb g on (fb_pal f) (fbmem f) (fb_active f) (fbc_cols f) (fbc_rows f)
     (fbc_row f) (fbc_col f) (fbc_fg f) (fbc_bg f) (fbc_ansi f).
Definition set_pitch (p : Z) (g : fb_mode) : fb_mode :=
  FbMode (fb_width g) (fb_height g) p (fb_bpp g) (fb_pxsz g)
    (fb_r_pos g) (fb_r_size g) (fb_g_pos g) (fb_g_size g) (fb_b_pos g) (fb_b_size g).

Section setup.
Context {S : Type} `{Frames S}.
(** The registers of the Bochs display device, by index. *)
Context {D : Type} (dispi_read : Z → D → Z) (dispi_write : Z → Z → D → D).

Definition vbe_sync_mode (g : fb_mode) (d : D) : Z * D :=
  let id := dispi_read 0 d in
  if negb (id =? 0xB0C5) && negb (id =? 0xB0C8) then (0, d) else
  let w := dispi_read 1 d in
  let h := dispi_read 2 d in
  let bpp := dispi_read 3 d in
  let en := dispi_read 4 d in
  let virt := dispi_read 6 d in
  if negb (Z.land en 3 =? 0) && (w =? fb_width g) && (h =? fb_height g) && (bpp =? fb_bpp g) then
    (u32 ((if virt =? 0 then w else virt) * bpp) / 8, d)
  else
    let d := dispi_write 4 0 d in
    let d := dispi_write 1 (u16 (fb_width g)) d in
    let d := dispi_write 2 (u16 (fb_height g)) d in
    let d := dispi_write 3 (u16 (fb_bpp g)) d in
    let d := dispi_write 4 3 d in
    let virt := dispi_read 6 d in
    (u32 ((if virt =? 0 then fb_width g else virt) * fb_bpp g) / 8, d).

(** The pages of the device, one mapping each. *)
Definition fb_map (pa size : Z) (s : S) : outcome S :=
  for_loop_o (λ k, vmm_map_kernel_page (u64 (FB_VMA + Z.of_nat k * PAGE_SIZE)) (u64 (pa + Z.of_nat k * PAGE_SIZE)) PG_PCD)
    0 (Z.to_nat ((size + PAGE_SIZE - 1) / PAGE_SIZE)) s.

(** [n] and [get] are the console ring that [fb_console_init] replays. *)
Definition fb_init (i : fb_info) (n : Z) (get : Z → Z) (f : fb) (d : D) (s : S) :
    outcome (fb * list (Z * Z) * D * S) :=
  if negb (i_ok i) || (phys_addr i =? 0) then Ret (f, [], d, s) else
  if fb_invalid i then Ret (f, [], d, s) else
  let g := fb_layout i (fb_pitch (fmode f)) in
  let f := set_mode g (fb_on f) f in
  if bad_layout g then Ret (f, [], d, s) else
  if i_pitch i <? u32 (fb_width g * fb_pxsz g) then Ret (f, [], d, s) else
  let '(dispi_pitch, d) := vbe_sync_mode g d in
  let pitch := if negb (dispi_pitch =? 0) && (u32 (fb_width g * fb_pxsz g) <=? dispi_pitch) &&
                  negb (dispi_pitch =? i_pitch i) then dispi_pitch else i_pitch i in
  let g := set_pitch pitch g in
  s ← fb_map (phys_addr i) (pitch * fb_height g) s;
  let '(f, ports) := fb_setup_palette (set_mode g true f) in
  Ret (fb_console_init n get f, ports, d, s).
End setup.
