(* ===== verification/FbFacts.v ===== *)
(** What the framebuffer shows ([kernel/framebuffer.c]): every store stays
    inside the mapped device, the drawing operations are overlays on the
    pixels of the screen, and the console on top of them is a text terminal. *)
From S2P Require Import Prelude Pmm PmmFacts PmmInit Frames Ansi Cstring Vmm VmmFacts VmmLife Fb.

(** ** Pixels *)

(** A mode [fb_init] accepts: the visible part of a scan line fits in it. *)
Record mode_ok (g : fb_mode) : Prop := {
  mo_width : 0 < fb_width g ≤ 8192;
  mo_height : 0 < fb_height g ≤ 8192;
  mo_pxsz : 1 ≤ fb_pxsz g ≤ 4;
  mo_pitch : fb_width g * fb_pxsz g ≤ fb_pitch g < 2 ^ 28 }.

Definition on_screen (g : fb_mode) (x y : Z) : Prop := 0 ≤ x < fb_width g ∧ 0 ≤ y < fb_height g.
#[global] Instance on_screen_dec g x y : Decision (on_screen g x y).
Proof. unfold on_screen. apply _. Defined.

(** The bytes the device shows at a pixel, and those of a colour. *)
Definition pixel (f : fb) (x y : Z) : list Z :=
  (λ i, fbmem f (px_addr (fmode f) x y + i)) <$> seqZ 0 (fb_pxsz (fmode f)).
Definition color_bytes (f : fb) (c : Z) : list Z :=
  if fb_pxsz (fmode f) =? 1 then [c]
  else (λ i, u8 (Z.shiftr (fb_pal f c) (8 * i))) <$> seqZ 0 (fb_pxsz (fmode f)).

(** Everything but the contents of the memory and the cursor is the same, and
    so is the memory outside the device. *)
Record same_dev (f f' : fb) : Prop := {
  sd_mode : fmode f' = fmode f;
  sd_on : fb_on f' = fb_on f;
  sd_pal : fb_pal f' = fb_pal f;
  sd_out : ∀ a, ¬ 0 ≤ a < fb_pitch (fmode f) * fb_height (fmode f) → fbmem f' a = fbmem f a }.

#[global] Instance same_dev_preorder : PreOrder same_dev.
Proof.
  split; [done|]. intros f g h [H1 H2 H3 H4] [I1 I2 I3 I4]. split; [congruence..|].
  intros a Ha. rewrite I4 by (by rewrite H1). by apply H4.
Qed.

Lemma store_px_spec n dst v m a :
  store_px n dst v m a = if decide (0 ≤ a - dst < n) then u8 (Z.shiftr v (8 * (a - dst))) else m a.
Proof.
  unfold store_px.
  pose proof (for_z_spec (λ (m : mem) i, m (dst + i)) (λ i, <[dst + i := u8 (Z.shiftr v (8 * i))]>)
    0 n m (λ i, u8 (Z.shiftr v (8 * i)))) as Hs.
  specialize (Hs ltac:(intros k x i Hk; case_decide;
    [subst; apply fn_lookup_insert | apply fn_lookup_insert_ne; lia]) (a - dst)).
  simpl in Hs. by rewrite Zplus_minus in Hs.
Qed.

Lemma u16_byte v i : 0 ≤ i < 2 → u8 (Z.shiftr (u16 v) (8 * i)) = u8 (Z.shiftr v (8 * i)).
Proof.
  intros Hi. apply Z.bits_inj'. intros n Hn. unfold u8, u16.
  destruct (decide (n < 8)).
  - rewrite !Z.mod_pow2_bits_low, !Z.shiftr_spec, Z.mod_pow2_bits_low by lia. done.
  - by rewrite !Z.mod_pow2_bits_high by lia.
Qed.

Lemma fb_store_spec g dst px m a : 1 ≤ fb_pxsz g →
  fb_store g dst px m a =
    if decide (0 ≤ a - dst < fb_pxsz g) then u8 (Z.shiftr px (8 * (a - dst))) else m a.
Proof.
  intros Hp. unfold fb_store.
  destruct (Z.eqb_spec (fb_pxsz g) 4) as [->|]; [apply store_px_spec|].
  destruct (Z.eqb_spec (fb_pxsz g) 2) as [->|]; rewrite store_px_spec; [|done].
  case_decide; [by apply u16_byte|done].
Qed.

(** ** Addresses of pixels *)

Section mode.
Context (g : fb_mode) (Hg : mode_ok g).

Lemma px_inside x y i : on_screen g x y → 0 ≤ i < fb_pxsz g →
  0 ≤ px_addr g x y + i < fb_pitch g * fb_height g.
Proof. destruct Hg. unfold px_addr, on_screen. nia. Qed.

Lemma px_disjoint x y x' y' i i' :
  on_screen g x y → on_screen g x' y' → 0 ≤ i < fb_pxsz g → 0 ≤ i' < fb_pxsz g →
  px_addr g x y + i = px_addr g x' y' + i' → x = x' ∧ y = y'.
Proof.
  destruct Hg. unfold px_addr, on_screen. intros [Hx Hy] [Hx' Hy'] Hi Hi' He.
  assert (y = y') as -> by nia. split; [nia|done].
Qed.
End mode.

(** ** Overlays

    [paints P f f']: [f'] shows the colour [P x y] where it is given, and what
    [f] shows elsewhere. *)
Definition paints (P : Z → Z → option Z) (f f' : fb) : Prop :=
  same_dev f f' ∧
  ∀ x y, on_screen (fmode f) x y →
    pixel f' x y = match P x y with Some c => color_bytes f c | None => pixel f x y end.

Definition over (P Q : Z → Z → option Z) (x y : Z) : option Z :=
  match P x y with Some c => Some c | None => Q x y end.

Lemma color_bytes_same f f' c : same_dev f f' → color_bytes f' c = color_bytes f c.
Proof. intros [H1 _ H3 _]. unfold color_bytes. by rewrite H1, H3. Qed.

Lemma paints_refl f : paints (λ _ _, None) f f.
Proof. by split. Qed.

Lemma paints_trans P Q f g h : paints P f g → paints Q g h → paints (over Q P) f h.
Proof.
  intros [Hs H] [Ht I]. split; [by etrans|]. intros x y Hxy. unfold over.
  rewrite I by (by rewrite (sd_mode _ _ Hs)). destruct (Q x y); [by apply color_bytes_same|by apply H].
Qed.

Lemma paints_ext P Q f g :
  (∀ x y, on_screen (fmode f) x y → P x y = Q x y) → paints P f g → paints Q f g.
Proof. intros He [Hs H]. split; [done|]. intros x y Hxy. rewrite H, He by done. done. Qed.

(** Cursor and colour changes are no overlay at all. *)
Lemma paints_mem P f f' h : paints P f f' → fmode h = fmode f' → fb_on h = fb_on f' → fb_pal h = fb_pal f' →
  fbmem h = fbmem f' → paints P f h.
Proof.
  intros [[H1 H2 H3 H4] H] E1 E2 E3 E4. split.
  - split; [congruence..|]. intros a Ha. rewrite E4. by apply H4.
  - intros x y Hxy. rewrite <- H by done. unfold pixel. by rewrite E1, E4.
Qed.

(** A loop whose [k]-th step paints the pixels with the coordinate [k]. *)
Lemma paints_loop (key : Z → Z → Z) (C : Z → Z → option Z) body lo hi f :
  (∀ k f', lo ≤ k < hi → same_dev f f' →
     paints (λ x y, if decide (key x y = k) then C x y else None) f' (body k f')) →
  paints (λ x y, if decide (lo ≤ key x y < hi) then C x y else None) f (for_z body lo hi f).
Proof.
  intros Hb.
  pose proof (for_z_ind (λ (k : Z) f', paints (λ x y, if decide (lo ≤ key x y < k) then C x y else None) f f')
    body lo hi f) as Hind. simpl in Hind.
  eapply paints_ext; [|apply Hind].
  - intros x y _. simpl. repeat case_decide; done || lia.
  - eapply paints_ext; [|apply paints_refl]. intros x y _. simpl. case_decide; done || lia.
  - intros k f' Hk Hp. eapply paints_ext; [|eapply paints_trans; [exact Hp|apply Hb; [done|apply Hp]]].
    intros x y _. unfold over. destruct (C x y); repeat case_decide; done || lia.
Qed.

(** ** Drawing *)

Section draw.
Context (f : fb) (Hg : mode_ok (fmode f)) (Hon : fb_on f = true).

Lemma dev_ok f' : same_dev f f' → mode_ok (fmode f') ∧ fb_on f' = true.
Proof. intros [-> -> _ _]. done. Qed.

(** One pixel stored in the memory. *)
Lemma paints_store x y c m' :
  on_screen (fmode f) x y →
  (∀ a, m' a = if decide (0 ≤ a - px_addr (fmode f) x y < fb_pxsz (fmode f))
               then default 0 (color_bytes f c !! Z.to_nat (a - px_addr (fmode f) x y)) else fbmem f a) →
  paints (λ x' y', if decide (x' = x ∧ y' = y) then Some c else None) f (set_fbmem m' f).
Proof.
  intros Hxy Hm. split.
  { split; try done. simpl. intros a Ha. rewrite Hm. case_decide; [|done].
    pose proof (px_inside _ Hg x y (a - px_addr (fmode f) x y) Hxy ltac:(lia)). lia. }
  intros x' y' Hxy'. unfold pixel. simpl. case_decide as Hd.
  - destruct Hd as [-> ->]. apply list_eq. intros i.
    rewrite list_lookup_fmap. destruct (seqZ 0 (fb_pxsz (fmode f)) !! i) as [z|] eqn:Hz; simpl.
    + apply lookup_seqZ in Hz as [-> Hi]. rewrite Hm. rewrite decide_True by lia.
      replace (Z.to_nat _) with i by lia.
      assert (is_Some (color_bytes f c !! i)) as [b ->]; [|done].
      apply lookup_lt_is_Some. unfold color_bytes. case_match; bool_split; simpl; [lia|].
      rewrite length_fmap, length_seqZ. lia.
    + apply lookup_ge_None in Hz. rewrite length_seqZ in Hz. symmetry. apply lookup_ge_None.
      destruct Hg. unfold color_bytes. case_match; bool_split; simpl; [lia|]. rewrite length_fmap, length_seqZ. lia.
  - apply list_fmap_ext. intros i z Hz. apply lookup_seqZ in Hz as [-> Hi]. rewrite Hm.
    case_decide as Hd2; [|done]. exfalso. apply Hd.
    apply (px_disjoint _ Hg x' y' x y (0 + Z.of_nat i)
      (px_addr (fmode f) x' y' + (0 + Z.of_nat i) - px_addr (fmode f) x y)); try done; lia.
Qed.

Lemma store_color x y c a :
  fb_pxsz (fmode f) ≠ 1 →
  fb_store (fmode f) (px_addr (fmode f) x y) (fb_pal f c) (fbmem f) a =
    if decide (0 ≤ a - px_addr (fmode f) x y < fb_pxsz (fmode f))
    then default 0 (color_bytes f c !! Z.to_nat (a - px_addr (fmode f) x y)) else fbmem f a.
Proof.
  intros Hne. destruct Hg. rewrite fb_store_spec by lia. case_decide; [|done].
  unfold color_bytes. rewrite (proj2 (Z.eqb_neq _ _)) by done.
  rewrite list_lookup_fmap, lookup_seqZ_lt by lia. simpl. f_equal. f_equal. lia.
Qed.

Lemma index_color x y c a :
  fb_pxsz (fmode f) = 1 →
  (<[px_addr (fmode f) x y := c]> (fbmem f)) a =
    if decide (0 ≤ a - px_addr (fmode f) x y < fb_pxsz (fmode f))
    then default 0 (color_bytes f c !! Z.to_nat (a - px_addr (fmode f) x y)) else fbmem f a.
Proof.
  intros He. unfold color_bytes. rewrite He. simpl. case_decide.
  - replace a with (px_addr (fmode f) x y) by lia. rewrite fn_lookup_insert. by rewrite Z.sub_diag.
  - apply fn_lookup_insert_ne. lia.
Qed.

Lemma fb_put_pixel_paints x y c : 0 ≤ x → 0 ≤ y →
  paints (λ x' y', if decide (x' = x ∧ y' = y) then Some c else None) f (fb_put_pixel x y c f).
Proof.
  intros Hx Hy. unfold fb_put_pixel. rewrite Hon. simpl.
  destruct ((fb_width (fmode f) <=? x) || (fb_height (fmode f) <=? y) || false) eqn:E.
  { eapply paints_ext; [|apply paints_refl]. intros x' y' [??]. simpl. case_decide as Hd; [|done].
    destruct Hd as [-> ->]. bool_split; [lia|lia|done]. }
  bool_split. assert (on_screen (fmode f) x y) by (split; lia).
  destruct (Z.eqb_spec (fb_pxsz (fmode f)) 1).
  - apply paints_store; [done|]. intros a. by apply index_color.
  - apply paints_store; [done|]. intros a. by apply store_color.
Qed.
End draw.

(** The rectangle of [w] by [h] pixels at [(X, Y)], coloured by [C]. *)
Definition box (X Y w h : Z) (C : Z → Z → Z) (x y : Z) : option Z :=
  if decide (0 ≤ y - Y < h) then if decide (0 ≤ x - X < w) then Some (C (x - X) (y - Y)) else None else None.

(** Two nested loops over the pixels of a rectangle. *)
Lemma paints_box X Y x0 x1 y0 y1 (C : Z → Z → Z) (put : Z → Z → fb → fb) f :
  (∀ i j f', x0 ≤ i < x1 → y0 ≤ j < y1 → same_dev f f' →
     paints (λ x y, if decide (x = X + i ∧ y = Y + j) then Some (C i j) else None) f' (put i j f')) →
  paints (λ x y, if decide (y0 ≤ y - Y < y1) then
                   if decide (x0 ≤ x - X < x1) then Some (C (x - X) (y - Y)) else None else None)
    f (for_z (λ j, for_z (λ i, put i j) x0 x1) y0 y1 f).
Proof.
  intros Hput.
  apply (paints_loop (λ _ y, y - Y)
    (λ x y, if decide (x0 ≤ x - X < x1) then Some (C (x - X) (y - Y)) else None)).
  intros j f' Hj Hs.
  eapply paints_ext; [|apply (paints_loop (λ x _, x - X)
    (λ x y, if decide (y - Y = j) then Some (C (x - X) (y - Y)) else None))].
  - intros x y _. simpl. repeat case_decide; done || lia.
  - intros i f'' Hi Hs'. eapply paints_ext; [|apply Hput; [done..|by etrans]].
    intros x y _. simpl. repeat case_decide; try done; try lia; subst; destruct_and?; try lia.
    f_equal; f_equal; lia.
Qed.

Section draw2.
Context (f : fb) (Hg : mode_ok (fmode f)) (Hon : fb_on f = true).

Lemma put_paints f' x y c : same_dev f f' → 0 ≤ x → 0 ≤ y →
  paints (λ x' y', if decide (x' = x ∧ y' = y) then Some c else None) f' (fb_put_pixel x y c f').
Proof. intros Hs. destruct (dev_ok f Hg Hon f' Hs). by apply fb_put_pixel_paints. Qed.

Lemma fb_draw_char_paints x y ch fg bg :
  0 ≤ x → x + 8 < 2 ^ 32 → 0 ≤ y → y + 16 < 2 ^ 32 →
  paints (box x y 8 16 (λ i j, if glyph_bit ch j i then fg else bg)) f (fb_draw_char x y ch fg bg f).
Proof.
  intros Hx Hx' Hy Hy'. unfold fb_draw_char. rewrite Hon. simpl.
  apply (paints_box x y 0 8 0 16 (λ i j, if glyph_bit ch j i then fg else bg)
    (λ i j, fb_put_pixel (u32 (x + i)) (u32 (y + j)) (if glyph_bit ch j i then fg else bg))).
  intros i j f' Hi Hj Hs. rewrite !u32_small by lia. apply put_paints; [done|lia|lia].
Qed.

Lemma fbc_cursor_paints (show : bool) :
  0 ≤ fbc_col f → fbc_col f * 8 + 8 < 2 ^ 32 → 0 ≤ fbc_row f → fbc_row f * 16 + 16 < 2 ^ 32 →
  paints (box (fbc_col f * 8) (fbc_row f * 16 + 14) 8 2
            (λ _ _ : Z, if show then FB_CLR_LGREY else fbc_bg f)) f (fbc_cursor show f).
Proof.
  intros Hx Hx' Hy Hy'. unfold fbc_cursor. rewrite Hon. simpl.
  eapply paints_ext; [|apply (paints_box (fbc_col f * 8) (fbc_row f * 16) 0 8 14 16
    (λ _ _ : Z, if show then FB_CLR_LGREY else fbc_bg f)
    (λ i j, fb_put_pixel (u32 (fbc_col f * 8 + i)) (u32 (fbc_row f * 16 + j)) (if show then FB_CLR_LGREY else fbc_bg f)))].
  - intros x y _. unfold box. repeat case_decide; done || lia.
  - intros i j f' Hi Hj Hs. rewrite !u32_small by lia. apply put_paints; [done|lia|lia].
Qed.
End draw2.

(** A loop on the memory is a loop on the state that holds it. *)
Lemma for_loop_hom {A B} (h : A → B) (fa : nat → A → A) (fb : nat → B → B) i n a :
  (∀ k x, h (fa k x) = fb k (h x)) → h (for_loop fa i n a) = for_loop fb i n (h a).
Proof. intros Hh. revert i a. induction n as [|n IH]; intros i a; simpl; [done|]. by rewrite IH, Hh. Qed.

Lemma for_z_hom {A B} (h : A → B) (fa : Z → A → A) (fb : Z → B → B) lo hi a :
  (∀ k x, h (fa k x) = fb k (h x)) → h (for_z fa lo hi a) = for_z fb lo hi (h a).
Proof. intros Hh. apply for_loop_hom. intros. apply Hh. Qed.

Section fill.
Context (f : fb) (Hg : mode_ok (fmode f)) (Hon : fb_on f = true).

Definition plot (c x y : Z) (f' : fb) : fb :=
  set_fbmem (let dst := px_addr (fmode f) x y in
    if fb_pxsz (fmode f) =? 1 then <[dst := c]> (fbmem f')
    else fb_store (fmode f) dst (fb_pal f c) (fbmem f')) f'.

Lemma plot_paints c x y f' : same_dev f f' → on_screen (fmode f) x y →
  paints (λ x' y', if decide (x' = x ∧ y' = y) then Some c else None) f' (plot c x y f').
Proof.
  intros Hs Hxy. destruct (dev_ok f Hg Hon f' Hs) as [Hg' Hon']. destruct Hs as [E1 E2 E3 E4].
  unfold plot. rewrite <- E1, <- E3. rewrite <- E1 in Hxy.
  destruct (Z.eqb_spec (fb_pxsz (fmode f')) 1); apply paints_store; try done; intros a.
  - by apply index_color.
  - by apply store_color.
Qed.

Lemma plots_paint c x0 x1 y0 y1 : 0 ≤ x0 → x1 ≤ fb_width (fmode f) → 0 ≤ y0 → y1 ≤ fb_height (fmode f) →
  paints (λ x y, if decide (y0 ≤ y < y1) then if decide (x0 ≤ x < x1) then Some c else None else None) f
    (for_z (λ y, for_z (λ x, plot c x y) x0 x1) y0 y1 f).
Proof.
  intros Hx0 Hx1 Hy0 Hy1.
  eapply paints_ext; [|apply (paints_box 0 0 x0 x1 y0 y1 (λ _ _ : Z, c) (plot c))].
  - intros x y _. simpl. rewrite !Z.sub_0_r. done.
  - intros i j f' Hi Hj Hs. rewrite !Z.add_0_l. apply plot_paints; [done|]. split; lia.
Qed.

Lemma fb_fill_rect_paints x y w h c :
  0 ≤ x → 0 ≤ y →
  paints (λ x' y', if decide (y ≤ y' < u32 (y + h)) then
                     if decide (x ≤ x' < u32 (x + w)) then Some c else None else None) f
    (fb_fill_rect x y w h c f).
Proof.
  intros Hx Hy. unfold fb_fill_rect. rewrite Hon. cbv zeta. simpl negb. cbv iota.
  rewrite (for_z_hom (λ m, set_fbmem m f) _
    (λ j, for_z (λ i, plot c i j) x (Z.min (u32 (x + w)) (fb_width (fmode f))))).
  2:{ intros j m. rewrite (for_z_hom (λ m, set_fbmem m f) _ (λ i, plot c i j)); done. }
  replace (set_fbmem (fbmem f) f) with f by (by destruct f).
  eapply paints_ext; [|apply plots_paint; lia].
  intros x' y' [??]. simpl. repeat case_decide; done || lia.
Qed.

Lemma fb_clear_paints c : 0 ≤ c < 256 → paints (λ _ _, Some c) f (fb_clear c f).
Proof.
  intros Hc. unfold fb_clear. rewrite Hon. simpl negb. cbv zeta iota.
  destruct (Z.eqb_spec (fb_pxsz (fmode f)) 1) as [He|Hne].
  - split; [split; try done|]; simpl.
    + intros a Ha. rewrite memset_spec. destruct Hg. rewrite decide_False by nia. done.
    + intros x y Hxy. unfold pixel, color_bytes. simpl. rewrite He. simpl.
      pose proof (px_inside _ Hg x y 0 Hxy ltac:(lia)).
      rewrite memset_spec, decide_True by lia. by rewrite u8_small.
  - rewrite (for_z_hom (λ m, set_fbmem m f) _ (λ j, for_z (λ i, plot c i j) 0 (fb_width (fmode f)))).
    2:{ intros j m. rewrite (for_z_hom (λ m, set_fbmem m f) _ (λ i, plot c i j)); [done|].
        intros i m'. unfold plot. rewrite (proj2 (Z.eqb_neq _ _) Hne). done. }
    replace (set_fbmem (fbmem f) f) with f by (by destruct f).
    eapply paints_ext; [|apply plots_paint; lia].
    intros x' y' [??]. simpl. repeat case_decide; done || lia.
Qed.
End fill.

(** ** Scrolling *)

Lemma scroll_copy n rb m a : 0 ≤ rb →
  for_z (λ r, memcpy (r * rb) ((r + 1) * rb) (Z.to_nat rb)) 0 n m a =
    if decide (0 ≤ a < n * rb) then m (a + rb) else m a.
Proof.
  intros Hrb.
  pose proof (for_z_ind (λ (k : Z) (x : mem), ∀ a, x a = if decide (0 ≤ a < k * rb) then m (a + rb) else m a)
    (λ r, memcpy (r * rb) ((r + 1) * rb) (Z.to_nat rb)) 0 n m) as Hind. simpl in Hind. rewrite Hind.
  - repeat case_decide; try done; nia.
  - intros b. by rewrite decide_False by lia.
  - intros k x Hk Hx b. rewrite memcpy_spec by lia. rewrite Z2Nat.id by lia. case_decide.
    + rewrite Hx, decide_False by nia. rewrite decide_True by nia. f_equal. lia.
    + rewrite Hx. repeat case_decide; try done; nia.
Qed.

Lemma fbc_scroll_spec f :
  mode_ok (fmode f) → fb_on f = true → 1 ≤ fbc_rows f → fbc_rows f * 16 ≤ fb_height (fmode f) →
  same_dev f (fbc_scroll f) ∧
  ∀ x y, on_screen (fmode f) x y → pixel (fbc_scroll f) x y =
    if decide (y < (fbc_rows f - 1) * 16) then pixel f x (y + 16)
    else if decide (y < fbc_rows f * 16) then color_bytes f (fbc_bg f) else pixel f x y.
Proof.
  intros Hg Hon Hr Hh. unfold fbc_scroll. set (rb := u32 (fb_pitch (fmode f) * 16)).
  assert (rb = fb_pitch (fmode f) * 16) as Hrb by (destruct Hg; apply u32_small; nia).
  set (m := for_z _ _ _ _).
  assert (∀ a, m a = if decide (0 ≤ a < (fbc_rows f - 1) * rb) then fbmem f (a + rb) else fbmem f a) as Hm.
  { intros a. apply scroll_copy. destruct Hg. nia. }
  assert (same_dev f (set_fbmem m f)) as Hs.
  { split; try done. simpl. intros a Ha. rewrite Hm. rewrite decide_False; [done|]. destruct Hg. nia. }
  assert (mode_ok (fmode (set_fbmem m f))) as Hg' by done.
  destruct (fb_fill_rect_paints _ Hg' Hon 0 (u32 ((fbc_rows f - 1) * 16)) (fb_width (fmode f)) 16 (fbc_bg f))
    as [Hd Hp]; [done|apply u32_range|].
  split; [by etrans|]. intros x y Hxy. rewrite Hp by done. clear Hp Hd.
  destruct Hxy as [Hx Hy]. pose proof (mo_width _ Hg). pose proof (mo_height _ Hg).
  rewrite !(u32_small ((fbc_rows f - 1) * 16)) by lia. rewrite !u32_small by lia.
  rewrite (decide_True (P := 0 ≤ x < _)) by lia. repeat case_decide; try lia; try done.
  - unfold pixel. simpl. apply list_fmap_ext. intros i z Hz. apply lookup_seqZ in Hz as [-> Hi].
    rewrite Hm. pose proof (px_inside _ Hg x y (Z.of_nat i) ltac:(split; lia) ltac:(lia)).
    destruct Hg. rewrite decide_True by (unfold px_addr in *; nia). f_equal. unfold px_addr. lia.
  - unfold pixel. simpl. apply list_fmap_ext. intros i z Hz. apply lookup_seqZ in Hz as [-> Hi].
    rewrite Hm. destruct Hg. rewrite decide_False; [done|]. unfold px_addr. nia.
Qed.

(** ** The console as a text terminal *)

Record tty := Tty { cell : Z → Z → Z; t_row : Z; t_col : Z }.

Section tty.
Context (rows cols : Z).

Definition tty_newline (t : tty) : tty :=
  if rows <=? t_row t + 1
  then Tty (λ r c, if r <? rows - 1 then cell t (r + 1) c else 32) (t_row t) 0
  else Tty (cell t) (t_row t + 1) 0.

Definition write_cell (r c ch : Z) (t : tty) : tty :=
  Tty (λ r' c', if decide (r' = r ∧ c' = c) then ch else cell t r' c') (t_row t) (t_col t).
Definition move (c : Z) (t : tty) : tty := Tty (cell t) (t_row t) c.
Definition wrap_line (t : tty) : tty := if cols <=? t_col t then tty_newline t else t.

Definition tty_putc (c : Z) (t : tty) : tty :=
  if c =? 10 then tty_newline t
  else if c =? 9 then wrap_line (move ((t_col t / 8 + 1) * 8) t)
  else if c =? 8 then
    if 0 <? t_col t then write_cell (t_row t) (t_col t - 1) 32 (move (t_col t - 1) t) else t
  else if (0x20 <=? c) && (c <=? 0x7E) then
    wrap_line (move (t_col t + 1) (write_cell (t_row t) (t_col t) c t))
  else t.

(** The cursor is on the grid and nothing is written at or after it. *)
Record tty_ok (t : tty) : Prop := {
  tt_row : 0 ≤ t_row t < rows;
  tt_col : 0 ≤ t_col t < cols;
  tt_blank : ∀ r c, t_row t < r ∨ r = t_row t ∧ t_col t ≤ c → cell t r c = 32 }.

Lemma tty_newline_ok t : 1 ≤ cols → 0 ≤ t_row t < rows →
  (∀ r c, t_row t < r → cell t r c = 32) → tty_ok (tty_newline t).
Proof.
  intros Hc Hr Hb. unfold tty_newline. case_match; bool_split; split; simpl; try lia.
  - intros r c Hrc. case_match; bool_split; [|done]. apply Hb. lia.
  - intros r c Hrc. apply Hb. lia.
Qed.

Lemma tty_putc_ok c t : tty_ok t → tty_ok (tty_putc c t).
Proof.
  intros [Hr Hc Hb]. unfold tty_putc, wrap_line.
  assert (∀ r c, t_row t < r → cell t r c = 32) as Hb' by (intros; apply Hb; lia).
  repeat case_match; bool_split; try (by split); try (apply tty_newline_ok; simpl; try lia; try done).
  - split; simpl in *; [lia|pose proof (Z.div_pos (t_col t) 8); lia|]. intros r c' Hrc. apply Hb.
    pose proof (Z.div_mod (t_col t) 8). pose proof (Z.mod_pos_bound (t_col t) 8). lia.
  - split; simpl; [lia|lia|]. intros r c' Hrc. case_decide; [done|]. apply Hb. lia.
  - intros r c' Hrc. rewrite decide_False by lia. by apply Hb'.
  - split; simpl in *; [lia|lia|]. intros r c' Hrc. rewrite decide_False by lia. apply Hb. lia.
Qed.
End tty.

(** The colour of a pixel of the text area. *)
Definition look (b : bool) (f : fb) (t : tty) (x y : Z) : Z :=
  if b && bool_decide (x / 8 = t_col t ∧ y / 16 = t_row t ∧ 14 ≤ y mod 16) then FB_CLR_LGREY
  else if glyph_bit (cell t (y / 16) (x / 8)) (y mod 16) (x mod 8) then fbc_fg f else fbc_bg f.

(** [looks b f t]: the screen of [f] shows the terminal [t], with the cursor
    if [b]. *)
Record looks (b : bool) (f : fb) (t : tty) : Prop := {
  lk_mode : mode_ok (fmode f);
  lk_on : fb_on f = true;
  lk_active : fb_active f = true;
  lk_rows : 1 ≤ fbc_rows f ∧ fbc_rows f * 16 ≤ fb_height (fmode f);
  lk_cols : 1 ≤ fbc_cols f ∧ fbc_cols f * 8 ≤ fb_width (fmode f);
  lk_row : fbc_row f = t_row t;
  lk_col : fbc_col f = t_col t;
  lk_text : phase (fbc_ansi f) = 0;
  lk_pix : ∀ x y, 0 ≤ x < fbc_cols f * 8 → 0 ≤ y < fbc_rows f * 16 →
    pixel f x y = color_bytes f (look b f t x y) }.

(** The parts of the state that drawing leaves alone. *)
Record same_con (f f' : fb) : Prop := {
  sc_active : fb_active f' = fb_active f;
  sc_rows : fbc_rows f' = fbc_rows f;
  sc_cols : fbc_cols f' = fbc_cols f;
  sc_fg : fbc_fg f' = fbc_fg f;
  sc_bg : fbc_bg f' = fbc_bg f;
  sc_ansi : fbc_ansi f' = fbc_ansi f }.

#[global] Instance same_con_preorder : PreOrder same_con.
Proof. split; [done|]. intros f g h [] []. split; congruence. Qed.

(** A paint that agrees with the new terminal gives the new screen. *)
Lemma looks_paint b b' f f' t t' P :
  looks b f t → paints P f f' → same_con f f' →
  fbc_row f' = t_row t' → fbc_col f' = t_col t' →
  (∀ x y, 0 ≤ x < fbc_cols f * 8 → 0 ≤ y < fbc_rows f * 16 →
     match P x y with Some c => c | None => look b f t x y end = look b' f t' x y) →
  looks b' f' t'.
Proof.
  intros [H1 H2 H3 H4 H5 H6 H7 H8 H9] [Hs Hp] [C1 C2 C3 C4 C5 C6] Hr Hc HP. pose proof Hs as [S1 S2 S3 S4].
  split; rewrite ?S1, ?S2, ?C1, ?C2, ?C3, ?C6; try done.
  intros x y Hx Hy. rewrite Hp by (split; lia).
  rewrite (color_bytes_same _ _ _ Hs). unfold look in *. rewrite C4, C5.
  rewrite <- HP by done. destruct (P x y); [done|]. by apply H9.
Qed.

(** Membership of a character box, by the cell a pixel is in. *)
Lemma cell_box n z k : 0 < n → (0 ≤ z - k * n < n) ↔ z / n = k.
Proof.
  intros Hn. pose proof (Z.div_mod z n). pose proof (Z.mod_pos_bound z n Hn). nia.
Qed.
Lemma cell_off n z k : 0 < n → z / n = k → z - k * n = z mod n.
Proof. intros Hn <-. pose proof (Z.div_mod z n). lia. Qed.

Lemma glyph_space j i : 0 ≤ j < 16 → glyph_bit 32 j i = false.
Proof.
  intros Hj. unfold glyph_bit. change (glyph 32) with (replicate 16 0).
  rewrite lookup_replicate_2 by lia. done.
Qed.

(** Drawing leaves the cursor where it is, too. *)
Definition drawn (f f' : fb) : Prop := same_con f f' ∧ fbc_row f' = fbc_row f ∧ fbc_col f' = fbc_col f.
#[global] Instance drawn_preorder : PreOrder drawn.
Proof.
  split; [done|]. intros f g h (H1 & H2 & H3) (I1 & I2 & I3). split_and!; [by etrans|congruence..].
Qed.

Lemma drawn_put x y c f : drawn f (fb_put_pixel x y c f).
Proof. unfold fb_put_pixel. by repeat case_match. Qed.
Lemma drawn_loop body lo hi f : (∀ k f', drawn f' (body k f')) → drawn f (for_z body lo hi f).
Proof. intros Hb. apply (for_z_ind (λ _, drawn f)); [done|]. intros k x _ Hx. by etrans. Qed.
Lemma drawn_char x y ch fg bg f : drawn f (fb_draw_char x y ch fg bg f).
Proof. unfold fb_draw_char. case_match; [done|]. do 2 (apply drawn_loop; intros ? ?). apply drawn_put. Qed.
Lemma drawn_cursor b f : drawn f (fbc_cursor b f).
Proof. unfold fbc_cursor. case_match; [done|]. do 2 (apply drawn_loop; intros ? ?). apply drawn_put. Qed.
Lemma drawn_scroll f : drawn f (fbc_scroll f).
Proof. unfold fbc_scroll, fb_fill_rect. by case_match. Qed.

(** The cells of the grid are on the screen, far below the wrap-around. *)
Lemma looks_room b f t : looks b f t → 0 ≤ t_row t < fbc_rows f → 0 ≤ t_col t < fbc_cols f →
  0 ≤ fbc_col f ∧ fbc_col f * 8 + 8 < 2 ^ 32 ∧ 0 ≤ fbc_row f ∧ fbc_row f * 16 + 16 < 2 ^ 32.
Proof.
  intros [Hg _ _ [_ Hr] [_ Hc] -> -> _ _] Hr' Hc'. destruct Hg as [? ? _ _]. lia.
Qed.

(** Hiding the cursor, shown or not, shows the blank cell under it. *)
Lemma cursor_hide b f t : looks b f t → tty_ok (fbc_rows f) (fbc_cols f) t → looks false (fbc_cursor false f) t.
Proof.
  intros Hl Hok. destruct (looks_room _ _ _ Hl (tt_row _ _ _ Hok) (tt_col _ _ _ Hok)) as (R1 & R2 & R3 & R4).
  destruct (drawn_cursor false f) as (Hs & E1 & E2).
  eapply looks_paint; [done|apply fbc_cursor_paints; by try apply Hl|done| | |].
  1,2: rewrite ?E1, ?E2; apply Hl.
  intros x y Hx Hy. rewrite (lk_row _ _ _ Hl), (lk_col _ _ _ Hl). unfold box, look. simpl.
  pose proof (Z.mod_pos_bound y 16). pose proof (Z.div_mod y 16). pose proof (Z.div_mod x 8).
  pose proof (Z.mod_pos_bound x 8).
  destruct b; repeat case_decide; try case_bool_decide; try done; try lia;
    rewrite (tt_blank _ _ _ Hok), glyph_space by lia; done.
Qed.

Lemma cursor_show f t : looks false f t → tty_ok (fbc_rows f) (fbc_cols f) t → looks true (fbc_cursor true f) t.
Proof.
  intros Hl Hok. destruct (looks_room _ _ _ Hl (tt_row _ _ _ Hok) (tt_col _ _ _ Hok)) as (R1 & R2 & R3 & R4).
  destruct (drawn_cursor true f) as (Hs & E1 & E2).
  eapply looks_paint; [done|apply fbc_cursor_paints; by try apply Hl|done| | |].
  1,2: rewrite ?E1, ?E2; apply Hl.
  intros x y Hx Hy. rewrite (lk_row _ _ _ Hl), (lk_col _ _ _ Hl). unfold box, look. simpl.
  pose proof (Z.mod_pos_bound y 16). pose proof (Z.div_mod y 16). pose proof (Z.div_mod x 8).
  pose proof (Z.mod_pos_bound x 8).
  repeat case_decide; case_bool_decide; done || lia.
Qed.

Lemma newline_looks f t : looks false f t → looks false (fbc_newline f) (tty_newline (fbc_rows f) t).
Proof.
  intros Hl. unfold fbc_newline, tty_newline. cbv zeta. simpl. rewrite (lk_row _ _ _ Hl).
  case_match eqn:E; bool_split.
  2:{ by destruct Hl. }
  set (g := set_cursor (t_row t + 1) 0 f).
  destruct (fbc_scroll_spec g) as [Hs Hp]; [apply Hl..|].
  destruct (drawn_scroll g) as ([] & E1 & E2). destruct Hs as [S1 S2 S3 S4]. destruct Hl. simpl in *.
  split; simpl; rewrite ?S1, ?S2, ?E1, ?E2; simpl; try congruence.
  { lia. }
  intros x y Hx Hy. rewrite sc_rows0, sc_cols0 in *. change (pixel (set_cursor _ _ _)) with (pixel (fbc_scroll g)).
  rewrite Hp by (split; simpl; lia). unfold look. simpl. rewrite sc_fg0, sc_bg0. simpl.
  assert (∀ c, color_bytes (set_cursor (t_row t + 1 - 1) 0 (fbc_scroll g)) c = color_bytes f c) as Hcb.
  { intros c. apply color_bytes_same. by split. }
  rewrite Hcb.
  pose proof (Z.mod_pos_bound y 16). pose proof (Z.div_mod y 16).
  case_decide as Hlt.
  - rewrite (proj2 (Z.ltb_lt _ _)) by lia. change (pixel g) with (pixel f). rewrite lk_pix0 by lia.
    unfold look. simpl. replace (y + 16) with (y + 1 * 16) by lia. by rewrite Z.div_add, Z.mod_add by lia.
  - rewrite (proj2 (Z.ltb_ge _ _)) by lia. rewrite decide_True by lia. rewrite glyph_space by lia. done.
Qed.

(** A character drawn at the cursor. *)
Lemma draw_looks c f t : looks false f t → 0 ≤ t_row t < fbc_rows f → 0 ≤ t_col t < fbc_cols f →
  looks false (fbc_draw c f) (write_cell (t_row t) (t_col t) c t).
Proof.
  intros Hl Hr Hc. destruct (looks_room _ _ _ Hl Hr Hc) as (R1 & R2 & R3 & R4).
  destruct (drawn_char (u32 (fbc_col f * 8)) (u32 (fbc_row f * 16)) c (fbc_fg f) (fbc_bg f) f) as (Hs & E1 & E2).
  eapply looks_paint; [done|unfold fbc_draw; rewrite !u32_small by lia|done| | |].
  { apply fb_draw_char_paints; [apply Hl..|lia|lia|lia|lia]. }
  1,2: unfold fbc_draw; rewrite ?E1, ?E2; apply Hl.
  intros x y Hx Hy. rewrite (lk_row _ _ _ Hl), (lk_col _ _ _ Hl). unfold box, look. simpl.
  pose proof (cell_box 16 y (t_row t) ltac:(lia)). pose proof (cell_box 8 x (t_col t) ltac:(lia)).
  repeat case_decide; try (exfalso; tauto); try done.
  destruct_and!. by rewrite (cell_off 16 y (t_row t)), (cell_off 8 x (t_col t)).
Qed.

Lemma render_looks c f t : looks false f t → tty_ok (fbc_rows f) (fbc_cols f) t →
  looks false (fbc_render c f) (tty_putc (fbc_rows f) (fbc_cols f) c t).
Proof.
  intros Hl Hok. pose proof Hok as [Hr Hc _]. unfold fbc_render, tty_putc, wrap_line.
  destruct (c =? 10) eqn:E10; [by apply newline_looks|].
  destruct (c =? 13) eqn:E13. { bool_split. subst. by destruct Hl. }
  destruct (c =? 9) eqn:E9.
  { rewrite (lk_col _ _ _ Hl), Z.quot_div_nonneg by (destruct Hok; lia).
    assert (looks false (set_cursor (fbc_row f) ((t_col t / 8 + 1) * 8) f) (move ((t_col t / 8 + 1) * 8) t)) as Hl'
      by (by destruct Hl).
    simpl. case_match; [|done]. apply (newline_looks _ _ Hl'). }
  destruct (c =? 8) eqn:E8.
  { rewrite (lk_col _ _ _ Hl). case_match; bool_split; [|done].
    assert (looks false (set_cursor (fbc_row f) (t_col t - 1) f) (move (t_col t - 1) t)) as Hl' by (by destruct Hl).
    apply (draw_looks 32 _ _ Hl'); simpl; lia. }
  case_match; [|done].
  pose proof (draw_looks c f t Hl Hr Hc) as Hd.
  destruct (drawn_char (u32 (fbc_col f * 8)) (u32 (fbc_row f * 16)) c (fbc_fg f) (fbc_bg f) f) as ([] & E1 & E2).
  assert (looks false (set_cursor (fbc_row (fbc_draw c f)) (fbc_col (fbc_draw c f) + 1) (fbc_draw c f))
    (move (t_col t + 1) (write_cell (t_row t) (t_col t) c t))) as Hl'.
  { destruct Hd. split; simpl; try done. by f_equal. }
  unfold fbc_draw in *. simpl in *. rewrite sc_cols0, E2, (lk_col _ _ _ Hl) in *. 
  case_match; [|done]. pose proof (newline_looks _ _ Hl') as Hn. simpl in Hn. by rewrite sc_rows0 in Hn.
Qed.

(** Nothing of what the console draws changes the geometry. *)
Lemma newline_geometry f : same_con f (fbc_newline f).
Proof. unfold fbc_newline. cbv zeta. case_match; [|done]. by destruct (drawn_scroll (set_cursor (fbc_row f + 1) 0 f)) as ([] & _). Qed.

Lemma render_geometry c f : same_con f (fbc_render c f).
Proof.
  unfold fbc_render, fbc_draw. repeat case_match; try done; try (etrans; [|apply newline_geometry]); try done.
  - transitivity (set_cursor (fbc_row f) (fbc_col f - 1) f); [done|apply drawn_char].
  - etrans; [apply (drawn_char (u32 (fbc_col f * 8)) (u32 (fbc_row f * 16)) c (fbc_fg f) (fbc_bg f) f)|done].
  - etrans; [apply (drawn_char (u32 (fbc_col f * 8)) (u32 (fbc_row f * 16)) c (fbc_fg f) (fbc_bg f) f)|done].
Qed.

Lemma putc_looks b c f t : c ≠ 27 → looks b f t → tty_ok (fbc_rows f) (fbc_cols f) t →
  looks true (fb_console_putc c f) (tty_putc (fbc_rows f) (fbc_cols f) c t) ∧
  same_con f (fb_console_putc c f).
Proof.
  intros Hc Hl Hok. unfold fb_console_putc. rewrite (lk_active _ _ _ Hl). simpl.
  unfold ansi_feed. rewrite (lk_text _ _ _ Hl), (proj2 (Z.eqb_neq c 27)) by done. simpl.
  replace (set_ansi (fbc_ansi f) f) with f by (by destruct f).
  destruct (drawn_cursor false f) as (Hs & _). pose proof (cursor_hide b f t Hl Hok) as Hh.
  pose proof (render_geometry c (fbc_cursor false f)) as Hs2.
  pose proof (render_looks c _ t Hh) as Hr. rewrite (sc_rows _ _ Hs), (sc_cols _ _ Hs) in Hr.
  specialize (Hr Hok). split.
  - apply cursor_show; [done|].
    rewrite (sc_rows _ _ Hs2), (sc_cols _ _ Hs2), (sc_rows _ _ Hs), (sc_cols _ _ Hs). by apply tty_putc_ok.
  - etrans; [exact Hs|]. etrans; [exact Hs2|]. apply drawn_cursor.
Qed.

(** A string written to the framebuffer console. *)
Definition fb_write (l : list Z) (f : fb) : fb := foldl (λ f c, fb_console_putc c f) f l.
Definition tty_write (rows cols : Z) (l : list Z) (t : tty) : tty := foldl (λ t c, tty_putc rows cols c t) t l.

Lemma write_looks b l f t :
  Forall (λ c, c ≠ 27) l → looks b f t → tty_ok (fbc_rows f) (fbc_cols f) t →
  looks (if l is [] then b else true) (fb_write l f) (tty_write (fbc_rows f) (fbc_cols f) l t) ∧
  tty_ok (fbc_rows f) (fbc_cols f) (tty_write (fbc_rows f) (fbc_cols f) l t) ∧
  same_con f (fb_write l f).
Proof.
  intros Hl. revert b f t. induction Hl as [|c l Hc _ IH]; intros b f t Hlk Hok; [done|]. simpl.
  destruct (putc_looks b c f t Hc Hlk Hok) as [Hlk' Hs]. pose proof Hs as [_ E1 E2 _ _ _].
  specialize (IH _ _ _ Hlk'). rewrite E1, E2 in IH.
  destruct (IH (tty_putc_ok _ _ _ _ Hok)) as (H1 & H2 & H3).
  split_and!; [by destruct l|done|by etrans].
Qed.

(** C25. The framebuffer console refines a text terminal: after any text (bytes
    other than ESC), the pixels of the text area are those of the glyphs of
    the terminal's cells in the current colours, with the cursor line under
    the cell the terminal's cursor is at; that cursor is on the grid. *)
Theorem fb_console_refines b l f t :
  Forall (λ c, c ≠ 27) l →
  looks b f t → tty_ok (fbc_rows f) (fbc_cols f) t →
  looks (if l is [] then b else true) (fb_write l f) (tty_write (fbc_rows f) (fbc_cols f) l t) ∧
  tty_ok (fbc_rows f) (fbc_cols f) (tty_write (fbc_rows f) (fbc_cols f) l t).
Proof.
  intros Hl Hlk Hok. destruct (write_looks b l f t Hl Hlk Hok) as (H1 & H2 & _). done.
Qed.

(** ** Start-up *)

Definition blank_tty : tty := Tty (λ _ _, 32) 0 0.

Lemma fb_write_app l l' f : fb_write (l ++ l') f = fb_write l' (fb_write l f).
Proof. apply foldl_app. Qed.

(** The replay loop is a write of the characters in their order. *)
Lemma replay_write n (get : Z → Z) f :
  for_z (λ i, fb_console_putc (get i)) 0 n f = fb_write (get <$> seqZ 0 n) f.
Proof.
  pose proof (for_z_ind (λ (k : Z) f', f' = fb_write (get <$> seqZ 0 k) f)
    (λ i, fb_console_putc (get i)) 0 n f) as Hind. simpl in Hind. rewrite Hind.
  - destruct (decide (0 ≤ n)); [by rewrite Z.max_r by lia|]. rewrite Z.max_l by lia. by rewrite (seqZ_nil 0 n) by lia.
  - done.
  - intros k x Hk ->. rewrite seqZ_app by lia. rewrite fmap_app, fb_write_app. done.
Qed.

Lemma div_fits n z : 0 < n → n ≤ z → 1 ≤ z / n ∧ z / n * n ≤ z.
Proof. intros Hn Hz. pose proof (Z.div_mod z n). pose proof (Z.mod_pos_bound z n). nia. Qed.

(** A cleared screen shows the blank terminal, without a cursor. *)
Lemma clear_looks f f' :
  mode_ok (fmode f) → fb_on f = true → phase (fbc_ansi f) = 0 → 0 ≤ fbc_bg f < 256 →
  1 ≤ fbc_rows f ∧ fbc_rows f * 16 ≤ fb_height (fmode f) →
  1 ≤ fbc_cols f ∧ fbc_cols f * 8 ≤ fb_width (fmode f) →
  fbc_row f = 0 → fbc_col f = 0 →
  f' = fb_clear (fbc_bg f) f →
  looks false (Fb (fmode f') (fb_on f') (fb_pal f') (fbmem f') true (fbc_cols f') (fbc_rows f')
    (fbc_row f') (fbc_col f') (fbc_fg f') (fbc_bg f') (fbc_ansi f')) blank_tty.
Proof.
  intros Hg Hon Hp Hbg Hr Hc Hr0 Hc0 ->.
  destruct (fb_clear_paints f Hg Hon (fbc_bg f) Hbg) as [Hs Hpx].
  assert (drawn f (fb_clear (fbc_bg f) f)) as ([C1 C2 C3 C4 C5 C6] & C7 & C8)
    by (unfold fb_clear; by repeat case_match).
  pose proof Hs as [S1 S2 S3 S4].
  split; simpl; [by rewrite ?S1, ?S2, ?C1, ?C2, ?C3, ?C6, ?C7, ?C8..|].
  rewrite C2, C3. intros x y Hx Hy.
  match goal with |- pixel ?g _ _ = _ => change (pixel g) with (pixel (fb_clear (fbc_bg f) f));
    change (color_bytes g) with (color_bytes (fb_clear (fbc_bg f) f)) end.
  rewrite Hpx by (split; lia). rewrite (color_bytes_same _ _ _ Hs). unfold look. simpl.
  rewrite glyph_space by (apply Z.mod_pos_bound; lia). by rewrite C5.
Qed.

(** [fb_console_init] clears the screen and replays the console ring: the
    screen shows a terminal on which the characters of the ring were typed. *)
Lemma fb_console_init_shows n get f :
  mode_ok (fmode f) → fb_on f = true → 8 ≤ fb_width (fmode f) → 16 ≤ fb_height (fmode f) →
  phase (fbc_ansi f) = 0 → 0 ≤ fbc_bg f < 256 → (∀ i, 0 ≤ i < n → get i ≠ 27) →
  looks (0 <? n) (fb_console_init n get f)
    (tty_write (fb_height (fmode f) / 16) (fb_width (fmode f) / 8) (get <$> seqZ 0 n) blank_tty).
Proof.
  intros Hg Hon Hw Hh Hp Hbg Hget. unfold fb_console_init. cbv zeta.
  pose proof (div_fits 16 _ ltac:(lia) Hh) as Hr. pose proof (div_fits 8 _ ltac:(lia) Hw) as Hc.
  set (f0 := Fb _ _ _ _ _ _ _ 0 0 _ _ _).
  pose proof (clear_looks f0 _ Hg Hon Hp Hbg Hr Hc eq_refl eq_refl eq_refl) as Hl.
  set (f2 := Fb _ _ _ _ true _ _ _ _ _ _ _) in *.
  assert (fbc_rows f2 = fb_height (fmode f) / 16 ∧ fbc_cols f2 = fb_width (fmode f) / 8) as [E1 E2].
  { unfold f2. simpl. unfold fb_clear. by repeat case_match. }
  assert (tty_ok (fbc_rows f2) (fbc_cols f2) blank_tty) as Hok by (rewrite E1, E2; split; simpl; lia || done).
  rewrite replay_write.
  destruct (write_looks false (get <$> seqZ 0 n) f2 blank_tty) as (H1 & _); [|done..|].
  { apply Forall_fmap, Forall_forall. intros i Hi%elem_of_seqZ. apply Hget. lia. }
  rewrite E1, E2 in H1. revert H1. destruct (Z.ltb_spec 0 n).
  - rewrite seqZ_cons by lia. done.
  - by rewrite seqZ_nil by lia.
Qed.

(** ** Every byte is safe

    The state of a running console, for all bytes, escape sequences
    included. *)
Record con_ok (f : fb) : Prop := {
  co_mode : mode_ok (fmode f);
  co_on : fb_on f = true;
  co_rows : 1 ≤ fbc_rows f ∧ fbc_rows f * 16 ≤ fb_height (fmode f);
  co_cols : 1 ≤ fbc_cols f ∧ fbc_cols f * 8 ≤ fb_width (fmode f);
  co_row : 0 ≤ fbc_row f < fbc_rows f;
  co_col : 0 ≤ fbc_col f < fbc_cols f;
  co_fg : 0 ≤ fbc_fg f < 16;
  co_bg : 0 ≤ fbc_bg f < 16;
  co_ansi : ansi_ok (fbc_ansi f) }.

Lemma con_drawn f f' : con_ok f → same_dev f f' → drawn f f' → con_ok f'.
Proof.
  intros [] [S1 S2 _ _] ([C1 C2 C3 C4 C5 C6] & C7 & C8).
  split; rewrite ?S1, ?S2, ?C2, ?C3, ?C4, ?C5, ?C6, ?C7, ?C8; done.
Qed.

Lemma con_room f : con_ok f →
  0 ≤ fbc_col f ∧ fbc_col f * 8 + 8 < 2 ^ 32 ∧ 0 ≤ fbc_row f ∧ fbc_row f * 16 + 16 < 2 ^ 32.
Proof. intros [Hg _ [_ ?] [_ ?] ? ? _ _ _]. destruct Hg as [? ? _ _]. lia. Qed.

Definition keeps (op : fb → fb) : Prop := ∀ f, con_ok f → same_dev f (op f) ∧ con_ok (op f).

Lemma keeps_comp op op' : keeps op → keeps op' → keeps (λ f, op' (op f)).
Proof. intros H H' f Hf. destruct (H f Hf) as [? Hf']. destruct (H' _ Hf'). split; [by etrans|done]. Qed.

Lemma keeps_cursor b : keeps (fbc_cursor b).
Proof.
  intros f Hf. destruct (con_room f Hf) as (? & ? & ? & ?).
  destruct (fbc_cursor_paints f (co_mode f Hf) (co_on f Hf) b) as [Hs _]; [done..|].
  split; [done|]. eapply con_drawn; [done..|apply drawn_cursor].
Qed.

Lemma keeps_draw c : keeps (fbc_draw c).
Proof.
  intros f Hf. destruct (con_room f Hf) as (? & ? & ? & ?). unfold fbc_draw. rewrite !u32_small by lia.
  destruct (fb_draw_char_paints f (co_mode f Hf) (co_on f Hf) (fbc_col f * 8) (fbc_row f * 16) c (fbc_fg f) (fbc_bg f))
    as [Hs _]; [lia..|].
  split; [done|]. eapply con_drawn; [done..|apply drawn_char].
Qed.

Lemma cursor_ok f r c : con_ok f → 0 ≤ r < fbc_rows f → 0 ≤ c < fbc_cols f →
  same_dev f (set_cursor r c f) ∧ con_ok (set_cursor r c f).
Proof. intros [] Hr Hc. by split. Qed.

(** A new line, from a column that may have run off the line. *)
Lemma newline_ok f c : con_ok f →
  same_dev f (fbc_newline (set_cursor (fbc_row f) c f)) ∧ con_ok (fbc_newline (set_cursor (fbc_row f) c f)).
Proof.
  intros Hf. unfold fbc_newline. cbv zeta. simpl. case_match; bool_split.
  - set (g := set_cursor (fbc_row f + 1) 0 (set_cursor (fbc_row f) c f)).
    destruct (fbc_scroll_spec g) as [Hs _]; [apply Hf..|].
    destruct (drawn_scroll g) as ([C1 C2 C3 C4 C5 C6] & C7 & C8). pose proof Hs as [S1 S2 S3 S4]. destruct Hf.
    split; [by split|]. simpl in *.
    split; simpl; rewrite ?S1, ?S2, ?C2, ?C3, ?C4, ?C5, ?C6, ?C7, ?C8; simpl; try done; lia.
  - apply (cursor_ok f _ 0 Hf); destruct Hf; lia.
Qed.

Lemma keeps_render c : keeps (fbc_render c).
Proof.
  intros f Hf. unfold fbc_render. pose proof Hf as [_ _ _ _ Hr Hc _ _ _].
  pose proof (Z.quot_pos (fbc_col f) 8). repeat case_match; bool_split; try done.
  - replace f with (set_cursor (fbc_row f) (fbc_col f) f) at 2 3 by (by destruct f). by apply newline_ok.
  - by apply newline_ok.
  - apply cursor_ok; [done|done|simpl in *; lia].
  - destruct (cursor_ok f (fbc_row f) (fbc_col f - 1) Hf ltac:(lia) ltac:(lia)) as [Hs Hf'].
    destruct (keeps_draw 32 _ Hf'). split; [by etrans|done].
  - destruct (keeps_draw c f Hf) as [Hs Hf'].
    destruct (newline_ok _ (fbc_col (fbc_draw c f) + 1) Hf'). split; [by etrans|done].
  - destruct (keeps_draw c f Hf) as [Hs Hf'].
    destruct (cursor_ok _ (fbc_row (fbc_draw c f)) (fbc_col (fbc_draw c f) + 1) Hf') as [Hs' Hf''];
      [apply Hf'|pose proof (co_col _ Hf'); simpl in *; lia|]. split; [by etrans|done].
Qed.

Lemma color_index_range code : 0 ≤ ansi_color_index code < 8.
Proof.
  unfold ansi_color_index, ansi_map. destruct (Z.to_nat (code - 30)) as [|[|[|[|[|[|[|[|]]]]]]]]; simpl; lia.
Qed.

Lemma colors_ok f fg bg : con_ok f → 0 ≤ fg < 16 → 0 ≤ bg < 16 →
  same_dev f (set_colors fg bg f) ∧ con_ok (set_colors fg bg f).
Proof. intros [] Hf Hb. by split. Qed.

Lemma keeps_sgr num : keeps (fbc_sgr num).
Proof.
  intros f Hf. pose proof Hf as [_ _ _ _ _ _ Hfg Hbg _]. unfold fbc_sgr.
  pose proof (color_index_range num). pose proof (color_index_range (num - 10)).
  repeat case_match; try done; apply colors_ok; try done; unfold FB_CLR_LGREY, FB_CLR_BLACK, FB_CLR_WHITE; lia.
Qed.

Lemma keeps_sgr_loop b n : keeps (λ f, (for_z (fbc_sgr_step b n) 0 n (0, false, f)).2).
Proof.
  intros f Hf.
  apply (for_z_ind (λ _ (a : Z * bool * fb), same_dev f a.2 ∧ con_ok a.2)); [done|].
  intros k [[num have] f'] _ [Hs Hf']. unfold fbc_sgr_step. simpl in *. repeat case_match; try done.
  simpl. destruct (keeps_sgr num f' Hf'). split; [by etrans|done].
Qed.

Lemma clamp_range n v : 1 ≤ n → 0 ≤ clamp n v < n.
Proof. intros Hn. unfold clamp. repeat case_match; bool_split; lia. Qed.

Lemma keeps_esc b n : keeps (fbc_esc_process b n).
Proof.
  intros f Hf. pose proof Hf as [Hg Hon [Hr _] [Hc _] _ _ Hfg Hbg _]. unfold fbc_esc_process.
  repeat case_match; try done.
  - destruct (fb_clear_paints f Hg Hon (fbc_bg f) ltac:(lia)) as [Hs _].
    assert (drawn f (fb_clear (fbc_bg f) f)) as Hd by (unfold fb_clear; by repeat case_match).
    pose proof (con_drawn _ _ Hf Hs Hd) as Hf'.
    destruct (cursor_ok _ 0 0 Hf') as [Hs' Hf'']; [destruct (co_rows _ Hf'); lia|destruct (co_cols _ Hf'); lia|].
    split; [by etrans|done].
  - apply cursor_ok; [done|by apply clamp_range..].
  - apply colors_ok; [done|by unfold FB_CLR_LGREY|by unfold FB_CLR_BLACK].
  - by apply keeps_sgr_loop.
Qed.

Lemma keeps_putc c : keeps (fb_console_putc c).
Proof.
  intros f Hf. unfold fb_console_putc. case_match; [done|].
  pose proof (ansi_feed_ok c _ (co_ansi f Hf)) as Ha. destruct (ansi_feed c (fbc_ansi f)) as [r a]. simpl in Ha.
  assert (same_dev f (set_ansi a f) ∧ con_ok (set_ansi a f)) as [Hs Hf'] by (destruct Hf; by split).
  enough (∀ op, keeps op → same_dev f (op (set_ansi a f)) ∧ con_ok (op (set_ansi a f))) as Hop.
  - destruct r; [|case_match; [|done]|].
    + apply (Hop (λ f, fbc_cursor true (fbc_render c (fbc_cursor false f)))).
      apply (keeps_comp (λ f, fbc_render c (fbc_cursor false f))); [|apply keeps_cursor].
      apply keeps_comp; [apply keeps_cursor|apply keeps_render].
    + apply Hop, keeps_cursor.
    + apply (Hop (λ f, fbc_cursor true (fbc_esc_process (buf a) (len a) f))).
      apply keeps_comp; [apply keeps_esc|apply keeps_cursor].
  - intros op Hk. destruct (Hk _ Hf'). split; [by etrans|done].
Qed.

Lemma keeps_write l : keeps (fb_write l).
Proof.
  induction l as [|c l IH]; intros f Hf; [done|]. simpl.
  destruct (keeps_putc c f Hf) as [Hs Hf']. destruct (IH _ Hf'). split; [by etrans|done].
Qed.

(** Whatever bytes are written to the framebuffer console, escape sequences
    included, no byte outside the mapped device is changed, and the cursor,
    the colours and the tokenizer stay in range. *)
Theorem fb_console_safe l f :
  con_ok f →
  con_ok (fb_write l f) ∧
  ∀ a, ¬ 0 ≤ a < fb_pitch (fmode f) * fb_height (fmode f) → fbmem (fb_write l f) a = fbmem f a.
Proof.
  intros Hf. by destruct (keeps_write l f Hf) as [[] Hf'].
Qed.

(** ** Set-up *)

Lemma fb_layout_ok i p :
  fb_invalid i = false → 0 ≤ i_width i → 0 ≤ i_height i →
  0 < fb_width (fb_layout i p) ≤ 8192 ∧ 0 < fb_height (fb_layout i p) ≤ 8192 ∧ 1 ≤ fb_pxsz (fb_layout i p) ≤ 4 ∧
  fb_bpp (fb_layout i p) ≤ 32 ∧ 8 ≤ fb_bpp (fb_layout i p).
Proof.
  intros Hi Hw Hh. unfold fb_invalid in Hi.
  assert (∀ a b c d e f,
    let g := FbMode (i_width i) (i_height i) p (i_bpp i) ((i_bpp i + 7) / 8) a b c d e f in
    0 < fb_width g ≤ 8192 ∧ 0 < fb_height g ≤ 8192 ∧ 1 ≤ fb_pxsz g ≤ 4 ∧ fb_bpp g ≤ 32 ∧ 8 ≤ fb_bpp g) as Hall.
  { intros. simpl. bool_split; (split; [lia|]); (split; [lia|]); subst;
      match goal with H : i_bpp i = _ |- _ => rewrite H end; by_eval. }
  unfold fb_layout. repeat case_match; apply Hall.
Qed.

Lemma console_init_ok n get f :
  mode_ok (fmode f) → fb_on f = true → 8 ≤ fb_width (fmode f) → 16 ≤ fb_height (fmode f) →
  ansi_ok (fbc_ansi f) → 0 ≤ fbc_fg f < 16 → 0 ≤ fbc_bg f < 16 →
  same_dev f (fb_console_init n get f) ∧ con_ok (fb_console_init n get f).
Proof.
  intros Hg Hon Hw Hh Ha Hfg Hbg. unfold fb_console_init. cbv zeta.
  set (f0 := Fb _ _ _ _ _ _ _ 0 0 _ _ _).
  assert (con_ok f0) as H0.
  { pose proof (div_fits 16 _ ltac:(lia) Hh). pose proof (div_fits 8 _ ltac:(lia) Hw). split; simpl; lia || done. }
  destruct (fb_clear_paints f0 Hg Hon (fbc_bg f) ltac:(lia)) as [Hs _].
  assert (drawn f0 (fb_clear (fbc_bg f) f0)) as Hd by (unfold fb_clear; by repeat case_match).
  pose proof (con_drawn _ _ H0 Hs Hd) as H1. set (f1 := fb_clear _ f0) in *.
  set (f2 := Fb _ _ _ _ true _ _ _ _ _ _ _). assert (con_ok f2) as H2 by (by destruct H1).
  rewrite replay_write. destruct (keeps_write (get <$> seqZ 0 n) f2 H2) as [Hs' H3]. split; [|done].
  transitivity f2; [|done]. by destruct Hs.
Qed.

Section setup.
Context {S : Type} `{Frames S} {D : Type} (dispi_read : Z → D → Z) (dispi_write : Z → Z → D → D).
(** The registers of the display device are 16 bits wide. *)
Context (dispi16 : ∀ i d, 0 ≤ dispi_read i d < 2 ^ 16).

Lemma sync_pitch g d : 0 < fb_width g ≤ 8192 → 8 ≤ fb_bpp g ≤ 32 →
  0 ≤ (vbe_sync_mode dispi_read dispi_write g d).1 < 2 ^ 28.
Proof.
  intros Hw Hb. unfold vbe_sync_mode.
  assert (∀ v b, 0 ≤ v < 2 ^ 16 → 0 ≤ b ≤ 32 → 0 ≤ u32 (v * b) / 8 < 2 ^ 28) as Hv.
  { intros v b Hv Hb'. rewrite u32_small by nia. split; [apply Z.div_pos; nia|].
    apply Z.div_lt_upper_bound; nia. }
  repeat case_match; bool_split; simpl; try lia; apply Hv; try apply dispi16; lia.
Qed.

(** [fb_init] either leaves the framebuffer off or starts a console that is in
    order: whatever the loader and the display device say, the scan lines hold
    the visible pixels, and everything that the replay of the ring drew is in
    the mapped device. *)
Theorem fb_init_ok i n get f d s f' ports d' s' :
  fb_init dispi_read dispi_write i n get f d s = Ret (f', ports, d', s') →
  fb_on f = false → fb_active f = false → ansi_ok (fbc_ansi f) →
  0 ≤ fbc_fg f < 16 → 0 ≤ fbc_bg f < 16 →
  0 ≤ i_width i → 0 ≤ i_height i → 0 ≤ i_pitch i < 2 ^ 28 →
  (fb_active f' = false ∧ fbmem f' = fbmem f ∧ s' = s) ∨
  (8 ≤ i_width i → 16 ≤ i_height i →
   con_ok f' ∧ fb_width (fmode f') = i_width i ∧ fb_height (fmode f') = i_height i ∧
   ∀ a, ¬ 0 ≤ a < fb_pitch (fmode f') * fb_height (fmode f') → fbmem f' a = fbmem f a).
Proof.
  intros Hinit Hon Hact Ha Hfg Hbg Hw Hh Hp. revert Hinit. unfold fb_init.
  case_match; [intros [= <- <- <- <-]; by left|]. case_match; [intros [= <- <- <- <-]; by left|].
  set (g := fb_layout i (fb_pitch (fmode f))).
  destruct (fb_layout_ok i (fb_pitch (fmode f))) as (Gw & Gh & Gp & Gb & Gb'); [done..|]. fold g in Gw, Gh, Gp, Gb, Gb'.
  assert (fb_width g = i_width i ∧ fb_height g = i_height i) as [Ew Eh]
    by (unfold g, fb_layout; by repeat case_match).
  case_match; [intros [= <- <- <- <-]; by left|].
  case_match eqn:Epitch; [intros [= <- <- <- <-]; by left|].
  pose proof (sync_pitch g d Gw ltac:(lia)) as Hsp.
  destruct (vbe_sync_mode dispi_read dispi_write g d) as [dp d1]. simpl in Hsp.
  set (pitch := if (negb (dp =? 0) && _ && _) then dp else i_pitch i).
  assert (fb_width g * fb_pxsz g ≤ pitch < 2 ^ 28) as Hpitch.
  { apply Z.ltb_ge in Epitch. rewrite u32_small in Epitch by nia. unfold pitch.
    destruct (negb (dp =? 0) && _ && _) eqn:E; [|lia]. bool_split. rewrite u32_small in * by nia. lia. }
  cbn [mbind outcome_bind]. destruct (fb_map _ _ _) as [s1| |]; [|done..]. simpl.
  intros [= <- _ _ _]. right.
  set (f1 := Fb _ true _ _ _ _ _ _ _ _ _ _).
  assert (mode_ok (fmode f1)) as Hg by (split; simpl; lia).
  intros W H'.
  destruct (console_init_ok n get f1) as [Hs Hc]; [done|done|simpl; lia|simpl; lia|done..|].
  split; [done|]. rewrite (sd_mode _ _ Hs). split_and!; [done|done|]. apply Hs.
Qed.
End setup.

(** ** The window of the framebuffer *)

(** The second 2 MiB of the framebuffer are in slot 105 of the high page
    directory. *)
Lemma fb_second_slot k : 512 ≤ k < 1024 →
  i2_of (u64 (FB_VMA + k * PAGE_SIZE)) = 105 ∧ i1_of (u64 (FB_VMA + k * PAGE_SIZE)) = k - 512.
Proof.
  intros Hk. unfold i2_of, i1_of, FB_VMA, PAGE_SIZE. rewrite u64_small by lia.
  rewrite !Z.shiftr_div_pow2 by lia. change 511 with (2 ^ 9 - 1). rewrite !land_mask by lia. split.
  - replace (0xffffffff8d000000 + k * 4096) with (0x200000 + (k - 512) * 4096 + 0x7fffffffc68 * 2 ^ 21) by lia.
    rewrite Z.div_add by lia. rewrite <- (Z.div_unique (0x200000 + (k - 512) * 4096) (2 ^ 21) 1 ((k - 512) * 4096)) by lia.
    reflexivity.
  - replace (0xffffffff8d000000 + k * 4096) with ((0x7fffffffc69 * 512 + (k - 512)) * 2 ^ 12) by lia.
    rewrite Z.div_mul by lia. rewrite Z.add_comm, Z.mod_add, Z.mod_small by lia. done.
Qed.

(** On a machine with more than 212 MiB of memory, [vmm_init] has filled that
    slot with the 2 MiB alias of the memory at 210 MiB, and
    [vmm_map_kernel_page] takes the aliased memory for a page table: the
    address of the framebuffer still leads to memory, and a word of memory is
    overwritten with a page table entry. *)
Theorem fb_map_clobbers_memory {S} `{FrameLaws S} kernel_end heap_phys heap_size fb_lo fb_hi pa k (s : S) :
  VIRT_TO_PHYS kernel_end ≤ 0xd000000 → 0xd400000 ≤ heap_phys + heap_size ≤ 2 ^ 29 →
  0 ≤ heap_phys → 0 ≤ heap_size → skipped fb_lo fb_hi 0xd200000 = false → 512 ≤ k < 1024 →
  ∃ s', vmm_map_kernel_page (u64 (FB_VMA + k * PAGE_SIZE)) pa PG_PCD
          (vmm_init kernel_end heap_phys heap_size fb_lo fb_hi s) = Ret s' ∧
    entry s' PD_HI (i2_of (u64 (FB_VMA + k * PAGE_SIZE))) = 0xd200083 ∧
    word s' (0xd200000 + 8 * (k - 512)) = Z.lor (Z.lor (Z.lor (frame_of pa) PG_P) PG_W) PG_PCD.
Proof.
  intros Hke Hh Hh0 Hs0 Hsk Hk. destruct (fb_second_slot k Hk) as [E2 E1].
  pose proof (vmm_init_alias kernel_end heap_phys heap_size fb_lo fb_hi s) as Hal. cbv zeta in Hal.
  pose proof (u64_range (kernel_end - HIGH_BASE)) as Hv. fold (VIRT_TO_PHYS kernel_end) in Hv.
  pose proof (ALIGN_UP_spec (VIRT_TO_PHYS kernel_end) 21) as [Hlo _]; [lia..|].
  pose proof (ALIGN_UP_spec (heap_phys + heap_size) 21) as [Hhi Hd]; [lia..|].
  rewrite (u64_small (heap_phys + heap_size)) in Hal by lia. change (2 ^ 21) with 0x200000 in *.
  assert (ALIGN_UP (heap_phys + heap_size) 0x200000 ≤ 2 ^ 30) as Hhi'.
  { destruct Hd as [q Hq]. lia. }
  specialize (Hal ltac:(lia) Hhi' ltac:(lia) 105 ltac:(lia)).
  rewrite decide_False in Hal by lia. rewrite decide_True in Hal.
  2:{ split; [lia|done]. }
  unfold vmm_map_kernel_page. rewrite E2, Hal. simpl. eexists. split; [reflexivity|]. rewrite E1.
  rewrite Hal. change (frame_of (105 * 0x200000 + 0x83)) with 0xd200000. unfold entry, set_entry.
  rewrite word_set_ne by (unfold PD_HI; lia). split; [exact Hal|]. apply word_set_eq.
Qed.

(** ** A small screen

    64 by 48 pixels of 32 bits: 8 columns and 3 rows of text. *)
Module FbDemo.
Definition info : fb_info := FbInfo 0xE0000000 64 48 256 32 true 0 0 0 0 0 0.
Definition g : fb_mode := fb_layout info 256.
Definition off : fb :=
  Fb g false (λ _, 0) (λ _, 0) false 0 0 0 0 FB_CLR_LGREY FB_CLR_BLACK (AnsiSeq 0 0 (λ _, 0)).
(** The device is mapped and the geometry of the console is known. *)
Definition on : fb :=
  Fb g true (fb_palette g) (λ _, 0) false 8 3 0 0 FB_CLR_LGREY FB_CLR_BLACK (AnsiSeq 0 0 (λ _, 0)).
Definition cleared : fb := fb_clear FB_CLR_BLACK on.
Definition start : fb :=
  Fb (fmode cleared) (fb_on cleared) (fb_pal cleared) (fbmem cleared) true (fbc_cols cleared) (fbc_rows cleared)
    (fbc_row cleared) (fbc_col cleared) (fbc_fg cleared) (fbc_bg cleared) (fbc_ansi cleared).

Lemma g_ok : mode_ok g.
Proof. split; by_eval. Qed.
Lemma start_looks : looks false start blank_tty.
Proof. apply (clear_looks on cleared); [exact g_ok|done|done|by_eval|by_eval|by_eval|done..]. Qed.
Lemma start_tty : tty_ok (fbc_rows start) (fbc_cols start) blank_tty.
Proof. split; [by_eval|by_eval|done]. Qed.
Lemma start_ok : con_ok start.
Proof. split; try exact g_ok; try done; by_eval. Qed.

(** A device that is not there. *)
Definition no_dispi : Z → unit → Z := λ _ _, 0.
End FbDemo.

Lemma fb_console_refines_witness :
  looks true (fb_write [104; 105; 10; 8; 9; 33] FbDemo.start)
    (tty_write 3 8 [104; 105; 10; 8; 9; 33] blank_tty).
Proof.
  apply (fb_console_refines false [104; 105; 10; 8; 9; 33] FbDemo.start blank_tty).
  - repeat constructor; discriminate.
  - exact FbDemo.start_looks.
  - exact FbDemo.start_tty.
Defined.

Lemma fb_console_safe_witness : con_ok (fb_write [27; 91; 50; 74; 65] FbDemo.start).
Proof. apply (fb_console_safe [27; 91; 50; 74; 65] FbDemo.start FbDemo.start_ok). Defined.

Lemma fb_map_clobbers_memory_witness :
  ∃ s', vmm_map_kernel_page (u64 (FB_VMA + 512 * PAGE_SIZE)) 0xE0200000 PG_PCD
          (vmm_init (HIGH_BASE + 0x140000) 0xf000000 0x1000000 0xE0000000 0xE0300000 Demo.s0) = Ret s' ∧
    word s' 0xd200000 = 0xE0200013.
Proof.
  destruct (fb_map_clobbers_memory (HIGH_BASE + 0x140000) 0xf000000 0x1000000 0xE0000000 0xE0300000
    0xE0200000 512 Demo.s0) as (s' & H1 & _ & H2); [by_eval|by_eval|by_eval|by_eval|by_eval|by_eval|].
  exists s'. split; [exact H1|]. exact H2.
Defined.
