(* ===== verification/Console.v ===== *)
(** The console of [kernel/print.c]: the VGA text screen, its cursor and
    colours, the ring that keeps the last output, and the fan-out of every
    character to the screen, the framebuffer and the serial line.

    The text screen is a function from cell indices to 16-bit cells; the UART
    and the ports of the CRT controller are the lists of what was sent to
    them. *)
From S2P Require Import Prelude Frames Ansi Cstring Vmm Fb.

Definition VGA_COLS : Z := 80.
Definition VGA_ROWS : Z := 25.
Definition RING_SIZE : Z := 4096.

Record console := Console {
  vga : mem;
  vrow : Z; vcol : Z;
  cur_attr : Z;
  vga_ansi : ansi_seq;
  ring_buf : Z → Z; ring_head : Z; ring_count : Z;
  uart : list Z;
  ports : list (Z * Z);
  cfb : fb }.

Definition set_vga (m : mem) (k : console) : console :=
  Console m (vrow k) (vcol k) (cur_attr k) (vga_ansi k) (ring_buf k) (ring_head k) (ring_count k)
    (uart k) (ports k) (cfb k).
Definition set_pos (r c : Z) (k : console) : console :=
  Console (vga k) r c (cur_attr k) (vga_ansi k) (ring_buf k) (ring_head k) (ring_count k)
    (uart k) (ports k) (cfb k).
Definition set_attr (a : Z) (k : console) : console :=
  Console (vga k) (vrow k) (vcol k) a (vga_ansi k) (ring_buf k) (ring_head k) (ring_count k)
    (uart k) (ports k) (cfb k).
Definition set_vansi (a : ansi_seq) (k : console) : console :=
  Console (vga k) (vrow k) (vcol k) (cur_attr k) a (ring_buf k) (ring_head k) (ring_count k)
    (uart k) (ports k) (cfb k).
Definition set_ring (b : Z → Z) (h n : Z) (k : console) : console :=
  Console (vga k) (vrow k) (vcol k) (cur_attr k) (vga_ansi k) b h n (uart k) (ports k) (cfb k).
Definition set_cfb (f : fb) (k : console) : console :=
  Console (vga k) (vrow k) (vcol k) (cur_attr k) (vga_ansi k) (ring_buf k) (ring_head k) (ring_count k)
    (uart k) (ports k) f.
Definition outbs (l : list (Z * Z)) (k : console) : console :=
  Console (vga k) (vrow k) (vcol k) (cur_attr k) (vga_ansi k) (ring_buf k) (ring_head k) (ring_count k)
    (uart k) (ports k ++ l) (cfb k).
Definition uart_putc (c : Z) (k : console) : console :=
  Console (vga k) (vrow k) (vcol k) (cur_attr k) (vga_ansi k) (ring_buf k) (ring_head k) (ring_count k)
    (uart k ++ [c]) (ports k) (cfb k).

(** ** The ring *)

Definition ring_putc (c : Z) (k : console) : console :=
  let idx := Z.rem (ring_head k + ring_count k) RING_SIZE in
  if ring_count k <? RING_SIZE then set_ring (<[idx := c]> (ring_buf k)) (ring_head k) (ring_count k + 1) k
  else set_ring (<[ring_head k := c]> (ring_buf k)) (Z.rem (ring_head k + 1) RING_SIZE) (ring_count k) k.
Definition ring_get_count (k : console) : Z := ring_count k.
Definition ring_get_char (k : console) (i : Z) : Z := ring_buf k (Z.rem (ring_head k + i) RING_SIZE).

(** ** The screen *)

Definition vga_update_cursor (k : console) : console :=
  let pos := u16 (vrow k * VGA_COLS + vcol k) in
  outbs [(0x3D4, 0x0F); (0x3D5, Z.land pos 0xFF); (0x3D4, 0x0E); (0x3D5, Z.land (Z.shiftr pos 8) 0xFF)] k.

(** [for r, c: vga\[r * VGA_COLS + c\] = 0x0700]. *)
Definition vga_blank (k : console) : console :=
  set_vga (for_z (λ r, for_z (λ c, <[r * VGA_COLS + c := 0x0700]>) 0 VGA_COLS) 0 VGA_ROWS (vga k)) k.

Definition console_init (k : console) : console :=
  let k := set_pos 0 0 (vga_blank k) in
  vga_update_cursor (outbs [(0x3D4, 0x0A); (0x3D5, 0x0D); (0x3D4, 0x0B); (0x3D5, 0x0F)] k).

Definition vga_scroll (k : console) : console :=
  let m := for_z (λ r, memcpy ((r - 1) * VGA_COLS) (r * VGA_COLS) (Z.to_nat VGA_COLS)) 1 VGA_ROWS (vga k) in
  set_vga (for_z (λ c, <[(VGA_ROWS - 1) * VGA_COLS + c := 0x0700]>) 0 VGA_COLS m) k.

(** One parameter of [ESC\[...m], on the foreground and the background. *)
Definition sgr (num : Z) (a : Z * Z) : Z * Z :=
  let '(fg, bg) := a in
  if num =? 0 then (7, 0)
  else if (30 <=? num) && (num <=? 37) then (ansi_color_index num, bg)
  else if (40 <=? num) && (num <=? 47) then (fg, ansi_color_index (num - 10))
  else if num =? 1 then (Z.lor fg 0x08, bg)
  else (fg, bg).

Definition sgr_step (b : Z → Z) (n i : Z) (a : Z * bool * (Z * Z)) : Z * bool * (Z * Z) :=
  let '(num, have, col) := a in
  if digit (b i) then (num * 10 + (b i - 48), true, col)
  else if ((b i =? 59) || (i =? n - 1)) && have then (0, false, sgr num col)
  else (num, have, col).

Definition esc_process (b : Z → Z) (n : Z) (k : console) : console :=
  let last := b (n - 1) in
  if last =? 74 then
    if (2 <=? n) && (b 0 =? 50) then set_pos 0 0 (vga_blank k) else k
  else if last =? 72 then
    let '(row, col) := csi_position b n in set_pos (clamp VGA_ROWS row) (clamp VGA_COLS col) k
  else if last =? 109 then
    if n =? 1 then set_attr 0x07 k else
    let '(fg, bg) := (for_z (sgr_step b n) 0 n
      (0, false, (Z.land (cur_attr k) 0x0F, Z.land (Z.shiftr (cur_attr k) 4) 0x07))).2 in
    set_attr (u8 (Z.lor (Z.shiftl bg 4) fg)) k
  else k.

(** [vcol = 0; if (++vrow >= VGA_ROWS) { vga_scroll(); vrow--; }]. *)
Definition vga_newline (k : console) : console :=
  let k := set_pos (vrow k + 1) 0 k in
  if VGA_ROWS <=? vrow k then let k := vga_scroll k in set_pos (vrow k - 1) (vcol k) k else k.

Definition put_cell (c : Z) (k : console) : console :=
  set_vga (<[vrow k * VGA_COLS + vcol k := Z.lor (Z.shiftl (cur_attr k) 8) (u8 c)]> (vga k)) k.

Definition vga_switch (c : Z) (k : console) : console :=
  if c =? 8 then
    if 0 <? vcol k then put_cell 32 (set_pos (vrow k) (vcol k - 1) k) else k
  else if c =? 10 then vga_newline k
  else if c =? 13 then k
  else if c =? 9 then
    let k := set_pos (vrow k) ((Z.quot (vcol k) 8 + 1) * 8) k in
    if VGA_COLS <=? vcol k then vga_newline k else k
  else let k := put_cell c k in set_pos (vrow k) (vcol k + 1) k.

(** A line that is full is left when the next character comes. *)
Definition vga_render (c : Z) (k : console) : console :=
  vga_switch c (if VGA_COLS <=? vcol k then vga_newline k else k).

Definition console_putc (c : Z) (k : console) : console :=
  let k := set_cfb (fb_console_putc c (cfb k)) k in
  let '(r, a) := ansi_feed c (vga_ansi k) in
  let k := set_vansi a k in
  match r with
  | ANSI_DONE => vga_update_cursor (esc_process (buf a) (len a) k)
  | ANSI_CONSUMED => k
  | ANSI_TEXT => vga_update_cursor (ring_putc c (uart_putc c (vga_render c k)))
  end.

(** [console_write] of [kernel/fs/vfs.c], and the loop of [kvprintf]. *)
Definition console_puts (l : list Z) (k : console) : console := foldl (λ k c, console_putc c k) k l.
