(* ===== verification/ConsoleFacts.v ===== *)
(** Properties of the console: the cursor and every store stay on the screen,
    the ring and the serial line carry exactly the text of the stream, and
    what was printed before the framebuffer started is replayed on it. *)
From S2P Require Import Prelude Frames Ansi Cstring Vmm Fb FbFacts Console.

#[local] Arguments for_z : simpl never.
#[local] Arguments memcpy : simpl never.

(** ** The screen *)

Lemma blank_row base n (m : mem) a :
  for_z (λ c, <[base + c := 0x0700]>) 0 n m a = if decide (base ≤ a < base + n) then 0x0700 else m a.
Proof.
  pose proof (for_z_spec (λ (m : mem) i, m (base + i)) (λ c, <[base + c := 0x0700]>) 0 n m (λ _, 0x0700)) as Hs.
  specialize (Hs ltac:(intros k x i Hk; case_decide;
    [subst; apply fn_lookup_insert | apply fn_lookup_insert_ne; lia]) (a - base)).
  simpl in Hs. rewrite Zplus_minus in Hs. rewrite Hs. repeat case_decide; done || lia.
Qed.

Lemma vga_blank_spec k a :
  vga (vga_blank k) a = if decide (0 ≤ a < VGA_ROWS * VGA_COLS) then 0x0700 else vga k a.
Proof.
  unfold vga_blank. cbn [vga set_vga].
  pose proof (for_z_ind (λ (j : Z) (m : mem), ∀ a, m a = if decide (0 ≤ a < j * VGA_COLS) then 0x0700 else vga k a)
    (λ r, for_z (λ c, <[r * VGA_COLS + c := 0x0700]>) 0 VGA_COLS) 0 VGA_ROWS (vga k)) as Hind.
  simpl in Hind. apply Hind.
  - intros b. by rewrite decide_False by lia.
  - intros j m Hj Hm b. rewrite blank_row, Hm. unfold VGA_COLS in *. repeat case_decide; done || lia.
Qed.

(** Row [r] takes the contents of row [r + 1]; the last row is blank. *)
Lemma vga_scroll_spec k a :
  vga (vga_scroll k) a =
    if decide (0 ≤ a < (VGA_ROWS - 1) * VGA_COLS) then vga k (a + VGA_COLS)
    else if decide (0 ≤ a < VGA_ROWS * VGA_COLS) then 0x0700 else vga k a.
Proof.
  unfold vga_scroll. cbn [vga set_vga]. rewrite blank_row.
  pose proof (for_z_ind (λ (j : Z) (m : mem), ∀ a,
      m a = if decide (0 ≤ a < (j - 1) * VGA_COLS) then vga k (a + VGA_COLS) else vga k a)
    (λ r, memcpy ((r - 1) * VGA_COLS) (r * VGA_COLS) (Z.to_nat VGA_COLS)) 1 VGA_ROWS (vga k)) as Hind.
  simpl in Hind. rewrite Hind.
  - unfold VGA_ROWS, VGA_COLS. repeat case_decide; done || lia.
  - intros b. by rewrite decide_False by lia.
  - intros j m Hj Hm b. rewrite memcpy_spec by (unfold VGA_COLS; lia). rewrite Z2Nat.id by done.
    unfold VGA_COLS in *. rewrite !Hm. repeat case_decide; try done; try lia. f_equal. lia.
Qed.

(** ** Invariant *)

Record screen_ok (k : console) : Prop := {
  so_row : 0 ≤ vrow k < VGA_ROWS;
  so_col : 0 ≤ vcol k ≤ VGA_COLS;
  so_attr : 0 ≤ cur_attr k < 256;
  so_ansi : ansi_ok (vga_ansi k);
  so_head : 0 ≤ ring_head k < RING_SIZE;
  so_count : 0 ≤ ring_count k ≤ RING_SIZE }.

(** A step that keeps the invariant and the cells off the screen. *)
Definition stays (op : console → console) : Prop := ∀ k, screen_ok k →
  screen_ok (op k) ∧
  (∀ a, ¬ 0 ≤ a < VGA_ROWS * VGA_COLS → vga (op k) a = vga k a) ∧
  (∀ a, ¬ 0 ≤ a < RING_SIZE → ring_buf (op k) a = ring_buf k a).

Lemma stays_comp op op' : stays op → stays op' → stays (λ k, op' (op k)).
Proof.
  intros H H' k Hk. destruct (H k Hk) as (Hk' & H1 & H2). destruct (H' _ Hk') as (Hk'' & H3 & H4).
  split_and!; [done| |]; intros a Ha; rewrite ?H3, ?H4 by done; auto.
Qed.

Lemma stays_cursor : stays vga_update_cursor.
Proof. intros k []. by split. Qed.
Lemma stays_uart c : stays (uart_putc c).
Proof. intros k []. by split. Qed.
Lemma stays_cfb g : stays (λ k, set_cfb (g (cfb k)) k).
Proof. intros k []. by split. Qed.

Lemma stays_ring c : stays (ring_putc c).
Proof.
  intros k [H1 H2 H3 H4 H5 H6]. unfold ring_putc, RING_SIZE in *.
  rewrite !Z.rem_mod_nonneg by lia.
  pose proof (Z.mod_pos_bound (ring_head k + ring_count k) 4096). pose proof (Z.mod_pos_bound (ring_head k + 1) 4096).
  case_match; bool_split; (split_and!; [by split; simpl; unfold RING_SIZE; try lia|done|]);
    intros a Ha; simpl; apply fn_lookup_insert_ne; lia.
Qed.

Lemma put_cell_ok c k : screen_ok k → vcol k < VGA_COLS →
  screen_ok (put_cell c k) ∧
  (∀ a, ¬ 0 ≤ a < VGA_ROWS * VGA_COLS → vga (put_cell c k) a = vga k a) ∧
  (∀ a, ¬ 0 ≤ a < RING_SIZE → ring_buf (put_cell c k) a = ring_buf k a).
Proof.
  intros [H1 H2 H3 H4 H5 H6] Hc. split_and!; [by split| |done].
  intros a Ha. simpl. apply fn_lookup_insert_ne. unfold VGA_ROWS, VGA_COLS in *. lia.
Qed.

(** The position may be anything on the way to a new line. *)
Lemma newline_stays k c : screen_ok k →
  screen_ok (vga_newline (set_pos (vrow k) c k)) ∧ vcol (vga_newline (set_pos (vrow k) c k)) = 0 ∧
  (∀ a, ¬ 0 ≤ a < VGA_ROWS * VGA_COLS → vga (vga_newline (set_pos (vrow k) c k)) a = vga k a) ∧
  (∀ a, ¬ 0 ≤ a < RING_SIZE → ring_buf (vga_newline (set_pos (vrow k) c k)) a = ring_buf k a).
Proof.
  intros [H1 H2 H3 H4 H5 H6]. unfold vga_newline. cbv zeta. simpl vrow. case_match; bool_split.
  - split_and!; [|done| |done].
    + split; simpl; unfold VGA_COLS; done || lia.
    + intros a Ha. cbn [vga set_pos]. rewrite vga_scroll_spec. simpl vga. unfold VGA_ROWS, VGA_COLS in *.
      rewrite !decide_False by lia. done.
  - split_and!; [|done|done|done]. split; simpl; unfold VGA_COLS; done || lia.
Qed.

Lemma set_pos_ok k r c : screen_ok k → 0 ≤ r < VGA_ROWS → 0 ≤ c ≤ VGA_COLS → screen_ok (set_pos r c k).
Proof. intros [] Hr Hc. by split. Qed.
Lemma set_pos_same k : set_pos (vrow k) (vcol k) k = k.
Proof. by destruct k. Qed.

(** Writing inside the screen, as a relation. *)
Definition stay (k k' : console) : Prop :=
  screen_ok k' ∧
  (∀ a, ¬ 0 ≤ a < VGA_ROWS * VGA_COLS → vga k' a = vga k a) ∧
  (∀ a, ¬ 0 ≤ a < RING_SIZE → ring_buf k' a = ring_buf k a).
Lemma stay_trans k1 k2 k3 : stay k1 k2 → stay k2 k3 → stay k1 k3.
Proof.
  intros (H1 & H2 & H3) (I1 & I2 & I3). split_and!; [done| |]; intros a Ha; rewrite ?I2, ?I3 by done; auto.
Qed.
Lemma stay_refl k : screen_ok k → stay k k.
Proof. by intros. Qed.

Lemma newline_stay k : screen_ok k → stay k (vga_newline k) ∧ vcol (vga_newline k) = 0.
Proof.
  intros Hk. destruct (newline_stays k (vcol k) Hk) as (H1 & H2 & H3 & H4). by rewrite set_pos_same in *.
Qed.

Lemma switch_stay c k : screen_ok k → vcol k < VGA_COLS → stay k (vga_switch c k).
Proof.
  intros Hk Hc. pose proof (so_row _ Hk). pose proof (so_col _ Hk).
  assert (∀ c, 0 ≤ c ≤ VGA_COLS → stay k (set_pos (vrow k) c k)) as Hp.
  { intros c' Hc'. split_and!; [by apply set_pos_ok|done..]. }
  unfold vga_switch. cbv zeta. repeat case_match; bool_split; try by apply stay_refl.
  - eapply stay_trans; [apply (Hp (vcol k - 1)); lia|]. apply put_cell_ok; [apply set_pos_ok; done || lia|simpl; lia].
  - by apply newline_stay.
  - destruct (newline_stays k ((Z.quot (vcol k) 8 + 1) * 8) Hk) as (? & _ & ? & ?). done.
  - apply Hp. pose proof (Z.quot_pos (vcol k) 8). simpl in *. lia.
  - destruct (put_cell_ok c k Hk Hc) as (P1 & P2 & P3). split_and!; [|done..].
    apply set_pos_ok; [done|done|simpl; lia].
Qed.

Lemma stays_render c : stays (vga_render c).
Proof.
  intros k Hk. unfold vga_render. case_match; bool_split; [|by apply switch_stay].
  destruct (newline_stay k Hk) as [Hs Hc].
  eapply stay_trans; [exact Hs|]. apply switch_stay; [apply Hs|by rewrite Hc].
Qed.

(** ** Escape sequences *)

Lemma stays_esc b n : stays (esc_process b n).
Proof.
  intros k Hk. unfold esc_process. repeat case_match; try by apply stay_refl.
  - split_and!; [destruct Hk; split; try done|cbn [vga set_pos]; intros a Ha|done].
    rewrite vga_blank_spec. by rewrite decide_False.
  - split_and!; [|done..]. apply set_pos_ok; [done|by apply clamp_range|].
    pose proof (clamp_range VGA_COLS z0 ltac:(done)). lia.
  - split_and!; [|done..]. destruct Hk. by split.
  - split_and!; [|done..]. destruct Hk. split; try done. apply u8_range.
Qed.

Lemma stays_putc c : stays (console_putc c).
Proof.
  intros k Hk. unfold console_putc. cbv zeta. cbn [vga_ansi set_cfb].
  pose proof (ansi_feed_ok c _ (so_ansi k Hk)) as Ha. destruct (ansi_feed c (vga_ansi k)) as [r a]. simpl in Ha.
  set (k1 := set_vansi a _).
  assert (stay k k1) as Hs by (split_and!; [destruct Hk; by split|done..]). clearbody k1.
  destruct r; [|done|]; (eapply stay_trans; [exact Hs|]).
  - apply (stays_comp (λ k, ring_putc c (uart_putc c (vga_render c k)))); [|apply stays_cursor|apply Hs].
    apply (stays_comp (λ k, uart_putc c (vga_render c k))); [|apply stays_ring].
    apply stays_comp; [apply stays_render|apply stays_uart].
  - apply (stays_comp (esc_process (buf a) (len a))); [apply stays_esc|apply stays_cursor|apply Hs].
Qed.

(** Whatever is printed, the cursor stays on the screen and no cell outside
    the 80 by 25 screen, and no byte outside the ring, is ever written. *)
Theorem console_safe l k :
  screen_ok k →
  screen_ok (console_puts l k) ∧
  (∀ a, ¬ 0 ≤ a < VGA_ROWS * VGA_COLS → vga (console_puts l k) a = vga k a) ∧
  (∀ a, ¬ 0 ≤ a < RING_SIZE → ring_buf (console_puts l k) a = ring_buf k a).
Proof.
  revert k. induction l as [|c l IH]; intros k Hk; [by apply stay_refl|].
  eapply stay_trans; [exact (stays_putc c k Hk)|]. apply IH. by apply stays_putc.
Qed.

(** ** The log *)

(** The text of a stream: the characters that are no part of an escape
    sequence. *)
Fixpoint texts (l : list Z) (a : ansi_seq) : list Z :=
  match l with
  | [] => []
  | c :: l' => let '(r, a') := ansi_feed c a in
               if decide (r = ANSI_TEXT) then c :: texts l' a' else texts l' a'
  end.

Lemma texts_no_esc l a : Forall (λ c, c ≠ 27) (texts l a).
Proof.
  revert a. induction l as [|c l IH]; intros a; simpl; [done|].
  destruct (ansi_feed c a) as [r a'] eqn:E. case_decide as Hr; [|done]. constructor; [|done]. subst.
  revert E. unfold ansi_feed. repeat case_match; try done. by bool_split.
Qed.

Definition lastn {A} (n : nat) (l : list A) : list A := drop (length l - n) l.

Lemma lastn_app {A} n (l l' : list A) : lastn n (lastn n l ++ l') = lastn n (l ++ l').
Proof.
  unfold lastn. rewrite !length_app, length_drop.
  destruct (decide (length l ≤ n)%nat).
  - replace (length l - n)%nat with 0%nat by lia. by rewrite drop_0, Nat.sub_0_r.
  - destruct (decide (length l' ≤ n)%nat).
    + rewrite !drop_app_le by (rewrite ?length_drop; lia). rewrite drop_drop. f_equal. f_equal. lia.
    + rewrite !drop_app_ge by (rewrite ?length_drop; lia). f_equal. rewrite length_drop. lia.
Qed.

Lemma lastn_lastn {A} n (l : list A) : lastn n (lastn n l) = lastn n l.
Proof. pose proof (lastn_app n l []) as H. by rewrite !app_nil_r in H. Qed.

Lemma Forall_lastn {A} (P : A → Prop) n l : Forall P l → Forall P (lastn n l).
Proof. apply Forall_drop. Qed.

(** What the ring holds, oldest first. *)
Definition ring_text (k : console) : list Z := ring_get_char k <$> seqZ 0 (ring_get_count k).

Lemma ring_index h i j : 0 ≤ h < RING_SIZE → 0 ≤ i < RING_SIZE → 0 ≤ j < RING_SIZE →
  (h + i) mod RING_SIZE = (h + j) mod RING_SIZE → i = j.
Proof.
  unfold RING_SIZE. intros Hh Hi Hj He.
  pose proof (Z.div_mod (h + i) 4096). pose proof (Z.div_mod (h + j) 4096). nia.
Qed.

Lemma ring_putc_text c k : 0 ≤ ring_head k < RING_SIZE → 0 ≤ ring_count k ≤ RING_SIZE →
  ring_text (ring_putc c k) = lastn 4096 (ring_text k ++ [c]).
Proof.
  intros Hh Hc. unfold ring_putc, ring_text, ring_get_char, ring_get_count.
  assert (RING_SIZE = 4096) as HR by done. case_match; bool_split; simpl.
  - unfold lastn. rewrite length_app, length_fmap, length_seqZ. simpl length.
    replace (Z.to_nat (ring_count k) + 1 - 4096)%nat with 0%nat by lia. rewrite drop_0.
    rewrite seqZ_app, fmap_app by lia. f_equal.
    + apply list_fmap_ext. intros i z Hz%lookup_seqZ. rewrite !Z.rem_mod_nonneg by lia.
      apply fn_lookup_insert_ne. intros He%ring_index; lia.
    + simpl. by rewrite fn_lookup_insert.
  - replace (ring_count k) with RING_SIZE by lia.
    unfold lastn. rewrite length_app, length_fmap, length_seqZ. simpl length.
    change (Z.to_nat RING_SIZE + 1 - 4096)%nat with 1%nat.
    assert (seqZ 0 RING_SIZE = seqZ 0 4095 ++ [4095]) as E1 by (rewrite HR; apply (seqZ_app 0 4095 1); lia).
    assert (seqZ 0 RING_SIZE = 0 :: seqZ 1 4095) as E2 by (rewrite HR; apply seqZ_cons; lia).
    rewrite E1 at 1. rewrite E2, fmap_app, (fmap_cons _ 0). cbn [app drop]. rewrite drop_0. f_equal.
    + apply list_eq. intros i. rewrite !list_lookup_fmap. destruct (decide (Z.of_nat i < 4095)).
      * rewrite !lookup_seqZ_lt by lia. simpl. f_equal.
        rewrite HR in Hh |- *. pose proof (Z.mod_pos_bound (ring_head k + 1) 4096).
        rewrite (Z.rem_mod_nonneg (ring_head k + 1)), !Z.rem_mod_nonneg, Zplus_mod_idemp_l by lia. replace (ring_head k + 1 + (0 + Z.of_nat i)) with (ring_head k + (1 + Z.of_nat i)) by lia.
        apply fn_lookup_insert_ne. intros He. 
        assert (0 = 1 + Z.of_nat i); [|lia]. apply (ring_index (ring_head k)); try lia.
        rewrite Z.add_0_r, HR, <- He, Z.mod_small by lia. done.
      * rewrite !lookup_seqZ_ge by lia. done.
    + simpl. rewrite HR in Hh |- *. pose proof (Z.mod_pos_bound (ring_head k + 1) 4096).
      rewrite (Z.rem_mod_nonneg (ring_head k + 1)), !Z.rem_mod_nonneg, Zplus_mod_idemp_l by lia. replace (ring_head k + 1 + 4095) with (ring_head k + 1 * 4096) by lia.
      rewrite Z.mod_add, Z.mod_small by lia. by rewrite fn_lookup_insert.
Qed.

(** The steps on the screen alone. *)
Record same_log (k k' : console) : Prop := {
  sl_uart : uart k' = uart k;
  sl_ansi : vga_ansi k' = vga_ansi k;
  sl_buf : ring_buf k' = ring_buf k;
  sl_head : ring_head k' = ring_head k;
  sl_count : ring_count k' = ring_count k }.

Lemma render_log c k : same_log k (vga_render c k).
Proof. unfold vga_render, vga_switch, vga_newline. cbv zeta. repeat case_match; done. Qed.
Lemma esc_log b n k : same_log k (esc_process b n k).
Proof. unfold esc_process. repeat case_match; done. Qed.

Lemma ring_text_same k k' : ring_buf k' = ring_buf k → ring_head k' = ring_head k →
  ring_count k' = ring_count k → ring_text k' = ring_text k.
Proof. intros H1 H2 H3. unfold ring_text, ring_get_char, ring_get_count. by rewrite H1, H2, H3. Qed.

Lemma putc_log c k : screen_ok k →
  vga_ansi (console_putc c k) = (ansi_feed c (vga_ansi k)).2 ∧
  uart (console_putc c k) = uart k ++ texts [c] (vga_ansi k) ∧
  ring_text (console_putc c k) = if decide ((ansi_feed c (vga_ansi k)).1 = ANSI_TEXT)
                                 then lastn 4096 (ring_text k ++ [c]) else ring_text k.
Proof.
  intros Hk. unfold console_putc. cbv zeta. cbn [vga_ansi set_cfb]. simpl texts.
  destruct (ansi_feed c (vga_ansi k)) as [r a]. set (k1 := set_vansi a _).
  destruct r; simpl fst; simpl snd; rewrite ?decide_True, ?decide_False by done.
  - destruct (render_log c k1) as [L1 L2 L3 L4 L5].
    set (k2 := uart_putc c (vga_render c k1)).
    split_and!.
    + transitivity (vga_ansi k2); [unfold ring_putc; by case_match|exact L2].
    + transitivity (uart k2); [unfold ring_putc; by case_match|]. unfold k2. simpl. by rewrite L1.
    + change (ring_text (vga_update_cursor ?x)) with (ring_text x). rewrite ring_putc_text.
      * by rewrite (ring_text_same k k2).
      * unfold k2. simpl. rewrite L4. apply Hk.
      * unfold k2. simpl. rewrite L5. apply Hk.
  - by rewrite app_nil_r.
  - destruct (esc_log (buf a) (len a) k1) as [L1 L2 L3 L4 L5]. rewrite app_nil_r. split_and!; [by simpl..|].
    by apply (ring_text_same k).
Qed.

Lemma puts_log l k : screen_ok k → ring_text k = lastn 4096 (ring_text k) →
  uart (console_puts l k) = uart k ++ texts l (vga_ansi k) ∧
  ring_text (console_puts l k) = lastn 4096 (ring_text k ++ texts l (vga_ansi k)).
Proof.
  revert k. induction l as [|c l IH]; intros k Hk Hr; simpl; [by rewrite !app_nil_r|].
  destruct (putc_log c k Hk) as (H1 & H2 & H3). simpl texts in H2.
  destruct (stays_putc c k Hk) as [Hk' _].
  destruct (IH (console_putc c k) Hk') as [I1 I2].
  { rewrite H3. case_decide; [|done]. by rewrite lastn_lastn. }
  rewrite I1, I2, H1, H2, H3. destruct (ansi_feed c (vga_ansi k)) as [r a]. simpl.
  destruct (decide (r = ANSI_TEXT)); rewrite <- ?app_assoc; [|done]. split; [done|].
  by rewrite lastn_app, <- app_assoc.
Qed.

(** The serial line receives exactly the text of what is printed, and the
    ring holds its last 4096 characters in order. *)
Theorem console_log l k :
  screen_ok k → ring_count k = 0 →
  uart (console_puts l k) = uart k ++ texts l (vga_ansi k) ∧
  ring_text (console_puts l k) = lastn 4096 (texts l (vga_ansi k)).
Proof.
  intros Hk Hc. assert (ring_text k = []) as Hr by (unfold ring_text, ring_get_count; by rewrite Hc).
  destruct (puts_log l k Hk) as [H1 H2]; [by rewrite Hr|]. by rewrite Hr in H2.
Qed.

(** C27. The boot log: when the framebuffer starts, its console shows a terminal
    on which the last 4096 characters of text printed so far were typed.  The
    text is what stands outside escape sequences: the ring does not take those,
    so colours and cursor movements are not replayed, although the comment on
    the ring says that it captures every character.  Some text must have been
    printed, and the screen be large enough for one character. *)
Theorem boot_log_replayed l k f :
  screen_ok k → ring_count k = 0 → texts l (vga_ansi k) ≠ [] →
  mode_ok (fmode f) → fb_on f = true → 8 ≤ fb_width (fmode f) → 16 ≤ fb_height (fmode f) →
  phase (fbc_ansi f) = 0 → 0 ≤ fbc_bg f < 256 →
  looks true (fb_console_init (ring_get_count (console_puts l k)) (ring_get_char (console_puts l k)) f)
    (tty_write (fb_height (fmode f) / 16) (fb_width (fmode f) / 8)
       (lastn 4096 (texts l (vga_ansi k))) blank_tty).
Proof.
  intros Hk Hc Hne Hg Hon Hw Hh Hp Hbg.
  assert (ring_text k = []) as Hr by (unfold ring_text, ring_get_count; by rewrite Hc).
  destruct (puts_log l k Hk) as [_ H2]; [by rewrite Hr|]. rewrite Hr in H2. simpl in H2.
  set (k' := console_puts l k) in *.
  pose proof (fb_console_init_shows (ring_get_count k') (ring_get_char k') f Hg Hon Hw Hh Hp Hbg) as Hl.
  fold (ring_text k') in Hl. rewrite H2 in Hl.
  assert (0 < ring_get_count k') as Hpos.
  { destruct (decide (ring_get_count k' ≤ 0)); [|lia]. exfalso. revert H2. unfold ring_text.
    rewrite seqZ_nil by done. destruct (texts l (vga_ansi k)) as [|c t]; [done|]. unfold lastn. 
    intros H%(f_equal length). rewrite length_drop in H. simpl in H. lia. }
  rewrite (proj2 (Z.ltb_lt _ _) Hpos) in Hl. apply Hl.
  intros i Hi. assert (ring_get_char k' i ∈ ring_text k') as Hin.
  { apply list_elem_of_fmap. exists i. split; [done|]. apply elem_of_seqZ. lia. }
  rewrite H2 in Hin. pose proof (Forall_lastn _ 4096 _ (texts_no_esc l (vga_ansi k))) as Hf.
  rewrite Forall_forall in Hf. by apply Hf.
Qed.

(** ** Text on the screen *)

Definition printable (c : Z) : Prop := 32 ≤ c < 127.

Lemma putc_visible c k : printable c → phase (vga_ansi k) = 0 → vcol k < VGA_COLS →
  vga (console_putc c k) = <[vrow k * VGA_COLS + vcol k := Z.lor (Z.shiftl (cur_attr k) 8) c]> (vga k) ∧
  vrow (console_putc c k) = vrow k ∧ vcol (console_putc c k) = vcol k + 1 ∧
  cur_attr (console_putc c k) = cur_attr k ∧ vga_ansi (console_putc c k) = vga_ansi k.
Proof.
  intros [Hc1 Hc2] Hp Hcol. unfold console_putc, ansi_feed. cbv zeta. cbn [vga_ansi set_cfb].
  rewrite Hp. rewrite (proj2 (Z.eqb_neq c 27)) by lia. simpl (if 0 =? 0 then _ else _). cbv iota.
  unfold vga_render. cbn [vcol set_vansi set_cfb]. rewrite (proj2 (Z.leb_gt _ _)) by lia.
  unfold vga_switch. rewrite !(proj2 (Z.eqb_neq c _)) by lia. unfold ring_putc, put_cell.
  rewrite u8_small by lia. by case_match.
Qed.

(** A line of printable characters that fits in the rest of the current row
    appears there, character by character, in the current colours; the cursor
    moves behind it and no other cell changes. *)
Theorem console_shows_line l k :
  Forall printable l → phase (vga_ansi k) = 0 → vcol k + Z.of_nat (length l) ≤ VGA_COLS →
  vrow (console_puts l k) = vrow k ∧ vcol (console_puts l k) = vcol k + Z.of_nat (length l) ∧
  ∀ a, vga (console_puts l k) a =
    if decide (0 ≤ a - (vrow k * VGA_COLS + vcol k) < Z.of_nat (length l))
    then Z.lor (Z.shiftl (cur_attr k) 8) (default 0 (l !! Z.to_nat (a - (vrow k * VGA_COLS + vcol k))))
    else vga k a.
Proof.
  intros Hl. revert k. induction Hl as [|c l Hc _ IH]; intros k Hp Hn; simpl length in *.
  { simpl. split_and!; [done|lia|]. intros a. by rewrite decide_False by lia. }
  destruct (putc_visible c k Hc Hp ltac:(lia)) as (H1 & H2 & H3 & H4 & H5).
  simpl. destruct (IH (console_putc c k)) as (I1 & I2 & I3); [by rewrite H5|lia|].
  rewrite I1, I2, H2, H3. split_and!; [done|lia|]. intros a. rewrite I3, H1, H2, H3, H4.
  set (p := vrow k * VGA_COLS + vcol k).
  replace (vrow k * VGA_COLS + (vcol k + 1)) with (p + 1) by lia.
  destruct (decide (a = p)) as [->|Hne].
  - rewrite decide_False, decide_True by lia. rewrite fn_lookup_insert. by rewrite Z.sub_diag.
  - rewrite fn_lookup_insert_ne by lia. repeat case_decide; try lia; try done.
    replace (Z.to_nat (a - p)) with (S (Z.to_nat (a - (p + 1)))) by lia. done.
Qed.

(** ** Colours of escape sequences *)

Module ConsoleDemo.
Definition k0 : console :=
  Console (λ _, 0x0700) 0 0 0x07 (AnsiSeq 0 0 (λ _, 0)) (λ _, 0) 0 0 [] [] FbDemo.off.
Lemma console_ok : screen_ok k0.
Proof. split; by_eval. Qed.
End ConsoleDemo.

(** [panic] starts with [ESC\[1;31m], "bold red": the colour that follows the
    bold attribute replaces it, so the screen shows plain red. *)
Theorem panic_not_bold : cur_attr (console_puts [27; 91; 49; 59; 51; 49; 109] ConsoleDemo.k0) = 0x04.
Proof. reflexivity. Qed.

(** A letter that comes when the buffer is full ends the sequence without
    being stored. *)
Lemma full_drops c s : phase s = 2 → len s = 7 → letter c = true →
  (ansi_feed c s).1 = ANSI_DONE ∧ buf (ansi_feed c s).2 (len (ansi_feed c s).2 - 1) = buf s 6.
Proof.
  intros Hp Hl Hc. unfold ansi_feed. rewrite Hp, Hl. simpl. rewrite Hc. simpl. split; [done|].
  rewrite Hl. by rewrite fn_lookup_insert_ne.
Qed.

(** So the final letter of a sequence with seven parameter bytes does not fit
    in the buffer: the last stored byte is a parameter, and the console
    ignores the sequence. *)
Theorem ansi_drops_letter (l : list Z) (c : Z) (s : ansi_seq) :
  phase s = 2 → len s = 0 → length l = 7%nat → Forall (λ c, letter c = false) l → letter c = true →
  (ansi_feed c (ansi_feeds l s)).1 = ANSI_DONE ∧
  Some (buf (ansi_feed c (ansi_feeds l s)).2 (len (ansi_feed c (ansi_feeds l s)).2 - 1)) = l !! 6%nat.
Proof.
  intros Hp Hl Hn Hf Hc. destruct (feed_params l s Hp) as (H1 & H2 & H3 & _); [lia|done|rewrite Hl, Hn; done|].
  rewrite Hl, Hn in H2. destruct (full_drops c _ H1 H2 Hc) as [-> ->]. split; [done|].
  destruct (lookup_lt_is_Some_2 l 6) as [x Hx]; [lia|]. rewrite Hx. f_equal.
  rewrite <- (H3 6%nat x Hx), Hl. done.
Qed.

Lemma console_safe_witness :
  screen_ok (console_puts [27; 91; 57; 57; 59; 57; 57; 72; 10; 9; 65] ConsoleDemo.k0).
Proof. apply (console_safe [27; 91; 57; 57; 59; 57; 57; 72; 10; 9; 65] ConsoleDemo.k0 ConsoleDemo.console_ok). Defined.

Lemma console_log_witness : uart (console_puts [27; 91; 109; 79; 75] ConsoleDemo.k0) = [79; 75].
Proof. apply (console_log [27; 91; 109; 79; 75] ConsoleDemo.k0 ConsoleDemo.console_ok eq_refl). Defined.

Lemma boot_log_replayed_witness :
  looks true
    (fb_console_init (ring_get_count (console_puts [79; 75; 10] ConsoleDemo.k0))
       (ring_get_char (console_puts [79; 75; 10] ConsoleDemo.k0)) FbDemo.on)
    (tty_write 3 8 [79; 75; 10] blank_tty).
Proof.
  apply (boot_log_replayed [79; 75; 10] ConsoleDemo.k0 FbDemo.on ConsoleDemo.console_ok eq_refl);
    [discriminate|exact FbDemo.g_ok|reflexivity|by_eval|by_eval|reflexivity|by_eval].
Defined.

Lemma console_shows_line_witness : vga (console_puts [79; 75] ConsoleDemo.k0) 1 = 0x074B.
Proof.
  destruct (console_shows_line [79; 75] ConsoleDemo.k0) as (_ & _ & H);
    [repeat constructor; by_eval|reflexivity|by_eval|].
  rewrite (H 1). reflexivity.
Defined.
