(* ===== verification/Print.v ===== *)
(** Formatted output ([kernel/print.c]): [emit], [putnum], [vsnprintf] and
    [kprintf] on top of the console.

    Characters are bytes.  A format is the list of its bytes up to the
    terminator, which is read as 0 at the end of the list; moving past the
    terminator is [Stuck].  A variable argument is a 64-bit word or a pointer
    to a string; reading one as the other is [Stuck]. *)
From Stdlib Require Import Ascii String.
From S2P Require Import Prelude Ansi Cstring Frames Vmm Fb Console.
#[local] Open Scope Z_scope.

(** The bytes of a string literal. *)
Definition str (s : string) : list Z := (λ c, Z.of_N (N_of_ascii c)) <$> list_ascii_of_string s.

(** ** Output *)

Record out := Out { o_mem : mem; o_p : Z; o_left : Z }.

Definition emit (c : Z) (o : out) : out :=
  if 1 <? o_left o then Out (<[o_p o := c]> (o_mem o)) (o_p o + 1) (o_left o - 1) else o.

Definition emits (l : list Z) (o : out) : out := foldl (λ o c, emit c o) o l.

Definition digits : list Z := str "0123456789abcdef".
Definition digit_char (d : Z) : Z := default 0 (digits !! Z.to_nat d).

(** [do { tmp\[i++\] = digits\[v % base\]; v /= base; } while (v)]: the last digit
    stored is the head of the list.  A 64-bit number has at most 64 digits. *)
Fixpoint digit_loop (fuel : nat) (v base : Z) (tmp : list Z) : list Z :=
  match fuel with
  | O => tmp
  | S f => let tmp := digit_char (v mod base) :: tmp in
           if v / base =? 0 then tmp else digit_loop f (v / base) base tmp
  end.

Definition putnum (v base : Z) (sgn : bool) (width pad : Z) (o : out) : out :=
  let neg := sgn && (i64 v <? 0) in
  let v := if neg then u64 (- i64 v) else v in
  let tmp := digit_loop 64 v base [] in
  let tmp := if neg then 45 :: tmp else tmp in
  let padn := width - Z.of_nat (length tmp) in
  emits tmp (emits (replicate (Z.to_nat padn) pad) o).

(** ** Conversion specifications *)

Fixpoint skip_while (P : Z → bool) (f : list Z) : list Z :=
  match f with
  | c :: f' => if P c then skip_while P f' else f
  | [] => []
  end.

Definition flag (c : Z) : bool := (c =? 45) || (c =? 43) || (c =? 32) || (c =? 35) || (c =? 39).

(** The width is an [int]; an overflow, undefined in C, wraps around here. *)
Fixpoint scan_width (w : Z) (f : list Z) : Z * list Z :=
  match f with
  | c :: f' => if digit c then scan_width (i32 (w * 10 + (c - 48))) f' else (w, f)
  | [] => (w, [])
  end.

Record spec := Spec { s_pad : Z; s_width : Z; s_long : bool }.

(** [if ( *fmt == c) fmt++]. *)
Definition eat (c : Z) (f : list Z) : option (list Z) :=
  match f with x :: f' => if x =? c then Some f' else None | [] => None end.

(** From the byte after ['%'] to the conversion character. *)
Definition parse_spec (f : list Z) : spec * list Z :=
  let f := skip_while flag f in
  let '(pad, f) := match eat 48 f with Some f' => (48, f') | None => (32, f) end in
  let '(width, f) := scan_width 0 f in
  let f := match eat 46 f with Some f' => skip_while digit f' | None => f end in
  match eat 108 f with
  | Some f' => (Spec pad width true, default f' (eat 108 f'))
  | None => match eat 122 f with
            | Some f' => (Spec pad width true, f')
            | None => (Spec pad width false, f)
            end
  end.

Inductive varg := VWord (w : Z) | VStr (s : option (list Z)).

Definition word_arg (args : list varg) : outcome (Z * list varg) :=
  match args with VWord w :: args' => Ret (w, args') | _ => Stuck end.

Definition convert (sp : spec) (conv : Z) (args : list varg) (o : out) : outcome (list varg * out) :=
  if conv =? 100 then
    '(w, args) ← word_arg args;
    Ret (args, putnum (u64 (if s_long sp then w else i32 w)) 10 true (s_width sp) (s_pad sp) o)
  else if conv =? 117 then
    '(w, args) ← word_arg args;
    Ret (args, putnum (if s_long sp then u64 w else u32 w) 10 false (s_width sp) (s_pad sp) o)
  else if conv =? 120 then
    '(w, args) ← word_arg args;
    Ret (args, putnum (if s_long sp then u64 w else u32 w) 16 false (s_width sp) (s_pad sp) o)
  else if conv =? 112 then
    '(w, args) ← word_arg args;
    Ret (args, putnum (u64 w) 16 false 16 48 (emit 120 (emit 48 o)))
  else if conv =? 115 then
    match args with
    | VStr s :: args' => Ret (args', emits (default (str "(null)") s) o)
    | _ => Stuck
    end
  else if conv =? 99 then
    '(w, args) ← word_arg args; Ret (args, emit (u8 w) o)
  else if conv =? 37 then Ret (args, emit 37 o)
  else Ret (args, emit conv (emit 37 o)).

Fixpoint format_loop (fuel : nat) (f : list Z) (args : list varg) (o : out) : outcome out :=
  match fuel, f with
  | _, [] => Ret o
  | O, _ => Stuck
  | S n, c :: f' =>
      if negb (c =? 37) then format_loop n f' args (emit c o)
      else match parse_spec f' with
           | (_, []) => Stuck
           | (sp, conv :: f'') => '(args, o) ← convert sp conv args o; format_loop n f'' args o
           end
  end.

Definition vsnprintf (bufp size : Z) (f : list Z) (args : list varg) (m : mem) : outcome (Z * mem) :=
  o ← format_loop (length f) f args (Out m bufp size);
  let m := if size =? 0 then o_mem o
           else if 0 <? o_left o then <[o_p o := 0]> (o_mem o)
           else <[bufp + size - 1 := 0]> (o_mem o) in
  Ret (o_p o - bufp, m).

(** ** Printing *)

Definition KBUF : Z := 1024.

(** [for (s = kbuf; *s; s++) console_putc( *s)]. *)
Fixpoint put_until_nul (fuel : nat) (p : Z) (m : mem) (k : console) : outcome console :=
  match fuel with
  | O => Stuck
  | S n => if m p =? 0 then Ret k else put_until_nul n (p + 1) m (console_putc (i8 (m p)) k)
  end.

(** The static buffer is a memory of its own, from address 0. *)
Definition kvprintf (f : list Z) (args : list varg) (st : mem * console) : outcome (mem * console) :=
  let '(kbuf, k) := st in
  '(_, kbuf) ← vsnprintf 0 KBUF f args kbuf;
  k ← put_until_nul (Z.to_nat KBUF) 0 kbuf k;
  Ret (kbuf, k).

Definition kprintf := kvprintf.

(** The message of [panic]; the machine then stops. *)
Definition panic_message (f : list Z) (args : list varg) (st : mem * console) : outcome (mem * console) :=
  st ← kprintf (27 :: str "[1;31m[PANIC] ") [] st;
  st ← kvprintf f args st;
  kprintf (27 :: str "[0m" ++ [10]) [] st.
