(* ===== verification/PrintFacts.v ===== *)
(** Properties of formatted output: numbers round-trip, [vsnprintf] writes
    exactly the text of its format cut to the buffer, and [kprintf] prints
    it. *)
From Stdlib Require Import Ascii String.
From S2P Require Import Prelude Ansi Cstring Frames Vmm Fb FbFacts Console ConsoleFacts Print.
#[local] Open Scope Z_scope.

(** ** Numerals *)

(** A number in base [base]: the digit at place [i], and how many places there
    are, one more than the powers of the base that are not above the number. *)
Definition place (base v : Z) (i : nat) : Z := digit_char (v / base ^ Z.of_nat i mod base).
Definition ndigits (base v : Z) : nat := S (length (filter (λ i, base ^ Z.of_nat i ≤ v) (seq 1 63))).
Definition numeral (base v : Z) : list Z := place base v <$> reverse (seq 0 (ndigits base v)).

(** The value of a digit character, and of a numeral, most significant digit
    first. *)
Definition digit_value (c : Z) : Z := if digit c then c - 48 else c - 87.
Definition value (base : Z) (l : list Z) : Z := foldl (λ v c, v * base + digit_value c) 0 l.

Definition digits_of (base : Z) (l : list Z) : Prop := Forall (λ c, ∃ d, 0 ≤ d < base ∧ c = digit_char d) l.

Lemma digit_char_value d : 0 ≤ d < 16 → digit_value (digit_char d) = d.
Proof.
  intros Hd. assert (∃ n, (n < 16)%nat ∧ d = Z.of_nat n) as (n & Hn & ->) by (exists (Z.to_nat d); lia).
  do 16 (destruct n as [|n]; [reflexivity|]). lia.
Qed.
Lemma digit_char_digit d : 0 ≤ d < 10 → digit (digit_char d) = true ∧ digit_char d = 48 + d.
Proof.
  intros Hd. assert (∃ n, (n < 10)%nat ∧ d = Z.of_nat n) as (n & Hn & ->) by (exists (Z.to_nat d); lia).
  do 10 (destruct n as [|n]; [by split|]). lia.
Qed.

Lemma value_snoc base l c : value base (l ++ [c]) = value base l * base + digit_value c.
Proof. unfold value. by rewrite foldl_app. Qed.

(** The digits come out from the least significant one. *)
Lemma digit_loop_app fuel v base tmp : digit_loop fuel v base tmp = digit_loop fuel v base [] ++ tmp.
Proof.
  revert v tmp. induction fuel as [|n IH]; intros v tmp; simpl; [done|]. case_match; [done|].
  rewrite IH, (IH _ [_]). by rewrite <- app_assoc.
Qed.

Lemma digit_loop_spec fuel v base :
  2 ≤ base ≤ 16 → 0 ≤ v < 2 ^ Z.of_nat fuel → (0 < fuel)%nat →
  let l := digit_loop fuel v base [] in
  value base l = v ∧ digits_of base l ∧ l ≠ [] ∧ (0 < v → head l ≠ Some 48) ∧
  ∀ n, v < base ^ n → 1 ≤ n → Z.of_nat (length l) ≤ n.
Proof.
  intros Hb. revert v. induction fuel as [|n IH]; intros v Hv Hf; [lia|]. simpl.
  pose proof (Z.mod_pos_bound v base). pose proof (Z.div_mod v base). pose proof (Z.div_pos v base).
  destruct (Z.eqb_spec (v / base) 0) as [He|Hne].
  - split_and!; [|constructor; [exists (v mod base); split; [lia|done]|done]|done| |].
    + unfold value. simpl. rewrite digit_char_value by lia. lia.
    + intros Hpos [= E]. pose proof (digit_char_value (v mod base) ltac:(lia)) as Hd. rewrite E in Hd.
      unfold digit_value, digit in Hd. simpl in Hd. lia.
    + intros m _ Hm. simpl. lia.
  - rewrite digit_loop_app.
    assert (0 ≤ v / base < 2 ^ Z.of_nat n) as Hv'.
    { split; [lia|]. apply Z.div_lt_upper_bound; [lia|]. rewrite Nat2Z.inj_succ, Z.pow_succ_r in Hv by lia. nia. }
    destruct n as [|n]; [simpl in Hv'; lia|].
    destruct (IH (v / base) Hv' ltac:(lia)) as (H1' & H2' & H3' & H4' & H5').
    set (l := digit_loop (S n) (v / base) base []) in *. clearbody l.
    split_and!.
    + rewrite value_snoc, H1', digit_char_value by lia. lia.
    + apply Forall_app. split; [done|]. constructor; [exists (v mod base); split; [lia|done]|done].
    + by destruct l.
    + intros _. destruct l; [done|]. apply H4'. lia.
    + intros m Hm Hm1. rewrite length_app. simpl.
      destruct (decide (m = 1)) as [->|]; [exfalso; apply Hne, Z.div_small; lia|].
      specialize (H5' (m - 1)). assert (v / base < base ^ (m - 1)).
      { apply Z.div_lt_upper_bound; [lia|]. rewrite <- Z.pow_succ_r by lia. by replace (Z.succ (m - 1)) with m by lia. }
      lia.
Qed.

(** The loop computes the numeral. *)
Lemma filter_shift (P : nat → Prop) `{∀ i, Decision (P i)} l : length (filter P (S <$> l)) = length (filter (λ i, P (S i)) l).
Proof. induction l as [|i l IH]; [done|]. rewrite fmap_cons, !filter_cons. repeat case_decide; simpl; by rewrite ?IH. Qed.

Lemma filter_ext_length (P Q : nat → Prop) `{∀ i, Decision (P i), ∀ i, Decision (Q i)} l :
  (∀ i, P i ↔ Q i) → length (filter P l) = length (filter Q l).
Proof. intros HPQ. f_equal. by apply list_filter_iff. Qed.

Lemma ndigits_small base v : 2 ≤ base → 0 ≤ v < base → ndigits base v = 1%nat.
Proof.
  intros Hb Hv. unfold ndigits. f_equal. destruct (filter _ _) as [|i l] eqn:E; [done|exfalso].
  assert (i ∈ filter (λ i, base ^ Z.of_nat i ≤ v) (seq 1 63)) as [Hle Hi%elem_of_seq]%list_elem_of_filter by (rewrite E; by left).
  pose proof (Z.pow_le_mono_r base 1 (Z.of_nat i)). lia.
Qed.

Lemma ndigits_step base v : 2 ≤ base → base ≤ v < 2 ^ 64 → ndigits base v = S (ndigits base (v / base)).
Proof.
  intros Hb Hv. unfold ndigits. f_equal. change (seq 1 63) with (1%nat :: (S <$> seq 1 62)) at 1.
  rewrite filter_cons_True by (change (Z.of_nat 1) with 1; lia). cbn [length]. f_equal. rewrite filter_shift.
  change (seq 1 63) with (seq 1 62 ++ [63%nat]). rewrite filter_app, length_app, (filter_cons_False _ 63%nat).
  - simpl. rewrite Nat.add_0_r. apply filter_ext_length. intros i. rewrite Nat2Z.inj_succ, Z.pow_succ_r by lia. split; intros Hle.
    + apply Z.div_le_lower_bound; lia.
    + pose proof (Z.mul_div_le v base). nia.
  - intros Hle. assert (v / base < 2 ^ 63) by (apply Z.div_lt_upper_bound; lia). pose proof (Z.pow_le_mono_l 2 base 63). change (Z.of_nat 63) with 63 in Hle. lia.
Qed.

Lemma digit_loop_numeral fuel v base : 2 ≤ base → 0 ≤ v < 2 ^ Z.of_nat fuel → (0 < fuel ≤ 64)%nat → digit_loop fuel v base [] = numeral base v.
Proof.
  intros Hb. revert v. induction fuel as [|n IH]; intros v Hv Hf; [lia|]. simpl.
  pose proof (Z.mod_pos_bound v base). pose proof (Z.div_mod v base). pose proof (Z.div_pos v base). unfold numeral.
  destruct (Z.eqb_spec (v / base) 0) as [He|Hne].
  - rewrite ndigits_small by lia. simpl. unfold place. simpl. by rewrite Z.div_1_r.
  - assert (v < 2 ^ 64) by (pose proof (Z.pow_le_mono_r 2 (Z.of_nat (S n)) 64); lia).
    assert (0 ≤ v / base < 2 ^ Z.of_nat n) as Hv'.
    { split; [lia|]. apply Z.div_lt_upper_bound; [lia|]. rewrite Nat2Z.inj_succ, Z.pow_succ_r in Hv by lia. nia. }
    destruct n as [|n]; [simpl in Hv'; lia|]. rewrite digit_loop_app, IH by lia. rewrite ndigits_step by nia.
    unfold numeral. rewrite <- cons_seq, reverse_cons, fmap_app. f_equal.
    + rewrite <- fmap_S_seq, <- fmap_reverse, <- list_fmap_compose. apply list_fmap_ext. intros _ i _. unfold place. cbn [compose].
      rewrite Nat2Z.inj_succ, Z.pow_succ_r, Z.div_div by lia. done.
    + simpl. unfold place. simpl. by rewrite Z.div_1_r.
Qed.

(** Printing a number loses nothing: for every 64-bit value the digits in base
    10 or 16 have that value, there is at least one digit and no leading zero
    but for 0 itself, and with a sign they fit in the 32 bytes of [tmp]. *)
Theorem numeral_roundtrip base v :
  base = 10 ∨ base = 16 → 0 ≤ v < 2 ^ 64 →
  value base (numeral base v) = v ∧ digits_of base (numeral base v) ∧ numeral base v ≠ [] ∧
  (0 < v → head (numeral base v) ≠ Some 48) ∧ (length (numeral base v) < 32)%nat.
Proof.
  intros Hb Hv. destruct (digit_loop_spec 64 v base) as (H1 & H2 & H3 & H4 & H5); [lia|done|lia|].
  rewrite digit_loop_numeral in * by lia. split_and!; try done. specialize (H5 20).
  assert (v < base ^ 20); [destruct Hb as [->| ->]; lia|lia].
Qed.

(** ** Formats and their texts *)

Inductive radix := Dec | Uns | Hex.
Inductive len_mod := LInt | LLong | LLongLong | LSize.

(** What stands between the percent sign and the conversion: flags, a zero for
    the padding, the digits of the width and of a precision, and the length. *)
Record directive := Dir { d_flags : list Z; d_zero : bool; d_width : list Z; d_prec : option (list Z); d_len : len_mod }.

(** A conversion with the argument it takes; [Bad] is a character that is not
    one. *)
Inductive conversion :=
  | Num (r : radix) (w : Z)
  | Ptr (w : Z)
  | Str (s : option (list Z))
  | Chr (w : Z)
  | Pct
  | Bad (c : Z).

Inductive piece := Lit (c : Z) | Conv (d : directive) (cv : conversion).

Definition conv_char (cv : conversion) : Z :=
  match cv with
  | Num Dec _ => 100 | Num Uns _ => 117 | Num Hex _ => 120 | Ptr _ => 112 | Str _ => 115 | Chr _ => 99 | Pct => 37 | Bad c => c
  end.

(** How a part is written in a format string. *)
Definition prec_bytes (p : option (list Z)) : list Z := if p is Some l then 46 :: l else [].
Definition len_bytes (l : len_mod) : list Z :=
  match l with LInt => [] | LLong => [108] | LLongLong => [108; 108] | LSize => [122] end.
Definition dir_bytes (d : directive) : list Z :=
  d_flags d ++ (if d_zero d then [48] else []) ++ d_width d ++ prec_bytes (d_prec d) ++ len_bytes (d_len d).
Definition fmt_of (p : piece) : list Z :=
  match p with Lit c => [c] | Conv d cv => 37 :: dir_bytes d ++ [conv_char cv] end.
Definition arg_of (p : piece) : list varg :=
  match p with
  | Conv _ (Num _ w) | Conv _ (Ptr w) | Conv _ (Chr w) => [VWord w]
  | Conv _ (Str s) => [VStr s]
  | _ => []
  end.

(** The text it stands for, in terms of integers.  Flags and precision mean
    nothing, the width and its padding count for integers only, and what is no
    conversion is copied. *)
Definition signed_text (z : Z) : list Z := if z <? 0 then 45 :: numeral 10 (- z) else numeral 10 z.
Definition padded (zero : bool) (width : Z) (t : list Z) : list Z :=
  replicate (Z.to_nat (width - Z.of_nat (length t))) (if zero then 48 else 32) ++ t.
Definition d_long (d : directive) : bool := if d_len d is LInt then false else true.
Definition num_text (d : directive) (r : radix) (w : Z) : list Z :=
  match r with
  | Dec => signed_text (if d_long d then i64 w else i32 w)
  | Uns => numeral 10 (if d_long d then u64 w else u32 w)
  | Hex => numeral 16 (if d_long d then u64 w else u32 w)
  end.
Definition text_of (p : piece) : list Z :=
  match p with
  | Lit c => [c]
  | Conv d (Num r w) => padded (d_zero d) (value 10 (d_width d)) (num_text d r w)
  | Conv _ (Ptr w) => [48; 120] ++ padded true 16 (numeral 16 (u64 w))
  | Conv _ (Str s) => default (str "(null)") s
  | Conv _ (Chr w) => [u8 w]
  | Conv _ Pct => [37]
  | Conv _ (Bad c) => [37; c]
  end.

Definition digits_only (l : list Z) : Prop := Forall (λ c, digit c = true) l.

(** Characters that end a directive. *)
Definition ends_dir (c : Z) : bool := negb (flag c || digit c || (c =? 46) || (c =? 108) || (c =? 122)).
Definition known (c : Z) : bool := bool_decide (c ∈ [100; 117; 120; 112; 115; 99; 37]).

Record dir_ok (d : directive) : Prop := {
  do_flags : Forall (λ c, flag c = true) (d_flags d);
  do_width : digits_only (d_width d);
  do_int : value 10 (d_width d) < 2 ^ 31;
  do_zero : d_zero d = false → head (d_width d) ≠ Some 48;
  do_prec : digits_only (default [] (d_prec d));
}.
Definition piece_ok (p : piece) : Prop :=
  match p with
  | Lit c => c ≠ 37
  | Conv d cv => dir_ok d ∧ if cv is Bad c then ends_dir c = true ∧ known c = false else True
  end.

(** ** Reading a directive *)

(** [f] does not go on with a character of [P]. *)
Definition stops (P : Z → bool) (f : list Z) : Prop := ∀ c, head f = Some c → P c = false.

Lemma skip_while_app P l f : Forall (λ c, P c = true) l → stops P f → skip_while P (l ++ f) = f.
Proof.
  intros Hl Hf. induction Hl as [|c l Hc _ IH]; simpl; [|by rewrite Hc].
  destruct f as [|c f]; [done|]. simpl. by rewrite (Hf c eq_refl).
Qed.

Lemma value_from l v : foldl (λ v c, v * 10 + digit_value c) v l = v * 10 ^ Z.of_nat (length l) + value 10 l.
Proof.
  unfold value. revert v. induction l as [|c l IH]; intros v; [simpl; lia|]. cbn [foldl length].
  rewrite IH, (IH (0 * 10 + _)), Nat2Z.inj_succ, Z.pow_succ_r by lia. nia.
Qed.
Lemma digit_value_range c : digit c = true → 0 ≤ digit_value c ≤ 9.
Proof. intros Hc. unfold digit_value. rewrite Hc. unfold digit in Hc. bool_split. lia. Qed.
Lemma value_pos l : digits_only l → 0 ≤ value 10 l.
Proof.
  intros Hl. unfold value. induction l as [|c l IH] using rev_ind; [done|]. apply Forall_app in Hl as [Hl Hc].
  apply Forall_cons in Hc as [Hc%digit_value_range _]. rewrite foldl_app. cbn [foldl]. specialize (IH Hl). lia.
Qed.

Lemma scan_width_digits l w f : digits_only l → stops digit f → 0 ≤ w → foldl (λ v c, v * 10 + digit_value c) w l < 2 ^ 31 →
  scan_width w (l ++ f) = (foldl (λ v c, v * 10 + digit_value c) w l, f).
Proof.
  intros Hl Hf. revert w. induction Hl as [|c l Hc Hl IH]; intros w Hw Hlt.
  - simpl. destruct f as [|c f]; [done|]. simpl. by rewrite (Hf c eq_refl).
  - cbn [foldl] in Hlt. pose proof (digit_value_range c Hc). pose proof (value_pos l Hl).
    assert (w * 10 + digit_value c < 2 ^ 31).
    { rewrite value_from in Hlt. pose proof (Z.pow_pos_nonneg 10 (Z.of_nat (length l))). nia. }
    cbn [app scan_width foldl]. rewrite Hc. replace (c - 48) with (digit_value c) by (unfold digit_value; by rewrite Hc).
    unfold i32. rewrite sgn_small by lia. apply IH; [lia|done].
Qed.

Lemma ends_dir_inv c : ends_dir c = true →
  flag c = false ∧ digit c = false ∧ (c =? 46) = false ∧ (c =? 108) = false ∧ (c =? 122) = false.
Proof. unfold ends_dir. destruct (flag c), (digit c), (c =? 46), (c =? 108), (c =? 122); by intros. Qed.

Lemma len_stops l c f : ends_dir c = true →
  stops flag (len_bytes l ++ c :: f) ∧ stops digit (len_bytes l ++ c :: f) ∧ eat 46 (len_bytes l ++ c :: f) = None.
Proof.
  intros (H1 & H2 & H3 & _)%ends_dir_inv. destruct l; split_and!; try (by intros ? [= <-]); simpl; by rewrite ?H3.
Qed.

Lemma prec_stops p f : stops flag f → stops digit f → stops flag (prec_bytes p ++ f) ∧ stops digit (prec_bytes p ++ f).
Proof. intros. destruct p; [|done]. by split; intros ? [= <-]. Qed.

Lemma prec_skipped p f : digits_only (default [] p) → stops digit f → eat 46 f = None →
  match eat 46 (prec_bytes p ++ f) with Some f' => skip_while digit f' | None => prec_bytes p ++ f end = f.
Proof. intros Hp Hf He. destruct p as [l|]; simpl; [by apply skip_while_app|]. by rewrite He. Qed.

Lemma digit_no_flag c : digit c = true → flag c = false.
Proof. unfold digit, flag. intros H. bool_split. rewrite !(proj2 (Z.eqb_neq c _)) by lia. done. Qed.

Lemma width_stops l f : digits_only l → stops flag f → stops flag (l ++ f).
Proof. intros [|c l' Hc _] Hf; [done|]. intros ? [= <-]. by apply digit_no_flag. Qed.

Lemma parse_dir d c f : dir_ok d → ends_dir c = true →
  parse_spec (dir_bytes d ++ c :: f) = (Spec (if d_zero d then 48 else 32) (value 10 (d_width d)) (d_long d), c :: f).
Proof.
  intros [Hfl Hw Hint Hz Hp] Hc. unfold dir_bytes, parse_spec. rewrite <- !app_assoc.
  destruct (len_stops (d_len d) c f Hc) as (L1 & L2 & L3). set (t1 := len_bytes _ ++ _) in *.
  destruct (prec_stops (d_prec d) t1 L1 L2) as [P1 P2]. set (t2 := prec_bytes _ ++ _) in *.
  pose proof (width_stops _ t2 Hw P1) as W1.
  assert (stops flag ((if d_zero d then [48] else []) ++ d_width d ++ t2)) as Z1 by (destruct (d_zero d); [by intros ? [= <-]|done]).
  rewrite skip_while_app by done.
  assert (match eat 48 ((if d_zero d then [48] else []) ++ d_width d ++ t2) with Some f' => (48, f')
    | None => (32, (if d_zero d then [48] else []) ++ d_width d ++ t2) end = (if d_zero d then 48 else 32, d_width d ++ t2)) as ->.
  { destruct (d_zero d); [done|]. simpl. destruct (d_width d ++ t2) as [|x t] eqn:E; [done|]. simpl.
    destruct (Z.eqb_spec x 48) as [->|]; [|done]. destruct (d_width d) as [|y l]; [|by injection E as -> _; destruct (Hz eq_refl)].
    simpl in E. rewrite E in P2. by specialize (P2 48 eq_refl). }
  rewrite (scan_width_digits _ 0) by done. cbv iota beta. fold (value 10 (d_width d)). subst t2. rewrite prec_skipped by done.
  subst t1. apply ends_dir_inv in Hc as (_ & _ & _ & H1 & H2). unfold d_long.
  destruct (d_len d); simpl; rewrite ?H1, ?H2; simpl; rewrite ?H1; done.
Qed.

(** ** Writing to the buffer *)

(** How much of a text of [n] bytes a buffer of [size] bytes holds besides the
    terminator. *)
Definition room (size : Z) (n : nat) : Z := Z.min (Z.of_nat n) (Z.max 0 (size - 1)).

(** The buffer after the text [t] was emitted into it. *)
Record wrote (bufp size : Z) (m : mem) (t : list Z) (o : out) : Prop := {
  wr_p : o_p o = bufp + room size (length t);
  wr_left : o_left o = size - room size (length t);
  wr_mem : ∀ a, o_mem o a = if decide (0 ≤ a - bufp < room size (length t))
                            then default 0 (t !! Z.to_nat (a - bufp)) else m a }.

Section wrote.
Context (bufp size : Z) (m : mem).

Lemma wrote_nil : wrote bufp size m [] (Out m bufp size).
Proof.
  assert (room size 0 = 0) as E by (unfold room; lia).
  split; simpl; rewrite ?E; try lia. intros a. by rewrite decide_False by lia.
Qed.

Lemma emit_wrote t c o : wrote bufp size m t o → wrote bufp size m (t ++ [c]) (emit c o).
Proof.
  intros [H1 H2 H3]. unfold emit. rewrite H2.
  assert (length (t ++ [c]) = S (length t)) as Hl by (rewrite length_app; simpl; lia).
  case_match; bool_split.
  - assert (room size (length t) = Z.of_nat (length t)) as E by (unfold room in *; lia).
    assert (room size (S (length t)) = Z.of_nat (length t) + 1) as E' by (unfold room in *; lia).
    split; simpl; rewrite Hl, E'; try lia. intros a. rewrite H1, E. destruct (decide (a = bufp + Z.of_nat (length t))) as [->|Hne].
    + rewrite fn_lookup_insert, decide_True by lia. rewrite lookup_app_r by lia.
      by replace (Z.to_nat _ - length t)%nat with 0%nat by lia.
    + rewrite fn_lookup_insert_ne by lia. rewrite H3, E. repeat case_decide; try lia; try done.
      by rewrite lookup_app_l by lia.
  - assert (room size (S (length t)) = room size (length t)) as E by (unfold room in *; lia).
    split; rewrite Hl, E; [done|done|]. intros a. rewrite H3. case_decide; [|done].
    rewrite lookup_app_l; [done|]. unfold room in *. lia.
Qed.

Lemma emits_wrote l t o : wrote bufp size m t o → wrote bufp size m (t ++ l) (emits l o).
Proof.
  revert t o. induction l as [|c l IH]; intros t o Hw; simpl; [by rewrite app_nil_r|].
  replace (t ++ c :: l) with ((t ++ [c]) ++ l) by (by rewrite <- app_assoc). by apply IH, emit_wrote.
Qed.
End wrote.

Lemma emits_app l l' o : emits (l ++ l') o = emits l' (emits l o).
Proof. apply foldl_app. Qed.

(** ** Numbers *)

Lemma putnum_unsigned v base width (zero : bool) o : 2 ≤ base → 0 ≤ v < 2 ^ 64 →
  putnum v base false width (if zero then 48 else 32) o = emits (padded zero width (numeral base v)) o.
Proof. intros Hb Hv. unfold putnum, padded. simpl andb. cbv iota zeta. by rewrite digit_loop_numeral, emits_app by lia. Qed.

Lemma putnum_signed z width (zero : bool) o : - 2 ^ 63 ≤ z < 2 ^ 63 →
  putnum (u64 z) 10 true width (if zero then 48 else 32) o = emits (padded zero width (signed_text z)) o.
Proof.
  intros Hz. assert (i64 (u64 z) = z) as E.
  { unfold i64, u64. destruct (decide (0 ≤ z)).
    - rewrite Z.mod_small by lia. apply sgn_small; simpl; lia.
    - rewrite <- (Z.mod_unique z (2 ^ 64) (-1) (z + 2 ^ 64)) by lia. rewrite sgn_high; simpl; lia. }
  unfold putnum, padded, signed_text. rewrite E. simpl andb. destruct (Z.ltb_spec z 0); cbv iota zeta.
  - by rewrite (u64_small (- z)), digit_loop_numeral, emits_app by lia.
  - by rewrite u64_small, digit_loop_numeral, emits_app by lia.
Qed.

Lemma i32_range w : - 2 ^ 31 ≤ i32 w < 2 ^ 31.
Proof. unfold i32, sgn. pose proof (Z.mod_pos_bound (w + 2 ^ (32 - 1)) (2 ^ 32)). simpl in *. lia. Qed.
Lemma i64_range w : - 2 ^ 63 ≤ i64 w < 2 ^ 63.
Proof. unfold i64, sgn. pose proof (Z.mod_pos_bound (w + 2 ^ (64 - 1)) (2 ^ 64)). simpl in *. lia. Qed.
Lemma u64_i64 w : u64 (i64 w) = u64 w.
Proof.
  unfold u64, i64, sgn. rewrite Zminus_mod_idemp_l. f_equal. lia.
Qed.

(** ** The format loop *)

Lemma convert_num d r w args o :
  convert (Spec (if d_zero d then 48 else 32) (value 10 (d_width d)) (d_long d)) (conv_char (Num r w)) (VWord w :: args) o =
    Ret (args, emits (text_of (Conv d (Num r w))) o).
Proof.
  pose proof (u64_range w). pose proof (u32_range w).
  destruct r; cbn [conv_char text_of num_text]; unfold convert; simpl (_ =? _); cbv iota;
    cbn [word_arg mbind outcome_bind s_long s_width s_pad].
  - destruct (d_long d); do 2 f_equal.
    + rewrite <- u64_i64. apply putnum_signed. apply i64_range.
    + apply putnum_signed. pose proof (i32_range w). lia.
  - rewrite putnum_unsigned; [done|lia|destruct (d_long d); lia].
  - rewrite putnum_unsigned; [done|lia|destruct (d_long d); lia].
Qed.

Lemma convert_text d cv args o : piece_ok (Conv d cv) →
  convert (Spec (if d_zero d then 48 else 32) (value 10 (d_width d)) (d_long d)) (conv_char cv) (arg_of (Conv d cv) ++ args) o =
    Ret (args, emits (text_of (Conv d cv)) o).
Proof.
  intros [_ Hcv]. destruct cv as [r w|w|s|w| |c]; try done; [apply convert_num|..]; unfold convert; simpl (_ =? _); cbv iota.
  - cbn [arg_of app word_arg mbind outcome_bind text_of]. pose proof (u64_range w).
    rewrite (putnum_unsigned _ _ _ true) by lia. done.
  - destruct Hcv as [_ Hk%bool_decide_eq_false]. cbn [conv_char]. rewrite !(proj2 (Z.eqb_neq c _)) by (intros ->; apply Hk; set_solver). done.
Qed.

Lemma conv_ends d cv : piece_ok (Conv d cv) → ends_dir (conv_char cv) = true.
Proof. intros [_ Hcv]. destruct cv as [[] w|w|s|w| |c]; try done. apply Hcv. Qed.

Lemma format_piece p n rest args o : piece_ok p →
  format_loop (S n) (fmt_of p ++ rest) (arg_of p ++ args) o = format_loop n rest args (emits (text_of p) o).
Proof.
  intros Hp. destruct p as [c|d cv]; cbn [fmt_of app]; cbn [format_loop].
  - rewrite (proj2 (Z.eqb_neq c 37)) by done. done.
  - simpl (negb _). cbv iota. rewrite <- app_assoc. cbn [app]. rewrite parse_dir by (by apply Hp || by eapply conv_ends).
    by rewrite convert_text.
Qed.

Lemma fmt_of_length p : (1 ≤ length (fmt_of p))%nat.
Proof. destruct p; simpl; lia. Qed.

Definition format (ps : list piece) : list Z := ps ≫= fmt_of.
Definition arguments (ps : list piece) : list varg := ps ≫= arg_of.
Definition text (ps : list piece) : list Z := ps ≫= text_of.

Lemma format_loop_text ps n extra o :
  Forall piece_ok ps → (length (format ps) ≤ n)%nat →
  format_loop n (format ps) (arguments ps ++ extra) o = Ret (emits (text ps) o).
Proof.
  intros Hps. revert n o. induction Hps as [|p ps Hp _ IH]; intros n o Hn.
  { by destruct n. }
  unfold format, arguments, text in *. rewrite !bind_cons. rewrite bind_cons, length_app in Hn.
  pose proof (fmt_of_length p). destruct n as [|n]; [lia|].
  rewrite <- app_assoc, format_piece by done. rewrite IH by lia. by rewrite emits_app.
Qed.

Lemma vsnprintf_text bufp size ps extra m :
  Forall piece_ok ps → 0 ≤ size →
  let t := text ps in let n := room size (length t) in
  ∃ m', vsnprintf bufp size (format ps) (arguments ps ++ extra) m = Ret (n, m') ∧
    ∀ a, m' a = if decide (0 ≤ a - bufp < n) then default 0 (t !! Z.to_nat (a - bufp))
                else if decide (a = bufp + n ∧ 0 < size) then 0 else m a.
Proof.
  intros Hps Hs t n. unfold vsnprintf. rewrite format_loop_text by done. cbn [mbind outcome_bind].
  destruct (emits_wrote bufp size m t [] _ (wrote_nil bufp size m)) as [H1 H2 H3].
  simpl in H1, H2, H3. fold t. fold n in H1, H2, H3. rewrite H2, H1.
  assert (0 ≤ n ∧ (0 < size → n < size)) as [Hn0 Hn] by (unfold n, room; lia).
  replace (bufp + n - bufp) with n by lia. eexists. split; [reflexivity|]. intros a. destruct (Z.eqb_spec size 0).
  { rewrite H3. case_decide; [done|]. by rewrite decide_False by lia. }
  rewrite (proj2 (Z.ltb_lt 0 (size - n))) by lia. destruct (decide (a = bufp + n)) as [->|Hne].
  - rewrite fn_lookup_insert, decide_False, decide_True by lia. done.
  - rewrite fn_lookup_insert_ne by done. rewrite H3. case_decide; [done|]. by rewrite decide_False by tauto.
Qed.

(** C26. [vsnprintf] writes the text of its format.  A format is a sequence of
    characters and of directives: flags, a zero, a width that is an [int], a
    precision, a length ([l], [ll] or [z]) and a character, one of
    [d u x p s c %] or one that is no conversion.  [text] is what such a format
    stands for, given the arguments it asks for.  For every one [vsnprintf]
    returns the number of bytes it has written, the first [size - 1] bytes of
    the text; a terminator follows them when there is a buffer at all; and no
    other byte of memory, inside the buffer or outside, changes. *)
Theorem vsnprintf_correct bufp size ps extra m :
  Forall piece_ok ps → 0 ≤ size →
  let shown := take (Z.to_nat (size - 1)) (text ps) in
  let n := Z.of_nat (length shown) in
  ∃ m', vsnprintf bufp size (format ps) (arguments ps ++ extra) m = Ret (n, m') ∧
    (∀ i c, shown !! i = Some c → m' (bufp + Z.of_nat i) = c) ∧
    (0 < size → m' (bufp + n) = 0) ∧
    (∀ a, ¬ bufp ≤ a < bufp + n → ¬ (a = bufp + n ∧ 0 < size) → m' a = m a).
Proof.
  intros Hps Hs shown n. destruct (vsnprintf_text bufp size ps extra m Hps Hs) as (m' & H1 & H2).
  assert (room size (length (text ps)) = n) as E by (unfold room, n, shown; rewrite length_take; lia).
  rewrite E in *. exists m'. split_and!; [done| | |].
  - intros i c Hi. rewrite H2. pose proof (lookup_lt_Some _ _ _ Hi). apply lookup_take_Some in Hi as [Hi _].
    rewrite decide_True by lia. replace (Z.to_nat _) with i by lia. by rewrite Hi.
  - intros Hpos. rewrite H2, decide_False, decide_True by lia. done.
  - intros a Ha Ha'. rewrite H2, !decide_False by lia. done.
Qed.

(** ** Printing *)

Lemma put_until_nul_spec l n p m k :
  (length l < n)%nat → cstr m p l → put_until_nul n p m k = Ret (console_puts (i8 <$> l) k).
Proof.
  revert n p k. induction l as [|c l IH]; intros n p k Hn Hl; destruct n as [|n]; simpl in Hn; try lia; simpl.
  - apply cstr_nil in Hl. by rewrite Hl.
  - apply cstr_cons in Hl as (Hc & Hne & Hl). rewrite Hc, (proj2 (Z.eqb_neq c 0)) by done. apply IH; [lia|done].
Qed.

Lemma take_short {A} size (l : list A) : 0 < size →
  (length (take (Z.to_nat (size - 1)) l) < Z.to_nat size)%nat.
Proof. rewrite length_take. lia. Qed.

(** What is in the buffer is a string, when the text has no zero byte. *)
Lemma vsnprintf_cstr bufp size ps extra m :
  Forall piece_ok ps → Forall (λ c, 0 < c < 256) (text ps) → 0 < size →
  ∃ n m', vsnprintf bufp size (format ps) (arguments ps ++ extra) m = Ret (n, m') ∧
    cstr m' bufp (take (Z.to_nat (size - 1)) (text ps)).
Proof.
  intros Hps Ht Hs. destruct (vsnprintf_text bufp size ps extra m Hps ltac:(lia)) as (m' & H1 & H2).
  eexists _, m'. split; [exact H1|].
  assert (room size (length (text ps)) = Z.of_nat (length (take (Z.to_nat (size - 1)) (text ps)))) as E.
  { rewrite length_take. unfold room. lia. }
  rewrite E in H2. split_and!.
  - intros i c Hi. rewrite H2. pose proof (lookup_lt_Some _ _ _ Hi). rewrite decide_True by lia.
    replace (Z.to_nat _) with i by lia. apply lookup_take_Some in Hi as [Hi _]. by rewrite Hi.
  - apply Forall_take. eapply Forall_impl; [exact Ht|]. simpl. intros; lia.
  - rewrite H2, decide_False, decide_True by lia. done.
Qed.

Lemma kvprintf_ret f args kbuf k n m k' :
  vsnprintf 0 KBUF f args kbuf = Ret (n, m) → put_until_nul (Z.to_nat KBUF) 0 m k = Ret k' →
  kvprintf f args (kbuf, k) = Ret (m, k').
Proof.
  unfold kvprintf. generalize (Z.to_nat KBUF) as fuel. intros fuel H1 H2.
  rewrite H1. cbn [mbind outcome_bind]. by rewrite H2.
Qed.

(** [kprintf] prints the text of its format, cut to the 1023 bytes its buffer
    holds, on the console. *)
Theorem kprintf_prints ps extra kbuf k :
  Forall piece_ok ps → Forall (λ c, 0 < c < 256) (text ps) →
  ∃ kbuf', kprintf (format ps) (arguments ps ++ extra) (kbuf, k) =
    Ret (kbuf', console_puts (i8 <$> take (Z.to_nat (KBUF - 1)) (text ps)) k).
Proof.
  intros Hps Ht.
  destruct (vsnprintf_cstr 0 KBUF ps extra kbuf Hps Ht ltac:(done)) as (n & m & H1 & H2).
  exists m. eapply kvprintf_ret; [exact H1|].
  apply put_until_nul_spec; [by apply take_short|exact H2].
Qed.

(** ** Conversions the kernel uses but does not have *)

Lemma format_loop_prefix ps n rest args o :
  Forall piece_ok ps →
  format_loop (length ps + n) (format ps ++ rest) (arguments ps ++ args) o = format_loop n rest args (emits (text ps) o).
Proof.
  intros Hps. revert o. induction Hps as [|p ps Hp _ IH]; intros o; [done|].
  unfold format, arguments, text in *. rewrite !bind_cons, <- !app_assoc. simpl length. simpl plus.
  rewrite format_piece, IH by done. by rewrite emits_app.
Qed.

(** The message of [vfs_try_mount_disk] about a partition has the conversion
    [%02X], which [vsnprintf] does not know and which takes no argument: the
    [%s] that follows takes the partition type, a number, for the address of
    the string. *)
Theorem mount_message_misreads i ty name bufp size m :
  vsnprintf bufp size (str "[vfs] partition %d: type=0x%02X (%s)" ++ [10]) [VWord i; VWord ty; VStr name] m = Stuck.
Proof.
  set (ps := (Lit <$> str "[vfs] partition ") ++ [Conv (Dir [] false [] None LInt) (Num Dec i)] ++ (Lit <$> str ": type=0x")).
  assert (Forall piece_ok ps) as Hps by (repeat constructor; discriminate || done).
  change (str _ ++ [10]) with (format ps ++ str "%02X (%s)" ++ [10]).
  change [VWord i; VWord ty; VStr name] with (arguments ps ++ [VWord ty; VStr name]).
  unfold vsnprintf. change (length (format ps ++ _)) with (length ps + 11)%nat.
  rewrite format_loop_prefix by done. generalize (emits (text ps) (Out m bufp size)). intros o. reflexivity.
Qed.

(** A format that ends in the middle of a specification is read beyond its
    terminator. *)
Theorem format_overread ps bufp size m :
  Forall piece_ok ps → vsnprintf bufp size (format ps ++ [37]) (arguments ps) m = Stuck.
Proof.
  intros Hps. unfold vsnprintf. rewrite <- (app_nil_r (arguments ps)).
  assert (length ps ≤ length (format ps))%nat as Hl.
  { clear. unfold format. induction ps as [|p ps IH]; [done|]. rewrite bind_cons, length_app.
    pose proof (fmt_of_length p). simpl. lia. }
  replace (length (format ps ++ [37])) with (length ps + S (length (format ps) - length ps))%nat
    by (rewrite length_app; simpl; lia).
  by rewrite format_loop_prefix.
Qed.

(** ** Examples *)

Module PrintDemo.
Definition plain : directive := Dir [] false [] None LInt.
Definition ps : list piece :=
  (Lit <$> str "pid=") ++ [Conv (Dir [45] false [53] None LInt) (Num Dec (-7))] ++ (Lit <$> str " at ") ++ [Conv plain (Ptr 0xffffffff80000000)] ++
  [Lit 32; Conv plain (Str None); Lit 32; Conv (Dir [] true [52] (Some [50]) LLongLong) (Num Hex 255); Conv plain Pct; Conv plain (Chr 65)].
Lemma ps_ok : Forall piece_ok ps.
Proof. repeat constructor; (discriminate || by_eval). Qed.
Lemma ps_text : text ps = str "pid=   -7 at 0xffffffff80000000 (null) 00ff%A".
Proof. reflexivity. Qed.
End PrintDemo.

Lemma numeral_roundtrip_witness : value 10 (numeral 10 18446744073709551615) = 18446744073709551615.
Proof. apply (numeral_roundtrip 10 18446744073709551615); [by left|by_eval]. Defined.

Lemma vsnprintf_correct_witness :
  ∃ m', vsnprintf 100 64 (format PrintDemo.ps) (arguments PrintDemo.ps ++ []) (λ _, 1) = Ret (45, m') ∧
    m' 145 = 0 ∧ m' 146 = 1.
Proof.
  destruct (vsnprintf_correct 100 64 PrintDemo.ps [] (λ _, 1) PrintDemo.ps_ok ltac:(by_eval))
    as (m' & H1 & _ & H3 & H4). rewrite PrintDemo.ps_text in H1, H3, H4.
  exists m'. split; [exact H1|]. split; [exact (H3 eq_refl)|].
  apply H4; intros []; by_eval || discriminate.
Defined.

Lemma kprintf_prints_witness :
  ∃ kbuf', kprintf (format PrintDemo.ps) (arguments PrintDemo.ps ++ []) (λ _, 0, ConsoleDemo.k0) =
    Ret (kbuf', console_puts (i8 <$> take (Z.to_nat (KBUF - 1)) (text PrintDemo.ps)) ConsoleDemo.k0).
Proof.
  apply (kprintf_prints PrintDemo.ps [] (λ _, 0) ConsoleDemo.k0 PrintDemo.ps_ok).
  rewrite PrintDemo.ps_text. by_eval.
Defined.
