(* ===== verification/Vfs.v ===== *)
(** The virtual file system ([kernel/fs/vfs.c]): mounts and path routing, the
    device nodes, opening, and the operations on descriptors.

    The file system below is the class [FileSys], the operations of the table
    [fat32_ops]; their [mnt] argument, which the FAT32 driver ignores, is left
    out.  Paths are lists of bytes without a terminator. *)
From S2P Require Import Prelude Bytes Cstring Pmm PmmFacts PmmInit Frames Kheap Vmm UserMem Sched Proc Signal.
From S2P Require Import BlkDev BlkCache Journal FatName FatTable FatDir Input Ansi Fb Console.

(** ** The interface of a file system *)

Class FileSys (F Nd : Type) := {
  fs_lookup : list Z → F → outcome (Z * option (vnode_type * Z * Nd) * F);
  fs_getdent : Nd → Z → F → outcome (Z * Z * option (list Z * Z) * F);
  fs_read : Nd → Z → Z → F → outcome (Z * list Z * F);
  fs_write : Nd → Z → option (list Z) → Z → F → outcome (Z * Nd * F);
  fs_create : list Z → F → outcome (Z * F);
  fs_mkdir : list Z → F → outcome (Z * F);
  fs_unlink : list Z → F → outcome (Z * F);
  fs_rmdir : list Z → F → outcome (Z * F);
  fs_rename : list Z → list Z → F → outcome (Z * F);
}.

(** The two tables of the kernel. *)
Inductive ops_id := fat32_ops | dev_ops.
#[global] Instance ops_id_eq : EqDecision ops_id.
Proof. solve_decision. Defined.

#[global] Instance vnode_type_eq : EqDecision vnode_type.
Proof. solve_decision. Defined.

(** ** Mounts *)

Record mounted_fs := Mounted { m_ops : ops_id; m_priv : Z; m_prefix : list Z; m_active : bool }.
Definition MAX_MOUNTS : nat := 4.

(** [!strncmp(path, pre, strlen(pre))]. *)
Definition starts_with (pre path : list Z) : bool := bool_decide (take (length pre) path = pre).

(** [*rest == '/' || *rest == '\0']. *)
Definition at_boundary (rest : list Z) : bool :=
  match rest with [] => true | c :: _ => c =? SLASH end.

(** One turn of the loop of [fs_for_path]: the path below the mount. *)
Definition mount_owns (m : mounted_fs) (path : list Z) : option (list Z) :=
  let pre := m_prefix m in
  let rest := drop (length pre) path in
  let rest' := drop (length pre - 1) path in
  let second :=
    if bool_decide (pre !! 0%nat = Some SLASH) && starts_with (tail pre) path && at_boundary rest'
    then Some (skip_slashes rest') else None in
  if starts_with pre path then
    if bool_decide (pre = [SLASH]) then Some (skip_slashes rest)
    else if at_boundary rest then Some (skip_slashes rest)
    else second
  else second.

Fixpoint fs_for_path (ms : list mounted_fs) (path : list Z) : option (ops_id * list Z) :=
  match ms with
  | [] => None
  | m :: ms =>
      if negb (m_active m) then fs_for_path ms path
      else match mount_owns m path with
           | Some rest => Some (m_ops m, rest)
           | None => fs_for_path ms path
           end
  end.

Fixpoint mount_priv (ms : list mounted_fs) (o : ops_id) : Z :=
  match ms with
  | [] => 0
  | m :: ms => if m_active m && bool_decide (m_ops m = o) then m_priv m else mount_priv ms o
  end.

Definition register_mount (o : ops_id) (priv : Z) (prefix : list Z) (ms : list mounted_fs) : Z * list mounted_fs :=
  if (MAX_MOUNTS <=? length ms)%nat then (LNXRM_EFAIL, ms)
  else (0, ms ++ [Mounted o priv (take 31 prefix) true]).

(** ** Paths *)

(** [bufsz] bytes hold the slash, the terminator and a byte that stays unused. *)
Definition abs_path (path : list Z) (bufsz : nat) : list Z :=
  if bool_decide (path !! 0%nat = Some SLASH) then path else SLASH :: take (bufsz - 3) path.

(** [while (n > 1 && p\[n - 1\] == '/') p\[--n\] = 0]. *)
Fixpoint strip_rev (r : list Z) : list Z :=
  match r with
  | c :: ((_ :: _) as r') => if c =? SLASH then strip_rev r' else r
  | _ => r
  end.
Definition strip_trailing_slashes (p : list Z) : list Z := reverse (strip_rev (reverse p)).

(** ** Nodes *)

Record vfs_node (Nd : Type) := VfsNode {
  vn_type : vnode_type; vn_size : Z; vn_data : option Nd; vn_ops : option ops_id }.
Arguments VfsNode {Nd}.
Arguments vn_type {Nd}.
Arguments vn_size {Nd}.
Arguments vn_data {Nd}.
Arguments vn_ops {Nd}.

Definition DEV_PATH : list Z := [47; 100; 101; 118].
Definition CONSOLE_PATH : list Z := [47; 100; 101; 118; 47; 99; 111; 110; 115; 111; 108; 101].
Definition CONSOLE_NAME : list Z := [99; 111; 110; 115; 111; 108; 101].

Definition dev_getdent (cookie : Z) : Z * Z * option (list Z * Z) :=
  if negb (cookie =? 0) then (LNXRM_EFAIL, cookie, None) else (0, 1, Some (CONSOLE_NAME, 3)).

Definition dev_lookup {Nd} (path : list Z) (vn : vfs_node Nd) : Z * vfs_node Nd :=
  let p := strip_trailing_slashes (take 31 path) in
  if bool_decide (p = DEV_PATH) then (0, VfsNode V_DIR (vn_size vn) None (Some dev_ops))
  else if bool_decide (p = CONSOLE_PATH) then (0, VfsNode V_CHR (vn_size vn) None (vn_ops vn))
  else (LNXRM_ENOENT, vn).

(** What [priv] of an open file points to. *)
Inductive fdata (Nd : Type) :=
  | NodeOf (vn : vfs_node Nd)
  | IterOf (node : option Nd) (ops : option ops_id) (cookie : Z).
Arguments NodeOf {Nd}.
Arguments IterOf {Nd}.

Definition O_CREAT : Z := 0x40.
Definition O_TRUNC : Z := 0x200.
Definition O_CLOEXEC : Z := 0x1000.
Definition SEEK_SET : Z := 0.
Definition SEEK_CUR : Z := 1.
Definition SEEK_END : Z := 2.
Definition DIRENT_REC : nat := 72.  (* sizeof(struct lnxrm_dirent) *)

Definition has_flag (flags b : Z) : bool := negb (Z.land flags b =? 0).

(** ** Reading the console *)

(** A system call has returned, or its task sleeps in it. *)
Inductive progress := Returned (r : Z) (bytes : list Z) | Waits (got : list Z).

(** [input_pop], and the UART when that is empty: [rx] are the bytes that wait
    there. *)
Definition console_getc (k : input) (rx : list Z) : Z * input * list Z :=
  let '(c, k) := input_pop k in
  if c <? 0 then match rx with b :: rx => (b, k, rx) | [] => (-1, k, []) end else (c, k, rx).

Section console_read.
Context (me t : nat) (n : Z).

(** The task [t] on CPU [me] reads up to [n] bytes; every turn takes a byte or
    is the last. *)
Fixpoint console_read (fuel : nat) (got : list Z) (k : input) (rx : list Z)
  : outcome (progress * input * list Z) :=
  match fuel with
  | O => Stuck
  | S fuel =>
      let len := Z.of_nat (length got) in
      if n <=? len then Ret (Returned len got, k, rx) else
      let '(c, k, rx) := console_getc k rx in
      if 0 <=? c then
        let got := got ++ [u8 c] in
        if c =? 10 then Ret (Returned (len + 1) got, k, rx) else console_read fuel got k rx
      else if negb (signal_pending (tasks (isch k) t) =? 0) then
        Ret (Returned (if bool_decide (got = []) then -4 else len) got, k, rx)
      else
        let k := set_isch (upd_task t (λ x, set_sleep_until (u64 (jiffies (isch k) + 1)) (set_state T_SLEEPING x)) (isch k)) k in
        let k := console_waiter_arm t k in
        let '(c, k, rx) := console_getc k rx in
        if 0 <=? c then
          let k := set_isch (upd_task t (set_state T_RUNNING) (isch k)) k in
          let k := console_waiter_disarm t k in
          let got := got ++ [u8 c] in
          if c =? 10 then Ret (Returned (len + 1) got, k, rx) else console_read fuel got k rx
        else
          s ← runqueue_remove t (isch k);
          s ← schedule me s;
          Ret (Waits got, set_isch s k, rx)
  end.

(** What the task does when it runs again. *)
Definition console_resume (fuel : nat) (got : list Z) (k : input) (rx : list Z) : outcome (progress * input * list Z) :=
  let k := console_waiter_disarm t k in
  console_read fuel got (set_isch (upd_task t (set_state T_RUNNING) (isch k)) k) rx.
End console_read.

(** ** The system *)

(** The scheduler is the one of [kn]; [sinp] is the keyboard input and [srx]
    the bytes that wait in the UART. *)
Record sys (S F Nd : Type) := Sys {
  kn : kern S (fdata Nd);
  mounts : list mounted_fs;
  disk_ready : bool;
  fsys : F;
  scon : console;
  sinp : input;
  srx : list Z;
}.
Arguments Sys {S F Nd}.
Arguments kn {S F Nd}.
Arguments mounts {S F Nd}.
Arguments disk_ready {S F Nd}.
Arguments fsys {S F Nd}.
Arguments scon {S F Nd}.
Arguments sinp {S F Nd}.
Arguments srx {S F Nd}.

Definition set_kn {S F Nd} (k : kern S (fdata Nd)) (s : sys S F Nd) : sys S F Nd :=
  Sys k (mounts s) (disk_ready s) (fsys s) (scon s) (sinp s) (srx s).
Definition set_mounts {S F Nd} (ms : list mounted_fs) (r : bool) (s : sys S F Nd) : sys S F Nd :=
  Sys (kn s) ms r (fsys s) (scon s) (sinp s) (srx s).
Definition set_fsys {S F Nd} (f : F) (s : sys S F Nd) : sys S F Nd :=
  Sys (kn s) (mounts s) (disk_ready s) f (scon s) (sinp s) (srx s).
Definition set_scon {S F Nd} (c : console) (s : sys S F Nd) : sys S F Nd :=
  Sys (kn s) (mounts s) (disk_ready s) (fsys s) c (sinp s) (srx s).
Definition set_input {S F Nd} (k : input) (rx : list Z) (s : sys S F Nd) : sys S F Nd :=
  Sys (set_sch (isch k) (kn s)) (mounts s) (disk_ready s) (fsys s) (scon s) k rx.
(** The input with the scheduler as it is now. *)
Definition get_input {S F Nd} (s : sys S F Nd) : input := set_isch (sch (kn s)) (sinp s).

Section vfs.
Context {S F Nd : Type} `{Frames S} `{FileSys F Nd}.
Abbreviation st := (sys S F Nd).
Implicit Types (s : st).

Definition empty_node : vfs_node Nd := VfsNode V_REG 0 None None.

(** A call through the table of [o]; [dev_ops] has no such entry, so that
    would be a call through a null pointer. *)
Definition via {A} (o : ops_id) (op : F → outcome (A * F)) s : outcome (A * st) :=
  match o with
  | fat32_ops => '(a, f) ← op (fsys s); Ret (a, set_fsys f s)
  | dev_ops => Stuck
  end.

(** [ops->lookup(mnt, p, vn)]: the node is filled in when it succeeds. *)
Definition do_lookup (o : ops_id) (p : list Z) (vn : vfs_node Nd) s : outcome (Z * vfs_node Nd * st) :=
  '(r, s) ← via o (fs_lookup p) s;
  match r.2 with
  | Some (ty, sz, nd) => Ret (r.1, VfsNode ty sz (Some nd) (Some o), s)
  | None => Ret (r.1, vn, s)
  end.

(** [kern_text_ptr] holds of every function of the kernel. *)
Definition vfs_lookup (path : list Z) (flags : Z) s : outcome (Z * vfs_node Nd * st) :=
  let vn := empty_node in
  if bool_decide (path = [SLASH]) then
    if negb (disk_ready s) then Ret (LNXRM_ENOENT, vn, s) else
    match fs_for_path (mounts s) path with
    | None => Ret (LNXRM_ENOENT, vn, s)
    | Some (o, p) =>
        '(e, vn, s) ← do_lookup o p vn s;
        Ret (if e =? 0 then 0 else LNXRM_ENOENT, vn, s)
    end
  else
  match fs_for_path (mounts s) path with
  | None => let '(e, vn) := dev_lookup path vn in Ret (e, vn, s)
  | Some (o, p) =>
      '(e, vn, s) ← do_lookup o p vn s;
      if e <? 0 then
        let '(e, vn) := dev_lookup path vn in
        if e =? 0 then Ret (0, vn, s) else
        if negb (has_flag flags O_CREAT) then Ret (LNXRM_ENOENT, vn, s) else
        '(e, s) ← via o (fs_create p) s;
        if e <? 0 then Ret (LNXRM_EACCES, vn, s) else
        '(e, vn, s) ← do_lookup o p vn s;
        if e <? 0 then Ret (LNXRM_ENOENT, vn, s)
        else Ret (0, VfsNode (vn_type vn) 0 (vn_data vn) (vn_ops vn), s)
      else if has_flag flags O_TRUNC && bool_decide (vn_type vn = V_REG) then
        match vn_data vn with
        | None => Stuck
        | Some nd =>
            '(r, s) ← via o (fs_write nd 0 None 0) s;
            Ret (0, VfsNode V_REG 0 (Some r.2) (vn_ops vn), s)
        end
      else Ret (0, vn, s)
  end.

(** The file of a node, by its type. *)
Definition open_node (vn : vfs_node Nd) (flags : Z) s : outcome (Z * st) :=
  let '(ops, data) := match vn_type vn with
    | V_CHR => (console_fops, None)
    | V_DIR => (dir_fops, Some (IterOf (vn_data vn) (vn_ops vn) 0))
    | V_REG => (reg_fops, Some (NodeOf vn))
    end in
  '(p, k) ← file_alloc ops data flags (kn s);
  Ret (p, set_kn k s).

(** The error and no file, or the file. *)
Definition vfs_open_file (path : list Z) (flags : Z) s : outcome (Z * option Z * st) :=
  '(err, vn, s) ← vfs_lookup (abs_path path 128) flags s;
  if err <? 0 then Ret (err, None, s) else
  '(p, s) ← open_node vn flags s;
  Ret (0, Some p, s).

Definition sys_open (t : nat) (path : list Z) (flags : Z) s : outcome (Z * st) :=
  '(err, f, s) ← vfs_open_file path flags s;
  match f with
  | None => Ret (err, s)
  | Some p => '(r, k) ← fd_install t p (kn s); Ret (r, set_kn k s)
  end.

(** [mkdir], [unlink] and [rmdir] differ in the entry of the table. *)
Definition path_op (op : list Z → F → outcome (Z * F)) (path : list Z) s : outcome (Z * st) :=
  match fs_for_path (mounts s) (abs_path path 128) with
  | Some (fat32_ops, p) => via fat32_ops (op p) s
  | Some (dev_ops, _) | None => Ret (LNXRM_ENOSYS, s)
  end.
Definition sys_mkdir (path : list Z) s : outcome (Z * st) := path_op fs_mkdir path s.
Definition sys_unlink (path : list Z) s : outcome (Z * st) := path_op fs_unlink path s.
Definition sys_rmdir (path : list Z) s : outcome (Z * st) := path_op fs_rmdir path s.

Definition vfs_rename_path (oldpath newpath : list Z) s : outcome (Z * st) :=
  match fs_for_path (mounts s) (abs_path oldpath 128), fs_for_path (mounts s) (abs_path newpath 128) with
  | Some (o1, p1), Some (o2, p2) =>
      if negb (bool_decide (o1 = o2)) then Ret (LNXRM_EXDEV, s)
      else match o1 with
           | fat32_ops => via o1 (fs_rename p1 p2) s
           | dev_ops => Ret (LNXRM_ENOSYS, s)
           end
  | _, _ => Ret (LNXRM_ENOENT, s)
  end.
Definition sys_rename (oldpath newpath : list Z) s : outcome (Z * st) := vfs_rename_path oldpath newpath s.

(** The part of a path behind its last slash ([strrchr]). *)
Definition basename (p : list Z) : list Z :=
  match last_index_of SLASH p with Some i => drop (Datatypes.S i) p | None => p end.

Definition sys_move (src destdir : list Z) s : outcome (Z * st) :=
  let sbuf := strip_trailing_slashes (take 127 src) in
  let dbuf := strip_trailing_slashes (take 127 destdir) in
  let base := basename sbuf in
  if bool_decide (base = []) then Ret (LNXRM_EINVAL, s) else
  if (256 <? length dbuf + length base + 2)%nat then Ret (LNXRM_EINVAL, s) else
  let out := (if bool_decide (dbuf = []) || negb (bool_decide (last dbuf = Some SLASH))
              then dbuf ++ [SLASH] else dbuf) ++ base in
  vfs_rename_path sbuf out s.

(** ** Descriptors *)

Definition upd_file (p : Z) (g : file (fdata Nd) → file (fdata Nd)) s : st :=
  set_kn (set_files (alter g p (files (kn s))) (kn s)) s.
Definition set_pos_data (pos : Z) (d : fdata Nd) (f : file (fdata Nd)) : file (fdata Nd) :=
  File (f_ops f) pos (f_priv f) (Some d) (f_is_dir f) (f_flags f) (refcnt f).

(** The node of a regular file: its vnode, the driver's node and the table. *)
Definition reg_node (f : file (fdata Nd)) : outcome (vfs_node Nd * Nd * ops_id) :=
  match f_data f with
  | Some (NodeOf vn) =>
      match vn_data vn, vn_ops vn with Some nd, Some o => Ret (vn, nd, o) | _, _ => Stuck end
  | _ => Stuck
  end.

Definition reg_read (p : Z) (f : file (fdata Nd)) (n : Z) s : outcome (Z * list Z * st) :=
  '(vn, nd, o) ← reg_node f;
  '(r, s) ← via o (fs_read nd (f_pos f) n) s;
  let s := if 0 <? r.1 then upd_file p (set_pos_data (u64 (f_pos f + r.1)) (NodeOf vn)) s else s in
  Ret (r.1, r.2, s).

(** The driver updates its node in place. *)
Definition reg_write (p : Z) (f : file (fdata Nd)) (bytes : list Z) s : outcome (Z * st) :=
  '(vn, nd, o) ← reg_node f;
  '(r, s) ← via o (fs_write nd (f_pos f) (Some bytes) (Z.of_nat (length bytes))) s;
  let vn := VfsNode (vn_type vn) (vn_size vn) (Some r.2) (vn_ops vn) in
  Ret (r.1, upd_file p (set_pos_data (if 0 <? r.1 then u64 (f_pos f + r.1) else f_pos f) (NodeOf vn)) s).

Definition reg_lseek (p : Z) (f : file (fdata Nd)) (off whence : Z) s : outcome (Z * st) :=
  match f_data f with
  | Some (NodeOf vn) =>
      let base := if whence =? SEEK_SET then 0 else if whence =? SEEK_CUR then f_pos f else vn_size vn in
      let pos := if off <? 0 then 0 else u64 (base + off) in
      Ret (i64 pos, upd_file p (set_pos_data pos (NodeOf vn)) s)
  | _ => Stuck
  end.

(** [struct lnxrm_dirent]: [d_ino] is 0, then the type, the name and padding. *)
Definition dirent_bytes (name : list Z) (ty : Z) : list Z :=
  replicate 8 0 ++ [u8 ty] ++ take 55 name ++ replicate (63 - length (take 55 name)) 0.

(** The loop of [dir_getdent]: [room] records still fit. *)
Fixpoint getdent_loop (room : nat) (node : option Nd) (ops : option ops_id) (cookie : Z) (acc : list Z) s
  : outcome (list Z * Z * st) :=
  match room with
  | O => Ret (acc, cookie, s)
  | Datatypes.S room =>
      match ops with
      | None => Ret (acc, cookie, s)
      | Some dev_ops =>
          let '(e, cookie, d) := dev_getdent cookie in
          if e <? 0 then Ret (acc, cookie, s) else
          match d with
          | Some (nm, ty) => getdent_loop room node ops cookie (acc ++ dirent_bytes nm ty) s
          | None => Stuck
          end
      | Some fat32_ops =>
          match node with
          | None => Stuck
          | Some nd =>
              '(r, s) ← via fat32_ops (fs_getdent nd cookie) s;
              let '(e, cookie, d) := r in
              if e <? 0 then Ret (acc, cookie, s) else
              match d with
              | Some (nm, ty) => getdent_loop room node ops cookie (acc ++ dirent_bytes nm ty) s
              | None => Stuck
              end
          end
      end
  end.

Definition dir_getdent (p : Z) (f : file (fdata Nd)) (n : Z) s : outcome (list Z * st) :=
  match f_data f with
  | Some (IterOf node ops cookie) =>
      '(bytes, cookie, s) ← getdent_loop (Z.to_nat n / DIRENT_REC) node ops cookie [] s;
      Ret (bytes, upd_file p (set_pos_data (f_pos f) (IterOf node ops cookie)) s)
  | _ => Stuck
  end.

(** The descriptor's file, or the error of a bad descriptor. *)
Definition with_file {A} (t : nat) (fd : Z) (bad : A) (k : Z → file (fdata Nd) → outcome A) s : outcome A :=
  match fd_get t fd (kn s) with
  | None => Ret bad
  | Some p => match files (kn s) !! p with Some f => k p f | None => Stuck end
  end.

(** The bytes a call has read go to the user's buffer. *)
Definition give (t : nat) (ubuf : Z) (r : Z) (bytes : list Z) s : Z * st :=
  if 0 <? r then
    match copy_to_user (root_of t (kn s)) ubuf (take (Z.to_nat r) bytes) (mem (kn s)) with
    | Some m => (r, set_kn (set_mem m (kn s)) s)
    | None => (LNXRM_EFAULT, s)
    end
  else (r, s).

Definition sys_read (me t : nat) (fd ubuf n : Z) s : outcome (progress * st) :=
  with_file t fd (Returned LNXRM_EBADF [], s) (λ p f,
    if f_is_dir f then Ret (Returned LNXRM_EFAIL [], s) else
    let n := if 4096 <? n then 4096 else n in
    match f_ops f with
    | reg_fops => '(r, bytes, s) ← reg_read p f n s; let '(r, s) := give t ubuf r bytes s in Ret (Returned r bytes, s)
    | dir_fops => Ret (Returned LNXRM_EFAIL [], s)
    | console_fops =>
        '(pr, k, rx) ← console_read me t n (Datatypes.S (Z.to_nat n)) [] (get_input s) (srx s);
        let s := set_input k rx s in
        match pr with
        | Returned r bytes => let '(r, s) := give t ubuf r bytes s in Ret (Returned r bytes, s)
        | Waits got => Ret (Waits got, s)
        end
    end) s.

Definition sys_write (t : nat) (fd ubuf n : Z) s : outcome (Z * st) :=
  with_file t fd (LNXRM_EBADF, s) (λ p f,
    let n := if 4096 <? n then 4096 else n in
    match copy_from_user (root_of t (kn s)) ubuf (Z.to_nat n) (mem (kn s)) with
    | None => Ret (LNXRM_EFAULT, s)
    | Some bytes =>
        match f_ops f with
        | reg_fops => reg_write p f bytes s
        | dir_fops => Ret (LNXRM_EFAIL, s)
        | console_fops => Ret (n, set_scon (console_puts (i8 <$> bytes) (scon s)) s)
        end
    end) s.

Definition sys_lseek (t : nat) (fd off whence : Z) s : outcome (Z * st) :=
  with_file t fd (LNXRM_EBADF, s) (λ p f,
    match f_ops f with
    | reg_fops => reg_lseek p f off whence s
    | console_fops | dir_fops => Ret (LNXRM_ENOSYS, s)
    end) s.

Definition sys_getdent (t : nat) (fd ubuf len : Z) s : outcome (Z * st) :=
  with_file t fd (LNXRM_EBADF, s) (λ p f,
    if negb (f_is_dir f) then Ret (LNXRM_EBADF, s) else
    let len := if 1024 <? len then 1024 else len in
    '(bytes, s) ← dir_getdent p f len s;
    Ret (give t ubuf (Z.of_nat (length bytes)) bytes s)) s.
End vfs.
