(* ===== verification/VfsFacts.v ===== *)
(** Properties of the virtual file system: routing, moving, sequential access
    to files, enumeration of directories and reading lines from the console. *)
From S2P Require Import Prelude Bytes Cstring Pmm PmmFacts PmmInit Frames Kheap Vmm UserMem Sched Proc Signal.
From S2P Require Import BlkDev BlkCache Journal FatName FatTable FatDir SchedFacts SchedRun Input Ansi Fb Console Vfs.

(** ** Routing *)

(** [path] names [rel] below the mount point [pre]: [rel] is what is left of
    the path behind the mount point, which is followed by slashes or ends the
    path. *)
Definition slashes (l : list Z) : Prop := Forall (λ c, c = SLASH) l.
Definition below (pre path rel : list Z) : Prop :=
  ∃ sl, path = pre ++ sl ++ rel ∧ slashes sl ∧ rel !! 0%nat ≠ Some SLASH ∧ (sl = [] → rel = []).

Lemma skip_slashes_spec p : ∃ sl, p = sl ++ skip_slashes p ∧ slashes sl ∧ skip_slashes p !! 0%nat ≠ Some SLASH.
Proof.
  induction p as [|c p (sl & He & Hs & Hn)]; simpl.
  { exists []. split_and!; [done|by constructor|done]. }
  case_match eqn:E; bool_split.
  - exists (c :: sl). simpl. rewrite <- He. split_and!; [done|by constructor|done].
  - exists []. split_and!; [done|by constructor|]. simpl. intros [= ->]. done.
Qed.

Lemma at_boundary_spec rest : at_boundary rest = true →
  ∃ sl, rest = sl ++ skip_slashes rest ∧ slashes sl ∧ skip_slashes rest !! 0%nat ≠ Some SLASH ∧
    (sl = [] → skip_slashes rest = []).
Proof.
  intros Hb. destruct (skip_slashes_spec rest) as (sl & He & Hs & Hn). exists sl. split_and!; [done..|].
  intros ->. simpl in He. rewrite He in Hb. destruct (skip_slashes rest) as [|c p]; [done|].
  simpl in Hb. bool_split. by subst.
Qed.

Lemma boundary_below sl rel : slashes sl → (sl = [] → rel = []) → at_boundary (sl ++ rel) = true.
Proof.
  intros Hs Hn. destruct Hs as [|c sl -> Hs]; simpl; [by rewrite Hn|done].
Qed.

Lemma starts_with_spec pre path : starts_with pre path = true ↔ path = pre ++ drop (length pre) path.
Proof.
  unfold starts_with. rewrite bool_decide_eq_true. split; intros H.
  - rewrite <- H at 1. by rewrite take_drop.
  - rewrite H. by rewrite take_app_length.
Qed.

(** A mount is named with its full prefix or without its leading slash. *)
Definition names (m : mounted_fs) (path rel : list Z) : Prop :=
  below (m_prefix m) path rel ∨ (m_prefix m !! 0%nat = Some SLASH ∧ below (tail (m_prefix m)) path rel).

Lemma below_intro pre path : starts_with pre path = true → at_boundary (drop (length pre) path) = true →
  below pre path (skip_slashes (drop (length pre) path)).
Proof.
  intros Hs%starts_with_spec Hb. destruct (at_boundary_spec _ Hb) as (sl & He & H1 & H2 & H3).
  exists sl. split_and!; [|done..]. by rewrite <- He.
Qed.

Lemma below_elim pre path rel : below pre path rel →
  starts_with pre path = true ∧ at_boundary (drop (length pre) path) = true.
Proof.
  intros (sl & -> & Hs & _ & Hn). rewrite starts_with_spec, !drop_app_length. split; [done|]. by apply boundary_below.
Qed.

Lemma tail_length (pre : list Z) c : pre !! 0%nat = Some c → pre = c :: tail pre ∧ (length pre - 1 = length (tail pre))%nat.
Proof. destruct pre as [|d pre]; [done|]. simpl. intros [= ->]. split; [done|lia]. Qed.

(** The second test of a mount, without the leading slash of its prefix. *)
Lemma second_test_spec pre path :
  match (if bool_decide (pre !! 0%nat = Some SLASH) && starts_with (tail pre) path && at_boundary (drop (length pre - 1) path)
         then Some (skip_slashes (drop (length pre - 1) path)) else None) with
  | Some rel => pre !! 0%nat = Some SLASH ∧ below (tail pre) path rel
  | None => ∀ rel, ¬ (pre !! 0%nat = Some SLASH ∧ below (tail pre) path rel)
  end.
Proof.
  case_bool_decide as Hh; cbn [andb].
  2: { by intros rel [? _]. }
  destruct (tail_length _ _ Hh) as [_ ->].
  destruct (starts_with (tail pre) path) eqn:E1; cbn [andb].
  2: { intros rel [_ Hb]. apply below_elim in Hb as [H1 _]. congruence. }
  destruct (at_boundary (drop (length (tail pre)) path)) eqn:E2.
  - split; [done|]. by apply below_intro.
  - intros rel [_ Hb]. apply below_elim in Hb as [_ H2]. congruence.
Qed.

Lemma mount_owns_spec m path :
  match mount_owns m path with
  | Some rel => names m path rel
  | None => ∀ rel, ¬ names m path rel
  end.
Proof.
  unfold mount_owns, names. cbv zeta. pose proof (second_test_spec (m_prefix m) path) as H2.
  destruct (starts_with (m_prefix m) path) eqn:E1.
  - destruct (bool_decide_reflect (m_prefix m = [SLASH])) as [Hr|Hr].
    + right. rewrite Hr in E1 |- *. split; [done|]. apply starts_with_spec in E1. simpl in E1 |- *.
      destruct (skip_slashes_spec (drop 1 path)) as (sl & He & Hs & Hn).
      exists (SLASH :: sl). rewrite E1, He at 1. split_and!; [done|by constructor|done|done].
    + destruct (at_boundary (drop (length (m_prefix m)) path)) eqn:E2.
      * left. by apply below_intro.
      * destruct (if bool_decide (_ = Some SLASH) && _ && _ then Some _ else None); [by right|]. intros rel [Hb|Hb]; [|by apply (H2 rel)].
        apply below_elim in Hb as [_ ?]. congruence.
  - destruct (if bool_decide (_ = Some SLASH) && _ && _ then Some _ else None); [by right|]. intros rel [Hb|Hb]; [|by apply (H2 rel)].
    apply below_elim in Hb as [? _]. congruence.
Qed.

(** Routing of a path: the call goes to the first active mount whose prefix,
    with or without its leading slash, is the path or a whole number of its
    components, with what follows those and their slashes; there is no route
    only if no active mount is named. *)
Theorem fs_for_path_correct ms path :
  match fs_for_path ms path with
  | Some (o, rel) => ∃ before m after, ms = before ++ m :: after ∧ m_active m = true ∧ m_ops m = o ∧ names m path rel ∧
      (∀ m', m' ∈ before → m_active m' = true → ∀ rel', ¬ names m' path rel')
  | None => ∀ m, m ∈ ms → m_active m = true → ∀ rel, ¬ names m path rel
  end.
Proof.
  induction ms as [|m ms IH]; simpl.
  { intros m Hm. by apply not_elem_of_nil in Hm. }
  assert ((m_active m = true → ∀ rel, ¬ names m path rel) →
    match fs_for_path ms path with
    | Some (o, rel) => ∃ before m' after, m :: ms = before ++ m' :: after ∧ m_active m' = true ∧ m_ops m' = o ∧ names m' path rel ∧
        (∀ m'', m'' ∈ before → m_active m'' = true → ∀ rel', ¬ names m'' path rel')
    | None => ∀ m', m' ∈ m :: ms → m_active m' = true → ∀ rel, ¬ names m' path rel
    end) as Hskip.
  { intros Hm. destruct (fs_for_path ms path) as [[o rel]|].
    2: { intros m' [->|Hin]%elem_of_cons; [done|by apply IH]. }
    destruct IH as (b & m' & a & -> & Ha & Ho & Hn & Hb). exists (m :: b), m', a. split_and!; try done.
    intros m'' [->|Hin]%elem_of_cons; [done|by apply Hb]. }
  destruct (m_active m) eqn:Ea; simpl; [|by apply Hskip].
  pose proof (mount_owns_spec m path) as Hm. destruct (mount_owns m path) as [rel|]; [|by apply Hskip].
  exists [], m, ms. split_and!; try done. intros m' Hin. by apply not_elem_of_nil in Hin.
Qed.

(** The root mount takes every path. *)
Lemma root_takes_all ms priv path : fs_for_path (Mounted fat32_ops priv [SLASH] true :: ms) (SLASH :: path) = Some (fat32_ops, skip_slashes path).
Proof.
  cbn [fs_for_path m_active negb]. unfold mount_owns. cbn [m_prefix length drop]. unfold starts_with. cbn [length take].
  by rewrite !bool_decide_true.
Qed.

(** ** Reading a line from the console *)

(** What is typed so far: the ring, then the bytes that wait in the UART. *)
Definition typed (k : input) (rx : list Z) : list Z := Input.console k ++ rx.

(** The next line, cut after [room] bytes. *)
Fixpoint line (room : nat) (l : list Z) : list Z :=
  match room, l with
  | S room, c :: l => c :: (if c =? 10 then [] else line room l)
  | _, _ => []
  end.

(** A read of [room] bytes need not wait. *)
Fixpoint complete (room : nat) (l : list Z) : bool :=
  match room, l with
  | O, _ => true
  | S room, [] => false
  | S room, c :: l => (c =? 10) || complete room l
  end.

Record keyboard_ok (k : input) (rx : list Z) : Prop := {
  kb_rings : rings_ok k;
  kb_ring : Forall (λ c, 0 ≤ c < 128) (Input.console k);
  kb_uart : Forall (λ c, 0 ≤ c < 256) rx;
}.

Lemma console_getc_spec k rx c l : keyboard_ok k rx → typed k rx = c :: l →
  ∃ k' rx', console_getc k rx = (c, k', rx') ∧ typed k' rx' = l ∧ keyboard_ok k' rx' ∧ isch k' = isch k ∧ 0 ≤ c < 256.
Proof.
  intros [Hr Hc Hx] Ht. unfold console_getc, input_pop. destruct Hr as [Hi He].
  destruct (ring_pop_spec INBUF_SZ (inbuf k) Hi) as (Hi' & Hh & Htl). destruct (ring_pop INBUF_SZ (inbuf k)) as [v b]. cbn [fst snd] in *.
  assert (∀ rx', Forall (λ c, 0 ≤ c < 256) rx' → Forall (λ c, 0 ≤ c < 128) (tail (Input.console k)) →
    keyboard_ok (set_inbuf b k) rx' ∧ typed (set_inbuf b k) rx' = tail (Input.console k) ++ rx') as Hk.
  { intros rx' Hx' Hc'. unfold typed, Input.console in *. cbn [inbuf set_inbuf]. rewrite Htl. split; [|done].
    split; [done| |done]. unfold Input.console. cbn [inbuf set_inbuf]. by rewrite Htl. }
  fold (Input.console k) in Hh. unfold typed in Ht. destruct (Input.console k) as [|d q]; simpl in Hh, Ht; subst v; cbn.
  - subst rx. apply Forall_cons in Hx as [Hc0 Hx]. destruct (Hk l Hx Hc) as [Hok Ht]. by eexists _, _.
  - injection Ht as -> <-. apply Forall_cons in Hc as [Hc0 Hc]. destruct (Hk rx Hx Hc) as [Hok Ht].
    destruct (Z.ltb_spec c 0); [lia|]. eexists _, _. split_and!; try done; lia.
Qed.

Lemma console_read_loop me t n fuel got k rx :
  keyboard_ok k rx → (Z.to_nat n - length got < fuel)%nat → complete (Z.to_nat n - length got) (typed k rx) = true →
  let w := line (Z.to_nat n - length got) (typed k rx) in
  ∃ k' rx', console_read me t n fuel got k rx = Ret (Returned (Z.of_nat (length (got ++ w))) (got ++ w), k', rx') ∧
    typed k' rx' = drop (length w) (typed k rx) ∧ keyboard_ok k' rx' ∧ isch k' = isch k.
Proof.
  revert got k rx. induction fuel as [|fuel IH]; intros got k rx Hok Hf Hcm; [lia|]. cbn [console_read].
  destruct (Z.leb_spec n (Z.of_nat (length got))) as [Hge|Hlt].
  { replace (Z.to_nat n - length got)%nat with 0%nat by lia. cbn [line]. rewrite app_nil_r. by exists k, rx. }
  destruct (Z.to_nat n - length got)%nat as [|room] eqn:Er; [lia|]. destruct (typed k rx) as [|c l] eqn:Et; [done|].
  destruct (console_getc_spec k rx c l Hok Et) as (k1 & rx1 & -> & Ht1 & Hok1 & Hs1 & Hc).
  rewrite (proj2 (Z.leb_le 0 c)) by lia. rewrite u8_small by lia. cbn [line complete] in *.
  destruct (Z.eqb_spec c 10) as [->|Hne]; cbn [orb] in Hcm.
  - rewrite length_app. simpl. exists k1, rx1. split_and!; [|done..]. do 4 f_equal. lia.
  - specialize (IH (got ++ [c]) k1 rx1 Hok1).
    assert (Z.to_nat n - length (got ++ [c]) = room)%nat as Hroom by (rewrite length_app; simpl; lia).
    rewrite Hroom, Ht1 in IH. destruct IH as (k2 & rx2 & E & Ht2 & Hok2 & Hs2); [lia|done|].
    rewrite <- app_assoc in E. exists k2, rx2. split_and!; [exact E|done|done|congruence].
Qed.

(** C37. Reading the console when enough was typed: the call returns without going
    to sleep, with the typed bytes up to the first newline, the newline
    included, but no more than asked for; what follows them stays for the next
    call, and the scheduler is untouched.  The ring must hold 7-bit
    characters, which is what the keyboard delivers; the serial line can push
    others, and the read loses those. *)
Theorem console_read_line me t n k rx :
  keyboard_ok k rx → complete (Z.to_nat n) (typed k rx) = true →
  let w := line (Z.to_nat n) (typed k rx) in
  ∃ k' rx', console_read me t n (S (Z.to_nat n)) [] k rx = Ret (Returned (Z.of_nat (length w)) w, k', rx') ∧
    typed k rx = w ++ typed k' rx' ∧ keyboard_ok k' rx' ∧ isch k' = isch k.
Proof.
  intros Hok Hcm w. destruct (console_read_loop me t n (S (Z.to_nat n)) [] k rx Hok) as (k' & rx' & E & Ht & Hok' & Hs);
    rewrite ?Nat.sub_0_r in *; [lia|done|]. exists k', rx'. split_and!; [exact E| |done|done].
  rewrite Ht. fold w. assert (∀ r l, take (length (line r l)) l = line r l) as Hl.
  { intros r. induction r as [|r IH]; intros [|c l]; try done. cbn [line]. destruct (c =? 10); [done|]. cbn. by rewrite IH. }
  rewrite <- (take_drop (length w) (typed k rx)) at 1. f_equal. apply Hl.
Qed.

(** The ring wraps, a line of three bytes is typed and more waits in the
    UART. *)
Definition typing : input := set_inbuf (Ring (λ i, if (i =? 255)%nat then 108 else 115) 255 1) InputDemo.k0.

Lemma console_read_line_witness :
  ∃ k', console_read 0 3 80 81 [] typing [10; 120] = Ret (Returned 3 [108; 115; 10], k', [120]) ∧ keyboard_ok k' [120].
Proof.
  destruct (console_read_line 0 3 80 typing [10; 120]) as (k' & rx' & E & Ht & Hok & _).
  - split; [split; split; by_eval|by_eval|by_eval].
  - vm_compute. reflexivity.
  - assert (line (Z.to_nat 80) (typed typing [10; 120]) = [108; 115; 10]) as Hl by (vm_compute; reflexivity).
    rewrite Hl in E. change (S (Z.to_nat 80)) with 81%nat in E.
    assert ((if console_read 0 3 80 81 [] typing [10; 120] is Ret (_, _, rx) then rx else []) = [120]) as Hrx by (vm_compute; reflexivity).
    rewrite E in Hrx. subst rx'. exists k'. exact (conj E Hok).
Defined.

(** ** Moving into a directory *)

Lemma length_strip_rev r : (length (strip_rev r) ≤ length r)%nat.
Proof. induction r as [|c [|d r] IH]; [done|done|]. cbn [strip_rev]. destruct (c =? SLASH); simpl in *; lia. Qed.

Lemma length_strip p : (length (strip_trailing_slashes p) ≤ length p)%nat.
Proof. unfold strip_trailing_slashes. rewrite length_reverse. etrans; [apply length_strip_rev|]. by rewrite length_reverse. Qed.

Lemma last_index_spec c (p : list Z) :
  match last_index_of c p with
  | Some i => p !! i = Some c ∧ c ∉ drop (S i) p
  | None => c ∉ p
  end.
Proof.
  induction p as [|x p IH]; simpl; [set_solver|]. destruct (last_index_of c p) as [i|]; [done|].
  case_decide as Hx; [subst; by rewrite drop_0|]. set_solver.
Qed.

(** The last component of a path. *)
Lemma basename_spec p : ∃ pre, p = pre ++ basename p ∧ (SLASH ∉ basename p) ∧ (pre = [] ∨ last pre = Some SLASH).
Proof.
  unfold basename. pose proof (last_index_spec SLASH p) as Hl. destruct (last_index_of SLASH p) as [i|].
  - destruct Hl as [Hi Hn]. exists (take (S i) p). split_and!; [by rewrite take_drop|done|right].
    by rewrite (take_S_r _ _ _ Hi), last_snoc.
  - exists []. split_and!; [done|done|by left].
Qed.

Section move.
Context {S F Nd : Type} `{Frames S} `{FileSys F Nd}.
Implicit Types (s : sys S F Nd).

(** [move] keeps its buffers: the source is the last component, without any
    slash, of the first 127 bytes of the path with the trailing slashes
    removed; with no such component the call is refused, and otherwise it is
    the rename of the source to that component below the destination, a path
    that fits the 256-byte buffer with its terminator whatever the arguments
    are. *)
Theorem sys_move_bounds src dest s :
  let sbuf := strip_trailing_slashes (take 127 src) in
  let dbuf := strip_trailing_slashes (take 127 dest) in
  ∃ pre base, sbuf = pre ++ base ∧ (SLASH ∉ base) ∧ (pre = [] ∨ last pre = Some SLASH) ∧
    (if decide (base = []) then sys_move src dest s = Ret (LNXRM_EINVAL, s)
     else ∃ dir, sys_move src dest s = vfs_rename_path sbuf (dir ++ base) s ∧ (length (dir ++ base) + 1 ≤ 256)%nat ∧
       last dir = Some SLASH ∧ (dir = dbuf ∨ dir = dbuf ++ [SLASH])).
Proof.
  intros sbuf dbuf. destruct (basename_spec sbuf) as (pre & Hp & Hn & Hpre). exists pre, (basename sbuf).
  split; [exact Hp|]. split; [exact Hn|]. split; [exact Hpre|]. unfold sys_move. fold sbuf dbuf. case_decide as Hb; [by rewrite bool_decide_true|].
  rewrite bool_decide_false by done.
  assert (length sbuf ≤ 127 ∧ length dbuf ≤ 127)%nat as [Hs Hd].
  { unfold sbuf, dbuf. split; (etrans; [apply length_strip|rewrite length_take; lia]). }
  assert (length (basename sbuf) ≤ 127)%nat as Hbl by (rewrite Hp, length_app in Hs; lia).
  rewrite (proj2 (Nat.ltb_ge _ _)) by lia.
  destruct (bool_decide (dbuf = []) || negb (bool_decide (last dbuf = Some SLASH))) eqn:E.
  - exists (dbuf ++ [SLASH]). rewrite !length_app, last_snoc. simpl. split_and!; [done|lia|done|by right].
  - exists dbuf. rewrite length_app. split_and!; [done|lia| |by left]. bool_split. by apply bool_decide_eq_true in H2.
Qed.
End move.
