(* ===== verification/VfsFile.v ===== *)
(** Open regular files as byte arrays with a position: what a file system
    promises of its nodes ([FileLaws]), and that reading, writing and seeking
    through a descriptor of the virtual file system ([reg_read], [reg_write]
    and [reg_lseek] of [kernel/fs/vfs.c]) implement the abstract file. *)
From S2P Require Import Prelude Bytes Cstring Pmm PmmFacts PmmInit Frames Kheap Vmm UserMem Sched Proc Signal.
From S2P Require Import BlkDev BlkCache Journal FatName FatTable FatDir FatFile Input Ansi Fb Console Vfs.

(** Laying [data] over [old] at [off]; bytes between the end of [old] and
    [off] are not determined. *)
Definition overlaid (off : nat) (data old new : list Z) : Prop :=
  ∃ gap, length gap = (off - length old)%nat ∧ new = copy_into off data (old ++ gap).

(** ** What a file system promises *)

Class FileLaws (F Nd : Type) `{FileSys F Nd} := {
  (** The state between calls, the largest transfer, and the largest size. *)
  fs_ok : F → Prop;
  io_max : Z;
  size_max : Z;
  (** A node of a regular file and the contents of the file. *)
  stores : F → Nd → list Z → Prop;
  (** Nodes of two different files. *)
  apart : F → Nd → Nd → Prop;
  (** No room is left. *)
  full : F → Prop;
  io_max_page : 4096 ≤ io_max;
  size_max_word : size_max ≤ 2 ^ 32;
  stores_size f nd bytes : stores f nd bytes → Z.of_nat (length bytes) < 2 ^ 32;
  fs_read_law f nd bytes off k : fs_ok f → stores f nd bytes → 0 ≤ off → 0 ≤ k → off + k < 2 ^ 64 →
    let data := take (Z.to_nat (Z.min k io_max)) (drop (Z.to_nat off) bytes) in
    ∃ f', fs_read nd off k f = Ret (Z.of_nat (length data), data, f') ∧ fs_ok f' ∧
      (∀ nd' bytes', stores f nd' bytes' → stores f' nd' bytes') ∧ (∀ nd1 nd2, apart f nd1 nd2 → apart f' nd1 nd2);
  fs_write_law f nd bytes off buf : fs_ok f → stores f nd bytes → bytes_ok buf → buf ≠ [] → 0 ≤ off →
    off + Z.of_nat (length buf) < size_max →
    ∃ rc nd' f', fs_write nd off (Some buf) (Z.of_nat (length buf)) f = Ret (rc, nd', f') ∧ fs_ok f' ∧
      (∀ nd2 bytes2, apart f nd nd2 → stores f nd2 bytes2 → apart f' nd' nd2 ∧ stores f' nd2 bytes2) ∧
      (rc < 0 ∧ full f' ∧ nd' = nd ∧ stores f' nd bytes ∨
       ∃ bytes', rc = Z.min (Z.of_nat (length buf)) io_max ∧ stores f' nd' bytes' ∧
         overlaid (Z.to_nat off) (take (Z.to_nat io_max) buf) bytes bytes');
}.

(** ** The abstract file *)

Record afile := AFile {
  a_bytes : list Z;
  a_pos : Z;
  a_opened : Z;  (* the size the file had when it was opened *)
}.

Inductive fcall := FRead (n : Z) | FWrite (buf : list Z) | FLseek (off whence : Z).

(** Where a seek starts from. *)
Definition seek_base (a : afile) (whence : Z) : option Z :=
  if decide (whence = SEEK_SET) then Some 0
  else if decide (whence = SEEK_CUR) then Some (a_pos a)
  else if decide (whence = SEEK_END) then Some (Z.of_nat (length (a_bytes a)))
  else None.

(** A call with its result and the bytes it delivers; [io] bytes at most are
    transferred at once. *)
Inductive astep (io : Z) (a : afile) : fcall → Z → list Z → afile → Prop :=
  | A_read n out : out = take (Z.to_nat (Z.min n io)) (drop (Z.to_nat (a_pos a)) (a_bytes a)) →
      astep io a (FRead n) (Z.of_nat (length out)) out (AFile (a_bytes a) (a_pos a + Z.of_nat (length out)) (a_opened a))
  | A_write buf data bytes : data = take (Z.to_nat io) buf → overlaid (Z.to_nat (a_pos a)) data (a_bytes a) bytes →
      astep io a (FWrite buf) (Z.of_nat (length data)) [] (AFile bytes (a_pos a + Z.of_nat (length data)) (a_opened a))
  | A_write_error buf rc : rc < 0 → astep io a (FWrite buf) rc [] a
  | A_lseek off whence base : seek_base a whence = Some base → 0 ≤ base + off →
      astep io a (FLseek off whence) (base + off) [] (AFile (a_bytes a) (base + off) (a_opened a)).

Section refinement.
Context {S F Nd : Type} `{Frames S} `{FileLaws F Nd}.
Implicit Types (s : sys S F Nd).

(** A call on the file at [p], through its table [reg_fops]. *)
Definition file_call (c : fcall) (p : Z) s : outcome (Z * list Z * sys S F Nd) :=
  match files (kn s) !! p with
  | None => Stuck
  | Some f =>
      match c with
      | FRead k => reg_read p f k s
      | FWrite buf => '(r, s) ← reg_write p f buf s; Ret (r, [], s)
      | FLseek off whence => '(r, s) ← reg_lseek p f off whence s; Ret (r, [], s)
      end
  end.

(** The open file [p] of [s] is the abstract file [a]. *)
Record represents s (p : Z) (a : afile) : Prop := {
  rp_ok : fs_ok (fsys s);
  rp_pos : 0 ≤ a_pos a < 2 ^ 64;
  rp_file : ∃ f vn nd, files (kn s) !! p = Some f ∧ f_ops f = reg_fops ∧ f_data f = Some (NodeOf vn) ∧
    vn_data vn = Some nd ∧ vn_ops vn = Some fat32_ops ∧ vn_size vn = a_opened a ∧ f_pos f = a_pos a ∧
    stores (fsys s) nd (a_bytes a);
}.

(** The calls that behave: positions that the file system can represent, and
    seeks that do not go backwards, from the start, the position or the end,
    the last only as long as the file has the size it had when it was opened
    ([lseek_otherwise] is what the others do). *)
Definition fits (a : afile) (c : fcall) : Prop :=
  match c with
  | FRead k => 0 ≤ k ∧ a_pos a + k < 2 ^ 64
  | FWrite buf => buf ≠ [] ∧ bytes_ok buf ∧ a_pos a + Z.of_nat (length buf) < size_max
  | FLseek off whence => 0 ≤ off ∧ (whence = SEEK_END → a_opened a = Z.of_nat (length (a_bytes a))) ∧
      ∃ base, seek_base a whence = Some base ∧ base + off < 2 ^ 63
  end.

(** The node of the open file [p]. *)
Definition node_of s (p : Z) (nd : Nd) : Prop :=
  ∃ f vn, files (kn s) !! p = Some f ∧ f_data f = Some (NodeOf vn) ∧ vn_data vn = Some nd.

(** The open files [p] and [q] are different files. *)
Definition separate s (p q : Z) : Prop := ∃ nd nd2, node_of s p nd ∧ node_of s q nd2 ∧ apart (fsys s) nd nd2.

(** The open file [q] is not touched by a step on [p]. *)
Definition undisturbed (p : Z) s s' : Prop :=
  ∀ q b, q ≠ p → represents s q b → separate s p q → represents s' q b ∧ separate s' p q.

(** What stays the same but for the file [p] and the file system. *)
Definition only_file (p : Z) s s' : Prop :=
  s' = set_kn (set_files (files (kn s')) (kn s)) (set_fsys (fsys s') s) ∧
  ∀ q, q ≠ p → files (kn s') !! q = files (kn s) !! q.

Lemma upd_file_lookup p g s f : files (kn s) !! p = Some f → files (kn (upd_file p g s)) !! p = Some (g f).
Proof. intros Hf. simpl. by rewrite lookup_alter_eq, Hf. Qed.

Lemma only_upd p g s fs' : only_file p s (upd_file p g (set_fsys fs' s)).
Proof. destruct s as [[] ? ? ? ? ? ?]. split; [done|]. intros q Hq. simpl. by rewrite lookup_alter_ne. Qed.

Lemma only_fsys p s fs' : only_file p s (set_fsys fs' s).
Proof. by destruct s as [[] ? ? ? ? ? ?]. Qed.

Lemma undisturbed_step p s s' nd nd' : only_file p s s' → node_of s p nd → node_of s' p nd' → fs_ok (fsys s') →
  (∀ nd2 bytes2, apart (fsys s) nd nd2 → stores (fsys s) nd2 bytes2 → apart (fsys s') nd' nd2 ∧ stores (fsys s') nd2 bytes2) →
  undisturbed p s s'.
Proof.
  intros [_ Hq] (f & vn & Hf & Hd & Hv) Hp' Hok Hkeep q b Hne [_ Hpos (f2 & vn2 & nd2 & Hf2 & Hops & Hd2 & Hv2 & Hvo & Hvs & Hfp & Hst)] (x & y & Hx & Hy & Ha).
  destruct Hx as (f1 & vn1 & Hf1 & Hd1 & Hv1). destruct Hy as (f3 & vn3 & Hf3 & Hd3 & Hv3). simplify_eq.
  destruct (Hkeep _ _ Ha Hst) as [Ha' Hst']. rewrite <- (Hq q Hne) in Hf2. split.
  - split; [done|done|]. by exists f2, vn2, nd2.
  - exists nd', nd2. split_and!; [done|by exists f2, vn2|done].
Qed.

Lemma file_call_spec c p a s :
  represents s p a → fits a c →
  ∃ r out s' a', file_call c p s = Ret (r, out, s') ∧ astep io_max a c r out a' ∧ represents s' p a' ∧ only_file p s s' ∧ undisturbed p s s' ∧ (r < 0 → full (fsys s')).
Proof.
  intros [Hok Hpos (f & vn & nd & Hf & Hops & Hd & Hvd & Hvo & Hvs & Hfp & Hst)] Hfit. assert (node_of s p nd) as Hnd by (by exists f, vn).
  unfold file_call. rewrite Hf. pose proof io_max_page. pose proof (stores_size _ _ _ Hst) as Hsz. destruct c as [k|buf|off whence]; simpl in Hfit.
  - unfold reg_read, reg_node. rewrite Hd, Hvd, Hvo. cbn [mbind outcome_bind via]. rewrite Hfp.
    destruct (fs_read_law (fsys s) nd (a_bytes a) (a_pos a) k Hok Hst) as (fs' & -> & Hok' & Hst' & Hap'); [lia..|].
    set (out := take _ _). assert (Z.of_nat (length out) ≤ k) as Hlen by (unfold out; rewrite length_take; lia).
    cbn [mbind outcome_bind fst snd]. destruct (Z.ltb_spec 0 (Z.of_nat (length out))) as [Hlt|Hge].
    + eexists _, out, _, _. split; [reflexivity|]. split; [by apply A_read|]. split; [|split; [apply only_upd|split; [|lia]]].
      * split; [done|simpl; lia|]. eexists _, vn, nd. split; [by apply upd_file_lookup|]. rewrite u64_small by lia.
        split_and!; try done. by apply Hst'.
      * eapply undisturbed_step; [apply only_upd|done|by eexists _, vn; split; [by apply upd_file_lookup|]|done|]. intros nd2 b2 Ha Hs2. cbn. auto.
    + eexists _, out, _, _. split; [reflexivity|]. split; [by apply A_read|]. split; [|split; [apply only_fsys|split; [|lia]]].
      * split; [done|simpl; lia|]. exists f, vn, nd. split_and!; try done; [simpl; lia|by apply Hst'].
      * eapply undisturbed_step; [apply only_fsys|done|by exists f, vn|done|]. intros nd2 b2 Ha Hs2. cbn. auto.
  - destruct Hfit as (Hne & Hb & Hmax). unfold reg_write, reg_node. rewrite Hd, Hvd, Hvo.
    cbn [mbind outcome_bind via]. rewrite Hfp.
    destruct (fs_write_law (fsys s) nd (a_bytes a) (a_pos a) buf Hok Hst Hb Hne ltac:(lia) Hmax) as (rc & nd' & fs' & -> & Hok' & Hoth & Hres).
    pose proof size_max_word. cbn [mbind outcome_bind fst snd].
    destruct Hres as [(Hrc & Hfull & -> & Hst')|(bytes' & -> & Hst' & Hov)].
    + rewrite (proj2 (Z.ltb_ge 0 rc)) by lia. eexists _, [], _, a. split; [reflexivity|]. split; [by apply A_write_error|].
      split; [|split; [apply only_upd|split; [|done]]].
      * split; [done|done|]. eexists _, _, nd. by split; [apply upd_file_lookup|].
      * eapply undisturbed_step; [apply only_upd|done|by eexists _, _; split; [by apply upd_file_lookup|]|done|exact Hoth].
    + set (data := take (Z.to_nat io_max) buf) in *. assert (0 < Z.of_nat (length buf)) by (destruct buf; simpl; [done|lia]).
      assert (Z.min (Z.of_nat (length buf)) io_max = Z.of_nat (length data)) as Hl by (unfold data; rewrite length_take; lia). rewrite Hl.
      rewrite (proj2 (Z.ltb_lt _ _)), u64_small by lia.
      eexists _, [], _, _. split; [reflexivity|]. split; [by apply A_write|]. split; [|split; [apply only_upd|split; [|lia]]].
      * split; [done|simpl; lia|]. eexists _, _, nd'. by split; [apply upd_file_lookup|].
      * eapply undisturbed_step; [apply only_upd|done|by eexists _, _; split; [by apply upd_file_lookup|]|done|exact Hoth].
  - destruct Hfit as (Hoff & Hend & base & Hbase & Hmax). unfold reg_lseek. rewrite Hd. cbn [mbind outcome_bind].
    rewrite (proj2 (Z.ltb_ge off 0)), Hfp, Hvs by done. set (b := if whence =? SEEK_SET then _ else _).
    assert (b = base ∧ 0 ≤ base) as [-> Hb0].
    { unfold b, seek_base in *. destruct (Z.eqb_spec whence SEEK_SET); [rewrite decide_True in Hbase by done; simplify_eq; lia|].
      rewrite decide_False in Hbase by done. destruct (Z.eqb_spec whence SEEK_CUR); [rewrite decide_True in Hbase by done; simplify_eq; lia|].
      rewrite decide_False in Hbase by done. case_decide as He; [|done]. rewrite (Hend He). simplify_eq. lia. }
    rewrite u64_small by lia. unfold i64. rewrite sgn_small by lia. eexists _, [], _, _. split; [reflexivity|].
    split; [apply A_lseek; [done|lia]|]. assert (only_file p s (upd_file p (set_pos_data (base + off) (NodeOf vn)) s)) as Ho
      by (replace s with (set_fsys (fsys s) s) at 2 by (by destruct s); apply only_upd).
    split; [|split; [done|split; [|lia]]].
    + split; [done|simpl; lia|]. eexists _, vn, nd. by split; [apply upd_file_lookup|].
    + eapply undisturbed_step; [done|done|by eexists _, _; split; [by apply upd_file_lookup|]|done|]. auto.
Qed.

(** What the seeks do that do not fit: a negative offset leads to the start of
    the file, and the end is the one the file had when it was opened. *)
Lemma lseek_otherwise off p a s : represents s p a →
  (∀ whence, off < 0 → ∃ s', file_call (FLseek off whence) p s = Ret (0, [], s') ∧ represents s' p (AFile (a_bytes a) 0 (a_opened a))) ∧
  (0 ≤ off → 0 ≤ a_opened a → a_opened a + off < 2 ^ 63 → ∃ s', file_call (FLseek off SEEK_END) p s = Ret (a_opened a + off, [], s') ∧
     represents s' p (AFile (a_bytes a) (a_opened a + off) (a_opened a))).
Proof.
  intros [Hok Hpos (f & vn & nd & Hf & Hops & Hd & Hvd & Hvo & Hvs & Hfp & Hst)]. unfold file_call, reg_lseek. rewrite Hf, Hd. cbn [mbind outcome_bind]. split.
  - intros whence Hneg. rewrite (proj2 (Z.ltb_lt off 0)) by done. eexists. split; [reflexivity|].
    split; [done|simpl; lia|]. eexists _, vn, nd. by split; [apply upd_file_lookup|].
  - intros Hoff Hop Hmax. rewrite (proj2 (Z.ltb_ge off 0)), Hvs by done. change (SEEK_END =? SEEK_SET) with false. change (SEEK_END =? SEEK_CUR) with false.
    cbn iota. rewrite u64_small by lia. unfold i64. rewrite sgn_small by lia. eexists. split; [reflexivity|].
    split; [done|simpl; lia|]. eexists _, vn, nd. by split; [apply upd_file_lookup|].
Qed.

(** ** Sequences of calls *)

Fixpoint file_calls (cs : list fcall) (p : Z) s : outcome (list (Z * list Z) * sys S F Nd) :=
  match cs with
  | [] => Ret ([], s)
  | c :: cs => '(r, out, s) ← file_call c p s; '(res, s) ← file_calls cs p s; Ret ((r, out) :: res, s)
  end.

Inductive atrace (io : Z) : afile → list fcall → list (Z * list Z) → afile → Prop :=
  | T_nil a : atrace io a [] [] a
  | T_cons a c r out a1 cs res a2 : astep io a c r out a1 → atrace io a1 cs res a2 → atrace io a (c :: cs) ((r, out) :: res) a2.

(** Every call fits, however the calls before it turn out. *)
Fixpoint fit (a : afile) (cs : list fcall) : Prop :=
  match cs with
  | [] => True
  | c :: cs => fits a c ∧ ∀ r out a', astep io_max a c r out a' → fit a' cs
  end.

Lemma only_file_refl p s : only_file p s s.
Proof. by destruct s as [[] ? ? ? ? ? ?]. Qed.
Lemma only_file_trans p s1 s2 s3 : only_file p s1 s2 → only_file p s2 s3 → only_file p s1 s3.
Proof. intros [E1 H1'] [E2 H2']. split; [by rewrite E2, E1|]. intros q Hq. by rewrite H2', H1'. Qed.

Lemma undisturbed_trans p s1 s2 s3 : undisturbed p s1 s2 → undisturbed p s2 s3 → undisturbed p s1 s3.
Proof. intros H12 H23 q b Hne Hr Hs. destruct (H12 q b Hne Hr Hs). by apply H23. Qed.

(** Where a call failed, no room was left. *)
Definition fails_full (cs : list fcall) (p : Z) s (res : list (Z * list Z)) : Prop :=
  ∀ i r out, res !! i = Some (r, out) → r < 0 →
    ∃ s', file_calls (take (Datatypes.S i) cs) p s = Ret (take (Datatypes.S i) res, s') ∧ full (fsys s').

Lemma fails_full_cons c cs p s r out s1 res : file_call c p s = Ret (r, out, s1) → (r < 0 → full (fsys s1)) →
  fails_full cs p s1 res → fails_full (c :: cs) p s ((r, out) :: res).
Proof.
  intros E Hr Hf [|i] r' out' Hi Hneg; cbn [take file_calls]; rewrite E; cbn [mbind outcome_bind].
  - injection Hi as <- <-. exists s1. split; [by rewrite !take_0|auto].
  - destruct (Hf i r' out' Hi Hneg) as (s' & -> & Hs'). by exists s'.
Qed.

(** C12. An open regular file implements the abstract file, a byte array with a
    position on which reads and writes transfer at most [io_max] bytes at once
    and seeks go to a place relative to the start, the position or the end.  A
    sequence of calls of which each [fits] (see there: representable positions,
    seeks that do not go backwards, and to the end only while the size is the
    one at opening) returns, delivers results the abstract file can deliver,
    and ends in a state that represents the abstract file again.  A call fails
    only when no room is left at that moment, and only a write.  The rest of
    the system but the file system is as before, no other open file is touched,
    and one that is open on a different file still represents what it did. *)
Theorem file_refines cs p a s :
  represents s p a → fit a cs →
  ∃ res s' a', file_calls cs p s = Ret (res, s') ∧ atrace io_max a cs res a' ∧ represents s' p a' ∧ only_file p s s' ∧ undisturbed p s s' ∧
    fails_full cs p s res.
Proof.
  revert a s. induction cs as [|c cs IH]; intros a s Hrp Hfit; cbn [file_calls].
  { exists [], s, a. split_and!; [done|constructor|done|apply only_file_refl|by intros q b|by intros i]. }
  destruct Hfit as [Hc Hcs]. destruct (file_call_spec c p a s Hrp Hc) as (r & out & s1 & a1 & E & Hst & Hrp1 & Ho1 & Hu1 & Hfu).
  rewrite E. cbn [mbind outcome_bind]. destruct (IH a1 s1 Hrp1 (Hcs _ _ _ Hst)) as (res & s2 & a2 & -> & Htr & Hrp2 & Ho2 & Hu2 & Hff).
  eexists _, s2, a2. split_and!; [done|by econstructor|done|by eapply only_file_trans|by eapply undisturbed_trans|by eapply fails_full_cons].
Qed.
End refinement.
