(* ===== verification/FatVfs.v ===== *)
(** The FAT32 driver as the file system of the virtual file system: its table
    of operations, the locked wrappers of [kernel/fs/fat32/fat32.c], and the
    proof that it keeps the promises of [FileLaws] on a working volume.

    The lock makes each operation atomic, so a wrapper is the operation it
    calls.  An operation that runs out of fuel follows a cyclic chain. *)
From S2P Require Import Prelude Bytes Cstring Pmm PmmFacts PmmInit Frames Kheap Vmm UserMem Sched Proc ProcFacts Signal.
From S2P Require Import BlkDev BlkCache BlkCacheFacts BlkHealth Journal FatName FatNameFacts FatTable FatTableFacts FatDir FatFile FatMeta.
From S2P Require Import FatReady FatDirFacts FatWalk FatMetaFacts FatData FatWrite Input Ansi Fb FbFacts Console ConsoleFacts Vfs VfsFacts VfsFile.
From S2P Require Import KheapFacts SchedFacts SchedRun.

#[local] Opaque CACHE_ENTRIES.

Section ops.
Context {W D : Type} `{EqDecision D} `{Disks W D}.
Context (fuel : nat) (scr : scratch) (mem1 mem2 : bool).

Definition locked {A} (m : M W D A) (s : fs W D) : outcome (A * fs W D) :=
  match m s with Some x => Ret x | None => Stuck end.

Definition fat_lookup (path : list Z) : fs W D → outcome (Z * option (vnode_type * Z * resolve) * fs W D) :=
  locked ('(rc, v) ← fat_lookup_impl scr fuel path; mret (rc, (λ v, (v_type v, v_size v, fs_data v)) <$> v)).
Definition fat32_getdent_locked (nd : resolve) (cookie : Z) : fs W D → outcome (Z * Z * option (list Z * Z) * fs W D) :=
  locked (fat32_getdent_impl scr fuel nd cookie).
Definition fat_read (nd : resolve) (off n : Z) : fs W D → outcome (Z * list Z * fs W D) :=
  locked (fat_read_impl scr fuel nd off true n).
Definition fat_write (nd : resolve) (off : Z) (buf : option (list Z)) (n : Z) : fs W D → outcome (Z * resolve * fs W D) :=
  locked (fat_write_impl scr fuel nd off buf n).
Definition fat_create (path : list Z) : fs W D → outcome (Z * fs W D) := locked (fat_create_impl scr fuel path).
Definition fat_mkdir (path : list Z) : fs W D → outcome (Z * fs W D) := locked (fat_mkdir_impl scr fuel path).
Definition fat_unlink (path : list Z) : fs W D → outcome (Z * fs W D) := locked (fat_unlink_impl scr fuel mem1 path).
Definition fat_rmdir (path : list Z) : fs W D → outcome (Z * fs W D) := locked (fat_rmdir_impl scr fuel mem1 path).
Definition fat_rename (oldpath newpath : list Z) : fs W D → outcome (Z * fs W D) :=
  locked (fat_rename_impl scr fuel mem1 mem2 oldpath newpath).

Definition fat32_ops_table : FileSys (fs W D) resolve := {|
  fs_lookup := fat_lookup; fs_getdent := fat32_getdent_locked; fs_read := fat_read; fs_write := fat_write;
  fs_create := fat_create; fs_mkdir := fat_mkdir; fs_unlink := fat_unlink; fs_rmdir := fat_rmdir; fs_rename := fat_rename |}.
End ops.

Section laws.
Context {W D : Type} `{EqDecision D} `{DiskHealth W D}.
Context (n : Z) (fuel : nat) (scr : scratch) (mem1 mem2 : bool).
#[local] Instance fat_sys : FileSys (fs W D) resolve := fat32_ops_table fuel scr mem1 mem2.
Implicit Types (s : fs W D).

(** The driver between calls, on a volume its loops can walk. *)
Definition fat_ok s : Prop := idle n s ∧ sized n s ∧ enough (mnt s) fuel.

Definition fat_stores s (r : resolve) (bytes : list Z) : Prop :=
  ∃ l dl, file_at s r l dl ∧ FatData.contents s l (filesize (r_de r)) = bytes.

Lemma same_stores s s' r bytes : same n s s' → fat_stores s r bytes → fat_stores s' r bytes.
Proof.
  intros Hs (l & dl & Hfa & <-). exists l, dl. split.
  - destruct Hfa. split; rewrite ?(sm_mnt _ _ _ Hs); done.
  - unfold FatData.contents. by rewrite (same_file_bytes n s s').
Qed.

(** Two files, of which neither shares a cluster with the other, and whose
    clusters are not those of the other's directory. *)
Definition fat_apart s (r r2 : resolve) : Prop :=
  ∃ l dl l2 dl2, file_at s r l dl ∧ file_at s r2 l2 dl2 ∧ (∀ x, x ∈ l2 → (x ∉ l) ∧ (x ∉ dl)) ∧ ∀ x, x ∈ dl2 → x ∉ l.

Lemma same_apart s s' r r2 : same n s s' → fat_apart s r r2 → fat_apart s' r r2.
Proof.
  intros Hs (l & dl & l2 & dl2 & [] & [] & Hd). exists l, dl, l2, dl2. split_and!; [..|apply Hd|apply Hd].
  all: split; rewrite ?(sm_mnt _ _ _ Hs); done.
Qed.

Lemma file_at_det s r l dl l' dl' : file_at s r l dl → file_at s r l' dl' → l' = l ∧ dl' = dl.
Proof. intros [_ _ _ [H1' _] _ [H2' _] _] [_ _ _ [H3' _] _ [H4' _] _]. split; by eapply fchain_det. Qed.

(** A file stays what it is when another one grows by [new] and is written. *)
Lemma apart_kept s s' r r' r2 l new dl f bytes :
  mnt s' = set_fat f (mnt s) → keeps_chains (mnt s) (mnt s') l new → Forall (λ c, 2 ≤ c < max_cluster (mnt s)) new →
  (∀ y, data_lba n (mnt s) y → y ∉ chain_lbas (mnt s) (l ++ new) → y ∉ chain_lbas (mnt s) dl → sec s' y = sec s y) →
  volume n (mnt s) → file_at s r l dl → file_at s' r' (l ++ new) dl → fat_apart s r r2 → fat_stores s r2 bytes →
  fat_apart s' r' r2 ∧ fat_stores s' r2 bytes.
Proof.
  intros Hm Hkc Hnew Hsec Hv Hfa Hfa' (l0 & dl0 & l2 & dl2 & Hfa0 & Hfa2 & Hd & Hdd) (l2' & dl2' & Hfa2' & <-).
  destruct (file_at_det _ _ _ _ _ _ Hfa Hfa0) as [-> ->]. destruct (file_at_det _ _ _ _ _ _ Hfa2 Hfa2') as [-> ->]. clear Hfa0 Hfa2'.
  pose proof Hfa2 as [Hreg Hlen Hby Hch Hsz Hpa Hap].
  destruct (Hkc _ _ Hch) as [Hch' Hn]; [by intros x Hx; apply Hd|]. destruct (Hkc _ _ Hpa Hdd) as [Hpa' Hnd].
  assert (file_at s' r2 l2 dl2) as Hfa2' by (split; try done; by rewrite Hm).
  assert (∀ k c, good_chain (mnt s) c k → Forall (λ c, 2 ≤ c < max_cluster (mnt s)) k) as Hrange.
  { intros k c [_ Hk]. eapply Forall_impl; [exact Hk|]. by intros x [? _]. }
  pose proof (Hrange _ _ Hch) as R2. pose proof (Hrange _ _ (fa_chain _ _ _ _ Hfa)) as R1. pose proof (Hrange _ _ (fa_parent _ _ _ _ Hfa)) as R3.
  split; [|exists l2, dl2; split; [done|]].
  - exists (l ++ new), dl, l2, dl2. split_and!; [done|done| |by intros x Hx Hx'; apply (Hnd x)].
    intros x Hx. split; [by intros Hx'; apply (Hn x)|by apply Hd].
  - unfold FatData.contents, file_bytes. rewrite Hm, chain_lbas_set_fat. f_equal. f_equal. apply Forall_fmap_ext, Forall_forall. intros x Hx.
    apply Hsec; [by eapply live_lbas; [| apply Hch|]| |].
    + eapply chain_lbas_disjoint; [done|exact R2|by apply Forall_app|by intros y Hy Hy'; apply (Hn y)|done].
    + eapply chain_lbas_disjoint; [done|exact R2|exact R3|by intros y Hy; apply Hd|done].
Qed.

Lemma fat_read_laws s r bytes off k : fat_ok s → fat_stores s r bytes → 0 ≤ off → 0 ≤ k → off + k < 2 ^ 64 →
  let data := take (Z.to_nat (Z.min k MAX_IO)) (drop (Z.to_nat off) bytes) in
  ∃ s', fat_read fuel scr r off k s = Ret (Z.of_nat (length data), data, s') ∧ fat_ok s' ∧
    (∀ r' bytes', fat_stores s r' bytes' → fat_stores s' r' bytes') ∧ ∀ r1 r2, fat_apart s r1 r2 → fat_apart s' r1 r2.
Proof.
  intros (Hid & Hz & Hf) (l & dl & Hfa & <-) Hoff Hk Hov data. unfold fat_read, locked.
  destruct (fat_read_spec n scr fuel r off k l s Hid Hz Hf) as (s' & -> & Hs); [apply Hfa..|done|done|done|].
  exists s'. split; [done|]. split; [|split; intros; [by eapply same_stores|by eapply same_apart]].
  split; [by eapply same_idle|]. split; [by eapply same_sized|]. by rewrite (sm_mnt _ _ _ Hs).
Qed.

(** No cluster is free. *)
Definition fat_full s : Prop := ∀ c, 2 ≤ c < max_cluster (mnt s) → fat_next_cluster (mnt s) c ≠ 0.

Lemma fat_write_laws s r bytes off buf : fat_ok s → fat_stores s r bytes → bytes_ok buf → buf ≠ [] → 0 ≤ off →
  off + Z.of_nat (length buf) < 2 ^ 32 →
  ∃ rc r' s', fat_write fuel scr r off (Some buf) (Z.of_nat (length buf)) s = Ret (rc, r', s') ∧ fat_ok s' ∧
    (∀ r2 bytes2, fat_apart s r r2 → fat_stores s r2 bytes2 → fat_apart s' r' r2 ∧ fat_stores s' r2 bytes2) ∧
    (rc < 0 ∧ fat_full s' ∧ r' = r ∧ fat_stores s' r bytes ∨
     ∃ bytes', rc = Z.min (Z.of_nat (length buf)) MAX_IO ∧ fat_stores s' r' bytes' ∧
       overlaid (Z.to_nat off) (take (Z.to_nat MAX_IO) buf) bytes bytes').
Proof.
  intros (Hid & Hz & Hf) (l & dl & Hfa & <-) Hb Hne Hoff Hov. unfold fat_write, locked.
  destruct (fat_write_spec n scr fuel r off buf l dl s Hid Hz Hf Hfa Hb Hne Hoff Hov) as (rc & r' & s' & -> & Hid' & Hz' & Hf' & Hres).
  pose proof (id_ready _ _ Hid) as Hr. exists rc, r', s'. split; [done|]. split; [done|].
  destruct Hres as [(-> & -> & Href)|(-> & new & Hw)].
  - destruct (re_file _ _ _ _ _ _ Href) as (new & Hfa' & Hnew & Hkc). destruct (re_geometry _ _ _ _ _ _ Href) as [f Hm]. split.
    { intros r2 b2. eapply apart_kept; [done|done|done| |apply Hr|done|done]. intros y Hy _ _. by apply Href. }
    left. split_and!; [done|exact (re_full _ _ _ _ _ _ Href)|done|]. exists (l ++ new), dl. split; [done|]. eapply refused_contents; [done|done|done|done|done|apply Hid'].
  - destruct (wo_geometry _ _ _ _ _ _ _ _ _ _ Hw) as [f Hm]. split.
    { intros r2 b2. eapply apart_kept; [done|apply Hw| |apply Hw|apply Hr|done|apply Hw]. eapply Forall_impl; [apply Hw|]. simpl. tauto. }
    right. destruct (wrote_overlay n s s' r r' l new dl off _ Hr Hz Hfa Hw Hoff) as (gap & Hg & Hc).
    exists (FatData.contents s' (l ++ new) (filesize (r_de r'))). split_and!.
    + rewrite length_take. unfold MAX_IO. lia.
    + exists (l ++ new), dl. split; [apply Hw|done].
    + exists gap. split; [|done]. rewrite Hg. pose proof (le32_range (r_de r) 28 (fa_bytes _ _ _ _ Hfa)) as Hfs.
      fold (filesize (r_de r)) in Hfs. pose proof (length_file_bytes n s l Hr Hz (proj2 (fa_chain _ _ _ _ Hfa))).
      pose proof (fa_size _ _ _ _ Hfa). unfold FatData.contents. rewrite length_take. lia.
Qed.

#[local] Instance fat_laws : FileLaws (fs W D) resolve.
Proof.
  refine {| fs_ok := fat_ok; io_max := MAX_IO; size_max := 2 ^ 32; stores := fat_stores; apart := fat_apart; full := fat_full |}.
  - done.
  - done.
  - intros s r bytes (l & dl & Hfa & <-). pose proof (le32_range (r_de r) 28 (fa_bytes _ _ _ _ Hfa)) as Hfs.
    fold (filesize (r_de r)) in Hfs. unfold FatData.contents. rewrite length_take. lia.
  - intros. by apply fat_read_laws.
  - intros. by apply fat_write_laws.
Defined.
(** ** Listing a directory *)

(** The cookie of an iterator in front of entry [k] of [v]; its lowest bit says
    that the end was seen. *)
Definition at_entry (v : list (list Z * Z)) (cookie : Z) (k : nat) : Prop :=
  (cookie = 256 * Z.of_nat k ∧ (k ≤ length v)%nat) ∨ (k = length v ∧ Z.land cookie 1 ≠ 0).

Definition dir_entries_of s (l : list Z) : list (list Z * Z) := shown <$> visible (entries_of scr s l).

Lemma getdent_at s r l cookie k :
  fat_ok s → good_chain (mnt s) (de_cluster (r_de r)) l → at_entry (dir_entries_of s l) cookie k →
  ∃ rc cookie' s', fat32_getdent_locked fuel scr r cookie s = Ret (rc, cookie', dir_entries_of s l !! k, s') ∧ same n s s' ∧
    (rc <? 0) = bool_decide (dir_entries_of s l !! k = None) ∧
    at_entry (dir_entries_of s l) cookie' (Nat.min (S k) (length (dir_entries_of s l))).
Proof.
  intros (Hid & Hz & Hf) Hch Hat. destruct (enough_chain n _ _ _ _ (rd_vol _ _ (id_ready _ _ Hid)) Hch Hf) as (Hfu & _).
  pose proof (entries_bound n scr s _ l (id_ready _ _ Hid) Hch) as Hb. set (v := dir_entries_of s l) in *.
  assert (length v ≤ length (entries_of scr s l))%nat as Hv by (unfold v, dir_entries_of; rewrite length_fmap; apply length_filter).
  unfold fat32_getdent_locked, locked. destruct Hat as [[-> Hk]|[-> Hodd]].
  - destruct (getdent_spec n scr fuel r l (Z.of_nat k) s Hid Hz Hch Hfu ltac:(lia) ltac:(lia)) as (s' & -> & Hs).
    rewrite Nat2Z.id. unfold v, dir_entries_of in *. rewrite list_lookup_fmap.
    destruct (visible (entries_of scr s l) !! k) as [x|] eqn:Ex; cbn [fmap option_fmap option_map].
    + exists 0, (256 * (Z.of_nat k + 1)), s'. split_and!; try done. pose proof (lookup_lt_Some _ _ _ Ex). unfold at_entry. rewrite length_fmap in *.
      left. lia.
    + eexists LNXRM_EFAIL, _, s'. split_and!; try done. apply lookup_ge_None in Ex. unfold at_entry. rewrite length_fmap in *.
      right. split; [lia|]. intros Hz0. apply (f_equal (λ z, Z.testbit z 0)) in Hz0.
      rewrite Z.land_spec, Z.lor_spec, Z.bits_0 in Hz0. by rewrite orb_true_r in Hz0.
  - unfold fat32_getdent_impl, fat_dir_iter. rewrite (proj2 (Z.eqb_neq _ _) Hodd). cbn [negb].
    rewrite lookup_ge_None_2 by lia. eexists LNXRM_EFAIL, cookie, s. split_and!; try done. right. split; [lia|done].
Qed.
Context {S : Type} `{FrameLaws S}.
Implicit Types (w : sys S (fs W D) resolve).

Definition record_bytes (x : list Z * Z) : list Z := dirent_bytes x.1 x.2.

Lemma same_entries_of s s' l : same n s s' → dir_entries_of s' l = dir_entries_of s l.
Proof. intros Hs. unfold dir_entries_of. by rewrite (same_entries n scr s s'). Qed.

Lemma getdent_loop_spec room r l cookie k acc w :
  fat_ok (fsys w) → good_chain (mnt (fsys w)) (de_cluster (r_de r)) l → at_entry (dir_entries_of (fsys w) l) cookie k →
  let v := dir_entries_of (fsys w) l in
  ∃ cookie' s', getdent_loop room (Some r) (Some fat32_ops) cookie acc w =
      Ret (acc ++ concat (record_bytes <$> take room (drop k v)), cookie', set_fsys s' w) ∧ same n (fsys w) s' ∧
    at_entry v cookie' (Nat.min (k + room) (length v)).
Proof.
  revert k cookie acc w. induction room as [|room IH]; intros k cookie acc w Hok Hch Hat v; cbn [getdent_loop].
  { exists cookie, (fsys w). rewrite take_0, app_nil_r, Nat.add_0_r. split_and!; [by destruct w|done|].
    fold v in Hat. destruct Hat as [[-> Hk]|[-> Hk]]; [left|right]; (split; [lia|lia || done]). }
  destruct (getdent_at (fsys w) r l cookie k Hok Hch Hat) as (rc & cookie1 & s1 & E & Hs1 & Hrc & Hat1). fold v in E, Hrc, Hat1.
  unfold via. cbn [fs_getdent fat_sys fat32_ops_table]. rewrite E. cbn [mbind outcome_bind]. rewrite Hrc.
  destruct (v !! k) as [[nm ty]|] eqn:Ek.
  - rewrite bool_decide_false by done. pose proof (lookup_lt_Some _ _ _ Ek). rewrite Nat.min_l in Hat1 by lia.
    assert (fat_ok (fsys (set_fsys s1 w))) as Hok1.
    { destruct Hok as (Hid & Hz & Hf). split; [by eapply same_idle|]. split; [by eapply same_sized|]. cbn. by rewrite (sm_mnt _ _ _ Hs1). }
    assert (dir_entries_of s1 l = v) as Hv by by apply same_entries_of.
    destruct (IH (Datatypes.S k) cookie1 (acc ++ dirent_bytes nm ty) (set_fsys s1 w) Hok1) as (cookie2 & s2 & E2 & Hs2 & Hat2);
      cbn [fsys set_fsys] in *; [by rewrite (sm_mnt _ _ _ Hs1)|by rewrite Hv|]. rewrite Hv in *.
    exists cookie2, s2. split_and!; [|by etrans|by rewrite <- Nat.add_succ_comm].
    rewrite E2, (drop_S _ _ _ Ek), <- app_assoc. done.
  - rewrite bool_decide_true by done. apply lookup_ge_None in Ek. exists cookie1, s1.
    rewrite drop_ge, take_nil, app_nil_r by done. split_and!; [done|done|].
    replace (Nat.min (k + Datatypes.S room) (length v)) with (Nat.min (Datatypes.S k) (length v)) by lia. done.
Qed.

(** C32. Listing a directory through its descriptor: in front of entry [k], a call
    with room for [j] records of 72 bytes delivers the next [j] visible entries
    in order, or the ones that are left, and stands behind them then; at the
    end it delivers nothing.  The volume and the other files are untouched. *)
Theorem dir_getdent_lists p f r l cookie k len w :
  fat_ok (fsys w) → good_chain (mnt (fsys w)) (de_cluster (r_de r)) l → at_entry (dir_entries_of (fsys w) l) cookie k →
  files (kn w) !! p = Some f → f_data f = Some (IterOf (Some r) (Some fat32_ops) cookie) → 0 ≤ len →
  let v := dir_entries_of (fsys w) l in
  let j := (Z.to_nat len / DIRENT_REC)%nat in
  ∃ w' f' cookie', dir_getdent p f len w = Ret (concat (record_bytes <$> take j (drop k v)), w') ∧
    same n (fsys w) (fsys w') ∧ files (kn w') !! p = Some f' ∧ f_data f' = Some (IterOf (Some r) (Some fat32_ops) cookie') ∧
    at_entry v cookie' (Nat.min (k + j) (length v)) ∧ only_file p w w'.
Proof.
  intros Hok Hch Hat Hf Hd Hlen v j. unfold dir_getdent. rewrite Hd. fold j.
  destruct (getdent_loop_spec j r l cookie k [] w Hok Hch Hat) as (cookie' & s' & -> & Hs & Hat').
  cbn [mbind outcome_bind]. eexists _, _, cookie'. split; [by rewrite app_nil_l|]. split; [done|].
  split; [apply upd_file_lookup; exact Hf|]. split_and!; [done|done|apply only_upd].
Qed.

(** ** Opening *)

(** The root file system, as [vfs_try_mount_disk] mounts it. *)
Definition root_mount (priv : Z) : mounted_fs := Mounted fat32_ops priv [SLASH] true.

(** The node of the file [name] of the root directory, whose record is [e]. *)
Definition root_node s (name : list Z) (e : dirent) : resolve := Resolve (root_cluster (mnt s)) name e true.

Lemma lookup_existing w priv name l e flags :
  fat_ok (fsys w) → mounts w = [root_mount priv] → file_name name → has_flag flags O_TRUNC = false →
  good_chain (mnt (fsys w)) (root_cluster (mnt (fsys w))) l → first_match name (entries_of scr (fsys w) l) = Some e → is_dir e = false →
  ∃ s', vfs_lookup (SLASH :: name) flags w =
      Ret (0, VfsNode V_REG (filesize e) (Some (root_node (fsys w) name e)) (Some fat32_ops), set_fsys s' w) ∧
    same n (fsys w) s'.
Proof.
  intros (Hid & Hz & Hf) Hm Hn Hfl Hch Hfm Hdir. pose proof Hn as [_ Hsl Hln].
  destruct (enough_chain n _ _ _ _ (rd_vol _ _ (id_ready _ _ Hid)) Hch Hf) as (Hfu & _).
  destruct (lookup_root_spec n scr fuel name l (fsys w) Hid Hz Hch Hfu Hn) as (s' & E & Hs). rewrite Hfm, Hdir in E.
  assert (fat_lookup fuel scr name (fsys w) = Ret (0, Some (V_REG, filesize e, root_node (fsys w) name e), s')) as El
    by (unfold fat_lookup, locked, mbind, M_bind; by rewrite E).
  exists s'. split; [|done]. unfold vfs_lookup.
  rewrite bool_decide_false by (destruct name; [simpl in Hln; lia|done]). rewrite Hm.
  assert (fs_for_path [root_mount priv] (SLASH :: name) = Some (fat32_ops, name)) as ->.
  { unfold root_mount. by rewrite root_takes_all, skip_slashes_none. }
  unfold do_lookup, via. cbn [fs_lookup fat_sys fat32_ops_table]. rewrite El.
  cbn [mbind outcome_bind fst snd]. by rewrite Hfl.
Qed.
Lemma file_alloc_files {N} ops (data : option N) flags (k : kern S N) p k' :
  file_alloc ops data flags k = Ret (p, k') →
  ∃ f, files k' = <[p := f]> (files k) ∧ f_ops f = ops ∧ f_pos f = 0 ∧ f_data f = data.
Proof.
  unfold file_alloc. destruct (kmalloc FILE_SIZE (hp k)) as [[q h]| |]; cbn [mbind outcome_bind]; [|done..].
  destruct ops; [|destruct (kmalloc VNODE_SIZE h) as [[? ?]| |]|destruct (kmalloc ITER_SIZE h) as [[? ?]| |]];
    cbn [mbind outcome_bind]; try done; intros [= <- <-]; by eexists.
Qed.

Lemma fd_install_files {N} t p (k : kern S N) r k' : fd_install t p k = Ret (r, k') → 0 ≤ r → files k' = files k.
Proof.
  unfold fd_install. destruct (for_find _ _ _) as [i|]; [by intros [= <- <-]|].
  destruct (vfs_close_file p k); cbn [mbind outcome_bind]; [|done..]. by intros [= <- <-].
Qed.

End laws.

Module VfsDemo.
#[global] Instance sys0 : FileSys (fs ramdisk unit) resolve := fat_sys 64 MetaDemo.scr true true.
#[global] Instance laws0 : FileLaws (fs ramdisk unit) resolve := fat_laws 64 64 MetaDemo.scr true true.

(** The demonstration volume is the root file system and no file is open. *)
Definition kern0 : kern pmm_state (fdata resolve) := Kern SchedDemo.busy KheapDemo.h0 (λ _, ProcDemo.p0) ∅ 0.
Definition w0 : sys pmm_state (fs ramdisk unit) resolve :=
  Sys kern0 [root_mount 1] true FatDemo.s0 ConsoleDemo.k0 InputDemo.k0 [].
Definition hi_txt : list Z := [104; 105; 46; 116; 120; 116].
Definition record : dirent := record_at FatDemo.root 0.

Lemma s0_ok : fat_ok 64 64 FatDemo.s0.
Proof. split; [exact ReadyDemo.s0_idle|]. split; [exact MetaDemo.s0_sized|exact WriteDemo.s0_enough]. Qed.

Lemma kern0_ok : fd_ok [] [] kern0.
Proof. apply fd_start; [done|done|exact ProcDemo.k0_heap]. Qed.

(** The file is open, in the middle of its second cluster. *)
Definition file0 : file (fdata resolve) :=
  File reg_fops 698 32 (Some (NodeOf (VfsNode V_REG 700 (Some WriteDemo.node) (Some fat32_ops)))) false 0 1.
Definition w1 : sys pmm_state (fs ramdisk unit) resolve :=
  Sys (set_files {[ 16 := file0 ]} kern0) [root_mount 1] true FatDemo.s0 ConsoleDemo.k0 InputDemo.k0 [].
Definition a1 : afile := AFile (FatData.contents FatDemo.s0 [3; 4] 700) 698 700.

Lemma w1_represents : represents w1 16 a1.
Proof.
  split; [exact s0_ok|by_eval|]. eexists file0, _, WriteDemo.node. split_and!; try reflexivity.
  exists [3; 4], [2]. split; [exact WriteDemo.node_file|reflexivity].
Qed.
End VfsDemo.

(** Three bytes are written at the position, then the file is read from
    there. *)
Lemma file_refines_witness :
  ∃ res s' a', file_calls [FWrite [1; 2; 3]; FLseek 698 0; FRead 10] 16 VfsDemo.w1 = Ret (res, s') ∧
    atrace io_max VfsDemo.a1 [FWrite [1; 2; 3]; FLseek 698 0; FRead 10] res a' ∧ represents s' 16 a'.
Proof.
  destruct (file_refines [FWrite [1; 2; 3]; FLseek 698 0; FRead 10] 16 VfsDemo.a1 VfsDemo.w1 VfsDemo.w1_represents)
    as (res & s' & a' & E & Ht & Hr & _).
  - split; [split; [discriminate|by_eval]|]. intros r out a2 _. split.
    { split; [lia|]. split; [discriminate|]. exists 0. split; [reflexivity|lia]. }
    intros r2 out2 a3 Hs. split; [|done]. inversion Hs as [| | |? ? base Hb]; subst. injection Hb as <-. split; [lia|by_eval].
  - exists res, s', a'. exact (conj E (conj Ht Hr)).
Defined.


(** The root directory is open and a buffer for two records is passed. *)
Lemma dir_getdent_lists_witness :
  ∃ w', dir_getdent 48 (File dir_fops 0 80 (Some (IterOf (Some MetaDemo.root_node) (Some fat32_ops) 0)) true 0 1) 150
      (set_kn (set_files {[ 48 := File dir_fops 0 80 (Some (IterOf (Some MetaDemo.root_node) (Some fat32_ops) 0)) true 0 1 ]} VfsDemo.kern0)
        VfsDemo.w0) = Ret (record_bytes (VfsDemo.hi_txt, 8), w') ∧ same 64 FatDemo.s0 (fsys w').
Proof.
  set (f := File dir_fops 0 80 (Some (IterOf (Some MetaDemo.root_node) (Some fat32_ops) 0)) true 0 1).
  assert (dir_entries_of MetaDemo.scr FatDemo.s0 [2] = [(VfsDemo.hi_txt, 8)]) as Hv by (vm_compute; reflexivity).
  destruct (dir_getdent_lists 64 64 MetaDemo.scr true true 48 f MetaDemo.root_node [2] 0 0 150
    (set_kn (set_files {[ 48 := f ]} VfsDemo.kern0) VfsDemo.w0) VfsDemo.s0_ok MetaDemo.root_good) as (w' & f' & c & E & Hs & _).
  - left. split; [reflexivity|lia].
  - reflexivity.
  - reflexivity.
  - lia.
  - exists w'. split; [|exact Hs]. cbn [fsys set_kn VfsDemo.w0] in E. rewrite Hv in E. exact E.
Defined.
