(* ===== verification/Exec.v ===== *)
(** Starting programs: [sys_execve] and [kernel_spawn] of [kernel/task.c], with
    [vfs_file_size] and [vfs_read_file] of [kernel/fs/vfs.c].

    The image of the program is the list of bytes that were read; the heap
    block it is read to is the address [blk].  The kernel writes the arguments
    through the page tables of the new process, so a byte without a page is a
    fault ([kstore]).  Log messages are left out, as are the words below the
    frame of the first process. *)
From S2P Require Import Prelude Bytes Cstring Pmm PmmFacts PmmInit Frames Kheap Vmm UserMem Aspace Elf Sched Proc Signal Brk Task.
From S2P Require Import BlkDev BlkCache Journal FatName FatTable FatDir Input Ansi Fb Console Vfs.

(** ** The arguments, from the caller's memory *)
Section args.
Context {S : Type} `{Frames S}.
Implicit Types (s : S).

Definition ARG_MAX : nat := 16.
Definition ARG_LEN : nat := 64.
Definition PATH_LEN : nat := 128.

Definition user_arg (root uargv : Z) (i : nat) s : option (list Z) :=
  l ← copy_from_user root (u64 (uargv + 8 * Z.of_nat i)) 8 s;
  let a := le64 l 0 in
  if a =? 0 then None else copy_user_str root a ARG_LEN s.

(** [n] more arguments are accepted; the first one that is missing or cannot
    be read ends the list. *)
Fixpoint user_args (n : nat) (root uargv : Z) (i : nat) s : list (list Z) :=
  match n with
  | O => []
  | Datatypes.S n =>
      match user_arg root uargv i s with
      | Some l => l :: user_args n root uargv (Datatypes.S i) s
      | None => []
      end
  end.

Definition exec_argv (root uargv : Z) s : list (list Z) :=
  if negb (uargv =? 0) && UCP root uargv s then user_args ARG_MAX root uargv 0 s else [].

(** ** The stack of the new program *)

Definition USTACK_SIZE : Z := 0x4000.

(** The loop that maps the stack; [false] when there is no frame. *)
Definition map_stack (root : Z) s : outcome (bool * S) :=
  brk_grow (Z.to_nat (USTACK_SIZE / PAGE_SIZE)) root (USER_STACK_TOP - USTACK_SIZE) s.

Definition kword (root va v : Z) s : outcome S := kstore root va (le_bytes 8 v) s.

(** The strings, the last one first: the address of the first one, and the
    addresses of all. *)
Fixpoint push_strings (root : Z) (argv : list (list Z)) (sp : Z) s : outcome (Z * list Z * S) :=
  match argv with
  | [] => Ret (sp, [], s)
  | a :: argv =>
      '(sp, ptrs, s) ← push_strings root argv sp s;
      let sp := sp - (Z.of_nat (length a) + 1) in
      s ← kstore root sp (a ++ [0]) s;
      Ret (sp, sp :: ptrs, s)
  end.

Fixpoint store_words (root va : Z) (ws : list Z) s : outcome S :=
  match ws with
  | [] => Ret s
  | w :: ws => s ← kword root va w s; store_words root (va + 8) ws s
  end.

(** The stack pointer of the program. *)
Definition push_args (root : Z) (argv : list (list Z)) s : outcome (Z * S) :=
  let sp := USER_STACK_TOP - 64 in
  s ← kword root sp 0 s;
  '(sp, argv_ptrs, s) ← push_strings root argv sp s;
  let sp := Z.land sp (Z.lnot 15) in
  let sp := sp - 24 in
  s ← kword root sp 0 s;
  s ← kword root (sp + 8) 0 s;
  let argc := Z.of_nat (length argv) in
  let sp := sp - (argc + 2) * 8 in
  s ← kword root sp argc s;
  s ← store_words root (sp + 8) argv_ptrs s;
  s ← kword root (sp + 8 * (1 + argc)) 0 s;
  Ret (sp, s).
End args.

(** The frame with which a program starts in user mode. *)
Definition user_frame (entry sp : Z) (f : intr_frame) : intr_frame :=
  IntrFrame (r15 f) (r14 f) (r13 f) (r12 f) (r11 f) (r10 f) (r9 f) (r8 f) (rbp f) (rdi f) (rsi f) (rdx f) (rcx f) (rax f)
    (rbx f) (intno f) (err f) entry (Z.lor 0x18 3) 0x202 sp (Z.lor 0x20 3).
Definition zero_frame : intr_frame := IntrFrame 0 0 0 0 0 0 0 0 0 0 0 0 0 0 0 0 0 0 0 0 0 0.

Definition TASK_NAME_LEN : nat := 16.

(** Every handler is the default again; flags and masks of the actions stay. *)
Definition reset_handlers (g : nat → sigaction) : nat → sigaction := λ i,
  if (1 <=? i)%nat && (i <? Z.to_nat NSIG)%nat then Sigaction SIG_DFL (sa_mask (g i)) (sa_flags (g i)) else g i.

(** ** Replacing the program of a process *)
Section exec.
Context {S N : Type} `{Frames S}.
Implicit Types (k : kern S N).

Definition free_block (blk : Z) k : outcome (kern S N) := h ← kfree blk (hp k); Ret (set_hp h k).
Definition destroy_root (root : Z) k : outcome (kern S N) := m ← vmm_destroy_user_aspace root (mem k); Ret (set_mem m k).

Definition close_one (c : nat) (i : nat) k : outcome (kern S N) :=
  match fds (procs k c) i with
  | None => Ret k
  | Some p =>
      match files k !! p with
      | None => Stuck
      | Some f => if has_flag (f_flags f) O_CLOEXEC then '(_, k) ← sys_close c (Z.of_nat i) k; Ret k else Ret k
      end
  end.

Definition close_on_exec (c : nat) k : outcome (kern S N) := for_loop_o (close_one c) 0 NR_FDS k.

(** The point of no return: the old address space goes, and what belonged to
    the old program is reset. *)
Definition exec_commit (c : nat) (root brk_end : Z) (path : list Z) k : outcome (kern S N) :=
  let old := root_of c k in
  let k := upd_tk c (set_pml4 root) k in
  k ← destroy_root old k;
  let b := ALIGN_UP brk_end PAGE_SIZE in
  let k := upd_proc c (λ p, set_brk_cur b (set_brk_base b p)) k in
  k ← close_on_exec c k;
  Ret (upd_tk c (λ t, set_pending 0 (set_sa (reset_handlers (sa t)) (set_name (take (TASK_NAME_LEN - 1) path) t))) k).

(** The trampoline, the arguments, and the frame with which the system call
    returns to the new program. *)
Definition exec_enter (code : list Z) (c : nat) (root entry : Z) (argv : list (list Z)) k : outcome (Z * kern S N) :=
  m ← signal_init_trampoline code root (mem k);
  '(sp, m) ← push_args root argv m;
  let k := set_mem m k in
  match tf (procs k c) with
  | None => Stuck
  | Some f => Ret (0, upd_proc c (set_tf (Some (user_frame entry sp f))) k)
  end.

(** From the image in [blk] to the return to user mode. *)
Definition exec_image (master : Z) (code : list Z) (c : nat) (path : list Z) (argv : list (list Z)) (blk : Z) (img : list Z) k
  : outcome (Z * kern S N) :=
  '(root, m) ← vmm_new_user_aspace master (mem k);
  let k := set_mem m k in
  if root =? 0 then k ← free_block blk k; Ret (LNXRM_ENOMEM, k) else
  '(ok, m) ← map_stack root (mem k);
  let k := set_mem m k in
  if negb ok then k ← free_block blk k; k ← destroy_root root k; Ret (LNXRM_ENOMEM, k) else
  '(entry, brk_end, m) ← elf_load root img 0 (mem k);
  let k := set_mem m k in
  k ← free_block blk k;
  if entry =? 0 then k ← destroy_root root k; Ret (LNXRM_ENOEXEC, k) else
  k ← exec_commit c root brk_end path k;
  exec_enter code c root entry argv k.
End exec.

(** ** Reading the program, and the system calls *)

(** The file cannot be opened, it cannot be read, or its bytes are in a block. *)
Inductive image := OpenFails (e : Z) | ReadFails (e : Z) | Image (blk : Z) (img : list Z).

Section calls.
Context {S F Nd : Type} `{Frames S} `{FileSys F Nd}.
Abbreviation st := (sys S F Nd).
Implicit Types (s : st).

(** [priv] is a null pointer for the console. *)
Definition vfs_file_size (f : file (fdata Nd)) : outcome Z :=
  if f_is_dir f then Ret 0 else
  match f_data f with Some (NodeOf vn) => Ret (vn_size vn) | _ => Stuck end.

(** The console is not read in this way: it has no size. *)
Definition vfs_read_file (p : Z) (f : file (fdata Nd)) (n : Z) s : outcome (Z * list Z * st) :=
  match f_ops f with
  | reg_fops => reg_read p f n s
  | dir_fops => Ret (LNXRM_EFAIL, [], s)
  | console_fops => Stuck
  end.

(** The part that [sys_execve] and [kernel_spawn] share. *)
Definition read_image (path : list Z) s : outcome (image * st) :=
  '(e, fp, s) ← vfs_open_file path 0 s;
  match fp with
  | None => Ret (OpenFails e, s)
  | Some p =>
      match files (kn s) !! p with
      | None => Stuck
      | Some f =>
          sz ← vfs_file_size f;
          '(blk, h) ← kmalloc (ALIGN_UP (sz + 1) PAGE_SIZE) (hp (kn s));
          let s := set_kn (set_hp h (kn s)) s in
          if blk =? 0 then k ← vfs_close_file p (kn s); Ret (ReadFails LNXRM_ENOMEM, set_kn k s) else
          '(r, img, s) ← vfs_read_file p f sz s;
          if negb (r =? i64 sz) then
            k ← free_block blk (kn s);
            k ← vfs_close_file p k;
            Ret (ReadFails LNXRM_EIO, set_kn k s)
          else k ← vfs_close_file p (kn s); Ret (Image blk img, set_kn k s)
      end
  end.

Definition sys_execve (master : Z) (code : list Z) (c : nat) (upath uargv : Z) s : outcome (Z * st) :=
  let root := root_of c (kn s) in
  match copy_user_str root upath PATH_LEN (mem (kn s)) with
  | None => Ret (LNXRM_EFAULT, s)
  | Some path =>
      let argv := exec_argv root uargv (mem (kn s)) in
      '(r, s) ← read_image path s;
      match r with
      | OpenFails e | ReadFails e => Ret (e, s)
      | Image blk img => '(r, k) ← exec_image master code c path argv blk img (kn s); Ret (r, set_kn k s)
      end
  end.

(** ** The first process *)

Definition spawn_args (root : Z) (path : list Z) (m : S) : outcome (Z * S) :=
  let sp := USER_STACK_TOP - 256 in
  m ← kstore root sp (path ++ [0]) m;
  let ap := sp - 32 in
  m ← store_words root ap [1; sp; 0; 0] m;
  Ret (ap, m).

(** From the image in [blk] to the return to the boot code; [drop_task] is the
    clean-up of the error paths. *)
Definition spawn_image (me t : nat) (path : list Z) (blk : Z) (img : list Z) (k : kern S (fdata Nd))
  : outcome (Z * kern S (fdata Nd)) :=
  let root := root_of t k in
  '(ok, m) ← map_stack root (mem k);
  let k := set_mem m k in
  if negb ok then k ← free_block blk k; k ← drop_task t k; Ret (LNXRM_ENOMEM, k) else
  '(entry, brk_end, m) ← elf_load root img (brk_base (procs k t)) (mem k);
  let k := upd_proc t (set_brk_base brk_end) (set_mem m k) in
  k ← free_block blk k;
  if entry =? 0 then k ← drop_task t k; Ret (LNXRM_ENOEXEC, k) else
  '(ap, m) ← spawn_args root path (mem k);
  let b := ALIGN_UP brk_end PAGE_SIZE in
  let k := upd_proc t (λ p, set_brk_cur b (set_brk_base b p)) (set_mem m k) in
  let k := start_task me t (user_frame entry ap zero_frame) k in
  Ret (i32 (pid (tasks (sch k) t)), k).

Definition kernel_spawn (master : Z) (code : list Z) (me : nat) (path : list Z) s : outcome (Z * st) :=
  match task_alloc_slot (sch (kn s)) with
  | (None, _) => Ret (LNXRM_EFAIL, s)
  | (Some t, sc) =>
      let k := set_sch sc (kn s) in
      '(stk, h) ← kmalloc KSTACK_SIZE (hp k);
      let k := set_hp h k in
      if stk =? 0 then sc ← task_free_slot t (sch k); Ret (LNXRM_EFAIL, set_kn (set_sch sc k) s) else
      let k := upd_proc t (set_kstack stk) k in
      let '(p, k) := next_pid k in
      let k := upd_tk t (λ x, set_state T_EMBRYO (set_name (take (TASK_NAME_LEN - 1) path) (set_pid p x))) k in
      '(root, m) ← vmm_new_user_aspace master (mem k);
      let k := upd_tk t (set_pml4 root) (set_mem m k) in
      if root =? 0 then k ← free_block stk k; sc ← task_free_slot t (sch k); Ret (LNXRM_ENOMEM, set_kn (set_sch sc k) s) else
      m ← signal_init_trampoline code root (mem k);
      '(r, s) ← read_image path (set_kn (set_mem m k) s);
      match r with
      | OpenFails _ => k ← drop_task t (kn s); Ret (LNXRM_ENOENT, set_kn k s)
      | ReadFails e => k ← drop_task t (kn s); Ret (e, set_kn k s)
      | Image blk img => '(r, k) ← spawn_image me t path blk img (kn s); Ret (r, set_kn k s)
      end
  end.
End calls.
