(* ===== verification/ExecFacts.v ===== *)
(** Theorems on starting programs. *)
From S2P Require Import Prelude Bytes Cstring Pmm PmmFacts PmmInit Frames Kheap KheapFacts Vmm VmmFacts VmmLife VmmDup UserMem Aspace Budget Elf.
From S2P Require Import Sched SchedFacts SchedRun Proc ProcFacts Signal Tramp Brk Clients Task TaskFacts.
From S2P Require Import BlkDev BlkCache Journal FatName FatTable FatDir Input Ansi Fb Console Vfs Exec.

(** [bs] is what the memory [m] has at [a]. *)
Definition reads (m : Z → option Z) (a : Z) (bs : list Z) : Prop :=
  ∀ i b, bs !! i = Some b → m (a + Z.of_nat i) = Some b.

Lemma reads_app m a bs cs : reads m a (bs ++ cs) ↔ reads m a bs ∧ reads m (a + Z.of_nat (length bs)) cs.
Proof.
  split.
  - intros Hr. split; intros i b Hi; [apply Hr; by apply lookup_app_l_Some|].
    rewrite <- Z.add_assoc, <- Nat2Z.inj_add. apply Hr. rewrite lookup_app_r by lia. by replace (length bs + i - length bs)%nat with i by lia.
  - intros [H1 H2] i b [Hi|[Hl Hi]]%lookup_app_Some; [by apply H1|].
    replace (a + Z.of_nat i) with (a + Z.of_nat (length bs) + Z.of_nat (i - length bs)) by lia. by apply H2.
Qed.

Lemma reads_app_2 m a bs cs : reads m a bs → reads m (a + Z.of_nat (length bs)) cs → reads m a (bs ++ cs).
Proof. intros. by apply reads_app. Qed.

Lemma reads_at m a b bs : reads m a bs → a = b → reads m b bs.
Proof. by intros ? <-. Qed.

Lemma words_cons w ws : words_bytes (w :: ws) = le_bytes 8 w ++ words_bytes ws.
Proof. done. Qed.
Lemma words_app ws ws' : words_bytes (ws ++ ws') = words_bytes ws ++ words_bytes ws'.
Proof. unfold words_bytes. apply bind_app. Qed.
Lemma le_bytes_length n w : length (le_bytes n w) = n.
Proof. unfold le_bytes. by rewrite length_fmap, length_seq. Qed.
Lemma words_length ws : length (words_bytes ws) = (8 * length ws)%nat.
Proof. induction ws as [|w ws IH]; [done|]. rewrite words_cons, length_app, IH, le_bytes_length. cbn [length]. lia. Qed.

(** ** The arguments on the stack *)
Section stack.
Context {S : Type} `{FrameLaws S}.
Implicit Types (s : S) (A : list (Z * nat)).

Definition on_stack (lo hi : Z) : Prop := USER_STACK_TOP - USTACK_SIZE ≤ lo ∧ lo ≤ hi ∧ hi ≤ USER_STACK_TOP.

(** The bytes from [lo] to [hi] are written and the whole stack stays mapped. *)
Record patched (root : Z) A (lo hi : Z) s s' : Prop := {
  pt_kept : kept root A s s';
  pt_view a : ¬ (lo ≤ a < hi) → view root s' a = view root s a;
  pt_mapped a : mapped root a s → mapped root a s';
}.

Definition stack_mapped (root : Z) s : Prop := ∀ a, USER_STACK_TOP - USTACK_SIZE ≤ a < USER_STACK_TOP → mapped root a s.

Lemma patched_refl root A a s : owned s (user_frames s root ++ A) → patched root A a a s s.
Proof. intros Ho. constructor; [by apply kept_refl|done|done]. Qed.

Lemma patched_wide root A lo hi l h s s' : patched root A lo hi s s' → l ≤ lo → hi ≤ h → patched root A l h s s'.
Proof. intros [Hk Hv Hm] ? ?. constructor; [done| |done]. intros a Ha. apply Hv. lia. Qed.

Lemma patched_trans root A lo hi s1 s2 s3 : patched root A lo hi s1 s2 → patched root A lo hi s2 s3 → patched root A lo hi s1 s3.
Proof.
  intros [Hk1 Hv1 Hm1] [Hk2 Hv2 Hm2]. constructor; [by eapply kept_trans| |by auto]. intros a Ha. by rewrite Hv2, Hv1.
Qed.

(** A later patch inside the range. *)
Lemma patched_then root A lo hi l h s1 s2 s3 : patched root A l h s2 s3 → lo ≤ l → h ≤ hi → patched root A lo hi s1 s2 → patched root A lo hi s1 s3.
Proof. intros Hp ? ? Hp1. eapply patched_trans; [exact Hp1|]. by eapply patched_wide. Qed.

Lemma patched_reads root A lo hi s s' a bs : patched root A lo hi s s' → reads (view root s) a bs →
  a + Z.of_nat (length bs) ≤ lo ∨ hi ≤ a → reads (view root s') a bs.
Proof.
  intros Hp Hr Ha i b Hi. rewrite (pt_view _ _ _ _ _ _ Hp); [by apply Hr|]. apply lookup_lt_Some in Hi. lia.
Qed.

Ltac keeps H := eapply patched_reads; [exact H| |rewrite ?words_length, ?le_bytes_length; lia].

Lemma patched_stack root A lo hi s s' : patched root A lo hi s s' → stack_mapped root s → stack_mapped root s'.
Proof. intros Hp Hs a Ha. by eapply pt_mapped, Hs. Qed.

Lemma stack_store root va bs s A : owned s (user_frames s root ++ A) → stack_mapped root s → Forall (λ b, 0 ≤ b < 256) bs →
  on_stack va (va + Z.of_nat (length bs)) →
  ∃ s', kstore root va bs s = Ret s' ∧ patched root A va (va + Z.of_nat (length bs)) s s' ∧ reads (view root s') va bs.
Proof.
  intros Ho Hst Hb (H1 & _ & H2). destruct (kstore_spec root va bs s A Ho Hb) as (s' & E & Hk & Hv); [intros a Ha; apply Hst; lia|].
  exists s'. split_and!; [done| |].
  - constructor; [done| |]; intros a Ha; [by rewrite Hv; unfold overlay; rewrite decide_False|].
    apply view_mapped. rewrite Hv. unfold overlay. destruct (decide _); [|by apply view_mapped].
    destruct (lookup_lt_is_Some_2 bs (Z.to_nat (a - va)) ltac:(lia)) as [b ->]. done.
  - intros i b Hi. pose proof (lookup_lt_Some _ _ _ Hi). rewrite Hv. unfold overlay. rewrite decide_True by lia.
    by replace (Z.to_nat (va + Z.of_nat i - va)) with i by lia.
Qed.

Lemma stack_word root va v s A : owned s (user_frames s root ++ A) → stack_mapped root s → on_stack va (va + 8) →
  ∃ s', kword root va v s = Ret s' ∧ patched root A va (va + 8) s s' ∧ reads (view root s') va (le_bytes 8 v).
Proof. intros Ho Hst Hr. apply (stack_store root va (le_bytes 8 v) s A Ho Hst); [apply le_bytes_range|done]. Qed.

Lemma store_words_spec root A ws : ∀ va s, owned s (user_frames s root ++ A) → stack_mapped root s →
  on_stack va (va + 8 * Z.of_nat (length ws)) →
  ∃ s', store_words root va ws s = Ret s' ∧ patched root A va (va + 8 * Z.of_nat (length ws)) s s' ∧
    reads (view root s') va (words_bytes ws).
Proof.
  induction ws as [|w ws IH]; intros va s Ho Hst (H1 & _ & H2); cbn [store_words length] in *.
  { exists s. split_and!; [done| |by intros i b Hi]. replace (va + 8 * Z.of_nat 0) with va by lia. by apply patched_refl. }
  destruct (stack_word root va w s A Ho Hst) as (s1 & -> & Hp1 & Hr1); [unfold on_stack; lia|]. cbn [mbind outcome_bind].
  destruct (IH (va + 8) s1) as (s2 & -> & Hp2 & Hr2); [apply Hp1|by eapply patched_stack|unfold on_stack; lia|].
  exists s2. split_and!; [done|eapply patched_then; [exact Hp2|lia|lia|]; eapply patched_wide; [exact Hp1|lia|lia]|].
  change (words_bytes (w :: ws)) with (le_bytes 8 w ++ words_bytes ws). apply reads_app. split; [|exact Hr2].
  eapply patched_reads; [exact Hp2|done|]. left. change (length (le_bytes 8 w)) with 8%nat. lia.
Qed.

(** The room that the strings take. *)
Definition strings_size (argv : list (list Z)) : Z := foldr (λ a n, Z.of_nat (length a) + 1 + n) 0 argv.

Definition string_at (m : Z → option Z) (lo hi : Z) (a : list Z) (p : Z) : Prop :=
  reads m p (a ++ [0]) ∧ lo ≤ p ∧ p + Z.of_nat (length a) + 1 ≤ hi.

Lemma push_strings_spec root A argv : ∀ sp s, owned s (user_frames s root ++ A) → stack_mapped root s →
  Forall (Forall (λ b, 0 ≤ b < 256)) argv → on_stack (sp - strings_size argv) sp →
  ∃ ptrs s', push_strings root argv sp s = Ret (sp - strings_size argv, ptrs, s') ∧
    patched root A (sp - strings_size argv) sp s s' ∧ Forall2 (string_at (view root s') (sp - strings_size argv) sp) argv ptrs.
Proof.
  induction argv as [|a argv IH]; intros sp s Ho Hst Hb (H1 & H2 & H3); cbn [push_strings strings_size foldr] in *.
  { exists [], s. rewrite Z.sub_0_r. split_and!; [done|by apply patched_refl|done]. }
  fold (strings_size argv) in *. apply Forall_cons in Hb as [Ha Hb].
  assert (0 ≤ strings_size argv) as H0' by (clear; unfold strings_size; induction argv; cbn [foldr]; lia).
  destruct (IH sp s Ho Hst Hb) as (ptrs & s1 & -> & Hp1 & Hr1); [unfold on_stack; lia|]. cbn [mbind outcome_bind].
  set (q := sp - strings_size argv) in *. replace (sp - (Z.of_nat (length a) + 1 + strings_size argv)) with (q - (Z.of_nat (length a) + 1)) in * by lia.
  assert (Z.of_nat (length (a ++ [0])) = Z.of_nat (length a) + 1) as Hl by (rewrite length_app; cbn [length]; lia).
  destruct (stack_store root (q - (Z.of_nat (length a) + 1)) (a ++ [0]) s1 A) as (s2 & -> & Hp2 & Hr2).
  { apply Hp1. } { by eapply patched_stack. } { apply Forall_app. split; [done|]. repeat constructor; lia. } { rewrite Hl. unfold on_stack. lia. }
  cbn [mbind outcome_bind]. rewrite Hl in Hp2. eexists _, s2. split; [done|].
  split; [eapply patched_then; [exact Hp2|lia|lia|]; eapply patched_wide; [exact Hp1|lia|lia]|]. constructor; [split_and!; [done|lia|lia]|].
  eapply Forall2_impl; [exact Hr1|]. intros x p (Hr & Hlo & Hhi). split_and!; [|lia|lia].
  eapply patched_reads; [exact Hp2|done|]. right. lia.
Qed.

(** What a program finds at its stack pointer: the number of its arguments,
    their addresses, a null pointer, and an empty environment; the strings lie
    above.  The stack pointer is a multiple of 16 when the number of arguments
    is odd. *)
Record program_stack (m : Z → option Z) (argv : list (list Z)) (sp : Z) : Prop := {
  ps_words : ∃ ptrs, reads m sp (words_bytes (Z.of_nat (length argv) :: ptrs ++ [0; 0; 0])) ∧
    Forall2 (string_at m (sp + 8 * (Z.of_nat (length argv) + 4)) USER_STACK_TOP) argv ptrs;
  ps_range : USER_STACK_TOP - USTACK_SIZE ≤ sp;
  ps_align : sp mod 16 = if Nat.odd (length argv) then 0 else 8;
}.

Definition args_fit (argv : list (list Z)) : Prop :=
  (length argv ≤ ARG_MAX)%nat ∧ Forall (λ a, (length a < ARG_LEN)%nat ∧ Forall (λ b, 0 ≤ b < 256) a) argv.

Lemma strings_bound argv : Forall (λ a, (length a < ARG_LEN)%nat ∧ Forall (λ b, 0 ≤ b < 256) a) argv →
  0 ≤ strings_size argv ≤ 64 * Z.of_nat (length argv).
Proof.
  induction 1 as [|a argv [Ha _] _ IH]; cbn [strings_size foldr length]; [lia|]. fold (strings_size argv). unfold ARG_LEN in Ha. lia.
Qed.

Lemma align16 x : 0 ≤ x → let y := Z.land x (Z.lnot 15) in x - 15 ≤ y ≤ x ∧ y mod 16 = 0.
Proof.
  intros Hx y. assert (y = x / 16 * 16) as ->.
  { unfold y. change (Z.lnot 15) with (Z.lnot (Z.ones 4)). rewrite <- Z.ldiff_land, Z.ldiff_ones_r by lia.
    rewrite Z.shiftl_mul_pow2, Z.shiftr_div_pow2 by lia. done. }
  pose proof (Z.div_mod x 16). pose proof (Z.mod_pos_bound x 16). rewrite Z_mod_mult. lia.
Qed.

Lemma sp_align q n : q mod 16 = 0 → (q - 24 - (Z.of_nat n + 2) * 8) mod 16 = if Nat.odd n then 0 else 8.
Proof.
  intros Hq. pose proof (Nat.div2_odd n) as Hn. destruct (Nat.odd n); cbn [Nat.b2n] in Hn;
    pose proof (Z.div_mod q 16); symmetry; [apply (Z.mod_unique _ _ (q / 16 - 3 - Z.of_nat (Nat.div2 n)))|
    apply (Z.mod_unique _ _ (q / 16 - 3 - Z.of_nat (Nat.div2 n)))]; lia.
Qed.

Lemma push_args_spec root argv s A : owned s (user_frames s root ++ A) → stack_mapped root s → args_fit argv →
  ∃ sp s', push_args root argv s = Ret (sp, s') ∧ patched root A sp USER_STACK_TOP s s' ∧ program_stack (view root s') argv sp.
Proof.
  intros Ho Hst [Hn Hfit]. pose proof (strings_bound argv Hfit) as Hsz. unfold ARG_MAX in Hn. unfold push_args.
  assert (0x10000 < USER_STACK_TOP) as HT by by_eval.
  destruct (stack_word root (USER_STACK_TOP - 64) 0 s A Ho Hst) as (s0 & -> & Hp0 & _); [unfold on_stack, USTACK_SIZE; lia|]. cbn [mbind outcome_bind].
  destruct (push_strings_spec root A argv (USER_STACK_TOP - 64) s0) as (ptrs & s1 & -> & Hp1 & Hr1); [apply Hp0|by eapply patched_stack| | |].
  { eapply Forall_impl; [exact Hfit|]. by intros a [_ Ha]. } { unfold on_stack, USTACK_SIZE. lia. }
  cbn [mbind outcome_bind]. remember (USER_STACK_TOP - 64 - strings_size argv) as q eqn:Eq.
  destruct (align16 q ltac:(lia)) as [Hq Hal]. remember (Z.land q (Z.lnot 15)) as q' eqn:Eq'. pose proof (sp_align q' (length argv) Hal) as Hsp.
  pose proof (Forall2_length _ _ _ Hr1) as Hlen. remember (q' - 24 - (Z.of_nat (length argv) + 2) * 8) as sp eqn:Esp.
  assert (∀ lo hi, sp ≤ lo → lo ≤ hi → hi ≤ USER_STACK_TOP → on_stack lo hi) as Hon by (intros; unfold on_stack, USTACK_SIZE; lia).
  destruct (stack_word root (q' - 24) 0 s1 A) as (s2 & -> & Hp2 & Hr2); [apply Hp1|eauto using patched_stack|apply Hon; lia|]. cbn [mbind outcome_bind].
  destruct (stack_word root (q' - 24 + 8) 0 s2 A) as (s3 & -> & Hp3 & Hr3); [apply Hp2|eauto using patched_stack|apply Hon; lia|]. cbn [mbind outcome_bind].
  destruct (stack_word root sp (Z.of_nat (length argv)) s3 A) as (s4 & -> & Hp4 & Hr4); [apply Hp3|eauto using patched_stack|apply Hon; lia|].
  cbn [mbind outcome_bind].
  destruct (store_words_spec root A ptrs (sp + 8) s4) as (s5 & -> & Hp5 & Hr5); [apply Hp4|eauto 10 using patched_stack|apply Hon; lia|].
  cbn [mbind outcome_bind].
  destruct (stack_word root (sp + 8 * (1 + Z.of_nat (length argv))) 0 s5 A) as (s6 & -> & Hp6 & Hr6); [apply Hp5|eauto 10 using patched_stack|apply Hon; lia|].
  cbn [mbind outcome_bind]. exists sp, s6. split; [done|].
  assert (patched root A sp q s1 s6) as Hp16.
  { eapply patched_then; [exact Hp6|lia|lia|]. eapply patched_then; [exact Hp5|lia|lia|]. eapply patched_then; [exact Hp4|lia|lia|].
    eapply patched_then; [exact Hp3|lia|lia|]. eapply patched_wide; [exact Hp2|lia|lia]. }
  split.
  { eapply patched_then; [exact Hp16|lia|lia|]. eapply patched_then; [exact Hp1|lia|lia|]. eapply patched_wide; [exact Hp0|lia|lia]. }
  constructor; [|unfold USTACK_SIZE; lia|exact Hsp]. exists ptrs. split.
  - rewrite words_cons, words_app, !words_cons. repeat apply reads_app_2; rewrite ?words_length, ?le_bytes_length.
    + keeps Hp6. keeps Hp5. exact Hr4.
    + keeps Hp6. exact Hr5.
    + eapply reads_at; [exact Hr6|lia].
    + keeps Hp6. keeps Hp5. keeps Hp4. keeps Hp3. eapply reads_at; [exact Hr2|lia].
    + keeps Hp6. keeps Hp5. keeps Hp4. eapply reads_at; [exact Hr3|lia].
    + by intros i b Hi.
  - eapply Forall2_impl; [exact Hr1|]. intros a p (Hr & Hlo & Hhi). split_and!; [|lia|lia].
    eapply patched_reads; [exact Hp16|done|]. right. lia.
Qed.
End stack.

(** ** Replacing the program *)
Section exec.
Context {S N : Type} `{FrameLaws S}.
Implicit Types (k : kern S N) (s : S) (O A : list (Z * nat)) (R : list (Z * Z)).

(** A step on the memory that keeps the frames [O] and everything of the
    kernel but the memory; [root] is an address space beside [O]. *)
Record space_step (root : Z) R O k k' : Prop := {
  ss_ok : fd_ok R (user_frames (mem k') root ++ O) k';
  ss_words : own_words O (mem k) (mem k');
  ss_foreign : foreign_words (mem k) (mem k');
  ss_slots : kernel_slots (mem k') root;
}.

Lemma kept_step R O k root s' : fd_ok R (user_frames (mem k) root ++ O) k → kernel_slots (mem k) root →
  (∀ P, owned (mem k) (user_frames (mem k) root ++ O ++ P) → kept root (O ++ P) (mem k) s') →
  space_step root R O k (set_mem s' k).
Proof.
  intros Hok Hsl Hk. destruct (fd_ok_owned _ _ _ Hok) as [P Ho]. rewrite <- app_assoc in Ho. destruct (Hk P Ho) as [_ Hw Hf Hs].
  constructor; [|by eapply own_words_l|done|].
  - eapply mem_step; [exact Hok|]. intros A Ho'. rewrite <- app_assoc in Ho'. destruct (Hk A Ho') as [Ho2 Hw2 _ _].
    rewrite <- app_assoc. split; [exact Ho2|by eapply own_words_r].
  - intros i Hi Hne. cbn. rewrite Hs by lia. by apply Hsl.
Qed.

(** The memory of a program before it is loaded: a stack of zeros. *)
Definition blank : Z → option Z := refill_range (USER_STACK_TOP - USTACK_SIZE) USER_STACK_TOP (Some 0) (λ _, None).

Lemma map_stack_step R O k root : fd_ok R (user_frames (mem k) root ++ O) k → kernel_slots (mem k) root →
  (∀ a, view root (mem k) a = None) →
  map_stack root (mem k) = Panic ∨
  ∃ ok s', map_stack root (mem k) = Ret (ok, s') ∧ space_step root R O k (set_mem s' k) ∧
    costs_ok 16 (mem k) (map_stack root (mem k)) ∧ (ok = true → ∀ a, view root s' a = blank a).
Proof.
  intros Hok Hsl Hv. unfold map_stack. set (n := Z.to_nat (USTACK_SIZE / PAGE_SIZE)). set (va := USER_STACK_TOP - USTACK_SIZE).
  assert (va mod 4096 = 0 ∧ USER_BASE ≤ va ∧ va + 4096 * Z.of_nat n ≤ USER_MAX_VMA ∧ va + 4096 * Z.of_nat n = USER_STACK_TOP)
    as (H1 & H2 & H3 & H4) by by_eval.
  destruct (fd_ok_owned _ _ _ Hok) as [P Ho]. rewrite <- app_assoc in Ho.
  destruct (brk_grow_spec root (O ++ P) n va (mem k) Ho H1 H2 H3) as [E|(ok & s' & j & E & _ & Hj & Hjn & _ & Hview)]; [by intros|by left|right].
  exists ok, s'. split_and!; [done| |by eapply (brk_grow_cost root (O ++ P) n va (mem k) Ho H1 H2 H3)|].
  - apply kept_step; [done|done|]. intros P' Ho'.
    destruct (brk_grow_spec root (O ++ P') n va (mem k) Ho' H1 H2 H3) as [E'|(ok' & s2 & j' & E' & Hk' & _)]; [by intros|congruence|].
    by assert (s2 = s') as <- by congruence.
  - intros Hok'. apply Hjn in Hok' as ->. intros a. rewrite Hview, H4. unfold blank, refill_range. fold va. case_decide; [done|apply Hv].
Qed.

Lemma elf_step R O k root img b : fd_ok R (user_frames (mem k) root ++ O) k → kernel_slots (mem k) root →
  bytes_ok img → Z.of_nat (length img) < 2 ^ 64 → forallb fits_user (segments img) = true →
  elf_load root img b (mem k) = Panic ∨
  ∃ e b' s', elf_load root img b (mem k) = Ret (e, b', s') ∧ space_step root R O k (set_mem s' k) ∧
    (e = 0 → valid_image img = false ∨ e_entry (ehdr_at img) = 0 ∨ avail (mem k) < segs_need (segments img)) ∧
    (e ≠ 0 → valid_image img = true ∧ e = e_entry (ehdr_at img) ∧ b' = top_of 0 (segments img) ∧
       ∀ a, view root s' a = foldl (load_seg img) (view root (mem k)) (segments img) a).
Proof.
  intros Hok Hsl Hb Hn Hfit. destruct (fd_ok_owned _ _ _ Hok) as [P Ho]. rewrite <- app_assoc in Ho.
  destruct (elf_load_spec root img b (mem k) (O ++ P) Ho Hb Hn Hfit) as [[E _]|(e & b' & s' & E & _ & Hz & Hr)]; [by left|right].
  exists e, b', s'. split_and!; [done| |done|done]. apply kept_step; [done|done|]. intros P' Ho'.
  destruct (elf_load_spec root img b (mem k) (O ++ P') Ho' Hb Hn Hfit) as [[E' _]|(e2 & b2 & s2 & E' & Hk' & _)]; [congruence|].
  by assert (s2 = s') as <- by congruence.
Qed.

Lemma space_view root R O k k' : space_step root R O k k' → own_words (user_frames (mem k) root) (mem k) (mem k') →
  fd_ok R (user_frames (mem k) root ++ O) k → ∀ a, view root (mem k') a = view root (mem k) a.
Proof.
  intros [Hok _ _ _] Hw Hok0. destruct (fd_ok_owned _ _ _ Hok) as [P' Ho']. destruct (fd_ok_owned _ _ _ Hok0) as [P Ho].
  rewrite <- app_assoc in Ho, Ho'. by eapply view_ext.
Qed.

Lemma free_block_step R O k root blk n : fd_ok ((blk, n) :: R) (user_frames (mem k) root ++ O) k → kernel_slots (mem k) root →
  ∃ h, free_block blk k = Ret (set_hp h k) ∧ space_step root R O k (set_hp h k) ∧ ∀ a, view root (phys h) a = view root (mem k) a.
Proof.
  intros Hok Hsl. unfold free_block. destruct (kfree_step _ _ _ _ _ Hok) as (h & -> & Hok1 & Hw & Hf). cbn [mbind outcome_bind].
  exists h. split; [done|]. pose proof (own_words_l _ _ _ _ Hw) as Hwu. pose proof (user_frames_ext _ _ _ Hwu) as Hfe.
  assert (space_step root R O k (set_hp h k)) as Hst.
  { constructor; [by change (mem (set_hp h k)) with (phys h); rewrite Hfe|by eapply own_words_r|done|by eapply kernel_slots_ext]. }
  split; [done|]. destruct (fd_ok_owned _ _ _ (ss_ok _ _ _ _ _ Hst)) as [P' Ho']. destruct (fd_ok_owned _ _ _ Hok) as [P Ho].
  rewrite <- app_assoc in Ho, Ho'. by eapply view_ext.
Qed.

Lemma destroy_root_step R O k root : fd_ok R (user_frames (mem k) root ++ O) k → kernel_slots (mem k) root →
  ∃ h, destroy_root root k = Ret (set_hp h k) ∧ fd_ok R O (set_hp h k) ∧ own_words O (mem k) (phys h) ∧ foreign_words (mem k) (phys h).
Proof.
  intros Hok Hsl. unfold destroy_root. destruct (destroy_step _ _ _ _ Hok Hsl) as (s' & -> & Hok' & Hw & Hf). cbn [mbind outcome_bind].
  by exists (set_phys s' (hp k)).
Qed.

(** ** Descriptors that are closed *)

Definition cloexec (m : gmap Z (file N)) (p : option Z) : bool :=
  match p with
  | Some p => match m !! p with Some f => has_flag (f_flags f) O_CLOEXEC | None => false end
  | None => false
  end.

(** The table with the marked descriptors of the range closed. *)
Definition close_marked (m : gmap Z (file N)) (lo n : nat) (g : nat → option Z) : nat → option Z := λ j,
  if decide (lo ≤ j < lo + n)%nat then if cloexec m (g j) then None else g j else g j.

Record closed (c : nat) (m : gmap Z (file N)) (lo n : nat) R O k k' : Prop := {
  cl_ok : fd_ok R O k';
  cl_words : own_words O (mem k) (mem k');
  cl_foreign : foreign_words (mem k) (mem k');
  cl_sch : sch k' = sch k;
  cl_others i : i ≠ c → procs k' i = procs k i;
  cl_proc : tf (procs k' c) = tf (procs k c) ∧ kstack (procs k' c) = kstack (procs k c) ∧
    brk_base (procs k' c) = brk_base (procs k c) ∧ brk_cur (procs k' c) = brk_cur (procs k c);
  cl_fds j : fds (procs k' c) j = close_marked m lo n (fds (procs k c)) j;
}.

(** The files of [m], perhaps with fewer references. *)
Definition same_flags (m m' : gmap Z (file N)) : Prop :=
  ∀ q f', m' !! q = Some f' → ∃ f, m !! q = Some f ∧ f_flags f' = f_flags f.

Lemma closed_refl c m lo R O k : fd_ok R O k → closed c m lo 0 R O k k.
Proof.
  intros Hok. constructor; [done|done|apply foreign_words_refl|done|done|done|]. intros j. unfold close_marked.
  by rewrite decide_False by lia.
Qed.

Lemma closed_trans c m lo n R O k1 k2 k3 : closed c m lo 1 R O k1 k2 → closed c m (Datatypes.S lo) n R O k2 k3 →
  closed c m lo (Datatypes.S n) R O k1 k3.
Proof.
  intros [_ Hw1 Hf1 Hs1 Ho1 (P1 & P2 & P3 & P4) Hfd1] [Hok Hw2 Hf2 Hs2 Ho2 (Q1 & Q2 & Q3 & Q4) Hfd2].
  constructor; [done|by eapply own_words_trans|by eapply foreign_words_trans|congruence| | |].
  - intros i Hi. by rewrite Ho2, Ho1.
  - split_and!; congruence.
  - intros j. rewrite Hfd2. unfold close_marked. rewrite !Hfd1. unfold close_marked. repeat case_decide; (done || lia).
Qed.

Lemma close_one_spec m R O k c i : fd_ok R O k → (c < NR_TASKS)%nat → (i < NR_FDS)%nat → same_flags m (files k) →
  ∃ k', close_one c i k = Ret k' ∧ closed c m i 1 R O k k' ∧ same_flags m (files k').
Proof.
  intros Hok Hc Hi Hm. unfold close_one. assert (∀ b, cloexec m (fds (procs k c) i) = b → (b = false) → closed c m i 1 R O k k) as Hsame.
  { intros b Hb ->. constructor; [done|done|apply foreign_words_refl|done|done|done|]. intros j. unfold close_marked.
    destruct (decide _); [|done]. assert (j = i) as -> by lia. by rewrite Hb. }
  destruct (fds (procs k c) i) as [p|] eqn:Ep; [|exists k; split_and!; [done|by eapply Hsame|done]].
  destruct (open_file _ R O k (c, i) p Hok) as [f Ef]; [apply elem_of_fd_slots; lia|done|]. rewrite Ef. destruct (Hm p f Ef) as (f0 & Ef0 & Hfl).
  assert (cloexec m (Some p) = has_flag (f_flags f) O_CLOEXEC) as Hce by (unfold cloexec; by rewrite Ef0, Hfl).
  destruct (has_flag (f_flags f) O_CLOEXEC); [|exists k; split_and!; [done|by eapply Hsame|done]].
  assert (fd_get c (Z.of_nat i) k = Some p) as Hg.
  { unfold fd_get. by rewrite (proj2 (Z.ltb_ge _ 0)), (proj2 (Z.leb_gt _ _)), Nat2Z.id, Ep by lia. }
  destruct (close_step R O k c (Z.of_nat i) p Hok Hc Hg) as (k' & -> & Hok' & Hw & Hf & Hp & Hs & _ & Hfl'). cbn [mbind outcome_bind].
  exists k'. split_and!; [done| |].
  - constructor; [done|done|done|done| | |]; rewrite Hp; unfold set_fd, upd_proc; cbn [procs].
    + intros j Hj. by rewrite fn_lookup_insert_ne.
    + by rewrite fn_lookup_insert.
    + intros j. rewrite fn_lookup_insert, Nat2Z.id. cbn [fds set_fds]. unfold close_marked. destruct (decide _).
      * assert (j = i) as -> by lia. by rewrite fn_lookup_insert, Ep, Hce.
      * by rewrite fn_lookup_insert_ne by lia.
  - intros q f' Hq. destruct (Hfl' q f' Hq) as (f1 & Hf1 & ->). by apply Hm.
Qed.

Lemma close_on_exec_spec R O k c : fd_ok R O k → (c < NR_TASKS)%nat →
  ∃ k', close_on_exec c k = Ret k' ∧ closed c (files k) 0 NR_FDS R O k k'.
Proof.
  intros Hok Hc. unfold close_on_exec.
  assert (∀ n i k1, (i + n ≤ NR_FDS)%nat → fd_ok R O k1 → same_flags (files k) (files k1) →
    ∃ k', for_loop_o (close_one c) i n k1 = Ret k' ∧ closed c (files k) i n R O k1 k') as Hl.
  { induction n as [|n IH]; intros i k1 Hn Hok1 Hm; cbn [for_loop_o]; [exists k1; split; [done|by apply closed_refl]|].
    destruct (close_one_spec (files k) R O k1 c i Hok1 Hc ltac:(lia) Hm) as (k2 & -> & Hc2 & Hm2). cbn [mbind outcome_bind].
    destruct (IH (Datatypes.S i) k2 ltac:(lia) (cl_ok _ _ _ _ _ _ _ _ Hc2) Hm2) as (k3 & -> & Hc3). exists k3.
    split; [done|by eapply closed_trans]. }
  apply Hl; [lia|done|]. intros q f' E. by exists f'.
Qed.

(** ** The point of no return *)

Definition fresh_task (root : Z) (path : list Z) (t : task) : task :=
  set_pending 0 (set_sa (reset_handlers (sa t)) (set_name (take (TASK_NAME_LEN - 1) path) (set_pml4 root t))).

Record committed (c : nat) (root b : Z) (path : list Z) R O k k' : Prop := {
  cm_ok : fd_ok R (user_frames (mem k') root ++ O) k';
  cm_words : own_words (user_frames (mem k) root ++ O) (mem k) (mem k');
  cm_foreign : foreign_words (mem k) (mem k');
  cm_task : tasks (sch k') c = fresh_task root path (tasks (sch k) c);
  cm_others i : i ≠ c → tasks (sch k') i = tasks (sch k) i ∧ procs k' i = procs k i;
  cm_cpus : cpus (sch k') = cpus (sch k);
  cm_queues Q : queues (sch k) Q → queues (sch k') Q;
  cm_proc : tf (procs k' c) = tf (procs k c) ∧ kstack (procs k' c) = kstack (procs k c) ∧
    brk_base (procs k' c) = ALIGN_UP b PAGE_SIZE ∧ brk_cur (procs k' c) = ALIGN_UP b PAGE_SIZE;
  cm_fds j : fds (procs k' c) j = close_marked (files k) 0 NR_FDS (fds (procs k c)) j;
}.

Lemma commit_spec R O k c root b path :
  fd_ok R (user_frames (mem k) root ++ user_frames (mem k) (root_of c k) ++ O) k → kernel_slots (mem k) (root_of c k) →
  (c < NR_TASKS)%nat → ∃ k', exec_commit c root b path k = Ret k' ∧ committed c root b path R O k k'.
Proof.
  intros Hok Hsl Hc. unfold exec_commit. set (k1 := upd_tk c (set_pml4 root) k).
  destruct (destroy_root_step R (user_frames (mem k) root ++ O) k1 (root_of c k)) as (h & -> & Hok2 & Hw2 & Hf2); [|done|].
  { eapply fd_ok_ext; [eapply fd_ok_frames; [|exact Hok]|done|done|done]. apply Permutation_app_swap_app. }
  cbn [mbind outcome_bind]. set (k3 := upd_proc c _ (set_hp h k1)).
  assert (fd_ok R (user_frames (mem k) root ++ O) k3) as Hok3.
  { eapply fd_ok_ext; [exact Hok2|done|done|]. intros i. unfold k3. cbn. destruct (decide (i = c)) as [->|Hi];
      [by rewrite fn_lookup_insert|by rewrite fn_lookup_insert_ne]. }
  destruct (close_on_exec_spec R _ k3 c Hok3 Hc) as (k4 & -> & [Hok4 Hw4 Hf4 Hs4 Ho4 (P1 & P2 & P3 & P4) Hfd4]). cbn [mbind outcome_bind].
  eexists. split; [done|]. assert (own_words (user_frames (mem k) root ++ O) (mem k) (mem k4)) as Hw by (by eapply own_words_trans).
  pose proof (user_frames_ext _ _ _ (own_words_l _ _ _ _ Hw)) as Hfe.
  assert (procs k3 c = set_brk_cur (ALIGN_UP b PAGE_SIZE) (set_brk_base (ALIGN_UP b PAGE_SIZE) (procs k c))) as Hpc.
  { unfold k3. cbn. by rewrite fn_lookup_insert. }
  assert (tasks (sch k4) c = set_pml4 root (tasks (sch k) c)) as Htc by (rewrite Hs4; unfold k3, k1; cbn; by rewrite fn_lookup_insert).
  rewrite Hpc in P1, P2, P3, P4. constructor; [| |by eapply foreign_words_trans| | |by cbn; rewrite Hs4| |done|intros j; rewrite Hpc in Hfd4; exact (Hfd4 j)].
  - change (mem (upd_tk c _ k4)) with (mem k4). rewrite Hfe. eapply fd_ok_ext; [exact Hok4|done..].
  - exact Hw.
  - cbn. by rewrite fn_lookup_insert, Htc.
  - intros i Hi. cbn. rewrite fn_lookup_insert_ne, Ho4, Hs4 by done. unfold k3, k1. cbn. by rewrite !fn_lookup_insert_ne.
  - intros Q Hq. apply queues_upd_task; [|by intros t]. rewrite Hs4. apply queues_upd_task; [done|by intros t].
Qed.

(** ** The trampoline and the arguments *)

(** Memory to which the page of the trampoline has been added, unless the page
    was in use or there was no frame for it. *)
Definition trampolined (code : list Z) (m m' : Z → option Z) : Prop :=
  (∀ a, m' a = m a) ∨
  m SIG_TRAMPOLINE_VA = None ∧ ∀ a, m' a = if decide (a / 4096 = SIG_TRAMPOLINE_VA / 4096) then Some (code_byte code a) else m a.

Lemma tramp_step R A k root code : fd_ok R (user_frames (mem k) root ++ fixmap (mem k) ++ A) k → foreign (mem k) FIX_SLOT →
  (length code ≤ 512)%nat →
  signal_init_trampoline code root (mem k) = Panic ∨
  ∃ s', signal_init_trampoline code root (mem k) = Ret s' ∧ fd_ok R (user_frames s' root ++ fixmap s' ++ A) (set_mem s' k) ∧
    own_words A (mem k) s' ∧ foreign_but FIX_SLOT (mem k) s' ∧ same_slots root (mem k) s' ∧
    trampolined code (view root (mem k)) (view root s').
Proof.
  intros Hok Hfx Hlen. destruct (decide (vmm_translate_in root SIG_TRAMPOLINE_VA (mem k) = 0)) as [Hz|Hz].
  2: { right. exists (mem k). unfold signal_init_trampoline. rewrite (proj2 (Z.eqb_neq _ _) Hz). cbn [negb].
       split_and!; [done|eapply fd_ok_ext; [exact Hok|by destruct k as [? [] ? ? ?]|done..]|done|apply foreign_but_words, foreign_words_refl|done|by left]. }
  destruct (fd_ok_owned _ _ _ Hok) as [P Ho]. rewrite <- !app_assoc in Ho.
  destruct (tramp_spec code root (mem k) (A ++ P) Ho Hfx Hlen Hz) as [E|(s' & E & Ho' & Hw & Hf & Hs & Hv)]; [by left|right].
  exists s'. split_and!; [done| |by eapply own_words_l|done|done|].
  - eapply mem_step; [exact Hok|]. intros P2 Ho2. rewrite <- !app_assoc in Ho2.
    destruct (tramp_spec code root (mem k) (A ++ P2) Ho2 Hfx Hlen Hz) as [E2|(s2 & E2 & Ho3 & Hw2 & _)]; [congruence|].
    assert (s2 = s') as -> by congruence. rewrite <- !app_assoc. split; [done|by eapply own_words_r].
  - destruct Hv as [->|Hv]; [by left|right]. split; [|done]. apply view_none; [by_eval|done].
Qed.

Lemma enter_spec R A k root code c entry argv f :
  fd_ok R (user_frames (mem k) root ++ fixmap (mem k) ++ A) k → foreign (mem k) FIX_SLOT → (length code ≤ 512)%nat →
  stack_mapped root (mem k) → args_fit argv → tf (procs k c) = Some f →
  exec_enter code c root entry argv k = Panic ∨
  ∃ sp s' m, exec_enter code c root entry argv k = Ret (0, upd_proc c (set_tf (Some (user_frame entry sp f))) (set_mem s' k)) ∧
    fd_ok R (user_frames s' root ++ fixmap s' ++ A) (set_mem s' k) ∧ own_words A (mem k) s' ∧ foreign_but FIX_SLOT (mem k) s' ∧
    same_slots root (mem k) s' ∧ program_stack (view root s') argv sp ∧ trampolined code (view root (mem k)) m ∧
    ∀ a, ¬ (sp ≤ a < USER_STACK_TOP) → view root s' a = m a.
Proof.
  intros Hok Hfx Hlen Hst Hargs Htf. unfold exec_enter.
  destruct (tramp_step R A k root code Hok Hfx Hlen) as [->|(s1 & -> & Hok1 & Hw1 & Hf1 & Hs1 & Ht)]; [by left|right]. cbn [mbind outcome_bind].
  assert (stack_mapped root s1) as Hst1.
  { intros a Ha. pose proof (Hst a Ha) as Hm. apply view_mapped. destruct Ht as [Ht|[_ Ht]]; rewrite Ht; [by apply view_mapped|].
    destruct (decide _); [done|by apply view_mapped]. }
  destruct (fd_ok_owned _ _ _ Hok1) as [P Ho]. rewrite <- app_assoc in Ho. change (mem (set_mem s1 k)) with s1 in Ho.
  destruct (push_args_spec root argv s1 _ Ho Hst1 Hargs) as (sp & s2 & E & [[_ Hw2 Hf2 Hs2] Hv2 _] & Hps). rewrite E. cbn [mbind outcome_bind].
  exists sp, s2, (view root s1). change (procs (set_mem s2 k)) with (procs k). rewrite Htf.
  assert (fixmap s2 = fixmap s1) as Hx by (unfold fixmap; rewrite (proj2 (Hf2 _ (proj1 (Hf1 _ Hfx)))); done).
  split_and!; [done| | | | |done|done|done].
  - rewrite Hx. apply (mem_step R (user_frames s1 root ++ fixmap s1 ++ A) _ (set_mem s1 k)); [done|]. intros P2 Ho2. rewrite <- app_assoc in Ho2.
    destruct (push_args_spec root argv s1 _ Ho2 Hst1 Hargs) as (sp2 & s3 & E3 & [[Ho3 Hw3 _ _] _ _] & _).
    assert (s3 = s2) as -> by congruence. rewrite <- app_assoc. split; [done|by eapply own_words_r].
  - eapply own_words_trans; [exact Hw1|]. eapply own_words_r, own_words_l. exact Hw2.
  - eapply foreign_but_trans; [exact Hf1|]. by apply foreign_but_words.
  - intros i Hi Hne. by rewrite Hs2, Hs1.
Qed.

(** ** The whole of [exec_image] *)

(** A program that the loader can lay out below the top of user space. *)
Definition program_ok (img : list Z) : Prop :=
  bytes_ok img ∧ Z.of_nat (length img) < 2 ^ 64 ∧ forallb fits_user (segments img) = true.

Definition program_memory (img : list Z) : Z → option Z := foldl (load_seg img) blank (segments img).

Lemma foldl_load_ext img l : ∀ m m', (∀ a, m a = m' a) → ∀ a, foldl (load_seg img) m l a = foldl (load_seg img) m' l a.
Proof.
  induction l as [|ph l IH]; intros m m' Hm a; cbn [foldl]; [done|]. apply IH. intros b. unfold load_seg, overlay, zero_fill.
  case_decide; [done|]. by rewrite Hm.
Qed.

Lemma load_keeps img l a : ∀ m, m a ≠ None → foldl (load_seg img) m l a ≠ None.
Proof.
  induction l as [|ph l IH]; intros m Hm; cbn [foldl]; [done|]. apply IH. unfold load_seg, overlay, zero_fill. case_decide as Hd.
  - destruct (lookup_lt_is_Some_2 (slice img (p_offset ph) (p_filesz ph)) (Z.to_nat (a - p_vaddr ph)) ltac:(lia)) as [b ->]. done.
  - by destruct (m a).
Qed.

(** The frames that are certain to be enough for a program: the root table,
    and four for every page of the stack and of the segments. *)
Definition exec_need (img : list Z) : Z := 17 + segs_need (segments img).

(** The image cannot be run as it is: it is not valid, or has no entry. *)
Definition not_runnable (img : list Z) : Prop := valid_image img = false ∨ e_entry (ehdr_at img) = 0.

(** The program is loaded beside the old one, or everything is as before but
    for the image, which is freed. *)
Lemma image_loaded master code c path argv blk n img R O k : fd_ok ((blk, n) :: R) O k → master_ok master (mem k) → program_ok img →
  exec_image master code c path argv blk img k = Panic ∨
  (∃ r h, exec_image master code c path argv blk img k = Ret (r, set_hp h k) ∧ (r = LNXRM_ENOMEM ∧ avail (mem k) < exec_need img ∨ r = LNXRM_ENOEXEC ∧ (not_runnable img ∨ avail (mem k) < exec_need img)) ∧
    fd_ok R O (set_hp h k) ∧ own_words O (mem k) (phys h) ∧ foreign_words (mem k) (phys h)) ∨
  ∃ root h, exec_image master code c path argv blk img k =
      (k ← exec_commit c root (top_of 0 (segments img)) path (set_hp h k); exec_enter code c root (e_entry (ehdr_at img)) argv k) ∧
    space_step root R O k (set_hp h k) ∧ valid_image img = true ∧ ∀ a, view root (phys h) a = program_memory img a.
Proof.
  intros Hok Hmo (Hb & Hn & Hfit). unfold exec_image.
  assert (costs 1 snd (mem k) (vmm_new_user_aspace master (mem k))) as Hc1.
  { destruct (fd_ok_owned _ _ _ Hok) as [P Ho]. by eapply new_user_aspace_cost. }
  destruct (new_aspace_step _ _ _ _ Hok Hmo) as [->|(root & s1 & E1 & Hok1 & Hsl1 & _ & Hw1 & Hf1 & Hv1)]; [by left|].
  rewrite E1 in *. cbn [mbind outcome_bind costs snd] in *.
  assert (0 ≤ segs_need (segments img)) as Hsn.
  { apply segs_need_pos. intros q (_ & (i & -> & _)%list_elem_of_fmap)%list_elem_of_filter. by apply seg_need_pos. }
  assert (root ≠ 0) as Hr0.
  { destruct (fd_ok_owned _ _ _ Hok1) as [P Ho1]. destruct (owned_page _ _ root Ho1) as [_ Hpos]; [apply list_elem_of_here|lia]. }
  rewrite (proj2 (Z.eqb_neq _ _) Hr0). set (k1 := set_mem s1 k) in *. change (mem k1) with s1.
  destruct (map_stack_step _ O k1 root Hok1 Hsl1 Hv1) as [E|(ok & s2 & E & [Hok2 Hw2 Hf2 Hsl2] & Hc2 & Hv2)]; change (mem k1) with s1 in *; rewrite E in *; [by left|].
  cbn [mbind outcome_bind]. change (set_mem s2 k1) with (set_mem s2 k) in *. set (k2 := set_mem s2 k) in *.
  pose proof (own_words_trans _ _ _ _ Hw1 Hw2) as Hw12. pose proof (foreign_words_trans _ _ _ Hf1 Hf2) as Hf12.
  destruct ok; cbn [negb].
  2: { right; left. destruct (free_block_step _ _ _ _ _ _ Hok2 Hsl2) as (h & -> & [Hok3 Hw3 Hf3 Hsl3] & _). cbn [mbind outcome_bind].
       destruct (destroy_root_step _ _ _ _ Hok3 Hsl3) as (h2 & -> & Hok4 & Hw4 & Hf4). cbn [mbind outcome_bind]. exists LNXRM_ENOMEM, h2.
       split_and!; [done|left; cbn [costs_ok] in Hc2; unfold exec_need; split; [done|lia]|exact Hok4|by repeat (eapply own_words_trans; [eassumption|])|by repeat (eapply foreign_words_trans; [eassumption|])]. }
  destruct (elf_step _ O k2 root img 0 Hok2 Hsl2 Hb Hn Hfit) as [E3|(e & b & s3 & E3 & [Hok3 Hw3 Hf3 Hsl3] & Hbad & Hld)];
    change (mem k2) with s2 in E3; change (mem k2) with s2; rewrite E3; [by left|].
  cbn [mbind outcome_bind]. change (set_mem s3 k2) with (set_mem s3 k) in *. set (k3 := set_mem s3 k) in *.
  destruct (free_block_step _ _ _ _ _ _ Hok3 Hsl3) as (h & -> & [Hok4 Hw4 Hf4 Hsl4] & Hv4). cbn [mbind outcome_bind].
  change (set_hp h k3) with (set_hp h k) in *. assert (own_words O (mem k) (phys h)) as Hw by (by repeat (eapply own_words_trans; [eassumption|])).
  assert (foreign_words (mem k) (phys h)) as Hf by (by repeat (eapply foreign_words_trans; [eassumption|])).
  right. destruct (Z.eqb_spec e 0) as [->|He]; [left|right].
  - destruct (destroy_root_step _ _ _ _ Hok4 Hsl4) as (h2 & -> & Hok5 & Hw5 & Hf5). cbn [mbind outcome_bind]. exists LNXRM_ENOEXEC, h2.
    split_and!; [done|right|exact Hok5|by eapply own_words_trans|by eapply foreign_words_trans].
    split; [done|]. cbn [costs_ok] in Hc2. change (mem k2) with s2 in Hbad. unfold exec_need, not_runnable.
    destruct (Hbad eq_refl) as [?|[?|?]]; [by left; left|by left; right|right; lia].
  - destruct (Hld He) as (Hval & -> & -> & Hv3). exists root, h. split_and!; [done| |done|].
    + by constructor.
    + intros a. rewrite Hv4. change (mem k3) with s3. rewrite Hv3. apply foldl_load_ext. by apply Hv2.
Qed.

(** The frame [f'] starts user code at [entry] with stack [sp] and interrupts
    on; the other registers are those of [f]. *)
Definition starts_at (entry sp : Z) (f f' : intr_frame) : Prop :=
  f' = IntrFrame (r15 f) (r14 f) (r13 f) (r12 f) (r11 f) (r10 f) (r9 f) (r8 f) (rbp f) (rdi f) (rsi f) (rdx f) (rcx f) (rax f)
    (rbx f) (intno f) (err f) entry 0x1b 0x202 sp 0x23.

(** The state in which [k'] runs the program [img] with the arguments [argv]
    in the process that [c] was in [k], interrupted with frame [f]. *)
Record runs_program (code path : list Z) (argv : list (list Z)) (img : list Z) (c : nat) (f : intr_frame) k k' : Prop := {
  rp_valid : valid_image img = true;
  rp_start : ∃ sp m, (∃ f', tf (procs k' c) = Some f' ∧ starts_at (e_entry (ehdr_at img)) sp f f') ∧
    program_stack (view (root_of c k') (mem k')) argv sp ∧ trampolined code (program_memory img) m ∧
    ∀ a, ¬ (sp ≤ a < USER_STACK_TOP) → view (root_of c k') (mem k') a = m a;
  rp_task : let t := tasks (sch k) c in let t' := tasks (sch k') c in
    pid t' = pid t ∧ Sched.parent t' = Sched.parent t ∧ state t' = state t ∧ name t' = take 15 path;
  rp_signals : let t := tasks (sch k) c in let t' := tasks (sch k') c in
    signal_pending t' = 0 ∧ signal_mask t' = signal_mask t ∧ ∀ i, (1 ≤ i < 32)%nat → sa_handler (sa t' i) = SIG_DFL;
  rp_kstack : kstack (procs k' c) = kstack (procs k c);
  rp_brk : brk_base (procs k' c) = top_of 0 (segments img) ∧ brk_cur (procs k' c) = top_of 0 (segments img);
  rp_fds j : fds (procs k' c) j = close_marked (files k) 0 NR_FDS (fds (procs k c)) j;
  rp_others i : i ≠ c → tasks (sch k') i = tasks (sch k) i ∧ procs k' i = procs k i;
}.

(** The window of the kernel is not a part of the master table. *)
Record window_ok (master : Z) s : Prop := {
  wo_foreign : foreign s FIX_SLOT;
  wo_apart i : 0 ≤ i < 512 → master + 8 * i ≠ FIX_SLOT;
}.

Lemma master_step_but master s s' : master_ok master s → window_ok master s → foreign_but FIX_SLOT s s' →
  master_ok master s' ∧ window_ok master s'.
Proof.
  intros [Hf Hs] [Hx Ha] Hb. split; constructor; [intros i Hi; by apply Hb, Hf| |by apply Hb|done].
  intros i Hi Hne. rewrite <- (Hs i Hi Hne). unfold entry. f_equal. apply Hb; [apply Hf; lia|apply Ha; lia].
Qed.

Lemma executing_mem master me c R R' A Q k k' : executing master me c R A Q k → sch k' = sch k → procs k' = procs k →
  fd_ok R' (user_frames (mem k) (root_of c k) ++ A) k' → own_words (user_frames (mem k) (root_of c k) ++ A) (mem k) (mem k') →
  foreign_words (mem k) (mem k') → executing master me c R' A Q k' ∧ ∀ a, view (root_of c k) (mem k') a = view (root_of c k) (mem k) a.
Proof.
  intros [Hcur Ht Hmem Hmo Hq Hcpu Hfr] Hs Hp Hok Hw Hf. pose proof (own_words_l _ _ _ _ Hw) as Hwu. pose proof (user_frames_ext _ _ _ Hwu) as Hfe.
  assert (root_of c k' = root_of c k) as Hr by (unfold root_of; by rewrite Hs).
  assert (fd_ok R' (user_frames (mem k') (root_of c k) ++ A) k') as Hok' by (by rewrite Hfe). split.
  - constructor; rewrite ?Hr, ?Hs, ?Hp; [done|done|exact Hok'|by eapply master_step|done..].
  - destruct (fd_ok_owned _ _ _ Hok') as [P' Ho']. destruct (fd_ok_owned _ _ _ Hmem) as [P Ho]. rewrite <- app_assoc in Ho, Ho'. by eapply view_ext.
Qed.

(** The program that has been loaded at [root] beside the old one is entered. *)
Lemma program_entered master code me c R0 R A Q k path argv img f root h :
  executing master me c R0 (fixmap (mem k) ++ A) Q k → window_ok master (mem k) → kernel_slots (mem k) (root_of c k) →
  tf (procs k c) = Some f → program_ok img → (length code ≤ 512)%nat → args_fit argv →
  space_step root R (user_frames (mem k) (root_of c k) ++ fixmap (mem k) ++ A) k (set_hp h k) → valid_image img = true →
  (∀ a, view root (phys h) a = program_memory img a) →
  let r := k ← exec_commit c root (top_of 0 (segments img)) path (set_hp h k); exec_enter code c root (e_entry (ehdr_at img)) argv k in
  r = Panic ∨ ∃ k', r = Ret (0, k') ∧ executing master me c R (fixmap (mem k') ++ A) Q k' ∧ window_ok master (mem k') ∧
    kernel_slots (mem k') (root_of c k') ∧ runs_program code path argv img c f k k'.
Proof.
  intros [Hcur [Hc Hrun] Hmem Hmo Hq Hcpu Hfr] Hwin Hold Htf (Hb & _ & Hfit) Hlen Hargs [Hok Hw Hf Hsl] Hval Hv r.
  change (mem (set_hp h k)) with (phys h) in *.
  pose proof (own_words_l _ _ _ _ Hw) as Hwo. pose proof (user_frames_ext _ _ _ Hwo) as Hfo. pose proof (wo_foreign _ _ Hwin) as Hfx.
  destruct (commit_spec R (fixmap (mem k) ++ A) (set_hp h k) c root (top_of 0 (segments img)) path) as (k2 & E2 & Hcm).
  { change (mem (set_hp h k)) with (phys h). change (root_of c (set_hp h k)) with (root_of c k). rewrite Hfo. exact Hok. }
  { by eapply kernel_slots_ext. } { done. }
  unfold r. rewrite E2. cbn [mbind outcome_bind]. destruct Hcm as [Hok2 Hw2 Hf2 Htc Hoth Hcp Hqs (P1 & P2 & P3 & P4) Hfd].
  change (mem (set_hp h k)) with (phys h) in *. change (procs (set_hp h k)) with (procs k) in *. change (sch (set_hp h k)) with (sch k) in *.
  pose proof (foreign_words_trans _ _ _ Hf Hf2) as Hf02. assert (fixmap (mem k2) = fixmap (mem k)) as Hx2 by (unfold fixmap; by rewrite (proj2 (Hf02 _ Hfx))).
  assert (∀ a, view root (mem k2) a = program_memory img a) as Hv2.
  { intros a. rewrite <- Hv. destruct (fd_ok_owned _ _ _ Hok) as [P Ho]. destruct (fd_ok_owned _ _ _ Hok2) as [P2' Ho2]. rewrite <- app_assoc in Ho, Ho2.
    eapply view_ext; [exact Ho|by eapply own_words_l|exact Ho2]. }
  destruct (enter_spec R A k2 root code c (e_entry (ehdr_at img)) argv f) as [->|(sp & s3 & m & -> & Hok3 & Hw3 & Hf3 & Hs3 & Hps & Htr & Hvm)];
    [by rewrite Hx2|by apply Hf02|done| |done|congruence|by left|right].
  { intros a Ha. apply view_mapped. rewrite Hv2. apply load_keeps. unfold blank, refill_range. by rewrite decide_True. }
  set (k3 := upd_proc c _ _). exists k3. split; [done|]. destruct (master_step_but master (mem k) s3 Hmo Hwin) as [Hmo3 Hwin3].
  { eapply foreign_but_trans; [apply foreign_but_words, Hf02|done]. }
  assert (root_of c k3 = root) as Hr3 by (unfold root_of; change (sch k3) with (sch k2); by rewrite Htc).
  assert (procs k3 c = set_tf (Some (user_frame (e_entry (ehdr_at img)) sp f)) (procs k2 c)) as Hp3 by (unfold k3; cbn; by rewrite fn_lookup_insert).
  assert (∀ i, i ≠ c → tasks (sch k3) i = tasks (sch k) i ∧ procs k3 i = procs k i) as Hoth3.
  { intros i Hi. destruct (Hoth i Hi) as [Et Ep]. split; [done|]. unfold k3. cbn. by rewrite fn_lookup_insert_ne. }
  assert (fd_ok R (user_frames s3 root ++ fixmap s3 ++ A) k3) as Hok3'.
  { eapply fd_ok_ext; [exact Hok3|done|done|]. intros i. destruct (decide (i = c)) as [->|Hi]; [by rewrite Hp3|].
    unfold k3. cbn. by rewrite fn_lookup_insert_ne. }
  split_and!; [|done| |].
  - constructor; rewrite ?Hr3; [unfold current in *; cbn; by rewrite Hcp|cbn; by rewrite Htc|done|done|by apply Hqs|cbn; by rewrite Hcp|].
    intros i Hi Hu. destruct (decide (i = c)) as [->|Hne]; [cbn in Hu; rewrite Htc in Hu; cbn in Hu; congruence|].
    destruct (Hoth3 i Hne) as [Et Ep]. rewrite Et in Hu |- *. rewrite Ep. by apply Hfr.
  - rewrite Hr3. intros i Hi Hne. change (mem k3) with s3. rewrite Hs3 by lia.
    rewrite (own_entry _ _ _ root i (own_words_l _ _ _ _ Hw2)); [by apply Hsl|apply list_elem_of_here|lia].
  - assert (ALIGN_UP (top_of 0 (segments img)) PAGE_SIZE = top_of 0 (segments img)) as Hal.
    { apply top_aligned; [done|]. intros ph Hph. apply (proj1 (forallb_forall _ _) Hfit). by apply list_elem_of_In. }
    constructor; rewrite ?Hr3, ?Hp3; cbn [tf kstack brk_base brk_cur fds set_tf]; [done| |cbn; by rewrite Htc| |done|by rewrite P3, P4, Hal|exact Hfd|done].
    2: { cbn. rewrite Htc. split_and!; [done|done|]. intros i Hi. cbn. unfold reset_handlers.
         by rewrite (proj2 (Nat.leb_le 1 i)), (proj2 (Nat.ltb_lt i (Z.to_nat NSIG))) by (change (Z.to_nat NSIG) with 32%nat; lia). }
    exists sp, m. split_and!; [by eexists|done| |done]. destruct Htr as [Htr|[Hn Htr]]; [left|right; split]; try (intros a; rewrite Htr; by rewrite Hv2).
    by rewrite <- Hv2.
Qed.

Lemma runs_program_from code path argv img c f k1 k k' : runs_program code path argv img c f k1 k' → sch k1 = sch k → procs k1 = procs k →
  files k1 = files k → runs_program code path argv img c f k k'.
Proof. intros [? ? ? ? ? ? ? ?] Hs Hp Hf. rewrite Hs, Hp in *. rewrite Hf in *. by constructor. Qed.

Lemma exec_image_spec master code me c R A Q k path argv blk n img f :
  executing master me c ((blk, n) :: R) (fixmap (mem k) ++ A) Q k → window_ok master (mem k) →
  kernel_slots (mem k) (root_of c k) → tf (procs k c) = Some f → program_ok img → (length code ≤ 512)%nat → args_fit argv →
  exec_image master code c path argv blk img k = Panic ∨
  ∃ r k', exec_image master code c path argv blk img k = Ret (r, k') ∧
    executing master me c R (fixmap (mem k') ++ A) Q k' ∧ window_ok master (mem k') ∧ kernel_slots (mem k') (root_of c k') ∧
    ((r = LNXRM_ENOMEM ∧ avail (mem k) < exec_need img ∨ r = LNXRM_ENOEXEC ∧ (not_runnable img ∨ avail (mem k) < exec_need img)) ∧
       sch k' = sch k ∧ procs k' = procs k ∧ files k' = files k ∧
       (∀ a, view (root_of c k) (mem k') a = view (root_of c k) (mem k) a) ∨
     r = 0 ∧ runs_program code path argv img c f k k').
Proof.
  intros Hex Hwin Hold Htf Hpr Hlen Hargs. pose proof Hex as [Hcur Ht Hmem Hmo Hq Hcpu Hfr]. pose proof Hwin as [Hfx _].
  destruct (image_loaded master code c path argv blk n img R _ k Hmem Hmo Hpr)
    as [->|[(r & h & -> & Hr & Hok & Hw & Hf)|(root & h & -> & [Hok Hw Hf Hsl] & Hval & Hv)]]; [by left| |].
  { right. exists r, (set_hp h k). destruct (executing_mem _ _ _ _ _ _ _ _ (set_hp h k) Hex eq_refl eq_refl Hok Hw Hf) as [Hex' Hv'].
    assert (fixmap (phys h) = fixmap (mem k)) as Hxe by (unfold fixmap; by rewrite (proj2 (Hf _ Hfx))).
    split_and!; [done|by change (mem (set_hp h k)) with (phys h); rewrite Hxe| | |by left].
    - by eapply master_step_but, foreign_but_words.
    - eapply kernel_slots_ext; [exact Hold|by eapply own_words_l]. }
  destruct (program_entered master code me c _ R A Q k path argv img f root h Hex Hwin Hold Htf Hpr Hlen Hargs) as [->|(k' & -> & Hex' & Hwin' & Hsl' & Hrp)];
    [by constructor|done|done|by left|right]. exists 0, k'. split_and!; [done|done|done|done|by right].
Qed.
End exec.
