(* ===== verification/ExecCall.v ===== *)
(** The system call execve: the program is read from a file system that keeps
    the laws of [VfsFile], and replaces the one that made the call. *)
From S2P Require Import Prelude Bytes Cstring Pmm PmmFacts PmmInit Frames Kheap KheapFacts Vmm VmmFacts VmmLife VmmDup VmmDemo UserMem Aspace Budget Elf.
From S2P Require Import Sched SchedFacts SchedRun Proc ProcFacts Signal Tramp Brk Clients Task TaskFacts.
From S2P Require Import BlkDev BlkCache Journal FatName FatTable FatDir Input Ansi Fb FbFacts Console ConsoleFacts Vfs VfsFile Exec ExecFacts.

Section files.
Context {S N : Type} `{FrameLaws S}.
Implicit Types (k : kern S N) (s : S) (O A : list (Z * nat)) (R : list (Z * Z)).

(** Opening a regular file. *)
Lemma file_alloc_reg R O k data flags : fd_ok R O k →
  file_alloc reg_fops data flags k = Panic ∨
  ∃ p priv f h, let k' := set_files (<[p := f]> (files k)) (set_hp h k) in
    file_alloc reg_fops data flags k = Ret (p, k') ∧ f = File reg_fops 0 priv data false flags 1 ∧ files k !! p = None ∧
    (∃ node, fd_inv (<[p := 1]> settled) ((node, VNODE_SIZE) :: R) O k') ∧ own_words O (mem k) (phys h) ∧ foreign_words (mem k) (phys h).
Proof.
  intros Hok. destruct (file_alloc_inv R O k reg_fops data flags Hok) as [->|(p & k' & node & E & Hnew & Hi & _)]; [by left|right].
  unfold file_alloc in E |- *. destruct (kmalloc_step R O k FILE_SIZE Hok) as [Ek|(p1 & h1 & Ek & _ & Hok1 & Hw1 & Hf1)]; [by_eval|by_eval|by rewrite Ek in E|].
  rewrite Ek in E |- *. cbn [mbind outcome_bind] in E |- *.
  destruct (kmalloc_step _ O (set_hp h1 k) VNODE_SIZE Hok1) as [Ek2|(priv & h2 & Ek2 & _ & _ & Hw2 & Hf2)]; [by_eval|by_eval|by cbn [hp set_hp] in Ek2; rewrite Ek2 in E|].
  cbn [hp set_hp] in Ek2. rewrite Ek2 in E |- *. cbn [mbind outcome_bind] in E |- *. injection E as <- <-.
  exists p1, priv, (File reg_fops 0 priv data false flags 1), h2. cbn zeta.
  split_and!; [done|done|done|by exists node|by eapply own_words_trans|by eapply foreign_words_trans].
Qed.

(** The position of an open file moves. *)
Lemma fd_inv_move d R O k p f f' : fd_inv d R O k → files k !! p = Some f → f_ops f' = f_ops f → f_priv f' = f_priv f →
  refcnt f' = refcnt f → fd_inv d R O (set_files (<[p := f']> (files k)) k).
Proof.
  intros [(L & Hh & HL) Hr] Hp Ho Hv Hc. constructor; cbn [hp files set_files].
  - exists L. split; [done|]. rewrite (file_blocks_update _ _ f) by (done || (unfold blocks_of; by rewrite Ho, Hv)). done.
  - intros q. assert (refs (set_files (<[p := f']> (files k)) k) q = refs k q) as -> by done. specialize (Hr q).
    destruct (decide (q = p)) as [->|Hne]; [rewrite lookup_insert_eq, Hc; by rewrite Hp in Hr|by rewrite lookup_insert_ne].
Qed.

(** Closing the file again leaves the files as they were. *)
Lemma close_last R O k p : fd_inv (<[p := 1]> settled) R O k → refs k p = 0%nat →
  ∃ k', vfs_close_file p k = Ret k' ∧ fd_ok R O k' ∧ procs k' = procs k ∧ sch k' = sch k ∧ files k' = delete p (files k) ∧
    own_words O (mem k) (mem k') ∧ foreign_words (mem k) (mem k').
Proof.
  intros Hi Hr. destruct (vfs_close_file_inv _ R O k p Hi) as (k' & E & Hi' & Hp & Hs & Hq & Hn); [rewrite fn_lookup_insert; lia|].
  destruct (close_file_effect _ _ _ _ _ _ Hi E) as (Hw & Hf & _ & _). exists k'. split_and!; [done| |done|done| |done|done].
  - eapply fd_inv_ext; [|exact Hi']. intros q. unfold settled. destruct (decide (q = p)) as [->|Hne];
      [by rewrite !fn_lookup_insert|by rewrite !fn_lookup_insert_ne].
  - apply map_eq. intros q. destruct (decide (q = p)) as [->|Hne]; [|by rewrite lookup_delete_ne, Hq].
    rewrite lookup_delete_eq. apply Hn. rewrite fn_lookup_insert. lia.
Qed.
End files.

Section calls.
Context {S F Nd : Type} `{FrameLaws S} `{FileLaws F Nd}.
Implicit Types (w : sys S F Nd) (s : S) (O A : list (Z * nat)) (R : list (Z * Z)).

Lemma via_kn {B} o (op : F → outcome (B * F)) w b w' : via o op w = Ret (b, w') → kn w' = kn w.
Proof. unfold via. destruct o; [|done]. destruct (op (fsys w)) as [[b' f]| |]; cbn [mbind outcome_bind]; [|done..]. by intros [= <- <-]. Qed.

Lemma do_lookup_kn o p vn w e vn' w' : do_lookup o p vn w = Ret (e, vn', w') → kn w' = kn w.
Proof.
  unfold do_lookup. destruct (via o (fs_lookup p) w) as [[[e1 r] w1]| |] eqn:E; cbn [mbind outcome_bind]; [|done..].
  apply via_kn in E. cbn [fst snd]. destruct r as [[[ty sz] nd]|]; intros [= <- <- <-]; done.
Qed.

(** A lookup does not touch processes or memory. *)
Lemma vfs_lookup_kn path flags w e vn w' : vfs_lookup path flags w = Ret (e, vn, w') → kn w' = kn w.
Proof.
  unfold vfs_lookup. destruct (bool_decide _).
  { destruct (negb _); [by intros [= _ _ <-]|]. destruct (fs_for_path _ _) as [[o p]|]; [|by intros [= _ _ <-]].
    destruct (do_lookup o p empty_node w) as [[[e1 vn1] w1]| |] eqn:E; cbn [mbind outcome_bind]; [|done..]. intros [= _ _ <-]. by eapply do_lookup_kn. }
  destruct (fs_for_path _ _) as [[o p]|]; [|destruct (dev_lookup _ _); by intros [= _ _ <-]].
  destruct (do_lookup o p empty_node w) as [[[e1 vn1] w1]| |] eqn:E1; cbn [mbind outcome_bind]; [|done..]. apply do_lookup_kn in E1.
  destruct (e1 <? 0).
  - destruct (dev_lookup path vn1) as [e2 vn2]. destruct (e2 =? 0); [intros [= _ _ <-]; done|]. destruct (negb _); [intros [= _ _ <-]; done|].
    destruct (via o (fs_create p) w1) as [[e3 w3]| |] eqn:E3; cbn [mbind outcome_bind]; [|done..]. apply via_kn in E3.
    destruct (e3 <? 0); [intros [= _ _ <-]; congruence|].
    destruct (do_lookup o p vn2 w3) as [[[e4 vn4] w4]| |] eqn:E4; cbn [mbind outcome_bind]; [|done..]. apply do_lookup_kn in E4.
    destruct (e4 <? 0); intros [= _ _ <-]; congruence.
  - destruct (_ && _); [|intros [= _ _ <-]; done]. destruct (vn_data vn1) as [nd|]; [|done].
    destruct (via o (fs_write nd 0 None 0) w1) as [[r w3]| |] eqn:E3; cbn [mbind outcome_bind]; [|done..]. apply via_kn in E3.
    intros [= _ _ <-]. congruence.
Qed.

(** The path leads to a regular file with the contents [img]. *)
Record found (path img : list Z) w : Prop := {
  fn_lookup : ∃ nd w1, vfs_lookup (abs_path path 128) 0 w = Ret (0, VfsNode V_REG (Z.of_nat (length img)) (Some nd) (Some fat32_ops), w1) ∧
    fs_ok (fsys w1) ∧ stores (fsys w1) nd img;
}.

(** What reading a program changes of the kernel. *)
Record read_step O w w' : Prop := {
  rs_sch : sch (kn w') = sch (kn w);
  rs_procs : procs (kn w') = procs (kn w);
  rs_files : files (kn w') = files (kn w);
  rs_words : own_words O (mem (kn w)) (mem (kn w'));
  rs_foreign : foreign_words (mem (kn w)) (mem (kn w'));
}.

Lemma align_up_pos n : 0 ≤ n < 2 ^ 32 → 0 ≤ ALIGN_UP (n + 1) PAGE_SIZE ∧ ALIGN_UP (n + 1) PAGE_SIZE + HDR ≤ 2 ^ 62.
Proof.
  intros Hn. unfold ALIGN_UP, PAGE_SIZE, HDR. rewrite u64_small by lia. change (4096 - 1) with (2 ^ 12 - 1). rewrite land_lnot_mask by lia.
  pose proof (Z.div_mod (n + 1 + 4096 - 1) (2 ^ 12)). pose proof (Z.mod_pos_bound (n + 1 + 4096 - 1) (2 ^ 12)). lia.
Qed.

(** The read of the whole file. *)
Lemma read_reg d R O w p f vn nd img m : fd_inv d R O (kn w) → files (kn w) !! p = Some f → f_ops f = reg_fops → f_pos f = 0 →
  f_data f = Some (NodeOf vn) → vn_data vn = Some nd → vn_ops vn = Some fat32_ops → fs_ok (fsys w) → stores (fsys w) nd img →
  delete p (files (kn w)) = m →
  ∃ w', vfs_read_file p f (Z.of_nat (length img)) w =
      Ret (Z.of_nat (length (take (Z.to_nat (Z.min (Z.of_nat (length img)) io_max)) img)), take (Z.to_nat (Z.min (Z.of_nat (length img)) io_max)) img, w') ∧
    fd_inv d R O (kn w') ∧ hp (kn w') = hp (kn w) ∧ sch (kn w') = sch (kn w) ∧ procs (kn w') = procs (kn w) ∧ delete p (files (kn w')) = m.
Proof.
  intros Hi Hp Ho Hpos Hd Hvd Hvo Hfs Hst Hm. pose proof (stores_size _ _ _ Hst). unfold vfs_read_file, reg_read, reg_node, via.
  rewrite Ho, Hd, Hvd, Hvo, Hpos. cbn [mbind outcome_bind].
  destruct (fs_read_law (fsys w) nd img 0 (Z.of_nat (length img)) Hfs Hst) as (f' & -> & _); [lia..|]. cbn [mbind outcome_bind fst snd].
  change (Z.to_nat 0) with 0%nat. rewrite drop_0. eexists. split; [done|]. destruct (0 <? _); [|done].
  unfold upd_file. cbn [kn set_kn set_fsys]. set (g := set_pos_data _ _).
  assert (alter g p (files (kn w)) = <[p := g f]> (files (kn w))) as -> by (apply map_eq; intros q; destruct (decide (q = p)) as [->|Hne];
    [by rewrite lookup_alter_eq, lookup_insert_eq, Hp|by rewrite lookup_alter_ne, lookup_insert_ne]).
  split_and!; [by eapply fd_inv_move|done|done|done|]. cbn [files set_files]. by rewrite delete_insert_eq.
Qed.

(** A program is read in one piece, of at most [io_max] bytes; the copy of the
    node is lost. *)
Lemma read_image_spec R O w path img : fd_ok R O (kn w) → found path img w →
  read_image path w = Panic ∨
  ∃ res w' node, read_image path w = Ret (res, w') ∧ read_step O w w' ∧
    ((Z.of_nat (length img) ≤ io_max ∧ ∃ blk n, res = Image blk img ∧ fd_ok ((blk, n) :: (node, VNODE_SIZE) :: R) O (kn w')) ∨
     (io_max < Z.of_nat (length img) ∧ res = ReadFails LNXRM_EIO ∧ fd_ok ((node, VNODE_SIZE) :: R) O (kn w'))).
Proof.
  intros Hok [(nd & w1 & El & Hfs & Hst)]. pose proof (vfs_lookup_kn _ _ _ _ _ _ El) as Hkn. unfold read_image, vfs_open_file. rewrite El.
  cbn [mbind outcome_bind Z.ltb Z.compare]. unfold open_node. cbn [vn_type]. rewrite Hkn. set (vn := VfsNode _ _ _ _).
  destruct (file_alloc_reg R O (kn w) (Some (NodeOf vn)) 0 Hok) as [->|(p & priv & f & h1 & E1 & -> & Hnew & [node Hi1] & Hw1 & Hf1)]; [by left|].
  rewrite E1. cbn [mbind outcome_bind]. set (f := File _ _ _ _ _ _ _) in *. set (k1 := set_files _ _) in *. cbn [kn set_kn].
  assert (files k1 !! p = Some f) as Hp1 by apply lookup_insert_eq. rewrite Hp1. unfold vfs_file_size. cbn [f_is_dir f_data f vn_size vn mbind outcome_bind].
  pose proof (stores_size _ _ _ Hst) as Hsz. destruct (align_up_pos (Z.of_nat (length img)) ltac:(lia)) as [Ha1 Ha2].
  destruct (kmalloc_inv _ _ O k1 _ Hi1 Ha1 Ha2) as [->|(blk & h2 & E2 & Hb & Hi2 & Hw2 & Hf2)]; [by left|]. rewrite E2. cbn [mbind outcome_bind].
  rewrite (proj2 (Z.eqb_neq _ _) Hb). set (n := ALIGN_UP _ _) in *. set (k2 := set_hp h2 k1) in *.
  destruct (read_reg _ _ O (set_kn k2 (set_kn k1 w1)) p f vn nd img (delete p (files k1)) Hi2) as (w3 & E3 & Hi3 & Hh3 & Hs3 & Hp3 & Hd3); [done..|].
  rewrite E3. cbn [mbind outcome_bind]. clear E3.
  assert (delete p (files k1) = files (kn w)) as Hdel by (unfold k1; cbn; by rewrite delete_insert_eq, delete_id).
  assert (refs (kn w3) p = 0%nat) as Hr0.
  { pose proof (fi_refs _ _ _ _ Hok p) as Hr. rewrite Hnew in Hr. destruct Hr as [Hr _]. rewrite <- Hr. unfold refs, fd_at. by rewrite Hp3. }
  assert (own_words O (mem (kn w)) (mem (kn w3)) ∧ foreign_words (mem (kn w)) (mem (kn w3))) as [Hw3 Hf3].
  { change (mem (kn w3)) with (phys (hp (kn w3))). rewrite Hh3. split; [by eapply own_words_trans|by eapply foreign_words_trans]. }
  assert (i64 (Z.of_nat (length img)) = Z.of_nat (length img)) as -> by (apply sgn_small; lia).
  pose proof io_max_page. rewrite length_take. right. destruct (decide (Z.of_nat (length img) ≤ io_max)) as [Hle|Hgt].
  - rewrite (proj2 (Z.eqb_eq _ _)) by lia. cbn [negb]. destruct (close_last _ O (kn w3) p Hi3 Hr0) as (k4 & -> & Hok4 & Hp4 & Hs4 & Hfl4 & Hw4 & Hf4).
    cbn [mbind outcome_bind]. eexists _, _, node. split; [done|]. split; [|left; split; [done|]].
    + constructor; cbn [kn set_kn]; [by rewrite Hs4, Hs3|by rewrite Hp4, Hp3|congruence|by eapply own_words_trans|by eapply foreign_words_trans].
    + exists blk, n. assert (Z.min (Z.of_nat (length img)) io_max = Z.of_nat (length img)) as -> by lia. rewrite Nat2Z.id, firstn_all. done.
  - rewrite (proj2 (Z.eqb_neq _ _)) by lia. cbn [negb]. unfold free_block.
    destruct (kfree_inv _ _ _ _ _ _ Hi3) as (h4 & -> & Hi4 & Hw4 & Hf4). cbn [mbind outcome_bind].
    destruct (close_last _ O (set_hp h4 (kn w3)) p Hi4 Hr0) as (k5 & -> & Hok5 & Hp5 & Hs5 & Hfl5 & Hw5 & Hf5). cbn [mbind outcome_bind].
    eexists _, _, node. split; [done|]. split; [|right; split_and!; [lia|done|done]].
    constructor; cbn [kn set_kn]; [by rewrite Hs5; cbn; rewrite Hs3|by rewrite Hp5; cbn; rewrite Hp3|rewrite Hfl5; cbn [files set_hp]; congruence| |].
    + eapply own_words_trans; [exact Hw3|by eapply own_words_trans].
    + eapply foreign_words_trans; [exact Hf3|by eapply foreign_words_trans].
Qed.

Lemma user_string_fit root a s A l : owned s (user_frames s root ++ A) → copy_user_str root a ARG_LEN s = Some l →
  (length l < ARG_LEN)%nat ∧ Forall (λ b, 0 ≤ b < 256) l.
Proof.
  intros Ho E. pose proof (copy_user_str_correct root a ARG_LEN s A Ho ltac:(unfold ARG_LEN; lia)) as Hc. cbn zeta in Hc. rewrite E in Hc.
  destruct Hc as (Hl & Hb & _). split; [done|]. apply Forall_lookup. intros i b Hi.
  destruct (Hb i (lookup_lt_Some _ _ _ Hi)) as [Hp _]. rewrite Hp in Hi. injection Hi as <-. apply nth_byte_range.
Qed.

Lemma user_args_fit root uargv s A n : owned s (user_frames s root ++ A) → ∀ i,
  (length (user_args n root uargv i s) ≤ n)%nat ∧
  Forall (λ a, (length a < ARG_LEN)%nat ∧ Forall (λ b, 0 ≤ b < 256) a) (user_args n root uargv i s).
Proof.
  intros Ho. induction n as [|n IH]; intros i; cbn [user_args]; [by split|].
  destruct (user_arg root uargv i s) as [l|] eqn:E; [|cbn; by split; [lia|]]. destruct (IH (Datatypes.S i)) as [Hl Hf]. cbn [length]. split; [lia|].
  constructor; [|done]. unfold user_arg in E. destruct (copy_from_user _ _ _ _); [|done]. cbn [mbind option_bind] in E.
  destruct (_ =? 0); [done|]. by eapply user_string_fit.
Qed.

Lemma exec_argv_fit root uargv s A : owned s (user_frames s root ++ A) → args_fit (exec_argv root uargv s).
Proof. intros Ho. unfold exec_argv. destruct (_ && _); [by apply (user_args_fit root uargv s A ARG_MAX Ho)|]. by split; [cbn; lia|]. Qed.

(** What is left after the file has been read may be too little for the
    program. *)
Definition short_of_frames (path img : list Z) w : Prop :=
  ∃ blk w1, read_image path w = Ret (Image blk img, w1) ∧ avail (mem (kn w1)) < exec_need img.

End calls.

(** ** Example *)
Module ExecDemo.
(** A read-only file system with one file. *)
#[global] Instance rom : FileSys (list Z) unit := {|
  fs_lookup _ f := Ret (0, Some (V_REG, Z.of_nat (length f), tt), f);
  fs_getdent _ c f := Ret (-1, c, None, f);
  fs_read _ off k f := let data := take (Z.to_nat (Z.min k 65536)) (drop (Z.to_nat off) f) in Ret (Z.of_nat (length data), data, f);
  fs_write nd _ _ _ f := Ret (-1, nd, f);
  fs_create _ f := Ret (-1, f);
  fs_mkdir _ f := Ret (-1, f);
  fs_unlink _ f := Ret (-1, f);
  fs_rmdir _ f := Ret (-1, f);
  fs_rename _ _ f := Ret (-1, f);
|}.

#[global, refine] Instance rom_laws : FileLaws (list Z) unit := {|
  fs_ok _ := True;
  io_max := 65536;
  size_max := 2 ^ 32;
  stores f _ bytes := f = bytes ∧ Z.of_nat (length bytes) < 2 ^ 32;
  apart _ _ _ := True;
  full _ := True;
|}.
Proof.
  - lia.
  - lia.
  - by intros f nd bytes [_ ?].
  - intros f nd bytes off k _ [-> Hl] _ _ _ data. by exists bytes.
  - intros f nd bytes off buf _ [-> Hl] _ _ _ _. exists (-1), nd, bytes. split_and!; [done|done|by intros nd2 b2|left; by split_and!].
Defined.

(** The process of [TaskDemo] runs the program of [ElfDemo]. *)
Definition w0 : sys pmm_state (list Z) unit :=
  Sys (TaskDemo.k_of _) [Mounted fat32_ops 1 [SLASH] true] true ElfDemo.img ConsoleDemo.k0 InputDemo.k0 [].

Lemma window0 : window_ok 0x50000 TaskDemo.s5 ∧ fixmap TaskDemo.s5 = [].
Proof.
  split; [|vm_compute; reflexivity]. assert (FIX_SLOT < base_addr TaskDemo.s5) as Hb by by_eval. assert (FIX_SLOT = 0x54380) as Hs by by_eval.
  constructor; [intros [Hx _]; lia|intros i Hi; lia].
Qed.

Lemma slots0 : kernel_slots TaskDemo.s5 VmmDemo.root.
Proof.
  intros i Hi Hne. rewrite (kp_slots _ _ _ _ TaskDemo.s5_kept i) by (lia || exact Hne).
  rewrite (proj2 VmmDemo.s3_owned i) by (lia || exact Hne). reflexivity.
Qed.

Lemma found0 : found [] ElfDemo.img w0.
Proof. constructor. exists tt, w0. split; [reflexivity|]. split; [exact I|]. split; [reflexivity|by_eval]. Qed.
End ExecDemo.

