(* ===== verification/Mount.v ===== *)
(** Block devices at boot and the root file system ([blk_register],
    [blk_list_all] and [vfs_try_mount_disk] of [kernel/fs/vfs.c],
    [mbr_type_name] of [kernel/fs/mbr.c]).

    The boot log is left out.  It writes to the console only, with one
    exception: the message about a partition ([%02X] and [%s]) takes the type of
    the partition for the address of a string, as [mount_message_misreads] of
    [PrintFacts] shows, and reads memory there.  The model goes on behind the
    message, as the kernel does when that address is mapped. *)
From stdpp Require Import strings.
From S2P Require Import Prelude Bytes Cstring Pmm PmmFacts PmmInit Frames Kheap Vmm UserMem Sched Proc Signal.
From S2P Require Import BlkDev BlkCache Journal Mbr FatName FatTable FatDir Input Ansi Fb Console Vfs.

(** ** Registered devices *)

Record blkdev (D : Type) := Blkdev { b_name : list Z; b_sector_size : Z; b_num_sectors : Z; b_drv : D }.
Arguments Blkdev {D}.
Arguments b_name {D}.
Arguments b_sector_size {D}.
Arguments b_num_sectors {D}.
Arguments b_drv {D}.

Definition BLK_MAX : nat := 8.

(** [blk_list] with [blk_count], and [blk_first]. *)
Record blk_registry (D : Type) := BlkRegistry { blk_list : list (blkdev D); blk_first : option (blkdev D) }.
Arguments BlkRegistry {D}.
Arguments blk_list {D}.
Arguments blk_first {D}.

Definition blk_register {D} (b : blkdev D) (r : blk_registry D) : blk_registry D :=
  BlkRegistry (if (length (blk_list r) <? BLK_MAX)%nat then blk_list r ++ [b] else blk_list r)
    (if blk_first r is None then Some b else blk_first r).

(** The 28 bytes that describe a device: 16 of name, the sector size and the
    number of sectors. *)
Definition blk_record {D} (b : blkdev D) : list Z :=
  let name := take 15 (b_name b) in
  let tmp := name ++ replicate (28 - length name) 0 in
  put32 24 (Z.shiftr (b_num_sectors b) 32) (put32 20 (b_num_sectors b) (put32 16 (b_sector_size b) tmp)).

Section list_all.
Context {S D : Type} `{Frames S}.

(** The loop of [blk_list_all]: [i] records are stored; [root] is the page
    table of the caller. *)
Fixpoint blk_list_loop (root ubuf : Z) (bs : list (blkdev D)) (i : Z) (m : S) : Z * S :=
  match bs with
  | [] => (i, m)
  | b :: bs =>
      match copy_to_user root (u64 (ubuf + i * 28)) (blk_record b) m with
      | None => (i, m)
      | Some m => blk_list_loop root ubuf bs (i + 1) m
      end
  end.

Definition blk_list_all (root ubuf max : Z) (r : blk_registry D) (m : S) : Z * S :=
  let n := if Z.of_nat (length (blk_list r)) <? max then Z.of_nat (length (blk_list r)) else max in
  if n <? 0 then (n, m) else blk_list_loop root ubuf (take (Z.to_nat n) (blk_list r)) 0 m.
End list_all.

(** ** Partition types *)

Definition PART_TYPE_FAT32 : Z := 0x0B.
Definition PART_TYPE_FAT32_LBA : Z := 0x0C.

Definition mbr_type_name (t : Z) : string :=
  if t =? PART_TYPE_NONE then "Empty" else
  if t =? 0x01 then "FAT12" else
  if t =? 0x04 then "FAT16 (<32MB)" else
  if t =? PART_TYPE_EXTENDED then "Extended" else
  if t =? 0x06 then "FAT16" else
  if t =? PART_TYPE_FAT32 then "FAT32" else
  if t =? PART_TYPE_FAT32_LBA then "FAT32 LBA" else
  if t =? 0x0E then "FAT16 LBA" else
  if t =? PART_TYPE_EXT_LBA then "Extended LBA" else
  if t =? 0x83 then "Linux (ext2/3/4)" else
  if t =? 0x82 then "Linux Swap" else "Unknown".

(** ** Mounting the root *)

(** What the driver may be mounted on: the disk or one of its partitions. *)
Inductive vdev (D : Type) := Whole (d : D) | PartOf (pd : part_dev D).
Arguments Whole {D}.
Arguments PartOf {D}.

#[global] Instance vdev_eq {D} `{EqDecision D} : EqDecision (vdev D).
Proof. solve_decision. Defined.

#[global] Instance vdev_disks {W D} `{Disks W D} : Disks W (vdev D) := {
  dev_read v := match v with Whole d => dev_read d | PartOf pd => part_read pd end;
  dev_write v := match v with Whole d => dev_write d | PartOf pd => part_write pd end;
}.

Section mount.
Context {W D : Type} `{EqDecision D} `{Disks W D}.

(** What an attempt to mount finds: whether [kmalloc] delivers the device, its
    private part and the table, and what the buffers hold before. *)
Record attempt := Attempt { at_dev : bool; at_pd : bool; at_fat : bool; at_buf : sector; at_fatbuf : list sector }.

(** The root of the tree: the mounted volume with its journal ([fat_priv]),
    the table of mounts and [disk_ready]. *)
Record vroot := Vroot {
  vol : option (fat_mount (vdev D) * journal (vdev D));
  rmounts : list mounted_fs;
  rready : bool;
}.

Definition DISK_PREFIX : list Z := [SLASH].
Definition FAT_PRIV : Z := 1. (* the pointer [fat_mount] returns; not null *)

Definition mounted_root (m : fat_mount (vdev D)) (j : journal (vdev D)) (v : vroot) : vroot :=
  Vroot (Some (m, j)) (register_mount fat32_ops FAT_PRIV DISK_PREFIX (rmounts v)).2 true.

(** The loop over the partitions, from [i] on; [Some] when one was mounted. *)
Fixpoint mount_parts (k : nat) (env : nat → attempt) (b : blkdev (D)) (mbr : mbr_info (vdev D)) (j : journal (vdev D)) (i : nat)
    (v : vroot) (st : blk_state W (vdev D)) : option vroot * blk_state W (vdev D) :=
  match k with
  | O => (None, st)
  | Datatypes.S k =>
      let next := mount_parts k env b mbr j (Datatypes.S i) v in
      let p := parts mbr i in
      if p_type p =? PART_TYPE_NONE then next st else
      let e := env (Datatypes.S i) in
      if negb (at_dev e) then next st else
      if negb (at_pd e) then next st else
      let pd := PartDev (b_drv b) (p_lba_first p) (p_sectors_count p) in
      if (p_type p =? PART_TYPE_FAT32) || (p_type p =? PART_TYPE_FAT32_LBA) then
        let '(r, st) := fat_mount_dev (PartOf pd) (b_sector_size b) (p_sectors_count p) (at_fat e) (at_buf e) (at_fatbuf e) j st in
        match r with
        | Some (m, j) => (Some (mounted_root m j v), (blk_cache_flush (Whole (b_drv b)) st).2)
        | None => next st
        end
      else next st
  end.

Definition vfs_try_mount_disk (env : nat → attempt) (first : option (blkdev D)) (j : journal (vdev D)) (v : vroot)
    (st : blk_state W (vdev D)) : Z * vroot * blk_state W (vdev D) :=
  match first with
  | None => (LNXRM_EFAIL, v, st)
  | Some b =>
      let disk := Whole (b_drv b) in
      let st := (blk_cache_flush disk st).2 in
      let e := env 0%nat in
      let '(r, st) := fat_mount_dev disk (b_sector_size b) (b_num_sectors b) (at_fat e) (at_buf e) (at_fatbuf e) j st in
      match r with
      | Some (m, j) => (0, mounted_root m j v, (blk_cache_flush disk st).2)
      | None =>
          let '(r, mbr, w) := mbr_parse disk (b_num_sectors b) (at_buf e) (world st) in
          let st := set_world w st in
          if (r =? 0) && (0 <? part_count mbr)%nat then
            let '(o, st) := mount_parts (part_count mbr) env b mbr j 0 v st in
            match o with
            | Some v => (0, v, st)
            | None => if rready v then (0, v, (blk_cache_flush disk st).2) else (LNXRM_EFAIL, v, st)
            end
          else (LNXRM_EFAIL, v, st)
      end
  end.
End mount.
