(* ===== verification/MountFacts.v ===== *)
(** The root file system: which device it is mounted on, and that it then
    receives every path; the list of devices a program sees. *)
From S2P Require Import Prelude Bytes Cstring Pmm PmmFacts PmmInit Frames Kheap Vmm UserMem Sched Proc Signal.
From S2P Require Import BlkDev BlkCache Journal Mbr FatName FatTable FatTableFacts FatDir Input Ansi Fb Console Vfs VfsFacts Mount.

#[local] Opaque CACHE_ENTRIES.

Lemma fat_mount_dev_of {W D} `{EqDecision D} `{Disks W D} (d : D) ss num al buf fb j (st : blk_state W D) m j' st' :
  fat_mount_dev d ss num al buf fb j st = (Some (m, j'), st') → fm_dev m = d ∧ jdev j' = d.
Proof.
  unfold fat_mount_dev. destruct (dev_read d 0 1 [buf] (world st)) as [[r secs] w]. destruct (negb (r =? 0)); [done|].
  destruct (bpb_mount d ss num _) as [m0|] eqn:Eb; [|done]. destruct al; [|done]. cbn [negb].
  destruct (dev_read d _ _ fb _) as [[r2 secs2] w2]. destruct (negb (r2 =? 0)); [done|].
  destruct (dev_read d 0 1 _ _) as [[? ?] w3]. destruct (dev_read d (data_start_lba m0) 1 _ _) as [[? ?] w4].
  intros [= <- <- _]. split; [|done]. cbn [set_fat fm_dev].
  unfold bpb_mount in Eb. repeat case_match; by simplify_eq.
Qed.

Section mount.
Context {W D : Type} `{EqDecision D} `{Disks W D}.
Implicit Types (st : blk_state W (vdev D)) (v : vroot (D := D)).

(** The partition [i] of the table, as a device. *)
Definition part_of (b : blkdev D) (mbr : mbr_info (vdev D)) (i : nat) : part_dev D :=
  PartDev (b_drv b) (p_lba_first (parts mbr i)) (p_sectors_count (parts mbr i)).
Definition is_fat32 (p : part) : Prop := p_type p = PART_TYPE_FAT32 ∨ p_type p = PART_TYPE_FAT32_LBA.

Lemma mount_parts_spec k env b mbr j i v st v' st' :
  mount_parts k env b mbr j i v st = (Some v', st') →
  ∃ q m j', (i ≤ q < i + k)%nat ∧ is_fat32 (parts mbr q) ∧ v' = mounted_root m j' v ∧
    fm_dev m = PartOf (part_of b mbr q) ∧ jdev j' = PartOf (part_of b mbr q).
Proof.
  revert i st. induction k as [|k IH]; intros i st; cbn [mount_parts]; [done|].
  assert (∀ st, mount_parts k env b mbr j (S i) v st = (Some v', st') →
    ∃ q m j', (i ≤ q < i + S k)%nat ∧ is_fat32 (parts mbr q) ∧ v' = mounted_root m j' v ∧
      fm_dev m = PartOf (part_of b mbr q) ∧ jdev j' = PartOf (part_of b mbr q)) as Hnext.
  { intros st1 (q & m & j' & Hq & Hr)%IH. exists q, m, j'. split; [lia|done]. }
  destruct (_ =? PART_TYPE_NONE); [apply Hnext|]. destruct (at_dev _); [|apply Hnext]. destruct (at_pd _); [|apply Hnext].
  cbn [negb]. destruct ((p_type (parts mbr i) =? PART_TYPE_FAT32) || _) eqn:Et; [|apply Hnext].
  destruct (fat_mount_dev _ _ _ _ _ _ _ _) as [[[m j']|] st1] eqn:Em; [|apply Hnext]. intros [= <- <-].
  apply fat_mount_dev_of in Em as [Hd Hj]. exists i, m, j'. split; [lia|]. split_and!; try done.
  unfold is_fat32. bool_split; tauto.
Qed.

(** C21. Mounting the root on a fresh system.  It fails, and then changes nothing
    but the cache and the devices' state, or it mounts exactly one volume at
    [/]: the whole first disk, or a partition of its table with one of the two
    FAT32 types and the extent the table gives it.  The journal works on the
    same device, and every absolute path is routed to the driver with its
    leading slashes removed. *)
Theorem vfs_mount_root_correct env first j st r v' st' :
  vfs_try_mount_disk env first j (Vroot None [] false) st = (r, v', st') →
  (r = LNXRM_EFAIL ∧ v' = Vroot None [] false) ∨
  (r = 0 ∧ ∃ b m j', first = Some b ∧ vol v' = Some (m, j') ∧ rready v' = true ∧ jdev j' = fm_dev m ∧
    rmounts v' = [Mounted fat32_ops FAT_PRIV [SLASH] true] ∧
    (∀ path, fs_for_path (rmounts v') (SLASH :: path) = Some (fat32_ops, skip_slashes path)) ∧
    (fm_dev m = Whole (b_drv b) ∨
     ∃ e st1 mbr w q, mbr_parse (Whole (b_drv b)) (b_num_sectors b) (at_buf e) (world st1) = (0, mbr, w) ∧
       (q < part_count mbr)%nat ∧ is_fat32 (parts mbr q) ∧ fm_dev m = PartOf (part_of b mbr q))).
Proof.
  unfold vfs_try_mount_disk. destruct first as [b|]; [|intros [= <- <- <-]; by left].
  destruct (fat_mount_dev _ _ _ _ _ _ _ _) as [[[m j']|] st1] eqn:Em.
  { intros [= <- <- <-]. apply fat_mount_dev_of in Em as [Hd Hj]. right. split; [done|]. exists b, m, j'.
    split_and!; try done; [congruence|by left]. }
  destruct (mbr_parse _ _ _ _) as [[r1 mbr] w] eqn:Ep. destruct ((r1 =? 0) && _) eqn:Er; [|intros [= <- <- <-]; by left].
  apply andb_prop in Er as [->%Z.eqb_eq _].
  destruct (mount_parts _ _ _ _ _ _ _ _) as [[v1|] st2] eqn:Emp; [|intros [= <- <- <-]; by left].
  intros [= <- <- <-]. apply mount_parts_spec in Emp as (q & m & j' & Hq & Hf & -> & Hd & Hj). right. split; [done|]. exists b, m, j'.
  split_and!; try done; [congruence|]. right. exists (env 0%nat), st1, mbr, w, q. split_and!; [exact Ep|lia|done|done].
Qed.
End mount.

(** ** The list of devices *)

Section registry.
Context {D : Type}.

(** Devices registered at boot, in order. *)
Definition register_all (bs : list (blkdev D)) : blk_registry D := foldl (λ r b, blk_register b r) (BlkRegistry [] None) bs.

(** However many devices are registered, the list holds the first eight, in
    order, and the first one is the disk the root is mounted from. *)
Theorem blk_register_bounded (bs : list (blkdev D)) :
  blk_list (register_all bs) = take BLK_MAX bs ∧ blk_first (register_all bs) = bs !! 0%nat.
Proof.
  unfold register_all. induction bs as [|b bs IH] using rev_ind; [done|]. rewrite foldl_app. cbn [foldl].
  destruct IH as [IH1 IH2]. set (r := foldl _ _ bs) in *. unfold blk_register. rewrite IH1, IH2. cbn [blk_list blk_first]. rewrite length_take. split.
  - destruct (Nat.ltb_spec (Nat.min BLK_MAX (length bs)) BLK_MAX).
    + rewrite !take_ge by (rewrite ?length_app; simpl; lia). done.
    + by rewrite take_app_le by lia.
  - destruct bs; done.
Qed.
End registry.

(** A disk whose second partition, from sector 8 on, is the demonstration
    volume. *)
Module MountDemo.
Definition table : list mbr_entry := [MbrEntry 0 0x82 2 4; MbrEntry 0x80 0x0C 8 64; MbrEntry 0 0 0 0; MbrEntry 0 0 0 0].
Definition disk : ramdisk :=
  Ramdisk 72 [] (λ l, if l =? 0 then mbr_image table (replicate 512 0)
                      else if l <? 8 then replicate 512 0 else sectors FatDemo.disk (l - 8)).
Definition st0 : blk_state ramdisk (vdev unit) :=
  blk_cache_init (Whole tt) (BlkState (λ _, Entry 0 [] true true true (Whole tt)) disk).
Definition j0 : journal (vdev unit) := Journal 0 (λ _, JEntry 0 [] false) 0 false (Whole tt).
Definition hda : blkdev unit := Blkdev [104; 100; 97] 512 72 tt.
Definition mounted := vfs_try_mount_disk (λ _, Attempt true true true [] []) (Some hda) j0 (Vroot None [] false) st0.
End MountDemo.

Lemma vfs_mount_root_correct_witness :
  ∃ m j', vol MountDemo.mounted.1.2 = Some (m, j') ∧ fm_dev m = PartOf (PartDev tt 8 64) ∧
    fs_for_path (rmounts MountDemo.mounted.1.2) [SLASH; 98] = Some (fat32_ops, [98]).
Proof.
  assert (MountDemo.mounted.1.1 = 0) as H0 by (vm_compute; reflexivity).
  assert (fm_dev <$> (fst <$> vol MountDemo.mounted.1.2) = Some (PartOf (PartDev tt 8 64))) as Hd by (vm_compute; reflexivity).
  destruct MountDemo.mounted as [[r v'] st'] eqn:E. cbn [fst snd] in *. subst r.
  destruct (vfs_mount_root_correct _ _ _ _ _ _ _ E) as [[Hr _]|(_ & b & m & j' & _ & Hv & _ & _ & _ & Hp & _)]; [discriminate Hr|].
  exists m, j'. split; [exact Hv|]. split; [|exact (Hp [98])]. rewrite Hv in Hd. cbn in Hd. congruence.
Defined.
