(* ===== verification/Boot.v ===== *)
(** What the boot loader left in memory ([boot_collect_e820], [boot_read_vbe],
    [boot_read_cmdline] of [kernel/main.c], the structures of [include/boot.h]),
    and the first steps of [start_kernel], which keep the frame allocator away
    from the framebuffer.

    [m] is physical memory, byte by byte.  The fields [memory_model] and [mode]
    of [struct fb_info] are only printed and are left out. *)
From S2P Require Import Prelude Pmm PmmFacts PmmInit Frames Fb.

(** ** Fields of packed structures *)

Definition rd16 (m : Z → Z) (a : Z) : Z := m a + 2 ^ 8 * m (a + 1).
Definition rd32 (m : Z → Z) (a : Z) : Z := rd16 m a + 2 ^ 16 * rd16 m (a + 2).
Definition rd64 (m : Z → Z) (a : Z) : Z := rd32 m a + 2 ^ 32 * rd32 m (a + 4).

(** The address of the loader's parameters, 0 when [setup.asm] ran. *)
Definition GRUB_PARAMS : Z := 0x6F00.
Definition E820_COUNT_ADDR : Z := 0x6FFC.
Definition E820_TABLE_ADDR : Z := 0x7000.
Definition VBE_FB_INFO_ADDR : Z := 0x8C00.
Definition CMDLINE_QEMU_PA : Z := 0x20000.
Definition MAP_MAX : Z := 64.

(** ** The memory map *)

Definition e820_at (m : Z → Z) (a : Z) : e820_entry := E820 (rd64 m a) (rd64 m (a + 8)) (rd32 m (a + 16)).

(** [n] entries are left, [i] is the index of the next one, [map] is
    [bootinfo.map] up to [map_len]. *)
Fixpoint e820_loop (m : Z → Z) (src : Z) (n i : nat) (map : list e820_entry) : list e820_entry :=
  match n with
  | O => map
  | S n =>
      let e := e820_at m (src + 20 * Z.of_nat i) in
      e820_loop m src n (S i) (if e_size e =? 0 then map else map ++ [e])
  end.

Definition cap_map (n : Z) : Z := if MAP_MAX <? n then MAP_MAX else n.

Definition boot_collect_e820 (m : Z → Z) : list e820_entry :=
  let p := rd64 m GRUB_PARAMS in
  if negb (p =? 0) then e820_loop m (p + 0x2d0) (Z.to_nat (cap_map (m (p + 0x1e8)))) 0 []
  else e820_loop m E820_TABLE_ADDR (Z.to_nat (cap_map (rd32 m E820_COUNT_ADDR))) 0 [].

(** ** The framebuffer *)

Definition no_fb : fb_info := FbInfo 0 0 0 0 0 false 0 0 0 0 0 0.

(** [struct screen_lfb] and [struct vbe_lfb_info]. *)
Definition screen_info (m : Z → Z) (si : Z) : fb_info :=
  let base := rd32 m (si + 0x18) in
  let width := rd16 m (si + 0x12) in
  let height := rd16 m (si + 0x14) in
  let depth := rd16 m (si + 0x16) in
  let line := rd16 m (si + 0x24) in
  FbInfo (Z.lor base (Z.shiftl (rd32 m (si + 0x3a)) 32)) width height line (u8 depth)
    (negb (base =? 0) && negb (width =? 0) && negb (height =? 0) && negb (depth =? 0) && negb (line =? 0))
    (m (si + 0x27)) (m (si + 0x26)) (m (si + 0x29)) (m (si + 0x28)) (m (si + 0x2b)) (m (si + 0x2a)).

Definition vbe_info (m : Z → Z) (v : Z) : fb_info :=
  if m (v + 0x0d) =? 0 then no_fb else
  FbInfo (rd32 m v) (rd16 m (v + 8)) (rd16 m (v + 10)) (rd32 m (v + 4)) (m (v + 12)) true
    (m (v + 15)) (m (v + 16)) (m (v + 17)) (m (v + 18)) (m (v + 19)) (m (v + 20)).

Definition bogus_lfb (f : fb_info) : bool :=
  let bytespp := (i_bpp f + 7) / 8 in
  (phys_addr f =? 0) || (i_width f =? 0) || (i_height f =? 0) || (i_pitch f =? 0) || (8192 <? i_width f) ||
  (8192 <? i_height f) || (i_pitch f <? u32 (i_width f * bytespp)) || (u32 (i_width f * 8) <? i_pitch f) ||
  (negb (i_bpp f =? 8) && negb (i_bpp f =? 15) && negb (i_bpp f =? 16) && negb (i_bpp f =? 24) && negb (i_bpp f =? 32)).

Definition boot_read_vbe (m : Z → Z) : fb_info :=
  let p := rd64 m GRUB_PARAMS in
  let f := if negb (p =? 0) then screen_info m p else vbe_info m VBE_FB_INFO_ADDR in
  if negb (i_ok f) then f else if bogus_lfb f then no_fb else f.

(** ** The command line *)

Fixpoint cmdline_loop (m : Z → Z) (s : Z) (n i : nat) : list Z :=
  match n with
  | O => []
  | S n => let c := m (s + Z.of_nat i) in if c =? 0 then [] else c :: cmdline_loop m s n (S i)
  end.

Definition boot_read_cmdline (m : Z → Z) : list Z :=
  let p := rd64 m GRUB_PARAMS in
  let ptr := if negb (p =? 0) then rd32 m (p + 0x228) else 0 in
  cmdline_loop m (if ptr =? 0 then CMDLINE_QEMU_PA else ptr) 511 0.

(** ** The frame allocator at boot *)

Definition boot_resv (f : fb_info) : list (Z * Z) :=
  if i_ok f && negb (phys_addr f =? 0)
  then pmm_reserve (phys_addr f) (u64 (phys_addr f + i_pitch f * i_height f)) [] else [].

(** [fr] and [bi] are what memory held before. *)
Definition boot_pmm (m : Z → Z) (bss_end : Z) (fr bi : Z → Z) : option pmm_state :=
  pmm_init (boot_collect_e820 m) bss_end (boot_resv (boot_read_vbe m)) fr bi.

(** ** Facts *)

Section boot.
Context (m : Z → Z) (Hm : ∀ a, 0 ≤ m a < 2 ^ 8).

Lemma rd16_range a : 0 ≤ rd16 m a < 2 ^ 16.
Proof using Hm. unfold rd16. pose proof (Hm a). pose proof (Hm (a + 1)). lia. Qed.
Lemma rd32_range a : 0 ≤ rd32 m a < 2 ^ 32.
Proof using Hm. unfold rd32. pose proof (rd16_range a). pose proof (rd16_range (a + 2)). lia. Qed.
Lemma rd64_range a : 0 ≤ rd64 m a < 2 ^ 64.
Proof using Hm. unfold rd64. pose proof (rd32_range a). pose proof (rd32_range (a + 4)). lia. Qed.

(** An entry of the collected map. *)
Definition entry_ok (e : e820_entry) : Prop := 0 ≤ e_addr e < 2 ^ 64 ∧ 0 < e_size e < 2 ^ 64.

Lemma e820_loop_ok src n : ∀ i map, Forall entry_ok map →
  Forall entry_ok (e820_loop m src n i map) ∧ (length (e820_loop m src n i map) ≤ length map + n)%nat.
Proof using Hm.
  induction n as [|n IH]; intros i map Hmap; cbn [e820_loop]; [split; [done|lia]|].
  set (a := src + _). pose proof (rd64_range a). pose proof (rd64_range (a + 8)).
  destruct (Z.eqb_spec (e_size (e820_at m a)) 0) as [|Hne]; [destruct (IH (S i) map Hmap); split; [done|lia]|].
  destruct (IH (S i) (map ++ [e820_at m a])) as [H1 H2].
  { apply Forall_app_2; [done|]. constructor; [|done]. unfold entry_ok, e820_at in *. cbn in *. lia. }
  split; [done|]. rewrite length_app in H2. cbn in H2. lia.
Qed.

(** The map fits the array of 64 entries. *)
Lemma boot_map_ok : Forall entry_ok (boot_collect_e820 m) ∧ (length (boot_collect_e820 m) ≤ 64)%nat.
Proof using Hm.
  assert (∀ n, (Z.to_nat (cap_map n) ≤ 64)%nat) as Hcap.
  { intros n. unfold cap_map, MAP_MAX. destruct (Z.ltb_spec 64 n); lia. }
  unfold boot_collect_e820. destruct (negb _).
  - destruct (e820_loop_ok (rd64 m GRUB_PARAMS + 0x2d0) (Z.to_nat (cap_map (m (rd64 m GRUB_PARAMS + 0x1e8)))) 0 []) as [H1 H2]; [done|].
    split; [done|]. cbn [length] in H2. pose proof (Hcap (m (rd64 m GRUB_PARAMS + 0x1e8))). lia.
  - destruct (e820_loop_ok E820_TABLE_ADDR (Z.to_nat (cap_map (rd32 m E820_COUNT_ADDR))) 0 []) as [H1 H2]; [done|].
    split; [done|]. cbn [length] in H2. pose proof (Hcap (rd32 m E820_COUNT_ADDR)). lia.
Qed.

Lemma cmdline_ok s n : ∀ i, let l := cmdline_loop m s n i in
  (length l ≤ n)%nat ∧ (∀ j c, l !! j = Some c → c = m (s + Z.of_nat (i + j)) ∧ c ≠ 0) ∧
  ((length l < n)%nat → m (s + Z.of_nat (i + length l)) = 0).
Proof.
  induction n as [|n IH]; intros i l; subst l; cbn [cmdline_loop]; [split_and!; [done|done|cbn; lia]|].
  destruct (Z.eqb_spec (m (s + Z.of_nat i)) 0) as [E|E].
  { split_and!; [cbn; lia|done|]. cbn [length]. by rewrite Nat.add_0_r. }
  destruct (IH (S i)) as (H1 & H2 & H3). cbn [length]. split_and!; [lia| |].
  - intros [|j] c; cbn [lookup list_lookup]; [intros [= <-]; by rewrite Nat.add_0_r|]. intros Hj. apply H2 in Hj. by rewrite Nat.add_succ_r.
  - intros Hl. rewrite Nat.add_succ_r. apply H3. lia.
Qed.

(** A descriptor that is passed on describes a framebuffer the driver can use. *)
Record lfb_ok (f : fb_info) : Prop := {
  lf_addr : 0 < phys_addr f < 2 ^ 64;
  lf_width : 0 < i_width f ≤ 8192;
  lf_height : 0 < i_height f ≤ 8192;
  lf_depth : i_bpp f ∈ [8; 15; 16; 24; 32];
  lf_pitch : i_width f * ((i_bpp f + 7) / 8) ≤ i_pitch f ≤ i_width f * 8;
}.

Lemma screen_addr si : 0 ≤ phys_addr (screen_info m si) < 2 ^ 64.
Proof using Hm.
  cbn [phys_addr screen_info]. pose proof (rd32_range (si + 0x18)). pose proof (rd32_range (si + 0x3a)).
  rewrite Z.shiftl_mul_pow2, Z.lor_comm, (lor_low _ _ 32) by (lia || apply Z.divide_factor_r). lia.
Qed.

Lemma descriptor_range : let p := rd64 m GRUB_PARAMS in
  let f := if negb (p =? 0) then screen_info m p else vbe_info m VBE_FB_INFO_ADDR in
  0 ≤ phys_addr f < 2 ^ 64 ∧ 0 ≤ i_width f < 2 ^ 16 ∧ 0 ≤ i_height f < 2 ^ 16 ∧ 0 ≤ i_pitch f < 2 ^ 32 ∧ 0 ≤ i_bpp f < 2 ^ 8.
Proof using Hm.
  cbn zeta. destruct (negb _).
  - split; [apply screen_addr|]. cbn. pose proof (Z.mod_pos_bound (rd16 m (rd64 m GRUB_PARAMS + 0x16)) (2 ^ 8) ltac:(lia)).
    pose proof (rd16_range (rd64 m GRUB_PARAMS + 0x24)). split_and!; try apply rd16_range; unfold u8; lia.
  - unfold vbe_info. destruct (_ =? 0); [by_eval|]. cbn [phys_addr i_width i_height i_pitch i_bpp].
    pose proof (rd32_range VBE_FB_INFO_ADDR). split_and!; try apply rd16_range; try apply rd32_range; try apply Hm; lia.
Qed.

Lemma bogus_spec f : 0 ≤ phys_addr f < 2 ^ 64 → 0 ≤ i_width f < 2 ^ 16 → 0 ≤ i_height f → 0 ≤ i_bpp f < 2 ^ 8 →
  bogus_lfb f = false → lfb_ok f.
Proof.
  intros Ha Hw Hh Hb Hf. unfold bogus_lfb in Hf.
  assert (0 ≤ (i_bpp f + 7) / 8 ≤ 64) as Hpx by (split; [apply Z.div_pos; lia|apply Z.div_le_upper_bound; lia]).
  rewrite !u32_small in Hf by nia.
  rewrite !orb_false_iff, !Z.eqb_neq, !Z.ltb_ge in Hf. destruct Hf as ((((((((? & ?) & ?) & ?) & ?) & ?) & ?) & ?) & Hd).
  constructor; [lia|lia|lia| |lia].
  rewrite !andb_false_iff, !negb_false_iff, !Z.eqb_eq in Hd. set_solver.
Qed.

Lemma boot_vbe_ok : i_ok (boot_read_vbe m) = true → lfb_ok (boot_read_vbe m).
Proof using Hm.
  pose proof descriptor_range as Hr. cbn zeta in Hr. unfold boot_read_vbe. set (f := if negb (_ =? 0) then _ else _) in *.
  destruct (i_ok f) eqn:E; cbn [negb]; [|congruence]. destruct (bogus_lfb f) eqn:Eb; [done|]. intros _. apply bogus_spec; [lia..|done].
Qed.

(** The address [x] is in the framebuffer. *)
Definition in_lfb (f : fb_info) (x : Z) : Prop :=
  i_ok f = true ∧ phys_addr f ≤ x < phys_addr f + i_pitch f * i_height f.

Lemma boot_resv_spec f a : (i_ok f = true → lfb_ok f) → 0 ≤ a < 2 ^ 32 →
  page_resv (boot_resv f) a = false ↔ ∀ x, x / PAGE_SIZE = a / PAGE_SIZE → ¬ in_lfb f x.
Proof.
  intros Hf Ha. unfold in_lfb, boot_resv. destruct (i_ok f) eqn:E; cbn [andb]; [|split; [by intros _ x _ [? _]|done]].
  destruct (Hf eq_refl) as [Hp Hw Hh Hd Hl]. rewrite (proj2 (Z.eqb_neq (phys_addr f) 0)) by lia. cbn [negb].
  assert (1 ≤ (i_bpp f + 7) / 8) as Hpx by (rewrite !elem_of_cons, elem_of_nil in Hd; destruct Hd as [->|[->|[->|[->|[->|[]]]]]]; by_eval).
  assert (0 < i_pitch f ≤ 2 ^ 16) as Hpi by nia. assert (0 < i_pitch f * i_height f ≤ 2 ^ 29) as Hsz by nia.
  set (size := i_pitch f * i_height f) in *. set (lo := phys_addr f) in *.
  assert (∀ x, x / PAGE_SIZE = a / PAGE_SIZE ↔ a / PAGE_SIZE * PAGE_SIZE ≤ x < a / PAGE_SIZE * PAGE_SIZE + PAGE_SIZE) as Hx.
  { intros x. unfold PAGE_SIZE. pose proof (Z.div_mod x 4096). pose proof (Z.mod_pos_bound x 4096). lia. }
  assert (0 ≤ a / PAGE_SIZE * PAGE_SIZE < 2 ^ 32) as Hpa by (unfold PAGE_SIZE; pose proof (Z.div_mod a 4096); pose proof (Z.mod_pos_bound a 4096); lia).
  unfold page_resv. set (pa := a / PAGE_SIZE * PAGE_SIZE) in *. unfold pmm_reserve. destruct (Z.lt_ge_cases (lo + size) (2 ^ 64)) as [Hlt|Hge].
  - rewrite u64_small, (proj2 (Z.leb_gt _ _)) by lia. cbn [orb length Nat.leb RESV_MAX app resv_hits existsb]. unfold PAGE_SIZE in *.
    rewrite orb_false_r, u64_small, andb_false_iff, !Z.ltb_ge by lia. split.
    + intros Hd' x Hxa [_ Hin]. apply Hx in Hxa. lia.
    + intros Hn. destruct (Z.lt_ge_cases pa (lo + size)); [|by left]. destruct (Z.lt_ge_cases lo (pa + 4096)); [|by right].
      exfalso. apply (Hn (Z.max pa lo)); [apply Hx; lia|split; [done|lia]].
  - assert (u64 (lo + size) = lo + size - 2 ^ 64) as -> by (unfold u64; symmetry; apply (Z.mod_unique _ _ 1); lia).
    rewrite (proj2 (Z.leb_le _ _)) by lia. cbn [orb]. split; [|done]. intros _ x Hxa [_ Hin]. apply Hx in Hxa. unfold PAGE_SIZE in *. lia.
Qed.

(** C16. Whatever the loader left in memory, the allocator starts when the collected
    map has room for the kernel, and it owns exactly the frames of its window
    that hold no byte of the framebuffer; the collected map fits its array and
    the descriptor that is passed on is one the framebuffer driver can use. *)
Theorem boot_frames_correct bss_end fr bi : let map := boot_collect_e820 m in let f := boot_read_vbe m in
  0 ≤ VIRT_TO_PHYS bss_end < 2 ^ 31 → 2 ^ 24 + 2 ^ 21 ≤ (e820_best map).2 →
  (pmm_window map bss_end).1 ≤ (pmm_window map bss_end).2 →
  (length map ≤ 64)%nat ∧ (i_ok f = true → lfb_ok f) ∧
  ∃ s, boot_pmm m bss_end fr bi = Some s ∧ pmm_inv s ∧ (base_addr s, top_addr s) = pmm_window map bss_end ∧
    ∀ a, is_free s a ↔ base_addr s ≤ a < top_addr s ∧ ∀ x, x / PAGE_SIZE = a / PAGE_SIZE → ¬ in_lfb f x.
Proof using Hm.
  intros map f Hb Hmem Hwin. destruct boot_map_ok as [Hmap Hlen]. pose proof boot_vbe_ok as Hf. fold map in Hmap, Hlen. fold f in Hf.
  assert (Forall (λ e, 0 ≤ e_addr e) map) as Hmap' by (eapply Forall_impl; [exact Hmap|intros e [? _]; lia]).
  destruct (pmm_init_spec map bss_end Hmap' Hb Hmem Hwin (boot_resv f) fr bi) as (s & E & Hi & Hw & _ & _ & Hfree).
  pose proof (window_spec map bss_end Hmap' Hb Hmem Hwin) as Hspec. rewrite <- Hw in Hspec.
  split_and!; [done|done|]. exists s. split_and!; [exact E|done|done|]. intros a. rewrite Hfree.
  assert (base_addr s ≤ a < top_addr s → 0 ≤ a < 2 ^ 32) as Ha by lia. pose proof (λ H, boot_resv_spec f a Hf (Ha H)). tauto.
Qed.
End boot.

Module BootDemo.
(** A machine that [setup.asm] has described: 32 MiB of memory above 1 MiB, of
    which 64 KiB at 8 MiB are a 256x64 framebuffer with 32 bits per pixel. *)
Definition table : list (Z * Z) :=
  [(0x6FFC, 1); (0x7002, 0x10); (0x700b, 2); (0x7010, 1); (0x8C02, 0x80); (0x8C05, 4); (0x8C09, 1); (0x8C0A, 64); (0x8C0C, 32); (0x8C0D, 1)].
Definition m (a : Z) : Z := foldr (λ x v, if x.1 =? a then x.2 else v) 0 table.
End BootDemo.

Lemma boot_frames_correct_witness :
  i_ok (boot_read_vbe BootDemo.m) = true ∧ phys_addr (boot_read_vbe BootDemo.m) = 0x800000 ∧
  ∃ s, boot_pmm BootDemo.m (HIGH_BASE + 0x140000) (λ _, 0) (λ _, 0) = Some s ∧ ¬ is_free s 0x80f000 ∧ is_free s 0x810000.
Proof.
  split; [by_eval|]. split; [by_eval|].
  destruct (boot_frames_correct BootDemo.m) with (bss_end := HIGH_BASE + 0x140000) (fr := λ _ : Z, 0) (bi := λ _ : Z, 0)
    as (_ & _ & s & E & _ & Hw & Hf).
  - intros a. unfold BootDemo.m, BootDemo.table. cbn [foldr fst snd]. repeat case_match; lia.
  - by_eval.
  - by_eval.
  - by_eval.
  - exists s. split; [exact E|].
    assert (pmm_window (boot_collect_e820 BootDemo.m) (HIGH_BASE + 0x140000) = (0x340000, 0x1000000)) as Ew by by_eval.
    rewrite Ew in Hw. injection Hw as Hb Ht. rewrite !Hf, Hb, Ht.
    assert (boot_read_vbe BootDemo.m = FbInfo 0x800000 256 64 1024 32 true 0 0 0 0 0 0) as -> by reflexivity. unfold in_lfb. cbn. split.
    + intros [_ Hn]. apply (Hn 0x80f000); [done|]. split; [done|lia].
    + split; [lia|]. intros x Hx [_ Hin]. unfold PAGE_SIZE in Hx. pose proof (Z.div_mod x 4096). pose proof (Z.mod_pos_bound x 4096). change (0x810000 / 4096) with 0x810 in Hx. lia.
Defined.
