(* ===== verification/Ide.v ===== *)
(** The IDE driver ([kernel/drivers/ide.c]).  The controller is outside the
    program: [Ports] are the instructions the driver uses on it, over a world
    [W], [AtaLaws] states what the ATA protocol says of them, and [CleanStatus]
    what the driver needs besides.  Driver and device together are shown to be
    an array of sectors.

    Log messages and the model name, which is only printed, are left out. *)
From stdpp Require Import strings.
From S2P Require Import Prelude Bytes BlkDev Frames Kheap Vmm UserMem Sched Proc Signal Mbr Cstring Ansi Fb Console Print Mount.

Class Ports (W : Type) := {
  inb : Z → W → Z * W;
  outb : Z → Z → W → W;
  inw : Z → W → Z * W;
  outw : Z → Z → W → W;
}.

Definition IDE_DATA : Z := 0x1F0.
Definition IDE_SECCOUNT : Z := 0x1F2.
Definition IDE_LBA_LO : Z := 0x1F3.
Definition IDE_LBA_MID : Z := 0x1F4.
Definition IDE_LBA_HI : Z := 0x1F5.
Definition IDE_DRIVE : Z := 0x1F6.
Definition IDE_STATUS : Z := 0x1F7.
Definition IDE_CMD : Z := 0x1F7.
Definition IDE_SR_BSY : Z := 0x80.
Definition IDE_SR_DRDY : Z := 0x40.
Definition IDE_SR_DRQ : Z := 0x08.
Definition IDE_SR_ERR : Z := 0x01.
Definition IDE_CMD_READ : Z := 0x20.
Definition IDE_CMD_WRITE : Z := 0x30.
Definition IDE_CMD_IDENTIFY : Z := 0xEC.
Definition IDE_TIMEOUT : nat := Z.to_nat 100000.

Definition bit (s b : Z) : bool := negb (Z.land s b =? 0).

(** Sectors as the words that cross the data port. *)
Definition word_at (b : sector) (i : nat) : Z := le16 b (2 * i).
Definition word_bytes (x : Z) : list Z := [u8 x; u8 (x / 2 ^ 8)].
Definition words_of (b : sector) : list Z := word_at b <$> seq 0 256.
Definition bytes_of (ws : list Z) : sector := ws ≫= word_bytes.

Section driver.
Context {W : Type} `{Ports W}.
Implicit Types (w : W).

Fixpoint ide_wait_ready (mask : Z) (timeout : nat) w : Z * W :=
  match timeout with
  | O => (LNXRM_EFAIL, w)
  | S n =>
      let '(s, w) := inb IDE_STATUS w in
      if negb (bit s IDE_SR_BSY) && bit s mask then (0, w) else ide_wait_ready mask n w
  end.

(** [n] rounds are left. *)
Fixpoint wait_drq_loop (n : nat) w : Z * W :=
  match n with
  | O => (LNXRM_EFAIL, w)
  | S n =>
      let '(s, w) := inb IDE_STATUS w in
      if bit s IDE_SR_ERR then (LNXRM_EFAIL, w)
      else if bit s IDE_SR_DRQ then (0, w) else wait_drq_loop n w
  end.
Definition ide_wait_drq w : Z * W := wait_drq_loop IDE_TIMEOUT w.

(** The registers of a one-sector command. *)
Definition ide_command (lba cmd : Z) w : W :=
  let w := outb IDE_SECCOUNT 1 w in
  let w := outb IDE_LBA_LO (u8 lba) w in
  let w := outb IDE_LBA_MID (u8 (Z.shiftr lba 8)) w in
  let w := outb IDE_LBA_HI (u8 (Z.shiftr lba 16)) w in
  let w := outb IDE_DRIVE (Z.lor 0xE0 (Z.land (Z.shiftr lba 24) 0x0F)) w in
  outb IDE_CMD cmd w.

Fixpoint in_words (n : nat) w : list Z * W :=
  match n with
  | O => ([], w)
  | S n => let '(x, w) := inw IDE_DATA w in let '(l, w) := in_words n w in (x :: l, w)
  end.
Fixpoint out_words (l : list Z) w : W :=
  match l with [] => w | x :: l => out_words l (outw IDE_DATA x w) end.

(** The buffer is [b]. *)
Definition ide_read_sector (lba : Z) (b : sector) w : Z * sector * W :=
  let '(r, w) := ide_wait_ready IDE_SR_DRDY IDE_TIMEOUT w in
  if negb (r =? 0) then (LNXRM_EFAIL, b, w) else
  let w := ide_command lba IDE_CMD_READ w in
  let '(r, w) := ide_wait_drq w in
  if negb (r =? 0) then (LNXRM_EFAIL, b, w) else
  let '(l, w) := in_words 256 w in
  (0, bytes_of l, w).

Definition ide_write_sector (lba : Z) (b : sector) w : Z * W :=
  let '(r, w) := ide_wait_ready IDE_SR_DRDY IDE_TIMEOUT w in
  if negb (r =? 0) then (LNXRM_EFAIL, w) else
  let w := ide_command lba IDE_CMD_WRITE w in
  let '(r, w) := ide_wait_drq w in
  if negb (r =? 0) then (LNXRM_EFAIL, w) else
  let w := out_words (words_of b) w in
  (0, (ide_wait_ready IDE_SR_DRDY IDE_TIMEOUT w).2).

(** The place of sector [i] in the buffer: the offset is computed in 32 bits. *)
Definition buf_index (i : nat) : nat := Z.to_nat (u32 (Z.of_nat i * 512) / 512).

(** [num] is [num_sectors] of the device; [n] rounds are left, [i] is the
    counter. *)
Fixpoint ide_read_loop (num lba : Z) (n i : nat) (buf : list sector) w : outcome (Z * list sector * W) :=
  match n with
  | O => Ret (0, buf, w)
  | S n =>
      let l := u64 (lba + Z.of_nat i) in
      if num <=? l then Ret (LNXRM_EFAIL, buf, w) else
      match buf !! buf_index i with
      | None => Stuck
      | Some b =>
          let '(r, b, w) := ide_read_sector l b w in
          let buf := <[buf_index i := b]> buf in
          if negb (r =? 0) then Ret (LNXRM_EFAIL, buf, w) else ide_read_loop num lba n (S i) buf w
      end
  end.
Definition ide_blk_read (num lba count : Z) (buf : list sector) w : outcome (Z * list sector * W) :=
  ide_read_loop num lba (Z.to_nat count) 0 buf w.

Fixpoint ide_write_loop (num lba : Z) (n i : nat) (buf : list sector) w : outcome (Z * W) :=
  match n with
  | O => Ret (0, w)
  | S n =>
      let l := u64 (lba + Z.of_nat i) in
      if num <=? l then Ret (LNXRM_EFAIL, w) else
      match buf !! buf_index i with
      | None => Stuck
      | Some b =>
          let '(r, w) := ide_write_sector l b w in
          if negb (r =? 0) then Ret (LNXRM_EFAIL, w) else ide_write_loop num lba n (S i) buf w
      end
  end.
Definition ide_blk_write (num lba count : Z) (buf : list sector) w : outcome (Z * W) :=
  ide_write_loop num lba (Z.to_nat count) 0 buf w.

(** [hda] is registered with the number of sectors of words 60 and 61. *)
Definition ide_init {D} (drv : D) (reg : blk_registry D) w : blk_registry D * W :=
  let w := outb IDE_DRIVE 0xA0 w in
  let w := outb IDE_CMD IDE_CMD_IDENTIFY w in
  let '(s, w) := inb IDE_STATUS w in
  if s =? 0 then (reg, w) else
  let '(r, w) := ide_wait_ready IDE_SR_DRDY IDE_TIMEOUT w in
  if negb (r =? 0) then (reg, w) else
  let '(ident, w) := in_words 256 w in
  let sectors := le32 (bytes_of ident) 120 in
  (blk_register (Blkdev (str "hda") 512 sectors drv) reg, w).
End driver.

(** ** The device *)

Inductive ata_cmd := ReadSector (lba : Z) | WriteSector (lba : Z) | Identify.
(** [Finishing l b]: the last word of [b] has arrived, and the device is
    writing it to sector [l]. *)
Inductive ata_phase := Idle | Busy (c : ata_cmd) | DataIn (ws : list Z) | DataOut (lba : Z) (got : list Z) | Finishing (lba : Z) (b : sector).

(** The registers, the phase, the sectors and the answer to IDENTIFY; and what
    the device has reported: the number of commands it ended with an error, and
    the sectors it could not write after it had taken their data. *)
Record ata := Ata {
  seccount : Z; lba_lo : Z; lba_mid : Z; lba_hi : Z; drive : Z;
  phase : ata_phase;
  media : Z → sector;
  ident : sector;
  refusals : nat;
  lost : list Z;
}.
Definition set_phase (p : ata_phase) (d : ata) : ata :=
  Ata (seccount d) (lba_lo d) (lba_mid d) (lba_hi d) (drive d) p (media d) (ident d) (refusals d) (lost d).
(** A command has ended with an error. *)
Definition refuse (d : ata) : ata :=
  Ata (seccount d) (lba_lo d) (lba_mid d) (lba_hi d) (drive d) Idle (media d) (ident d) (S (refusals d)) (lost d).
(** A sector has been written; or the device has found that it cannot, and the
    sector has some contents. *)
Definition finish (l : Z) (b : sector) (bad : bool) (d : ata) : ata :=
  Ata (seccount d) (lba_lo d) (lba_mid d) (lba_hi d) (drive d) Idle (<[l := b]> (media d)) (ident d) (refusals d)
    (if bad then l :: lost d else lost d).

(** The sector that the registers name, in LBA mode. *)
Definition lba28 (d : ata) : Z := lba_lo d + 2 ^ 8 * lba_mid d + 2 ^ 16 * lba_hi d + 2 ^ 24 * (drive d mod 16).

(** What a store to a register of the command block does to an idle device. *)
Definition reg_write (p v : Z) (d : ata) : ata :=
  let '(Ata n lo mid hi dr ph m id rf ls) := d in
  if p =? IDE_SECCOUNT then Ata v lo mid hi dr ph m id rf ls
  else if p =? IDE_LBA_LO then Ata n v mid hi dr ph m id rf ls
  else if p =? IDE_LBA_MID then Ata n lo v hi dr ph m id rf ls
  else if p =? IDE_LBA_HI then Ata n lo mid v dr ph m id rf ls
  else if p =? IDE_DRIVE then Ata n lo mid hi v ph m id rf ls
  else if p =? IDE_CMD then
    if (v =? IDE_CMD_READ) && (n =? 1) && (Z.land dr 0x50 =? 0x40) then Ata n lo mid hi dr (Busy (ReadSector (lba28 d))) m id rf ls
    else if (v =? IDE_CMD_WRITE) && (n =? 1) && (Z.land dr 0x50 =? 0x40) then Ata n lo mid hi dr (Busy (WriteSector (lba28 d))) m id rf ls
    else if v =? IDE_CMD_IDENTIFY then Ata n lo mid hi dr (Busy Identify) m id rf ls
    else d
  else d.

(** The phase in which a command moves its data. *)
Definition data_phase (c : ata_cmd) (d : ata) : ata_phase :=
  match c with
  | ReadSector l => DataIn (words_of (media d l))
  | WriteSector l => DataOut l []
  | Identify => DataIn (words_of (ident d))
  end.

Definition IDE_SR_DF : Z := 0x20.
Definition sector_ok (b : sector) : Prop := bytes_ok b ∧ length b = 512%nat.

(** What the status [s] says of the device, which is [d] before and [d'] after
    it was read.  While [BSY] is set the other bits mean nothing. *)
Definition status_says (s : Z) (d d' : ata) : Prop :=
  match phase d with
  | Idle => bit s IDE_SR_BSY = false ∧ d' = d
  | Busy c =>
      (bit s IDE_SR_BSY = true ∧ d' = d) ∨
      (bit s IDE_SR_BSY = false ∧ bit s IDE_SR_ERR = true ∧ d' = refuse d) ∨
      (bit s IDE_SR_BSY = false ∧ bit s IDE_SR_ERR = false ∧ bit s IDE_SR_DRQ = true ∧ d' = set_phase (data_phase c d) d)
  | DataIn _ | DataOut _ _ => bit s IDE_SR_BSY = false ∧ bit s IDE_SR_DRQ = true ∧ d' = d
  | Finishing l b =>
      (bit s IDE_SR_BSY = true ∧ d' = d) ∨
      (bit s IDE_SR_BSY = false ∧ bit s (Z.lor IDE_SR_ERR IDE_SR_DF) = false ∧ d' = finish l b false d) ∨
      (bit s IDE_SR_BSY = false ∧ bit s (Z.lor IDE_SR_ERR IDE_SR_DF) = true ∧ ∃ b', sector_ok b' ∧ d' = finish l b' true d)
  end.

Class AtaLaws (W : Type) `{Ports W} := {
  dev : W → ata;
  (** An idle device takes what is stored into its registers. *)
  ata_out p v w : phase (dev w) = Idle → IDE_SECCOUNT ≤ p ≤ IDE_CMD → 0 ≤ v < 2 ^ 8 → dev (outb p v w) = reg_write p v (dev w);
  ata_status w : status_says (inb IDE_STATUS w).1 (dev w) (dev (inb IDE_STATUS w).2);
  ata_in w x ws : phase (dev w) = DataIn (x :: ws) →
    (inw IDE_DATA w).1 = x ∧ dev (inw IDE_DATA w).2 = set_phase (if ws is [] then Idle else DataIn ws) (dev w);
  ata_more w l got x : phase (dev w) = DataOut l got → (length got < 255)%nat → 0 ≤ x < 2 ^ 16 →
    dev (outw IDE_DATA x w) = set_phase (DataOut l (got ++ [x])) (dev w);
  ata_last w l got x : phase (dev w) = DataOut l got → length got = 255%nat → 0 ≤ x < 2 ^ 16 →
    dev (outw IDE_DATA x w) = set_phase (Finishing l (bytes_of (got ++ [x]))) (dev w);
}.

(** [ide_wait_drq] looks at [ERR] and [DRQ] also while [BSY] is set.  On QEMU's
    controller, the one the driver is for, they are clear then. *)
Class CleanStatus (W : Type) `{AtaLaws W} := clean_status w c : phase (dev w) = Busy c →
  bit (inb IDE_STATUS w).1 IDE_SR_BSY = true → bit (inb IDE_STATUS w).1 IDE_SR_ERR = false ∧ bit (inb IDE_STATUS w).1 IDE_SR_DRQ = false.

(** ** Words and sectors *)

Lemma word_bytes_pair x y : 0 ≤ x < 256 → 0 ≤ y < 256 → word_bytes (x + 2 ^ 8 * y) = [x; y].
Proof.
  intros Hx Hy. unfold word_bytes, u8. change (2 ^ 8) with 256. rewrite (Z.mul_comm 256 y), Z_mod_plus_full, Z.mod_small, Z.div_add by lia.
  rewrite (Z.div_small x) by lia. by rewrite Z.mod_small by lia.
Qed.

Lemma bytes_words n : ∀ b, bytes_ok b → length b = (2 * n)%nat → bytes_of (word_at b <$> seq 0 n) = b.
Proof.
  induction n as [|n IH]; intros b Hb Hl; [by destruct b|]. destruct b as [|x [|y b]]; cbn in Hl; try lia.
  apply Forall_cons in Hb as [Hx Hb]. apply Forall_cons in Hb as [Hy Hb].
  cbn [seq fmap list_fmap]. unfold bytes_of. cbn [mbind list_bind].
  change (word_at (x :: y :: b) 0) with (x + 2 ^ 8 * y). rewrite word_bytes_pair by done. cbn [app]. do 2 f_equal.
  rewrite <- seq_shift, <- list_fmap_compose. rewrite <- (IH b) at 2 by (done || lia). unfold bytes_of. f_equal.
  apply list_fmap_ext. intros i j _. unfold word_at. cbn [compose]. by replace (2 * S j)%nat with (S (S (2 * j))) by lia.
Qed.

Lemma sector_words b : sector_ok b → bytes_of (words_of b) = b.
Proof. intros [Hb Hl]. by apply (bytes_words 256). Qed.

Lemma word_range b i : bytes_ok b → 0 ≤ word_at b i < 2 ^ 16.
Proof. intros Hb. by apply le16_range. Qed.

(** ** Driver and device *)

Section ide.
Context {W : Type} `{AtaLaws W} {Hclean : CleanStatus W}.
Implicit Types (w : W).

(** Between two requests; the last sector may still be on its way. *)
Definition quiet w : Prop := phase (dev w) = Idle ∨ ∃ l b, phase (dev w) = Finishing l b.

(** The contents of the disk, with the sector that is being written. *)
Definition on_disk w : Z → sector :=
  match phase (dev w) with Finishing l b => <[l := b]> (media (dev w)) | _ => media (dev w) end.
Definition disk_ok w : Prop := ∀ l, sector_ok (on_disk w l).

(** The device went from [w] to [w'] and has the contents [f] now, but for
    sectors that it has reported as lost meanwhile. *)
Definition moved w w' (f : Z → sector) : Prop := (refusals (dev w) ≤ refusals (dev w'))%nat ∧
  ∃ new, lost (dev w') = new ++ lost (dev w) ∧ ∀ l, l ∉ new → on_disk w' l = f l.

(** The driver has read the status so often that it gave up. *)
Definition polled (n : nat) w : W := Nat.iter n (λ w, (inb IDE_STATUS w).2) w.
Definition ready_status (s : Z) : bool := negb (bit s IDE_SR_BSY) && bit s IDE_SR_DRDY.
Definition answer_status (s : Z) : bool := bit s IDE_SR_ERR || bit s IDE_SR_DRQ.
Definition silent (P : Z → bool) (n : nat) w w' : Prop :=
  w' = polled n w ∧ ∀ k, (k < n)%nat → P (inb IDE_STATUS (polled k w)).1 = false.
Definition no_answer w' : Prop := ∃ w, silent ready_status IDE_TIMEOUT w w' ∨ silent answer_status IDE_TIMEOUT w w'.

(** Why a command failed. *)
Definition excused w w' : Prop := (refusals (dev w) < refusals (dev w'))%nat ∨ no_answer w'.

Lemma moved_refl w : moved w w (on_disk w).
Proof. split; [lia|]. by exists []. Qed.
Lemma moved_trans w w1 w2 f : moved w w1 f → moved w1 w2 (on_disk w1) → moved w w2 f.
Proof.
  intros (R1 & n1 & L1 & M1) (R2 & n2 & L2 & M2). split; [lia|]. exists (n2 ++ n1). split; [by rewrite L2, L1, app_assoc|].
  intros l [Hl2 Hl1]%not_elem_of_app. by rewrite M2, M1.
Qed.
Lemma moved_eq w w' : lost (dev w') = lost (dev w) → (refusals (dev w) ≤ refusals (dev w'))%nat → on_disk w' = on_disk w → moved w w' (on_disk w).
Proof. intros Hl Hr Hd. split; [done|]. exists []. split; [done|]. intros l _. by rewrite Hd. Qed.
Lemma excused_mono w w1 w2 : (refusals (dev w) ≤ refusals (dev w1))%nat → excused w1 w2 → excused w w2.
Proof. intros Hr [?|?]; [left; lia|by right]. Qed.

Lemma silent_S P n w w' : P (inb IDE_STATUS w).1 = false → silent P n (inb IDE_STATUS w).2 w' → silent P (S n) w w'.
Proof.
  intros Hs0 [-> Hk]. unfold silent, polled in *. split; [by rewrite Nat.iter_succ_r|]. intros [|k] Hlt; [done|].
  rewrite Nat.iter_succ_r. apply Hk. lia.
Qed.

(** A status read between two requests. *)
Lemma poll_quiet w : quiet w → let s := (inb IDE_STATUS w).1 in let w1 := (inb IDE_STATUS w).2 in
  moved w w1 (on_disk w) ∧ (disk_ok w → disk_ok w1) ∧ quiet w1 ∧ (bit s IDE_SR_BSY = false → phase (dev w1) = Idle) ∧
  (phase (dev w) = Idle → dev w1 = dev w).
Proof.
  intros Hq. pose proof (ata_status w) as Hs. destruct (inb IDE_STATUS w) as [s w1]. cbn [fst snd] in *.
  unfold status_says in Hs. unfold disk_ok, moved, on_disk, quiet. destruct Hq as [E|(l & b & E)]; rewrite E in *.
  { destruct Hs as [_ ->]. rewrite E. split_and!; [lia|by exists []|done|by left|done|done]. }
  destruct Hs as [[-> ->]|[(_ & _ & ->)|(_ & _ & b' & Hb' & ->)]].
  - rewrite E. split_and!; [lia|by exists []|done|by eauto|done|done].
  - cbn. split_and!; [lia|by exists []|done|by left|done|done].
  - cbn. split_and!; [lia| | |by left|done|done].
    + exists [l]. split; [done|]. intros k Hk%not_elem_of_cons. destruct Hk as [Hk _]. by rewrite !fn_lookup_insert_ne.
    + intros Ho k. specialize (Ho k). destruct (decide (k = l)) as [->|]; [by rewrite fn_lookup_insert|]. by rewrite fn_lookup_insert_ne in Ho |- *.
Qed.

Lemma ide_wait_ready_spec n : ∀ w, quiet w → ∃ r w', ide_wait_ready IDE_SR_DRDY n w = (r, w') ∧
  moved w w' (on_disk w) ∧ (disk_ok w → disk_ok w') ∧ (phase (dev w) = Idle → dev w' = dev w) ∧
  ((r = 0 ∧ phase (dev w') = Idle) ∨ (r = LNXRM_EFAIL ∧ quiet w' ∧ silent ready_status n w w')).
Proof.
  induction n as [|n IH]; intros w Hq; cbn [ide_wait_ready].
  { eexists _, w. split_and!; [done|apply moved_refl|done|done|right]. split_and!; [done|done|]. split; [done|lia]. }
  destruct (poll_quiet w Hq) as (Hm & Hok & Hq1 & Hi & Hid). pose proof (silent_S ready_status n w) as Hsil.
  destruct (inb IDE_STATUS w) as [s w1]. cbn [fst snd] in *.
  destruct (negb (bit s IDE_SR_BSY) && bit s IDE_SR_DRDY) eqn:Es.
  - exists 0, w1. apply andb_true_iff in Es as [Es%negb_true_iff _]. split_and!; [done|done|done|done|left; by auto].
  - destruct (IH w1 Hq1) as (r & w' & E & Hm' & Hok' & Hid' & Hr). exists r, w'.
    split_and!; [done|by eapply moved_trans|by auto|intros E'; specialize (Hid E'); rewrite <- Hid in *; by rewrite Hid'|].
    destruct Hr as [?|(-> & ? & ?)]; [by left|right]. split_and!; [done|done|]. by apply Hsil.
Qed.

Lemma ide_wait_drq_spec c n : ∀ w, phase (dev w) = Busy c →
  ∃ r w', wait_drq_loop n w = (r, w') ∧
    ((r = 0 ∧ dev w' = set_phase (data_phase c (dev w)) (dev w)) ∨ (r = LNXRM_EFAIL ∧ dev w' = refuse (dev w)) ∨
     (r = LNXRM_EFAIL ∧ dev w' = dev w ∧ silent answer_status n w w')).
Proof.
  induction n as [|n IH]; intros w Hb; cbn [wait_drq_loop].
  { exists LNXRM_EFAIL, w. split; [done|]. right; right. split_and!; [done|done|]. split; [done|lia]. }
  pose proof (ata_status w) as Hs. pose proof (clean_status w c Hb) as Hc. pose proof (silent_S answer_status n w) as Hsil.
  destruct (inb IDE_STATUS w) as [s w1]. cbn [fst snd] in *. unfold status_says in Hs. rewrite Hb in Hs.
  destruct Hs as [(Hbsy & Hd)|[(_ & -> & Hd)|(_ & -> & -> & Hd)]].
  - destruct (Hc Hbsy) as [E1 E2]. rewrite E1, E2. destruct (IH w1) as (r & w' & E' & Hr); [by rewrite Hd|]. exists r, w'. rewrite Hd in Hr.
    split; [done|]. destruct Hr as [?|[?|(-> & ? & Hsi)]]; [by auto|by auto|right; right]. split_and!; [done|done|].
    apply Hsil; [|done]. unfold answer_status. by rewrite E1, E2.
  - exists LNXRM_EFAIL, w1. auto.
  - exists 0, w1. auto.
Qed.

Lemma drive_reg h : 0 ≤ h < 16 → let v := Z.lor 0xE0 h in 0 ≤ v < 2 ^ 8 ∧ Z.land v 0x50 = 0x40 ∧ v mod 16 = h.
Proof.
  intros Hh. assert (h ∈ seqZ 0 16) as Hin by (apply elem_of_seqZ; lia). clear Hh.
  revert h Hin. apply Forall_forall. vm_compute seqZ. repeat constructor; by_eval.
Qed.

Lemma lba_parts lba : 0 ≤ lba < 2 ^ 28 →
  u8 lba + 2 ^ 8 * u8 (Z.shiftr lba 8) + 2 ^ 16 * u8 (Z.shiftr lba 16) + 2 ^ 24 * Z.land (Z.shiftr lba 24) 0x0F = lba ∧
  0 ≤ Z.land (Z.shiftr lba 24) 0x0F < 16.
Proof.
  intros Hl. change 0x0F with (Z.ones 4). rewrite Z.land_ones, !Z.shiftr_div_pow2 by lia. unfold u8.
  pose proof (Z.div_mod lba (2 ^ 8)). pose proof (Z.div_mod (lba / 2 ^ 8) (2 ^ 8)). pose proof (Z.div_mod (lba / 2 ^ 16) (2 ^ 8)).
  replace (lba / 2 ^ 16) with (lba / 2 ^ 8 / 2 ^ 8) in * by (rewrite Z.div_div by lia; done).
  replace (lba / 2 ^ 24) with (lba / 2 ^ 8 / 2 ^ 8 / 2 ^ 8) in * by (rewrite !Z.div_div by lia; done).
  assert (0 ≤ lba / 2 ^ 8 / 2 ^ 8 / 2 ^ 8 < 16) by (rewrite !Z.div_div by lia; split; [apply Z.div_pos|apply Z.div_lt_upper_bound]; lia).
  rewrite (Z.mod_small (lba / 2 ^ 8 / 2 ^ 8 / 2 ^ 8)) by lia. lia.
Qed.

(** The command that [cmd] is, for a sector. *)
Definition command_of (cmd lba : Z) : option ata_cmd :=
  if cmd =? IDE_CMD_READ then Some (ReadSector lba) else if cmd =? IDE_CMD_WRITE then Some (WriteSector lba) else None.

Lemma reg_step p v w d : dev w = d → phase d = Idle → IDE_SECCOUNT ≤ p ≤ IDE_CMD → 0 ≤ v < 2 ^ 8 → dev (outb p v w) = reg_write p v d.
Proof. intros <-. apply ata_out. Qed.

Lemma ide_command_spec cmd lba c w : phase (dev w) = Idle → 0 ≤ lba < 2 ^ 28 → command_of cmd lba = Some c →
  let w' := ide_command lba cmd w in
  phase (dev w') = Busy c ∧ media (dev w') = media (dev w) ∧ refusals (dev w') = refusals (dev w) ∧ lost (dev w') = lost (dev w).
Proof.
  intros Hi Hl Hc w'. subst w'. destruct (lba_parts lba Hl) as [Hsum Hh]. destruct (drive_reg _ Hh) as (Hv & Hmode & Hlow). cbn zeta in *.
  assert (0 ≤ cmd < 2 ^ 8) as Hcmd.
  { unfold command_of in Hc. destruct (Z.eqb_spec cmd IDE_CMD_READ) as [->|]; [by_eval|]. destruct (Z.eqb_spec cmd IDE_CMD_WRITE) as [->|]; [by_eval|done]. }
  unfold ide_command. destruct (dev w) as [n lo mid hi dr ph m id rf ls] eqn:E0. cbn in Hi. subst ph.
  pose proof (reg_step IDE_SECCOUNT 1 w _ E0 eq_refl ltac:(by_eval) ltac:(by_eval)) as E1.
  pose proof (reg_step IDE_LBA_LO (u8 lba) _ _ E1 eq_refl ltac:(by_eval) (u8_range _)) as E2.
  pose proof (reg_step IDE_LBA_MID (u8 (Z.shiftr lba 8)) _ _ E2 eq_refl ltac:(by_eval) (u8_range _)) as E3.
  pose proof (reg_step IDE_LBA_HI (u8 (Z.shiftr lba 16)) _ _ E3 eq_refl ltac:(by_eval) (u8_range _)) as E4.
  pose proof (reg_step IDE_DRIVE _ _ _ E4 eq_refl ltac:(by_eval) Hv) as E5.
  rewrite (reg_step IDE_CMD cmd _ _ E5 eq_refl ltac:(by_eval) Hcmd). clear E1 E2 E3 E4 E5. set (dv := Z.lor 0xE0 _) in *.
  cbn -[lba28 Z.pow u8 Z.shiftr Z.land dv]. unfold lba28. cbn [lba_lo lba_mid lba_hi drive].
  rewrite Hmode, Hlow, Hsum. unfold command_of in Hc.
  destruct (Z.eqb_spec cmd IDE_CMD_READ) as [->|]; [by injection Hc as <-|]. destruct (Z.eqb_spec cmd IDE_CMD_WRITE) as [->|]; [by injection Hc as <-|done].
Qed.

Lemma in_words_spec ws : ∀ w, phase (dev w) = DataIn ws → ws ≠ [] →
  ∃ w', in_words (length ws) w = (ws, w') ∧ dev w' = set_phase Idle (dev w).
Proof.
  induction ws as [|x ws IH]; intros w Hp Hne; [done|]. cbn [length in_words]. destruct (ata_in w x ws Hp) as [Hx Hd].
  destruct (inw IDE_DATA w) as [y w1]. cbn [fst snd] in *. subst y. destruct ws as [|y ws].
  - exists w1. by split.
  - destruct (IH w1) as (w' & E & Hd'); [by rewrite Hd|done|]. rewrite E. exists w'. split; [done|]. by rewrite Hd', Hd.
Qed.

Lemma out_words_spec l xs : ∀ got w, phase (dev w) = DataOut l got → (length got + length xs = 256)%nat → xs ≠ [] →
  Forall (λ x, 0 ≤ x < 2 ^ 16) xs →
  dev (out_words xs w) = set_phase (Finishing l (bytes_of (got ++ xs))) (dev w).
Proof.
  induction xs as [|x xs IH]; intros got w Hp Hl Hne Hr; [done|]. apply Forall_cons in Hr as [Hx Hr]. cbn [out_words length] in *.
  destruct xs as [|y xs].
  - cbn [out_words length] in *. by apply ata_last; [|lia|].
  - pose proof (ata_more w l got x Hp ltac:(cbn in Hl; lia) Hx) as Hd.
    rewrite (IH (got ++ [x])); [|by rewrite Hd|rewrite length_app; cbn in *; lia|done|done].
    rewrite Hd, <- app_assoc. done.
Qed.

(** A command up to its answer. *)
Lemma ide_answer cmd lba c w : phase (dev w) = Idle → 0 ≤ lba < 2 ^ 28 → command_of cmd lba = Some c →
  ∃ r w', ide_wait_drq (ide_command lba cmd w) = (r, w') ∧ media (dev w') = media (dev w) ∧ lost (dev w') = lost (dev w) ∧
    ((r = 0 ∧ refusals (dev w') = refusals (dev w) ∧ phase (dev w') = data_phase c (dev w)) ∨
     (r = LNXRM_EFAIL ∧ on_disk w' = on_disk w ∧ (refusals (dev w) ≤ refusals (dev w'))%nat ∧ excused w w' ∧ (quiet w' ∨ no_answer w'))).
Proof.
  intros Hi Hl Hc. destruct (ide_command_spec cmd lba c w Hi Hl Hc) as (Hb & Hm & Hr & Hlo). set (w1 := ide_command _ _ _) in *.
  destruct (ide_wait_drq_spec c IDE_TIMEOUT w1 Hb) as (r & w' & E & [[-> Hd]|[[-> Hd]|(-> & Hd & Hs)]]); unfold ide_wait_drq; rewrite E; eexists _, w'.
  - rewrite Hd. cbn. split_and!; [done|done|done|]. left. split_and!; [done|done|]. unfold data_phase. destruct c; [by rewrite Hm|done|].
    unfold command_of in Hc. repeat case_match; done.
  - assert (on_disk w' = on_disk w) as Ho by (unfold on_disk; rewrite Hi, Hd; cbn; by rewrite Hm).
    split_and!; [done|by rewrite Hd|by rewrite Hd|]. right. unfold excused, quiet. rewrite Ho, Hd. cbn. rewrite Hr. split_and!; [done|done|lia|left; lia|by auto].
  - assert (no_answer w') by (exists w1; by right).
    assert (on_disk w' = on_disk w) as Ho by (unfold on_disk; rewrite Hi, Hd, Hb; by rewrite Hm).
    split_and!; [done|by rewrite Hd|by rewrite Hd|]. right. split_and!; [done|done|rewrite Hd, Hr; lia|by right|by right].
Qed.

(** One sector. *)
Lemma ide_read_sector_spec lba b w : quiet w → 0 ≤ lba < 2 ^ 28 → disk_ok w →
  ∃ r b' w', ide_read_sector lba b w = (r, b', w') ∧ moved w w' (on_disk w) ∧ disk_ok w' ∧ (phase (dev w) = Idle → on_disk w' = on_disk w) ∧
    ((r = 0 ∧ phase (dev w') = Idle ∧ b' = on_disk w' lba) ∨ (r = LNXRM_EFAIL ∧ b' = b ∧ excused w w' ∧ (quiet w' ∨ no_answer w'))).
Proof.
  intros Hq Hl Hs. unfold ide_read_sector.
  destruct (ide_wait_ready_spec IDE_TIMEOUT w Hq) as (r1 & w1 & -> & Hm1 & Hok1 & Hid1 & [[-> Hi]|(-> & Hq1 & Hsil)]).
  2: { cbn. exists LNXRM_EFAIL, b, w1. split_and!; [done|done|by auto|intros Hi; unfold on_disk; by rewrite (Hid1 Hi)|right].
       assert (no_answer w1) by (exists w; by left). split_and!; [done|done|by right|by left]. }
  specialize (Hok1 Hs). assert (phase (dev w) = Idle → on_disk w1 = on_disk w) as Ho1 by (intros E; unfold on_disk; by rewrite (Hid1 E)).
  cbn [Z.eqb negb]. destruct (ide_answer IDE_CMD_READ lba _ w1 Hi Hl eq_refl) as (r3 & w3 & -> & Hm3 & Hl3 & [(-> & Hr3 & Hp3)|(-> & Ho3 & Hr3 & Hx & Hq3)]).
  2: { cbn. exists LNXRM_EFAIL, b, w3. split_and!; [done|by eapply moved_trans, moved_eq|unfold disk_ok; by rewrite Ho3|intros; rewrite Ho3; by auto|right].
       split_and!; [done|done|eapply excused_mono; [apply Hm1|done]|done]. }
  cbn [Z.eqb negb data_phase] in *. destruct (in_words_spec (words_of (media (dev w1) lba)) w3) as (w4 & E & Hd4); [done|done|].
  change (length (words_of (media (dev w1) lba))) with 256%nat in E. rewrite E.
  assert (on_disk w4 = on_disk w1) as Ho4 by (unfold on_disk; rewrite Hi, Hd4; cbn; by rewrite Hm3).
  eexists 0, _, w4. split; [done|]. split; [eapply moved_trans; [done|apply moved_eq; [by rewrite Hd4|rewrite Hd4; cbn; by rewrite Hr3|done]]|].
  split; [unfold disk_ok; by rewrite Ho4|]. split; [intros; rewrite Ho4; by auto|]. left. split_and!; [done|by rewrite Hd4|].
  rewrite Ho4. specialize (Hok1 lba). unfold on_disk in *. rewrite Hi in *. by apply sector_words.
Qed.

Lemma ide_write_sector_spec lba b w : quiet w → 0 ≤ lba < 2 ^ 28 → sector_ok b → disk_ok w →
  ∃ r w', ide_write_sector lba b w = (r, w') ∧ disk_ok w' ∧
    ((r = 0 ∧ quiet w' ∧ moved w w' (<[lba := b]> (on_disk w))) ∨
     (r = LNXRM_EFAIL ∧ moved w w' (on_disk w) ∧ excused w w' ∧ (quiet w' ∨ no_answer w'))).
Proof.
  intros Hq Hl Hb Hs. unfold ide_write_sector.
  destruct (ide_wait_ready_spec IDE_TIMEOUT w Hq) as (r1 & w1 & -> & Hm1 & Hok1 & _ & [[-> Hi]|(-> & Hq1 & Hsil)]).
  2: { cbn. exists LNXRM_EFAIL, w1. assert (no_answer w1) by (exists w; by left). split_and!; [done|by auto|right]. split_and!; [done|done|by right|by left]. }
  specialize (Hok1 Hs). cbn [Z.eqb negb].
  destruct (ide_answer IDE_CMD_WRITE lba _ w1 Hi Hl eq_refl) as (r3 & w3 & -> & Hm3 & Hl3 & [(-> & Hr3 & Hp3)|(-> & Ho3 & Hr3 & Hx & Hq3)]).
  2: { cbn. exists LNXRM_EFAIL, w3. split_and!; [done|unfold disk_ok; by rewrite Ho3|right].
       split_and!; [done|by eapply moved_trans, moved_eq|eapply excused_mono; [apply Hm1|done]|done]. }
  cbn [Z.eqb negb data_phase] in *. pose proof (out_words_spec lba (words_of b) [] w3 Hp3 eq_refl ltac:(done)) as Hd4.
  cbn [app] in Hd4. rewrite (sector_words b Hb) in Hd4.
  specialize (Hd4 ltac:(apply Forall_fmap, Forall_true; intros i; apply word_range, Hb)). set (w4 := out_words _ _) in *.
  assert (on_disk w4 = <[lba := b]> (on_disk w1)) as Ho4 by (unfold on_disk; rewrite Hi, Hd4; cbn; by rewrite Hm3).
  destruct (ide_wait_ready_spec IDE_TIMEOUT w4) as (r5 & w5 & -> & Hm5 & Hok5 & _ & Hr5); [right; rewrite Hd4; by eauto|].
  exists 0, w5. split; [done|]. split.
  { apply Hok5. intros l. rewrite Ho4. destruct (decide (l = lba)) as [->|]; [by rewrite fn_lookup_insert|rewrite fn_lookup_insert_ne by done; apply Hok1]. }
  left. split; [done|]. split; [unfold quiet in *; destruct Hr5 as [[_ ?]|(_ & ? & _)]; by auto|]. eapply moved_trans; [|done].
  destruct Hm1 as (R1 & new & L1 & M1). split; [rewrite Hd4; cbn; lia|]. exists new. split; [rewrite Hd4; cbn; congruence|].
  intros l Hn. rewrite Ho4. destruct (decide (l = lba)) as [->|]; [by rewrite !fn_lookup_insert|]. rewrite !fn_lookup_insert_ne by done. by apply M1.
Qed.

(** The first [j] sectors of a buffer have been replaced. *)
Definition filled (f : Z → sector) (lba : Z) (j : nat) (buf : list sector) : list sector :=
  (f <$> seqZ lba (Z.of_nat j)) ++ drop j buf.

Lemma filled_at f lba j buf : (j < length buf)%nat → filled f lba j buf !! j = buf !! j.
Proof.
  intros Hj. unfold filled. rewrite lookup_app_r; rewrite length_fmap, length_seqZ, Nat2Z.id; [|done].
  by rewrite Nat.sub_diag, lookup_drop, Nat.add_0_r.
Qed.
Lemma filled_next f lba j buf : (j < length buf)%nat →
  <[j := f (lba + Z.of_nat j)]> (filled f lba j buf) = filled f lba (S j) buf.
Proof.
  intros Hj. unfold filled. rewrite insert_app_r_alt; rewrite length_fmap, length_seqZ, Nat2Z.id; [|done].
  rewrite Nat.sub_diag. destruct (lookup_lt_is_Some_2 buf j Hj) as [b Hb]. rewrite (drop_S _ _ _ Hb). cbn [insert list_insert].
  rewrite Nat2Z.inj_succ, <- Z.add_1_r, seqZ_app, fmap_app, <- app_assoc by lia. done.
Qed.

Lemma buf_index_id i : Z.of_nat i < 2 ^ 23 → buf_index i = i.
Proof. intros Hi. unfold buf_index. rewrite u32_small by lia. rewrite Z.div_mul by lia. apply Nat2Z.id. Qed.

Section request.
Context (num lba : Z) (buf : list sector).
Context (Hnum : num ≤ 2 ^ 28) (Hlba : 0 ≤ lba) (Hend : lba + Z.of_nat (length buf) ≤ 2 ^ 64) (Hlen : Z.of_nat (length buf) ≤ 2 ^ 23).

(** How a request that has transferred [j] sectors ended: with success, all are
    transferred; a failure has a reason.  Without an answer the device may be
    in the middle of a command. *)
Definition ended (r : Z) (j : nat) w w' : Prop :=
  (r = 0 ∧ j = length buf ∧ lba + Z.of_nat (length buf) ≤ num ∧ quiet w') ∨
  (r = LNXRM_EFAIL ∧ (j < length buf)%nat ∧ (num < lba + Z.of_nat (length buf) ∨ excused w w') ∧ (quiet w' ∨ no_answer w')).

Lemma ended_mono r j w w1 w' : (refusals (dev w) ≤ refusals (dev w1))%nat → ended r j w1 w' → ended r j w w'.
Proof.
  intros Hr [?|(-> & Hj & Hx & Hq)]; [by left|right]. split_and!; [done|done| |done].
  destruct Hx as [?|Hx]; [by left|right]. by eapply excused_mono.
Qed.

Lemma ide_read_loop_spec n : ∀ i w, (i + n = length buf)%nat → quiet w → disk_ok w → (i = 0%nat ∨ phase (dev w) = Idle) →
  (n = 0%nat → lba + Z.of_nat (length buf) ≤ num) →
  ∃ r j w', ide_read_loop num lba n i (filled (on_disk w) lba i buf) w = Ret (r, filled (on_disk w') lba j buf, w') ∧
    moved w w' (on_disk w) ∧ disk_ok w' ∧ ended r j w w'.
Proof using Hclean Hnum Hlba Hend Hlen.
  induction n as [|n IH]; intros i w Hi Hq Hs Hst Hz; cbn [ide_read_loop].
  { exists 0, i, w. split_and!; [done|apply moved_refl|done|]. left. split_and!; [done|lia|by apply Hz|done]. }
  rewrite u64_small by lia. destruct (Z.leb_spec num (lba + Z.of_nat i)) as [Hge|Hlt].
  { exists LNXRM_EFAIL, i, w. split_and!; [done|apply moved_refl|done|]. right. split_and!; [done|lia|left; lia|by left]. }
  rewrite buf_index_id, filled_at by lia. destruct (lookup_lt_is_Some_2 buf i ltac:(lia)) as [b Hb]. rewrite Hb.
  destruct (ide_read_sector_spec (lba + Z.of_nat i) b w Hq ltac:(lia) Hs) as (r & b' & w1 & -> & Hm1 & Hs1 & Hid & Hr).
  assert (filled (on_disk w) lba i buf = filled (on_disk w1) lba i buf) as Hf by (destruct Hst as [->|E]; [done|by rewrite (Hid E)]).
  destruct Hr as [(-> & Hi1 & ->)|(-> & -> & Hx & Hq1)]; cbn [Z.eqb negb]; rewrite Hf.
  - rewrite filled_next by lia. destruct (IH (S i) w1) as (r & j & w' & E & Hm' & Hs' & Hr); [lia|by left|done|by right|lia|].
    exists r, j, w'. split_and!; [exact E|by eapply moved_trans|done|]. eapply ended_mono; [apply Hm1|done].
  - rewrite list_insert_id by (by rewrite filled_at by lia). exists LNXRM_EFAIL, i, w1. split_and!; [done|done|done|right].
    split_and!; [done|lia|by right|done].
Qed.

(** The first [j] sectors of the buffer are on the disk. *)
Definition stored (f : Z → sector) (j : nat) (l : Z) : sector :=
  if decide (in_range lba j l) then default [] (buf !! Z.to_nat (l - lba)) else f l.

Lemma stored_next f g i b l : g l = stored f i l → buf !! i = Some b → <[lba + Z.of_nat i := b]> g l = stored f (S i) l.
Proof.
  intros Hg Hb. destruct (decide (l = lba + Z.of_nat i)) as [->|Hne].
  - rewrite fn_lookup_insert. unfold stored. rewrite decide_True by (unfold in_range; lia).
    replace (Z.to_nat (lba + Z.of_nat i - lba)) with i by lia. by rewrite Hb.
  - rewrite fn_lookup_insert_ne, Hg by done. unfold stored, in_range. by rewrite (decide_ext (lba ≤ l < lba + Z.of_nat i) (lba ≤ l < lba + Z.of_nat (S i))) by lia.
Qed.

Lemma moved_next w0 w w1 f i b : buf !! i = Some b → moved w0 w (stored f i) → moved w w1 (<[lba + Z.of_nat i := b]> (on_disk w)) →
  moved w0 w1 (stored f (S i)).
Proof.
  intros Hb (R1 & n1 & L1 & M1) (R2 & n2 & L2 & M2). split; [lia|]. exists (n2 ++ n1). split; [by rewrite L2, L1, app_assoc|].
  intros l [Hl2 Hl1]%not_elem_of_app. rewrite M2 by done. apply stored_next; [by apply M1|done].
Qed.

Lemma ide_write_loop_spec f w0 n : Forall sector_ok buf → ∀ i w, (i + n = length buf)%nat → quiet w → disk_ok w → moved w0 w (stored f i) →
  (n = 0%nat → lba + Z.of_nat (length buf) ≤ num) →
  ∃ r j w', ide_write_loop num lba n i buf w = Ret (r, w') ∧ moved w0 w' (stored f j) ∧ disk_ok w' ∧ ended r j w w'.
Proof using Hclean Hnum Hlba Hend Hlen.
  intros Hbuf. induction n as [|n IH]; intros i w Hi Hq Hs Hm Hz; cbn [ide_write_loop].
  { exists 0, i, w. split_and!; [done|done|done|]. left. split_and!; [done|lia|by apply Hz|done]. }
  rewrite u64_small by lia. destruct (Z.leb_spec num (lba + Z.of_nat i)) as [Hge|Hlt].
  { exists LNXRM_EFAIL, i, w. split_and!; [done|done|done|]. right. split_and!; [done|lia|left; lia|by left]. }
  rewrite buf_index_id by lia. destruct (lookup_lt_is_Some_2 buf i ltac:(lia)) as [b Hb]. rewrite Hb.
  assert (sector_ok b) as Hbok by (by eapply Forall_lookup_1 in Hbuf).
  destruct (ide_write_sector_spec (lba + Z.of_nat i) b w Hq ltac:(lia) Hbok Hs) as (r & w1 & -> & Hs1 & [(-> & Hq1 & Hm1)|(-> & Hm1 & Hx & Hq1)]); cbn [Z.eqb negb].
  - destruct (IH (S i) w1) as (r & j & w' & E & Hm' & Hs' & Hr); [lia|done|done|by eapply moved_next|lia|].
    exists r, j, w'. split_and!; [exact E|done|done|]. eapply ended_mono; [apply Hm1|done].
  - exists LNXRM_EFAIL, i, w1. split_and!; [done|by eapply moved_trans|done|right]. split_and!; [done|lia|by right|done].
Qed.

(** C22. Driver and device are an array of sectors.  The device follows the ATA
    protocol ([AtaLaws]) and shows neither [ERR] nor [DRQ] while it is busy
    ([CleanStatus]); it has at most [2^28] sectors, and a request is for at most
    [2^23].  Every request returns.  A read delivers the contents of the sectors
    and changes none; a write puts its data into its sectors and changes no
    other.  It succeeds only inside the disk, and fails only when it reaches
    behind the end, or the device has ended a command with an error, or has not
    answered 100000 reads of its status; then a prefix is transferred.  A sector
    that the device reports as lost after it has taken the data is the
    exception: the driver does not look, and success says nothing of it.
    Unless the device did not answer, it is between two requests again, so any
    sequence of requests behaves so. *)
Theorem ide_disk_correct w : quiet w → disk_ok w → Forall sector_ok buf → 0 < Z.of_nat (length buf) →
  (∃ r j w', ide_blk_read num lba (Z.of_nat (length buf)) buf w =
       Ret (r, (on_disk w' <$> seqZ lba (Z.of_nat j)) ++ drop j buf, w') ∧
     moved w w' (on_disk w) ∧ disk_ok w' ∧ ended r j w w') ∧
  (∃ r j w', ide_blk_write num lba (Z.of_nat (length buf)) buf w = Ret (r, w') ∧
     moved w w' (λ l, if decide (lba ≤ l < lba + Z.of_nat j) then default [] (buf !! Z.to_nat (l - lba)) else on_disk w l) ∧
     disk_ok w' ∧ ended r j w w').
Proof using Hclean Hnum Hlba Hend Hlen.
  intros Hq Hs Hb Hpos. unfold ide_blk_read, ide_blk_write. rewrite Nat2Z.id. split.
  - apply (ide_read_loop_spec (length buf) 0 w); [done|done|done|by left|lia].
  - apply (ide_write_loop_spec (on_disk w) w (length buf) Hb 0 w); [done|done|done| |lia].
    split; [lia|]. exists []. split; [done|]. intros l _. unfold stored, in_range. by rewrite decide_False by lia.
Qed.
End request.
End ide.

Module IdeDemo.
(** A device that answers every command at once, has one sector that cannot be
    written, and reports that only after it has taken the data. *)
Definition worn : Z := 9.
Definition blank : sector := replicate 512 0.
#[global] Instance ports : Ports ata := {|
  inb _ d := match phase d with
             | Idle => (0x40, d)
             | Busy c => (0x48, set_phase (data_phase c d) d)
             | DataIn _ | DataOut _ _ => (0x48, d)
             | Finishing l b => if decide (l = worn) then (0x41, finish l blank true d) else (0x40, finish l b false d)
             end;
  outb p v d := match phase d with Idle => reg_write p v d | _ => d end;
  inw _ d := match phase d with
             | DataIn (x :: ws) => (x, set_phase (if ws is [] then Idle else DataIn ws) d)
             | _ => (0, d)
             end;
  outw _ x d := match phase d with
                | DataOut l got =>
                    if (length got <? 255)%nat then set_phase (DataOut l (got ++ [x])) d
                    else set_phase (Finishing l (bytes_of (got ++ [x]))) d
                | _ => d
                end;
|}.

Lemma blank_ok : sector_ok blank.
Proof. split; [apply Forall_replicate; lia|reflexivity]. Qed.

#[global, refine] Instance laws : AtaLaws ata := {| dev d := d |}.
Proof.
  - intros p v d Hi _ _. cbn. by rewrite Hi.
  - intros d. unfold status_says. destruct (phase d) as [| | | |l b] eqn:E; cbn; rewrite E; cbn; [by split|right; right; by split_and!|by split_and!|by split_and!|].
    destruct (decide (l = worn)); [right; right; split_and!; [done|done|by exists blank; split; [apply blank_ok|]]|right; left; by split_and!].
  - intros d x ws Hp. cbn. by rewrite Hp.
  - intros d l got x Hp Hl _. unfold outw, ports. rewrite Hp. by rewrite (proj2 (Nat.ltb_lt _ _) Hl).
  - intros d l got x Hp Hl _. unfold outw, ports. by rewrite Hp, Hl.
Defined.

#[global] Instance clean : CleanStatus ata.
Proof. intros d c Hp. change (phase d = Busy c) in Hp. cbn. by rewrite Hp. Qed.

Definition disk : ata := Ata 0 0 0 0 0 Idle (λ _, blank) blank 0 [].
End IdeDemo.

(** A write to the worn sector succeeds and its data are gone. *)
Lemma lost_unnoticed :
  ∃ w', ide_blk_write 16 IdeDemo.worn 1 [replicate 512 7] IdeDemo.disk = Ret (0, w') ∧ on_disk w' IdeDemo.worn = IdeDemo.blank.
Proof. eexists. split; [vm_compute; reflexivity|reflexivity]. Qed.

(** A write to the good sector 3; the device loses nothing. *)
Lemma ide_disk_correct_witness :
  ∃ w', ide_blk_write 16 3 1 [replicate 512 7] IdeDemo.disk = Ret (0, w') ∧ quiet w' ∧
    on_disk w' 3 = replicate 512 7 ∧ on_disk w' 4 = IdeDemo.blank.
Proof.
  destruct (ide_disk_correct 16 3 [replicate 512 7]) with (w := IdeDemo.disk) as [_ (r & j & w' & E & (_ & new & Hl & Hm) & _ & Hr)].
  - lia.
  - lia.
  - cbn. lia.
  - cbn. lia.
  - by left.
  - intros l. apply IdeDemo.blank_ok.
  - constructor; [|constructor]. split; [apply Forall_replicate; lia|reflexivity].
  - cbn. lia.
  - change (Z.of_nat (length [replicate 512 7])) with 1 in E.
    assert (match ide_blk_write 16 3 1 [replicate 512 7] IdeDemo.disk with Ret (r, w') => (r, length (lost w')) | _ => (1, 1%nat) end = (0, 0%nat)) as Hz
      by (vm_compute; reflexivity).
    rewrite E in Hz. injection Hz as -> Hn. destruct Hr as [(_ & -> & _ & Hq)|[? _]]; [|discriminate].
    assert (new = []) as -> by (change (dev w') with w' in Hl; rewrite Hl in Hn; by destruct new).
    exists w'. split; [exact E|]. split; [exact Hq|]. split; [exact (Hm 3 (not_elem_of_nil _))|exact (Hm 4 (not_elem_of_nil _))].
Defined.
