(* ===== verification/Syscall.v ===== *)
(** The system calls ([kernel/syscall.c], [include/abi/]): raw keys, the
    framebuffer calls, the calls with paths, the switch over the call numbers
    and the entry from the trap; [ps_dump] of [kernel/task.c].

    The registers of the caller are the frame [tf] of the task.  A call that
    has to wait gives up the CPU in the middle; the model ends there
    ([CSwitched]) with the state in which another task runs. *)
From stdpp Require Import strings.
From S2P Require Import Prelude Bytes Cstring Pmm PmmFacts PmmInit Frames Kheap Vmm UserMem Aspace Elf Sched Proc Signal Brk Task.
From S2P Require Import BlkDev BlkCache Journal Mbr FatName FatTable FatDir Input Ansi Fb Console Print Vfs Exec Mount.

(** The whole machine: the system, the buffer of [kprintf] and the registered
    block devices. *)
Record machine (S F Nd D : Type) := Machine {
  sy : sys S F Nd;
  kbuf : Z → Z;
  blks : blk_registry D;
}.
Arguments Machine {S F Nd D}.
Arguments sy {S F Nd D}.
Arguments kbuf {S F Nd D}.
Arguments blks {S F Nd D}.

Inductive call_result := CRet (r : Z) | CSwitched | CExited.

Definition KBD_NONBLOCK : Z := 1.
Definition LNXRM_EAGAIN : Z := -11.

(** [enum lnxrm_syscall_number]. *)
Inductive sysno :=
  | SYS_read | SYS_write | SYS_open | SYS_close | SYS_lseek | SYS_brk | SYS_getdent | SYS_dup2 | SYS_nanosleep | SYS_getpid
  | SYS_fork | SYS_execve | SYS_exit | SYS_wait4 | SYS_kill | SYS_uname | SYS_sigaction | SYS_sigprocmask | SYS_getppid
  | SYS_ps | SYS_sigreturn | SYS_getcpu | SYS_diskinfo | SYS_mkdir | SYS_fb_info | SYS_fb_clear | SYS_fb_fill
  | SYS_fb_char | SYS_fb_puts | SYS_unlink | SYS_rmdir | SYS_getkey | SYS_rename | SYS_move.
Definition sysnos : list sysno :=
  [SYS_read; SYS_write; SYS_open; SYS_close; SYS_lseek; SYS_brk; SYS_getdent; SYS_dup2; SYS_nanosleep; SYS_getpid;
   SYS_fork; SYS_execve; SYS_exit; SYS_wait4; SYS_kill; SYS_uname; SYS_sigaction; SYS_sigprocmask; SYS_getppid;
   SYS_ps; SYS_sigreturn; SYS_getcpu; SYS_diskinfo; SYS_mkdir; SYS_fb_info; SYS_fb_clear; SYS_fb_fill;
   SYS_fb_char; SYS_fb_puts; SYS_unlink; SYS_rmdir; SYS_getkey; SYS_rename; SYS_move].
Definition sysno_of (nr : Z) : option sysno := if nr <? 0 then None else sysnos !! Z.to_nat nr.

(** A character array of [n] bytes that is initialised with a string. *)
Definition char_array (n : nat) (s : list Z) : list Z := s ++ replicate (n - length s) 0.
Definition utsname : list Z :=
  char_array 24 (str "LNXRM") ++ char_array 24 (str "lnxrm") ++ char_array 24 (str "1.0.0") ++
  char_array 32 (str "lnxrm #1") ++ char_array 16 (str "x86_64").

Definition task_state_name (s : task_state) : list Z :=
  match s with
  | T_UNUSED => str "UNUSED" | T_EMBRYO => str "EMBRYO" | T_RUNNABLE => str "RUNNABLE" | T_RUNNING => str "RUNNING"
  | T_SLEEPING => str "SLEEPING" | T_ZOMBIE => str "ZOMBIE" | T_STOPPED => str "STOPPED"
  end.

(** The line of a task in the listing. *)
Definition ps_args (s : sched) (t : nat) : list varg :=
  let x := tasks s t in
  [VWord (pid x); VWord (cpu_id x); VStr (Some (task_state_name (state x))); VStr (Some (name x));
   VWord (match Sched.parent x with Some p => pid (tasks s p) | None => 0 end)].

(** [i] is the index of [task_iter], [n] slots are left. *)
Fixpoint ps_loop (n i : nat) (s : sched) (st : (Z → Z) * console) : outcome ((Z → Z) * console) :=
  match n with
  | O => Ret st
  | Datatypes.S n =>
      st ← (if is_unused s i then Ret st else kprintf (str "%5u %3d %-9s %-15s %u" ++ [10]) (ps_args s i) st);
      ps_loop n (Datatypes.S i) s st
  end.
Definition ps_dump (s : sched) (st : (Z → Z) * console) : outcome ((Z → Z) * console) :=
  st ← kprintf (str "  PID CPU STATE     NAME            PARENT" ++ [10]) [] st;
  ps_loop NR_TASKS 0 s st.

Section calls.
Context {S F Nd D : Type} `{Frames S} `{FileSys F Nd}.
Abbreviation st := (sys S F Nd).
Implicit Types (s : st).

(** ** Keys *)

Definition put_input (k : input) s : st := set_input k (srx s) s.

(** One turn of the loop of [sys_getkey]. *)
Definition sys_getkey (me : nat) (flags : Z) s : outcome (call_result * st) :=
  let '(ev, k) := keyq_pop (get_input s) in
  let s := put_input k s in
  if 0 <=? ev then Ret (CRet ev, s) else
  if negb (Z.land flags KBD_NONBLOCK =? 0) then Ret (CRet LNXRM_EAGAIN, s) else
  match current me (sch (kn s)) with
  | None => Ret (CRet LNXRM_EIO, s)
  | Some c =>
      if negb (signal_pending (tasks (isch k) c) =? 0) then Ret (CRet LNXRM_EINTR, s) else
      let k := set_isch (upd_task c (λ x, set_sleep_until (u64 (jiffies (isch k) + 1)) (set_state T_SLEEPING x)) (isch k)) k in
      let k := key_waiter_arm c k in
      let '(ev, k) := keyq_pop k in
      if 0 <=? ev then
        let k := key_waiter_disarm c k in
        sc ← runqueue_remove c (isch k);
        Ret (CRet ev, put_input (set_isch (upd_task c (set_state T_RUNNING) sc) k) s)
      else
        sc ← runqueue_remove c (isch k);
        sc ← schedule me sc;
        Ret (CSwitched, put_input (set_isch sc k) s)
  end.

(** What the task does when it runs again. *)
Definition getkey_resume (me c : nat) (flags : Z) s : outcome (call_result * st) :=
  let k := key_waiter_disarm c (get_input s) in
  sys_getkey me flags (put_input (set_isch (upd_task c (set_state T_RUNNING) (isch k)) k) s).

(** ** The framebuffer *)

Definition draw (g : fb → fb) s : st := set_scon (set_cfb (g (cfb (scon s))) (scon s)) s.

Definition sys_fb_info (c : nat) (uinfo : Z) s : Z * st :=
  let g := fmode (cfb (scon s)) in
  let info := le_bytes 4 (fb_width g) ++ le_bytes 4 (fb_height g) ++ le_bytes 4 (fb_bpp g) ++ le_bytes 4 (fb_pitch g) in
  match copy_to_user (root_of c (kn s)) uinfo info (mem (kn s)) with
  | None => (LNXRM_EFAULT, s)
  | Some m => (0, set_kn (set_mem m (kn s)) s)
  end.

Definition sys_fb_clear (color : Z) s : Z * st := (0, draw (fb_clear (u8 color)) s).

(** The structure at [p], when all of it can be read. *)
Definition user_struct (c : nat) (p : Z) (n : nat) s : option (list Z) := copy_from_user (root_of c (kn s)) p n (mem (kn s)).

Definition sys_fb_fill (c : nat) (urect : Z) s : Z * st :=
  match user_struct c urect 20 s with
  | None => (LNXRM_EFAULT, s)
  | Some r => (0, draw (fb_fill_rect (le32 r 0) (le32 r 4) (le32 r 8) (le32 r 12) (u8 (le32 r 16))) s)
  end.

Definition sys_fb_char (c : nat) (uch : Z) s : Z * st :=
  match user_struct c uch 20 s with
  | None => (LNXRM_EFAULT, s)
  | Some r => (0, draw (fb_draw_char (le32 r 0) (le32 r 4) (i8 (le32 r 8)) (u8 (le32 r 12)) (u8 (le32 r 16))) s)
  end.

Definition sys_fb_puts (c : nat) (ustr : Z) s : Z * st :=
  match user_struct c ustr 24 s with
  | None => (LNXRM_EFAULT, s)
  | Some r =>
      match copy_user_str (root_of c (kn s)) (le64 r 16) 256 (mem (kn s)) with
      | None => (LNXRM_EFAULT, s)
      | Some l => (0, draw (fb_puts (le32 r 0) (le32 r 4) (i8 <$> l) (u8 (le32 r 8)) (u8 (le32 r 12))) s)
      end
  end.

(** ** Paths *)

Definition path_syscall (c : nat) (upath : Z) (fn : list Z → st → outcome (Z * st)) s : outcome (Z * st) :=
  match copy_user_str (root_of c (kn s)) upath PATH_LEN (mem (kn s)) with
  | None => Ret (LNXRM_EFAULT, s)
  | Some path => fn path s
  end.

Definition path2_syscall (c : nat) (upath upath2 : Z) (fn : list Z → list Z → st → outcome (Z * st)) s : outcome (Z * st) :=
  match copy_user_str (root_of c (kn s)) upath PATH_LEN (mem (kn s)) with
  | None => Ret (LNXRM_EFAULT, s)
  | Some path => path_syscall c upath2 (fn path) s
  end.

(** ** The switch

    [master] is the kernel's page table, [code] the trampoline, [pad] what is in
    the padding of the structure that sigaction copies out. *)
Context (master : Z) (code pad : list Z).
Abbreviation mach := (machine S F Nd D).
Implicit Types (w : mach).

Definition set_sy s w : mach := Machine s (kbuf w) (blks w).
Definition set_knl (k : kern S (fdata Nd)) w : mach := set_sy (set_kn k (sy w)) w.

(** Calls of other components, with their results. *)
Definition on_sys (r : outcome (Z * st)) w : outcome (call_result * mach) := '(r, s) ← r; Ret (CRet r, set_sy s w).
Definition on_kern (r : outcome (Z * kern S (fdata Nd))) w : outcome (call_result * mach) := '(r, k) ← r; Ret (CRet r, set_knl k w).

Definition do_nanosleep (me : nat) (ns : Z) w : outcome (call_result * mach) :=
  let k := kn (sy w) in
  let ms := ns / 1000000 in
  let ms := if ms =? 0 then 1 else ms in
  '(fin, sc) ← nanosleep_round me (nanosleep_until ms (sch k)) (sch k);
  Ret (if fin : bool then CRet 0 else CSwitched, set_knl (set_sch sc k) w).

Definition do_uname (c : nat) (p : Z) w : call_result * mach :=
  let k := kn (sy w) in
  match copy_to_user (root_of c k) p utsname (mem k) with
  | None => (CRet LNXRM_EFAULT, w)
  | Some m => (CRet 0, set_knl (set_mem m k) w)
  end.

Definition do_ps w : outcome (call_result * mach) :=
  let s := sy w in
  '(b, con) ← ps_dump (sch (kn s)) (kbuf w, scon s);
  Ret (CRet 0, Machine (set_scon con s) b (blks w)).

Definition unknown (c : nat) (nr : Z) w : outcome (call_result * mach) :=
  let s := sy w in
  '(b, con) ← kprintf (str "[sys] unknown syscall %d from pid %u" ++ [10]) [VWord nr; VWord (pid (tasks (sch (kn s)) c))] (kbuf w, scon s);
  Ret (CRet LNXRM_ENOSYS, Machine (set_scon con s) b (blks w)).

(** The task [c] on CPU [me] with the registers [f]. *)
Definition syscall_do (me c : nat) (f : intr_frame) (nr a3 : Z) w : outcome (call_result * mach) :=
  let s := sy w in
  let k := kn s in
  match sysno_of nr with
  | Some SYS_read =>
      '(p, s) ← sys_read me c (i32 (rdi f)) (rsi f) a3 s;
      Ret (match p with Returned r _ => CRet r | Waits _ => CSwitched end, set_sy s w)
  | Some SYS_write => on_sys (sys_write c (i32 (rdi f)) (rsi f) a3 s) w
  | Some SYS_open => on_sys (path_syscall c (rdi f) (λ path, sys_open c path (i32 (rsi f))) s) w
  | Some SYS_close => on_kern (sys_close c (i32 (rdi f)) k) w
  | Some SYS_lseek => on_sys (sys_lseek c (i32 (rdi f)) (i64 (rsi f)) (i32 a3) s) w
  | Some SYS_getdent => on_sys (sys_getdent c (i32 (rdi f)) (rsi f) a3 s) w
  | Some SYS_dup2 => on_kern (sys_dup2 c (i32 (rdi f)) (i32 (rsi f)) k) w
  | Some SYS_brk => on_kern (sys_brk c (rdi f) k) w
  | Some SYS_fork => on_kern (sys_fork master code me k) w
  | Some SYS_execve => on_sys (sys_execve master code c (rdi f) (rsi f) s) w
  | Some SYS_exit => k ← sys_exit me (i32 (rdi f)) k; Ret (CExited, set_knl k w)
  | Some SYS_getpid => Ret (CRet (pid (tasks (sch k) c)), w)
  | Some SYS_getppid => Ret (CRet (match Sched.parent (tasks (sch k) c) with Some p => pid (tasks (sch k) p) | None => 0 end), w)
  | Some SYS_wait4 =>
      '(r, k) ← sys_waitpid me (i32 (rdi f)) (rsi f) (i32 a3) k;
      Ret (match r with Reaped r => CRet r | Sleeps => CSwitched end, set_knl k w)
  | Some SYS_nanosleep => do_nanosleep me (rdi f) w
  | Some SYS_uname => Ret (do_uname c (rdi f) w)
  | Some SYS_ps => do_ps w
  | Some SYS_kill => let '(r, sc) := sys_kill me (i32 (rdi f)) (i32 (rsi f)) (sch k) in Ret (CRet r, set_knl (set_sch sc k) w)
  | Some SYS_sigaction => on_kern (Ret (sys_sigaction pad c (i32 (rdi f)) (rsi f) a3 k)) w
  | Some SYS_sigprocmask => on_kern (Ret (sys_sigprocmask c (i32 (rdi f)) (rsi f) a3 k)) w
  | Some SYS_sigreturn =>
      '(fl, r, k) ← sys_sigreturn me k;
      Ret (match fl with Returns => CRet r | Parked => CSwitched | Exited => CExited end, set_knl k w)
  | Some SYS_getcpu => Ret (CRet (Z.of_nat (id (cpus (sch k) me))), w)
  | Some SYS_diskinfo =>
      let '(r, m) := blk_list_all (root_of c k) (rdi f) (i32 (rsi f)) (blks w) (mem k) in Ret (CRet r, set_knl (set_mem m k) w)
  | Some SYS_mkdir => on_sys (path_syscall c (rdi f) sys_mkdir s) w
  | Some SYS_unlink => on_sys (path_syscall c (rdi f) sys_unlink s) w
  | Some SYS_rmdir => on_sys (path_syscall c (rdi f) sys_rmdir s) w
  | Some SYS_getkey => '(r, s) ← sys_getkey me (i32 (rdi f)) s; Ret (r, set_sy s w)
  | Some SYS_rename => on_sys (path2_syscall c (rdi f) (rsi f) sys_rename s) w
  | Some SYS_move => on_sys (path2_syscall c (rdi f) (rsi f) sys_move s) w
  | Some SYS_fb_info => on_sys (Ret (sys_fb_info c (rdi f) s)) w
  | Some SYS_fb_clear => on_sys (Ret (sys_fb_clear (u32 (rdi f)) s)) w
  | Some SYS_fb_fill => on_sys (Ret (sys_fb_fill c (rdi f) s)) w
  | Some SYS_fb_char => on_sys (Ret (sys_fb_char c (rdi f) s)) w
  | Some SYS_fb_puts => on_sys (Ret (sys_fb_puts c (rdi f) s)) w
  | None => unknown c nr w
  end.

(** The trap: the result goes to [rax] of the frame, which the call itself may
    have changed, and signals are delivered on the way back to user mode. *)
Definition syscall_entry (me c : nat) (f : intr_frame) w : outcome (flow * mach) :=
  let w := set_knl (upd_proc c (set_tf (Some f)) (kn (sy w))) w in
  '(r, w) ← syscall_do me c f (rax f) (r10 f) w;
  match r with
  | CSwitched => Ret (Parked, w)
  | CExited => Ret (Exited, w)
  | CRet ret =>
      let k := kn (sy w) in
      match tf (procs k c) with
      | None => Stuck
      | Some f =>
          let f := set_rflags (Z.lor (rflags f) 0x200) (set_rax (u64 ret) f) in
          let k := upd_proc c (set_tf (Some f)) k in
          if Z.land (cs f) 3 =? 3 then '(fl, k) ← do_signal_check me c k; Ret (fl, set_knl k w)
          else Ret (Returns, set_knl k w)
      end
  end.
End calls.
