(* ===== verification/SyscallFacts.v ===== *)
(** System calls that neither block nor enter a file system: whatever the
    registers of the caller hold, the kernel stays well-formed, no other process
    is touched and drawing stays inside the framebuffer. *)
From S2P Require Import Prelude Bytes Cstring Pmm PmmFacts PmmInit Frames Kheap KheapFacts Vmm VmmFacts VmmLife VmmDup VmmDemo UserMem Aspace Elf.
From S2P Require Import Sched SchedFacts SchedRun Proc ProcFacts Signal Brk Clients Task TaskFacts SignalFacts.
From S2P Require Import BlkDev BlkCache Journal Mbr FatName FatTable FatDir Input Ansi Fb FbFacts Console ConsoleFacts Print Vfs VfsFile Exec ExecFacts ExecCall Mount Syscall.

(** ** Drawing *)

(** Only pixels change. *)
Definition draws (g : fb → fb) : Prop := ∀ f, mode_ok (fmode f) → same_dev f (g f) ∧ drawn f (g f).

Lemma draws_id : draws (λ f, f).
Proof. by intros f _. Qed.

Lemma draws_comp g g' : draws g → draws g' → draws (λ f, g' (g f)).
Proof.
  intros Hg Hg' f Hf. destruct (Hg f Hf) as [Hs Hd]. destruct (Hg' (g f)) as [Hs' Hd']; [by rewrite (sd_mode _ _ Hs)|].
  split; by etrans.
Qed.

Lemma draws_loop body lo hi : (∀ i, draws (body i)) → draws (for_z body lo hi).
Proof.
  intros Hb f Hf. apply (for_z_ind (λ _ f', same_dev f f' ∧ drawn f f')); [by split|].
  intros i x _ [Hs Hd]. destruct (Hb i x) as [Hs' Hd']; [by rewrite (sd_mode _ _ Hs)|]. split; by etrans.
Qed.

Lemma draws_put x y c : 0 ≤ x → 0 ≤ y → draws (fb_put_pixel x y c).
Proof.
  intros Hx Hy f Hf. split; [|apply drawn_put]. destruct (fb_on f) eqn:Hon.
  - by apply (fb_put_pixel_paints f Hf Hon).
  - unfold fb_put_pixel. by rewrite Hon, !orb_true_r.
Qed.

Lemma draws_char x y ch fg bg : draws (fb_draw_char x y ch fg bg).
Proof.
  intros f Hf. unfold fb_draw_char. destruct (negb (fb_on f)); [done|]. revert f Hf.
  do 2 (apply draws_loop; intros ?). apply draws_put; apply Z.mod_pos_bound; lia.
Qed.

Lemma draws_puts s : ∀ x y fg bg, draws (fb_puts x y s fg bg).
Proof.
  induction s as [|c s IH]; intros x y fg bg; [apply draws_id|]. cbn [fb_puts].
  exact (draws_comp _ _ (draws_char x y c fg bg) (IH _ _ _ _)).
Qed.

Lemma draws_fill x y w h c : 0 ≤ x → 0 ≤ y → draws (fb_fill_rect x y w h c).
Proof.
  intros Hx Hy f Hf. destruct (fb_on f) eqn:Hon.
  - split; [by apply (fb_fill_rect_paints f Hf Hon)|]. unfold fb_fill_rect. by rewrite Hon.
  - unfold fb_fill_rect. by rewrite Hon.
Qed.

Lemma draws_clear c : 0 ≤ c < 256 → draws (fb_clear c).
Proof.
  intros Hc f Hf. destruct (fb_on f) eqn:Hon.
  - split; [by apply (fb_clear_paints f Hf Hon)|]. unfold fb_clear. rewrite Hon. cbn [negb]. by case_match.
  - unfold fb_clear. by rewrite Hon.
Qed.

(** ** Signals to other tasks *)

(** What a signal does not change of a task. *)
Definition same_task (x y : task) : Prop :=
  pid y = pid x ∧ Sched.parent y = Sched.parent x ∧ name y = name x ∧ pml4 y = pml4 x ∧
  signal_mask y = signal_mask x ∧ sa y = sa x ∧ (state y = T_UNUSED ↔ state x = T_UNUSED).

Lemma same_task_trans x y z : same_task x y → same_task y z → same_task x z.
Proof. unfold same_task. intros (?&?&?&?&?&?&?) (?&?&?&?&?&?&?). split_and!; (congruence || tauto). Qed.

(** The scheduler while the task [c] runs on the CPU [me]. *)
Record sched_ok (me c : nat) (s : sched) : Prop := {
  so_cur : current me s = Some c;
  so_run : state (tasks s c) = T_RUNNING;
  so_queues : ∃ Q, queues s Q;
  so_cpu : online me s;
  so_free i : (i < NR_TASKS)%nat → state (tasks s i) = T_UNUSED → rq_cpu (tasks s i) = -1;
}.

Definition posted (me c : nat) (s s' : sched) : Prop :=
  sched_ok me c s' ∧ (∀ i, same_task (tasks s i) (tasks s' i)) ∧ ∀ d, cpu_core (cpus s' d) = cpu_core (cpus s d).

Lemma posted_refl me c s : sched_ok me c s → posted me c s s.
Proof. intros H. by split_and!. Qed.
Lemma posted_trans me c s1 s2 s3 : posted me c s1 s2 → posted me c s2 s3 → posted me c s1 s3.
Proof.
  intros (_ & Ht & Hc) (Hk & Ht' & Hc'). split_and!; [done|intros i; by eapply same_task_trans|intros d; by rewrite Hc'].
Qed.

Lemma post_step me c t sig s : sched_ok me c s → posted me c s (upd_task t (post sig) s).
Proof.
  intros [Hcur Hrun [Q Hq] Hon Hfr]. assert (∀ i, same_task (tasks s i) (tasks (upd_task t (post sig) s) i)) as Hs.
  { intros i. rewrite tasks_upd. by destruct (decide (i = t)) as [->|]. }
  split_and!; [|done|done]. constructor; [done| |exists Q; by apply queues_upd_task|by destruct Hon|].
  - rewrite tasks_upd. by destruct (decide (c = t)) as [->|].
  - intros i Hi. rewrite tasks_upd. destruct (decide (i = t)) as [->|]; by apply Hfr.
Qed.

Lemma wake_step sts me c t s : sched_ok me c s → (t < NR_TASKS)%nat → T_UNUSED ∉ sts → T_RUNNING ∉ sts →
  posted me c s (wake_from sts me t s).
Proof.
  intros Hok Ht Hnu Hnr. unfold wake_from. case_bool_decide as Hin; [|by apply posted_refl]. destruct Hok as [Hcur Hrun [Q Hq] Hon Hfr].
  set (s1 := upd_task t (set_state T_RUNNABLE) s).
  assert (queues s1 Q) as Hq1 by (by apply queues_upd_task).
  destruct (runqueue_add_any me t s1 Q Hq1 ltac:(by destruct Hon) Ht) as (Q' & Hq' & (Hco & Hcp & _) & _).
  assert (∀ i, i ≠ t → tasks (runqueue_add me t s1) i = tasks s i) as Hoth.
  { intros i Hi. rewrite runqueue_add_tasks by done. unfold s1. by rewrite tasks_upd, decide_False. }
  pose proof (Hco t) as Hct. unfold s1 in Hct at 2. rewrite tasks_upd, decide_True in Hct by done.
  destruct (core_fields _ _ Hct) as (Cpid & _ & Cst & _ & _ & Cpar & _ & Cmask). destruct (core_more _ _ Hct) as (Cnm & Cpml & Csa).
  assert (c ≠ t) as Hne by (intros ->; rewrite Hrun in Hin; done).
  split_and!; [constructor| |done].
  - unfold current in *. rewrite <- Hcur. exact (f_equal cur (Hcp me)).
  - by rewrite Hoth.
  - by exists Q'.
  - destruct Hon as [Hme Hst]. split; [done|]. rewrite <- Hst. exact (f_equal started (Hcp me)).
  - intros i Hi. destruct (decide (i = t)) as [->|Hi']; [by rewrite Cst|]. rewrite Hoth by done. by apply Hfr.
  - intros i. destruct (decide (i = t)) as [->|Hi']; [|by rewrite Hoth]. split_and!; [done..|]. rewrite Cst. cbn.
    split; [done|]. intros Hx. by rewrite Hx in Hin.
Qed.

Lemma send_signal_step me c t sig s : sched_ok me c s → (t < NR_TASKS)%nat → posted me c s (send_signal me t sig s).
Proof.
  intros Hok Ht.
  assert (∀ sig sts, T_UNUSED ∉ sts → T_RUNNING ∉ sts → posted me c s (wake_from sts me t (upd_task t (post sig) s))) as Hw.
  { intros g sts H1 H2. pose proof (post_step me c t g s Hok) as Hp. eapply posted_trans; [exact Hp|]. apply wake_step; [apply Hp|done..]. }
  unfold send_signal. repeat case_match; try (by apply posted_refl); apply Hw; set_solver.
Qed.

Lemma sys_kill_step me c p sig s : sched_ok me c s → posted me c s (sys_kill me p sig s).2.
Proof.
  intros Hok. unfold sys_kill. destruct (_ || _); [by apply posted_refl|]. destruct (0 <? p).
  - destruct (find_task p s) as [t|] eqn:E; [|by apply posted_refl].
    apply for_find_Some in E as (Ht & _ & _). apply send_signal_step; [done|lia].
  - destruct (p =? -1); [|by apply posted_refl]. cbn [snd].
    apply (for_loop_ind (λ _ s', posted me c s s') _ 0 NR_TASKS s); [by apply posted_refl|].
    intros i x Hi Hx. destruct (_ && _); [|done]. eapply posted_trans; [exact Hx|]. apply send_signal_step; [apply Hx|lia].
Qed.

(** ** Steps of the running process *)

Section steps.
Context {S N : Type} `{FrameLaws S}.
Implicit Types (k : kern S N) (s : S) (A : list (Z * nat)) (R : list (Z * Z)).

(** The process [c] keeps running after a step that changes at most its own
    descriptors, memory and signal state, and the pending signals and the run
    state of other tasks. *)
Record confined (master : Z) (me c : nat) R A k k' : Prop := {
  cf_exec : ∃ Q, executing master me c R A Q k';
  cf_mem : own_words A (mem k) (mem k');
  cf_self : pid (tasks (sch k') c) = pid (tasks (sch k) c) ∧ root_of c k' = root_of c k ∧
    Sched.parent (tasks (sch k') c) = Sched.parent (tasks (sch k) c);
  cf_others i : i ≠ c → same_task (tasks (sch k) i) (tasks (sch k') i) ∧ procs k' i = procs k i;
}.

(** ... and its registers are as they were. *)
Definition local_step master me c R A k k' : Prop :=
  confined master me c R A k k' ∧ tf (procs k' c) = tf (procs k c).

Lemma confined_trans master me c R A k1 k2 k3 :
  confined master me c R A k1 k2 → confined master me c R A k2 k3 → confined master me c R A k1 k3.
Proof.
  intros [_ Hm (Hp & Hr & Ha) Ho] [He Hm' (Hp' & Hr' & Ha') Ho']. constructor; [done|by eapply own_words_trans|split_and!; congruence|].
  intros i Hi. destruct (Ho i Hi) as [Ht Hq]. destruct (Ho' i Hi) as [Ht' Hq']. split; [by eapply same_task_trans|congruence].
Qed.
Lemma local_trans master me c R A k1 k2 k3 :
  local_step master me c R A k1 k2 → local_step master me c R A k2 k3 → local_step master me c R A k1 k3.
Proof. intros [Hc Ht] [Hc' Ht']. split; [by eapply confined_trans|congruence]. Qed.

Lemma local_refl master me c R A Q k : executing master me c R A Q k → local_step master me c R A k k.
Proof. intros He. split; [|done]. constructor; [by exists Q|done|done|]. intros i _. split; [by split_and!|done]. Qed.

Lemma executing_sched master me c R A Q k : executing master me c R A Q k → sched_ok me c (sch k).
Proof. intros [Hcur [_ Hr] _ _ Hq [Hme Hst] Hfr]. constructor; [done|done|by exists Q|done|]. intros i Hi Hu. by apply Hfr. Qed.

(** A step that leaves the page table of the caller alone. *)
Lemma executing_local master me c R A Q k k' : executing master me c R A Q k →
  fd_ok R (user_frames (mem k) (root_of c k) ++ A) k' → own_words (user_frames (mem k) (root_of c k) ++ A) (mem k) (mem k') →
  foreign_words (mem k) (mem k') → sched_ok me c (sch k') →
  pid (tasks (sch k') c) = pid (tasks (sch k) c) → root_of c k' = root_of c k →
  Sched.parent (tasks (sch k') c) = Sched.parent (tasks (sch k) c) →
  (∀ i, i ≠ c → same_task (tasks (sch k) i) (tasks (sch k') i) ∧ procs k' i = procs k i) →
  confined master me c R A k k'.
Proof.
  intros [Hcur [Hc Ht] Hmem Hmo Hq Hcpu Hfr] Hok Hw Hf [Hcur' Hrun' [Q' Hq'] [Hme Hst] Hfr'] Hpid Hroot Hpar Hoth.
  constructor; [|by eapply own_words_r|done|done].
  exists Q'. constructor; [done|done| |by eapply master_step|done|done|].
  - rewrite Hroot. by rewrite (user_frames_ext _ _ _ (own_words_l _ _ _ _ Hw)).
  - intros i Hi Hu. split; [by apply Hfr'|]. assert (i ≠ c) as Hne by (intros ->; congruence).
    destruct (Hoth i Hne) as [(_ & _ & _ & _ & _ & _ & Hs) ->]. by apply Hfr; [|apply Hs].
Qed.

(** The kernel copies [bs] out to the caller. *)
Lemma copyout_step master me c R A Q k p bs s : executing master me c R A Q k → 0 ≤ p < 2 ^ 64 → bytes_ok bs →
  Z.of_nat (length bs) < 2 ^ 64 → copy_to_user (root_of c k) p bs (mem k) = Some s →
  local_step master me c R A k (set_mem s k) ∧
  ∀ a, view (root_of c k) s a = overlay p bs (view (root_of c k) (mem k)) a.
Proof.
  intros He Hp Hb Hl. rewrite copy_to_user_alt. destruct (user_ptr_ok _ _ _ _) eqn:Eu; [|done]. intros [= <-].
  destruct (fd_ok_owned _ _ _ (ex_mem _ _ _ _ _ _ _ He)) as [P Ho]. rewrite <- app_assoc in Ho.
  apply (user_ptr_ok_spec _ _ (Z.of_nat (length bs)) _ _ Ho Hp ltac:(lia)) in Eu as [_ Hr].
  destruct (store_step master me c R A Q k p bs He Hb) as (He' & Hw & Hv); [intros a Ha; by apply readable_mapped, Hr|].
  split; [|exact Hv]. split; [|done]. constructor; [by exists Q|done|done|]. intros i _. split; [by split_and!|done].
Qed.

(** The caller's signal state changes. *)
Lemma self_step master me c R A Q k g : executing master me c R A Q k →
  (∀ x, pid (g x) = pid x ∧ pml4 (g x) = pml4 x ∧ Sched.parent (g x) = Sched.parent x ∧ state (g x) = state x ∧
    rq_next (g x) = rq_next x ∧ rq_cpu (g x) = rq_cpu x) →
  local_step master me c R A k (upd_tk c g k).
Proof.
  intros He Hg. pose proof He as [Hcur [Hc Ht] Hmem _ Hq [Hme Hst] Hfr]. destruct (Hg (tasks (sch k) c)) as (G1 & G2 & G3 & G4 & G5 & G6).
  split; [|done].
  eapply (executing_local _ _ _ _ _ _ k); [exact He|by eapply fd_ok_ext|done|apply foreign_words_refl| |..];
    unfold root_of, upd_tk; cbn [sch set_sch procs]; rewrite ?tasks_upd, ?decide_True by done; [|done..|].
  - constructor; [done| |exists Q; apply queues_upd_task; [done|intros x; by destruct (Hg x) as (_&_&_&_&?&?)]|done|].
    + by rewrite tasks_upd, decide_True, G4.
    + intros i Hi. rewrite tasks_upd. destruct (decide (i = c)) as [->|]; [rewrite G4; congruence|by apply Hfr].
  - intros i Hi. rewrite tasks_upd, decide_False by done. split; [by split_and!|done].
Qed.

(** Signals are sent. *)
Lemma kill_step master me c R A Q k p sig : executing master me c R A Q k →
  local_step master me c R A k (set_sch (sys_kill me p sig (sch k)).2 k).
Proof.
  intros He. destruct (sys_kill_step me c p sig (sch k) (executing_sched _ _ _ _ _ _ _ He)) as (Hok & Ht & _). split; [|done].
  destruct (Ht c) as (T1 & T2 & _ & T4 & _).
  eapply executing_local; [exact He|eapply fd_ok_ext; [apply He|done..]|done|apply foreign_words_refl|done..|]. intros i _. by split; [apply Ht|].
Qed.

(** Only the descriptors of the caller and the files change. *)
Lemma fds_step master me c R A Q k k' : executing master me c R A Q k →
  fd_ok R (user_frames (mem k) (root_of c k) ++ A) k' → own_words (user_frames (mem k) (root_of c k) ++ A) (mem k) (mem k') →
  foreign_words (mem k) (mem k') → sch k' = sch k → (∀ i, i ≠ c → procs k' i = procs k i) → tf (procs k' c) = tf (procs k c) →
  local_step master me c R A k k'.
Proof.
  intros He Hok Hw Hf Hs Hp Ht. split; [|done].
  eapply executing_local; [exact He|done..| | | | |]; unfold root_of; rewrite ?Hs; [by eapply executing_sched|done..|].
  intros i Hi. split; [by split_and!|by apply Hp].
Qed.

Lemma set_fd_procs t fd v k : (∀ i, i ≠ t → procs (set_fd t fd v k) i = procs k i) ∧ tf (procs (set_fd t fd v k) t) = tf (procs k t).
Proof. cbn [procs set_fd upd_proc]. split; [intros i Hi; by rewrite fn_lookup_insert_ne|by rewrite fn_lookup_insert]. Qed.

Lemma sys_close_local master me c R A Q k fd : executing master me c R A Q k →
  ∃ r k', sys_close c fd k = Ret (r, k') ∧ local_step master me c R A k k'.
Proof.
  intros He. pose proof He as [_ [Hc _] Hmem _ _ _ _]. destruct (fd_get c fd k) as [p|] eqn:Eg.
  - destruct (close_step _ _ k c fd p Hmem Hc Eg) as (k' & E & Hok & Hw & Hf & Hp & Hs & _). exists 0, k'. split; [done|].
    destruct (set_fd_procs c fd None k) as [P1 P2]. eapply fds_step; [exact He|done..| |]; rewrite Hp; done.
  - unfold sys_close. rewrite Eg. eexists _, k. split; [done|by eapply local_refl].
Qed.

Lemma get_file_mem p k k' : get_file p k = Ret k' → mem k' = mem k.
Proof. unfold get_file. destruct (files k !! p); [|done]. by intros [= <-]. Qed.

(** The slot of a descriptor is made free. *)
Lemma free_fd_local master me c R A Q k fd : executing master me c R A Q k → 0 ≤ fd < Z.of_nat NR_FDS →
  ∃ k', (if fds (procs k c) (Z.to_nat fd) is Some _ then '(_, k) ← sys_close c fd k; Ret k else Ret k) = Ret k' ∧
    local_step master me c R A k k' ∧ fd_at k' (c, Z.to_nat fd) = None ∧
    ∀ j, j ≠ Z.to_nat fd → fd_at k' (c, j) = fd_at k (c, j).
Proof.
  intros He Hfd. pose proof He as [_ [Hc _] Hmem _ _ _ _]. destruct (fds (procs k c) (Z.to_nat fd)) as [q|] eqn:En.
  2: { exists k. split_and!; [done|by eapply local_refl|done|done]. }
  assert (fd_get c fd k = Some q) as Eg.
  { unfold fd_get. rewrite (proj2 (Z.ltb_ge fd 0)), (proj2 (Z.leb_gt _ fd)) by lia. done. }
  destruct (close_step _ _ k c fd q Hmem Hc Eg) as (k' & -> & Hok & Hw & Hf & Hp & Hs & _). exists k'. split; [done|].
  destruct (set_fd_procs c fd None k) as [P1 P2]. split.
  { eapply fds_step; [exact He|done..| |]; rewrite Hp; done. }
  assert (∀ j, fd_at k' (c, j) = fd_at (set_fd c fd None k) (c, j)) as Hat by (intros j; unfold fd_at; by rewrite Hp).
  split; [by rewrite Hat, fd_at_set, decide_True|]. intros j Hj. rewrite Hat, fd_at_set, decide_False by congruence. done.
Qed.

Lemma sys_dup2_local master me c R A Q k oldfd newfd : executing master me c R A Q k →
  ∃ r k', sys_dup2 c oldfd newfd k = Ret (r, k') ∧ local_step master me c R A k k'.
Proof.
  intros He. pose proof (local_refl _ _ _ _ _ _ _ He) as Hrefl. unfold sys_dup2. destruct (Z.eqb_spec oldfd newfd); [by eexists _, k|].
  destruct (fd_get c oldfd k) as [p|] eqn:E; [|by eexists _, k]. destruct (fd_get_at _ _ _ _ E) as [Hofd Hop].
  destruct (Z.ltb_spec newfd 0); [by eexists _, k|]. destruct (Z.leb_spec (Z.of_nat NR_FDS) newfd); [by eexists _, k|]. cbn [orb].
  destruct (free_fd_local _ _ _ _ _ _ k newfd He ltac:(lia)) as (k1 & -> & Hl & Hn & Hoth). cbn [mbind outcome_bind].
  pose proof Hl as [[[Q1 He1] _ _ _] _]. pose proof He1 as [_ [Hc _] Hmem _ _ _ _].
  destruct (share_inv _ _ k1 c newfd p Hmem Hc) as (k2 & E2 & Hok2 & Hp2 & Hs2 & _); [lia|done| |].
  { apply (open_file _ _ _ k1 (c, Z.to_nat oldfd) p Hmem); [apply elem_of_fd_slots; lia|]. by rewrite Hoth by lia. }
  rewrite E2. cbn [mbind outcome_bind]. eexists _, k2. split; [done|]. eapply local_trans; [exact Hl|].
  pose proof (get_file_mem _ _ _ E2) as Hm. change (mem (set_fd c newfd (Some p) k1)) with (mem k1) in Hm.
  destruct (set_fd_procs c newfd (Some p) k1) as [P1 P2].
  eapply fds_step; [exact He1|done|by rewrite Hm|rewrite Hm; apply foreign_words_refl|done|rewrite Hp2; done..].
Qed.

(** What is copied out after a check of the pointer. *)
Lemma checked_copyout master me c R A Q k p n bs : executing master me c R A Q k → 0 ≤ p < 2 ^ 64 → bytes_ok bs →
  Z.of_nat (length bs) < 2 ^ 64 →
  local_step master me c R A k
    (if negb (p =? 0) && user_ptr_ok (root_of c k) p n (mem k)
     then match copy_to_user (root_of c k) p bs (mem k) with Some s => set_mem s k | None => k end else k).
Proof.
  intros He Hp Hb Hl. pose proof (local_refl _ _ _ _ _ _ _ He). destruct (_ && _); [|done].
  destruct (copy_to_user _ _ _ _) as [s|] eqn:E; [|done]. by eapply (copyout_step _ _ _ _ _ _ k p bs s).
Qed.

Lemma sys_sigaction_local master me c R A Q k pad sig uact uoldact : executing master me c R A Q k →
  bytes_ok pad → length pad = 4%nat → 0 ≤ uoldact < 2 ^ 64 →
  local_step master me c R A k (sys_sigaction pad c sig uact uoldact k).2.
Proof.
  intros He Hb Hl Hu. unfold sys_sigaction. destruct (_ || _); [by eapply local_refl|]. cbn zeta. cbn [snd].
  set (bs := sa_bytes pad (sa (tasks (sch k) c) (Z.to_nat sig))).
  assert (bytes_ok bs ∧ Z.of_nat (length bs) < 2 ^ 64) as [Hbs Hlen].
  { unfold bs, sa_bytes. split; [repeat apply Forall_app_2; (apply le_bytes_range || done)|]. rewrite !length_app, Hl. cbn. lia. }
  pose proof (checked_copyout _ _ _ _ _ _ k uoldact 24 bs He Hu Hbs Hlen) as H1. set (k1 := if negb (uoldact =? 0) && _ then _ else _) in *.
  eapply local_trans; [exact H1|]. destruct H1 as [[[Q1 He1] _ _ _] _]. clearbody k1. pose proof (local_refl _ _ _ _ _ _ _ He1).
  destruct (_ && _); [|done]. destruct (copy_from_user _ _ _ _); [|done]. by eapply self_step.
Qed.

Lemma sys_sigprocmask_local master me c R A Q k how uset uoldset : executing master me c R A Q k → 0 ≤ uoldset < 2 ^ 64 →
  local_step master me c R A k (sys_sigprocmask c how uset uoldset k).2.
Proof.
  intros He Hu. unfold sys_sigprocmask. cbn zeta.
  pose proof (checked_copyout _ _ _ _ _ _ k uoldset 8 (le_bytes 8 (signal_mask (tasks (sch k) c))) He Hu (le_bytes_range _ _) ltac:(by_eval)) as H1.
  set (k1 := if negb (uoldset =? 0) && _ then _ else _) in *.
  eapply local_trans; [exact H1|]. destruct H1 as [[[Q1 He1] _ _ _] _]. clearbody k1. pose proof (local_refl _ _ _ _ _ _ _ He1).
  destruct (_ && _); [|done]. destruct (copy_from_user _ _ _ _); [|done].
  repeat (destruct (_ =? _); [by eapply self_step|]). done.
Qed.

Lemma blk_record_ok {D} (b : blkdev D) : bytes_ok (b_name b) → bytes_ok (blk_record b) ∧ Z.of_nat (length (blk_record b)) < 2 ^ 64.
Proof.
  intros Hb. unfold blk_record. split.
  - repeat apply put32_ok. apply Forall_app_2; [by apply Forall_take|by apply Forall_replicate].
  - rewrite !length_put32, length_app, length_replicate, length_take. lia.
Qed.

Lemma set_mem_id k : set_mem (mem k) k = k.
Proof. by destruct k as [? [] ? ? ?]. Qed.

Lemma blk_list_local {D} master me c R A ubuf (bs : list (blkdev D)) : ∀ i Q k, executing master me c R A Q k →
  Forall (λ b, bytes_ok (b_name b)) bs →
  local_step master me c R A k (set_mem (blk_list_loop (root_of c k) ubuf bs i (mem k)).2 k).
Proof.
  induction bs as [|b bs IH]; intros i Q k He Hbs; cbn [blk_list_loop snd]; rewrite ?set_mem_id; [by eapply local_refl|].
  apply Forall_cons in Hbs as [[Hb Hl]%blk_record_ok Hbs]. destruct (copy_to_user _ _ _ _) as [m|] eqn:E; cbn [snd]; rewrite ?set_mem_id; [|by eapply local_refl].
  destruct (copyout_step _ _ _ _ _ _ k (u64 (ubuf + i * 28)) _ m He ltac:(apply Z.mod_pos_bound; lia) Hb Hl E) as [H1 _]. eapply local_trans; [exact H1|].
  destruct H1 as [[[Q1 He1] _ _ _] _]. exact (IH (i + 1) Q1 _ He1 Hbs).
Qed.
End steps.

(** ** The switch *)

(** The calls that neither block nor enter a file system, and leave the address
    space of the caller as it is. *)
Definition local_call (n : sysno) : bool :=
  match n with
  | SYS_close | SYS_dup2 | SYS_getpid | SYS_getppid | SYS_getcpu | SYS_uname | SYS_kill | SYS_sigaction | SYS_sigprocmask
  | SYS_diskinfo | SYS_fb_info | SYS_fb_clear | SYS_fb_fill | SYS_fb_char | SYS_fb_puts => true
  | _ => false
  end.

Section switch.
Context {S F Nd D : Type} `{FrameLaws S} `{FileSys F Nd}.
Implicit Types (w : machine S F Nd D) (k : kern S (fdata Nd)) (A : list (Z * nat)) (R : list (Z * Z)).

(** What a call gives the caller. *)
Definition answers (me c : nat) (n : sysno) (p r : Z) k k' : Prop :=
  match n with
  | SYS_getpid => r = pid (tasks (sch k) c)
  | SYS_getppid => r = match Sched.parent (tasks (sch k) c) with Some q => pid (tasks (sch k) q) | None => 0 end
  | SYS_getcpu => r = Z.of_nat me
  | SYS_uname =>
      (r = 0 ∧ ∀ a, view (root_of c k) (mem k') a = overlay p utsname (view (root_of c k) (mem k)) a) ∨
      (r = LNXRM_EFAULT ∧ mem k' = mem k)
  | _ => True
  end.

(** The machine with another kernel state and another picture. *)
Definition redrawn (g : fb → fb) k w : machine S F Nd D := set_knl k (set_sy (draw g (sy w)) w).

Lemma redrawn_same w : redrawn (λ f, f) (kn (sy w)) w = w.
Proof. by destruct w as [[? ? ? ? [] ? ?] ? ?]. Qed.
Lemma redrawn_kn k w : redrawn (λ f, f) k w = set_knl k w.
Proof. by destruct w as [[? ? ? ? [] ? ?] ? ?]. Qed.
Lemma redrawn_draw g w : redrawn g (kn (sy w)) w = set_sy (draw g (sy w)) w.
Proof. by destruct w as [[] ? ?]. Qed.

Context (master : Z) (code pad : list Z).

Definition goes_on me c R A w n p (x : outcome (call_result * machine S F Nd D)) : Prop :=
  ∃ r k' g, x = Ret (CRet r, redrawn g k' w) ∧ local_step master me c R A (kn (sy w)) k' ∧ draws g ∧
    answers me c n p r (kn (sy w)) k'.

(** Calls that change the kernel only, and calls that draw only. *)
Lemma goes_kern me c R A w n p r k' : local_step master me c R A (kn (sy w)) k' → answers me c n p r (kn (sy w)) k' →
  goes_on me c R A w n p (Ret (CRet r, set_knl k' w)).
Proof. intros Hl Ha. exists r, k', (λ f, f). rewrite redrawn_kn. split_and!; [done|done|apply draws_id|done]. Qed.
Lemma goes_same me c R A Q w n p r : executing master me c R A Q (kn (sy w)) → answers me c n p r (kn (sy w)) (kn (sy w)) →
  goes_on me c R A w n p (Ret (CRet r, w)).
Proof.
  intros He Ha. exists r, (kn (sy w)), (λ f, f). rewrite redrawn_same. split_and!; [done|by eapply local_refl|apply draws_id|done].
Qed.
Lemma goes_draw me c R A Q w n p r g : executing master me c R A Q (kn (sy w)) → draws g → answers me c n p r (kn (sy w)) (kn (sy w)) →
  goes_on me c R A w n p (Ret (CRet r, set_sy (draw g (sy w)) w)).
Proof.
  intros He Hg Ha. exists r, (kn (sy w)), g. rewrite redrawn_draw. split_and!; [done|by eapply local_refl|done|done].
Qed.

Lemma set_sy_same w : set_sy (sy w) w = w.
Proof. by destruct w. Qed.

Lemma user_struct_ok c p n (s : sys S F Nd) l : user_struct c p n s = Some l → bytes_ok l.
Proof. unfold user_struct, copy_from_user. destruct (user_ptr_ok _ _ _ _); [|done]. intros [= <-]. apply load_bytes_range. Qed.

Lemma fb_calls me c R A Q w n p : executing master me c R A Q (kn (sy w)) → 0 ≤ p < 2 ^ 64 →
  (∀ r k k', answers me c n p r k k') →
  goes_on me c R A w n p (on_sys (Ret (sys_fb_info c p (sy w))) w) ∧
  goes_on me c R A w n p (on_sys (Ret (sys_fb_clear (u32 p) (sy w))) w) ∧
  goes_on me c R A w n p (on_sys (Ret (sys_fb_fill c p (sy w))) w) ∧
  goes_on me c R A w n p (on_sys (Ret (sys_fb_char c p (sy w))) w) ∧
  goes_on me c R A w n p (on_sys (Ret (sys_fb_puts c p (sy w))) w).
Proof.
  intros He Hp Ha. assert (∀ r, goes_on me c R A w n p (Ret (CRet r, set_sy (sy w) w))) as Hsame.
  { intros r. rewrite set_sy_same. by eapply goes_same. }
  assert (∀ r g, draws g → goes_on me c R A w n p (Ret (CRet r, set_sy (draw g (sy w)) w))) as Hdraw by (intros r g Hg; by eapply goes_draw).
  unfold on_sys. split_and!.
  - unfold sys_fb_info. destruct (copy_to_user _ _ _ _) as [m|] eqn:E; cbn [mbind outcome_bind]; [|done].
    apply (goes_kern me c R A w n p 0 (set_mem m (kn (sy w)))); [|done]. eapply copyout_step; [exact He|exact Hp| | |exact E].
    + repeat apply Forall_app_2; apply le_bytes_range.
    + by rewrite !length_app.
  - apply Hdraw, draws_clear, Z.mod_pos_bound. lia.
  - unfold sys_fb_fill. destruct (user_struct _ _ _ _) as [l|] eqn:E; cbn [mbind outcome_bind]; [|done].
    apply user_struct_ok in E. apply Hdraw, draws_fill; by apply le32_range.
  - unfold sys_fb_char. destruct (user_struct _ _ _ _) as [l|]; cbn [mbind outcome_bind]; [|done]. apply Hdraw, draws_char.
  - unfold sys_fb_puts. destruct (user_struct _ _ _ _) as [l|]; cbn [mbind outcome_bind]; [|done].
    destruct (copy_user_str _ _ _ _); cbn [mbind outcome_bind]; [|done]. apply Hdraw, draws_puts.
Qed.

Lemma uname_call me c R A Q w p : executing master me c R A Q (kn (sy w)) → 0 ≤ p < 2 ^ 64 →
  goes_on me c R A w SYS_uname p (Ret (do_uname c p w)).
Proof.
  intros He Hp. unfold do_uname. destruct (copy_to_user _ _ _ _) as [m|] eqn:E.
  - destruct (copyout_step _ _ _ _ _ _ (kn (sy w)) p utsname m He Hp) as [Hl Hv]; [|by_eval|done|].
    + repeat constructor; by_eval.
    + apply goes_kern; [done|]. left. split; [done|exact Hv].
  - eapply goes_same; [exact He|]. by right.
Qed.

Lemma diskinfo_call me c R A Q w p n : executing master me c R A Q (kn (sy w)) →
  Forall (λ b, bytes_ok (b_name b)) (blk_list (blks w)) → let k := kn (sy w) in
  goes_on me c R A w SYS_diskinfo p (let '(r, m) := blk_list_all (root_of c k) p n (blks w) (mem k) in Ret (CRet r, set_knl (set_mem m k) w)).
Proof.
  intros He Hb k. rewrite (surjective_pairing (blk_list_all _ _ _ _ _)). apply goes_kern; [|done]. unfold blk_list_all.
  destruct (_ <? 0); cbn [snd]; [rewrite set_mem_id; by eapply local_refl|]. eapply blk_list_local; [exact He|by apply Forall_take].
Qed.

Lemma syscall_do_local me c R A Q f nr a3 w n : executing master me c R A Q (kn (sy w)) →
  sysno_of nr = Some n → local_call n = true → 0 ≤ rdi f < 2 ^ 64 → 0 ≤ a3 < 2 ^ 64 → bytes_ok pad → length pad = 4%nat →
  Forall (λ b, bytes_ok (b_name b)) (blk_list (blks w)) →
  goes_on me c R A w n (rdi f) (syscall_do master code pad me c f nr a3 w).
Proof.
  intros He Hn Hl Hdi Ha3 Hpad Hlen Hbl. unfold syscall_do. rewrite Hn. clear Hn.
  destruct n; try discriminate Hl; cbv beta iota zeta.
  all: try (by (eapply goes_same; [exact He|done])).
  all: try (by (eapply fb_calls; [exact He|done|done])).
  - destruct (sys_close_local _ _ _ _ _ _ _ (i32 (rdi f)) He) as (r & k' & -> & Hs). by apply goes_kern.
  - destruct (sys_dup2_local _ _ _ _ _ _ _ (i32 (rdi f)) (i32 (rsi f)) He) as (r & k' & -> & Hs). by apply goes_kern.
  - rewrite (surjective_pairing (sys_kill _ _ _ _)). apply goes_kern; [by eapply kill_step|done].
  - by eapply uname_call.
  - rewrite (surjective_pairing (sys_sigaction _ _ _ _ _ _)). apply goes_kern; [by eapply sys_sigaction_local|done].
  - rewrite (surjective_pairing (sys_sigprocmask _ _ _ _ _)). apply goes_kern; [by eapply sys_sigprocmask_local|done].
  - eapply goes_same; [exact He|]. destruct He as [_ _ _ _ Hq [Hme Hst] _]. cbn. by rewrite (proj2 (q_chain _ _ Hq me Hme Hst)).
  - by eapply diskinfo_call.
Qed.

(** The registers of the caller are replaced. *)
Lemma set_tf_step me c R A Q k v : executing master me c R A Q k →
  confined master me c R A k (upd_proc c (set_tf v) k) ∧ tf (procs (upd_proc c (set_tf v) k) c) = v.
Proof.
  intros He. pose proof He as [_ _ Hmem _ _ _ _]. cbn [procs upd_proc]. rewrite fn_lookup_insert. split; [|done].
  eapply executing_local; [exact He| |done|apply foreign_words_refl|exact (executing_sched _ _ _ _ _ _ _ He)|done..|].
  - eapply fd_ok_ext; [exact Hmem|done|done|]. intros i. cbn [procs upd_proc].
    destruct (decide (i = c)) as [->|]; [by rewrite fn_lookup_insert|by rewrite fn_lookup_insert_ne].
  - intros i Hi. cbn [procs upd_proc sch]. rewrite fn_lookup_insert_ne by done. split; [by split_and!|done].
Qed.

(** C11. Whatever the registers of the caller hold, a system call that neither
    blocks nor enters a file system returns: the invariant of the kernel is
    kept, no other process changes beyond the signals sent to it, no memory
    outside the caller is written, drawing stays inside the framebuffer, the
    result is in [rax] and the other registers are the caller's when signals
    are looked at; with none to deliver the caller goes on from there. *)
Theorem local_syscall_correct me c R A Q f w n : executing master me c R A Q (kn (sy w)) →
  sysno_of (rax f) = Some n → local_call n = true → Z.land (cs f) 3 = 3 →
  0 ≤ rdi f < 2 ^ 64 → 0 ≤ r10 f < 2 ^ 64 → bytes_ok pad → length pad = 4%nat →
  Forall (λ b, bytes_ok (b_name b)) (blk_list (blks w)) → mode_ok (fmode (cfb (scon (sy w)))) →
  ∃ r k' picture,
    let w' := Machine (Sys k' (mounts (sy w)) (disk_ready (sy w)) (fsys (sy w)) (set_cfb picture (scon (sy w))) (sinp (sy w)) (srx (sy w)))
                (kbuf w) (blks w) in
    syscall_entry master code pad me c f w = ('(fl, k) ← do_signal_check me c k'; Ret (fl, set_knl k w')) ∧
    (deliverable (tasks (sch k') c) = 0 → syscall_entry master code pad me c f w = Ret (Returns, w')) ∧
    confined master me c R A (kn (sy w)) k' ∧
    tf (procs k' c) = Some (set_rflags (Z.lor (rflags f) 0x200) (set_rax (u64 r) f)) ∧
    same_dev (cfb (scon (sy w))) picture ∧ drawn (cfb (scon (sy w))) picture ∧
    answers me c n (rdi f) r (kn (sy w)) k'.
Proof.
  intros He Hn Hl Hcs Hdi H10 Hpad Hlen Hbl Hmode.
  destruct (set_tf_step me c R A Q (kn (sy w)) (Some f) He) as [C1 T1]. set (k1 := upd_proc c (set_tf (Some f)) (kn (sy w))) in *.
  pose proof C1 as [[Q1 He1] _ _ _].
  destruct (syscall_do_local me c R A Q1 f (rax f) (r10 f) (set_knl k1 w) n He1 Hn Hl Hdi H10 Hpad Hlen Hbl)
    as (r & k2 & g & E & [C2 T2] & Hg & Hans).
  change (kn (sy (set_knl k1 w))) with k1 in C2, T2, Hans.
  pose proof C2 as [[Q2 He2] _ _ _]. set (f' := set_rflags (Z.lor (rflags f) 0x200) (set_rax (u64 r) f)).
  destruct (set_tf_step me c R A Q2 k2 (Some f') He2) as [C3 T3]. set (k3 := upd_proc c (set_tf (Some f')) k2) in *.
  exists r, k3, (g (cfb (scon (sy w)))). cbn zeta.
  set (w' := Machine (Sys k3 _ _ _ _ _ _) _ _).
  assert (syscall_entry master code pad me c f w = ('(fl, k) ← do_signal_check me c k3; Ret (fl, set_knl k w'))) as Eentry.
  { unfold syscall_entry. fold k1. rewrite E. cbn [mbind outcome_bind]. change (kn (sy (redrawn g k2 (set_knl k1 w)))) with k2.
    rewrite T2, T1. fold f'. change (cs f') with (cs f). rewrite Hcs. by fold k3. }
  split; [done|]. split.
  { intros Hd. rewrite Eentry. unfold do_signal_check. rewrite Hd. by destruct (pid _ =? 0). }
  split; [by eapply confined_trans; [exact C1|eapply confined_trans; [exact C2|exact C3]]|].
  destruct (Hg _ Hmode) as [Hsd Hdr]. split_and!; [done|done|done|].
  by destruct n.
Qed.
End switch.

Module SyscallDemo.
(** The process of [ExecDemo] calls getpid. *)
Definition w0 : machine pmm_state (list Z) unit unit := Machine ExecDemo.w0 (λ _, 0) (BlkRegistry [] None).
Definition f0 : intr_frame := set_rax 9 TaskDemo.frame0.
End SyscallDemo.

Lemma local_syscall_correct_witness : ∃ k' w',
  syscall_entry 0x50000 [0; 1] [0; 0; 0; 0] 0 3 SyscallDemo.f0 SyscallDemo.w0 =
    ('(fl, k) ← do_signal_check 0 3 k'; Ret (fl, set_knl k w')) ∧
  confined 0x50000 0 3 [] [] (TaskDemo.k_of (fdata unit)) k' ∧
  tf (procs k' 3) = Some (set_rflags (Z.lor (rflags SyscallDemo.f0) 0x200) (set_rax 3 SyscallDemo.f0)).
Proof.
  destruct (local_syscall_correct 0x50000 [0; 1] [0; 0; 0; 0] 0 3 [] [] SchedDemo.Q SyscallDemo.f0 SyscallDemo.w0 SYS_getpid)
    as (r & k' & pic & E & _ & Hc & Ht & _ & _ & Hr).
  - exact (TaskDemo.executing_of _).
  - reflexivity.
  - reflexivity.
  - reflexivity.
  - by_eval.
  - by_eval.
  - repeat constructor; by_eval.
  - reflexivity.
  - constructor.
  - constructor; by_eval.
  - exists k'. eexists. split; [exact E|]. split; [exact Hc|]. rewrite Ht, Hr. reflexivity.
Defined.
